(* ===== verification/_CoqProject ===== *)
-Q . S2P
Prelude.v
GoStrings.v
Netip.v
Ipam.v
Macaddr.v
Protocol.v
Budget.v
Discovery.v
Merge.v
Names.v
GoTime.v
Csv.v
Dhcp.v
Snmp.v
Neighbors.v
Dns.v
Nmap.v
Combined.v
Agent.v
Process.v
Scans.v
Windows.v
Queue.v
Inventory.v
Import.v
InventorySpec.v
Integrity.v
Lifecycle.v
Hardware.v
Records.v
Bulk.v
RecordsSpec.v
Placement.v
Fields.v
Portability.v
PortabilitySpec.v
Listings.v
ListingsSpec.v
Orchestrator.v
Lockout.v
Password.v
Totp.v
Secrets.v
Json.v
Accounts.v
Web.v
Signin.v
Users.v
Pages.v
Batch.v
Api.v
Demo.v
Routes.v
SigninSpec.v
Admins.v
Config.v
Events.v
Install.v
Settings.v
Policy.v
Endpoints.v
Review.v
ReviewSpec.v
Scanforms.v
Scanpages.v
ScanformsSpec.v
Webhooks.v
Oidc.v
OidcSpec.v
Services.v
Trail.v
Pki.v
Certs.v
Backup.v
Probes.v
Link.v
Reload.v
Startup.v
Cli.v
Boot.v
