(* ===== verification/Prelude.v ===== *)
(** * LightIPAM: a verified model of its core logic

    LightIPAM is an IP address manager written in Go. One process, the app, keeps
    an inventory of subnets, addresses and devices in PostgreSQL and serves it;
    other processes, the scanner agents, probe networks on its behalf. The app
    validates a scan job against the allowlist an agent is registered with,
    stores it, sends it to the agent over mTLS and waits; the agent validates it
    again, routes it to a scan backend, merges what the backends saw, and
    answers; the app records the outcome and puts the observed hosts in a review
    queue. This development models that path from end to end, the parsers the
    agent runs on what the network sends it, the schedule and job bookkeeping
    of the app, and its pages, its machine API, and who may use them.

    ** The files

    Foundations, used by all the rest:
    - [Prelude]: results, machine integers, bytes, tactics, generic lemmas;
    - [GoStrings]: the parts of [strings] and [strconv] the program uses, on byte
      strings (case and space are those of ASCII);
    - [Netip]: [net/netip] and [net] addresses and prefixes, their text and order;
    - [GoTime]: instants as nanoseconds since 1970, the civil calendar, one layout;
    - [Csv], [Json]: [encoding/csv]; [encoding/json] on flat objects;
    - [Process]: programs as trees of atomic steps that interleave, and what must have
      come before a step of such a program.

    The agent, [internal/scanner] and [internal/scanner/agent]:
    - [Protocol] ([protocol.go]): wire types, validation of a job, of its targets
      against its allowlist, and of its allowlist against the agent's;
    - [Budget] ([budget.go]): the time budget of a job, on 64-bit integers;
    - [Discovery]: what the backends share (outcome, context, the loop over
      targets) and the two interfaces they promise, [Scoped] (every observation
      is in the job's allowlist) and [TargetScoped] (is one of its targets);
    - [Merge] ([combined.go], [mergeObservations]): one record per address;
    - [Names] ([names.go]), [Dhcp] ([dhcp.go]), [Snmp] ([snmp.go]), [Neighbors]
      ([neighbors.go]), [Dns] ([dns.go]), [Nmap] ([nmap.go]): the backends, each
      with its decoders and its instance of the interface;
    - [Combined] ([combined.go]): the combined scan over the other backends, its
      notice collector and its worker pool;
    - [Agent] ([agent.go], [router.go]): routing, the client check, [processJob];
    - [Probes] ([diagnostics.go]): the agent's view of its host, with its warnings;
    - [Reload] ([certreload.go], [agent.go]): the TLS configurations of both sides and
      the keypair that is read again when its files change;
    - [Link] ([agent.go], [internal/scanner/dispatch]): the agent's endpoints and the
      app's calls to them;
    - [Startup] ([cmd/scanner-agent], [cmd/scanner-certs]): what the environment makes
      of an agent, and the flags of the development certificates.

    The app:
    - [Ipam] ([internal/ipam]), [Macaddr] ([internal/macaddr]): subnet arithmetic
      and MAC analysis;
    - [Scans] ([internal/store/scans.go], with the tables of
      [internal/db/migrations.go]): agents, jobs and schedules as finite maps in a
      [World], one atomic step per statement;
    - [Windows] ([orchestrator/windows.go]): when a due schedule may fire;
    - [Queue] ([internal/store/discoveries.go]): the discovery queue as an
      interface, the class [DiscoveryStore] with its law;
    - [Inventory], [Import] ([internal/store/discoveries.go],
      [internal/store/device_links.go]): subnets, devices, addresses, MACs and
      discoveries as tables; reconciling, recording, reviewing, importing and
      syncing an observation; hardware groups and serial auto-linking.
      [InventorySpec] makes them the instance of [DiscoveryStore] and says what
      each transaction changes; [Integrity], [Lifecycle] and [Hardware] hold
      their theorems;
    - [Records] ([internal/store/ipam.go], [internal/store/devices.go]), [Bulk]
      ([internal/store/bulk.go], [custom_fields.go], [portability.go]): the edits of
      subnets, addresses, devices, MACs, tags and custom fields over the same
      tables. [RecordsSpec] shows that they keep the tables whole; [Placement]
      holds a small logic of programs running alone and, with it, the
      disjointness of subnets, the containment of addresses and what a deletion
      takes; [Fields] holds the custom fields' theorems;
    - [Orchestrator] ([orchestrator/orchestrator.go]): enqueuing, the goroutine
      that runs a job, recording discoveries, the scheduler's tick, enrolment;
    - [Lockout] ([internal/app/lockout.go], [internal/store/login_attempts.go],
      the throttle and password steps of [loginSubmit]);
    - [Password], [Totp] ([internal/auth]): unpadded base32 and base64, password
      hashes, recovery codes, time-based codes over SHA-1 and HMAC; [Secrets] ([auth/tokens.go],
      [internal/secret]): SHA-256 and sealing over an [AEAD];
    - [Portability] ([internal/app/portability.go], [netbox.go],
      [internal/store/portability.go]): imports and exports in two dialects, with
      their theorems in [PortabilitySpec];
    - [Listings] ([internal/store]): the reads behind the pages, link suggestions
      and the search, with theorems in [ListingsSpec].

    The pages and the API, [internal/app], as programs on a [Database] of the
    inventory and the accounts:
    - [Accounts] ([store.go], [totp.go], [api_tokens.go], [oidc.go] of
      [internal/store]): users, sessions, second factors, tokens;
    - [Web] ([app.go], [authz.go]): requests, responses, sessions, form tokens,
      [authorize]; [Signin] ([app.go], [mfa.go]): bootstrap, login, second factor;
      [Users] ([users.go], [account.go], [account_tokens.go], [mfa.go]): managing
      users and one's own account; [Pages] ([app.go], [custom_fields.go]) and
      [Batch] ([bulk.go], [portability.go], [netbox.go]): the inventory's handlers;
      [Api] ([api.go]): the machine API and the bodies the client sends;
    - [Routes]: the route tables and what stands before every change; [SigninSpec],
      [Admins]: the theorems on whole requests, and runs that go wrong; [Demo]: a small
      installation to run them on;
    - [Cli] ([cmd/lightipam-cli]): package [flag], the commands and their requests.

    The settings and what depends on them, as programs on an [Installation], which
    adds to the database what the server keeps in memory ([lift] takes the programs
    above into it):
    - [Config] ([config.go], [time.ParseDuration]): the environment at start;
      [Install]: the installation, its settings under one lock each, the audit entry
      and its hook;
    - [Settings] ([settings.go], [policy.go] and [app.go] of [internal/app]): the tabs
      and the values they keep in the database and in memory;
    - [Policy] ([internal/app/policy.go], [internal/store/policy.go]): the checks of
      overlaps, stale records and unmanaged services;
    - [Events] ([internal/webhook/webhook.go], [fmt] verbs, RFC 3339): the events of an
      audit entry and their wire format; [Endpoints] ([net/url],
      [scanner/endpoint.go], [webhook/endpoint.go]): the guards of agents' and
      receivers' addresses; [Webhooks] ([internal/store/webhooks.go], the dispatcher,
      [notifications.go]): webhooks and their log;
    - [Oidc] ([internal/app/oidc.go], [oidc_settings.go]), [OidcSpec]: single sign-on,
      its settings, its provider and the accounts it leads to;
    - [Review] ([internal/app/discoveries.go]), [ReviewSpec]: the review of
      discoveries and the subnets it suggests;
    - [Scanforms], [Scanpages] ([internal/app/scans.go]), [ScanformsSpec]: the forms
      of scans, agents and schedules, and the handlers around the orchestrator;
    - [Services]: who may change scans, agents, schedules, settings and webhooks;
    - [Trail] ([internal/store/audit.go], [app.go]): the audit log, its page, the
      dashboard, the health checks and the picture of a second factor.

    The host of the server, which adds to the installation the certificate authority in
    force, its row and a directory (the [Host] of [Certs]):
    - [Pki] ([internal/scanner/pki]), [Certs] ([internal/app/certs.go],
      [internal/store/ca.go]): the managed authority and its tab;
    - [Backup] ([internal/backup], [internal/app/backup.go]): backups and their pages.

    - [Boot] ([internal/db], [cmd/server]): the migrations, run by any number of servers
      at once, and what the server starts with.

    ** How the code is modelled

    A Go function returning a value and an error is a function into [result];
    one that can panic returns [option], [None] being the panic. An [int] or
    [Duration] is a [Z]; where its width matters the wrap-around is written out
    ([wrap64] below). A string is a [string] of bytes, a wire packet a list of
    bytes, a Go map a [gmap], and a slice a list. Loops over a packet take fuel;
    the theorems about them show that the fuel given (the length of the packet
    plus one for [skipName], and seventeen passes over it for [readDNSName], whose
    pointer hops are limited to sixteen) is never exhausted, whatever the packet.

    Shared state is explicit. A statement is an [atomic] step of a [prog]; [exec]
    runs a program while an arbitrary environment function changes the world
    before each of its steps, which covers the other goroutines and clients; a
    program [guarantees] a relation when each of its steps is in it, and [steps] lists
    them with the worlds around them; [Boot] lets any number of programs take turns
    ([pool_step]). A handler is a
    program from a request to a response; a page is its template, its title and
    its messages, and the settings an [App] keeps in memory do not change while a
    handler runs. The class
    [Env] gives the clock, the lost statements, the random tokens and the
    [jsonb] input at each step, all arbitrary. The worker pool of the combined
    scan is an arbitrary interleaving of the workers' notes.

    Code outside the repository is a parameter: sockets, the resolver, SNMP
    sessions, the nmap process and the XML decoder, the zone database, Argon2,
    AES-GCM, PostgreSQL's input functions and collation (the class [App]), X.509 and PEM
    (the class [PKI]).
    What a theorem needs of it is a named hypothesis.

    ** What is shown

    - Scope safety: no observation leaves the agent's registered allowlist,
      whatever the network answers ([processJob_scope], from the soundness of
      the scope check [ValidateAgentScope_sound], the backends' contracts and
      [CombinedDiscoverer_contract]); the app only dispatches jobs the agent
      accepts ([ValidateJobForAgent_iff], [enqueue_spec]).
    - Progress: an accepted job is answered ([processJob_completes]); a stored job
      is run once, queued to running to its outcome ([run_history]), isolated
      from the others ([job_isolation]); budgets are exact and bounded
      ([ScanBudget_exact], [ScanBudget_panics_iff], [EstimateTargetHosts_bound]);
      due schedules fire when their window is open ([RunDueSchedules_tick],
      [windowAllows_spec]); the parsers of network data are total ([parse_total]).
    - Data: tables stay well formed under every interleaving ([store_integrity],
      [inventory_integrity]); a discovery moves between its review states only as
      documented ([discovery_lifecycle]), is classified exactly
      ([reconcileDiscovery_spec]) and imported into the longest containing subnet
      ([ImportDiscovery_contract]); hardware groups are joined, left and never
      single ([link_tx_join], [unlink_tx_leaves], [hardware_groups_whole],
      [AutoLinkDeviceBySerial_spec]);
      records stay whole under every edit ([records_integrity]), subnets stay
      disjoint and addresses in their subnets when calls do not overlap
      ([subnets_stay_disjoint], [addresses_stay_contained]; [CreateSubnet_race],
      [UpdateSubnet_strands] and [DeleteSubnet_detaches] show where the code falls
      short), a deleted address takes its orphaned device
      ([DeleteAddress_takes_orphans]), a custom-field form stores what it holds
      ([SetCustomFieldValues_spec]);
      merging equals its reference, is idempotent and keeps the leading source
      ([mergeObservations_reference], [_normal], [_leading]); the combined scan does
      not depend on the order of its workers ([CombinedDiscoverer_schedule]).
    - Formats: DNS names, NetBIOS and mDNS replies, DHCP lease files, SNMP rows,
      CIDR and MAC text round-trip or decode to what they encode; the egress plan
      partitions the targets ([planEgress_partition], [classifyAdjacency_spec]).
    - Logins: the lockout decision is exact and bounds guessing
      ([evaluateLockout_spec], [brute_force_bound]); a stored hash verifies its
      password ([VerifyPassword_HashPassword]); a one-time code is accepted in
      three steps of time and no other ([VerifyTOTP_spec]); a session is created
      after the password, or the second factor, was right and not before
      ([sign_in_needs_password], [second_step_needs_code], [mfa_challenge_lasts]).
    - Access: whatever runs in between, a change follows a live session with its
      form token, an administrator's where one is needed, or an administrator's
      API token ([changes_need_a_session], [api_changes_need_an_admin_token]);
      reading changes nothing ([pages_change_nothing]); a viewer is refused
      ([viewer_is_refused]), but for one lost read ([authorize_fails_open]); no
      request alone takes the last administrator ([an_admin_stays]), two at once
      can ([last_admins_race]). The same holds of scans and agents, of the settings, and
      of certificates and backups ([scan_changes_need_a_session],
      [settings_need_an_admin], [host_changes_need_an_admin]); no request takes an entry
      from the audit log ([audit_trail_kept]).
    - Single sign-on: a session follows a token for this attempt, and an account bound
      to its subject or of its name ([sso_session_needs_identity]); nothing else of the
      accounts changes ([sso_keeps_credentials]).
    - Certificates, backups, agents: the authority in memory and the stored one agree and
      survive a start ([managed_ca_kept]); only whole dumps are published
      ([Create_publishes_whole_dumps]), under names that read back
      ([parseName_buildName]) and lead nowhere else ([backup_name_form]); a dispatched
      job is what the agent does ([dispatch_reaches_agent]); a replaced certificate comes
      into force ([Watch_settles]); an agent that starts is sane
      ([started_agent_is_sane]).
    - Migrations: any number of servers, losing whatever they lose, agree on the schema,
      each script run once and in order ([servers_agree]), and a calm start completes it
      ([Migrate_completes]).
    - Import and export: [validate_body_accounts], [apply_import_sound],
      [export_import_subnets], [parseCSV_csv_file]; the command line and the API
      agree on a body and on the routes ([command_read_back], [commands_routed]).
    - Settings: an environment or a table with any contents gives positive limits
      ([Load_sane], [mergeSettings_positive]); a saved form is in force and is read
      back at the next start ([settingsSecurityUpdate_spec],
      [settingsAuthenticationUpdate_spec]), unless two save at once
      ([saved_settings_race]).
    - Scan forms: what they accept the dispatcher accepts ([forms_make_valid_jobs],
      [validateScanScope_iff]); an untouched edit changes nothing
      ([schedule_form_round_trip]).
    - Review: every host is offered a subnet around it, each missing subnet once,
      until none is missing ([suggestSubnetCIDR_spec], [missingSubnetGroups_partition],
      [missing_subnets_run_out]); the policy view reports what overlaps
      ([evaluateOverlaps_spec]) and counts what it reports ([computePolicy_counts]).
    - Webhooks: addresses inside are refused ([literal_hosts_guarded], with the
      exception [zone_hides_literal]); the tables stay well formed
      ([webhooks_integrity]); an event reaches its subscribers and no one else
      ([deliver_spec]), signed with the secret of the form ([sealed_secret_signs]),
      which a blank field keeps ([blank_secret_keeps]).
    - Listings: suggestions are mutual ([suggestions_are_mutual]); a search finds
      what contains the text ([ilike_contains]) and fails on some devices
      ([searchDevices_fails]).

    ** What is not modelled

    Templates and static files, cookies' attributes, response headers and the HTTP server; logging, signals and shutdown; what
    the SQL of a migration does; the thirty seconds that the deliveries of an event may
    take; the waits of concurrent transactions (each is one atomic step); the order the
    database's collation gives its listings. X.509 and TLS, the OpenID provider, pg_dump
    and the network between app and agent are parameters.
    Case mapping and spaces beyond ASCII are outside the model of [strings]. *)

From stdpp Require Export base gmap sets list strings sorting.
From Stdlib Require Export ZArith Lia.
From Stdlib Require Ascii String.
Export Stdlib.Strings.Ascii (ascii(..)).
Export (notations) Stdlib.Strings.Ascii.

(** ** Results

    A Go function returning [(T, error)] is modelled as [result E T]: [Ok] is
    the nil-error return, [Err] carries the error. *)

Inductive result (E A : Type) : Type :=
| Ok (a : A)
| Err (e : E).
Arguments Ok {_ _} _.
Arguments Err {_ _} _.

#[export] Instance result_ret E : MRet (result E) := λ A a, Ok a.
#[export] Instance result_bind E : MBind (result E) := λ A B f m,
  match m with Ok a => f a | Err e => Err e end.
#[export] Instance result_fmap E : FMap (result E) := λ A B f m,
  match m with Ok a => Ok (f a) | Err e => Err e end.

#[export] Instance result_eq_dec `{EqDecision E, EqDecision A} : EqDecision (result E A).
Proof. solve_decision. Defined.

Definition is_ok {E A} (r : result E A) : bool :=
  match r with Ok _ => true | Err _ => false end.

(** The value an [option] holds, or an error when it holds none. *)
Definition of_option {E A} (e : E) (o : option A) : result E A :=
  match o with Some a => Ok a | None => Err e end.

(** The first error of [f] over a list, in order: the shape of a Go loop that
    returns at the first failing element. *)
Fixpoint first_err {E A} (f : A → option E) (l : list A) : option E :=
  match l with
  | [] => None
  | a :: l => match f a with Some e => Some e | None => first_err f l end
  end.

Fixpoint mapM_result {E A B} (f : A → result E B) (l : list A) : result E (list B) :=
  match l with
  | [] => Ok []
  | a :: l =>
      match f a with
      | Err e => Err e
      | Ok b => match mapM_result f l with Err e => Err e | Ok bs => Ok (b :: bs) end
      end
  end.

(** ** Machine integers

    Go's [int], [int64] and [time.Duration] are 64-bit two's complement on
    every platform the program is built for. *)

Definition int64_min : Z := - 2 ^ 63.
Definition int64_max : Z := 2 ^ 63 - 1.
Definition wrap64 (z : Z) : Z := (z + 2 ^ 63) mod 2 ^ 64 - 2 ^ 63.
Definition wrapu64 (z : Z) : Z := z mod 2 ^ 64.
Definition wrapu32 (z : Z) : Z := z mod 2 ^ 32.
Definition in_int64 (z : Z) : Prop := (int64_min ≤ z ≤ int64_max)%Z.
Definition in_int64b (z : Z) : bool := ((int64_min <=? z) && (z <=? int64_max))%Z.

(** The value of a byte. *)
Definition byte_val (c : ascii) : Z := Z.of_N (Ascii.N_of_ascii c).
(** The byte a [byte(n)] conversion yields. *)
Definition byte_of (n : Z) : ascii := Ascii.ascii_of_N (Z.to_N (n mod 256)).

(** ** Tactics *)

(** Case analysis on every [match], [if] and comparison in the goal or in a
    hypothesis, simplifying as it goes. *)
Ltac split_matches :=
  repeat (case_match; simplify_eq/=; try done).

(** Splits conjunctions of boolean tests into propositions on [Z]. *)
Ltac bool_hyps :=
  repeat match goal with
  | H : context [Is_true] |- _ => progress (apply Is_true_true in H)
  | H : (_ && _)%bool = true |- _ => apply andb_true_iff in H as [? ?]
  | H : (_ || _)%bool = false |- _ => apply orb_false_iff in H as [? ?]
  | H : negb _ = true |- _ => apply negb_true_iff in H
  | H : negb _ = false |- _ => apply negb_false_iff in H
  | H : (_ <=? _)%Z = true |- _ => apply Z.leb_le in H
  | H : (_ <=? _)%Z = false |- _ => apply Z.leb_gt in H
  | H : (_ <? _)%Z = true |- _ => apply Z.ltb_lt in H
  | H : (_ <? _)%Z = false |- _ => apply Z.ltb_ge in H
  | H : (_ =? _)%Z = true |- _ => apply Z.eqb_eq in H
  | H : (_ =? _)%Z = false |- _ => apply Z.eqb_neq in H
  | H : bool_decide _ = true |- _ => apply bool_decide_eq_true in H
  | H : bool_decide _ = false |- _ => apply bool_decide_eq_false in H
  end.

(** Destructs existentials and conjunctions, injects equations, splits
    equivalences and closes the rest by [eauto] or [congruence]: the inversion
    lemmas of error-returning functions. *)
Ltac crush_step :=
  match goal with
  | H : ∃ _, _ |- _ => destruct H
  | H : _ ∧ _ |- _ => destruct H
  | |- _ ↔ _ => split
  | |- _ → _ => intro
  | |- ∀ _, _ => intro
  end.
Ltac crush :=
  repeat first [crush_step | progress simplify_eq/=];
  try done; try congruence; eauto 10; try congruence.

(** ** Generic lemmas *)

Create HintDb lipam.

Lemma byte_val_range c : (0 ≤ byte_val c < 256)%Z.
Proof.
  unfold byte_val. pose proof (Ascii.N_ascii_bounded c). lia.
Qed.

Lemma byte_val_of n : (0 ≤ n < 256)%Z → byte_val (byte_of n) = n.
Proof.
  intros Hn. unfold byte_val, byte_of. rewrite Z.mod_small by lia.
  rewrite Ascii.N_ascii_embedding by lia. lia.
Qed.

Lemma byte_of_val c : byte_of (byte_val c) = c.
Proof.
  pose proof (byte_val_range c). unfold byte_of. rewrite Z.mod_small by lia.
  unfold byte_val. rewrite N2Z.id. apply Ascii.ascii_N_embedding.
Qed.

#[export] Instance byte_val_inj : Inj (=) (=) byte_val.
Proof. intros c1 c2 H. by rewrite <- (byte_of_val c1), <- (byte_of_val c2), H. Qed.

Lemma wrap64_id z : in_int64 z → wrap64 z = z.
Proof.
  unfold in_int64, int64_min, int64_max, wrap64. intros H.
  rewrite Z.mod_small; lia.
Qed.

Lemma wrap64_range z : in_int64 (wrap64 z).
Proof.
  unfold in_int64, int64_min, int64_max, wrap64.
  pose proof (Z.mod_pos_bound (z + 2 ^ 63) (2 ^ 64)). lia.
Qed.

Lemma in_int64b_spec z : in_int64b z = true ↔ in_int64 z.
Proof.
  unfold in_int64b, in_int64. rewrite andb_true_iff, !Z.leb_le. done.
Qed.

Lemma first_err_None {E A} (f : A → option E) l :
  first_err f l = None ↔ Forall (λ a, f a = None) l.
Proof.
  induction l as [|a l IH]; simpl; [by split|].
  rewrite Forall_cons, <- IH. destruct (f a); [|tauto].
  split; [done|]. by intros [? _].
Qed.

Lemma first_err_Some {E A} (f : A → option E) l e :
  first_err f l = Some e ↔
  ∃ l1 a l2, l = l1 ++ a :: l2 ∧ Forall (λ a, f a = None) l1 ∧ f a = Some e.
Proof.
  split.
  - induction l as [|a l IH]; simpl; [done|]. destruct (f a) as [e'|] eqn:Hfa.
    + intros [= ->]. by exists [], a, l.
    + intros (l1 & b & l2 & -> & Hl1 & Hb)%IH. exists (a :: l1), b, l2. by repeat constructor.
  - intros (l1 & a & l2 & -> & Hl1 & Ha). induction Hl1 as [|b l1 Hb _ IH]; simpl.
    + by rewrite Ha.
    + by rewrite Hb.
Qed.

Lemma mapM_result_Ok {E A B} (f : A → result E B) l k :
  mapM_result f l = Ok k ↔ Forall2 (λ a b, f a = Ok b) l k.
Proof.
  revert k. induction l as [|a l IH]; intros k; simpl.
  - split; [intros [= <-]; constructor|]. intros H. by inversion H.
  - split.
    + intros H. destruct (f a) eqn:Ha, (mapM_result f l); simplify_eq/=.
      constructor; [done|]. by apply IH.
    + intros H. inversion H as [|? b ? k' Ha Hk]; subst. apply IH in Hk. by rewrite Ha, Hk.
Qed.

Lemma mapM_result_Err {E A B} (f : A → result E B) l e :
  mapM_result f l = Err e → ∃ a, a ∈ l ∧ f a = Err e.
Proof.
  induction l as [|a l IH]; simpl; [done|]. intros H.
  destruct (f a) eqn:Ha; simplify_eq.
  - destruct (mapM_result f l); simplify_eq. destruct IH as (b & Hb & Hf); [done|].
    exists b. split; [by right|done].
  - exists a. split; [by left|done].
Qed.

#[export] Hint Resolve byte_val_range wrap64_range : lipam.
