(* ===== verification/GoStrings.v ===== *)
(** * Go strings and the parts of [strings] and [strconv] the program uses

    A Go string is a sequence of bytes, here [string] (a sequence of 8-bit
    [ascii]s).  White space and letter case are those of ASCII: the program's
    inputs on which these functions matter (addresses, CIDRs, OIDs, MACs, lease
    files, form fields) are ASCII, and the non-ASCII white space and case folding
    of Go's Unicode tables are not modelled. *)

From S2P Require Import Prelude.

Abbreviation slen := Stdlib.Strings.String.length.

(** ** Characters *)

Definition is_digit (c : ascii) : bool := ((48 <=? byte_val c) && (byte_val c <=? 57))%Z.
Definition digit_val (c : ascii) : Z := (byte_val c - 48)%Z.
Definition digit (d : Z) : ascii := byte_of (48 + d).

Definition lower_ascii (c : ascii) : ascii :=
  if ((65 <=? byte_val c) && (byte_val c <=? 90))%Z then byte_of (byte_val c + 32) else c.
Definition upper_ascii (c : ascii) : ascii :=
  if ((97 <=? byte_val c) && (byte_val c <=? 122))%Z then byte_of (byte_val c - 32) else c.

(** ** [strings] *)

Fixpoint str_map (f : ascii → ascii) (s : string) : string :=
  match s with "" => "" | String c s => String (f c) (str_map f s) end.

Definition to_lower : string → string := str_map lower_ascii.
Definition to_upper : string → string := str_map upper_ascii.

(** [strings.CutPrefix], from which [HasPrefix] and [TrimPrefix] follow. *)
Fixpoint strip_prefix (p s : string) : option string :=
  match p, s with
  | "", _ => Some s
  | String a p, String b s => if decide (a = b) then strip_prefix p s else None
  | String _ _, "" => None
  end.

Definition has_prefix (s p : string) : bool :=
  match strip_prefix p s with Some _ => true | None => false end.
Definition trim_prefix (s p : string) : string := default s (strip_prefix p s).
Definition strip_suffix (p s : string) : option string :=
  String.rev <$> strip_prefix (String.rev p) (String.rev s).
Definition has_suffix (s p : string) : bool :=
  match strip_suffix p s with Some _ => true | None => false end.
Definition trim_suffix (s p : string) : string := default s (strip_suffix p s).

Fixpoint trim_left_func (f : ascii → bool) (s : string) : string :=
  match s with
  | "" => ""
  | String c s' => if f c then trim_left_func f s' else s
  end.
Definition trim_right_func (f : ascii → bool) (s : string) : string :=
  String.rev (trim_left_func f (String.rev s)).
Definition trim_func (f : ascii → bool) (s : string) : string :=
  trim_right_func f (trim_left_func f s).
(** [strings.TrimSpace] *)
Definition trim_space : string → string := trim_func Ascii.is_space.

(** [strings.Contains] *)
Fixpoint contains (s sub : string) : bool :=
  has_prefix s sub ||
  match s with "" => false | String _ s => contains s sub end.

(** [strings.Split(s, sep)] for a one-byte separator. *)
Fixpoint split_on (c : ascii) (s : string) : list string :=
  match s with
  | "" => [""]
  | String a s =>
      if decide (a = c) then "" :: split_on c s
      else match split_on c s with
           | [] => [String a ""]
           | w :: ws => String a w :: ws
           end
  end.

(** [strings.Join] *)
Fixpoint join (sep : string) (l : list string) : string :=
  match l with
  | [] => ""
  | [w] => w
  | w :: ws => w +:+ sep +:+ join sep ws
  end.

(** [strings.Fields] *)
Definition fields : string → list string := String.words.

(** [strings.Count] of a one-byte substring. *)
Fixpoint count_byte (c : ascii) (s : string) : nat :=
  match s with
  | "" => 0
  | String a s => (if decide (a = c) then 1 else 0) + count_byte c s
  end.

(** [strings.ReplaceAll(s, c, "")] *)
Fixpoint remove_byte (c : ascii) (s : string) : string :=
  match s with
  | "" => ""
  | String a s => if decide (a = c) then remove_byte c s else String a (remove_byte c s)
  end.

(** [s[:i]] and [s[i+1:]] around the first (respectively the last) [c]. *)
Fixpoint cut_byte (c : ascii) (s : string) : option (string * string) :=
  match s with
  | "" => None
  | String a s =>
      if decide (a = c) then Some ("", s)
      else (λ '(x, y), (String a x, y)) <$> cut_byte c s
  end.

Fixpoint cut_last_byte (c : ascii) (s : string) : option (string * string) :=
  match s with
  | "" => None
  | String a s =>
      match cut_last_byte c s with
      | Some (x, y) => Some (String a x, y)
      | None => if decide (a = c) then Some ("", s) else None
      end
  end.

Fixpoint str_to_list (s : string) : list ascii :=
  match s with "" => [] | String c s => c :: str_to_list s end.
Fixpoint str_of_list (l : list ascii) : string :=
  match l with [] => "" | c :: l => String c (str_of_list l) end.

(** ** [strconv] *)

(** The decimal digits of [s] read after the value [acc]; [None] at the first
    byte that is not a digit. *)
Fixpoint parse_digits (acc : Z) (s : string) : option Z :=
  match s with
  | "" => Some acc
  | String c s => if is_digit c then parse_digits (acc * 10 + digit_val c) s else None
  end.

Definition parse_uint (s : string) : option Z :=
  if decide (s = "") then None else parse_digits 0 s.

(** [strconv.Atoi] (and [ParseInt(s, 10, 64)]): an optional sign, at least one
    digit, nothing else, and a value that fits in 64 bits. *)
Definition atoi (s : string) : option Z :=
  let checked z := if in_int64b z then Some z else None in
  match s with
  | String "-"%char s => z ← parse_uint s; checked (- z)%Z
  | String "+"%char s => z ← parse_uint s; checked z
  | _ => z ← parse_uint s; checked z
  end.

Fixpoint utoa_go (fuel : nat) (n : Z) (acc : string) : string :=
  match fuel with
  | O => acc
  | S fuel =>
      let acc := String (digit (n mod 10)) acc in
      if (n / 10 =? 0)%Z then acc else utoa_go fuel (n / 10) acc
  end.

(** [strconv.Itoa]; twenty digits hold every 64-bit integer. *)
Definition utoa (n : Z) : string := utoa_go 20 n "".
Definition itoa (n : Z) : string :=
  if (n <? 0)%Z then "-" +:+ utoa (- n) else utoa n.

(** [%0wd] of a non-negative integer. *)
Definition pad_left (c : ascii) (w : nat) (s : string) : string :=
  str_of_list (replicate (w - slen s) c) +:+ s.
Definition pad_itoa (w : nat) (n : Z) : string := pad_left "0"%char w (itoa n).

(** [%02x] of a byte. *)
Definition hex_digit (n : Z) : ascii := byte_of (if (n <? 10)%Z then 48 + n else 87 + n).
Definition hex_byte (c : ascii) : string :=
  String (hex_digit (byte_val c / 16)) (String (hex_digit (byte_val c mod 16)) "").

(** ** Lemmas: append, prefixes *)

Lemma str_app_nil_l s : "" +:+ s = s.
Proof. done. Qed.

Lemma str_app_cons c s t : String c s +:+ t = String c (s +:+ t).
Proof. done. Qed.

Lemma str_app_nil_r s : s +:+ "" = s.
Proof. induction s; [done|]. by rewrite str_app_cons, IHs. Qed.

Lemma str_app_assoc s t u : (s +:+ t) +:+ u = s +:+ t +:+ u.
Proof. induction s; [done|]. by rewrite !str_app_cons, IHs. Qed.

Lemma slen_app s t : slen (s +:+ t) = slen s + slen t.
Proof. induction s; [done|]. rewrite str_app_cons. simpl. lia. Qed.

Lemma str_app_inj_r s t u : s +:+ u = t +:+ u → s = t.
Proof.
  intros H. assert (slen s = slen t) as Hlen.
  { apply (f_equal slen) in H. rewrite !slen_app in H. lia. }
  revert t H Hlen. induction s as [|a s IH]; intros [|b t] H Hlen; try done.
  rewrite !str_app_cons in H. injection H as -> H. injection Hlen as Hlen.
  f_equal. eauto.
Qed.

Lemma rev_app_spec s t : String.rev_app s t = String.rev s +:+ t.
Proof.
  unfold String.rev. revert t. induction s as [|c s IH]; intros t; [done|].
  simpl. rewrite IH, (IH (String c "")), str_app_assoc. done.
Qed.

Lemma str_rev_cons c s : String.rev (String c s) = String.rev s +:+ String c "".
Proof. unfold String.rev. simpl. by rewrite rev_app_spec. Qed.

Lemma str_rev_app s t : String.rev (s +:+ t) = String.rev t +:+ String.rev s.
Proof.
  induction s as [|c s IH]; [by rewrite str_app_nil_r|].
  by rewrite str_app_cons, !str_rev_cons, IH, str_app_assoc.
Qed.

Lemma str_rev_rev s : String.rev (String.rev s) = s.
Proof. induction s as [|c s IH]; [done|]. by rewrite str_rev_cons, str_rev_app, IH. Qed.

Lemma strip_prefix_Some p s t : strip_prefix p s = Some t ↔ s = p +:+ t.
Proof.
  revert s. induction p as [|a p IH]; intros s; simpl.
  - split; [by intros [= ->]|by intros ->].
  - rewrite str_app_cons. destruct s as [|b s]; [done|]. case_decide as Hab; subst.
    + rewrite IH. split; [by intros ->|by intros [= ->]].
    + split; [done|]. by intros [= ->].
Qed.

Lemma strip_prefix_app p s : strip_prefix p (p +:+ s) = Some s.
Proof. by apply strip_prefix_Some. Qed.

Lemma has_prefix_true s p : has_prefix s p = true ↔ ∃ t, s = p +:+ t.
Proof.
  unfold has_prefix. destruct (strip_prefix p s) as [t|] eqn:H.
  - apply strip_prefix_Some in H. naive_solver.
  - split; [done|]. intros [t Ht%strip_prefix_Some]. congruence.
Qed.

Lemma strip_suffix_Some p s t : strip_suffix p s = Some t ↔ s = t +:+ p.
Proof.
  unfold strip_suffix. rewrite fmap_Some. split.
  - intros (u & Hu%strip_prefix_Some & ->).
    by rewrite <- (str_rev_rev s), Hu, str_rev_app, str_rev_rev.
  - intros ->. exists (String.rev t). rewrite str_rev_app, strip_prefix_app, str_rev_rev. done.
Qed.

Lemma has_suffix_true s p : has_suffix s p = true ↔ ∃ t, s = t +:+ p.
Proof.
  unfold has_suffix. destruct (strip_suffix p s) as [t|] eqn:H.
  - apply strip_suffix_Some in H. naive_solver.
  - split; [done|]. intros [t Ht%strip_suffix_Some]. congruence.
Qed.

Lemma str_to_of_list l : str_to_list (str_of_list l) = l.
Proof. induction l; f_equal/=; done. Qed.
Lemma str_of_to_list s : str_of_list (str_to_list s) = s.
Proof. induction s; f_equal/=; done. Qed.
Lemma str_of_list_app k l : str_of_list (k ++ l) = str_of_list k +:+ str_of_list l.
Proof. induction k; [done|]. simpl. by rewrite str_app_cons, IHk. Qed.
Lemma str_to_list_app s t : str_to_list (s +:+ t) = str_to_list s ++ str_to_list t.
Proof. induction s; [done|]. rewrite str_app_cons. simpl. by rewrite IHs. Qed.
Lemma str_to_list_length s : length (str_to_list s) = slen s.
Proof. induction s; simpl; congruence. Qed.

(** ** Lemmas: splitting and joining *)

Lemma split_on_nonempty c s : split_on c s ≠ [].
Proof. destruct s; simpl; [done|]. split_matches. Qed.

Lemma join_cons sep w l : l ≠ [] → join sep (w :: l) = w +:+ sep +:+ join sep l.
Proof. by destruct l. Qed.

Lemma join_split c s : join (String c "") (split_on c s) = s.
Proof.
  induction s as [|a s IH]; [done|]. simpl.
  destruct (split_on c s) as [|w ws] eqn:Hs; [by apply split_on_nonempty in Hs|].
  destruct (decide (a = c)) as [->|].
  - rewrite join_cons by done. by rewrite IH.
  - rewrite <- IH. by destruct ws.
Qed.

Lemma count_byte_app c s t : count_byte c (s +:+ t) = count_byte c s + count_byte c t.
Proof. induction s; [done|]. rewrite str_app_cons. simpl. lia. Qed.

Lemma split_on_none c s : count_byte c s = 0 → split_on c s = [s].
Proof.
  induction s as [|a s IH]; simpl; [done|]. destruct (decide (a = c)); [done|].
  intros Hc. by rewrite IH.
Qed.

Lemma split_on_app c w s :
  count_byte c w = 0 → split_on c (w +:+ String c s) = w :: split_on c s.
Proof.
  induction w as [|a w IH]; intros H.
  - rewrite str_app_nil_l. simpl. by rewrite decide_True.
  - rewrite str_app_cons. simpl in *. destruct (decide (a = c)); [done|]. by rewrite IH.
Qed.

Lemma split_join c l :
  l ≠ [] → Forall (λ w, count_byte c w = 0) l → split_on c (join (String c "") l) = l.
Proof.
  intros Hl H. induction H as [|w ws Hw Hws IH]; [done|].
  destruct ws as [|w' ws]; [by apply split_on_none|].
  rewrite join_cons, str_app_cons, str_app_nil_l by done.
  rewrite split_on_app by done. by rewrite IH.
Qed.

Lemma split_on_length c s : length (split_on c s) = S (count_byte c s).
Proof.
  induction s as [|a s IH]; simpl; [done|]. case_decide; simpl; [lia|].
  destruct (split_on c s) eqn:Hs; simpl in *; lia.
Qed.

Lemma cut_last_none c s : count_byte c s = 0 → cut_last_byte c s = None.
Proof.
  induction s as [|a s IH]; simpl; [done|].
  destruct (decide (a = c)); [done|]. intros Hc. by rewrite IH.
Qed.

Lemma cut_last_app c x y :
  count_byte c y = 0 → cut_last_byte c (x +:+ String c y) = Some (x, y).
Proof.
  intros Hy. induction x as [|a x IH].
  - rewrite str_app_nil_l. simpl. rewrite cut_last_none by done. by rewrite decide_True.
  - rewrite str_app_cons. simpl. by rewrite IH.
Qed.

Lemma cut_last_None c s : cut_last_byte c s = None → count_byte c s = 0.
Proof.
  induction s as [|a s IH]; simpl; [done|].
  destruct (cut_last_byte c s) as [[]|]; [done|]. destruct (decide (a = c)); [done|]. eauto.
Qed.

Lemma cut_last_Some c s x y :
  cut_last_byte c s = Some (x, y) → s = x +:+ String c y ∧ count_byte c y = 0.
Proof.
  revert x y. induction s as [|a s IH]; intros x y; simpl; [done|].
  destruct (cut_last_byte c s) as [[x' y']|] eqn:Hs.
  - intros [= <- <-]. destruct (IH x' y') as [-> ?]; [done|]. by rewrite str_app_cons.
  - destruct (decide (a = c)) as [->|]; [|done]. intros [= <- <-]. split; [done|].
    by apply cut_last_None.
Qed.

(** ** Lemmas: decimal numbers *)

Section digits.
Local Open Scope Z_scope.

Lemma byte_val_digit d : 0 ≤ d < 10 → byte_val (digit d) = 48 + d.
Proof. intros. apply byte_val_of. lia. Qed.

Lemma is_digit_digit d : 0 ≤ d < 10 → is_digit (digit d) = true.
Proof. intros. unfold is_digit. rewrite byte_val_digit by done. lia. Qed.

Lemma digit_val_digit d : 0 ≤ d < 10 → digit_val (digit d) = d.
Proof. intros. unfold digit_val. rewrite byte_val_digit by done. lia. Qed.

Lemma is_digit_range c : is_digit c = true → 0 ≤ digit_val c < 10.
Proof. unfold is_digit, digit_val. intros. bool_hyps. lia. Qed.

Lemma digit_ne d c : 0 ≤ d < 10 → is_digit c = false → digit d ≠ c.
Proof. intros Hd Hc <-. by rewrite is_digit_digit in Hc. Qed.

Lemma parse_digits_utoa fuel n s :
  0 ≤ n < 10 ^ Z.of_nat fuel → parse_digits 0 (utoa_go fuel n s) = parse_digits n s.
Proof.
  revert n s. induction fuel as [|fuel IH]; intros n s Hn.
  - simpl in *. f_equal. lia.
  - assert (0 ≤ n mod 10 < 10) as Hm by (apply Z.mod_pos_bound; lia).
    pose proof (Z.div_mod n 10 ltac:(lia)) as Hdm.
    cbn [utoa_go]. destruct (n / 10 =? 0) eqn:Hq.
    + apply Z.eqb_eq in Hq. cbn [parse_digits].
      rewrite is_digit_digit, digit_val_digit by done. f_equal. lia.
    + rewrite IH.
      * cbn [parse_digits]. rewrite is_digit_digit, digit_val_digit by done. f_equal. lia.
      * rewrite Nat2Z.inj_succ, Z.pow_succ_r in Hn by lia.
        split; [apply Z.div_pos; lia|apply Z.div_lt_upper_bound; lia].
Qed.

(** Every byte of a printed number is a digit, so no separator occurs in it. *)
Lemma count_byte_utoa c fuel n s :
  is_digit c = false → count_byte c (utoa_go fuel n s) = count_byte c s.
Proof.
  intros Hc. revert n s. induction fuel as [|fuel IH]; intros n s; [done|].
  assert (0 ≤ n mod 10 < 10) as Hm by (apply Z.mod_pos_bound; lia).
  assert (count_byte c (String (digit (n mod 10)) s) = count_byte c s) as Hd.
  { cbn [count_byte]. rewrite decide_False by by apply digit_ne. done. }
  cbn [utoa_go]. destruct (n / 10 =? 0); [done|]. by rewrite IH.
Qed.

Lemma utoa_go_nonempty fuel n s : (fuel ≠ 0)%nat → utoa_go fuel n s ≠ "".
Proof.
  destruct fuel as [|fuel]; [done|]. intros _. cbn [utoa_go].
  destruct (n / 10 =? 0); [done|]. generalize (n / 10). generalize (digit (n mod 10)). revert s.
  induction fuel as [|fuel IH]; intros s d m; [done|]. cbn [utoa_go].
  destruct (m / 10 =? 0); [done|]. apply IH.
Qed.

Lemma parse_uint_utoa n : 0 ≤ n < 10 ^ 20 → parse_uint (utoa n) = Some n.
Proof.
  intros Hn. unfold parse_uint, utoa. rewrite decide_False by by apply utoa_go_nonempty.
  by rewrite parse_digits_utoa.
Qed.

Lemma utoa_head fuel n s c t :
  (fuel ≠ 0)%nat → utoa_go fuel n s = String c t → is_digit c = true.
Proof.
  revert n s. induction fuel as [|fuel IH]; intros n s Hf; [done|]. cbn [utoa_go].
  assert (is_digit (digit (n mod 10)) = true).
  { apply is_digit_digit, Z.mod_pos_bound. lia. }
  destruct (n / 10 =? 0); [by intros [= <- <-]|].
  destruct fuel as [|fuel]; [by intros [= <- <-]|]. by apply IH.
Qed.

Lemma atoi_unsigned s c t :
  s = String c t → is_digit c = true →
  atoi s = z ← parse_uint s; if in_int64b z then Some z else None.
Proof.
  intros -> Hc. unfold atoi. destruct c as [[] [] [] [] [] [] [] []]; try done.
Qed.

(** [strconv.Atoi] reads back what [strconv.Itoa] prints. *)
Lemma atoi_itoa z : in_int64 z → atoi (itoa z) = Some z.
Proof.
  intros Hz. unfold itoa. pose proof Hz as Hb. apply in_int64b_spec in Hb.
  unfold in_int64, int64_min, int64_max in Hz. destruct (Z.ltb_spec z 0).
  - rewrite str_app_cons, str_app_nil_l. cbn [atoi].
    rewrite parse_uint_utoa by lia. simpl. by rewrite Z.opp_involutive, Hb.
  - destruct (utoa z) as [|c t] eqn:Hu; [by apply utoa_go_nonempty in Hu|].
    rewrite (atoi_unsigned _ c t), <- Hu, parse_uint_utoa; [|lia|done|].
    + simpl. by rewrite Hb.
    + by eapply (utoa_head 20 z "").
Qed.

Lemma itoa_inj z1 z2 : in_int64 z1 → in_int64 z2 → itoa z1 = itoa z2 → z1 = z2.
Proof. intros H1 H2 H. apply (f_equal atoi) in H. rewrite !atoi_itoa in H by done. congruence. Qed.

Lemma itoa_no_sep c z : is_digit c = false → c ≠ "-"%char → count_byte c (itoa z) = 0%nat.
Proof.
  intros Hc Hm. unfold itoa, utoa. destruct (z <? 0).
  - rewrite str_app_cons. cbn [count_byte]. rewrite decide_False by done.
    rewrite str_app_nil_l. by rewrite count_byte_utoa.
  - by rewrite count_byte_utoa.
Qed.

Lemma atoi_range s z : atoi s = Some z → in_int64 z.
Proof.
  assert (∀ o : option Z,
    (y ← o; if in_int64b y then Some y else None) = Some z → in_int64 z) as Hpos.
  { intros [y|]; simpl; [|done]. destruct (in_int64b y) eqn:Hy; [|done].
    intros [= <-]. by apply in_int64b_spec. }
  assert (∀ o : option Z,
    (y ← o; if in_int64b (- y) then Some (- y) else None) = Some z → in_int64 z) as Hneg.
  { intros [y|]; simpl; [|done]. destruct (in_int64b (- y)) eqn:Hy; [|done].
    intros [= <-]. by apply in_int64b_spec. }
  unfold atoi. destruct s as [|[[] [] [] [] [] [] [] []] s]; eauto.
Qed.
End digits.

Lemma join_app_head sep w l : join sep (w :: l) = w +:+ (if decide (l = []) then "" else sep +:+ join sep l).
Proof. destruct l; simpl; by rewrite ?str_app_nil_r. Qed.

(** ** Lemmas: strings without blanks *)

Section blanks.
Local Open Scope Z_scope.

Lemma parse_digits_count c acc s z :
  is_digit c = false → parse_digits acc s = Some z → count_byte c s = 0%nat.
Proof.
  intros Hc. revert acc. induction s as [|d s IH]; intros acc; cbn [parse_digits count_byte]; [done|].
  destruct (is_digit d) eqn:Hd; [|done]. intros H. rewrite decide_False by congruence. eauto.
Qed.

Lemma parse_uint_count c s z :
  is_digit c = false → parse_uint s = Some z → count_byte c s = 0%nat.
Proof.
  intros Hc. unfold parse_uint. destruct (decide _); [done|]. by apply parse_digits_count.
Qed.

Lemma trim_left_no_space s :
  (∀ c, Ascii.is_space c = true → count_byte c s = 0%nat) → trim_left_func Ascii.is_space s = s.
Proof.
  destruct s as [|d s]; [done|]. intros H. cbn [trim_left_func].
  destruct (Ascii.is_space d) eqn:Hd; [|done]. specialize (H d Hd).
  cbn [count_byte] in H. by rewrite decide_True in H.
Qed.

Lemma count_byte_rev c s : count_byte c (String.rev s) = count_byte c s.
Proof.
  induction s as [|d s IH]; [done|]. rewrite str_rev_cons, count_byte_app, IH.
  cbn [count_byte]. destruct (decide (d = c)); lia.
Qed.

Lemma trim_space_id s :
  (∀ c, Ascii.is_space c = true → count_byte c s = 0%nat) → trim_space s = s.
Proof.
  intros H. unfold trim_space, trim_func, trim_right_func.
  rewrite (trim_left_no_space s) by done.
  rewrite trim_left_no_space by (intros c Hc; rewrite count_byte_rev; auto). apply str_rev_rev.
Qed.

Lemma space_not_digit c :
  Ascii.is_space c = true → is_digit c = false ∧ c ≠ "-"%char ∧ c ≠ "."%char ∧ c ≠ "/"%char.
Proof. destruct c as [[] [] [] [] [] [] [] []]; done. Qed.

Lemma cut_byte_app c x y : count_byte c x = 0%nat → cut_byte c (x +:+ String c y) = Some (x, y).
Proof.
  induction x as [|d x IH]; intros Hx.
  - rewrite str_app_nil_l. cbn [cut_byte]. by rewrite decide_True.
  - rewrite str_app_cons. cbn [cut_byte count_byte] in *.
    destruct (decide (d = c)); [done|]. by rewrite IH by lia.
Qed.
End blanks.

Lemma cut_byte_none c s : count_byte c s = 0 → cut_byte c s = None.
Proof.
  induction s as [|d s IH]; cbn [cut_byte count_byte]; [done|].
  destruct (decide (d = c)); [done|]. intros H. by rewrite IH.
Qed.
