(* ===== verification/Netip.v ===== *)
(** * The parts of [net/netip] and [net] the program relies on

    Addresses, their textual form, prefixes and containment, following Go's
    standard library: an IPv4 octet with a leading zero is rejected, a prefix
    length is canonical decimal, [netip.ParseAddr] also accepts IPv6 (with
    [::], an embedded IPv4 tail and a zone), and an IPv4-mapped IPv6 address is
    not IPv4 for [netip] but is for [net.IP]. *)

From S2P Require Import Prelude GoStrings.
Local Open Scope Z_scope.

(** ** Addresses *)

(** [netip.Addr]: the 32-bit (respectively 128-bit) value, and the zone of an
    IPv6 address. *)
Inductive Addr : Type :=
| Addr4 (v : Z)
| Addr6 (v : Z) (zone : string).

#[export] Instance Addr_eq_dec : EqDecision Addr.
Proof. solve_decision. Defined.

Definition is4 (a : Addr) : bool := match a with Addr4 _ => true | Addr6 _ _ => false end.
Definition bit_len (a : Addr) : Z := if is4 a then 32 else 128.
Definition addr_val (a : Addr) : Z := match a with Addr4 v | Addr6 v _ => v end.
Definition addr_zone (a : Addr) : string := match a with Addr4 _ => "" | Addr6 _ z => z end.

Definition addr_wf (a : Addr) : Prop := 0 ≤ addr_val a < 2 ^ bit_len a.

(** Big-endian value of a list of bytes. *)
Definition of_octets (l : list Z) : Z := foldl (λ acc b, acc * 256 + b) 0 l.
Definition octets4 (v : Z) : list Z :=
  [v / 2 ^ 24 mod 256; v / 2 ^ 16 mod 256; v / 2 ^ 8 mod 256; v mod 256].

(** [parseIPv4Fields]: [val] and [digLen] are the octet being read, [fields] the
    finished ones, [first] and [prevdot] the tests [i == 0] and [s[i-1] == '.']. *)
Fixpoint parse_ipv4_fields (first prevdot : bool) (val digLen : Z) (fields : list Z)
    (s : string) : option (list Z) :=
  match s with
  | "" => if decide (length fields < 3)%nat then None else Some (fields ++ [val])
  | String c s =>
      if is_digit c then
        if (digLen =? 1) && (val =? 0) then None
        else
          let val := val * 10 + digit_val c in
          if 255 <? val then None
          else parse_ipv4_fields false false val (digLen + 1) fields s
      else if decide (c = "."%char) then
        if first || prevdot || bool_decide (s = "") then None
        else if decide (length fields = 3)%nat then None
        else parse_ipv4_fields false true 0 0 (fields ++ [val]) s
      else None
  end.

Definition parse_ipv4 (s : string) : option Addr :=
  (λ fs, Addr4 (of_octets fs)) <$> parse_ipv4_fields true false 0 0 [] s.

Definition hex_val (c : ascii) : option Z :=
  let n := byte_val c in
  if (48 <=? n) && (n <=? 57) then Some (n - 48)
  else if (97 <=? n) && (n <=? 102) then Some (n - 87)
  else if (65 <=? n) && (n <=? 70) then Some (n - 55)
  else None.

(** The hexadecimal digits at the front of a group: the value, how many were
    read, and what follows; [None] when there are more than four. *)
Fixpoint parse_hex_group (off acc : Z) (s : string) : option (Z * Z * string) :=
  match s with
  | "" => Some (acc, off, "")
  | String c s' =>
      match hex_val c with
      | None => Some (acc, off, s)
      | Some d => if 3 <? off then None else parse_hex_group (off + 1) (acc * 16 + d) s'
      end
  end.

(** The group loop of [parseIPv6]; [ip] holds the bytes read so far and
    [ellipsis] the position of [::].  Each round reads two bytes (or the final
    four of an embedded IPv4 address), so eight rounds fill the address. *)
Fixpoint parse_ipv6_groups (fuel : nat) (ip : list Z) (ellipsis : option nat) (s : string)
    : option (list Z * option nat * string) :=
  match fuel with
  | O => Some (ip, ellipsis, s)
  | S fuel =>
      '(acc, off, rest) ← parse_hex_group 0 0 s;
      if off =? 0 then None
      else match rest with
      | String "."%char _ =>
          if bool_decide (ellipsis = None) && negb (Nat.eqb (length ip) 12) then None
          else if (16 <? length ip + 4)%nat then None
          else fs ← parse_ipv4_fields true false 0 0 [] s; Some (ip ++ fs, ellipsis, "")
      | "" => Some (ip ++ [acc / 256; acc mod 256], ellipsis, "")
      | String ":"%char rest =>
          let ip := ip ++ [acc / 256; acc mod 256] in
          match rest with
          | "" => None
          | String ":"%char rest' =>
              match ellipsis with
              | Some _ => None
              | None =>
                  if bool_decide (rest' = "") then Some (ip, Some (length ip), "")
                  else if Nat.eqb (length ip) 16 then Some (ip, Some (length ip), rest')
                  else parse_ipv6_groups fuel ip (Some (length ip)) rest'
              end
          | _ => if Nat.eqb (length ip) 16 then Some (ip, ellipsis, rest)
                 else parse_ipv6_groups fuel ip ellipsis rest
          end
      | _ => None
      end
  end.

Definition parse_ipv6_val (inp : string) : option (Z * string) :=
  '(s, zone) ← match cut_byte "%"%char inp with
               | Some (s, "") => None
               | Some (s, zone) => Some (s, zone)
               | None => Some (inp, "")
               end;
  let '(ellipsis, s) := match strip_prefix "::" s with
                        | Some s => (Some O, s)
                        | None => (None, s)
                        end in
  if bool_decide (ellipsis = Some O) && bool_decide (s = "") then Some (0, zone)
  else
    '(ip, ellipsis, s) ← parse_ipv6_groups 8 [] ellipsis s;
    if negb (bool_decide (s = "")) then None
    else
      let n := (16 - length ip)%nat in
      match ellipsis with
      | None => if (n =? 0)%nat then Some (of_octets ip, zone) else None
      | Some e =>
          if (n =? 0)%nat then None
          else Some (of_octets (take e ip ++ replicate n 0 ++ drop e ip), zone)
      end.

Definition parse_ipv6 (inp : string) : option Addr :=
  (λ '(v, zone), Addr6 v zone) <$> parse_ipv6_val inp.

(** [netip.ParseAddr]: the first of ['.'], [':'] and ['%'] decides. *)
Fixpoint parse_addr_from (whole s : string) : option Addr :=
  match s with
  | "" => None
  | String c s =>
      if decide (c = "."%char) then parse_ipv4 whole
      else if decide (c = ":"%char) then parse_ipv6 whole
      else if decide (c = "%"%char) then None
      else parse_addr_from whole s
  end.
Definition parse_addr (s : string) : option Addr := parse_addr_from s s.

(** [Addr.String] of an IPv4 address (the program prints no IPv6 address). *)
Definition addr4_string (v : Z) : string := join "." (map itoa (octets4 v)).

(** ** Prefixes *)

(** [netip.Prefix]; the invalid zero value never reaches the program's code. *)
Record Prefix : Type := PrefixFrom { pfx_addr : Addr; pfx_bits : Z }.

#[export] Instance Prefix_eq_dec : EqDecision Prefix.
Proof. solve_decision. Defined.

Definition prefix_wf (p : Prefix) : Prop :=
  addr_wf (pfx_addr p) ∧ 0 ≤ pfx_bits p ≤ bit_len (pfx_addr p).

(** The leading [bits] bits of a [w]-bit word. *)
Definition mask (w bits : Z) : Z := 2 ^ w - 2 ^ (w - bits).

Definition host_bits (p : Prefix) : Z := bit_len (pfx_addr p) - pfx_bits p.

Definition prefix_masked (p : Prefix) : Prefix :=
  PrefixFrom
    match pfx_addr p with
    | Addr4 v => Addr4 (Z.land v (mask 32 (pfx_bits p)))
    | Addr6 v _ => Addr6 (Z.land v (mask 128 (pfx_bits p))) ""
    end (pfx_bits p).

Definition prefix_contains (p : Prefix) (a : Addr) : bool :=
  match pfx_addr p, a with
  | Addr4 v, Addr4 x => Z.shiftr (Z.lxor x v) (32 - pfx_bits p) =? 0
  | Addr6 v _, Addr6 x zone =>
      bool_decide (zone = "") && (Z.land (Z.lxor x v) (mask 128 (pfx_bits p)) =? 0)
  | _, _ => false
  end.

(** [Prefix.Overlaps]: same family, equal on the shorter prefix (equal prefixes
    are). *)
Definition prefix_overlaps (p o : Prefix) : bool :=
  bool_decide (is4 (pfx_addr p) = is4 (pfx_addr o)) &&
  (let bits := Z.min (pfx_bits p) (pfx_bits o) in
   (bits =? 0) ||
   (addr_val (pfx_addr (prefix_masked (PrefixFrom (pfx_addr p) bits))) =?
    addr_val (pfx_addr (prefix_masked (PrefixFrom (pfx_addr o) bits))))).

Definition parse_bits (s : string) : option Z :=
  match s with
  | String c (String _ _) =>
      if (49 <=? byte_val c) && (byte_val c <=? 57) then atoi s else None
  | _ => atoi s
  end.

(** [netip.ParsePrefix] *)
Definition parse_prefix (s : string) : option Prefix :=
  '(addr, bits) ← cut_last_byte "/"%char s;
  ip ← parse_addr addr;
  if negb (bool_decide (addr_zone ip = "")) then None
  else
    b ← parse_bits bits;
    if (b <? 0) || (bit_len ip <? b) then None else Some (PrefixFrom ip b).

(** [Prefix.String] of an IPv4 prefix. *)
Definition prefix4_string (p : Prefix) : string :=
  addr4_string (addr_val (pfx_addr p)) +:+ "/" +:+ itoa (pfx_bits p).

(** ** [net.IP] and [net.IPNet] *)

(** [IP.To4]: an IPv4-mapped IPv6 address is its IPv4 address. *)
Definition to4 (a : Addr) : Addr :=
  match a with
  | Addr4 v => Addr4 v
  | Addr6 v z => if v / 2 ^ 32 =? 65535 then Addr4 (v mod 2 ^ 32) else Addr6 v z
  end.

(** [net.ParseIP]: no zone, and the result is compared through [To4]. *)
Definition net_parse_ip (s : string) : option Addr :=
  a ← parse_addr s; if bool_decide (addr_zone a = "") then Some (to4 a) else None.

(** [net.IPNet]: the masked address and the mask as its length; [ipn_size] is
    the mask's width (32 or 128). *)
Record IPNet : Type := MkIPNet { ipn_ip : Addr; ipn_ones : Z; ipn_size : Z }.

#[export] Instance IPNet_eq_dec : EqDecision IPNet.
Proof. solve_decision. Defined.

(** [dtoi]: decimal digits, leading zeros allowed, below [0xFFFFFF]. *)
Definition dtoi (s : string) : option Z :=
  n ← parse_uint s; if n <? 16777215 then Some n else None.

(** [net.ParseCIDR]; only the network is used by the program. *)
Definition net_parse_cidr (s : string) : option IPNet :=
  '(addr, m) ← cut_byte "/"%char s;
  ip ← parse_addr addr;
  if negb (bool_decide (addr_zone ip = "")) then None
  else
    n ← dtoi m;
    if bit_len ip <? n then None
    else Some (MkIPNet (pfx_addr (prefix_masked (PrefixFrom ip n))) n (bit_len ip)).

(** [networkNumberAndMask]: a mapped IPv6 network is an IPv4 one. *)
Definition ipnet_norm (n : IPNet) : Addr * Z :=
  match ipn_ip n, to4 (ipn_ip n) with
  | Addr6 _ _, Addr4 v => (Addr4 v, Z.max 0 (ipn_ones n - 96))
  | a, _ => (a, ipn_ones n)
  end.

(** [IPNet.Contains] *)
Definition ipnet_contains (n : IPNet) (ip : Addr) : bool :=
  match ipnet_norm n, to4 ip with
  | (Addr4 v, ones), Addr4 x => Z.land v (mask 32 ones) =? Z.land x (mask 32 ones)
  | (Addr6 v _, ones), Addr6 x _ => Z.land v (mask 128 ones) =? Z.land x (mask 128 ones)
  | _, _ => false
  end.

(** ** Masks and containment *)

Lemma mask_land w k v :
  0 ≤ k ≤ w → 0 ≤ v < 2 ^ w → Z.land v (mask w (w - k)) = v / 2 ^ k * 2 ^ k.
Proof.
  intros Hk Hv. unfold mask. replace (w - (w - k)) with k by lia.
  apply Z.bits_inj'. intros i Hi.
  rewrite Z.land_spec, <- Z.shiftr_div_pow2, <- Z.shiftl_mul_pow2, Z.shiftl_spec by lia.
  replace (2 ^ w - 2 ^ k) with (Z.shiftl (Z.ones (w - k)) k); last first.
  { rewrite Z.shiftl_mul_pow2, Z.ones_equiv by lia.
    replace (2 ^ w) with (2 ^ (w - k) * 2 ^ k) by (rewrite <- Z.pow_add_r by lia; f_equal; lia).
    lia. }
  rewrite Z.shiftl_spec by lia. destruct (Z.ltb_spec i k).
  { rewrite !(Z.testbit_neg_r _ (i - k)) by lia. by rewrite andb_false_r. }
  rewrite Z.testbit_ones_nonneg, Z.shiftr_spec by lia. replace (i - k + k) with i by lia.
  destruct (Z.ltb_spec (i - k) (w - k)); [by rewrite andb_true_r|]. rewrite andb_false_r.
  symmetry. destruct (decide (v = 0)) as [->|]; [apply Z.bits_0|].
  apply Z.bits_above_log2; [lia|]. apply Z.log2_lt_pow2; [lia|].
  apply Z.lt_le_trans with (2 ^ w); [lia|]. apply Z.pow_le_mono_r; lia.
Qed.

Lemma shiftr_lxor_zero a b k :
  0 ≤ k → Z.shiftr (Z.lxor a b) k = 0 ↔ a / 2 ^ k = b / 2 ^ k.
Proof.
  intros Hk. rewrite <- !Z.shiftr_div_pow2, Z.shiftr_lxor by done. apply Z.lxor_eq_0_iff.
Qed.

(** An address is in a block of [2^k] addresses exactly when it is in the
    half-open range of the block. *)
Lemma div_block a b k :
  0 ≤ k → a / 2 ^ k = b / 2 ^ k ↔ b / 2 ^ k * 2 ^ k ≤ a < b / 2 ^ k * 2 ^ k + 2 ^ k.
Proof.
  intros Hk. assert (0 < 2 ^ k) by (apply Z.pow_pos_nonneg; lia).
  pose proof (Z.div_mod a (2 ^ k) ltac:(lia)). pose proof (Z.mod_pos_bound a (2 ^ k) ltac:(lia)).
  split; [intros <-; lia|]. intros Hr. symmetry.
  apply Z.div_unique with (a - b / 2 ^ k * 2 ^ k); lia.
Qed.

Lemma div_pow2_coarser a b j k :
  0 ≤ j ≤ k → a / 2 ^ j = b / 2 ^ j → a / 2 ^ k = b / 2 ^ k.
Proof.
  intros Hjk H. replace k with (j + (k - j)) by lia. rewrite Z.pow_add_r by lia.
  assert (0 < 2 ^ j) by (apply Z.pow_pos_nonneg; lia).
  assert (0 < 2 ^ (k - j)) by (apply Z.pow_pos_nonneg; lia).
  rewrite <- !Z.div_div by lia. by rewrite H.
Qed.

(** The range of addresses of an IPv4 prefix. *)
Definition prefix_first (p : Prefix) : Z := addr_val (pfx_addr p) / 2 ^ host_bits p * 2 ^ host_bits p.
Definition prefix_count (p : Prefix) : Z := 2 ^ host_bits p.

Section prefix4.
Context (p : Prefix) (Hwf : prefix_wf p) (H4 : is4 (pfx_addr p) = true).

Lemma host_bits_range : 0 ≤ host_bits p ≤ 32.
Proof using Hwf H4.
  destruct p as [[v|v z] b], Hwf as [_ Hb]; [|done]. unfold host_bits, bit_len in *; simpl in *. lia.
Qed.

Lemma prefix_masked4 : prefix_masked p = PrefixFrom (Addr4 (prefix_first p)) (pfx_bits p).
Proof using Hwf H4.
  destruct p as [[v|v z] b], Hwf as [Hv Hb]; [|done].
  unfold prefix_masked, prefix_first, host_bits, addr_wf, bit_len in *; simpl in *.
  replace b with (32 - (32 - b)) at 1 by lia. by rewrite mask_land by lia.
Qed.

Lemma prefix_contains4 x :
  prefix_contains p (Addr4 x) = true ↔ prefix_first p ≤ x < prefix_first p + prefix_count p.
Proof using Hwf H4.
  pose proof host_bits_range as Hh.
  destruct p as [[v|v z] b]; [|done]. unfold prefix_contains, prefix_first, prefix_count.
  unfold host_bits, bit_len in *; simpl in *.
  rewrite Z.eqb_eq, shiftr_lxor_zero, div_block by lia. done.
Qed.

Lemma prefix_masked_wf : prefix_wf (prefix_masked p).
Proof using Hwf H4.
  pose proof host_bits_range as Hh. rewrite prefix_masked4.
  destruct p as [[v|v z] b], Hwf as [Hv Hb]; [|done].
  unfold prefix_wf, addr_wf, prefix_first, host_bits, bit_len in *; simpl in *. split; [|done].
  assert (0 < 2 ^ (32 - b)) by (apply Z.pow_pos_nonneg; lia).
  pose proof (Z.div_mod v (2 ^ (32 - b)) ltac:(lia)).
  pose proof (Z.mod_pos_bound v (2 ^ (32 - b)) ltac:(lia)).
  pose proof (Z.div_pos v (2 ^ (32 - b)) ltac:(lia) ltac:(lia)). nia.
Qed.

Lemma prefix_first_masked : prefix_first (prefix_masked p) = prefix_first p.
Proof using Hwf H4.
  pose proof host_bits_range as Hh. rewrite prefix_masked4.
  destruct p as [[v|v z] b]; [|done].
  unfold prefix_first, host_bits, bit_len in *; simpl in *.
  rewrite Z.div_mul; [done|]. apply Z.pow_nonzero; lia.
Qed.
End prefix4.

Lemma prefix_contains4_is4 p a :
  is4 (pfx_addr p) = true → prefix_contains p a = true → is4 a = true.
Proof. destruct p as [[v|v z] b], a; done. Qed.

Lemma host_bits_masked p : host_bits (prefix_masked p) = host_bits p.
Proof. by destruct p as [[v|v z] b]. Qed.

Lemma prefix_masked_is4 p : is4 (pfx_addr (prefix_masked p)) = is4 (pfx_addr p).
Proof. by destruct p as [[v|v z] b]. Qed.

Lemma prefix_masked_bits p : pfx_bits (prefix_masked p) = pfx_bits p.
Proof. done. Qed.

(** ** Textual form: printing and reading back *)

Lemma octets4_range v : Forall (λ b, 0 ≤ b < 256) (octets4 v).
Proof. unfold octets4. repeat constructor; apply Z.mod_pos_bound; lia. Qed.

Lemma of_octets4 v : 0 ≤ v < 2 ^ 32 → of_octets (octets4 v) = v.
Proof.
  intros Hv. unfold of_octets, octets4. cbn [foldl].
  change (2 ^ 24) with 16777216. change (2 ^ 16) with 65536. change (2 ^ 8) with 256.
  change (2 ^ 32) with 4294967296 in Hv.
  Z.div_mod_to_equations. lia.
Qed.

Lemma octets4_of a b c d :
  0 ≤ a < 256 → 0 ≤ b < 256 → 0 ≤ c < 256 → 0 ≤ d < 256 →
  octets4 (of_octets [a; b; c; d]) = [a; b; c; d] ∧ 0 ≤ of_octets [a; b; c; d] < 2 ^ 32.
Proof.
  intros. unfold of_octets, octets4. cbn [foldl].
  change (2 ^ 24) with 16777216. change (2 ^ 16) with 65536. change (2 ^ 8) with 256.
  change (2 ^ 32) with 4294967296.
  set (v := _ + d). assert (v = a * 16777216 + b * 65536 + c * 256 + d) as -> by (subst v; lia).
  split; [|lia]. repeat f_equal; Z.div_mod_to_equations; lia.
Qed.

(** A run of the octet parser over a printed octet. *)
Lemma utoa_octet v :
  0 ≤ v < 256 →
  utoa v = if v <? 10 then String (digit v) ""
           else if v <? 100 then String (digit (v / 10)) (String (digit (v mod 10)) "")
           else String (digit (v / 100)) (String (digit (v / 10 mod 10)) (String (digit (v mod 10)) "")).
Proof.
  intros Hv. assert (v ∈ seqZ 0 256) as Hin by (apply elem_of_seqZ; lia). clear Hv.
  revert v Hin. apply Forall_forall.
  refine (bool_decide_eq_true_1 _ _). vm_compute. reflexivity.
Qed.

Lemma parse_octet first prevdot v fields s :
  0 ≤ v < 256 →
  ∃ n, parse_ipv4_fields first prevdot 0 0 fields (utoa v +:+ s) =
       parse_ipv4_fields false false v n fields s.
Proof.
  intros Hv. rewrite utoa_octet by done.
  assert (∀ f p x n d t, 0 ≤ d < 10 → (n =? 1) && (x =? 0) = false → x * 10 + d <= 255 →
    parse_ipv4_fields f p x n fields (String (digit d) t) =
    parse_ipv4_fields false false (x * 10 + d) (n + 1) fields t) as Hstep.
  { intros f p x n d t Hd Hz Hx. cbn [parse_ipv4_fields].
    rewrite is_digit_digit, digit_val_digit, Hz by done.
    by replace (255 <? x * 10 + d) with false by lia. }
  destruct (Z.ltb_spec v 10); [|destruct (Z.ltb_spec v 100)];
    rewrite ?str_app_cons, ?str_app_nil_l.
  - exists 1. rewrite Hstep by lia. by f_equal.
  - exists 2. assert (0 ≤ v / 10 < 10 ∧ 0 ≤ v mod 10 < 10 ∧ v / 10 * 10 + v mod 10 = v) as (?&?&?).
    { Z.div_mod_to_equations. lia. }
    rewrite !Hstep by lia. f_equal; lia.
  - exists 3.
    assert (0 ≤ v / 100 < 10 ∧ 0 ≤ v / 10 mod 10 < 10 ∧ 0 ≤ v mod 10 < 10 ∧
            (v / 100 * 10 + v / 10 mod 10) * 10 + v mod 10 = v ∧ 0 < v / 100) as (?&?&?&?&?).
    { Z.div_mod_to_equations. lia. }
    rewrite !Hstep by lia. f_equal; lia.
Qed.

Lemma itoa_nonneg v : 0 ≤ v → itoa v = utoa v.
Proof. intros. unfold itoa. by replace (v <? 0) with false by lia. Qed.

Lemma utoa_not_empty v : utoa v ≠ "".
Proof. by apply utoa_go_nonempty. Qed.

Lemma str_app_ne_r s t : t ≠ "" → s +:+ t ≠ "".
Proof. by destruct s, t. Qed.

Lemma parse_dot val n fields s :
  s ≠ "" → length fields ≠ 3%nat →
  parse_ipv4_fields false false val n fields (String "."%char s) =
  parse_ipv4_fields false true 0 0 (fields ++ [val]) s.
Proof.
  intros Hs Hl. cbn [parse_ipv4_fields]. change (is_digit ".") with false.
  rewrite decide_True, bool_decide_false by done. simpl. by rewrite decide_False.
Qed.

Lemma parse_ipv4_fields_octets a b c d :
  Forall (λ b, 0 ≤ b < 256) [a; b; c; d] →
  parse_ipv4_fields true false 0 0 [] (join "." (map itoa [a; b; c; d])) = Some [a; b; c; d].
Proof.
  rewrite !Forall_cons. intros (Ha & Hb & Hc & Hd & _). simpl.
  rewrite !itoa_nonneg by lia.
  rewrite !str_app_cons, !str_app_nil_l.
  edestruct (parse_octet true false a []) as [n1 ->]; [done|].
  rewrite parse_dot by (try done; apply str_app_ne_r; done).
  edestruct (parse_octet false true b) as [n2 ->]; [done|].
  rewrite parse_dot by (try done; apply str_app_ne_r; done).
  edestruct (parse_octet false true c) as [n3 ->]; [done|].
  rewrite parse_dot by (try done; apply utoa_not_empty).
  rewrite <- (str_app_nil_r (utoa d)).
  edestruct (parse_octet false true d) as [n4 ->]; [done|]. done.
Qed.

Lemma digit_of_val c : is_digit c = true → digit (digit_val c) = c.
Proof. intros _. unfold digit, digit_val. rewrite <- (byte_of_val c) at 2. f_equal. lia. Qed.

Lemma utoa_snoc v d :
  0 < v → 0 ≤ d < 10 → v * 10 + d < 256 → utoa (v * 10 + d) = utoa v +:+ String (digit d) "".
Proof.
  intros Hv Hd Hvd. rewrite !utoa_octet by lia.
  replace (v * 10 + d <? 10) with false by lia.
  assert ((v * 10 + d) / 10 = v ∧ (v * 10 + d) mod 10 = d ∧ (v * 10 + d) / 100 = v / 10) as (->&->&->).
  { Z.div_mod_to_equations. lia. }
  destruct (Z.ltb_spec v 10).
  - by replace (v * 10 + d <? 100) with true by lia.
  - replace (v * 10 + d <? 100) with false by lia. by replace (v <? 100) with true by lia.
Qed.

(** What the octet parser accepts is canonical: the fields it returns print
    back to the text it read. *)
Lemma parse_ipv4_fields_inv s first prevdot val digLen fields fs w :
  (digLen = 0 ∧ w = "" ∧ val = 0 ∧ (first = true ∨ prevdot = true) ∧ (s ≠ "" ∨ fields = [])) ∨
  (0 < digLen ∧ w = utoa val ∧ 0 ≤ val < 256 ∧ (val = 0 → digLen = 1)) →
  (length fields ≤ 3)%nat →
  parse_ipv4_fields first prevdot val digLen fields s = Some fs →
  ∃ octs, fs = fields ++ octs ∧ octs ≠ [] ∧ w +:+ s = join "." (map utoa octs) ∧
          Forall (λ b, 0 ≤ b < 256) octs ∧ length fs = 4%nat.
Proof.
  revert first prevdot val digLen fields w. induction s as [|c s IH];
    intros first prevdot val digLen fields w Hinv Hlen; cbn [parse_ipv4_fields].
  - case_decide as Hl; [done|]. intros [= <-]. exists [val].
    destruct Hinv as [(_ & _ & _ & _ & [?| ->])|(_ & -> & Hv & _)]; [done|simpl in Hl; lia|].
    rewrite length_app, str_app_nil_r. simpl. split_and!; [done|done|done|by constructor|lia].
  - destruct (is_digit c) eqn:Hc.
    + destruct ((digLen =? 1) && (val =? 0)) eqn:Hz; [done|].
      destruct (255 <? val * 10 + digit_val c) eqn:Hov; [done|]. intros Hp.
      pose proof (is_digit_range c Hc) as Hd.
      apply (IH _ _ _ _ _ (w +:+ String c "")) in Hp; [|right|done].
      * rewrite str_app_assoc, str_app_cons, str_app_nil_l in Hp. done.
      * destruct Hinv as [(-> & -> & -> & _)|(HL & -> & Hv & H0)].
        { rewrite str_app_nil_l. split_and!; [lia| |lia|lia|lia].
          rewrite utoa_octet by lia. replace (0 * 10 + digit_val c <? 10) with true by lia.
          by rewrite Z.mul_0_l, Z.add_0_l, digit_of_val. }
        assert (val ≠ 0). { intros ->. specialize (H0 eq_refl). subst. done. }
        split_and!; [lia| |lia|lia|lia]. rewrite utoa_snoc by lia.
        by rewrite digit_of_val.
    + destruct (decide (c = "."%char)) as [->|]; [|done].
      destruct (first || prevdot || bool_decide (s = "")) eqn:Hg; [done|].
      destruct (decide (length fields = 3)%nat) as [|Hl]; [done|]. intros Hp. bool_hyps. subst.
      destruct Hinv as [(_ & _ & _ & Hfp & _)|(_ & -> & Hv & _)]; [by destruct Hfp|].
      apply (IH _ _ _ _ _ "") in Hp; [| |rewrite length_app; simpl; lia].
      * destruct Hp as (octs & -> & Hne & Hs & Hr & H4). exists (val :: octs).
        rewrite <- app_assoc. rewrite str_app_nil_l in Hs. subst s.
        split_and!; [done|done| |by constructor|by rewrite <- app_assoc in H4].
        cbn [map]. rewrite join_cons by by destruct octs. done.
      * left. eauto 10.
Qed.

Lemma parse_ipv4_Some s a :
  parse_ipv4 s = Some a ↔ ∃ v, a = Addr4 v ∧ 0 ≤ v < 2 ^ 32 ∧ s = addr4_string v.
Proof.
  unfold parse_ipv4. rewrite fmap_Some. split.
  - intros (fs & Hfs & ->). apply (parse_ipv4_fields_inv _ _ _ _ _ _ _ "") in Hfs;
      [|left; naive_solver|simpl; lia].
    destruct Hfs as (octs & -> & _ & Hs & Hr & Hl). simpl in *.
    destruct octs as [|a [|b [|c [|d [|]]]]]; simplify_eq/=.
    rewrite !Forall_cons in Hr. destruct Hr as (Ha & Hb & Hc & Hd & _).
    destruct (octets4_of a b c d) as [Ho Hv]; [done..|].
    exists (of_octets [a; b; c; d]). unfold addr4_string. rewrite Ho. split_and!; [done|lia|lia|].
    rewrite str_app_nil_l in Hs. rewrite Hs. simpl. by rewrite !itoa_nonneg by lia.
  - intros (v & -> & Hv & ->). exists (octets4 v). rewrite of_octets4 by done. split; [|done].
    apply (parse_ipv4_fields_octets _ _ _ _ (octets4_range v)).
Qed.

Lemma parse_addr_from_dot whole w s :
  count_byte "."%char w = 0%nat → count_byte ":"%char w = 0%nat → count_byte "%"%char w = 0%nat →
  parse_addr_from whole (w +:+ String "."%char s) = parse_ipv4 whole.
Proof.
  induction w as [|c w IH]; [done|]. rewrite str_app_cons. cbn [count_byte parse_addr_from].
  intros H1 H2 H3. repeat case_decide; try done. by apply IH.
Qed.

(** [netip.ParseAddr] accepts, as IPv4, exactly the canonical dotted quads. *)
Lemma parse_addr4_string v : 0 ≤ v < 2 ^ 32 → parse_addr (addr4_string v) = Some (Addr4 v).
Proof.
  intros Hv. transitivity (parse_ipv4 (addr4_string v)); [|apply parse_ipv4_Some; eauto].
  unfold parse_addr. generalize (addr4_string v) at 1 3 as whole. intros whole.
  unfold addr4_string. pose proof (octets4_range v) as Hr. unfold octets4 in *.
  rewrite !Forall_cons in Hr. destruct Hr as (Ha & _). simpl.
  rewrite str_app_cons, str_app_nil_l.
  apply parse_addr_from_dot; apply itoa_no_sep; done.
Qed.

Lemma parse_ipv6_not4 s v : parse_ipv6 s ≠ Some (Addr4 v).
Proof. unfold parse_ipv6. by destruct (parse_ipv6_val s) as [[]|]. Qed.

Lemma parse_addr4_inv s v :
  parse_addr s = Some (Addr4 v) → 0 ≤ v < 2 ^ 32 ∧ s = addr4_string v.
Proof.
  unfold parse_addr. intros H. assert (parse_ipv4 s = Some (Addr4 v)) as Hp.
  { revert H. generalize s at 2 as t. induction t as [|c t IH]; cbn [parse_addr_from]; [done|].
    destruct (decide (c = "."%char)); [done|].
    destruct (decide (c = ":"%char)); [by intros ?%parse_ipv6_not4|].
    by destruct (decide (c = "%"%char)). }
  apply parse_ipv4_Some in Hp as (w & [= <-] & Hv & ->). done.
Qed.

Lemma parse_addr_4 s a :
  parse_addr s = Some a → is4 a = true → ∃ v, a = Addr4 v ∧ 0 ≤ v < 2 ^ 32 ∧ s = addr4_string v.
Proof. intros H H4. destruct a as [v|]; [|done]. apply parse_addr4_inv in H as [? ->]. eauto. Qed.

Lemma addr4_string_inj v w :
  0 ≤ v < 2 ^ 32 → 0 ≤ w < 2 ^ 32 → addr4_string v = addr4_string w → v = w.
Proof. intros Hv Hw H. apply (f_equal parse_addr) in H. rewrite !parse_addr4_string in H by done.
  congruence. Qed.

Lemma count_join c sep l :
  c ≠ sep → Forall (λ w, count_byte c w = 0%nat) l → count_byte c (join (String sep "") l) = 0%nat.
Proof.
  intros Hc H. induction H as [|w l Hw Hl IH]; [done|]. destruct l as [|w' l]; [done|].
  rewrite join_cons, !count_byte_app, Hw, IH by done. simpl. by rewrite decide_False.
Qed.

Lemma addr4_string_no_sep c v :
  is_digit c = false → c ≠ "-"%char → c ≠ "."%char → count_byte c (addr4_string v) = 0%nat.
Proof.
  intros Hd Hm Hc. apply count_join; [done|]. unfold octets4.
  repeat constructor; by apply itoa_no_sep.
Qed.

(** ** Prefixes: printing and reading back *)

Lemma parse_bits_itoa b : 0 ≤ b ≤ 128 → parse_bits (itoa b) = Some b.
Proof.
  intros Hb. assert (b ∈ seqZ 0 129) as Hin by (apply elem_of_seqZ; lia). clear Hb.
  revert b Hin. apply Forall_forall.
  refine (bool_decide_eq_true_1 _ _). vm_compute. reflexivity.
Qed.

(** [netip.ParsePrefix] reads back what [Prefix.String] prints. *)
Lemma parse_prefix4_string p :
  prefix_wf p → is4 (pfx_addr p) = true → parse_prefix (prefix4_string p) = Some p.
Proof.
  intros [Ha Hb] H4. destruct p as [[v|] b]; [|done]. unfold addr_wf, bit_len in *; simpl in *.
  unfold parse_prefix, prefix4_string; simpl. rewrite str_app_cons, str_app_nil_l.
  rewrite cut_last_app by (by apply itoa_no_sep). simpl.
  rewrite parse_addr4_string by lia. simpl.
  rewrite parse_bits_itoa by lia. simpl.
  unfold bit_len; simpl. replace (b <? 0) with false by lia.
  by replace (32 <? b) with false by lia.
Qed.

Lemma parse_prefix_Some s p :
  parse_prefix s = Some p →
  ∃ x y, cut_last_byte "/"%char s = Some (x, y) ∧ parse_addr x = Some (pfx_addr p) ∧
         parse_bits y = Some (pfx_bits p) ∧ 0 ≤ pfx_bits p ≤ bit_len (pfx_addr p).
Proof.
  unfold parse_prefix. destruct (cut_last_byte "/"%char s) as [[x y]|]; simpl; [|done].
  destruct (parse_addr x) as [ip|] eqn:Hip; simpl; [|done]. case_bool_decide; simpl; [|done].
  destruct (parse_bits y) as [b|] eqn:Hb; simpl; [|done].
  destruct ((b <? 0) || (bit_len ip <? b)) eqn:Hr; [done|]. intros [= <-]. simpl.
  exists x, y. bool_hyps. done.
Qed.

Lemma parse_prefix4_wf s p :
  parse_prefix s = Some p → is4 (pfx_addr p) = true → prefix_wf p.
Proof.
  intros (x & y & _ & Ha & _ & Hb)%parse_prefix_Some H4. split; [|done].
  apply parse_addr_4 in Ha as (v & Hv & Hr & _); [|done]. rewrite Hv. done.
Qed.

(** Containment as equality of the network parts. *)
Lemma prefix_contains4_div p x :
  prefix_wf p → is4 (pfx_addr p) = true →
  prefix_contains p (Addr4 x) = true ↔
  x / 2 ^ host_bits p = addr_val (pfx_addr p) / 2 ^ host_bits p.
Proof.
  intros Hwf H4. pose proof (host_bits_range p Hwf H4).
  rewrite prefix_contains4, div_block by (done || lia). done.
Qed.

Lemma prefix_contains_masked p a :
  prefix_wf p → is4 (pfx_addr p) = true →
  prefix_contains (prefix_masked p) a = prefix_contains p a.
Proof.
  intros Hwf H4. pose proof (prefix_masked_wf p Hwf H4).
  assert (is4 (pfx_addr (prefix_masked p)) = true) by by rewrite prefix_masked_is4.
  apply eq_bool_prop_intro. rewrite !Is_true_true. destruct a as [x|].
  - rewrite !prefix_contains4 by done. unfold prefix_count.
    by rewrite prefix_first_masked, host_bits_masked.
  - split; intros Hc; apply prefix_contains4_is4 in Hc; done.
Qed.

(** Two IPv4 prefixes overlap exactly when an address is in both. *)
Lemma prefix_overlaps4 p o :
  prefix_wf p → prefix_wf o → is4 (pfx_addr p) = true → is4 (pfx_addr o) = true →
  prefix_overlaps p o = true ↔
  ∃ x, prefix_contains p (Addr4 x) = true ∧ prefix_contains o (Addr4 x) = true.
Proof.
  intros Hp0 Ho0 H4p H4o. destruct p as [[v|] b], o as [[w|] c]; try done.
  pose proof Hp0 as Hp. pose proof Ho0 as Ho.
  unfold prefix_wf, addr_wf, bit_len in Hp, Ho. cbn in Hp, Ho.
  assert (∀ q u d, 0 ≤ d ≤ 32 → 0 ≤ u < 2 ^ 32 →
    prefix_masked (PrefixFrom (Addr4 u) d) = q → addr_val (pfx_addr q) = u / 2 ^ (32 - d) * 2 ^ (32 - d)) as Hmask.
  { intros q u d Hd Hu <-. rewrite prefix_masked4 by (unfold prefix_wf, addr_wf, bit_len; cbn; done || lia). done. }
  assert (prefix_overlaps (PrefixFrom (Addr4 v) b) (PrefixFrom (Addr4 w) c) = true ↔
    v / 2 ^ (32 - Z.min b c) = w / 2 ^ (32 - Z.min b c)) as ->.
  { unfold prefix_overlaps. cbn [pfx_addr pfx_bits is4]. rewrite bool_decide_eq_true_2 by done.
    rewrite andb_true_l, orb_true_iff, !Z.eqb_eq.
    rewrite (Hmask _ v (Z.min b c) ltac:(lia) ltac:(lia) eq_refl).
    rewrite (Hmask _ w (Z.min b c) ltac:(lia) ltac:(lia) eq_refl).
    assert (0 < 2 ^ (32 - Z.min b c)) by (apply Z.pow_pos_nonneg; lia). split.
    - intros [Hz|He]; [|nia]. rewrite Hz. by rewrite !Z.div_small by lia.
    - intros He. right. by rewrite He. }
  setoid_rewrite prefix_contains4_div; try done.
  unfold host_bits, bit_len. cbn. split.
  - intros He. destruct (Z.le_ge_cases b c) as [Hbc|Hbc].
    + rewrite Z.min_l in He by done. exists w. by split.
    + rewrite Z.min_r in He by done. exists v. by split.
  - intros (x & Hv & Hw). etrans; [symmetry|].
    + exact (div_pow2_coarser x v (32 - b) (32 - Z.min b c) ltac:(lia) Hv).
    + exact (div_pow2_coarser x w (32 - c) (32 - Z.min b c) ltac:(lia) Hw).
Qed.

Lemma prefix_contains_self p :
  prefix_wf p → is4 (pfx_addr p) = true → prefix_contains p (pfx_addr p) = true.
Proof.
  intros Hwf H4. destruct p as [[v|] b]; [|done]. by apply prefix_contains4_div.
Qed.

(** An IPv4 address is never the text of a prefix. *)
Lemma parse_prefix_addr4 s v : parse_addr s = Some (Addr4 v) → parse_prefix s = None.
Proof.
  intros [_ ->]%parse_addr4_inv. unfold parse_prefix.
  by rewrite cut_last_none by by apply addr4_string_no_sep.
Qed.

(** ** [net] and [netip] agree on IPv4 *)

(** A canonical prefix length is what [net]'s [dtoi] reads. *)
Lemma parse_bits_uint s b : parse_bits s = Some b → 0 ≤ b → parse_uint s = Some b.
Proof.
  assert (∀ s, is_ok (E:=unit) (of_option () (head (str_to_list s))) = true →
    (∀ c, head (str_to_list s) = Some c → is_digit c = true) →
    atoi s = Some b → parse_uint s = Some b) as Hu.
  { intros [|c t] H0 Hd H; [done|]. rewrite (atoi_unsigned _ c t) in H by (done || by apply Hd).
    destruct (parse_uint _); simpl in H; [|done]. by destruct (in_int64b _). }
  intros H Hb. destruct s as [|c [|d t]]; [done| |].
  - destruct (is_digit c) eqn:Hc.
    + apply Hu; [done| |done]. by intros ? [= <-].
    + exfalso. revert H. unfold parse_bits, atoi, parse_uint.
      destruct c as [[] [] [] [] [] [] [] []]; done.
  - unfold parse_bits in H. destruct (_ && _) eqn:Hc; [|done]. bool_hyps.
    apply Hu; [done| |done]. intros ? [= <-]. unfold is_digit. lia.
Qed.

Lemma net_parse_cidr_prefix s p :
  parse_prefix s = Some p → is4 (pfx_addr p) = true →
  net_parse_cidr s = Some (MkIPNet (pfx_addr (prefix_masked p)) (pfx_bits p) 32).
Proof.
  intros (x & y & Hcut & Hx & Hy & Hb)%parse_prefix_Some H4.
  apply cut_last_Some in Hcut as [-> _].
  destruct (parse_addr_4 _ _ Hx H4) as (v & Hv & Hr & ->).
  apply parse_bits_uint in Hy; [|lia]. destruct p as [a b]. cbn [pfx_addr pfx_bits] in *. subst a.
  unfold net_parse_cidr. rewrite cut_byte_app by by apply addr4_string_no_sep.
  cbn [mbind option_bind]. rewrite Hx. cbn [mbind option_bind addr_zone].
  rewrite bool_decide_eq_true_2 by done. cbn [negb]. unfold dtoi. rewrite Hy. cbn [mbind option_bind].
  unfold bit_len in *. cbn [is4] in *.
  replace (b <? 16777215) with true by lia. cbn [mbind option_bind].
  by replace (32 <? b) with false by lia.
Qed.

(** The text of a prefix or of an address has no blanks. *)
Lemma parse_prefix_trim s p : parse_prefix s = Some p → is4 (pfx_addr p) = true → trim_space s = s.
Proof.
  intros (x & y & Hcut & Hx & Hy & Hb)%parse_prefix_Some H4.
  apply cut_last_Some in Hcut as [-> _]. destruct (parse_addr_4 _ _ Hx H4) as (v & Hv & Hr & ->).
  apply parse_bits_uint in Hy; [|lia].
  apply trim_space_id. intros c (Hd & Hm & Hdot & Hs)%space_not_digit.
  rewrite count_byte_app, addr4_string_no_sep by done. cbn [count_byte].
  rewrite decide_False by done. by rewrite (parse_uint_count _ _ _ Hd Hy).
Qed.

Lemma parse_addr4_trim s v : parse_addr s = Some (Addr4 v) → trim_space s = s.
Proof.
  intros [_ ->]%parse_addr4_inv. apply trim_space_id.
  intros c (Hd & Hm & Hdot & Hs)%space_not_digit. by apply addr4_string_no_sep.
Qed.

Lemma parse_addr_from_slash whole s t :
  count_byte "." s = 0%nat → count_byte ":" s = 0%nat → count_byte "%" s = 0%nat →
  parse_addr_from whole (s +:+ t) = parse_addr_from whole t.
Proof.
  induction s as [|c s IH]; intros H1 H2 H3; [by rewrite str_app_nil_l|].
  rewrite str_app_cons. cbn [parse_addr_from count_byte] in *.
  repeat (destruct (decide (c = _)); [done|]). auto.
Qed.

(** A prefix's text is not an address. *)
Lemma parse_ipv4_slash fs first prevdot val dig x y :
  parse_ipv4_fields first prevdot val dig fs (x +:+ String "/" y) = None.
Proof.
  revert first prevdot val dig fs. induction x as [|c x IH]; intros first prevdot val dig fs.
  - rewrite str_app_nil_l. reflexivity.
  - rewrite str_app_cons. cbn [parse_ipv4_fields]. repeat case_match; try done; apply IH.
Qed.

Lemma parse_addr_prefix_text s p :
  parse_prefix s = Some p → is4 (pfx_addr p) = true → parse_addr s = None.
Proof.
  intros (x & y & Hcut & Hx & Hy & Hb)%parse_prefix_Some H4.
  apply cut_last_Some in Hcut as [-> _]. destruct (parse_addr_4 _ _ Hx H4) as (v & Hv & Hr & ->).
  unfold parse_addr. unfold addr4_string at 2, octets4. cbn [map join].
  rewrite !str_app_assoc, parse_addr_from_slash by by apply itoa_no_sep.
  rewrite str_app_cons. cbn [parse_addr_from]. rewrite decide_True by done.
  unfold parse_ipv4. by rewrite parse_ipv4_slash.
Qed.

Lemma ipnet_contains4 p x :
  prefix_wf p → is4 (pfx_addr p) = true → 0 ≤ x < 2 ^ 32 →
  ipnet_contains (MkIPNet (pfx_addr p) (pfx_bits p) 32) (Addr4 x) = prefix_contains p (Addr4 x).
Proof.
  intros Hwf H4 Hx. pose proof (host_bits_range p Hwf H4) as Hh.
  apply eq_bool_prop_intro. rewrite !Is_true_true, prefix_contains4_div by done.
  destruct p as [[v|] b]; [|done]. destruct Hwf as [Hv Hb].
  unfold addr_wf, host_bits, bit_len in *. cbn in Hv, Hb, Hh |- *. rewrite Z.eqb_eq.
  assert (0 < 2 ^ (32 - b)) by (apply Z.pow_pos_nonneg; lia).
  replace b with (32 - (32 - b)) at 1 2 by lia. rewrite !mask_land by lia.
  rewrite Z.mul_cancel_r by lia. split; congruence.
Qed.
