(* ===== verification/Ipam.v ===== *)
(** * IPAM arithmetic: [internal/ipam/ipam.go] *)

From S2P Require Import Prelude GoStrings Netip.
From Stdlib Require Import SpecFloat.
Local Open Scope Z_scope.

(** The errors of the package, one constructor per [fmt.Errorf]. *)
Inductive ipam_error : Type :=
| ErrParseCIDR
| ErrParseAddress
| ErrOnlyIPv4Subnets
| ErrOnlyIPv4Addresses
| ErrInvalidPrefix.

#[export] Instance ipam_error_eq_dec : EqDecision ipam_error.
Proof. solve_decision. Defined.

Definition NormalizeCIDR (value : string) : result ipam_error string :=
  prefix ← of_option ErrParseCIDR (parse_prefix value);
  if negb (is4 (pfx_addr prefix)) then Err ErrOnlyIPv4Subnets
  else Ok (prefix4_string (prefix_masked prefix)).

Definition NormalizeIPv4 (value : string) : result ipam_error string :=
  addr ← of_option ErrParseAddress (parse_addr value);
  match addr with
  | Addr4 v => Ok (addr4_string v)
  | Addr6 _ _ => Err ErrOnlyIPv4Addresses
  end.

(** [uint64(1) << bits] *)
Definition AddressCapacity (cidr : string) : result ipam_error Z :=
  prefix ← of_option ErrParseCIDR (parse_prefix cidr);
  if negb (is4 (pfx_addr prefix)) then Err ErrOnlyIPv4Subnets
  else
    let bits := 32 - pfx_bits prefix in
    if bits <? 0 then Err ErrInvalidPrefix else Ok (wrapu64 (Z.shiftl 1 bits)).

Definition Contains (cidr address : string) : result ipam_error bool :=
  prefix ← of_option ErrParseCIDR (parse_prefix cidr);
  addr ← of_option ErrParseAddress (parse_addr address);
  Ok (prefix_contains prefix addr).

(** [float64] values are IEEE binary64, here [spec_float]; [Rat.Float64] is the
    quotient rounded once to nearest-even, and [uint64] products wrap. *)
Definition float64_of_Z (z : Z) : spec_float :=
  match z with
  | Z0 => S754_zero false
  | Zpos p => S754_finite false p 0
  | Zneg p => S754_finite true p 0
  end.
Definition float64_div : spec_float → spec_float → spec_float := SFdiv 53 1024.
Definition float64_lit (z : Z) : spec_float := float64_div (float64_of_Z z) (float64_of_Z 1).

Definition UtilizationPercent (touched capacity : Z) : spec_float :=
  if capacity =? 0 then S754_zero false
  else
    let percent := float64_div (float64_of_Z (wrapu64 (touched * 10000))) (float64_of_Z capacity) in
    float64_div percent (float64_lit 100).

(** ** Lemmas *)

Lemma NormalizeCIDR_Ok s t :
  NormalizeCIDR s = Ok t ↔
  ∃ p, parse_prefix s = Some p ∧ is4 (pfx_addr p) = true ∧ t = prefix4_string (prefix_masked p).
Proof.
  unfold NormalizeCIDR. destruct (parse_prefix s) as [p|]; simpl; [|crush].
  destruct (is4 (pfx_addr p)) eqn:H4; simpl; crush.
Qed.

Lemma AddressCapacity_Ok s n :
  AddressCapacity s = Ok n ↔
  ∃ p, parse_prefix s = Some p ∧ is4 (pfx_addr p) = true ∧ n = prefix_count p.
Proof.
  unfold AddressCapacity. destruct (parse_prefix s) as [p|] eqn:Hp; simpl; [|crush].
  destruct (is4 (pfx_addr p)) eqn:H4; simpl; [|crush].
  pose proof (host_bits_range p (parse_prefix4_wf _ _ Hp H4) H4) as Hh.
  assert (prefix_count p = 2 ^ (32 - pfx_bits p)) as Hc.
  { unfold prefix_count, host_bits, bit_len. by rewrite H4. }
  unfold host_bits, bit_len in Hh. rewrite H4 in Hh.
  replace (32 - pfx_bits p <? 0) with false by lia.
  rewrite Z.shiftl_mul_pow2, Z.mul_1_l, <- Hc by lia. unfold wrapu64. rewrite Z.mod_small.
  - split; [intros [= <-]; eauto|]. by intros (? & [= <-] & _ & ->).
  - rewrite Hc. split; [lia|]. apply Z.pow_lt_mono_r; lia.
Qed.

Lemma Contains_Ok cidr address b :
  Contains cidr address = Ok b ↔
  ∃ p a, parse_prefix cidr = Some p ∧ parse_addr address = Some a ∧ b = prefix_contains p a.
Proof.
  unfold Contains. destruct (parse_prefix cidr) as [p|]; simpl; [|crush].
  destruct (parse_addr address) as [a|]; simpl; crush.
Qed.

(** The masked prefix of an accepted CIDR reads back from its text. *)
Lemma parse_masked s p :
  parse_prefix s = Some p → is4 (pfx_addr p) = true →
  parse_prefix (prefix4_string (prefix_masked p)) = Some (prefix_masked p).
Proof.
  intros Hp H4. apply parse_prefix4_string.
  - eapply prefix_masked_wf; eauto using parse_prefix4_wf.
  - by rewrite prefix_masked_is4.
Qed.

(** ** Properties *)

(** [NormalizeCIDR] returns the canonical text of the network: it is
    idempotent, and the normalised CIDR has the same capacity and contains
    exactly the same IPv4 addresses as the CIDR it was given. *)
Theorem NormalizeCIDR_canonical (s t : string) :
  NormalizeCIDR s = Ok t →
  NormalizeCIDR t = Ok t ∧
  AddressCapacity t = AddressCapacity s ∧
  ∀ v, 0 ≤ v < 2 ^ 32 → Contains t (addr4_string v) = Contains s (addr4_string v).
Proof.
  intros (p & Hp & H4 & ->)%NormalizeCIDR_Ok.
  pose proof (parse_prefix4_wf _ _ Hp H4) as Hwf.
  pose proof (parse_masked _ _ Hp H4) as Hm.
  pose proof (prefix_masked_wf p Hwf H4) as Hmwf.
  assert (is4 (pfx_addr (prefix_masked p)) = true) as Hm4 by by rewrite prefix_masked_is4.
  split_and!.
  - apply NormalizeCIDR_Ok. exists (prefix_masked p). split_and!; [done..|].
    rewrite (prefix_masked4 (prefix_masked p)), prefix_first_masked by done.
    by rewrite prefix_masked4.
  - transitivity (@Ok ipam_error _ (prefix_count p)); [|symmetry]; apply AddressCapacity_Ok; [|eauto].
    exists (prefix_masked p). split_and!; [done..|].
    unfold prefix_count. by rewrite host_bits_masked.
  - intros v Hv. unfold Contains. rewrite Hm, Hp, parse_addr4_string by done. simpl. f_equal.
    apply eq_bool_prop_intro. rewrite !Is_true_true, !prefix_contains4 by done.
    unfold prefix_count. by rewrite prefix_first_masked, host_bits_masked.
Qed.

Lemma NormalizeCIDR_canonical_witness :
  NormalizeCIDR "10.1.2.3/8" = Ok "10.0.0.0/8" ∧ NormalizeCIDR "10.0.0.0/8" = Ok "10.0.0.0/8".
Proof.
  split; [vm_compute; reflexivity|].
  apply (NormalizeCIDR_canonical "10.1.2.3/8" "10.0.0.0/8"). vm_compute. reflexivity.
Defined.

(** [Contains] and [AddressCapacity] agree: the addresses a valid IPv4 CIDR
    contains are exactly the [capacity] consecutive ones that start at its
    network address. *)
Theorem Contains_capacity (cidr : string) (n : Z) :
  AddressCapacity cidr = Ok n →
  ∃ first, 0 ≤ first ∧ first + n ≤ 2 ^ 32 ∧ (n | first) ∧
    ∀ v, 0 ≤ v < 2 ^ 32 →
      Contains cidr (addr4_string v) = Ok (bool_decide (first ≤ v < first + n)).
Proof.
  intros (p & Hp & H4 & ->)%AddressCapacity_Ok.
  pose proof (parse_prefix4_wf _ _ Hp H4) as Hwf.
  pose proof (host_bits_range p Hwf H4) as Hh.
  destruct Hwf as [Hv Hb]. unfold addr_wf, bit_len in Hv. rewrite H4 in Hv.
  exists (prefix_first p). unfold prefix_first, prefix_count.
  set (k := host_bits p) in *. set (v := addr_val (pfx_addr p)) in *.
  assert (0 < 2 ^ k) by (apply Z.pow_pos_nonneg; lia).
  pose proof (Z.div_pos v (2 ^ k) ltac:(lia) ltac:(lia)).
  split_and!.
  - nia.
  - assert (2 ^ 32 = 2 ^ (32 - k) * 2 ^ k) as Hs.
    { rewrite <- Z.pow_add_r by lia. f_equal; lia. }
    assert (v / 2 ^ k < 2 ^ (32 - k)) by (apply Z.div_lt_upper_bound; lia). nia.
  - by exists (v / 2 ^ k).
  - intros x Hx. unfold Contains. rewrite Hp, parse_addr4_string by done. simpl. f_equal.
    apply eq_bool_prop_intro. rewrite bool_decide_spec, Is_true_true.
    rewrite prefix_contains4 by eauto using parse_prefix4_wf. done.
Qed.

Lemma Contains_capacity_witness :
  ∃ first, 0 ≤ first ∧ first + 16 ≤ 2 ^ 32 ∧ (16 | first) ∧
    ∀ v, 0 ≤ v < 2 ^ 32 →
      Contains "192.168.0.16/28" (addr4_string v) = Ok (bool_decide (first ≤ v < first + 16)).
Proof. apply (Contains_capacity "192.168.0.16/28" 16). vm_compute. reflexivity. Defined.

(** [NormalizeIPv4] is the identity on what it accepts: only canonical dotted
    quads are IPv4 addresses. *)
Lemma NormalizeIPv4_id s t : NormalizeIPv4 s = Ok t → t = s.
Proof.
  unfold NormalizeIPv4. destruct (parse_addr s) as [[v|]|] eqn:Hs; simpl; [|done..].
  intros [= <-]. by apply parse_addr4_inv in Hs as [_ ->].
Qed.

Lemma NormalizeIPv4_Ok s t :
  NormalizeIPv4 s = Ok t ↔ ∃ v, 0 ≤ v < 2 ^ 32 ∧ s = addr4_string v ∧ t = addr4_string v.
Proof.
  split.
  - intros H. pose proof (NormalizeIPv4_id _ _ H) as ->. unfold NormalizeIPv4 in H.
    destruct (parse_addr s) as [[v|]|] eqn:Hs; simpl in H; [|done..].
    apply parse_addr4_inv in Hs as [? ->]. eauto.
  - intros (v & Hv & -> & ->). unfold NormalizeIPv4. by rewrite parse_addr4_string.
Qed.

(** A subnet of any IPv4 prefix length whose every address is recorded is
    reported as exactly 100% utilised, an empty one as 0%, and a zero capacity
    never divides by zero. *)
Theorem UtilizationPercent_endpoints :
  (∀ bits, 0 ≤ bits ≤ 32 →
     UtilizationPercent (2 ^ bits) (2 ^ bits) = float64_lit 100 ∧
     UtilizationPercent 0 (2 ^ bits) = S754_zero false) ∧
  ∀ touched, UtilizationPercent touched 0 = S754_zero false.
Proof.
  split; [|done]. intros bits Hb. assert (bits ∈ seqZ 0 33) as Hin by (apply elem_of_seqZ; lia).
  clear Hb. revert bits Hin. apply Forall_forall.
  let l := eval vm_compute in (seqZ 0 33) in change (seqZ 0 33) with l.
  repeat (apply Forall_cons; split; [vm_compute; split; reflexivity|]). by apply Forall_nil.
Qed.

Lemma UtilizationPercent_endpoints_witness :
  UtilizationPercent (2 ^ 8) (2 ^ 8) = float64_lit 100.
Proof. apply (proj1 UtilizationPercent_endpoints 8). lia. Defined.
