(* ===== verification/Macaddr.v ===== *)
(** * MAC address analysis: [internal/macaddr/macaddr.go] *)

From S2P Require Import Prelude GoStrings Netip.
Local Open Scope Z_scope.

(** ** [net.ParseMAC] *)

(** [xtoi2]: exactly two hexadecimal digits. *)
Definition xtoi2 (a b : ascii) : option Z :=
  x ← hex_val a; y ← hex_val b; Some (x * 16 + y).

(** [xx:xx:...] and [xx-xx-...] *)
Fixpoint mac_pairs (sep : ascii) (l : list ascii) : option (list Z) :=
  match l with
  | [a; b] => n ← xtoi2 a b; Some [n]
  | a :: b :: c :: l =>
      n ← xtoi2 a b;
      if decide (c = sep) then ns ← mac_pairs sep l; Some (n :: ns) else None
  | _ => None
  end.

(** [xxxx.xxxx.xxxx] *)
Fixpoint mac_quads (l : list ascii) : option (list Z) :=
  match l with
  | [a; b; c; d] => m ← xtoi2 a b; n ← xtoi2 c d; Some [m; n]
  | a :: b :: c :: d :: e :: l =>
      m ← xtoi2 a b; n ← xtoi2 c d;
      if decide (e = "."%char) then ns ← mac_quads l; Some (m :: n :: ns) else None
  | _ => None
  end.

Definition mac_length_ok (l : list Z) : bool :=
  bool_decide (length l = 6%nat ∨ length l = 8%nat ∨ length l = 20%nat).

Definition mac_bytes (l : list ascii) : option (list Z) :=
  if decide (l !! 2%nat = Some ":"%char) then mac_pairs ":"%char l
  else if decide (l !! 2%nat = Some "-"%char) then mac_pairs "-"%char l
  else if decide (l !! 4%nat = Some "."%char) then mac_quads l
  else None.

Definition parse_mac (s : string) : option (list Z) :=
  let l := str_to_list s in
  if decide (length l < 14)%nat then None
  else bytes ← mac_bytes l; if mac_length_ok bytes then Some bytes else None.

(** [HardwareAddr.String] *)
Definition mac_string (bytes : list Z) : string :=
  join ":" (map (λ b, hex_byte (byte_of b)) bytes).

(** ** The analysis *)

Record Analysis : Type := MkAnalysis
  { Address : string; Vendor : string; IsPrivate : bool; IsMulticast : bool }.

#[export] Instance Analysis_eq_dec : EqDecision Analysis.
Proof. solve_decision. Defined.

Definition ouiVendors : gmap string string := list_to_map
  [ ("001A11", "Google"); ("001B63", "Apple"); ("001C42", "Parallels");
    ("002248", "Microsoft"); ("002500", "Apple"); ("3C5A37", "Samsung");
    ("3C7C3F", "Apple"); ("44D9E7", "Ubiquiti"); ("544249", "Sony");
    ("5C514F", "Intel"); ("60F81D", "Apple"); ("685B35", "Apple");
    ("6C2995", "Intel"); ("70106F", "Hewlett Packard"); ("74867A", "Dell");
    ("8C8590", "Apple"); ("A0CEC8", "Cisco"); ("A4B197", "Apple");
    ("B827EB", "Raspberry Pi"); ("BC2411", "Apple"); ("D85ED3", "Apple");
    ("DC9B9C", "Apple"); ("F0D1A9", "Apple"); ("F4F5D8", "Google");
    ("FCECDA", "Ubiquiti") ].

Inductive mac_error : Type := ErrParseMAC | ErrNot48Bit.

#[export] Instance mac_error_eq_dec : EqDecision mac_error.
Proof. solve_decision. Defined.

(** What [Analyze] reports of a parsed 48-bit address. *)
Definition analysis_of (parsed : list Z) : Analysis :=
  let first := default 0 (parsed !! 0%nat) in
  let isMulticast := Z.land first 1 =? 1 in
  let isLocal := Z.land first 2 =? 2 in
  let text := mac_string parsed in
  let normalized := to_lower text in
  let oui := to_upper (remove_byte ":"%char (str_of_list (take 8 (str_to_list text)))) in
  let private := isLocal && negb isMulticast in
  {| Address := normalized;
     Vendor := match ouiVendors !! oui with
               | Some vendor => if negb private then vendor else ""
               | None => ""
               end;
     IsPrivate := private;
     IsMulticast := isMulticast |}.

Definition Analyze (value : string) : result mac_error Analysis :=
  parsed ← of_option ErrParseMAC (parse_mac (trim_space value));
  if negb (bool_decide (length parsed = 6%nat)) then Err ErrNot48Bit
  else Ok (analysis_of parsed).

(** ** Lemmas: the canonical text reads back *)

Lemma hex_byte_range n :
  0 ≤ n < 256 →
  ∃ a b, hex_byte (byte_of n) = String a (String b "") ∧ xtoi2 a b = Some n ∧
         lower_ascii a = a ∧ lower_ascii b = b ∧ Ascii.is_space a = false ∧ Ascii.is_space b = false.
Proof.
  intros Hn. assert (n ∈ seqZ 0 256) as Hin by (apply elem_of_seqZ; lia). clear Hn.
  assert (Forall (λ n,
    xtoi2 (hex_digit (byte_val (byte_of n) / 16)) (hex_digit (byte_val (byte_of n) mod 16)) = Some n ∧
    lower_ascii (hex_digit (byte_val (byte_of n) / 16)) = hex_digit (byte_val (byte_of n) / 16) ∧
    lower_ascii (hex_digit (byte_val (byte_of n) mod 16)) = hex_digit (byte_val (byte_of n) mod 16) ∧
    Ascii.is_space (hex_digit (byte_val (byte_of n) / 16)) = false ∧
    Ascii.is_space (hex_digit (byte_val (byte_of n) mod 16)) = false) (seqZ 0 256)) as Hall.
  { refine (bool_decide_eq_true_1 _ _). vm_compute. reflexivity. }
  rewrite Forall_forall in Hall. destruct (Hall n Hin) as (?&?&?&?&?). by do 2 eexists.
Qed.

Lemma mac_string_cons n m l :
  mac_string (n :: m :: l) = hex_byte (byte_of n) +:+ String ":"%char (mac_string (m :: l)).
Proof. done. Qed.

Lemma mac_pairs_string l :
  l ≠ [] → Forall (λ b, 0 ≤ b < 256) l → mac_pairs ":"%char (str_to_list (mac_string l)) = Some l.
Proof.
  intros Hl H. induction H as [|n l Hn Hall IH]; [done|].
  destruct (hex_byte_range n Hn) as (a & b & Hab & Hx & _).
  destruct l as [|m l].
  - unfold mac_string. cbn [map join]. rewrite Hab. cbn [str_to_list mac_pairs]. by rewrite Hx.
  - rewrite mac_string_cons, Hab, !str_app_cons, str_app_nil_l. cbn [str_to_list mac_pairs].
    rewrite Hx. simpl. by rewrite IH.
Qed.

Lemma str_map_app f s t : str_map f (s +:+ t) = str_map f s +:+ str_map f t.
Proof. induction s; [done|]. rewrite str_app_cons. simpl. by rewrite IHs. Qed.

Lemma mac_string_lower l :
  Forall (λ b, 0 ≤ b < 256) l → to_lower (mac_string l) = mac_string l.
Proof.
  intros H. induction H as [|n l Hn Hall IH]; [done|].
  destruct (hex_byte_range n Hn) as (a & b & Hab & _ & Ha & Hb & _).
  destruct l as [|m l]; [|].
  { unfold mac_string, to_lower. cbn [map join]. rewrite Hab. cbn [str_map]. by rewrite Ha, Hb. }
  rewrite mac_string_cons, Hab, !str_app_cons, str_app_nil_l.
  unfold to_lower in *. cbn [str_map]. by rewrite Ha, Hb, IH.
Qed.

Lemma trim_left_id f s c t : s = String c t → f c = false → trim_left_func f s = s.
Proof. intros -> H. simpl. by rewrite H. Qed.

Lemma trim_func_id f c s d :
  f c = false → f d = false → trim_func f (String c s +:+ String d "") = String c s +:+ String d "".
Proof.
  intros Hc Hd. unfold trim_func, trim_right_func. rewrite str_app_cons.
  rewrite (trim_left_id f (String c (s +:+ String d "")) c _ eq_refl) by done.
  rewrite <- str_app_cons, str_rev_app.
  rewrite (trim_left_id f _ d (String.rev (String c s))) by done.
  by rewrite str_rev_app, str_rev_rev.
Qed.

Lemma mac_string_ends l :
  l ≠ [] → Forall (λ b, 0 ≤ b < 256) l →
  ∃ c s d, mac_string l = String c s +:+ String d "" ∧
           Ascii.is_space c = false ∧ Ascii.is_space d = false.
Proof.
  intros Hl H. induction H as [|n l Hn Hall IH]; [done|].
  destruct (hex_byte_range n Hn) as (a & b & Hab & _ & _ & _ & Ha & Hb).
  destruct l as [|m l].
  - exists a, "", b. unfold mac_string. cbn [map join]. by rewrite Hab.
  - destruct IH as (c & s & d & Hs & _ & Hd); [done|].
    exists a, (String b (String ":"%char (String c s))), d.
    rewrite mac_string_cons, Hab, Hs, !str_app_cons, str_app_nil_l. done.
Qed.

Lemma mac_string_trim l :
  l ≠ [] → Forall (λ b, 0 ≤ b < 256) l → trim_space (mac_string l) = mac_string l.
Proof.
  intros Hl H. destruct (mac_string_ends l Hl H) as (c & s & d & -> & Hc & Hd).
  by apply trim_func_id.
Qed.

Lemma hex_val_range c n : hex_val c = Some n → 0 ≤ n < 16.
Proof.
  unfold hex_val. intros H.
  repeat (case_match; simplify_eq; bool_hyps; try lia).
Qed.

Lemma xtoi2_range a b n : xtoi2 a b = Some n → 0 ≤ n < 256.
Proof.
  unfold xtoi2. destruct (hex_val a) as [x|] eqn:Ha; simpl; [|done].
  destruct (hex_val b) as [y|] eqn:Hb; simpl; [|done]. intros [= <-].
  apply hex_val_range in Ha, Hb. lia.
Qed.

Lemma mac_pairs_range sep l ns : mac_pairs sep l = Some ns → Forall (λ b, 0 ≤ b < 256) ns.
Proof.
  revert ns. induction l as [l IH] using (well_founded_induction (Wf_nat.well_founded_ltof _ length)).
  unfold Wf_nat.ltof in IH. intros ns. destruct l as [|a [|b [|c l]]]; simpl; [done..| |].
  - destruct (xtoi2 a b) eqn:Hx; simpl; [|done]. intros [= <-]. eauto using xtoi2_range.
  - destruct (xtoi2 a b) eqn:Hx; simpl; [|done]. case_decide; [|done].
    destruct (mac_pairs sep l) eqn:Hl; simpl; [|done]. intros [= <-].
    constructor; [by eapply xtoi2_range|]. eapply IH; [|done]. simpl. lia.
Qed.

Lemma mac_quads_range l ns : mac_quads l = Some ns → Forall (λ b, 0 ≤ b < 256) ns.
Proof.
  revert ns. induction l as [l IH] using (well_founded_induction (Wf_nat.well_founded_ltof _ length)).
  unfold Wf_nat.ltof in IH. intros ns.
  destruct l as [|a [|b [|c [|d [|e l]]]]]; simpl; [done..| |];
    (destruct (xtoi2 a b) eqn:Hx; simpl; [|done]);
    (destruct (xtoi2 c d) eqn:Hy; simpl; [|done]).
  - intros [= <-]. eauto using xtoi2_range.
  - case_decide; [|done]. destruct (mac_quads l) eqn:Hl; simpl; [|done]. intros [= <-].
    constructor; [by eapply xtoi2_range|]. constructor; [by eapply xtoi2_range|].
    eapply IH; [|done]. simpl. lia.
Qed.

Lemma mac_bytes_range l ns : mac_bytes l = Some ns → Forall (λ b, 0 ≤ b < 256) ns.
Proof.
  unfold mac_bytes. repeat destruct (decide _); [apply mac_pairs_range..|apply mac_quads_range|done].
Qed.

Lemma parse_mac_range s l : parse_mac s = Some l → Forall (λ b, 0 ≤ b < 256) l.
Proof.
  unfold parse_mac. destruct (decide _); [done|].
  destruct (mac_bytes _) as [ns|] eqn:Hns; simpl; [|done].
  destruct (mac_length_ok ns); [|done]. intros [= <-]. by eapply mac_bytes_range.
Qed.

(** [net.ParseMAC] reads back what [HardwareAddr.String] prints. *)
Lemma parse_mac_string l :
  length l = 6%nat → Forall (λ b, 0 ≤ b < 256) l → parse_mac (mac_string l) = Some l.
Proof.
  intros Hlen H. pose proof (mac_pairs_string l ltac:(by destruct l) H) as Hp.
  assert (str_to_list (mac_string l) !! 2%nat = Some ":"%char ∧
          length (str_to_list (mac_string l)) = 17%nat) as [H2 H17].
  { destruct l as [|n0 [|n1 [|n2 [|n3 [|n4 [|n5 [|]]]]]]]; try done. }
  unfold parse_mac, mac_bytes. rewrite decide_False by lia. rewrite decide_True by done.
  rewrite Hp. cbn [mbind option_bind]. unfold mac_length_ok. by rewrite bool_decide_true by auto.
Qed.

Lemma Analyze_Ok s a :
  Analyze s = Ok a ↔
  ∃ l, parse_mac (trim_space s) = Some l ∧ length l = 6%nat ∧ a = analysis_of l.
Proof.
  unfold Analyze. destruct (parse_mac (trim_space s)) as [l|]; cbn [of_option mbind result_bind].
  - case_bool_decide; cbn [negb]; split.
    + intros [= <-]. eauto.
    + by intros (? & [= <-] & _ & ->).
    + done.
    + by intros (? & [= <-] & ? & _).
  - split; [done|]. by intros (? & ? & _).
Qed.

(** ** Properties *)

(** [Analyze] normalises: whatever separator, case or surrounding white
    space the input had, analysing the address it returns yields the same
    analysis, so the normalised form is canonical. *)
Theorem Analyze_idempotent (s : string) (a : Analysis) :
  Analyze s = Ok a → Analyze (Address a) = Ok a.
Proof.
  intros (l & Hl & H6 & ->)%Analyze_Ok. apply Analyze_Ok. exists l. split; [|done].
  pose proof (parse_mac_range _ _ Hl) as Hr. assert (l ≠ []) as Hne by by destruct l.
  unfold analysis_of. cbn [Address].
  by rewrite mac_string_lower, mac_string_trim, parse_mac_string by done.
Qed.

Lemma Analyze_idempotent_witness :
  Analyze "b8:27:eb:01:02:03" = Ok (MkAnalysis "b8:27:eb:01:02:03" "Raspberry Pi" false false).
Proof.
  apply (Analyze_idempotent " B827.EB01.0203 " (MkAnalysis "b8:27:eb:01:02:03" "Raspberry Pi" false false)).
  vm_compute. reflexivity.
Defined.

(** A locally administered unicast address names no vendor, and is never also
    reported as multicast. *)
Lemma Analyze_private s a :
  Analyze s = Ok a → IsPrivate a = true → Vendor a = "" ∧ IsMulticast a = false.
Proof.
  intros (l & _ & _ & ->)%Analyze_Ok. unfold analysis_of. cbn [IsPrivate Vendor IsMulticast].
  intros Hp. rewrite Hp. cbn [negb]. apply andb_true_iff in Hp as [_ Hm%negb_true_iff].
  split; [|done]. by destruct (ouiVendors !! _).
Qed.
