(* ===== verification/Protocol.v ===== *)
(** * The scanner protocol: [internal/scanner/protocol.go]

    The wire types shared by the app and the scanner agent, and the validation
    both sides run before a job is dispatched or accepted. *)

From S2P Require Import Prelude GoStrings Netip.
Local Open Scope Z_scope.

Definition ProtocolVersion : string := "v1".

(** ** Enumerations: Go string types with named values *)

Definition AgentPending : string := "pending".
Definition AgentActive : string := "active".
Definition AgentDisabled : string := "disabled".
Definition AgentRevoked : string := "revoked".

Definition ScanHostDiscovery : string := "host_discovery".
Definition ScanServiceDetect : string := "service_detection".
Definition ScanOSProbe : string := "os_probe".
Definition ScanCombined : string := "combined".
Definition ScanARPTable : string := "arp_table".
Definition ScanSNMPInventory : string := "snmp_inventory".
Definition ScanNameLookup : string := "name_lookup".
Definition ScanDHCPLeases : string := "dhcp_leases".
Definition ScanDNSLookup : string := "dns_lookup".
Definition ScanLLDPCDP : string := "lldp_cdp".

Definition ModePassive : string := "passive".
Definition ModeLightActive : string := "light_active".
Definition ModeStandardActive : string := "standard_active".
Definition ModeDeepActive : string := "deep_active".

Definition CodeScanIgnored : string := "scan_ignored".

Definition JobQueued : string := "queued".
Definition JobRunning : string := "running".
Definition JobSucceeded : string := "succeeded".
Definition JobFailed : string := "failed".
Definition JobCancelled : string := "cancelled".
Definition JobRejected : string := "rejected".

(** ** Wire records; a [time.Time] is nanoseconds on one clock *)

Record AgentRegistration : Type := MkAgentRegistration
  { ar_ID : string; ar_Name : string; ar_SiteID : string; ar_Version : string;
    ar_CertificateSubject : string; ar_AllowedCIDRs : list string; ar_Status : string;
    ar_CreatedAt : Z; ar_LastSeenAt : option Z }.

Record RateLimit : Type := MkRateLimit { ProbesPerSecond : Z; Concurrency : Z }.
Record PortSelection : Type := MkPortSelection { ps_Protocol : string; ps_Ports : list Z }.

Record ScanJob : Type := MkScanJob
  { job_ID : string; job_AgentID : string; job_RequestedBy : string;
    job_Type : string; job_Mode : string;
    job_AllowedCIDRs : list string; job_Targets : list string;
    job_Ports : list PortSelection; job_RateLimit : RateLimit;
    job_TimeoutSeconds : Z; job_CreatedAt : Z }.

Record ServiceObservation : Type := MkService
  { svc_Protocol : string; svc_Port : Z; svc_State : string;
    svc_ServiceName : string; svc_Product : string; svc_Version : string }.

Record Evidence : Type := MkEvidence
  { ev_Source : string; ev_Summary : string; ev_Raw : string }.

Record ScanError : Type := MkScanError
  { se_Code : string; se_Message : string; se_Target : string }.

Record Observation : Type := MkObservation
  { obs_IP : string; obs_MAC : string; obs_Vendor : string; obs_Hostname : string;
    obs_OSFamily : string; obs_OSDetail : string; obs_VLAN : Z;
    obs_HWSerial : string; obs_HWObjectID : string;
    obs_Services : list ServiceObservation; obs_Evidence : list Evidence;
    obs_ObservedAt : Z }.

Record ScanResult : Type := MkScanResult
  { res_ProtocolVersion : string; res_JobID : string; res_AgentID : string;
    res_Status : string; res_StartedAt : option Z; res_FinishedAt : option Z;
    res_Observations : list Observation; res_Errors : list ScanError }.

#[export] Instance ServiceObservation_eq_dec : EqDecision ServiceObservation.
Proof. solve_decision. Defined.
#[export] Instance Evidence_eq_dec : EqDecision Evidence.
Proof. solve_decision. Defined.
#[export] Instance ScanError_eq_dec : EqDecision ScanError.
Proof. solve_decision. Defined.
#[export] Instance Observation_eq_dec : EqDecision Observation.
Proof. solve_decision. Defined.

(** The zero [time.Time]. *)
Definition zero_time : Z := -62135596800000000000.

(** ** Validation *)

(** One constructor per [fmt.Errorf]; a nil error is [None]. *)
Inductive job_error : Type :=
| ErrNoID | ErrNoAgentID
| ErrUnknownType (t : string) | ErrUnknownMode (m : string)
| ErrTimeoutNotPositive
| ErrNoAllowedCIDR | ErrNoTarget
| ErrParseAllowed (c : string) | ErrAllowedNotIPv4 (c : string)
| ErrTargetNotIPv4 (t : string) | ErrTargetInvalid (t : string) | ErrTargetOutside (t : string)
| ErrAgentNotActive (id status : string) | ErrWrongAgent (jobAgent agent : string)
| ErrAgentNoCIDRs
| ErrAgentAllowlist (e : job_error) | ErrJobAllowlist (e : job_error)
| ErrCIDROutsideAgent (c : string).

#[export] Instance job_error_eq_dec : EqDecision job_error.
Proof. solve_decision. Defined.

Definition ScanType_Valid (t : string) : bool :=
  bool_decide (t ∈ [ScanHostDiscovery; ScanServiceDetect; ScanOSProbe; ScanCombined;
                    ScanARPTable; ScanSNMPInventory; ScanNameLookup; ScanDNSLookup;
                    ScanDHCPLeases; ScanLLDPCDP]).

Definition ScanMode_Valid (m : string) : bool :=
  bool_decide (m ∈ [ModePassive; ModeLightActive; ModeStandardActive; ModeDeepActive]).

Definition prefixWithin (target allowed : Prefix) : bool :=
  prefix_contains allowed (pfx_addr target) && (pfx_bits allowed <=? pfx_bits target).

Definition withinAny (target : Prefix) (allowed : list Prefix) : bool :=
  existsb (prefixWithin target) allowed.

Definition parseAllowedPrefix (value : string) : result job_error Prefix :=
  match parse_prefix value with
  | None => Err (ErrParseAllowed value)
  | Some prefix =>
      if negb (is4 (pfx_addr prefix)) then Err (ErrAllowedNotIPv4 value)
      else Ok (prefix_masked prefix)
  end.

Definition parseAllowedPrefixes (values : list string) : result job_error (list Prefix) :=
  mapM_result parseAllowedPrefix values.

Definition validateTarget (allowed : list Prefix) (value : string) : option job_error :=
  match parse_prefix value with
  | Some prefix =>
      if negb (is4 (pfx_addr prefix)) then Some (ErrTargetNotIPv4 value)
      else if existsb (prefixWithin (prefix_masked prefix)) allowed then None
      else Some (ErrTargetOutside value)
  | None =>
      match parse_addr value with
      | None => Some (ErrTargetInvalid value)
      | Some addr =>
          if negb (is4 addr) then Some (ErrTargetNotIPv4 value)
          else if existsb (λ p, prefix_contains p addr) allowed then None
          else Some (ErrTargetOutside value)
      end
  end.

Definition ValidateJobTargets (job : ScanJob) : option job_error :=
  if bool_decide (job_AllowedCIDRs job = []) then Some ErrNoAllowedCIDR
  else if bool_decide (job_Targets job = []) then Some ErrNoTarget
  else match parseAllowedPrefixes (job_AllowedCIDRs job) with
       | Err e => Some e
       | Ok allowed => first_err (validateTarget allowed) (job_Targets job)
       end.

Definition ValidateJob (job : ScanJob) : option job_error :=
  if bool_decide (job_ID job = "") then Some ErrNoID
  else if bool_decide (job_AgentID job = "") then Some ErrNoAgentID
  else if negb (ScanType_Valid (job_Type job)) then Some (ErrUnknownType (job_Type job))
  else if negb (ScanMode_Valid (job_Mode job)) then Some (ErrUnknownMode (job_Mode job))
  else if job_TimeoutSeconds job <=? 0 then Some ErrTimeoutNotPositive
  else ValidateJobTargets job.

Definition ValidateAgentScope (job : ScanJob) (agentAllowedCIDRs : list string) : option job_error :=
  if bool_decide (agentAllowedCIDRs = []) then Some ErrAgentNoCIDRs
  else if bool_decide (job_AllowedCIDRs job = []) then Some ErrNoAllowedCIDR
  else match parseAllowedPrefixes agentAllowedCIDRs with
       | Err e => Some (ErrAgentAllowlist e)
       | Ok agentPrefixes =>
           match parseAllowedPrefixes (job_AllowedCIDRs job) with
           | Err e => Some (ErrJobAllowlist e)
           | Ok jobPrefixes =>
               match first_err
                 (λ '(cidr, jobPrefix),
                    if withinAny jobPrefix agentPrefixes then None
                    else Some (ErrCIDROutsideAgent cidr))
                 (zip (job_AllowedCIDRs job) jobPrefixes) with
               | Some e => Some e
               | None => ValidateJob job
               end
           end
       end.

Definition ValidateJobForAgent (job : ScanJob) (agent : AgentRegistration) : option job_error :=
  if negb (bool_decide (ar_Status agent = AgentActive))
  then Some (ErrAgentNotActive (ar_ID agent) (ar_Status agent))
  else if negb (bool_decide (job_AgentID job = ar_ID agent))
  then Some (ErrWrongAgent (job_AgentID job) (ar_ID agent))
  else ValidateAgentScope job (ar_AllowedCIDRs agent).

(** ** What a CIDR and a target denote *)

(** [v] is an address of the IPv4 network named by [c]. *)
Definition cidr_covers (c : string) (v : Z) : Prop :=
  ∃ p, parse_prefix c = Some p ∧ is4 (pfx_addr p) = true ∧ prefix_contains p (Addr4 v) = true.

(** [v] is one of the addresses a scan of target [t] probes. *)
Definition target_covers (t : string) (v : Z) : Prop :=
  cidr_covers t v ∨ parse_addr t = Some (Addr4 v).

Definition ipv4_cidr (c : string) : Prop :=
  ∃ p, parse_prefix c = Some p ∧ is4 (pfx_addr p) = true.
Definition ipv4_target (t : string) : Prop :=
  ipv4_cidr t ∨ ∃ v, parse_addr t = Some (Addr4 v).

(** ** Lemmas *)

(** The validated form of an allowlist entry. *)
Lemma parseAllowedPrefix_Ok c p :
  parseAllowedPrefix c = Ok p ↔
  ∃ q, parse_prefix c = Some q ∧ is4 (pfx_addr q) = true ∧ p = prefix_masked q.
Proof.
  unfold parseAllowedPrefix. destruct (parse_prefix c) as [q|]; [|crush].
  destruct (is4 (pfx_addr q)) eqn:H4; simpl; split; [intros [= <-]; eauto| |done|];
    intros (? & [= <-] & ? & ->); congruence.
Qed.

Lemma parseAllowedPrefix_wf c p :
  parseAllowedPrefix c = Ok p → prefix_wf p ∧ is4 (pfx_addr p) = true.
Proof.
  intros (q & Hq & H4 & ->)%parseAllowedPrefix_Ok. rewrite prefix_masked_is4.
  split; [|done]. eapply prefix_masked_wf; eauto using parse_prefix4_wf.
Qed.

Lemma parseAllowedPrefix_covers c p v :
  parseAllowedPrefix c = Ok p → prefix_contains p (Addr4 v) = true ↔ cidr_covers c v.
Proof.
  intros (q & Hq & H4 & ->)%parseAllowedPrefix_Ok.
  rewrite prefix_contains_masked by eauto using parse_prefix4_wf. unfold cidr_covers.
  split; [eauto|]. by intros (? & ? & _ & ?); simplify_eq.
Qed.

Lemma parseAllowedPrefixes_elem l ps p :
  parseAllowedPrefixes l = Ok ps → p ∈ ps → ∃ c, c ∈ l ∧ parseAllowedPrefix c = Ok p.
Proof.
  intros H%mapM_result_Ok Hp. apply list_elem_of_lookup in Hp as [i Hi].
  destruct (Forall2_lookup_r _ _ _ _ _ H Hi) as (c & Hc & Hcp). exists c.
  split; [|done]. by eapply list_elem_of_lookup_2.
Qed.

Lemma parseAllowedPrefixes_elem_l l ps c :
  parseAllowedPrefixes l = Ok ps → c ∈ l → ∃ p, p ∈ ps ∧ parseAllowedPrefix c = Ok p.
Proof.
  intros H%mapM_result_Ok Hc. apply list_elem_of_lookup in Hc as [i Hi].
  destruct (Forall2_lookup_l _ _ _ _ _ H Hi) as (p & Hp & Hcp). exists p.
  split; [|done]. by eapply list_elem_of_lookup_2.
Qed.

Lemma existsb_elem {A} (f : A → bool) l : existsb f l = true ↔ ∃ x, x ∈ l ∧ f x = true.
Proof.
  rewrite existsb_exists. split; intros (x & Hx & Hf); exists x; split; try done;
    by apply list_elem_of_In.
Qed.

(** A network within another one, as set inclusion. *)
Lemma prefixWithin_subset (t a : Prefix) :
  prefix_wf t → is4 (pfx_addr t) = true → prefix_wf a → is4 (pfx_addr a) = true →
  prefixWithin t a = true ↔
  ∀ v, prefix_contains t (Addr4 v) = true → prefix_contains a (Addr4 v) = true.
Proof.
  intros Ht Ht4 Ha Ha4. pose proof (host_bits_range t Ht Ht4) as Hht.
  pose proof (host_bits_range a Ha Ha4) as Hha. unfold prefixWithin.
  rewrite andb_true_iff, Z.leb_le.
  assert (pfx_bits a ≤ pfx_bits t ↔ host_bits t ≤ host_bits a) as ->.
  { unfold host_bits, bit_len. rewrite Ht4, Ha4. cbn. lia. }
  pose proof (prefix_contains_self t Ht Ht4) as Hself.
  destruct (pfx_addr t) as [x|] eqn:Hx; [|done]. split.
  - intros [Hc Hb] v Hv. rewrite prefix_contains4_div in * by (rewrite ?Hx; done).
    rewrite Hx in Hv. simpl in *. rewrite <- Hc. apply (div_pow2_coarser _ _ (host_bits t)); [lia|done].
  - intros Hall. split; [by apply Hall|].
    destruct (Z.le_gt_cases (host_bits t) (host_bits a)) as [|Hlt]; [done|exfalso].
    pose proof (Hall (prefix_first t)) as Hf.
    pose proof (Hall (prefix_first t + prefix_count t - 1)) as Hl.
    rewrite !prefix_contains4 in Hf, Hl by (rewrite ?Hx; done). unfold prefix_count in *.
    assert (2 ^ host_bits a < 2 ^ host_bits t) by (apply Z.pow_lt_mono_r; lia).
    assert (0 < 2 ^ host_bits a) by (apply Z.pow_pos_nonneg; lia). lia.
Qed.

(** [prefixWithin] is set inclusion: a network is within an allowed one
    exactly when every address of the first is an address of the second. *)
Theorem prefixWithin_iff (t a : Prefix) :
  prefix_wf t → is4 (pfx_addr t) = true → prefix_wf a → is4 (pfx_addr a) = true →
  prefixWithin t a = true ↔
  ∀ v, prefix_contains t (Addr4 v) = true → prefix_contains a (Addr4 v) = true.
Proof. apply prefixWithin_subset. Qed.

Lemma prefixWithin_iff_witness :
  prefixWithin (PrefixFrom (Addr4 167772416) 24) (PrefixFrom (Addr4 167772160) 8) = true ↔
  ∀ v, prefix_contains (PrefixFrom (Addr4 167772416) 24) (Addr4 v) = true →
       prefix_contains (PrefixFrom (Addr4 167772160) 8) (Addr4 v) = true.
Proof.
  apply (prefixWithin_iff (PrefixFrom (Addr4 167772416) 24) (PrefixFrom (Addr4 167772160) 8));
    try reflexivity; repeat split; vm_compute; congruence.
Defined.

Lemma withinAny_true t ps : withinAny t ps = true ↔ ∃ a, a ∈ ps ∧ prefixWithin t a = true.
Proof. apply existsb_elem. Qed.

(** An allowlist entry that lies in some entry of an outer allowlist. *)
Lemma withinAny_covers c p l ps :
  parseAllowedPrefix c = Ok p → parseAllowedPrefixes l = Ok ps →
  withinAny p ps = true ↔ ∃ a, a ∈ l ∧ ∀ v, cidr_covers c v → cidr_covers a v.
Proof.
  intros Hc Hl. destruct (parseAllowedPrefix_wf _ _ Hc) as [Hwf H4]. rewrite withinAny_true. split.
  - intros (q & Hq & Hw). destruct (parseAllowedPrefixes_elem _ _ _ Hl Hq) as (a & Ha & Haq).
    destruct (parseAllowedPrefix_wf _ _ Haq) as [Hqwf Hq4].
    rewrite prefixWithin_subset in Hw by done. exists a. split; [done|]. intros v Hv.
    by apply (parseAllowedPrefix_covers _ _ _ Haq), Hw, (parseAllowedPrefix_covers _ _ _ Hc).
  - intros (a & Ha & Hcov). destruct (parseAllowedPrefixes_elem_l _ _ _ Hl Ha) as (q & Hq & Haq).
    destruct (parseAllowedPrefix_wf _ _ Haq) as [Hqwf Hq4]. exists q. split; [done|].
    rewrite prefixWithin_subset by done. intros v Hv.
    by apply (parseAllowedPrefix_covers _ _ _ Haq), Hcov, (parseAllowedPrefix_covers _ _ _ Hc).
Qed.

Lemma validateTarget_None l ps t :
  parseAllowedPrefixes l = Ok ps →
  validateTarget ps t = None ↔
  ipv4_target t ∧ ∃ a, a ∈ l ∧ ∀ v, target_covers t v → cidr_covers a v.
Proof.
  intros Hl. unfold validateTarget, ipv4_target, target_covers.
  destruct (parse_prefix t) as [p|] eqn:Hp.
  - assert (∀ v, parse_addr t ≠ Some (Addr4 v)) as Hno.
    { intros v Hv%parse_prefix_addr4. congruence. }
    destruct (is4 (pfx_addr p)) eqn:H4; simpl.
    + assert (parseAllowedPrefix t = Ok (prefix_masked p)) as Ht by (apply parseAllowedPrefix_Ok; eauto).
      pose proof (withinAny_covers _ _ _ _ Ht Hl) as Hw. unfold withinAny in Hw.
      destruct (existsb _ ps).
      * split; [|done]. intros _. destruct (proj1 Hw eq_refl) as (a & Ha & Hcov).
        split; [left; by exists p|]. exists a. split; [done|]. intros v [Hv|Hv]; [by apply Hcov|by apply Hno in Hv].
      * split; [done|]. intros [_ (a & Ha & Hcov)].
        discriminate (proj2 Hw (ex_intro _ a (conj Ha (λ v Hv, Hcov v (or_introl Hv))))).
    + split; [done|]. intros [[(q & Hq & Hq4)|[v Hv]] _]; [congruence|by apply Hno in Hv].
  - assert (∀ v, ¬ cidr_covers t v) as Hnc by (intros v (? & ? & _); congruence).
    assert (¬ ipv4_cidr t) as Hni by (intros (? & ? & _); congruence).
    destruct (parse_addr t) as [[x|x z]|] eqn:Hx; simpl;
      [|split; [done|]; intros [[?|[v ?]] _]; done..].
    destruct (existsb (λ p, prefix_contains p (Addr4 x)) ps) eqn:He.
    + split; [|done]. intros _. split; [right; eauto|]. apply existsb_elem in He as (q & Hq & Hc).
      destruct (parseAllowedPrefixes_elem _ _ _ Hl Hq) as (a & Ha & Haq). exists a. split; [done|].
      intros v [Hv|[= <-]]; [by apply Hnc in Hv|]. by apply (parseAllowedPrefix_covers _ _ _ Haq).
    + split; [done|]. intros [_ (a & Ha & Hcov)].
      destruct (parseAllowedPrefixes_elem_l _ _ _ Hl Ha) as (q & Hq & Haq).
      assert (existsb (λ p, prefix_contains p (Addr4 x)) ps = true); [|congruence].
      apply existsb_elem. exists q. split; [done|].
      apply (parseAllowedPrefix_covers _ _ _ Haq), Hcov. by right.
Qed.

Lemma parseAllowedPrefixes_is_Ok l :
  (∃ ps, parseAllowedPrefixes l = Ok ps) ↔ Forall ipv4_cidr l.
Proof.
  split.
  - intros [ps H]. apply Forall_forall. intros c Hc.
    destruct (parseAllowedPrefixes_elem_l _ _ _ H Hc) as (p & _ & (q & ? & ? & _)%parseAllowedPrefix_Ok).
    by exists q.
  - intros H. induction H as [|c l (q & Hq & H4) _ [ps IH]]; [by exists []|].
    exists (prefix_masked q :: ps). unfold parseAllowedPrefixes in *. simpl.
    rewrite (proj2 (parseAllowedPrefix_Ok c (prefix_masked q))) by eauto. by rewrite IH.
Qed.

Lemma ipv4_target_trim t : ipv4_target t → trim_space t = t.
Proof.
  intros [(p & Hp & H4)|(v & Hv)]; [by eapply parse_prefix_trim|by eapply parse_addr4_trim].
Qed.

(** The structural part of a job's validity. *)
Definition job_structure (job : ScanJob) : Prop :=
  job_ID job ≠ "" ∧ job_AgentID job ≠ "" ∧ ScanType_Valid (job_Type job) = true ∧
  ScanMode_Valid (job_Mode job) = true ∧ 0 < job_TimeoutSeconds job.

(** Every target is IPv4 and lies in one entry of the job's own allowlist. *)
Definition targets_in_allowlist (job : ScanJob) : Prop :=
  job_AllowedCIDRs job ≠ [] ∧ job_Targets job ≠ [] ∧ Forall ipv4_cidr (job_AllowedCIDRs job) ∧
  ∀ t, t ∈ job_Targets job →
    ipv4_target t ∧ ∃ c, c ∈ job_AllowedCIDRs job ∧ ∀ v, target_covers t v → cidr_covers c v.

(** The job's allowlist lies in the agent's, entry by entry. *)
Definition allowlist_in_agent (job : ScanJob) (agent : list string) : Prop :=
  agent ≠ [] ∧ Forall ipv4_cidr agent ∧
  ∀ c, c ∈ job_AllowedCIDRs job → ∃ a, a ∈ agent ∧ ∀ v, cidr_covers c v → cidr_covers a v.

Lemma ValidateJobTargets_None job :
  ValidateJobTargets job = None ↔ targets_in_allowlist job.
Proof.
  unfold ValidateJobTargets, targets_in_allowlist.
  case_bool_decide; [by split; [done|intros [? _]]|].
  case_bool_decide; [by split; [done|intros (_ & ? & _)]|].
  destruct (parseAllowedPrefixes (job_AllowedCIDRs job)) as [ps|e] eqn:Hps.
  - rewrite first_err_None, Forall_forall. split.
    + intros Ht. split_and!; [done|done|apply parseAllowedPrefixes_is_Ok; eauto|].
      intros t Hin. apply (validateTarget_None _ _ _ Hps). by apply Ht.
    + intros (_ & _ & _ & Ht) t Hin. apply (validateTarget_None _ _ _ Hps). by apply Ht.
  - split; [done|]. intros (_ & _ & [ps Hok]%parseAllowedPrefixes_is_Ok & _). congruence.
Qed.

Lemma ValidateJob_None job :
  ValidateJob job = None ↔ job_structure job ∧ targets_in_allowlist job.
Proof.
  unfold ValidateJob, job_structure. rewrite <- ValidateJobTargets_None.
  repeat case_bool_decide; try (split; [done|]; by intros [(? & ? & _) _]).
  destruct (ScanType_Valid _); simpl; [|split; [done|]; by intros [(? & ? & ? & _) _]].
  destruct (ScanMode_Valid _); simpl; [|split; [done|]; by intros [(? & ? & ? & ? & _) _]].
  destruct (Z.leb_spec (job_TimeoutSeconds job) 0).
  - split; [done|]. intros [(_ & _ & _ & _ & ?) _]. lia.
  - split; [intros ?; split_and!; done|]. by intros [_ ?].
Qed.

Lemma jobPrefixes_in_agent job agentPrefixes agent jobPrefixes :
  parseAllowedPrefixes agent = Ok agentPrefixes →
  parseAllowedPrefixes (job_AllowedCIDRs job) = Ok jobPrefixes →
  first_err (λ '(cidr, jobPrefix),
       if withinAny jobPrefix agentPrefixes then None else Some (ErrCIDROutsideAgent cidr))
     (zip (job_AllowedCIDRs job) jobPrefixes) = None ↔
  ∀ c, c ∈ job_AllowedCIDRs job → ∃ a, a ∈ agent ∧ ∀ v, cidr_covers c v → cidr_covers a v.
Proof.
  intros Ha Hj. rewrite first_err_None.
  pose proof (proj1 (mapM_result_Ok _ _ _) Hj) as Hj2. clear Hj.
  induction Hj2 as [|c p cs ps Hcp _ IH]; simpl.
  - split; [intros _ c Hc; by apply not_elem_of_nil in Hc|by constructor].
  - rewrite Forall_cons, IH. pose proof (withinAny_covers _ _ _ _ Hcp Ha) as Hw.
    destruct (withinAny p agentPrefixes).
    + split.
      * intros [_ Hrest] d [->|Hd]%elem_of_cons; [by apply Hw|by apply Hrest].
      * intros Hall. split; [done|]. intros d Hd. apply Hall. by right.
    + split; [by intros [? _]|]. intros Hall. exfalso.
      discriminate (proj2 Hw (Hall c ltac:(by left))).
Qed.

Lemma ValidateAgentScope_None job agent :
  ValidateAgentScope job agent = None ↔
  job_structure job ∧ targets_in_allowlist job ∧ allowlist_in_agent job agent.
Proof.
  unfold ValidateAgentScope, allowlist_in_agent.
  case_bool_decide; [by split; [done|intros (_ & _ & ? & _)]|].
  case_bool_decide; [by split; [done|intros (_ & (? & _) & _)]|].
  destruct (parseAllowedPrefixes agent) as [aps|e] eqn:Ha;
    [|split; [done|]; intros (_ & _ & _ & [ps ?]%parseAllowedPrefixes_is_Ok & _); congruence].
  destruct (parseAllowedPrefixes (job_AllowedCIDRs job)) as [jps|e] eqn:Hj;
    [|split; [done|]; intros (_ & (_ & _ & [ps ?]%parseAllowedPrefixes_is_Ok & _) & _); congruence].
  pose proof (jobPrefixes_in_agent _ _ _ _ Ha Hj) as Hin.
  assert (Forall ipv4_cidr agent) as H4 by (apply parseAllowedPrefixes_is_Ok; eauto).
  destruct (first_err _ _) as [e|].
  - split; [done|]. intros (_ & _ & _ & _ & Hall). discriminate (proj2 Hin Hall).
  - rewrite ValidateJob_None. split; [|tauto]. intros [? ?].
    split_and!; try done. by apply Hin.
Qed.

(** Scope safety. A job the agent's scope check accepts probes no
    address outside the agent's registered allowlist, nor outside the job's
    own: every address of every target is covered by a CIDR of each. *)
Theorem ValidateAgentScope_sound job agentCIDRs t v :
  ValidateAgentScope job agentCIDRs = None →
  t ∈ job_Targets job → target_covers t v →
  (∃ c, c ∈ job_AllowedCIDRs job ∧ cidr_covers c v) ∧
  (∃ a, a ∈ agentCIDRs ∧ cidr_covers a v).
Proof.
  intros (_ & (_ & _ & _ & Htargets) & (_ & _ & Hscope))%ValidateAgentScope_None Ht Hv.
  destruct (Htargets t Ht) as (_ & c & Hc & Hcov). split; [by eauto|].
  destruct (Hscope c Hc) as (a & Ha & Hca). eauto.
Qed.

Definition example_job (allowed targets : list string) : ScanJob :=
  MkScanJob "job-1" "agent-1" "user-1" ScanCombined ModeStandardActive allowed targets
    [] (MkRateLimit 100 16) 300 0.

Definition example_agent (allowed : list string) : AgentRegistration :=
  MkAgentRegistration "agent-1" "edge" "" "v1" "" allowed AgentActive 0 None.

Lemma ValidateAgentScope_sound_witness :
  (∃ c, c ∈ ["192.168.1.0/24"] ∧ cidr_covers c 3232235786) ∧
  (∃ a, a ∈ ["192.168.0.0/16"] ∧ cidr_covers a 3232235786).
Proof.
  apply (ValidateAgentScope_sound (example_job ["192.168.1.0/24"] ["192.168.1.10"])
           ["192.168.0.0/16"] "192.168.1.10" 3232235786);
    [vm_compute; reflexivity | by left | right; vm_compute; reflexivity].
Defined.

(** Complete characterisation of dispatch: a job is accepted for an agent
    exactly when the agent is active and is the one the job names, the job is
    well formed, all its targets lie in its allowlist and its allowlist lies in
    the agent's. *)
Theorem ValidateJobForAgent_iff job agent :
  ValidateJobForAgent job agent = None ↔
  ar_Status agent = AgentActive ∧ job_AgentID job = ar_ID agent ∧
  job_structure job ∧ targets_in_allowlist job ∧ allowlist_in_agent job (ar_AllowedCIDRs agent).
Proof.
  unfold ValidateJobForAgent. rewrite <- ValidateAgentScope_None.
  repeat case_bool_decide; simpl; split; try done; tauto.
Qed.
