(* ===== verification/Budget.v ===== *)
(** * The scan budget: [internal/scanner/budget.go]

    How long a whole scan job may run, from its per-host timeout and an upper
    bound on the hosts its targets expand to. Go's [int] and [time.Duration]
    are 64-bit: every product and shift wraps. *)

From S2P Require Import Prelude GoStrings Netip Protocol.
Local Open Scope Z_scope.

Definition Second : Z := 1000000000.
Definition Minute : Z := 60 * Second.
Definition Hour : Z := 60 * Minute.

Definition scanGrace : Z := 30 * Second.
Definition hostDiscoveryAllowance : Z := 2 * Minute.
Definition maxScanBudget : Z := 4 * Hour.

(** One round of the loop over the targets. *)
Definition add_target_hosts (total : Z) (t : string) : Z :=
  let t := trim_space t in
  if decide (t = "") then total
  else match net_parse_cidr t with
       | Some ipnet => wrap64 (total + wrap64 (Z.shiftl 1 (ipn_size ipnet - ipn_ones ipnet)))
       | None => wrap64 (total + 1)
       end.

Definition EstimateTargetHosts (targets : list string) : Z :=
  let total := foldl add_target_hosts 0 targets in
  if total <? 1 then 1 else total.

(** [None] is the run-time panic of an integer division by zero; Go's integer
    division truncates. *)
Definition ScanBudget (perHostSeconds : Z) (targets : list string) : option Z :=
  if perHostSeconds <=? 0 then Some 0
  else
    let perHost := wrap64 (perHostSeconds * Second) in
    let hosts := EstimateTargetHosts targets in
    if perHost =? 0 then None
    else if Z.quot maxScanBudget perHost <? hosts then Some maxScanBudget
    else
      let budget := wrap64 (wrap64 (wrap64 (perHost * hosts) + hostDiscoveryAllowance) + scanGrace) in
      if maxScanBudget <? budget then Some maxScanBudget else Some budget.

(** ** The estimate bounds the hosts the targets expand to *)

Lemma add_target_hosts_range total t : in_int64 total → in_int64 (add_target_hosts total t).
Proof.
  intros H. unfold add_target_hosts. destruct (decide _); [done|].
  destruct (net_parse_cidr _); apply wrap64_range.
Qed.

Lemma EstimateTargetHosts_range ts : 1 ≤ EstimateTargetHosts ts ≤ int64_max.
Proof.
  unfold EstimateTargetHosts.
  assert (∀ total, in_int64 total → in_int64 (foldl add_target_hosts total ts)) as H.
  { induction ts as [|t ts IH]; intros total Ht; simpl; [done|].
    by apply IH, add_target_hosts_range. }
  specialize (H 0 ltac:(unfold in_int64, int64_min, int64_max; lia)).
  unfold in_int64 in H. destruct (Z.ltb_spec (foldl add_target_hosts 0 ts) 1); [|lia].
  unfold int64_max; lia.
Qed.

(** How many addresses a valid target names. *)
Definition target_count (t : string) : Z :=
  match parse_prefix t with Some p => prefix_count p | None => 1 end.

(** A valid target is read by [EstimateTargetHosts] as it is by the protocol. *)
Lemma add_target_hosts_valid total t :
  ipv4_target t → add_target_hosts total t = wrap64 (total + target_count t) ∧ 1 ≤ target_count t ≤ 2 ^ 32.
Proof.
  intros Ht. unfold add_target_hosts, target_count. rewrite (ipv4_target_trim t Ht).
  rewrite decide_False by by intros ->; destruct Ht as [(? & ? & _)|[? ?]].
  destruct Ht as [(p & Hp & H4)|(v & Hv)].
  - pose proof (host_bits_range p (parse_prefix4_wf _ _ Hp H4) H4) as Hh.
    rewrite Hp, (net_parse_cidr_prefix _ _ Hp H4). cbn [ipn_size ipn_ones].
    assert (1 ≤ prefix_count p ≤ 2 ^ 32) as Hc.
    { unfold prefix_count. split; [change 1 with (2 ^ 0)|]; apply Z.pow_le_mono_r; lia. }
    split; [|done]. rewrite Z.shiftl_1_l. unfold prefix_count, host_bits, bit_len in *. rewrite H4 in *.
    rewrite (wrap64_id (2 ^ _)) by (unfold in_int64, int64_min, int64_max; lia). done.
  - destruct (parse_addr4_inv _ _ Hv) as [Hr ->]. rewrite (parse_prefix_addr4 _ _ Hv).
    split; [|lia]. unfold net_parse_cidr. by rewrite cut_byte_none by by apply addr4_string_no_sep.
Qed.

Definition target_total (ts : list string) : Z := foldr (λ t n, target_count t + n) 0 ts.

Lemma target_total_bounds ts :
  Forall ipv4_target ts → Z.of_nat (length ts) ≤ target_total ts ≤ Z.of_nat (length ts) * 2 ^ 32.
Proof.
  induction 1 as [|t ts Ht _ IH]; cbn [target_total foldr length]; [lia|].
  destruct (add_target_hosts_valid 0 t Ht) as [_ ?]. unfold target_total in *. lia.
Qed.

Lemma foldl_target_hosts ts total :
  Forall ipv4_target ts → 0 ≤ total → total + target_total ts ≤ int64_max →
  foldl add_target_hosts total ts = total + target_total ts.
Proof.
  intros H. revert total. induction H as [|t ts Ht Hts IH]; intros total H0 Hmax; simpl in *; [lia|].
  destruct (add_target_hosts_valid total t Ht) as [-> ?].
  pose proof (target_total_bounds ts Hts).
  rewrite wrap64_id by (unfold in_int64, int64_min; lia). rewrite IH by lia. lia.
Qed.

(** The addresses a target names, enumerated. *)
Definition target_addrs (t : string) : gset Z :=
  match parse_prefix t with
  | Some p => list_to_set (seqZ (prefix_first p) (prefix_count p))
  | None => match parse_addr t with Some (Addr4 v) => {[v]} | _ => ∅ end
  end.

Lemma elem_of_target_addrs t v : ipv4_target t → target_covers t v → v ∈ target_addrs t.
Proof.
  unfold target_addrs. intros _ [(p & Hp & H4 & Hc)|Hv].
  - rewrite Hp. apply prefix_contains4 in Hc; [|by eapply parse_prefix4_wf|done].
    apply elem_of_list_to_set, elem_of_seqZ. lia.
  - rewrite (parse_prefix_addr4 _ _ Hv), Hv. set_solver.
Qed.

Lemma size_list_to_set_le (l : list Z) : (size (list_to_set l : gset Z) ≤ length l)%nat.
Proof.
  induction l as [|x l IH]; [by rewrite list_to_set_nil, size_empty|].
  rewrite list_to_set_cons. cbn [length].
  pose proof (size_union_alt {[x]} (list_to_set l : gset Z)) as Hs.
  assert (size ((list_to_set l : gset Z) ∖ {[x]}) ≤ size (list_to_set l : gset Z))%nat.
  { apply subseteq_size. set_solver. }
  rewrite size_singleton in Hs. lia.
Qed.

Lemma size_target_addrs t : ipv4_target t → Z.of_nat (size (target_addrs t)) ≤ target_count t.
Proof.
  unfold target_addrs, target_count. intros [(p & Hp & H4)|(v & Hv)].
  - rewrite Hp. pose proof (size_list_to_set_le (seqZ (prefix_first p) (prefix_count p))) as Hl.
    rewrite length_seqZ in Hl. unfold prefix_count in *.
    assert (0 ≤ 2 ^ host_bits p) by (apply Z.pow_nonneg; lia). lia.
  - rewrite (parse_prefix_addr4 _ _ Hv), Hv, size_singleton. done.
Qed.

Lemma size_union_le (X Y : gset Z) : (size (X ∪ Y) ≤ size X + size Y)%nat.
Proof.
  pose proof (size_union_alt X Y).
  assert (size (Y ∖ X) ≤ size Y)%nat by (apply subseteq_size; set_solver). lia.
Qed.

Lemma targets_addrs_size ts (X : gset Z) :
  Forall ipv4_target ts → (∀ v, v ∈ X → ∃ t, t ∈ ts ∧ target_covers t v) →
  Z.of_nat (size X) ≤ target_total ts.
Proof.
  intros Hts HX. transitivity (Z.of_nat (size (⋃ (target_addrs <$> ts)))).
  - apply Nat2Z.inj_le, subseteq_size. intros v (t & Ht & Hv)%HX.
    rewrite Forall_forall in Hts. apply elem_of_union_list. exists (target_addrs t).
    split; [by apply list_elem_of_fmap_2|]. apply elem_of_target_addrs; auto.
  - clear HX. induction Hts as [|t ts Ht _ IH]; rewrite ?fmap_cons, ?union_list_cons.
    + rewrite fmap_nil, union_list_nil, size_empty. done.
    + pose proof (size_union_le (target_addrs t) (⋃ (target_addrs <$> ts))).
      pose proof (size_target_addrs t Ht). unfold target_total in *. cbn [foldr]. lia.
Qed.

(** The estimate is an upper bound, as its comment promises: for targets
    the protocol accepts, it is the sum of the networks' address counts (at
    least one), and no set of addresses the targets name is larger. *)
Theorem EstimateTargetHosts_bound ts (X : gset Z) :
  Forall ipv4_target ts → Z.of_nat (length ts) ≤ 2 ^ 30 →
  (∀ v, v ∈ X → ∃ t, t ∈ ts ∧ target_covers t v) →
  EstimateTargetHosts ts = Z.max 1 (target_total ts) ∧ Z.of_nat (size X) ≤ EstimateTargetHosts ts.
Proof.
  intros Hts Hlen HX. pose proof (target_total_bounds ts Hts) as Hb.
  assert (EstimateTargetHosts ts = Z.max 1 (target_total ts)) as ->.
  { unfold EstimateTargetHosts. rewrite foldl_target_hosts; [|assumption|lia|unfold int64_max; lia].
    destruct (Z.ltb_spec (0 + target_total ts) 1); lia. }
  split; [done|]. pose proof (targets_addrs_size ts X Hts HX). lia.
Qed.

Lemma EstimateTargetHosts_bound_witness :
  EstimateTargetHosts ["192.168.1.0/30"; "10.0.0.1"] = Z.max 1 5 ∧
  Z.of_nat (size ({[167772161; 3232235776]} : gset Z)) ≤ EstimateTargetHosts ["192.168.1.0/30"; "10.0.0.1"].
Proof.
  apply (EstimateTargetHosts_bound ["192.168.1.0/30"; "10.0.0.1"] {[167772161; 3232235776]}).
  - constructor; [left; eexists; split; vm_compute; reflexivity|].
    constructor; [right; eexists; vm_compute; reflexivity|constructor].
  - vm_compute. congruence.
  - intros v. rewrite elem_of_union, !elem_of_singleton. intros [->| ->].
    + exists "10.0.0.1". split; [by right; left|]. right. vm_compute. reflexivity.
    + exists "192.168.1.0/30". split; [by left|]. left. exists (PrefixFrom (Addr4 3232235776) 30).
      split; [|split]; vm_compute; reflexivity.
Defined.

(** ** The budget *)

Lemma ScanBudget_no_overflow s ts :
  0 < s → s * Second ≤ int64_max →
  ScanBudget s ts =
    Some (Z.min maxScanBudget
            (s * Second * EstimateTargetHosts ts + hostDiscoveryAllowance + scanGrace)).
Proof.
  intros Hs Hmax. pose proof (EstimateTargetHosts_range ts) as Hh. unfold ScanBudget.
  remember (EstimateTargetHosts ts) as hosts eqn:E; clear E.
  assert (Second = 1000000000) as HS by done.
  assert (maxScanBudget = 14400000000000 ∧ hostDiscoveryAllowance = 120000000000 ∧
          scanGrace = 30000000000 ∧ int64_max = 9223372036854775807) as (Hm & Ha & Hg & Hi) by done.
  unfold in_int64, int64_min in *. rewrite Hm, Ha, Hg, Hi, HS in *.
  replace (s <=? 0) with false by lia.
  assert (∀ z, 0 ≤ z ≤ 9223372036854775807 → wrap64 z = z) as Hw.
  { intros z Hz. apply wrap64_id. unfold in_int64, int64_min. lia. }
  rewrite (Hw (s * 1000000000)) by lia.
  replace (s * 1000000000 =? 0) with false by lia.
  set (h := s * 1000000000) in *. assert (0 < h) by lia.
  rewrite Z.quot_div_nonneg by lia.
  destruct (Z.ltb_spec (14400000000000 / h) hosts) as [Hlt|Hle].
  - f_equal. assert (14400000000000 < h * hosts); [|lia].
    pose proof (Z.mul_succ_div_gt 14400000000000 h ltac:(lia)). nia.
  - assert (h * hosts ≤ 14400000000000).
    { pose proof (Z.mul_div_le 14400000000000 h ltac:(lia)). nia. }
    assert (0 ≤ h * hosts) by nia. set (x := h * hosts) in *.
    rewrite (Hw x), (Hw (x + _)), (Hw (_ + _)) by lia.
    destruct (Z.ltb_spec 14400000000000 (x + 120000000000 + 30000000000)); f_equal; lia.
Qed.

(** The budget is the per-host time multiplied by the host estimate, plus
    the discovery allowance and the grace, capped at four hours, with no
    overflow, for every per-host timeout that is itself a [time.Duration]. *)
Theorem ScanBudget_exact s ts :
  0 < s → s * Second ≤ int64_max →
  ScanBudget s ts =
    Some (Z.min maxScanBudget
            (s * Second * EstimateTargetHosts ts + hostDiscoveryAllowance + scanGrace)).
Proof. apply ScanBudget_no_overflow. Qed.

Lemma ScanBudget_exact_witness :
  ScanBudget 60 ["192.168.1.0/30"] =
    Some (Z.min maxScanBudget
            (60 * Second * EstimateTargetHosts ["192.168.1.0/30"] + hostDiscoveryAllowance + scanGrace)).
Proof. apply (ScanBudget_exact 60 ["192.168.1.0/30"]); vm_compute; congruence. Defined.

Lemma wrap64_zero z : wrap64 z = 0 ↔ z mod 2 ^ 64 = 0.
Proof.
  unfold wrap64. pose proof (Z.div_mod z (2 ^ 64) ltac:(done)).
  pose proof (Z.mod_pos_bound z (2 ^ 64) ltac:(done)).
  pose proof (Z.div_mod (z + 2 ^ 63) (2 ^ 64) ltac:(done)).
  pose proof (Z.mod_pos_bound (z + 2 ^ 63) (2 ^ 64) ltac:(done)). lia.
Qed.

(** The function panics (division by zero) exactly for the positive
    per-host timeouts whose nanoseconds wrap to zero, the multiples of
    [2 ^ 55] seconds; [ValidateJob] only asks that the timeout be positive. *)
Theorem ScanBudget_panics_iff s ts :
  ScanBudget s ts = None ↔ 0 < s ∧ s mod 2 ^ 55 = 0.
Proof.
  unfold ScanBudget. destruct (Z.leb_spec s 0); [split; [done|lia]|].
  assert (wrap64 (s * Second) = 0 ↔ s mod 2 ^ 55 = 0) as Hw.
  { rewrite wrap64_zero, !Z.mod_divide by done. change Second with (2 ^ 9 * 5 ^ 9).
    change (2 ^ 64) with (2 ^ 9 * 2 ^ 55).
    replace (s * (2 ^ 9 * 5 ^ 9)) with (2 ^ 9 * (5 ^ 9 * s)) by ring.
    rewrite Z.mul_divide_cancel_l by done.
    split; [|apply Z.divide_mul_r]. intros Hd. apply Z.gauss with (5 ^ 9); [done|].
    vm_compute. reflexivity. }
  destruct (Z.eqb_spec (wrap64 (s * Second)) 0) as [H0|H0].
  - split; [|done]. intros _. split; [lia|by apply Hw].
  - split; [|intros [_ Hm]; by apply Hw in Hm].
    destruct (_ <? _); [done|]. destruct (maxScanBudget <? _); done.
Qed.
