(* ===== verification/Discovery.v ===== *)
(** * What the agent's discovery backends share

    The [Discoverer] interface of [internal/scanner/agent] (router.go, agent.go),
    the allowlist filter of snmp.go ([parseScopePrefixes], [withinScope]) and the
    loop every backend runs over a job's targets. A backend's contract, that it
    reports no address it was not authorised to learn about, is the class
    [Scoped] (by the job's allowlist) or [TargetScoped] (by its targets). *)

From S2P Require Import Prelude GoStrings Netip Protocol.
Local Open Scope Z_scope.

(** Text produced by Go's standard library that the program only passes on: an
    error of [netip.ParsePrefix], the [%q] verb, a formatted time. *)
Class GoText : Type :=
  { quote : string → string;
    parse_prefix_error : string → string;
    format_minute : Z → string }.

(** The three values a [Discover] method returns; an error carries its text. *)
Record Outcome : Type := MkOutcome
  { out_obs : list Observation; out_errs : list ScanError; out_err : option string }.

Definition Discoverer : Type := ScanJob → Outcome.

(** [ctx.Err()] at the [i]-th poll of the job's context. *)
Definition Ctx : Type := nat → option string.

Definition fail (e : string) : Outcome := MkOutcome [] [] (Some e).

(** The loop over a job's targets: the context is polled before each one, and a
    cancelled context returns what was gathered together with its error. *)
Fixpoint target_loop {S} (ctx : Ctx) (step : S → string → S) (i : nat) (targets : list string)
    (s : S) : S * option string :=
  match targets with
  | [] => (s, None)
  | t :: ts =>
      match ctx i with
      | Some e => (s, Some e)
      | None => target_loop ctx step (i + 1) ts (step s t)
      end
  end.

Fixpoint parseScopePrefixes `{GoText} (cidrs : list string) : result string (list Prefix) :=
  match cidrs with
  | [] => Ok []
  | c :: cs =>
      match parse_prefix c with
      | None => Err ("parse allowed CIDR " +:+ quote c +:+ ": " +:+ parse_prefix_error c)
      | Some p => (λ ps, prefix_masked p :: ps) <$> parseScopePrefixes cs
      end
  end.

Definition withinScope (addr : Addr) (prefixes : list Prefix) : bool :=
  existsb (λ p, prefix_contains p addr) prefixes.

(** The guard [err != nil || !addr.Is4() || !withinScope(addr, scope)] negated. *)
Definition scopedIPv4 (ip : string) (scope : list Prefix) : bool :=
  match parse_addr ip with
  | Some addr => is4 addr && withinScope addr scope
  | None => false
  end.

(** ** The contract *)

(** [ip] is an IPv4 address in one of the networks [cidrs]. *)
Definition in_allowlist (cidrs : list string) (ip : string) : Prop :=
  ∃ v c, parse_addr ip = Some (Addr4 v) ∧ c ∈ cidrs ∧ cidr_covers c v.

(** [ip] is an IPv4 address one of [targets] names. *)
Definition in_targets (targets : list string) (ip : string) : Prop :=
  ∃ v t, parse_addr ip = Some (Addr4 v) ∧ t ∈ targets ∧ target_covers t v.

Class Scoped (d : Discoverer) : Prop :=
  scoped job o : o ∈ out_obs (d job) → in_allowlist (job_AllowedCIDRs job) (obs_IP o).

Class TargetScoped (d : Discoverer) : Prop :=
  target_scoped job o : o ∈ out_obs (d job) → in_targets (job_Targets job) (obs_IP o).

(** ** Lemmas *)

Lemma target_loop_inv {S} (P : S → Prop) ctx step i targets s :
  P s → (∀ s t, t ∈ targets → P s → P (step s t)) → P (target_loop ctx step i targets s).1.
Proof.
  revert i s. induction targets as [|t ts IH]; intros i s Hs Hstep; simpl; [done|].
  destruct (ctx i); [done|]. apply IH; [apply Hstep; [by left|done]|].
  intros s' t' Ht. apply Hstep. by right.
Qed.

(** With a context that is never cancelled the loop is a fold. *)
Lemma target_loop_foldl {S} ctx (step : S → string → S) i targets s :
  (∀ j, ctx j = None) → target_loop ctx step i targets s = (foldl step s targets, None).
Proof.
  intros Hctx. revert i s. induction targets as [|t ts IH]; intros i s; simpl; [done|].
  by rewrite Hctx, IH.
Qed.

Lemma parse_addr_wf4 ip v : parse_addr ip = Some (Addr4 v) → 0 ≤ v < 2 ^ 32.
Proof. by intros [? _]%parse_addr4_inv. Qed.

Lemma prefix_contains_masked4 p v :
  0 ≤ v < 2 ^ 32 → (is4 (pfx_addr p) = true → prefix_wf p) →
  prefix_contains (prefix_masked p) (Addr4 v) = true →
  is4 (pfx_addr p) = true ∧ prefix_contains p (Addr4 v) = true.
Proof.
  intros Hv Hwf H. destruct (is4 (pfx_addr p)) eqn:H4.
  - split; [done|]. rewrite prefix_contains_masked in H; auto.
  - destruct p as [[x|x z] b]; done.
Qed.

Lemma parseScopePrefixes_elem `{GoText} cidrs ps p :
  parseScopePrefixes cidrs = Ok ps → p ∈ ps →
  ∃ c q, c ∈ cidrs ∧ parse_prefix c = Some q ∧ p = prefix_masked q.
Proof.
  revert ps. induction cidrs as [|c cs IH]; intros ps; simpl.
  - intros [= <-] Hp. by apply not_elem_of_nil in Hp.
  - destruct (parse_prefix c) as [q|] eqn:Hq; [|done].
    destruct (parseScopePrefixes cs) as [qs|]; [|done]. intros [= <-] [->|Hp]%elem_of_cons.
    + exists c, q. split; [by left|done].
    + destruct (IH qs eq_refl Hp) as (d & r & ? & ? & ?). exists d, r. split; [by right|done].
Qed.

(** An address that passes the filter is in the allowlist. *)
Lemma scopedIPv4_allowlist `{GoText} cidrs ps ip :
  parseScopePrefixes cidrs = Ok ps → scopedIPv4 ip ps = true → in_allowlist cidrs ip.
Proof.
  intros Hps. unfold scopedIPv4. destruct (parse_addr ip) as [[v|]|] eqn:Hip; [|done..].
  simpl. intros (p & Hp & Hc)%existsb_elem.
  destruct (parseScopePrefixes_elem _ _ _ Hps Hp) as (c & q & Hin & Hq & ->).
  apply prefix_contains_masked4 in Hc as [H4 Hc]; eauto using parse_addr_wf4, parse_prefix4_wf.
  exists v, c. split_and!; [done..|]. by exists q.
Qed.

Lemma scopedIPv4_app ip ps qs :
  scopedIPv4 ip (ps ++ qs) = scopedIPv4 ip ps || scopedIPv4 ip qs.
Proof.
  unfold scopedIPv4, withinScope. destruct (parse_addr ip) as [a|]; [|done].
  rewrite existsb_app. by destruct (is4 a).
Qed.

(** A validated job's targets lie in its allowlist. *)
Lemma in_targets_allowlist job ip :
  targets_in_allowlist job → in_targets (job_Targets job) ip → in_allowlist (job_AllowedCIDRs job) ip.
Proof.
  intros (_ & _ & _ & Htargets) (v & t & Hip & Ht & Hv).
  destruct (Htargets t Ht) as (_ & c & Hc & Hcov). exists v, c. eauto.
Qed.
