(* ===== verification/Merge.v ===== *)
(** * Merging observations: [internal/scanner/agent/combined.go]

    [mergeServices], [mergeInto] and [mergeObservations], which consolidate the
    observations of several backends into one per address. *)

From S2P Require Import Prelude GoStrings Netip Protocol.
Local Open Scope Z_scope.

Definition service_key (s : ServiceObservation) : string :=
  svc_Protocol s +:+ "/" +:+ itoa (svc_Port s).

(** The second loop of [mergeServices]. *)
Fixpoint append_services (seen : gset string) (a b : list ServiceObservation)
    : list ServiceObservation :=
  match b with
  | [] => a
  | s :: b =>
      let k := service_key s in
      if decide (k ∈ seen) then append_services seen a b
      else append_services ({[k]} ∪ seen) (a ++ [s]) b
  end.

Definition mergeServices (a b : list ServiceObservation) : list ServiceObservation :=
  if decide (b = []) then a else append_services (list_to_set (map service_key a)) a b.

(** [if base.F == "" { base.F = add.F }] *)
Definition or_else (x y : string) : string := if decide (x = "") then y else x.

Definition mergeInto (base add : Observation) : Observation :=
  {| obs_IP := obs_IP base;
     obs_MAC := or_else (obs_MAC base) (obs_MAC add);
     obs_Vendor := or_else (obs_Vendor base) (obs_Vendor add);
     obs_Hostname := or_else (obs_Hostname base) (obs_Hostname add);
     obs_OSFamily := or_else (obs_OSFamily base) (obs_OSFamily add);
     obs_OSDetail := or_else (obs_OSDetail base) (obs_OSDetail add);
     obs_VLAN := if obs_VLAN base =? 0 then obs_VLAN add else obs_VLAN base;
     obs_HWSerial := or_else (obs_HWSerial base) (obs_HWSerial add);
     obs_HWObjectID := or_else (obs_HWObjectID base) (obs_HWObjectID add);
     obs_Services := mergeServices (obs_Services base) (obs_Services add);
     obs_Evidence := obs_Evidence base ++ obs_Evidence add;
     obs_ObservedAt := if obs_ObservedAt base =? zero_time then obs_ObservedAt add
                       else obs_ObservedAt base |}.

(** The loop's state: the addresses in first-seen order and the record of each. *)
Definition merge_step (st : list string * gmap string Observation) (obs : Observation)
    : list string * gmap string Observation :=
  let '(order, byIP) := st in
  if decide (obs_IP obs = "") then st
  else match byIP !! obs_IP obs with
       | None => (order ++ [obs_IP obs], <[obs_IP obs := obs]> byIP)
       | Some base => (order, <[obs_IP obs := mergeInto base obs]> byIP)
       end.

(** Every address of [order] has a record, so [byIP[ip]] is never nil. *)
Definition mergeObservations (l : list Observation) : list Observation :=
  let '(order, byIP) := foldl merge_step ([], ∅) l in
  omap (λ ip, byIP !! ip) order.

(** ** Reference definition: group by address, fold each group *)

Definition sightings (ip : string) (l : list Observation) : list Observation :=
  filter (λ o, obs_IP o = ip) l.

Definition fold_sightings (l : list Observation) : option Observation :=
  match l with [] => None | o :: l => Some (foldl mergeInto o l) end.

(** The addresses of [l], blanks dropped, in order of first sighting. *)
Definition first_seen (l : list string) : list string :=
  foldl (λ acc ip, if decide (ip = "" ∨ ip ∈ acc) then acc else acc ++ [ip]) [] l.

(** ** Lemmas *)

Lemma mergeInto_IP base add : obs_IP (mergeInto base add) = obs_IP base.
Proof. done. Qed.

Lemma foldl_mergeInto_IP o l : obs_IP (foldl mergeInto o l) = obs_IP o.
Proof. revert o. induction l as [|a l IH]; intros o; [done|]. simpl. by rewrite IH. Qed.

Lemma fold_sightings_snoc l o :
  fold_sightings (l ++ [o]) =
    Some (match fold_sightings l with None => o | Some b => mergeInto b o end).
Proof. destruct l as [|a l]; [done|]. simpl. by rewrite foldl_app. Qed.

Lemma first_seen_snoc l ip :
  first_seen (l ++ [ip]) =
    if decide (ip = "" ∨ ip ∈ first_seen l) then first_seen l else first_seen l ++ [ip].
Proof. unfold first_seen. by rewrite foldl_app. Qed.

Lemma elem_of_first_seen l ip : ip ∈ first_seen l ↔ ip ∈ l ∧ ip ≠ "".
Proof.
  induction l as [|x l IH] using rev_ind; [set_solver|].
  rewrite first_seen_snoc. destruct (decide _) as [[->|Hx]|Hx]; set_solver.
Qed.

Lemma NoDup_first_seen l : NoDup (first_seen l).
Proof.
  induction l as [|x l IH] using rev_ind; [constructor|].
  rewrite first_seen_snoc. destruct (decide _) as [?|Hx]; [done|].
  apply NoDup_app. split; [done|]. split; [|apply NoDup_singleton].
  intros y Hy ->%list_elem_of_singleton. tauto.
Qed.

(** The loop invariant: the order is [first_seen], and the record of an
    address is the fold of its sightings. *)
Lemma merge_loop_spec l order byIP :
  foldl merge_step ([], ∅) l = (order, byIP) →
  order = first_seen (map obs_IP l) ∧
  ∀ ip, byIP !! ip = if decide (ip = "") then None else fold_sightings (sightings ip l).
Proof.
  revert order byIP. induction l as [|o l IH] using rev_ind; intros order byIP.
  - intros [= <- <-]. split; [done|]. intros ip. rewrite lookup_empty. by destruct (decide _).
  - rewrite foldl_app. simpl. destruct (foldl merge_step ([], ∅) l) as [order' byIP'] eqn:Hl.
    destruct (IH _ _ eq_refl) as [-> Hby]. clear IH Hl.
    rewrite map_app. simpl. rewrite first_seen_snoc.
    assert (∀ ip, sightings ip (l ++ [o]) = sightings ip l ++ if decide (obs_IP o = ip) then [o] else []) as Hs.
    { intros ip. unfold sightings. rewrite filter_app. f_equal. }
    destruct (decide (obs_IP o = "")) as [He|He].
    + intros [= <- <-]. rewrite decide_True by auto. split; [done|].
      intros ip. rewrite Hby, Hs. destruct (decide (ip = "")); [done|].
      rewrite decide_False by congruence. by rewrite app_nil_r.
    + assert (byIP' !! obs_IP o = None ↔ obs_IP o ∉ first_seen (map obs_IP l)) as Hnone.
      { rewrite Hby, decide_False by done. rewrite elem_of_first_seen.
        unfold fold_sightings, sightings. destruct (filter _ l) as [|b k] eqn:Hf.
        - split; [intros _ [Hin _]|done]. apply list_elem_of_fmap in Hin as (b & Hb & Hin).
          assert (b ∈ filter (λ b, obs_IP b = obs_IP o) l) as Hbf.
          { by apply list_elem_of_filter. } rewrite Hf in Hbf. by apply not_elem_of_nil in Hbf.
        - split; [done|]. intros Hn. exfalso. apply Hn. split; [|done].
          assert (b ∈ filter (λ b, obs_IP b = obs_IP o) l) as Hbf by (rewrite Hf; by left).
          apply list_elem_of_filter in Hbf as [Heq Hb]. rewrite <- Heq.
          by apply list_elem_of_fmap_2. }
      destruct (byIP' !! obs_IP o) as [base|] eqn:Hb; intros [= <- <-].
      * destruct (decide (obs_IP o = "" ∨ obs_IP o ∈ first_seen (map obs_IP l))) as [_|Hn].
        -- split; [done|]. intros ip. rewrite Hs. destruct (decide (obs_IP o = ip)) as [<-|Hne].
           ++ rewrite lookup_insert_eq, decide_False, fold_sightings_snoc by done.
              rewrite Hby, decide_False in Hb by done. by rewrite Hb.
           ++ rewrite lookup_insert_ne, app_nil_r by done. apply Hby.
        -- exfalso. apply Hn. right. destruct (decide (obs_IP o ∈ first_seen (map obs_IP l))); [done|].
           by apply Hnone in n.
      * rewrite decide_False by (intros [?|?]; [done|by apply Hnone]).
        split; [done|]. intros ip. rewrite Hs. destruct (decide (obs_IP o = ip)) as [<-|Hne].
        -- rewrite lookup_insert_eq, decide_False, fold_sightings_snoc by done.
           rewrite Hby, decide_False in Hb by done. by rewrite Hb.
        -- rewrite lookup_insert_ne, app_nil_r by done. apply Hby.
Qed.

Lemma append_services_spec seen a b :
  seen = list_to_set (map service_key a) →
  a `prefix_of` append_services seen a b ∧
  (∀ s, s ∈ append_services seen a b → s ∈ a ∨ s ∈ b) ∧
  (∀ k, k ∈ map service_key (append_services seen a b) ↔
        k ∈ map service_key a ∨ k ∈ map service_key b) ∧
  (NoDup (map service_key a) → NoDup (map service_key (append_services seen a b))).
Proof.
  revert seen a. induction b as [|s b IH]; intros seen a ->; cbn [append_services].
  { split_and!; [done|auto| |done]. intros k. simpl. set_solver. }
  destruct (decide _) as [Hin|Hin]; rewrite elem_of_list_to_set in Hin.
  - destruct (IH _ a eq_refl) as (Hp & He & Hk & Hn). split_and!; [done| | |done].
    + intros x Hx. destruct (He x Hx); [by left|by right; right].
    + intros k. rewrite Hk. simpl. rewrite elem_of_cons. split; [tauto|].
      intros [?|[->|?]]; auto.
  - destruct (IH ({[service_key s]} ∪ list_to_set (map service_key a)) (a ++ [s])) as (Hp & He & Hk & Hn).
    { rewrite map_app. set_solver. }
    split_and!.
    + etrans; [|exact Hp]. by apply prefix_app_r.
    + intros x Hx. destruct (He x Hx) as [[?| ->%list_elem_of_singleton]%elem_of_app|];
        [by left|by right; left|by right; right].
    + intros k. rewrite Hk, map_app, elem_of_app. simpl. rewrite !elem_of_cons, elem_of_nil. tauto.
    + intros Ha. apply Hn. rewrite map_app. apply NoDup_app. split; [done|]. split; [|apply NoDup_singleton].
      intros k Hka ->%list_elem_of_singleton. done.
Qed.

(** Two service lists merge into a union by protocol and port: the leading
    list stays in place, nothing new is made up, every port of either list is
    there, and no port appears twice unless the leading list repeats it. *)
Theorem mergeServices_union a b :
  a `prefix_of` mergeServices a b ∧
  (∀ s, s ∈ mergeServices a b → s ∈ a ∨ s ∈ b) ∧
  (∀ k, k ∈ map service_key (mergeServices a b) ↔ k ∈ map service_key a ∨ k ∈ map service_key b) ∧
  (NoDup (map service_key a) → NoDup (map service_key (mergeServices a b))).
Proof.
  unfold mergeServices. destruct (decide (b = [])) as [->|_].
  - split_and!; [done|auto| |done]. intros k. simpl. set_solver.
  - by apply append_services_spec.
Qed.

(** The accumulating loop is its reference definition: one record per
    address in first-seen order, each the fold of [mergeInto] over the
    sightings of that address. *)
Theorem mergeObservations_reference l :
  mergeObservations l =
    omap (λ ip, fold_sightings (sightings ip l)) (first_seen (map obs_IP l)).
Proof.
  unfold mergeObservations. destruct (foldl merge_step ([], ∅) l) as [order byIP] eqn:Hl.
  destruct (merge_loop_spec _ _ _ Hl) as [-> Hby].
  assert (Forall (λ ip, ip ≠ "") (first_seen (map obs_IP l))) as Hne.
  { apply Forall_forall. by intros ip [_ ?]%elem_of_first_seen. }
  clear Hl. induction Hne as [|ip ips Hip _ IH]; [done|]. simpl. rewrite Hby, decide_False by done.
  destruct (fold_sightings (sightings ip l)); [by f_equal|done].
Qed.

Lemma sightings_fold_IP ip l o :
  fold_sightings (sightings ip l) = Some o → obs_IP o = ip.
Proof.
  unfold sightings. destruct (filter _ l) as [|b k] eqn:Hf; [done|]. simpl. intros [= <-].
  rewrite foldl_mergeInto_IP.
  assert (b ∈ filter (λ o, obs_IP o = ip) l) as Hb by (rewrite Hf; by left).
  by apply list_elem_of_filter in Hb as [? _].
Qed.

Lemma fold_sightings_is_Some ip l : ip ∈ map obs_IP l → is_Some (fold_sightings (sightings ip l)).
Proof.
  intros (b & -> & Hb)%list_elem_of_fmap. unfold sightings.
  destruct (filter _ l) as [|a k] eqn:Hf; [|by eexists].
  assert (b ∈ filter (λ o, obs_IP o = obs_IP b) l) as Hin by by apply list_elem_of_filter.
  rewrite Hf in Hin. by apply not_elem_of_nil in Hin.
Qed.

Lemma mergeObservations_elem l o :
  o ∈ mergeObservations l ↔ obs_IP o ≠ "" ∧ fold_sightings (sightings (obs_IP o) l) = Some o.
Proof.
  rewrite mergeObservations_reference, list_elem_of_omap. split.
  - intros (ip & [Hin Hne]%elem_of_first_seen & Hf).
    pose proof (sightings_fold_IP _ _ _ Hf) as ->. done.
  - intros [Hne Hf]. exists (obs_IP o). split; [|done]. apply elem_of_first_seen. split; [|done].
    unfold sightings in Hf. destruct (filter _ l) as [|b k] eqn:Hfl; [done|].
    assert (b ∈ filter (λ b, obs_IP b = obs_IP o) l) as Hb by (rewrite Hfl; by left).
    apply list_elem_of_filter in Hb as [<- Hb]. by apply list_elem_of_fmap_2.
Qed.

Lemma omap_cons_Some {A B} (f : A → option B) x y l : f x = Some y → omap f (x :: l) = y :: omap f l.
Proof. intros Hf. by cbn; rewrite Hf. Qed.

Lemma mergeObservations_IPs l : map obs_IP (mergeObservations l) = first_seen (map obs_IP l).
Proof.
  rewrite mergeObservations_reference.
  assert (Forall (λ ip, ip ∈ map obs_IP l) (first_seen (map obs_IP l))) as Hne.
  { apply Forall_forall. by intros ip [? _]%elem_of_first_seen. }
  induction Hne as [|ip ips Hip _ IH]; [done|].
  destruct (fold_sightings_is_Some ip l Hip) as [o Ho]. rewrite (omap_cons_Some (λ ip, fold_sightings (sightings ip l)) ip o _ Ho), map_cons, IH. f_equal. by eapply sightings_fold_IP.
Qed.

Lemma first_seen_id l : NoDup l → "" ∉ l → first_seen l = l.
Proof.
  induction l as [|x l IH] using rev_ind; [done|].
  intros (Hl & Hx & _)%NoDup_app [Hne Hnx]%not_elem_of_app. rewrite first_seen_snoc, IH by done.
  rewrite decide_False; [done|]. intros [->|Hin].
  - apply Hnx. by left.
  - apply (Hx x Hin). by left.
Qed.

Lemma sightings_unique l o :
  NoDup (map obs_IP l) → o ∈ l → sightings (obs_IP o) l = [o].
Proof.
  induction l as [|a l IH]; intros Hnd Hin; [by apply not_elem_of_nil in Hin|].
  simpl in Hnd. apply NoDup_cons in Hnd as [Ha Hnd]. unfold sightings in *.
  apply elem_of_cons in Hin as [->|Hin].
  - rewrite filter_cons_True by done. f_equal.
    destruct (filter _ l) as [|b k] eqn:Hf; [done|]. exfalso. apply Ha.
    assert (b ∈ filter (λ b, obs_IP b = obs_IP a) l) as Hb by (rewrite Hf; by left).
    apply list_elem_of_filter in Hb as [<- Hb]. by apply list_elem_of_fmap_2.
  - rewrite filter_cons_False; [auto|]. intros He. apply Ha. rewrite He. by apply list_elem_of_fmap_2.
Qed.

(** The result is in normal form: one record per non-blank address seen,
    in first-seen order, and merging again changes nothing. *)
Theorem mergeObservations_normal l :
  map obs_IP (mergeObservations l) = first_seen (map obs_IP l) ∧
  NoDup (map obs_IP (mergeObservations l)) ∧
  mergeObservations (mergeObservations l) = mergeObservations l.
Proof.
  pose proof (mergeObservations_IPs l) as Hip.
  assert (NoDup (map obs_IP (mergeObservations l))) as Hnd.
  { rewrite Hip. apply NoDup_first_seen. }
  split_and!; [done..|]. set (m := mergeObservations l) in *.
  rewrite (mergeObservations_reference m), first_seen_id; [|done|].
  2: { rewrite Hip. by intros [_ ?]%elem_of_first_seen. }
  assert (Forall (λ o, sightings (obs_IP o) m = [o]) m) as Hs.
  { apply Forall_forall. intros o Ho. by apply sightings_unique. }
  clear Hip Hnd. revert Hs. generalize m at 2 4 5 as k.
  intros k Hs. induction Hs as [|o k Ho _ IH]; [done|].
  rewrite map_cons, (omap_cons_Some _ _ o), IH; [done|]. by rewrite Ho.
Qed.

(** The first non-blank value of a field over the sightings of an address. *)
Definition leading (f : Observation → string) (l : list Observation) : string :=
  foldr (λ o r, or_else (f o) r) "" l.

Lemma leading_fold (f : Observation → string) o l :
  (∀ b a, f (mergeInto b a) = or_else (f b) (f a)) →
  f (foldl mergeInto o l) = or_else (f o) (leading f l).
Proof.
  intros Hf. revert o. induction l as [|a l IH]; intros o; simpl.
  - unfold or_else. by destruct (decide (f o = "")).
  - rewrite IH, Hf. unfold or_else. by repeat case_decide.
Qed.

(** The leading source wins: in a merged record every scalar field holds
    the first non-blank value any backend reported for that address, and the
    evidence of every sighting is kept, in order. *)
Theorem mergeObservations_leading l o :
  o ∈ mergeObservations l →
  let s := sightings (obs_IP o) l in
  obs_MAC o = leading obs_MAC s ∧ obs_Vendor o = leading obs_Vendor s ∧
  obs_Hostname o = leading obs_Hostname s ∧ obs_OSFamily o = leading obs_OSFamily s ∧
  obs_OSDetail o = leading obs_OSDetail s ∧ obs_HWSerial o = leading obs_HWSerial s ∧
  obs_HWObjectID o = leading obs_HWObjectID s ∧
  obs_Evidence o = concat (map obs_Evidence s).
Proof.
  intros [_ Hf]%mergeObservations_elem. cbn zeta. revert Hf.
  generalize (sightings (obs_IP o) l) as s. intros [|b k]; [done|]. simpl. intros [= <-].
  split_and!; try by apply leading_fold.
  clear. revert b. induction k as [|a k IH]; intros b; simpl; [by rewrite app_nil_r|].
  rewrite IH. simpl. by rewrite app_assoc.
Qed.

Definition example_obs (ip mac host : string) : Observation :=
  MkObservation ip mac "" host "" "" 0 "" "" [] [MkEvidence "nmap" host ""] 0.

Lemma mergeObservations_leading_witness :
  obs_MAC (mergeInto (example_obs "10.0.0.1" "" "a") (example_obs "10.0.0.1" "00:11:22:33:44:55" "b"))
  = "00:11:22:33:44:55".
Proof.
  destruct (mergeObservations_leading
    [example_obs "10.0.0.1" "" "a"; example_obs "10.0.0.1" "00:11:22:33:44:55" "b"]
    (mergeInto (example_obs "10.0.0.1" "" "a") (example_obs "10.0.0.1" "00:11:22:33:44:55" "b")))
    as [H _].
  - refine (bool_decide_eq_true_1 _ _). vm_compute. reflexivity.
  - rewrite H. vm_compute. reflexivity.
Defined.
