(* ===== verification/Names.v ===== *)
(** * NetBIOS and mDNS name lookup: [internal/scanner/agent/names.go]

    The packet encoders and parsers, and the [NameDiscoverer] built on them. A
    packet is a list of bytes; an index out of range, which would be a run-time
    panic, is the error [ErrPanic], and a loop bound that is too small would be
    [ErrFuel]: neither is ever produced ([skipName_total], [parse_total]). *)

From S2P Require Import Prelude GoStrings Netip Protocol Discovery.
Local Open Scope Z_scope.

Abbreviation bytes := (list ascii).

Inductive name_error : Type :=
| ErrNetbiosShort | ErrNetbiosTruncated | ErrNoNetbiosNames
| ErrNotIPv4
| ErrMdnsShort | ErrNoAnswers | ErrQuestionTruncated | ErrAnswerTruncated
| ErrRdataTruncated | ErrNoPTR
| ErrNamePastEnd | ErrPointerTruncated
| ErrDnsPastEnd | ErrDnsPointerTruncated | ErrDnsLoop | ErrDnsLabelPastEnd
| ErrPanic | ErrFuel.

#[export] Instance name_error_eq_dec : EqDecision name_error.
Proof. solve_decision. Defined.

(** ** Byte access *)

(** [int(buf[pos])] *)
Definition byte_at (buf : bytes) (pos : nat) : result name_error Z :=
  of_option ErrPanic (byte_val <$> buf !! pos).

(** [binary.BigEndian.Uint16(buf[pos:pos+2])] *)
Definition uint16_at (buf : bytes) (pos : nat) : result name_error Z :=
  hi ← byte_at buf pos; lo ← byte_at buf (pos + 1); Ok (hi * 256 + lo).

(** [buf[i:j]], which panics unless [i <= j <= len(buf)]. *)
Definition slice (buf : bytes) (i j : nat) : result name_error bytes :=
  if decide (i ≤ j ≤ length buf)%nat then Ok (take (j - i) (drop i buf)) else Err ErrPanic.

(** [byte(n)] for each [n]. *)
Definition mk (l : list Z) : bytes := map byte_of l.

(** ** DNS and NetBIOS names *)

(** Each round advances the position, so [length buf + 1] rounds reach its end. *)
Fixpoint skipName_go (fuel : nat) (buf : bytes) (pos : nat) : result name_error nat :=
  match fuel with
  | O => Err ErrFuel
  | S fuel =>
      if decide (length buf ≤ pos)%nat then Err ErrNamePastEnd
      else
        n ← byte_at buf pos;
        if n =? 0 then Ok (pos + 1)%nat
        else if Z.land n 192 =? 192 then
          if decide (length buf ≤ pos + 1)%nat then Err ErrPointerTruncated else Ok (pos + 2)%nat
        else skipName_go fuel buf (pos + (1 + Z.to_nat n))
  end.

Definition skipName (buf : bytes) (pos : nat) : result name_error nat :=
  skipName_go (length buf + 1) buf pos.

(** The loop of [readDNSName]; [next] is [-1] as [None]. Between two pointer
    hops the position advances, and a seventeenth hop is an error, so
    [17 * (length buf + 1) + 1] rounds are enough. *)
Fixpoint readDNSName_go (fuel : nat) (buf : bytes) (pos : nat) (labels : list string)
    (next : option nat) (hops : nat) : result name_error (string * nat) :=
  match fuel with
  | O => Err ErrFuel
  | S fuel =>
      if decide (length buf ≤ pos)%nat then Err ErrDnsPastEnd
      else
        n ← byte_at buf pos;
        if n =? 0 then Ok (join "." labels, default (pos + 1)%nat next)
        else if Z.land n 192 =? 192 then
          if decide (length buf ≤ pos + 1)%nat then Err ErrDnsPointerTruncated
          else
            w ← uint16_at buf pos;
            let ptr := Z.to_nat (Z.land w 16383) in
            let next := default (pos + 2)%nat next in
            if decide (16 < hops + 1)%nat then Err ErrDnsLoop
            else readDNSName_go fuel buf ptr labels (Some next) (hops + 1)
        else
          let start := (pos + 1)%nat in
          let stop := (start + Z.to_nat n)%nat in
          if decide (length buf < stop)%nat then Err ErrDnsLabelPastEnd
          else
            label ← slice buf start stop;
            readDNSName_go fuel buf stop (labels ++ [str_of_list label]) next hops
  end.

Definition readDNSName_fuel (buf : bytes) : nat := 17 * (length buf + 1) + 1.

Definition readDNSName (buf : bytes) (pos : nat) : result name_error (string * nat) :=
  readDNSName_go (readDNSName_fuel buf) buf pos [] None 0.

Definition encode_label (label : string) : bytes :=
  if decide (label = "") then []
  else byte_of (Z.of_nat (slen label)) :: str_to_list label.

Definition appendDNSName (buf : bytes) (name : string) : bytes :=
  buf ++ concat (map encode_label (split_on "."%char name)) ++ mk [0].

(** ** NetBIOS node status *)

Definition encodeNetBIOSName (name : string) : bytes :=
  let raw := if decide (name = "*") then "*"%char :: replicate 15 (byte_of 0)
             else map (λ i, default " "%char (str_to_list name !! i)) (seq 0 15) ++ [byte_of 0] in
  concat (map (λ b, mk [65 + Z.shiftr (byte_val b) 4; 65 + Z.land (byte_val b) 15]) raw).

Definition nbstatRequest : bytes :=
  let encoded := encodeNetBIOSName "*" in
  mk [76; 73; 0; 0; 0; 1; 0; 0; 0; 0; 0; 0] ++
  byte_of (Z.of_nat (length encoded)) :: encoded ++ mk [0; 0; 33; 0; 1].

(** [strings.TrimRight(s, " \x00")] *)
Definition nb_trim : string → string :=
  trim_right_func (λ c, bool_decide (c = " "%char) || (byte_val c =? 0)).

(** The loop over the 18-byte entries; [break] ends it early. *)
Fixpoint nb_entries (count : nat) (resp : bytes) (pos : nat) (name group : string)
    : result name_error (string * string) :=
  match count with
  | O => Ok (name, group)
  | S count =>
      if decide (length resp < pos + 18)%nat then Ok (name, group)
      else
        entry ← slice resp pos (pos + 18);
        rawName ← nb_trim ∘ str_of_list <$> slice entry 0 15;
        suffix ← byte_at entry 15;
        flags ← uint16_at entry 16;
        let isGroup := negb (Z.land flags 32768 =? 0) in
        if negb (suffix =? 0) || bool_decide (rawName = "")
        then nb_entries count resp (pos + 18) name group
        else if isGroup
        then nb_entries count resp (pos + 18) name (if decide (group = "") then rawName else group)
        else nb_entries count resp (pos + 18) (if decide (name = "") then rawName else name) group
  end.

Definition parseNBStatResponse (resp : bytes) : result name_error (string * string) :=
  if decide (length resp < 13)%nat then Err ErrNetbiosShort
  else
    pos ← skipName resp 12;
    let pos := (pos + 10)%nat in
    if decide (length resp ≤ pos)%nat then Err ErrNetbiosTruncated
    else
      count ← byte_at resp pos;
      '(name, group) ← nb_entries (Z.to_nat count) resp (pos + 1) "" "";
      if bool_decide (name = "") && bool_decide (group = "") then Err ErrNoNetbiosNames
      else Ok (name, group).

(** ** mDNS reverse lookup *)

(** [fmt.Sprintf("%d.%d.%d.%d.in-addr.arpa", o[3], o[2], o[1], o[0])] *)
Definition reverse_name (v : Z) : string :=
  join "." (map itoa (reverse (octets4 v))) +:+ ".in-addr.arpa".

Definition mdnsReverseRequest (ip : string) : result name_error bytes :=
  match parse_addr ip with
  | Some (Addr4 v) =>
      Ok (appendDNSName (mk [0; 0; 0; 0; 0; 1; 0; 0; 0; 0; 0; 0]) (reverse_name v)
          ++ mk [0; 12; 128; 1])
  | _ => Err ErrNotIPv4
  end.

Fixpoint skip_questions (qd : nat) (resp : bytes) (pos : nat) : result name_error nat :=
  match qd with
  | O => Ok pos
  | S qd =>
      pos ← skipName resp pos;
      if decide (length resp < pos + 4)%nat then Err ErrQuestionTruncated
      else skip_questions qd resp (pos + 4)
  end.

Fixpoint find_ptr (an : nat) (resp : bytes) (pos : nat) : result name_error string :=
  match an with
  | O => Err ErrNoPTR
  | S an =>
      pos ← skipName resp pos;
      if decide (length resp < pos + 10)%nat then Err ErrAnswerTruncated
      else
        rrType ← uint16_at resp pos;
        rdlen ← uint16_at resp (pos + 8);
        let rdataStart := (pos + 10)%nat in
        let next := (rdataStart + Z.to_nat rdlen)%nat in
        if decide (length resp < next)%nat then Err ErrRdataTruncated
        else if rrType =? 12 then
          '(ptrName, _) ← readDNSName resp rdataStart;
          let ptrName := trim_suffix ptrName "." in
          if decide (ptrName ≠ "") then Ok ptrName else find_ptr an resp next
        else find_ptr an resp next
  end.

Definition parseMDNSPTRResponse (resp : bytes) : result name_error string :=
  if decide (length resp < 12)%nat then Err ErrMdnsShort
  else
    qd ← uint16_at resp 4;
    an ← uint16_at resp 6;
    if an =? 0 then Err ErrNoAnswers
    else
      pos ← skip_questions (Z.to_nat qd) resp 12;
      find_ptr (Z.to_nat an) resp pos.

(** ** The discoverer *)

Record NameConfig : Type := MkNameConfig { NetBIOSPort : Z; MDNSPort : Z; nc_Timeout : Z }.

Definition NameConfig_withDefaults (c : NameConfig) : NameConfig :=
  MkNameConfig (if NetBIOSPort c =? 0 then 137 else NetBIOSPort c)
               (if MDNSPort c =? 0 then 5353 else MDNSPort c)
               (if nc_Timeout c <=? 0 then 2000000000 else nc_Timeout c).

(** [net.JoinHostPort] *)
Definition join_host_port (host port : string) : string :=
  if contains host ":" || contains host "%" then "[" +:+ host +:+ "]:" +:+ port
  else host +:+ ":" +:+ port.

Definition obs_at (ip : string) (now : Z) : Observation :=
  MkObservation ip "" "" "" "" "" 0 "" "" [] [] now.

Section discoverer.
Context `{GoText}.
(** The socket exchange: the first datagram [addr] answers to a payload, or
    [None] when none arrives before the timeout. *)
Context (exchange : string → bytes → Z → option bytes).

Definition queryNetBIOS (cfg : NameConfig) (ip : string) : option (string * string) :=
  let addr := join_host_port ip (itoa (NetBIOSPort cfg)) in
  resp ← exchange addr nbstatRequest (nc_Timeout cfg);
  match parseNBStatResponse resp with Ok r => Some r | Err _ => None end.

Definition queryMDNS (cfg : NameConfig) (ip : string) : option string :=
  match mdnsReverseRequest ip with
  | Err _ => None
  | Ok query =>
      let addr := join_host_port ip (itoa (MDNSPort cfg)) in
      resp ← exchange addr query (nc_Timeout cfg);
      match parseMDNSPTRResponse resp with Ok r => Some r | Err _ => None end
  end.

(** [ok = false] is [None]. *)
Definition name_lookup (cfg : NameConfig) (ip : string) (now : Z) : option Observation :=
  let netbios := queryNetBIOS cfg ip in
  let mdns := queryMDNS cfg ip in
  let '(host, found, evidence) :=
    match netbios with
    | Some (name, group) =>
        if decide (name ≠ "") then
          (name, true,
           [MkEvidence "netbios" ("NetBIOS name: " +:+ name +:+
              (if decide (group ≠ "") then " (workgroup " +:+ group +:+ ")" else "")) ""])
        else ("", false, [])
    | None => ("", false, [])
    end in
  let '(host, found, evidence) :=
    match mdns with
    | Some name =>
        if decide (name ≠ "") then
          (if decide (host = "") then trim_suffix name ".local" else host, true,
           evidence ++ [MkEvidence "mdns" ("mDNS name: " +:+ name) ""])
        else (host, found, evidence)
    | None => (host, found, evidence)
    end in
  if (found : bool) then Some (MkObservation ip "" "" host "" "" 0 "" "" [] evidence now) else None.

Definition name_target (cfg : NameConfig) (scope : list Prefix) (now : Z)
    (st : list Observation * list ScanError) (target : string)
    : list Observation * list ScanError :=
  let '(obs, errs) := st in
  match parse_addr target with
  | Some (Addr4 v) =>
      if negb (withinScope (Addr4 v) scope) then st
      else match name_lookup cfg target now with
           | Some o => (obs ++ [o], errs)
           | None => (obs, errs ++ [MkScanError "name_unresolved"
               "no NetBIOS or mDNS name (host may not run those services)" target])
           end
  | _ => (obs, errs ++ [MkScanError "name_unresolved"
           "name lookup needs single-host targets (cannot probe a CIDR)" target])
  end.

Definition NameDiscoverer_Discover (cfg : NameConfig) (ctx : Ctx) (now : Z) : Discoverer :=
  λ job,
    if decide (job_Mode job = ModePassive) then MkOutcome [] [] None
    else if decide (job_Targets job = []) then fail "name lookup has no target hosts"
    else match parseScopePrefixes (job_AllowedCIDRs job) with
         | Err e => fail ("parse job allowlist: " +:+ e)
         | Ok scope =>
             let '(st, err) := target_loop ctx (name_target cfg scope now) 0 (job_Targets job) ([], []) in
             MkOutcome st.1 st.2 err
         end.
End discoverer.

(** ** Lemmas: bounds *)

(** Neither a panic nor an exhausted loop bound. *)
Definition safe {A} (r : result name_error A) : Prop := r ≠ Err ErrPanic ∧ r ≠ Err ErrFuel.

Lemma safe_Ok {A} (a : A) : safe (Ok a).
Proof. done. Qed.

Lemma safe_bind {A B} (m : result name_error A) (f : A → result name_error B) :
  safe m → (∀ a, m = Ok a → safe (f a)) → safe (m ≫= f).
Proof. destruct m as [a|e]; cbn; [auto|]. intros [H1 H2] _. split; congruence. Qed.

Lemma byte_at_Ok buf pos : (pos < length buf)%nat → ∃ n, byte_at buf pos = Ok n ∧ 0 ≤ n < 256.
Proof.
  intros [c Hc]%lookup_lt_is_Some_2. exists (byte_val c). unfold byte_at. rewrite Hc.
  split; [done|apply byte_val_range].
Qed.

Lemma uint16_at_Ok buf pos :
  (pos + 2 ≤ length buf)%nat → ∃ n, uint16_at buf pos = Ok n ∧ 0 ≤ n < 65536.
Proof.
  intros Hp. destruct (byte_at_Ok buf pos) as (a & Ha & ?); [lia|].
  destruct (byte_at_Ok buf (pos + 1)) as (b & Hb & ?); [lia|].
  exists (a * 256 + b). unfold uint16_at. rewrite Ha. cbn. rewrite Hb. cbn. split; [done|lia].
Qed.

Lemma slice_Ok buf i j :
  (i ≤ j ≤ length buf)%nat → slice buf i j = Ok (take (j - i) (drop i buf)).
Proof. intros Hr. unfold slice. by rewrite decide_True. Qed.

Lemma length_slice buf i j s : slice buf i j = Ok s → length s = (j - i)%nat.
Proof.
  unfold slice. destruct (decide _); [|done]. intros [= <-]. rewrite length_take, length_drop. lia.
Qed.

(** The position after a skipped name lies beyond its start and within the packet. *)
Lemma skipName_go_total fuel buf pos :
  (length buf - pos < fuel)%nat →
  safe (skipName_go fuel buf pos) ∧
  (∀ p, skipName_go fuel buf pos = Ok p → (pos < p ≤ length buf)%nat).
Proof.
  revert pos. induction fuel as [|fuel IH]; intros pos Hf; [lia|]. cbn [skipName_go].
  destruct (decide (length buf ≤ pos)%nat); [by split|].
  destruct (byte_at_Ok buf pos) as (b & Hb & Hr); [lia|]. rewrite Hb. cbn [mbind result_bind].
  destruct (b =? 0); [split; [done|]; intros p [= <-]; lia|].
  destruct (Z.land b 192 =? 192).
  - destruct (decide _); [by split|]. split; [done|]. intros p [= <-]. lia.
  - destruct (IH (pos + (1 + Z.to_nat b))%nat) as [Hs Hp]; [lia|]. split; [done|].
    intros p Hok. specialize (Hp p Hok). lia.
Qed.

Lemma skipName_total buf pos :
  safe (skipName buf pos) ∧ (∀ p, skipName buf pos = Ok p → (pos < p ≤ length buf)%nat).
Proof. apply skipName_go_total. lia. Qed.

Lemma readDNSName_go_total fuel buf pos labels next hops :
  (hops ≤ 16)%nat → ((16 - hops) * (length buf + 1) + (length buf - pos) < fuel)%nat →
  safe (readDNSName_go fuel buf pos labels next hops).
Proof.
  revert pos labels next hops. induction fuel as [|fuel IH]; intros pos labels next hops Hh Hf; [by apply Nat.nlt_0_r in Hf|].
  cbn [readDNSName_go]. destruct (decide (length buf ≤ pos)%nat); [done|].
  destruct (byte_at_Ok buf pos) as (b & Hb & Hr); [lia|]. rewrite Hb. cbn [mbind result_bind].
  destruct (b =? 0); [done|]. destruct (Z.land b 192 =? 192).
  - destruct (decide (length buf ≤ pos + 1)%nat); [done|].
    destruct (uint16_at_Ok buf pos) as (w & Hw & ?); [lia|]. rewrite Hw. cbn [mbind result_bind].
    destruct (decide _); [done|]. apply IH; nia.
  - destruct (decide _); [done|]. rewrite slice_Ok by lia. cbn [mbind result_bind]. apply IH; nia.
Qed.

Lemma readDNSName_total buf pos : safe (readDNSName buf pos).
Proof. apply readDNSName_go_total; unfold readDNSName_fuel; nia. Qed.

Lemma nb_entries_total count resp pos name group : safe (nb_entries count resp pos name group).
Proof.
  revert pos name group. induction count as [|count IH]; intros pos name group; [done|].
  cbn [nb_entries]. destruct (decide _); [done|]. rewrite slice_Ok by lia. cbn [mbind result_bind].
  set (entry := take _ _). assert (length entry = 18%nat) as He.
  { unfold entry. rewrite length_take, length_drop. lia. }
  rewrite slice_Ok by lia. cbn [mbind result_bind].
  destruct (byte_at_Ok entry 15) as (s & Hs & _); [lia|]. rewrite Hs.
  destruct (uint16_at_Ok entry 16) as (f & Hfl & _); [lia|]. rewrite Hfl.
  cbn -[nb_entries nb_trim Z.land].
  repeat case_match; apply IH.
Qed.

Lemma skip_questions_total qd resp pos : safe (skip_questions qd resp pos).
Proof.
  revert pos. induction qd as [|qd IH]; intros pos; [done|]. cbn [skip_questions].
  apply safe_bind; [apply skipName_total|]. intros p _. destruct (decide _); [done|apply IH].
Qed.

Lemma find_ptr_total an resp pos : safe (find_ptr an resp pos).
Proof.
  revert pos. induction an as [|an IH]; intros pos; [done|]. cbn [find_ptr].
  apply safe_bind; [apply skipName_total|]. intros p _. destruct (decide _); [done|].
  destruct (uint16_at_Ok resp p) as (ty & Ht & _); [lia|]. rewrite Ht. cbn [mbind result_bind].
  destruct (uint16_at_Ok resp (p + 8)) as (len & Hl & _); [lia|]. rewrite Hl. cbn [mbind result_bind].
  destruct (decide _); [done|]. destruct (ty =? 12); [|apply IH].
  apply safe_bind; [apply readDNSName_total|]. intros [s k] _. destruct (decide _); [done|apply IH].
Qed.

(** The parsers are total and memory safe: whatever datagram a host
    answers with, compression-pointer loops and truncated records included, no
    index is out of range and every loop ends within its bound. *)
Theorem parse_total (resp : bytes) :
  safe (parseNBStatResponse resp) ∧ safe (parseMDNSPTRResponse resp).
Proof.
  split.
  - unfold parseNBStatResponse. destruct (decide _); [done|].
    apply safe_bind; [apply skipName_total|]. intros p _. destruct (decide _); [done|].
    destruct (byte_at_Ok resp (p + 10)) as (c & Hc & _); [lia|]. rewrite Hc. cbn [mbind result_bind].
    apply safe_bind; [apply nb_entries_total|]. intros [nm g] _. by destruct (_ && _).
  - unfold parseMDNSPTRResponse. destruct (decide _); [done|].
    destruct (uint16_at_Ok resp 4) as (qd & Hq & _); [lia|]. rewrite Hq. cbn [mbind result_bind].
    destruct (uint16_at_Ok resp 6) as (an & Ha & _); [lia|]. rewrite Ha. cbn [mbind result_bind].
    destruct (an =? 0); [done|]. apply safe_bind; [apply skip_questions_total|].
    intros p _. apply find_ptr_total.
Qed.

(** ** Lemmas: the two name walks agree *)

Lemma readDNSName_next fuel buf pos labels k hops s p :
  readDNSName_go fuel buf pos labels (Some k) hops = Ok (s, p) → p = k.
Proof.
  revert pos labels k hops. induction fuel as [|fuel IH]; intros pos labels k hops; [done|].
  cbn [readDNSName_go]. destruct (decide _); [done|].
  destruct (byte_at buf pos) as [b|]; [|done]. cbn [mbind result_bind].
  destruct (b =? 0); [by intros [= _ <-]|]. destruct (_ =? 192).
  - destruct (decide _); [done|]. destruct (uint16_at buf pos) as [w|]; [|done].
    cbn [mbind result_bind]. destruct (decide _); [done|]. apply IH.
  - destruct (decide _); [done|]. destruct (slice _ _ _) as [l|]; [|done]. cbn [mbind result_bind]. apply IH.
Qed.

Lemma readDNSName_skip_go fuel fuel' buf pos labels hops s p :
  (length buf - pos < fuel')%nat →
  readDNSName_go fuel buf pos labels None hops = Ok (s, p) → skipName_go fuel' buf pos = Ok p.
Proof.
  revert fuel' pos labels. induction fuel as [|fuel IH]; intros fuel' pos labels Hf; [done|].
  destruct fuel' as [|fuel']; [by apply Nat.nlt_0_r in Hf|].
  cbn [readDNSName_go skipName_go]. destruct (decide (length buf ≤ pos)%nat); [done|].
  destruct (byte_at_Ok buf pos) as (b & Hb & Hr); [lia|]. rewrite Hb. cbn [mbind result_bind].
  destruct (b =? 0); [by intros [= _ <-]|]. destruct (_ =? 192).
  - destruct (decide (length buf ≤ pos + 1)%nat); [done|]. destruct (uint16_at buf pos) as [w|]; [|done].
    cbn [mbind result_bind]. destruct (decide _); [done|]. by intros ->%readDNSName_next.
  - destruct (decide _); [done|]. destruct (slice _ _ _) as [l|]; [|done]. cbn [mbind result_bind].
    intros H. replace (pos + (1 + Z.to_nat b))%nat with (pos + 1 + Z.to_nat b)%nat by lia.
    eapply IH; [|exact H]. lia.
Qed.

(** The decoding walk and the skipping walk delimit a name identically:
    wherever [readDNSName] decodes a name, [skipName] finds the same end. *)
Theorem readDNSName_skipName buf pos s p :
  readDNSName buf pos = Ok (s, p) → skipName buf pos = Ok p.
Proof. apply readDNSName_skip_go. lia. Qed.

Lemma readDNSName_skipName_witness :
  skipName (mk [3; 102; 111; 111; 192; 7; 0; 3; 98; 97; 114; 0]) 0 = Ok 6%nat.
Proof.
  apply (readDNSName_skipName (mk [3; 102; 111; 111; 192; 7; 0; 3; 98; 97; 114; 0]) 0 "foo.bar").
  vm_compute. reflexivity.
Defined.

(** ** Lemmas: encoding and decoding names *)

Lemma byte_at_app buf c rest : byte_at (buf ++ c :: rest) (length buf) = Ok (byte_val c).
Proof. unfold byte_at. by rewrite list_lookup_middle. Qed.

Definition label_ok (l : string) : Prop := (0 < slen l < 64)%nat ∧ count_byte "." l = 0%nat.

Lemma encode_label_ok l : label_ok l → encode_label l = byte_of (Z.of_nat (slen l)) :: str_to_list l.
Proof. intros [Hl _]. unfold encode_label. rewrite decide_False; [done|]. intros ->. simpl in Hl. lia. Qed.

Lemma drop_app_cons {A} (pre : list A) x rest : drop (length pre + 1) (pre ++ x :: rest) = rest.
Proof. induction pre as [|y pre IH]; [done|exact IH]. Qed.

Lemma land_192_small n : 0 ≤ n < 64 → (Z.land n 192 =? 192) = false.
Proof.
  intros Hn. assert (n ∈ seqZ 0 64) as Hin by (apply elem_of_seqZ; lia). clear Hn.
  revert n Hin. apply Forall_forall. refine (bool_decide_eq_true_1 _ _). vm_compute. reflexivity.
Qed.

Lemma readDNSName_go_labels fuel pre ls post acc hops :
  Forall label_ok ls → (length ls < fuel)%nat →
  readDNSName_go fuel (pre ++ concat (map encode_label ls) ++ mk [0] ++ post) (length pre) acc None hops
  = Ok (join "." (acc ++ ls), length pre + length (concat (map encode_label ls)) + 1)%nat.
Proof.
  intros Hls. revert pre acc fuel. induction Hls as [|l ls Hl _ IH]; intros pre acc fuel Hf.
  - destruct fuel as [|fuel]; [by apply Nat.nlt_0_r in Hf|]. cbn [map concat app readDNSName_go].
    rewrite decide_False by (rewrite length_app; simpl; lia). cbn [mk map app].
    rewrite byte_at_app. cbn [mbind result_bind]. rewrite byte_val_of by lia. cbn [Z.eqb default].
    rewrite app_nil_r. simpl. do 2 f_equal. lia.
  - destruct fuel as [|fuel]; [by apply Nat.nlt_0_r in Hf|]. cbn [map concat].
    cbn [length] in Hf. rewrite encode_label_ok by done. cbn [app]. destruct Hl as [Hlen Hdot].
    pose proof (str_to_list_length l) as Hsl.
    set (rest := concat (map encode_label ls)) in *. cbn [readDNSName_go].
    rewrite decide_False by (rewrite length_app; simpl; lia).
    rewrite byte_at_app. cbn [mbind result_bind]. rewrite byte_val_of by lia.
    replace (Z.of_nat (slen l) =? 0) with false by lia.
    rewrite land_192_small, Nat2Z.id by lia.
    rewrite decide_False by (rewrite !length_app; cbn [length]; rewrite !length_app, Hsl; lia).
    rewrite slice_Ok by (rewrite !length_app; cbn [length]; rewrite !length_app, Hsl; lia).
    cbn [mbind result_bind].
    replace (take _ _) with (str_to_list l).
    2: { rewrite drop_app_cons, <- app_assoc, take_app_le by lia. rewrite take_ge; [done|lia]. }
    rewrite str_of_to_list.
    specialize (IH (pre ++ byte_of (Z.of_nat (slen l)) :: str_to_list l) (acc ++ [l]) fuel).
    rewrite !length_app in IH. cbn [length] in IH. rewrite Hsl in IH.
    rewrite <- !app_assoc in IH. cbn [app] in IH. rewrite <- !app_assoc.
    replace (length pre + 1 + slen l)%nat with (length pre + S (slen l))%nat by lia.
    rewrite IH by lia. cbn [length]. do 2 f_equal.
    rewrite ?length_app, ?Hsl. lia.
Qed.

Lemma length_encode_labels ls :
  Forall label_ok ls → (length ls ≤ length (concat (map encode_label ls)))%nat.
Proof.
  induction 1 as [|l ls Hl _ IH]; [done|]. cbn [map concat]. rewrite encode_label_ok by done.
  rewrite length_app. cbn [length]. lia.
Qed.

(** Names survive the wire: a dotted name of non-empty labels of at most
    63 bytes, encoded by [appendDNSName] at any offset of any packet, is what
    [readDNSName] reads there, and the returned offset is just after it. *)
Theorem readDNSName_appendDNSName pre post ls :
  ls ≠ [] → Forall label_ok ls →
  readDNSName (appendDNSName pre (join "." ls) ++ post) (length pre)
  = Ok (join "." ls, length (appendDNSName pre (join "." ls))).
Proof.
  intros Hne Hls. unfold appendDNSName.
  assert (Forall (λ w, count_byte "." w = 0%nat) ls) as Hdots.
  { eapply Forall_impl; [exact Hls|]. by intros l [_ ?]. }
  rewrite (split_join "."%char ls) by done.
  unfold readDNSName, readDNSName_fuel. pose proof (length_encode_labels ls Hls).
  rewrite <- !app_assoc, readDNSName_go_labels by (done || rewrite !length_app; lia).
  rewrite !length_app. cbn [mk map length app]. do 2 f_equal. lia.
Qed.

Lemma readDNSName_appendDNSName_witness :
  readDNSName (appendDNSName (mk [1; 2]) "printer.local" ++ mk [0; 12]) 2
  = Ok ("printer.local", length (appendDNSName (mk [1; 2]) "printer.local")).
Proof.
  apply (readDNSName_appendDNSName (mk [1; 2]) (mk [0; 12]) ["printer"; "local"]); [done|].
  repeat constructor.
Defined.

(** ** Lemmas: well-formed replies *)

Definition encode_name (ls : list string) : bytes := concat (map encode_label ls) ++ mk [0].

Lemma readDNSName_encode_name pre ls post :
  Forall label_ok ls →
  readDNSName (pre ++ encode_name ls ++ post) (length pre)
  = Ok (join "." ls, length pre + length (encode_name ls))%nat.
Proof.
  intros Hls. unfold readDNSName, readDNSName_fuel, encode_name.
  pose proof (length_encode_labels ls Hls).
  rewrite <- app_assoc, readDNSName_go_labels by (done || rewrite !length_app; lia).
  rewrite !length_app. cbn [mk map length app]. do 2 f_equal. lia.
Qed.

Lemma skipName_encode_name pre ls post :
  Forall label_ok ls →
  skipName (pre ++ encode_name ls ++ post) (length pre) = Ok (length pre + length (encode_name ls))%nat.
Proof.
  intros Hls. eapply readDNSName_skip_go; [lia|]. by apply (readDNSName_encode_name pre ls post).
Qed.

(** [skipName] and [readDNSName] at a given offset of a packet in parts. *)
Lemma skipName_at buf pre ls post pos :
  Forall label_ok ls → buf = pre ++ encode_name ls ++ post → pos = length pre →
  skipName buf pos = Ok (pos + length (encode_name ls))%nat.
Proof. intros ? -> ->. by apply skipName_encode_name. Qed.

Lemma byte_at_at buf pre c rest pos :
  buf = pre ++ c :: rest → pos = length pre → byte_at buf pos = Ok (byte_val c).
Proof. intros -> ->. apply byte_at_app. Qed.

Lemma uint16_at_at buf pre hi lo rest pos :
  buf = pre ++ hi :: lo :: rest → pos = length pre →
  uint16_at buf pos = Ok (byte_val hi * 256 + byte_val lo).
Proof.
  intros -> ->. unfold uint16_at. rewrite byte_at_app. cbn [mbind result_bind].
  rewrite (byte_at_at _ (pre ++ [hi]) lo rest); [done|by rewrite <- app_assoc|by rewrite length_app].
Qed.

Lemma slice_at buf pre s rest i j :
  buf = pre ++ s ++ rest → i = length pre → j = (length pre + length s)%nat → slice buf i j = Ok s.
Proof.
  intros -> -> ->. rewrite slice_Ok by (rewrite !length_app; lia).
  rewrite drop_app_length. replace (_ + _ - _)%nat with (length s) by lia. by rewrite take_app_length.
Qed.

Lemma itoa_octet_label b : 0 ≤ b < 256 → label_ok (itoa b).
Proof.
  intros Hb. split; [|by apply itoa_no_sep].
  assert (b ∈ seqZ 0 256) as Hin by (apply elem_of_seqZ; lia). clear Hb.
  revert b Hin. apply Forall_forall. refine (bool_decide_eq_true_1 _ _). vm_compute. reflexivity.
Qed.

(** The reverse query asks for the right name: for every IPv4 address the
    packet is a header, a name that decodes to the reversed octets under
    [in-addr.arpa], and the PTR type with the unicast-response bit. *)
Theorem mdnsReverseRequest_name v :
  0 ≤ v < 2 ^ 32 →
  ∃ q, mdnsReverseRequest (addr4_string v) = Ok q ∧
       readDNSName q 12 = Ok (reverse_name v, length q - 4)%nat ∧
       drop (length q - 4) q = mk [0; 12; 128; 1].
Proof.
  intros Hv. unfold mdnsReverseRequest. rewrite parse_addr4_string by done.
  eexists. split; [done|]. set (ls := map itoa (reverse (octets4 v)) ++ ["in-addr"; "arpa"]).
  assert (reverse_name v = join "." ls) as Hname.
  { unfold reverse_name, ls, octets4. cbn [reverse rev_append rev' map app].
    cbn [join]. rewrite ?str_app_assoc. done. }
  assert (Forall label_ok ls) as Hls.
  { unfold ls. apply Forall_app. split; [|by repeat constructor].
    apply Forall_map, Forall_forall. intros b Hb%elem_of_reverse.
    apply itoa_octet_label. by apply (proj1 (Forall_forall _ _) (octets4_range v)). }
  assert (Forall (λ w, count_byte "." w = 0%nat) ls) as Hdots.
  { eapply Forall_impl; [exact Hls|]. by intros l [_ ?]. }
  assert (ls ≠ []) as Hne by (unfold ls; by destruct (map _ _)).
  unfold appendDNSName. rewrite Hname, (split_join "."%char ls) by done.
  set (hdr := mk [0; 0; 0; 0; 0; 1; 0; 0; 0; 0; 0; 0]).
  rewrite <- app_assoc. fold (encode_name ls).
  change 12%nat with (length hdr) at 1. rewrite readDNSName_encode_name by done.
  rewrite !length_app. cbn [mk map length]. split.
  - do 2 f_equal. lia.
  - replace (length hdr + (length (encode_name ls) + 4) - 4)%nat
      with (length (hdr ++ encode_name ls)) by (rewrite length_app; lia).
    by rewrite app_assoc, drop_app_length.
Qed.

Lemma mdnsReverseRequest_name_witness :
  ∃ q, mdnsReverseRequest (addr4_string 3232235786) = Ok q ∧
       readDNSName q 12 = Ok (reverse_name 3232235786, length q - 4)%nat ∧
       drop (length q - 4) q = mk [0; 12; 128; 1].
Proof. apply mdnsReverseRequest_name. lia. Defined.

(** A reply to that query: the echoed question, then one PTR answer. *)
Definition ptr_reply (hdr4 : bytes) (qname owner target : list string) (qtail rrtail trailer : bytes) : bytes :=
  hdr4 ++ mk [0; 1; 0; 1; 0; 0; 0; 0] ++
  (encode_name qname ++ qtail) ++
  (encode_name owner ++ mk [0; 12] ++ rrtail ++
   mk [Z.of_nat (length (encode_name target)) / 256; Z.of_nat (length (encode_name target)) mod 256] ++
   encode_name target ++ trailer).

Lemma mk_cons z l : mk (z :: l) = byte_of z :: mk l.
Proof. done. Qed.

(** Splits a packet given as an append of parts after a given prefix. *)
Ltac packet_split Hresp :=
  rewrite Hresp; cbn [app mk map]; rewrite <- ?app_assoc; cbn [app]; rewrite <- ?app_assoc; reflexivity.

(** A well-formed reply is understood: for a reply with one question and
    one PTR answer, whatever the names, the trailing records and the time to
    live, the parser returns the answer's target name. *)
Theorem parseMDNSPTRResponse_reply hdr4 qname owner target qtail rrtail trailer :
  length hdr4 = 4%nat → length qtail = 4%nat → length rrtail = 6%nat →
  Forall label_ok qname → Forall label_ok owner → Forall label_ok target →
  target ≠ [] → trim_suffix (join "." target) "." = join "." target →
  Z.of_nat (length (encode_name target)) < 65536 →
  parseMDNSPTRResponse (ptr_reply hdr4 qname owner target qtail rrtail trailer) = Ok (join "." target).
Proof.
  intros H4 Hq Hr Hqn Hon Htn Hne Htrim Hlen.
  assert (join "." target ≠ "") as Hjoin.
  { destruct target as [|l ls]; [done|]. inversion Htn as [|? ? [Hl _]]. rewrite join_app_head.
    intros He%(f_equal slen). rewrite slen_app in He. simpl in He. lia. }
  set (len := Z.of_nat (length (encode_name target))) in *.
  pose proof (Z.div_mod len 256 ltac:(done)). pose proof (Z.mod_pos_bound len 256 ltac:(done)).
  assert (0 ≤ len / 256 < 256) by (split; [apply Z.div_pos|apply Z.div_lt_upper_bound]; lia).
  remember (ptr_reply hdr4 qname owner target qtail rrtail trailer) as resp eqn:Hresp.
  unfold ptr_reply in Hresp. fold len in Hresp.
  pose proof (f_equal length Hresp) as Hl. rewrite !length_app in Hl. cbn [mk map length] in Hl.
  unfold parseMDNSPTRResponse. rewrite decide_False by lia.
  erewrite (uint16_at_at resp hdr4 _ _ _ 4); [|packet_split Hresp|lia].
  erewrite (uint16_at_at resp (hdr4 ++ mk [0; 1]) _ _ _ 6); [|packet_split Hresp|rewrite length_app; simpl; lia].
  rewrite !byte_val_of by lia. cbn [mbind result_bind]. change (0 * 256 + 1) with 1. cbn [Z.eqb].
  change (Z.to_nat 1) with 1%nat. cbn [skip_questions].
  set (h := hdr4 ++ mk [0; 1; 0; 1; 0; 0; 0; 0]).
  assert (length h = 12%nat) as Hh by (unfold h; rewrite length_app; simpl; lia).
  erewrite (skipName_at resp h qname); [|done|unfold h; packet_split Hresp|done].
  cbn [mbind result_bind]. rewrite decide_False by lia. cbn [mbind result_bind find_ptr].
  set (o := h ++ encode_name qname ++ qtail).
  assert (length o = (12 + length (encode_name qname) + 4)%nat) as Ho.
  { unfold o. rewrite !length_app. lia. }
  erewrite (skipName_at resp o owner); [|done|unfold o, h; packet_split Hresp|done].
  cbn [mbind result_bind]. rewrite decide_False by lia.
  set (a := o ++ encode_name owner).
  assert (length a = (length o + length (encode_name owner))%nat) as Ha by (unfold a; by rewrite length_app).
  erewrite (uint16_at_at resp a _ _ _ (12 + length (encode_name qname) + 4 + length (encode_name owner))); [|unfold a, o, h; packet_split Hresp|lia].
  erewrite (uint16_at_at resp (a ++ mk [0; 12] ++ rrtail) _ _ _ (12 + length (encode_name qname) + 4 + length (encode_name owner) + 8));
    [|unfold a, o, h; packet_split Hresp|rewrite !length_app; simpl; lia].
  cbn [mbind result_bind]. rewrite !byte_val_of by lia.
  replace (len / 256 * 256 + len mod 256) with len by lia. unfold len. rewrite Nat2Z.id.
  rewrite decide_False by lia. change (0 * 256 + 12 =? 12) with true. cbn iota.
  set (d := a ++ mk [0; 12] ++ rrtail ++ mk [len / 256; len mod 256]).
  assert (length d = (length a + 10)%nat) as Hd by (unfold d; rewrite !length_app; simpl; lia).
  assert (resp = d ++ encode_name target ++ trailer) as -> by (unfold d, a, o, h; packet_split Hresp).
  replace (12 + length (encode_name qname) + 4 + length (encode_name owner) + 10)%nat
    with (length d) by lia.
  rewrite readDNSName_encode_name by done. cbn [mbind result_bind]. rewrite Htrim.
  by rewrite decide_True.
Qed.

Lemma parseMDNSPTRResponse_reply_witness :
  parseMDNSPTRResponse
    (ptr_reply (mk [0; 0; 132; 0]) ["10"; "1"; "168"; "192"; "in-addr"; "arpa"]
       ["10"; "1"; "168"; "192"; "in-addr"; "arpa"] ["printer"; "local"]
       (mk [0; 12; 128; 1]) (mk [0; 1; 0; 0; 0; 120]) []) = Ok "printer.local".
Proof.
  apply (parseMDNSPTRResponse_reply (mk [0; 0; 132; 0]) _ _ ["printer"; "local"] (mk [0; 12; 128; 1])
           (mk [0; 1; 0; 0; 0; 120]) []); try reflexivity; try done; repeat constructor.
Defined.

(** A node-status entry: a name padded to fifteen bytes, its suffix, its flags. *)
Record nb_entry : Type := NbEntry { nbe_name : string; nbe_suffix : Z; nbe_flags : Z }.

Definition nb_entry_ok (e : nb_entry) : Prop :=
  (slen (nbe_name e) ≤ 15)%nat ∧ nb_trim (nbe_name e) = nbe_name e ∧
  0 ≤ nbe_suffix e < 256 ∧ 0 ≤ nbe_flags e < 65536.

Definition encode_entry (e : nb_entry) : bytes :=
  (str_to_list (nbe_name e) ++ replicate (15 - slen (nbe_name e)) " "%char) ++
  mk [nbe_suffix e; nbe_flags e / 256; nbe_flags e mod 256].

(** The names with suffix 0 of the machine ([group = false]) or the workgroup. *)
Definition nb_names (group : bool) (es : list nb_entry) : list string :=
  map nbe_name (filter (λ e, nbe_suffix e = 0 ∧ nbe_name e ≠ "" ∧
                             negb (Z.land (nbe_flags e) 32768 =? 0) = group) es).

Lemma length_encode_entry e : nb_entry_ok e → length (encode_entry e) = 18%nat.
Proof.
  intros (Hs & _). unfold encode_entry. rewrite !length_app, length_replicate, str_to_list_length.
  simpl. lia.
Qed.

Lemma trim_left_replicate f c n s :
  f c = true → trim_left_func f (str_of_list (replicate n c) +:+ s) = trim_left_func f s.
Proof.
  intros Hf. induction n as [|n IH]; [done|]. cbn [replicate str_of_list].
  rewrite str_app_cons. cbn [trim_left_func]. by rewrite Hf.
Qed.

Lemma str_rev_replicate n c : String.rev (str_of_list (replicate n c)) = str_of_list (replicate n c).
Proof.
  induction n as [|n IH]; [done|]. cbn [replicate str_of_list]. rewrite str_rev_cons, IH. clear IH.
  induction n as [|n IH]; [done|]. cbn [replicate str_of_list]. by rewrite str_app_cons, IH.
Qed.

Lemma nb_trim_padded s n : nb_trim (s +:+ str_of_list (replicate n " "%char)) = nb_trim s.
Proof.
  unfold nb_trim, trim_right_func. rewrite str_rev_app, str_rev_replicate.
  by rewrite trim_left_replicate.
Qed.

Lemma hd_app (x : string) l : x ≠ "" →
  (if decide (x = "") then hd "" l else x) = hd "" (x :: l).
Proof. intros. by rewrite decide_False. Qed.

(** The entry loop keeps the first name of each kind. *)
Lemma nb_entries_spec es pre post name group :
  Forall nb_entry_ok es →
  nb_entries (length es) (pre ++ concat (map encode_entry es) ++ post) (length pre) name group
  = Ok (if decide (name = "") then hd "" (nb_names false es) else name,
        if decide (group = "") then hd "" (nb_names true es) else group).
Proof.
  intros Hes. revert pre name group. induction Hes as [|e es He Hes IH]; intros pre name group.
  { cbn. destruct (decide (name = "")) as [->|], (decide (group = "")) as [->|]; done. }
  pose proof (length_encode_entry e He) as H18. destruct He as (Hs & Ht & Hsx & Hfl).
  cbn [length map concat nb_entries].
  set (rest := concat (map encode_entry es) ++ post) in *.
  rewrite <- app_assoc. fold rest.
  rewrite decide_False by (rewrite !length_app; lia).
  rewrite (slice_at _ pre (encode_entry e) rest) by (done || lia). cbn [mbind result_bind].
  pose proof (Z.div_mod (nbe_flags e) 256 ltac:(done)).
  pose proof (Z.mod_pos_bound (nbe_flags e) 256 ltac:(done)).
  assert (0 ≤ nbe_flags e / 256 < 256) by (split; [apply Z.div_pos|apply Z.div_lt_upper_bound]; lia).
  set (pad := str_to_list (nbe_name e) ++ replicate (15 - slen (nbe_name e)) " "%char).
  assert (length pad = 15%nat) as Hpad.
  { unfold pad. rewrite length_app, length_replicate, str_to_list_length. lia. }
  assert (encode_entry e = pad ++ mk [nbe_suffix e; nbe_flags e / 256; nbe_flags e mod 256]) as Henc by done.
  rewrite (slice_at _ [] pad (mk [nbe_suffix e; nbe_flags e / 256; nbe_flags e mod 256]))
    by (done || rewrite Hpad; done).
  rewrite (byte_at_at _ pad (byte_of (nbe_suffix e)) (mk [nbe_flags e / 256; nbe_flags e mod 256])) by done.
  rewrite (uint16_at_at _ (pad ++ mk [nbe_suffix e]) (byte_of (nbe_flags e / 256))
             (byte_of (nbe_flags e mod 256)) [])
    by (rewrite ?length_app, ?Henc, <- ?app_assoc; simpl; done || lia).
  cbn [fmap result_fmap compose mbind result_bind]. rewrite !byte_val_of by lia.
  replace (nbe_flags e / 256 * 256 + nbe_flags e mod 256) with (nbe_flags e) by lia.
  assert (nb_trim (str_of_list pad) = nbe_name e) as Hname.
  { unfold pad. by rewrite str_of_list_app, str_of_to_list, nb_trim_padded, Ht. }
  cbv beta. cbn [compose]. rewrite Hname.
  specialize (IH (pre ++ encode_entry e)). rewrite length_app, H18, <- app_assoc in IH. fold rest in IH.
  unfold nb_names in *. cbn [map].
  destruct (Z.eqb_spec (nbe_suffix e) 0) as [Hs0|Hs0]; cbn [negb orb].
  2: { rewrite !filter_cons_False by (intros [? _]; done). apply IH. }
  case_bool_decide as Hn0.
  { rewrite !filter_cons_False by (intros (_ & ? & _); done). apply IH. }
  destruct (negb (Z.land (nbe_flags e) 32768 =? 0)) eqn:Hg.
  - rewrite filter_cons_False by (intros (_ & _ & ?); congruence).
    rewrite filter_cons_True by done. rewrite IH. do 2 f_equal.
    destruct (decide (group = "")); [by rewrite decide_False|by rewrite decide_False].
  - rewrite filter_cons_True by done.
    rewrite filter_cons_False by (intros (_ & _ & ?); congruence). rewrite IH. do 2 f_equal.
    destruct (decide (name = "")); [by rewrite decide_False|by rewrite decide_False].
Qed.

(** A node-status reply: any header, the echoed name, the fixed fields, the
    count, the entries and whatever follows. *)
Definition nbstat_reply (hdr : bytes) (rr : list string) (fixed : bytes) (es : list nb_entry)
    (trailer : bytes) : bytes :=
  hdr ++ encode_name rr ++ fixed ++ mk [Z.of_nat (length es)] ++ concat (map encode_entry es) ++ trailer.

(** From a well-formed node-status reply the parser extracts the first
    unique suffix-0 name as the machine and the first group one as the
    workgroup, with their padding stripped; with neither it reports an error. *)
Theorem parseNBStatResponse_reply hdr rr fixed es trailer :
  length hdr = 12%nat → length fixed = 10%nat → Forall label_ok rr → Forall nb_entry_ok es →
  Z.of_nat (length es) < 256 →
  parseNBStatResponse (nbstat_reply hdr rr fixed es trailer) =
    let name := hd "" (nb_names false es) in
    let group := hd "" (nb_names true es) in
    if bool_decide (name = "") && bool_decide (group = "") then Err ErrNoNetbiosNames
    else Ok (name, group).
Proof.
  intros Hh Hf Hrr Hes Hlen. remember (nbstat_reply hdr rr fixed es trailer) as resp eqn:Hresp.
  unfold nbstat_reply in Hresp.
  pose proof (f_equal length Hresp) as Hl. rewrite !length_app in Hl. cbn [mk map length] in Hl.
  assert (0 < length (encode_name rr))%nat as Hn by (unfold encode_name; rewrite length_app; simpl; lia).
  unfold parseNBStatResponse. rewrite decide_False by lia.
  erewrite (skipName_at resp hdr rr); [|done|exact Hresp|done].
  cbn [mbind result_bind]. rewrite decide_False by lia.
  set (c := hdr ++ encode_name rr ++ fixed).
  assert (length c = (12 + length (encode_name rr) + 10)%nat) as Hc by (unfold c; rewrite !length_app; lia).
  erewrite (byte_at_at resp c); [|unfold c; packet_split Hresp|lia].
  cbn [mbind result_bind]. rewrite byte_val_of by lia. rewrite Nat2Z.id.
  set (d := c ++ mk [Z.of_nat (length es)]).
  assert (length d = S (length c)) as Hd by (unfold d; rewrite length_app; simpl; lia).
  assert (resp = d ++ concat (map encode_entry es) ++ trailer) as -> by (unfold d, c; packet_split Hresp).
  replace (12 + length (encode_name rr) + 10 + 1)%nat with (length d) by lia.
  rewrite nb_entries_spec by done. cbn [mbind result_bind]. by rewrite !decide_True.
Qed.

Lemma parseNBStatResponse_reply_witness :
  parseNBStatResponse
    (nbstat_reply (mk [76; 73; 132; 0; 0; 0; 0; 1; 0; 0; 0; 0]) ["CKAAAAAAAAAAAAAAAAAAAAAAAAAAAAAA"]
       (mk [0; 33; 0; 1; 0; 0; 0; 0; 0; 83])
       [NbEntry "WORKSTATION1" 32 1024; NbEntry "WORKSTATION1" 0 1024; NbEntry "OFFICE" 0 33792] [])
  = Ok ("WORKSTATION1", "OFFICE").
Proof.
  apply (parseNBStatResponse_reply (mk [76; 73; 132; 0; 0; 0; 0; 1; 0; 0; 0; 0])
           ["CKAAAAAAAAAAAAAAAAAAAAAAAAAAAAAA"] (mk [0; 33; 0; 1; 0; 0; 0; 0; 0; 83])
           [NbEntry "WORKSTATION1" 32 1024; NbEntry "WORKSTATION1" 0 1024; NbEntry "OFFICE" 0 33792] []);
    try reflexivity.
  - repeat constructor.
  - repeat (apply Forall_cons; split); [..|by apply Forall_nil];
      (split_and!; [vm_compute; lia|vm_compute; reflexivity|cbn; lia..]).
Defined.

(** ** The backend's contract *)

Section contract.
Context `{GoText} (exchange : string → bytes → Z → option bytes).

Lemma name_lookup_IP cfg ip now o : name_lookup exchange cfg ip now = Some o → obs_IP o = ip.
Proof. unfold name_lookup. intros Ho. by repeat (case_match; simplify_eq/=). Qed.

(** The name backend reports only addresses of the job's allowlist. *)
#[export] Instance NameDiscoverer_scoped cfg ctx now :
  Scoped (NameDiscoverer_Discover exchange cfg ctx now).
Proof.
  intros job o. unfold NameDiscoverer_Discover.
  destruct (decide _); [by intros ?%not_elem_of_nil|].
  destruct (decide _); [by intros ?%not_elem_of_nil|].
  destruct (parseScopePrefixes (job_AllowedCIDRs job)) as [scope|e] eqn:Hscope;
    [|by intros ?%not_elem_of_nil].
  pose proof (target_loop_inv
    (λ st : list Observation * list ScanError,
       ∀ o, o ∈ st.1 → in_allowlist (job_AllowedCIDRs job) (obs_IP o))
    ctx (name_target exchange cfg scope now) 0 (job_Targets job) ([], [])) as Hinv.
  destruct (target_loop _ _ _ _ _) as [st err]. simpl in *. intros Ho. revert o Ho. apply Hinv.
  - by intros o ?%not_elem_of_nil.
  - clear Hinv st err. intros [obs errs] t _ IH. unfold name_target.
    destruct (parse_addr t) as [[v|]|] eqn:Ht; [|exact IH..].
    destruct (withinScope (Addr4 v) scope) eqn:Hw; [|exact IH]. cbn [negb].
    destruct (name_lookup exchange cfg t now) as [o|] eqn:Hl; [|exact IH]. simpl in *.
    intros o' [Ho'| ->%list_elem_of_singleton]%elem_of_app; [by apply IH|].
    rewrite (name_lookup_IP _ _ _ _ Hl). eapply scopedIPv4_allowlist; [exact Hscope|].
    unfold scopedIPv4. by rewrite Ht.
Qed.
End contract.
