(* ===== verification/GoTime.v ===== *)
(** * The parts of [time] the program relies on

    A [time.Time] is the number of nanoseconds since the Unix epoch, in UTC; a
    [time.Location] with a fixed offset is that offset in nanoseconds. The civil
    calendar is the proleptic Gregorian one. *)

From S2P Require Import Prelude GoStrings.
Local Open Scope Z_scope.

Definition second : Z := 1000000000.
Definition minute : Z := 60 * second.
Definition hour : Z := 60 * minute.
Definition day : Z := 24 * hour.

Definition is_leap (y : Z) : bool :=
  (y mod 4 =? 0) && (negb (y mod 100 =? 0) || (y mod 400 =? 0)).

Definition days_in_month (y m : Z) : Z :=
  if m =? 2 then if is_leap y then 29 else 28
  else if (m =? 4) || (m =? 6) || (m =? 9) || (m =? 11) then 30 else 31.

(** Days from the Unix epoch to a civil date: years are counted from March, so
    that the leap day ends the year. *)
Definition days_from_civil (y m d : Z) : Z :=
  let y' := if m <=? 2 then y - 1 else y in
  let era := y' / 400 in
  let yoe := y' mod 400 in
  let doy := (153 * (m + (if 2 <? m then -3 else 9)) + 2) / 5 + d - 1 in
  let doe := yoe * 365 + yoe / 4 - yoe / 100 + doy in
  era * 146097 + doe - 719468.

(** [t.In(loc).Weekday()] with Sunday as 0, and the minute of the local day. *)
Definition weekday (t : Z) : Z := (t / day + 4) mod 7.
Definition minute_of_day (t : Z) : Z := t mod day / minute.

(** Exactly [n] digits at the front of a string, and the rest. *)
Fixpoint take_digits (n : nat) (acc : Z) (s : string) : option (Z * string) :=
  match n, s with
  | O, _ => Some (acc, s)
  | S n, String c s => if is_digit c then take_digits n (acc * 10 + digit_val c) s else None
  | S _, "" => None
  end.

(** [getnum(value, false)]: one or two digits. *)
Definition take_one_or_two (s : string) : option (Z * string) :=
  match take_digits 2 0 s with Some r => Some r | None => take_digits 1 0 s end.

(** Optional fractional seconds, which [time.Parse] accepts after the seconds
    even where the layout has none: a dot or comma followed by digits. *)
Fixpoint all_digits (s : string) : bool :=
  match s with "" => true | String c s => is_digit c && all_digits s end.
Definition fraction_nanos (s : string) : option Z :=
  match s with
  | "" => Some 0
  | String c (String d t) =>
      if bool_decide (c = "."%char ∨ c = ","%char) && all_digits (String d t) then
        '(v, _) ← take_digits 9 0 (str_of_list (take 9 (str_to_list (String d t)) ++
                                     replicate (9 - slen (String d t)) "0"%char));
        Some v
      else None
  | String _ "" => None
  end.

(** [time.Parse("2006/01/02 15:04:05", s)] in UTC. *)
Definition parse_slash_datetime (s : string) : option Z :=
  '(y, s) ← take_digits 4 0 s; s ← strip_prefix "/" s;
  '(m, s) ← take_digits 2 0 s; s ← strip_prefix "/" s;
  '(d, s) ← take_digits 2 0 s; s ← strip_prefix " " s;
  '(h, s) ← take_one_or_two s; s ← strip_prefix ":" s;
  '(mi, s) ← take_digits 2 0 s; s ← strip_prefix ":" s;
  '(sec, s) ← take_digits 2 0 s; ns ← fraction_nanos s;
  if (1 <=? m) && (m <=? 12) && (1 <=? d) && (d <=? days_in_month y m) &&
     (h <? 24) && (mi <? 60) && (sec <? 60)
  then Some ((((days_from_civil y m d * 24 + h) * 60 + mi) * 60 + sec) * second + ns)
  else None.

Example parse_slash_datetime_1 :
  parse_slash_datetime "2023/11/16 12:00:00" = Some (1700136000 * second).
Proof. vm_compute. reflexivity. Qed.
Example weekday_1 : weekday (1700136000 * second) = 4.
Proof. vm_compute. reflexivity. Qed.
