(* ===== verification/Csv.v ===== *)
(** * [encoding/csv]

    The reader (leading spaces trimmed, ragged rows allowed) and the writer the
    program uses, on byte strings, with the round trip between them. *)

From S2P Require Import Prelude GoStrings.

Definition LF : ascii := byte_of 10.
Definition CR : ascii := byte_of 13.
Definition dquote : ascii := byte_of 34.
Definition comma : ascii := byte_of 44.

(** [ErrFuel] is the model's; [read_all_total] shows that it does not occur. *)
Inductive csv_error : Type := ErrBareQuote | ErrQuote | ErrFuel.

#[export] Instance csv_error_eq_dec : EqDecision csv_error.
Proof. solve_decision. Defined.

(** ** Reader *)

Definition drop_cr (s : string) : string := trim_suffix s (String CR "").

(** The next line with its end, a carriage return before it dropped; [None] at
    the end of the input. *)
Definition read_line (inp : string) : option (string * string) :=
  if decide (inp = "") then None
  else match cut_byte LF inp with
       | Some (l, rest) => Some (drop_cr l +:+ String LF "", rest)
       | None => Some (drop_cr inp, "")
       end.

(** [lengthNL(line) == len(line)]. *)
Definition only_nl (line : string) : bool := bool_decide (line = "" ∨ line = String LF "").

Definition drop_nl (line : string) : string := trim_suffix line (String LF "").

(** After the opening quote: the field, what follows its comma (nothing when the
    record ended) and the lines not read. *)
Fixpoint read_quoted (fuel : nat) (line rest field : string) : result csv_error (string * option string * string) :=
  match fuel with
  | O => Err ErrFuel
  | S fuel =>
      match cut_byte dquote line with
      | Some (before, after) =>
          let field := field +:+ before in
          match after with
          | String c after' =>
              if decide (c = dquote) then read_quoted fuel after' rest (field +:+ String dquote "")
              else if decide (c = comma) then Ok (field, Some after', rest)
              else if only_nl after then Ok (field, None, rest) else Err ErrQuote
          | "" => Ok (field, None, rest)
          end
      | None =>
          if decide (line = "") then Err ErrQuote
          else match read_line rest with
               | Some (line', rest) => read_quoted fuel line' rest (field +:+ line)
               | None => read_quoted fuel "" rest (field +:+ line)
               end
      end
  end.

Definition read_fuel (line rest : string) : nat := S (slen line + slen rest).

Fixpoint read_fields (fuel : nat) (line rest : string) : result csv_error (list string * string) :=
  match fuel with
  | O => Err ErrFuel
  | S fuel =>
      let line := trim_left_func Ascii.is_space line in
      match strip_prefix (String dquote "") line with
      | Some line =>
          '(field, more, rest) ← read_quoted (read_fuel line rest) line rest "";
          match more with
          | Some line => '(fields, rest) ← read_fields fuel line rest; Ok (field :: fields, rest)
          | None => Ok ([field], rest)
          end
      | None =>
          match cut_byte comma line with
          | Some (field, line) =>
              if negb (count_byte dquote field =? 0)%nat then Err ErrBareQuote
              else '(fields, rest) ← read_fields fuel line rest; Ok (field :: fields, rest)
          | None =>
              let field := drop_nl line in
              if negb (count_byte dquote field =? 0)%nat then Err ErrBareQuote else Ok ([field], rest)
          end
      end
  end.

(** [ReadAll], skipping empty lines. *)
Fixpoint read_all_go (fuel : nat) (inp : string) : result csv_error (list (list string)) :=
  match fuel with
  | O => Err ErrFuel
  | S fuel =>
      match read_line inp with
      | None => Ok []
      | Some (line, rest) =>
          if only_nl line then read_all_go fuel rest
          else
            '(record, rest) ← read_fields (read_fuel line rest) line rest;
            records ← read_all_go fuel rest;
            Ok (record :: records)
      end
  end.

Definition ReadAll (inp : string) : result csv_error (list (list string)) := read_all_go (S (slen inp)) inp.

(** ** Writer *)

Definition fieldNeedsQuotes (field : string) : bool :=
  match field with
  | "" => false
  | String c _ =>
      bool_decide (field = "\.") ||
      negb ((count_byte LF field =? 0) && (count_byte CR field =? 0) &&
            (count_byte dquote field =? 0) && (count_byte comma field =? 0))%nat ||
      Ascii.is_space c
  end.

Fixpoint escape (field : string) : string :=
  match field with
  | "" => ""
  | String c field => if decide (c = dquote) then String dquote (String dquote (escape field)) else String c (escape field)
  end.

Definition write_field (field : string) : string :=
  if fieldNeedsQuotes field then String dquote (escape field +:+ String dquote "") else field.

Definition write_record (record : list string) : string :=
  join (String comma "") (map write_field record) +:+ String LF "".

Fixpoint write_all (records : list (list string)) : string :=
  match records with [] => "" | r :: records => write_record r +:+ write_all records end.

(** What reading back does to a field: a carriage return before a line feed is
    dropped. *)
Fixpoint crlf_to_lf (s : string) : string :=
  match s with
  | "" => ""
  | String c t =>
      match t with
      | String d _ => if decide (c = CR ∧ d = LF) then crlf_to_lf t else String c (crlf_to_lf t)
      | "" => String c ""
      end
  end.

Example read_1 : ReadAll (str_of_list (map byte_of
  [97; 44; 32; 34; 98; 34; 34; 44; 13; 10; 99; 34; 13; 10; 10; 100; 44; 10]%Z)) =
  Ok [["a"; "b" +:+ String dquote "," +:+ String LF "c"]; ["d"; ""]].
Proof. vm_compute. reflexivity. Qed.
Example read_2 : ReadAll (String "a" (String dquote "")) = Err ErrBareQuote.
Proof. vm_compute. reflexivity. Qed.
Example read_3 : ReadAll (String dquote "a") = Err ErrQuote.
Proof. vm_compute. reflexivity. Qed.
Example write_1 : ReadAll (write_all [["a"; " b"]; ["x" +:+ String dquote "," +:+ String LF "y"; ""]]) =
  Ok [["a"; " b"]; ["x" +:+ String dquote "," +:+ String LF "y"; ""]].
Proof. vm_compute. reflexivity. Qed.

(** ** The reader ends on every text *)

Lemma cut_byte_Some c s x y : cut_byte c s = Some (x, y) → s = x +:+ String c y ∧ count_byte c x = 0%nat.
Proof.
  revert x. induction s as [|d s IH]; intros x; cbn; [done|]. destruct (decide (d = c)) as [->|Hne].
  - by intros [= <- <-].
  - destruct (cut_byte c s) as [[x' y']|]; cbn; [|done]. intros [= <- <-].
    destruct (IH x' eq_refl) as [-> Hc]. cbn. by rewrite decide_False by done.
Qed.

Lemma cut_byte_length c s x y : cut_byte c s = Some (x, y) → slen s = S (slen x + slen y).
Proof. intros [-> _]%cut_byte_Some. rewrite slen_app. cbn. lia. Qed.

Lemma trim_suffix_length s p : slen (trim_suffix s p) ≤ slen s.
Proof.
  unfold trim_suffix. destruct (strip_suffix p s) as [t|] eqn:Ht; cbn; [|lia].
  apply strip_suffix_Some in Ht as ->. rewrite slen_app. lia.
Qed.

Lemma trim_left_length f s : slen (trim_left_func f s) ≤ slen s.
Proof. induction s as [|c s IH]; cbn; [lia|]. destruct (f c); cbn; lia. Qed.

Lemma read_line_length inp l rest :
  read_line inp = Some (l, rest) → slen l + slen rest ≤ slen inp ∧ slen rest < slen inp.
Proof.
  unfold read_line. destruct (decide (inp = "")) as [|Hne]; [done|].
  destruct (cut_byte LF inp) as [[x y]|] eqn:Hc; intros [= <- <-].
  - apply cut_byte_length in Hc. pose proof (trim_suffix_length x (String CR "")).
    rewrite slen_app. unfold drop_cr. assert (slen (String LF "") = 1) by done. lia.
  - pose proof (trim_suffix_length inp (String CR "")). unfold drop_cr.
    assert (0 < slen inp) by (destruct inp; [done|cbn; lia]). assert (slen "" = 0) by done. lia.
Qed.

Lemma read_quoted_total fuel line rest field :
  slen line + slen rest < fuel →
  match read_quoted fuel line rest field with
  | Err e => e ≠ ErrFuel
  | Ok (_, more, rest') => slen rest' ≤ slen rest ∧ slen (default "" more) + slen rest' ≤ slen line + slen rest
  end.
Proof.
  revert line rest field. induction fuel as [|fuel IH]; intros line rest field Hf; [lia|]. cbn [read_quoted].
  destruct (cut_byte dquote line) as [[x y]|] eqn:Hc.
  - apply cut_byte_length in Hc. destruct y as [|c y]; [cbn in *; lia|]. cbn in Hc.
    destruct (decide (c = dquote)) as [_|_].
    + specialize (IH y rest ((field +:+ x) +:+ String dquote "")). destruct (read_quoted _ _ _ _) as [[[f m] r]|e]; [|apply IH; lia].
      destruct IH; lia.
    + destruct (decide (c = comma)) as [_|_]; [cbn; lia|]. by destruct (only_nl _); [cbn; lia|].
  - destruct (decide (line = "")) as [|Hne]; [done|].
    assert (0 < slen line) by (destruct line; [done|cbn; lia]).
    destruct (read_line rest) as [[l r]|] eqn:Hl.
    + apply read_line_length in Hl as [Hl1 Hl2]. specialize (IH l r (field +:+ line)).
      destruct (read_quoted _ _ _ _) as [[[f m] r']|e]; [|apply IH; lia]. destruct IH; lia.
    + specialize (IH "" rest (field +:+ line)). destruct (read_quoted _ _ _ _) as [[[f m] r']|e]; [|apply IH; cbn; lia].
      cbn [slen] in IH. destruct IH; lia.
Qed.

Lemma read_fields_total fuel line rest :
  slen line + slen rest < fuel →
  match read_fields fuel line rest with Err e => e ≠ ErrFuel | Ok (_, rest') => slen rest' ≤ slen rest end.
Proof.
  revert line rest. induction fuel as [|fuel IH]; intros line rest Hf; [lia|]. cbn [read_fields].
  pose proof (trim_left_length Ascii.is_space line) as Ht. set (l := trim_left_func Ascii.is_space line) in *.
  destruct (strip_prefix (String dquote "") l) as [l'|] eqn:Hq.
  - apply strip_prefix_Some in Hq. assert (slen l = S (slen l')) as Hl by by rewrite Hq.
    pose proof (read_quoted_total (read_fuel l' rest) l' rest "" ltac:(unfold read_fuel; lia)) as H.
    destruct (read_quoted _ _ _ _) as [[[f m] r]|e]; cbn [mbind result_bind]; [|done].
    destruct H as [H1 H2]. destruct m as [m|]; [|done]. cbn in H2. specialize (IH m r ltac:(lia)).
    destruct (read_fields _ _ _) as [[fs r']|e]; cbn [mbind result_bind]; [lia|done].
  - destruct (cut_byte comma l) as [[x y]|] eqn:Hc.
    + apply cut_byte_length in Hc. destruct (negb _); [done|]. specialize (IH y rest ltac:(lia)).
      destruct (read_fields _ _ _) as [[fs r']|e]; cbn [mbind result_bind]; [lia|done].
    + by destruct (negb _).
Qed.

Lemma read_all_total fuel inp : slen inp < fuel → read_all_go fuel inp ≠ Err ErrFuel.
Proof.
  revert inp. induction fuel as [|fuel IH]; intros inp Hf; [lia|]. cbn [read_all_go].
  destruct (read_line inp) as [[line rest]|] eqn:Hl; [|done]. apply read_line_length in Hl as [_ Hl].
  destruct (only_nl line); [apply IH; lia|].
  pose proof (read_fields_total (read_fuel line rest) line rest ltac:(unfold read_fuel; lia)) as H.
  destruct (read_fields _ _ _) as [[fs r]|e]; cbn [mbind result_bind]; [|congruence].
  specialize (IH r ltac:(lia)). destruct (read_all_go fuel r); cbn [mbind result_bind]; congruence.
Qed.

(** ** Lines *)

Lemma read_line_nonempty inp : inp ≠ "" → ∃ l r, read_line inp = Some (l, r).
Proof.
  intros Hne. unfold read_line. rewrite decide_False by done.
  destruct (cut_byte LF inp) as [[x y]|]; by eexists _, _.
Qed.

Lemma drop_cr_cons d e p : drop_cr (String d (String e p)) = String d (drop_cr (String e p)).
Proof.
  unfold drop_cr, trim_suffix. destruct (strip_suffix (String CR "") (String e p)) as [t|] eqn:Ht.
  - apply strip_suffix_Some in Ht. assert (strip_suffix (String CR "") (String d (String e p)) = Some (String d t)) as ->; [|done].
    apply strip_suffix_Some. by rewrite Ht.
  - destruct (strip_suffix (String CR "") (String d (String e p))) as [u|] eqn:Hu; [|done].
    apply strip_suffix_Some in Hu. destruct u as [|d' u]; [done|]. injection Hu as <- Hu.
    apply strip_suffix_Some in Hu. congruence.
Qed.

Lemma drop_cr_one d : d ≠ CR → drop_cr (String d "") = String d "".
Proof.
  intros Hd. unfold drop_cr, trim_suffix. destruct (strip_suffix _ _) as [t|] eqn:Ht; [|done].
  apply strip_suffix_Some in Ht. destruct t as [|e t]; [rewrite str_app_nil_l in Ht; congruence|].
  rewrite str_app_cons in Ht. injection Ht as _ Ht. by destruct t.
Qed.

(** Only the end of a text can lose a carriage return. *)
Lemma drop_cr_app p x : x ≠ "" → drop_cr (p +:+ x) = p +:+ drop_cr x.
Proof.
  intros Hx. induction p as [|d p IH]; [done|]. rewrite str_app_cons.
  destruct (p +:+ x) as [|e q] eqn:He.
  - destruct p; [by rewrite str_app_nil_l in He|done].
  - by rewrite drop_cr_cons, IH.
Qed.

Lemma drop_cr_snoc p c x : c ≠ CR → drop_cr ((p +:+ String c "") +:+ x) = (p +:+ String c "") +:+ drop_cr x.
Proof.
  intros Hc. destruct x as [|d x]; [|by rewrite drop_cr_app].
  rewrite str_app_nil_r, drop_cr_app by done. rewrite drop_cr_one by done. by rewrite str_app_nil_r.
Qed.

Lemma cut_byte_app_none c p t :
  count_byte c p = 0 → cut_byte c (p +:+ t) = (λ '(x, y), (p +:+ x, y)) <$> cut_byte c t.
Proof.
  induction p as [|d p IH]; intros Hp.
  - rewrite str_app_nil_l. by destruct (cut_byte c t) as [[x y]|].
  - cbn [count_byte] in Hp. rewrite str_app_cons. cbn [cut_byte]. destruct (decide (d = c)); [done|].
    rewrite IH by done. by destruct (cut_byte c t) as [[x y]|].
Qed.

Lemma read_line_app p t l r :
  count_byte LF p = 0 → t ≠ "" →
  ((∃ q c, p = q +:+ String c "" ∧ c ≠ CR) ∨ ∃ c u, t = String c u ∧ c ≠ LF) →
  read_line t = Some (l, r) → read_line (p +:+ t) = Some (p +:+ l, r).
Proof.
  intros Hp Ht Hsep H.
  assert (∀ x, (∀ c u, t = String c u → c ≠ LF → x ≠ "") → drop_cr (p +:+ x) = p +:+ drop_cr x) as Hdrop.
  { intros x Hx. destruct Hsep as [(q & c & -> & Hc)|(c & u & -> & Hc)]; [by apply drop_cr_snoc|].
    apply drop_cr_app. by eapply Hx. }
  unfold read_line in H |- *. rewrite decide_False in H by done.
  rewrite decide_False by (intros He; destruct p; [by rewrite str_app_nil_l in He|done]).
  rewrite cut_byte_app_none by done. destruct (cut_byte LF t) as [[x y]|] eqn:Hc; cbn [fmap option_fmap option_map].
  - injection H as <- <-. rewrite Hdrop, str_app_assoc; [done|]. intros c u -> Hcl ->.
    apply cut_byte_Some in Hc as [He _]. rewrite str_app_nil_l in He. congruence.
  - injection H as <- <-. by rewrite Hdrop by done.
Qed.

Lemma read_line_end p t : count_byte LF p = 0 → read_line (p +:+ String LF t) = Some (drop_cr p +:+ String LF "", t).
Proof.
  intros Hp. unfold read_line. rewrite decide_False by by destruct p. by rewrite cut_byte_app.
Qed.

(** ** What reading back does *)

Lemma count_byte_zero c d s : count_byte c (String d s) = 0 → d ≠ c ∧ count_byte c s = 0.
Proof. cbn. by destruct (decide (d = c)). Qed.

Lemma crlf_keep d e s : e ≠ LF → crlf_to_lf (String d (String e s)) = String d (crlf_to_lf (String e s)).
Proof. intros He. cbn [crlf_to_lf]. by rewrite decide_False by (by intros [_ ->]). Qed.

Lemma crlf_skip c t : c ≠ CR → crlf_to_lf (String c t) = String c (crlf_to_lf t).
Proof. intros Hc. cbn. destruct t; [done|]. by rewrite decide_False by (by intros [-> _]). Qed.

Lemma crlf_app p c t : count_byte LF p = 0 → c ≠ LF → crlf_to_lf (p +:+ String c t) = p +:+ crlf_to_lf (String c t).
Proof.
  intros Hp Hc. induction p as [|d p IH]; [done|]. apply count_byte_zero in Hp as [Hd Hp].
  rewrite !str_app_cons, <- IH by done. destruct p as [|e p].
  - by apply crlf_keep.
  - apply count_byte_zero in Hp as [He _]. rewrite str_app_cons. by apply crlf_keep.
Qed.

Lemma crlf_none p : count_byte LF p = 0 → crlf_to_lf p = p.
Proof.
  induction p as [|d p IH]; [done|]. intros [_ Hp]%count_byte_zero. specialize (IH Hp).
  destruct p as [|e p]; [done|]. apply count_byte_zero in Hp as [He _]. by rewrite crlf_keep, IH.
Qed.

Lemma crlf_lf p t : count_byte LF p = 0 → crlf_to_lf (p +:+ String LF t) = drop_cr p +:+ String LF (crlf_to_lf t).
Proof.
  induction p as [|d p IH]; intros Hp.
  - rewrite str_app_nil_l. by apply crlf_skip.
  - apply count_byte_zero in Hp as [Hd Hp]. specialize (IH Hp). rewrite str_app_cons. destruct p as [|e p].
    + rewrite str_app_nil_l. destruct (decide (d = CR)) as [->|Hne].
      * cbn [crlf_to_lf]. rewrite decide_True by done. by apply crlf_skip.
      * rewrite crlf_skip, crlf_skip, drop_cr_one by done. done.
    + apply count_byte_zero in Hp as [He _]. rewrite drop_cr_cons, !str_app_cons, crlf_keep by done.
      rewrite str_app_cons in IH. by rewrite IH.
Qed.

Lemma first_special f :
  (count_byte dquote f = 0 ∧ count_byte LF f = 0) ∨
  ∃ p c t, f = p +:+ String c t ∧ count_byte dquote p = 0 ∧ count_byte LF p = 0 ∧ (c = dquote ∨ c = LF).
Proof.
  induction f as [|d f IH]; [by left|]. cbn [count_byte].
  destruct (decide (d = dquote)) as [->|Hq]; [right; exists "", dquote, f; by auto|].
  destruct (decide (d = LF)) as [->|Hl]; [right; exists "", LF, f; by auto|].
  destruct IH as [[H1 H2]|(p & c & t & -> & H1 & H2 & Hc)]; [by left|]. right. exists (String d p), c, t.
  cbn [count_byte]. by rewrite !decide_False by done.
Qed.

Lemma escape_app s t : escape (s +:+ t) = escape s +:+ escape t.
Proof. induction s as [|c s IH]; [done|]. rewrite str_app_cons. cbn [escape]. rewrite IH. by destruct (decide _). Qed.

Lemma escape_none s : count_byte dquote s = 0 → escape s = s.
Proof.
  induction s as [|c s IH]; [done|]. cbn [count_byte escape]. destruct (decide (c = dquote)); [done|].
  intros H. by rewrite IH.
Qed.

Lemma count_drop_cr c p : count_byte c p = 0 → count_byte c (drop_cr p) = 0.
Proof.
  unfold drop_cr, trim_suffix. destruct (strip_suffix _ p) as [t|] eqn:Ht; [|done].
  apply strip_suffix_Some in Ht as ->. rewrite count_byte_app. cbn. lia.
Qed.

Lemma read_quoted_prefix p lt rt acc :
  count_byte dquote p = 0 → read_quoted 1 (p +:+ String dquote lt) rt acc = read_quoted 1 (String dquote lt) rt (acc +:+ p).
Proof.
  intros Hp. cbn [read_quoted]. rewrite cut_byte_app by done.
  assert (cut_byte dquote (String dquote lt) = Some ("", lt)) as -> by done. by rewrite str_app_nil_r.
Qed.

(** From inside a quoted field to its closing quote. *)
Lemma read_quoted_escape f t lt rt fuel acc line rest :
  (∀ u, lt ≠ String dquote u) →
  read_line (String dquote t) = Some (String dquote lt, rt) →
  read_line (escape f +:+ String dquote t) = Some (line, rest) →
  slen line + slen rest < fuel →
  read_quoted fuel line rest acc = read_quoted 1 (String dquote lt) rt (acc +:+ crlf_to_lf f).
Proof.
  intros Hlt Ht. revert f acc line rest. induction fuel as [|fuel IH]; intros f acc line rest Hl Hf; [lia|].
  destruct (first_special f) as [[Hq Hn]|(p & c & u & -> & Hq & Hn & Hc)].
  - rewrite escape_none in Hl by done.
    rewrite (read_line_app f (String dquote t) _ _ Hn ltac:(done) ltac:(right; by eexists _, _) Ht) in Hl.
    injection Hl as <- <-. rewrite crlf_none by done. rewrite <- read_quoted_prefix by done.
    cbn [read_quoted]. rewrite cut_byte_app by done.
    destruct lt as [|d w]; [done|]. destruct (decide (d = dquote)) as [->|]; [by destruct (Hlt w)|done].
  - rewrite escape_app, escape_none in Hl by done. rewrite str_app_assoc in Hl.
    destruct (read_line_nonempty (escape u +:+ String dquote t)) as (l1 & r1 & H1); [by destruct (escape u)|].
    destruct Hc as [-> | ->]; cbn [escape] in Hl.
    + rewrite decide_True in Hl by done.
      assert (p +:+ String dquote (String dquote (escape u)) +:+ String dquote t =
        (p +:+ String dquote "" +:+ String dquote "") +:+ (escape u +:+ String dquote t)) as He
        by (rewrite !str_app_assoc; done). rewrite He in Hl.
      rewrite (read_line_app _ _ l1 r1) in Hl; [|by rewrite !count_byte_app, Hn|by destruct (escape u)| |exact H1].
      2:{ left. exists (p +:+ String dquote ""), dquote. by rewrite str_app_assoc. }
      injection Hl as <- <-. cbn [read_quoted]. rewrite !str_app_assoc.
      change (String dquote "" +:+ String dquote "" +:+ l1) with (String dquote (String dquote l1)).
      rewrite cut_byte_app by done. rewrite decide_True by done.
      rewrite (IH u _ l1 r1 H1) by (rewrite !slen_app in Hf; cbn in Hf; lia).
      rewrite (crlf_app p dquote u) by done. rewrite (crlf_skip dquote) by done.
      by rewrite !str_app_assoc.
    + rewrite decide_False in Hl by done. rewrite str_app_cons, read_line_end in Hl by done. injection Hl as <- <-.
      cbn [read_quoted]. rewrite cut_byte_none by (rewrite count_byte_app, count_drop_cr by done; done).
      rewrite decide_False by (by destruct (drop_cr p)). rewrite H1.
      apply read_line_length in H1 as Hlen.
      rewrite (IH u _ l1 r1 H1) by (rewrite slen_app in Hf; cbn in Hf; lia).
      rewrite (crlf_lf p u) by done. by rewrite !str_app_assoc.
Qed.

Lemma app_nonempty s c t : s +:+ String c t ≠ "".
Proof. by destruct s. Qed.

Lemma drop_cr_none p : count_byte CR p = 0 → drop_cr p = p.
Proof.
  intros Hp. unfold drop_cr, trim_suffix. destruct (strip_suffix _ p) as [t|] eqn:Ht; [|done].
  apply strip_suffix_Some in Ht as ->. rewrite count_byte_app in Hp.
  assert (count_byte CR (String CR "") = 1) by done. lia.
Qed.

(** One carriage return at most is lost with a line. *)
Lemma drop_cr_loss p : slen p ≤ S (slen (drop_cr p)).
Proof.
  unfold drop_cr, trim_suffix. destruct (strip_suffix _ p) as [t|] eqn:Ht; cbn [default]; [|lia].
  apply strip_suffix_Some in Ht as ->. rewrite slen_app. assert (slen (String CR "") = 1) by done. unfold default, id. lia.
Qed.

Lemma read_line_loss inp l r : read_line inp = Some (l, r) → slen inp ≤ S (slen l + slen r).
Proof.
  unfold read_line. destruct (decide (inp = "")); [done|].
  destruct (cut_byte LF inp) as [[x y]|] eqn:Hc; intros [= <- <-].
  - apply cut_byte_length in Hc. pose proof (drop_cr_loss x). rewrite slen_app.
    assert (slen (String LF "") = 1) by done. lia.
  - pose proof (drop_cr_loss inp). lia.
Qed.

(** A field that is written without quotes. *)
Lemma plain_field f : fieldNeedsQuotes f = false →
  (count_byte LF f = 0 ∧ count_byte CR f = 0) ∧ count_byte dquote f = 0 ∧ count_byte comma f = 0 ∧
  trim_left_func Ascii.is_space f = f.
Proof.
  destruct f as [|c f]; [done|]. unfold fieldNeedsQuotes. rewrite !orb_false_iff, negb_false_iff, !andb_true_iff.
  intros [[_ (((H1 & H0) & H2) & H3)] Hs]. apply Nat.eqb_eq in H0, H1, H2, H3. split_and!; try done.
  cbn. by rewrite Hs.
Qed.

Lemma drop_nl_app f : drop_nl (f +:+ String LF "") = f.
Proof.
  unfold drop_nl, trim_suffix. assert (strip_suffix (String LF "") (f +:+ String LF "") = Some f) as ->; [|done].
  by apply strip_suffix_Some.
Qed.

Lemma trim_left_plain f t :
  trim_left_func Ascii.is_space f = f → f ≠ "" → trim_left_func Ascii.is_space (f +:+ t) = f +:+ t.
Proof.
  destruct f as [|c f]; [done|]. intros H _. rewrite str_app_cons. cbn in H |- *.
  destruct (Ascii.is_space c); [|done]. apply (f_equal slen) in H.
  pose proof (trim_left_length Ascii.is_space f). cbn in H. lia.
Qed.

Lemma strip_quote_plain f t :
  count_byte dquote f = 0 → f ≠ "" → strip_prefix (String dquote "") (f +:+ t) = None.
Proof.
  destruct f as [|c f]; [done|]. intros [Hc _]%count_byte_zero _. rewrite str_app_cons. cbn.
  by rewrite decide_False.
Qed.

(** ** The round trip *)

(** What is left of a record after a field. *)
Definition write_rest (fields : list string) (t : string) : string :=
  match fields with
  | [] => String LF t
  | _ => String comma (join (String comma "") (map write_field fields) +:+ String LF t)
  end.

Lemma write_fields_cons f fs t :
  join (String comma "") (map write_field (f :: fs)) +:+ String LF t = write_field f +:+ write_rest fs t.
Proof.
  destruct fs as [|g fs]; [done|]. cbn [map]. rewrite join_cons by done. by rewrite !str_app_assoc.
Qed.

(** The last field, and one with others behind it, not quoted. *)
Lemma read_plain_last fuel f t :
  fieldNeedsQuotes f = false → read_fields (S fuel) (f +:+ String LF "") t = Ok ([f], t).
Proof.
  intros (Hl & Hq & Hc & Ht)%plain_field. cbn [read_fields]. destruct (decide (f = "")) as [->|Hne]; [done|].
  rewrite trim_left_plain, strip_quote_plain by done.
  rewrite cut_byte_none by (by rewrite count_byte_app, Hc).
  rewrite drop_nl_app. by rewrite Hq.
Qed.

Lemma read_plain_more fuel f l r :
  fieldNeedsQuotes f = false →
  read_fields (S fuel) (f +:+ String comma l) r =
    ('(fields, rest) ← read_fields fuel l r; Ok (f :: fields, rest)).
Proof.
  intros (Hl & Hq & Hc & Ht)%plain_field. cbn [read_fields]. destruct (decide (f = "")) as [->|Hne]; [done|].
  rewrite trim_left_plain, strip_quote_plain by done. rewrite cut_byte_app by done. by rewrite Hq.
Qed.

(** A quoted field: what follows its closing quote decides. *)
Lemma read_quoted_field fuel f t lt rt line rest :
  (∀ u, lt ≠ String dquote u) →
  read_line (String dquote t) = Some (String dquote lt, rt) →
  read_line (String dquote (escape f +:+ String dquote t)) = Some (line, rest) →
  read_fields (S fuel) line rest =
    ('(field, more, rest) ← read_quoted 1 (String dquote lt) rt (crlf_to_lf f);
     match more with
     | Some line => '(fields, rest) ← read_fields fuel line rest; Ok (field :: fields, rest)
     | None => Ok ([field], rest)
     end).
Proof.
  intros Hlt Ht Hline.
  destruct (read_line_nonempty (escape f +:+ String dquote t)) as (l & r & Hl); [by destruct (escape f)|].
  assert (line = String dquote l ∧ rest = r) as [-> ->].
  { pose proof (read_line_app (String dquote "") (escape f +:+ String dquote t) l r eq_refl (app_nonempty _ _ _)
      ltac:(left; by exists "", dquote) Hl) as H.
    rewrite str_app_cons, str_app_nil_l in H. rewrite H in Hline. by injection Hline as <- <-. }
  cbn [read_fields]. change (trim_left_func Ascii.is_space (String dquote l)) with (String dquote l).
  change (strip_prefix (String dquote "") (String dquote l)) with (Some l). cbv iota beta.
  by rewrite (read_quoted_escape f t lt rt _ _ _ _ Hlt Ht Hl) by (unfold read_fuel; lia).
Qed.

Lemma read_fields_write fs t fuel line rest :
  fs ≠ [] →
  read_line (join (String comma "") (map write_field fs) +:+ String LF t) = Some (line, rest) →
  slen line + slen rest < fuel →
  read_fields fuel line rest = Ok (map crlf_to_lf fs, t).
Proof.
  revert fuel line rest. induction fs as [|f fs IH]; intros fuel line rest Hne Hline Hf; [done|].
  destruct fuel as [|fuel]; [lia|]. rewrite write_fields_cons in Hline. destruct fs as [|g fs].
  - cbn [write_rest map] in *. unfold write_field in Hline. destruct (fieldNeedsQuotes f) eqn:Hq.
    + rewrite str_app_cons, str_app_assoc in Hline. change (String dquote "" +:+ String LF t) with (String dquote (String LF t)) in Hline.
      rewrite (read_quoted_field fuel f (String LF t) (String LF "") t line rest);
        [|done|by apply (read_line_end (String dquote ""))|done].
      change (read_quoted 1 (String dquote (String LF "")) t (crlf_to_lf f)) with
        (Ok (E := csv_error) (crlf_to_lf f +:+ "", @None string, t)). cbn [mbind result_bind]. by rewrite str_app_nil_r.
    + destruct (plain_field f Hq) as ((Hl & Hr) & _ & _ & _). rewrite read_line_end in Hline by done.
      injection Hline as <- <-. rewrite drop_cr_none, crlf_none by done. by apply read_plain_last.
  - cbn [write_rest] in Hline. set (T := join _ _ +:+ String LF t) in Hline, IH.
    assert (T ≠ "") as HTne by apply app_nonempty.
    destruct (read_line_nonempty T HTne) as (l & r & HT). pose proof (read_line_length _ _ _ HT) as [Hlen _].
    pose proof (read_line_loss _ _ _ Hline) as Hloss. unfold write_field in Hline, Hloss.
    destruct (fieldNeedsQuotes f) eqn:Hq.
    + rewrite str_app_cons, str_app_assoc in Hline, Hloss.
      change (String dquote "" +:+ String comma T) with (String dquote (String comma T)) in Hline, Hloss.
      assert (read_line (String dquote (String comma T)) = Some (String dquote (String comma l), r)) as HqT.
      { apply (read_line_app (String dquote (String comma "")) T l r); [done|done| |done].
        left. by exists (String dquote ""), comma. }
      rewrite (read_quoted_field fuel f (String comma T) (String comma l) r line rest); [|done|done|done].
      change (read_quoted 1 (String dquote (String comma l)) r (crlf_to_lf f)) with
        (Ok (E := csv_error) (crlf_to_lf f +:+ "", Some l, r)). cbn [mbind result_bind].
      cbn [slen] in Hloss. rewrite slen_app in Hloss. cbn [slen] in Hloss.
      rewrite (IH fuel l r) by (done || lia). cbn [mbind result_bind]. by rewrite str_app_nil_r.
    + destruct (plain_field f Hq) as ((Hl & _) & _ & _ & _).
      assert (read_line (f +:+ String comma T) = Some (f +:+ String comma l, r)) as HfT.
      { pose proof (read_line_app (f +:+ String comma "") T l r) as H. rewrite !str_app_assoc in H.
        apply H; [by rewrite count_byte_app, Hl|done| |done]. left. by exists f, comma. }
      rewrite HfT in Hline. injection Hline as <- <-. rewrite read_plain_more by done.
      rewrite (IH fuel l r) by (done || (rewrite slen_app in Hf; cbn in Hf; lia)). cbn [mbind result_bind map].
      by rewrite (crlf_none f).
Qed.

(** A record that is not an empty line. *)
Definition writable (record : list string) : Prop := record ≠ [] ∧ record ≠ [""].

Lemma write_record_head record t :
  writable record → ∃ c u, write_record record +:+ t = String c u ∧ c ≠ LF ∧ c ≠ CR ∧ u ≠ "".
Proof.
  intros [Hne H1]. destruct record as [|f fs]; [done|].
  assert (write_record (f :: fs) +:+ t = write_field f +:+ write_rest fs t) as ->.
  { unfold write_record. rewrite str_app_assoc. exact (write_fields_cons f fs t). }
  unfold write_field. destruct (fieldNeedsQuotes f) eqn:Hq.
  - exists dquote, ((escape f +:+ String dquote "") +:+ write_rest fs t). split_and!; [done|done|done|].
    rewrite str_app_assoc. apply app_nonempty.
  - destruct f as [|c f].
    + destruct fs as [|g fs]; [done|]. exists comma. eexists. split_and!; [done|done|done|]. apply app_nonempty.
    + destruct (plain_field _ Hq) as (([Hl _]%count_byte_zero & [Hr _]%count_byte_zero) & _).
      exists c, (f +:+ write_rest fs t). split_and!; [done|done|done|]. destruct fs; apply app_nonempty.
Qed.

Lemma read_all_write fuel records :
  Forall writable records → slen (write_all records) < fuel →
  read_all_go fuel (write_all records) = Ok (map (map crlf_to_lf) records).
Proof.
  revert fuel. induction records as [|r records IH]; intros fuel Hw Hf; (destruct fuel as [|fuel]; [lia|]); [done|].
  apply Forall_cons in Hw as [Hr Hw]. cbn [write_all] in Hf |- *. cbn [read_all_go].
  destruct (write_record_head r (write_all records) Hr) as (c & u & Hc & Hlf & Hcr & Hu).
  destruct (read_line_nonempty u Hu) as (l & rest & Hl).
  assert (read_line (write_record r +:+ write_all records) = Some (String c l, rest)) as Hline.
  { rewrite Hc. apply (read_line_app (String c "") u l rest); [cbn; by rewrite decide_False|done| |done]. left. by exists "", c. }
  rewrite Hline. unfold only_nl. rewrite bool_decide_eq_false_2 by (intros [|]; congruence).
  unfold write_record in Hline. rewrite str_app_assoc in Hline.
  rewrite (read_fields_write r (write_all records) _ _ _ (proj1 Hr) Hline) by (unfold read_fuel; lia).
  cbn [mbind result_bind]. rewrite IH; [done|done|].
  rewrite slen_app in Hf. unfold write_record in Hf. rewrite slen_app in Hf. cbn in Hf. lia.
Qed.

(** What the writer writes, the reader reads back, record by record and field
    by field, but for a carriage return before a line feed, which is dropped. *)
Theorem ReadAll_write_all (records : list (list string)) (Hw : Forall writable records) :
  ReadAll (write_all records) = Ok (map (map crlf_to_lf) records).
Proof. apply read_all_write; [done|]. lia. Qed.

Lemma ReadAll_write_all_witness :
  ReadAll (write_all [["name"; "note"]; [" =1,2"; String dquote "x" +:+ String CR (String LF "y")]]) =
  Ok [["name"; "note"]; [" =1,2"; String dquote "x" +:+ String LF "y"]].
Proof.
  refine (ReadAll_write_all [["name"; "note"]; [" =1,2"; String dquote "x" +:+ String CR (String LF "y")]] _).
  by repeat constructor.
Defined.

(** The reader ends on every text. *)
Lemma ReadAll_total inp : ReadAll inp ≠ Err ErrFuel.
Proof. apply read_all_total. lia. Qed.
