(* ===== verification/Dhcp.v ===== *)
(** * DHCP lease ingestion: [internal/scanner/agent/dhcp.go]

    The two lease-file parsers, the format dispatch, and the [DHCPDiscoverer]
    that reports the leases within a job's targets. *)

From S2P Require Import Prelude GoStrings GoTime Netip Protocol Discovery Merge.
Local Open Scope Z_scope.

Record dhcpLease : Type := MkLease
  { l_ip : string; l_mac : string; l_hostname : string; l_expires : Z }.

#[export] Instance dhcpLease_eq_dec : EqDecision dhcpLease.
Proof. solve_decision. Defined.

(** ** Lines of a file: [bufio.Scanner]

    Lines end at a newline, a final carriage return is dropped, a last empty
    line is not reported, and scanning stops at a line of 64 KiB or more. *)
Definition drop_cr (s : string) : string := trim_suffix s (String "013"%char "").

Fixpoint lines_up_to_limit (l : list string) : list string :=
  match l with
  | [] => []
  | s :: l => if Z.of_nat (slen s) <? 65536 then drop_cr s :: lines_up_to_limit l else []
  end.

Definition scan_lines (data : string) : list string :=
  let l := split_on "010"%char data in
  lines_up_to_limit (if decide (last l = Some "") then removelast l else l).

(** ** The parsers *)

Definition normalizeMAC (mac : string) : string :=
  let mac := trim_space (to_lower mac) in
  if decide (mac = "*") then "" else mac.

(** [byIP[lease.ip] = lease], recording the address when it is new. *)
Definition lease_put (st : gmap string dhcpLease * list string) (lease : dhcpLease)
    : gmap string dhcpLease * list string :=
  let '(byIP, order) := st in
  (<[l_ip lease := lease]> byIP,
   match byIP !! l_ip lease with Some _ => order | None => order ++ [l_ip lease] end).

Definition collectLeases (st : gmap string dhcpLease * list string) : list dhcpLease :=
  let '(byIP, order) := st in omap (λ ip, byIP !! ip) order.

Definition parseDnsmasqLine (line : string) : option dhcpLease :=
  match fields line with
  | expiry :: mac :: ip :: h :: _ =>
      let hostname := if decide (h ≠ "" ∧ h ≠ "*") then h else "" in
      let expires := match atoi expiry with
                     | Some epoch => if 0 <? epoch then epoch * second else zero_time
                     | None => zero_time
                     end in
      if decide (ip = "") then None
      else Some (MkLease ip (normalizeMAC mac) hostname expires)
  | _ => None
  end.

Definition parseDnsmasqLeases (data : string) : list dhcpLease :=
  collectLeases
    (foldl (λ st line, match parseDnsmasqLine line with Some l => lease_put st l | None => st end)
       (∅, []) (scan_lines data)).

Definition parseISCTime (stmt : string) : option Z :=
  match fields stmt with
  | _ :: _ :: date :: time :: _ => parse_slash_datetime (date +:+ " " +:+ time)
  | _ => None
  end.

Definition is_quote (c : ascii) : bool := byte_val c =? 34.

(** [cur] and [active] after one statement of a block. *)
Definition parseISCLeaseLine (line : string) (cur : dhcpLease) (active : bool) : dhcpLease * bool :=
  let stmt := trim_suffix line ";" in
  if decide (stmt = "binding state active") then (cur, true)
  else if has_prefix stmt "hardware ethernet " then
    (MkLease (l_ip cur) (normalizeMAC (trim_prefix stmt "hardware ethernet ")) (l_hostname cur)
       (l_expires cur), active)
  else if has_prefix stmt "client-hostname " then
    (MkLease (l_ip cur) (l_mac cur) (trim_func is_quote (trim_prefix stmt "client-hostname "))
       (l_expires cur), active)
  else if has_prefix stmt "ends " then
    match parseISCTime stmt with
    | Some t => (MkLease (l_ip cur) (l_mac cur) (l_hostname cur) t, active)
    | None => (cur, active)
    end
  else (cur, active).

Definition is_lease_header (line : string) : bool := has_prefix line "lease " && has_suffix line "{".

Record isc_state : Type := MkISC
  { isc_leases : gmap string dhcpLease * list string;
    isc_cur : dhcpLease; isc_active : bool; isc_inBlock : bool }.

Definition isc_step (st : isc_state) (text : string) : isc_state :=
  let line := trim_space text in
  if is_lease_header line then
    MkISC (isc_leases st)
      (MkLease (trim_space (trim_suffix (trim_prefix line "lease ") "{")) "" "" zero_time) false true
  else if bool_decide (line = "}") && isc_inBlock st then
    MkISC (if isc_active st && negb (bool_decide (l_ip (isc_cur st) = ""))
           then lease_put (isc_leases st) (isc_cur st) else isc_leases st)
      (isc_cur st) (isc_active st) false
  else if isc_inBlock st then
    let '(cur, active) := parseISCLeaseLine line (isc_cur st) (isc_active st) in
    MkISC (isc_leases st) cur active true
  else st.

Definition isc_init : isc_state := MkISC (∅, []) (MkLease "" "" "" zero_time) false false.

Definition parseISCLeases (data : string) : list dhcpLease :=
  collectLeases (isc_leases (foldl isc_step isc_init (scan_lines data))).

Definition looksLikeISC (data : string) : bool :=
  existsb (λ line, is_lease_header (trim_space line)) (scan_lines data).

Section dhcp.
Context `{GoText}.

Definition parseLeases (data format : string) : result string (list dhcpLease) :=
  let f := to_lower (trim_space format) in
  if decide (f = "isc") then Ok (parseISCLeases data)
  else if decide (f = "dnsmasq") then Ok (parseDnsmasqLeases data)
  else if decide (f = "" ∨ f = "auto") then
    if looksLikeISC data then Ok (parseISCLeases data) else Ok (parseDnsmasqLeases data)
  else Err ("unknown DHCP lease format " +:+ quote format +:+ " (use isc, dnsmasq, or auto)").

Fixpoint scopeFromTargets (targets : list string) : result string (list Prefix) :=
  match targets with
  | [] => Ok []
  | t :: ts =>
      match parse_prefix t with
      | Some p => (λ ps, prefix_masked p :: ps) <$> scopeFromTargets ts
      | None =>
          match parse_addr t with
          | Some a => (λ ps, PrefixFrom a (bit_len a) :: ps) <$> scopeFromTargets ts
          | None => Err ("target " +:+ quote t +:+ " is not an IPv4 address or CIDR")
          end
      end
  end.

(** What reading the lease file gives: the sentinel [errNoLeaseFile], another
    error with its text, or the file's bytes. *)
Inductive lease_read : Type := NoLeaseFile | ReadFailed (e : string) | LeaseData (data : string).

Definition lease_observation (now : Z) (scope : list Prefix) (lease : dhcpLease) : option Observation :=
  if scopedIPv4 (l_ip lease) scope then
    let summary := if l_expires lease =? zero_time then "DHCP lease (active)"
                   else "DHCP lease (active), expires " +:+ format_minute (l_expires lease) in
    Some (MkObservation (l_ip lease) (l_mac lease) "" (l_hostname lease) "" "" 0 "" "" []
            [MkEvidence "dhcp" summary ""] now)
  else None.

Definition DHCPDiscoverer_Discover (read : lease_read) (format : string) (now : Z) : Discoverer :=
  λ job,
    if decide (job_Mode job = ModePassive) then MkOutcome [] [] None
    else match scopeFromTargets (job_Targets job) with
         | Err e => fail ("parse dhcp targets: " +:+ e)
         | Ok scope =>
             match read with
             | NoLeaseFile => MkOutcome [] [MkScanError "dhcp_unconfigured"
                 "no DHCP lease file configured (set AGENT_DHCP_LEASE_FILE on the agent)" ""] None
             | ReadFailed e => MkOutcome [] [MkScanError "dhcp_failed" ("read lease file: " +:+ e) ""] None
             | LeaseData data =>
                 match parseLeases data format with
                 | Err e => MkOutcome [] [MkScanError "dhcp_failed" e ""] None
                 | Ok leases => MkOutcome (omap (lease_observation now scope) leases) [] None
                 end
             end
         end.
End dhcp.

(** ** Lemmas: the last lease of an address wins *)

Definition last_lease (ip : string) (ls : list dhcpLease) : option dhcpLease :=
  last (filter (λ l, l_ip l = ip) ls).

Lemma lease_put_loop ls byIP order :
  foldl lease_put (∅, []) ls = (byIP, order) →
  NoDup order ∧ (∀ ip, ip ∈ order ↔ ip ∈ map l_ip ls) ∧ (∀ ip, byIP !! ip = last_lease ip ls).
Proof.
  revert byIP order. induction ls as [|l ls IH] using rev_ind; intros byIP order.
  - intros [= <- <-]. split_and!; [constructor|done|]. intros ip. apply lookup_empty.
  - rewrite foldl_app. simpl. destruct (foldl lease_put (∅, []) ls) as [byIP' order'].
    destruct (IH _ _ eq_refl) as (Hnd & Hin & Hby). clear IH. unfold lease_put.
    intros [= <- <-].
    assert (byIP' !! l_ip l = None ↔ l_ip l ∉ order') as Hnone.
    { rewrite Hby, Hin. unfold last_lease. rewrite last_None. split.
      - intros Hf (b & Hb & Hbin)%list_elem_of_fmap.
        assert (b ∈ filter (λ b, l_ip b = l_ip l) ls) as Hbf by by apply list_elem_of_filter.
        rewrite Hf in Hbf. by apply not_elem_of_nil in Hbf.
      - intros Hn. destruct (filter _ ls) as [|b k] eqn:Hf; [done|]. exfalso. apply Hn.
        assert (b ∈ filter (λ b, l_ip b = l_ip l) ls) as Hb by (rewrite Hf; by left).
        apply list_elem_of_filter in Hb as [<- Hb]. by apply list_elem_of_fmap_2. }
    split_and!.
    + destruct (byIP' !! l_ip l) eqn:Hl; [done|]. apply NoDup_app.
      split; [done|]. split; [|apply NoDup_singleton].
      intros ip Hip ->%list_elem_of_singleton. by apply Hnone.
    + intros ip. rewrite map_app, elem_of_app, <- Hin. simpl. rewrite list_elem_of_singleton.
      destruct (byIP' !! l_ip l) eqn:Hl.
      * split; [tauto|]. intros [?| ->]; [done|]. destruct (decide (l_ip l ∈ order')); [done|].
        by apply Hnone in n.
      * by rewrite elem_of_app, list_elem_of_singleton.
    + intros ip. unfold last_lease. rewrite filter_app. destruct (decide (l_ip l = ip)) as [<-|Hne].
      * rewrite lookup_insert_eq, filter_cons_True by done. rewrite filter_nil. by rewrite last_snoc.
      * rewrite lookup_insert_ne, filter_cons_False by done. rewrite filter_nil, app_nil_r. apply Hby.
Qed.

Lemma last_lease_split ip ls l :
  last_lease ip ls = Some l ↔ ∃ l1 l2, ls = l1 ++ l :: l2 ∧ l_ip l = ip ∧ ip ∉ map l_ip l2.
Proof.
  unfold last_lease. split.
  - induction ls as [|a ls IH] using rev_ind; [done|]. rewrite filter_app.
    destruct (decide (l_ip a = ip)) as [Ha|Ha].
    + rewrite filter_cons_True by done. rewrite filter_nil, last_snoc. intros [= <-].
      exists ls, []. split_and!; [done|done|apply not_elem_of_nil].
    + rewrite filter_cons_False by done. rewrite filter_nil, app_nil_r.
      intros (l1 & l2 & -> & Hl & Hn)%IH. exists l1, (l2 ++ [a]). split_and!; [|done|].
      * by rewrite <- app_assoc.
      * rewrite map_app, not_elem_of_app. split; [done|]. simpl. by intros ->%list_elem_of_singleton.
  - intros (l1 & l2 & -> & Hl & Hn). rewrite filter_app, filter_cons_True by done.
    assert (filter (λ l, l_ip l = ip) l2 = []) as ->; [|by rewrite last_snoc].
    destruct (filter _ l2) as [|b k] eqn:Hf; [done|]. exfalso. apply Hn.
    assert (b ∈ filter (λ b, l_ip b = ip) l2) as Hb by (rewrite Hf; by left).
    apply list_elem_of_filter in Hb as [<- Hb]. by apply list_elem_of_fmap_2.
Qed.

Lemma collectLeases_spec ls res :
  collectLeases (foldl lease_put (∅, []) ls) = res →
  NoDup (map l_ip res) ∧
  (∀ l, l ∈ res ↔ ∃ l1 l2, ls = l1 ++ l :: l2 ∧ l_ip l ∉ map l_ip l2).
Proof.
  intros <-. destruct (foldl lease_put (∅, []) ls) as [byIP order] eqn:Hl.
  destruct (lease_put_loop _ _ _ Hl) as (Hnd & Hin & Hby). cbn [collectLeases].
  assert (∀ ip l, byIP !! ip = Some l → l_ip l = ip) as Hip.
  { intros ip l. rewrite Hby. intros (? & ? & _ & ? & _)%last_lease_split. done. }
  split.
  - clear Hin Hby Hl. induction Hnd as [|ip order Hn _ IH]; [constructor|]. cbn.
    destruct (byIP !! ip) as [l|] eqn:Hb; [|exact IH]. cbn. constructor; [|exact IH].
    rewrite (Hip _ _ Hb). intros (l' & -> & (ip' & Hin' & Hb')%list_elem_of_omap)%list_elem_of_fmap.
    apply Hip in Hb'. by subst.
  - intros l. rewrite list_elem_of_omap. split.
    + intros (ip & _ & Hb). pose proof (Hip _ _ Hb) as <-. rewrite Hby in Hb.
      apply last_lease_split in Hb as (l1 & l2 & ? & _ & ?). eauto.
    + intros (l1 & l2 & -> & Hn). exists (l_ip l). split.
      * apply Hin. rewrite map_app. apply elem_of_app. right. by left.
      * rewrite Hby. apply last_lease_split. eauto.
Qed.

Lemma foldl_option_step {A B} (f : A → option B) (g : _ → B → _) (l : list A)
    (st : gmap string dhcpLease * list string) :
  foldl (λ st a, match f a with Some b => g st b | None => st end) st l = foldl g st (omap f l).
Proof.
  revert st. induction l as [|a l IH]; intros st; [done|]. cbn. destruct (f a); apply IH.
Qed.

(** One lease per address, and it is the last one of the file: a dnsmasq
    lease is reported exactly when its line parses and no later line leases the
    same address. *)
Theorem parseDnsmasqLeases_last_wins data :
  let ls := omap parseDnsmasqLine (scan_lines data) in
  NoDup (map l_ip (parseDnsmasqLeases data)) ∧
  (∀ l, l ∈ parseDnsmasqLeases data ↔ ∃ l1 l2, ls = l1 ++ l :: l2 ∧ l_ip l ∉ map l_ip l2).
Proof. unfold parseDnsmasqLeases. rewrite foldl_option_step. by apply collectLeases_spec. Qed.

(** ** ISC blocks *)

(** A block as the server writes it: the address, the binding state, the
    hardware address and the client's name. *)
Record isc_block : Type := IscBlock
  { ib_addr : Z; ib_state : string; ib_mac : string; ib_host : string }.

Definition render_block (b : isc_block) : list string :=
  ["lease " +:+ addr4_string (ib_addr b) +:+ " {";
   "  binding state " +:+ ib_state b +:+ ";";
   "  hardware ethernet " +:+ ib_mac b +:+ ";";
   "  client-hostname " +:+ String "034" (ib_host b +:+ String "034" ";");
   "}"].

Definition block_lease (b : isc_block) : dhcpLease :=
  MkLease (addr4_string (ib_addr b)) (ib_mac b) (ib_host b) zero_time.

Definition block_active (b : isc_block) : Prop := ib_state b = "active".
#[export] Instance block_active_dec b : Decision (block_active b).
Proof. unfold block_active. apply _. Defined.

Definition no_byte (f : ascii → bool) (s : string) : Prop := ∀ c, f c = true → count_byte c s = 0%nat.

Definition block_ok (b : isc_block) : Prop :=
  0 ≤ ib_addr b < 2 ^ 32 ∧ no_byte Ascii.is_space (ib_state b) ∧
  normalizeMAC (ib_mac b) = ib_mac b ∧ no_byte is_quote (ib_host b).

Lemma trim_suffix_app s p : trim_suffix (s +:+ p) p = s.
Proof. unfold trim_suffix. by rewrite (proj2 (strip_suffix_Some p (s +:+ p) s)). Qed.

Lemma has_suffix_app s p : has_suffix (s +:+ p) p = true.
Proof. apply has_suffix_true. eauto. Qed.

Lemma trim_prefix_app p s : trim_prefix (p +:+ s) p = s.
Proof. unfold trim_prefix. by rewrite strip_prefix_app. Qed.

Lemma has_prefix_app p s : has_prefix (p +:+ s) p = true.
Proof. apply has_prefix_true. eauto. Qed.

Lemma trim_right_keep f s d : f d = false → trim_right_func f (s +:+ String d "") = s +:+ String d "".
Proof.
  intros Hd. unfold trim_right_func. rewrite str_rev_app. change (String.rev (String d "")) with (String d "").
  rewrite str_app_cons, str_app_nil_l. cbn [trim_left_func]. rewrite Hd.
  rewrite str_rev_cons, str_rev_rev. done.
Qed.

Lemma trim_right_drop f s d : f d = true → trim_right_func f (s +:+ String d "") = trim_right_func f s.
Proof.
  intros Hd. unfold trim_right_func. rewrite str_rev_app. change (String.rev (String d "")) with (String d "").
  rewrite str_app_cons, str_app_nil_l. cbn [trim_left_func]. by rewrite Hd.
Qed.

Lemma trim_left_no f s : no_byte f s → trim_left_func f s = s.
Proof.
  destruct s as [|d s]; [done|]. intros H. cbn [trim_left_func].
  destruct (f d) eqn:Hd; [|done]. specialize (H d Hd). cbn [count_byte] in H. by rewrite decide_True in H.
Qed.

Lemma trim_right_no f s : no_byte f s → trim_right_func f s = s.
Proof.
  intros H. unfold trim_right_func. rewrite trim_left_no; [apply str_rev_rev|].
  intros c Hc. rewrite count_byte_rev. auto.
Qed.

Lemma trim_left_app_no f s t :
  no_byte f s → s ≠ "" → trim_left_func f (s +:+ t) = s +:+ t.
Proof.
  destruct s as [|d s]; [done|]. intros H _. rewrite str_app_cons. cbn [trim_left_func].
  destruct (f d) eqn:Hd; [|done]. specialize (H d Hd). cbn [count_byte] in H. by rewrite decide_True in H.
Qed.

(** The lines of a block, trimmed. *)
Lemma trim_header v :
  trim_space ("lease " +:+ addr4_string v +:+ " {") = "lease " +:+ addr4_string v +:+ " {".
Proof.
  unfold trim_space, trim_func. rewrite (str_app_cons "l"). cbn [trim_left_func].
  change (Ascii.is_space "l") with false. cbn iota. rewrite <- (str_app_cons "l").
  rewrite <- str_app_assoc. change " {" with (" " +:+ "{"). rewrite <- str_app_assoc.
  by rewrite trim_right_keep.
Qed.

Lemma trim_stmt (p s : string) :
  trim_left_func Ascii.is_space p = "" → 
  ∀ c q, Ascii.is_space c = false →
  trim_space (p +:+ String c q +:+ s +:+ ";") = String c q +:+ s +:+ ";".
Proof.
  intros Hp c q Hc. unfold trim_space, trim_func.
  assert (trim_left_func Ascii.is_space (p +:+ String c q +:+ s +:+ ";") = String c q +:+ s +:+ ";") as ->.
  { induction p as [|d p IH].
    - rewrite str_app_nil_l, str_app_cons. cbn [trim_left_func]. by rewrite Hc.
    - cbn [trim_left_func] in Hp. rewrite str_app_cons. cbn [trim_left_func].
      destruct (Ascii.is_space d); [auto|done]. }
  rewrite <- str_app_assoc. by rewrite trim_right_keep.
Qed.

Lemma isc_header_step st v :
  0 ≤ v < 2 ^ 32 →
  isc_step st ("lease " +:+ addr4_string v +:+ " {") =
  MkISC (isc_leases st) (MkLease (addr4_string v) "" "" zero_time) false true.
Proof.
  intros Hv. unfold isc_step. cbv zeta. rewrite trim_header. unfold is_lease_header.
  rewrite has_prefix_app. rewrite <- str_app_assoc. change " {" with (" " +:+ "{").
  rewrite <- str_app_assoc, has_suffix_app. cbn [andb].
  rewrite !str_app_assoc, trim_prefix_app, <- str_app_assoc, trim_suffix_app.
  assert (no_byte Ascii.is_space (addr4_string v)) as Hno.
  { intros c (? & ? & ? & ?)%space_not_digit. by apply addr4_string_no_sep. }
  unfold trim_space, trim_func. rewrite trim_left_app_no; [|done|].
  - change " " with (String " " ""). rewrite trim_right_drop by done. by rewrite trim_right_no.
  - intros He. pose proof (parse_addr4_string v Hv) as H. by rewrite He in H.
Qed.

(** A statement of an open block that is neither a header nor a closing brace. *)
Lemma isc_stmt_step st c q s :
  isc_inBlock st = true → Ascii.is_space c = false → c ≠ "}"%char →
  isc_step st ("  " +:+ String c q +:+ s +:+ ";") =
    let '(cur, active) := parseISCLeaseLine (String c q +:+ s +:+ ";") (isc_cur st) (isc_active st) in
    MkISC (isc_leases st) cur active true.
Proof.
  intros Hb Hc Hbrace. unfold isc_step. cbv zeta. rewrite trim_stmt by done.
  assert (is_lease_header (String c q +:+ s +:+ ";") = false) as ->.
  { unfold is_lease_header. apply andb_false_iff. right. rewrite <- str_app_assoc.
    destruct (has_suffix _ _) eqn:Hs; [|done]. apply has_suffix_true in Hs as (t & Ht).
    apply (f_equal String.rev) in Ht. rewrite !str_rev_app in Ht. done. }
  rewrite bool_decide_eq_false_2 by (rewrite str_app_cons; congruence). by rewrite Hb.
Qed.

Lemma isc_close_step st :
  isc_inBlock st = true →
  isc_step st "}" =
    MkISC (if isc_active st && negb (bool_decide (l_ip (isc_cur st) = ""))
           then lease_put (isc_leases st) (isc_cur st) else isc_leases st)
      (isc_cur st) (isc_active st) false.
Proof. intros Hb. unfold isc_step. change (trim_space "}") with "}". cbn. by rewrite Hb. Qed.

Lemma str_app_inj p s t : p +:+ s = p +:+ t → s = t.
Proof. induction p as [|c p IH]; [done|]. rewrite !str_app_cons. intros [= H]. auto. Qed.

Lemma parse_state_line s cur active :
  parseISCLeaseLine ("binding state " +:+ s +:+ ";") cur active
  = (cur, if decide (s = "active") then true else active).
Proof.
  unfold parseISCLeaseLine. cbv zeta. rewrite <- str_app_assoc, trim_suffix_app.
  destruct (decide (s = "active")) as [->|Hs]; [done|]. rewrite decide_False.
  - reflexivity.
  - change "binding state active" with ("binding state " +:+ "active"). by intros ?%str_app_inj.
Qed.

Lemma parse_mac_line s cur active :
  parseISCLeaseLine ("hardware ethernet " +:+ s +:+ ";") cur active
  = (MkLease (l_ip cur) (normalizeMAC s) (l_hostname cur) (l_expires cur), active).
Proof.
  unfold parseISCLeaseLine. cbv zeta. rewrite <- str_app_assoc, trim_suffix_app.
  rewrite decide_False by done. by rewrite has_prefix_app, trim_prefix_app.
Qed.

Lemma trim_quotes s : no_byte is_quote s →
  trim_func is_quote (String "034" (s +:+ String "034" "")) = s.
Proof.
  intros Hs. unfold trim_func. cbn [trim_left_func]. change (is_quote "034") with true. cbn iota.
  destruct (decide (s = "")) as [->|Hne]; [reflexivity|].
  rewrite trim_left_app_no, trim_right_drop by done. by apply trim_right_no.
Qed.

Lemma parse_host_line s cur active : no_byte is_quote s →
  parseISCLeaseLine ("client-hostname " +:+ (String "034" s) +:+ String "034" ";") cur active
  = (MkLease (l_ip cur) (l_mac cur) s (l_expires cur), active).
Proof.
  intros Hs. unfold parseISCLeaseLine. cbv zeta.
  change (String "034" ";") with (String "034" "" +:+ ";").
  rewrite <- !str_app_assoc, trim_suffix_app, str_app_assoc.
  rewrite decide_False by done. rewrite has_prefix_app, trim_prefix_app.
  change (has_prefix ("client-hostname " +:+ _) "hardware ethernet ") with false. cbn iota.
  by rewrite str_app_cons, trim_quotes.
Qed.

(** Parsing one rendered block records its lease exactly when it is active. *)
Lemma isc_block_steps st b :
  block_ok b →
  isc_leases (foldl isc_step st (render_block b)) =
    (if decide (block_active b) then lease_put (isc_leases st) (block_lease b) else isc_leases st).
Proof.
  intros (Hv & Hst & Hmac & Hq). unfold render_block. cbn [foldl].
  rewrite isc_header_step by done.
  change ("  binding state " +:+ ib_state b +:+ ";")
    with ("  " +:+ String "b" "inding state " +:+ ib_state b +:+ ";").
  rewrite isc_stmt_step by done. change (String "b" "inding state ") with "binding state ".
  rewrite parse_state_line. cbn [isc_leases isc_cur isc_active].
  change ("  hardware ethernet " +:+ ib_mac b +:+ ";")
    with ("  " +:+ String "h" "ardware ethernet " +:+ ib_mac b +:+ ";").
  rewrite isc_stmt_step by done. change (String "h" "ardware ethernet ") with "hardware ethernet ".
  cbn [isc_leases isc_cur isc_active]. rewrite parse_mac_line, Hmac. cbn [l_ip l_mac l_hostname l_expires].
  assert ("  client-hostname " +:+ String "034" (ib_host b +:+ String "034" ";")
    = "  " +:+ String "c" "lient-hostname " +:+ (String "034" (ib_host b) +:+ String "034" "") +:+ ";") as ->.
  { by rewrite str_app_assoc, (str_app_cons "034"). }
  rewrite isc_stmt_step by done. cbn [isc_leases isc_cur isc_active].
  rewrite str_app_assoc. change (String "034" "" +:+ ";") with (String "034" ";").
  change (String "c" "lient-hostname ") with "client-hostname ". rewrite parse_host_line by done.
  cbn [isc_leases isc_cur isc_active l_ip l_mac l_hostname l_expires].
  rewrite isc_close_step by done. cbn [isc_leases isc_cur isc_active l_ip].
  rewrite (bool_decide_eq_false_2 (addr4_string (ib_addr b) = "")).
  2: { intros He. pose proof (parse_addr4_string _ Hv) as H. by rewrite He in H. }
  rewrite andb_true_r. unfold block_active. by destruct (decide _).
Qed.

Lemma isc_blocks_steps bs st :
  Forall block_ok bs →
  isc_leases (foldl isc_step st (concat (map render_block bs))) =
    foldl lease_put (isc_leases st) (map block_lease (filter block_active bs)).
Proof.
  intros Hbs. revert st. induction Hbs as [|b bs Hb _ IH]; intros st; [done|].
  cbn [map concat]. rewrite foldl_app, IH, isc_block_steps by done.
  destruct (decide (block_active b)).
  - by rewrite filter_cons_True.
  - by rewrite filter_cons_False.
Qed.

(** From a lease file of well-formed blocks the ISC parser recovers the
    active leases with their address, hardware address and name: one per
    address, the last active block of that address. A later block that ended
    the lease leaves the earlier active one in place. *)
Theorem parseISCLeases_blocks data bs :
  scan_lines data = concat (map render_block bs) → Forall block_ok bs →
  let ls := map block_lease (filter block_active bs) in
  NoDup (map l_ip (parseISCLeases data)) ∧
  (∀ l, l ∈ parseISCLeases data ↔ ∃ l1 l2, ls = l1 ++ l :: l2 ∧ l_ip l ∉ map l_ip l2).
Proof.
  intros Hdata Hbs. unfold parseISCLeases. rewrite Hdata, isc_blocks_steps by done.
  by apply collectLeases_spec.
Qed.

Definition example_blocks : list isc_block :=
  [IscBlock 3232235786 "active" "00:11:22:33:44:55" "laptop";
   IscBlock 3232235786 "free" "00:11:22:33:44:55" "laptop"].
Definition newline : string := String "010" "".

Lemma parseISCLeases_blocks_witness :
  NoDup (map l_ip (parseISCLeases (join newline (concat (map render_block example_blocks))))) ∧
  block_lease (IscBlock 3232235786 "active" "00:11:22:33:44:55" "laptop")
    ∈ parseISCLeases (join newline (concat (map render_block example_blocks))).
Proof.
  destruct (parseISCLeases_blocks
    (join newline (concat (map render_block example_blocks))) example_blocks) as [Hnd Hin].
  - vm_compute. reflexivity.
  - repeat (apply Forall_cons; split); [..|by apply Forall_nil];
      (split_and!; [vm_compute; congruence|vm_compute; congruence| |vm_compute; reflexivity|];
       intros [[] [] [] [] [] [] [] []]; vm_compute; intros; congruence).
  - split; [done|]. apply Hin. exists [], []. split; [vm_compute; reflexivity|apply not_elem_of_nil].
Defined.

(** ** The backend's contract *)

Section contract.
Context `{GoText}.

Lemma scopeFromTargets_elem targets ps p :
  scopeFromTargets targets = Ok ps → p ∈ ps →
  ∃ t, t ∈ targets ∧
    ((∃ q, parse_prefix t = Some q ∧ p = prefix_masked q) ∨
     (∃ a, parse_addr t = Some a ∧ p = PrefixFrom a (bit_len a))).
Proof.
  revert ps. induction targets as [|t ts IH]; intros ps; simpl.
  - intros [= <-] Hp. by apply not_elem_of_nil in Hp.
  - destruct (parse_prefix t) as [q|] eqn:Hq.
    + destruct (scopeFromTargets ts) as [qs|]; [|done]. intros [= <-] [->|Hp]%elem_of_cons.
      * exists t. split; [by left|left; eauto].
      * destruct (IH qs eq_refl Hp) as (u & Hu & Hor). exists u. split; [by right|done].
    + destruct (parse_addr t) as [a|] eqn:Ha; [|done].
      destruct (scopeFromTargets ts) as [qs|]; [|done]. intros [= <-] [->|Hp]%elem_of_cons.
      * exists t. split; [by left|right; eauto].
      * destruct (IH qs eq_refl Hp) as (u & Hu & Hor). exists u. split; [by right|done].
Qed.

Lemma scopedIPv4_targets targets ps ip :
  scopeFromTargets targets = Ok ps → scopedIPv4 ip ps = true → in_targets targets ip.
Proof.
  intros Hps. unfold scopedIPv4. destruct (parse_addr ip) as [[v|]|] eqn:Hip; [|done..].
  simpl. intros (p & Hp & Hc)%existsb_elem.
  destruct (scopeFromTargets_elem _ _ _ Hps Hp) as (t & Ht & [(q & Hq & ->)|(a & Ha & ->)]).
  - apply prefix_contains_masked4 in Hc as [H4 Hc]; eauto using parse_addr_wf4, parse_prefix4_wf.
    exists v, t. split_and!; [done..|]. left. by exists q.
  - destruct a as [w|]; [|done]. exists v, t. split_and!; [done..|]. right.
    unfold prefix_contains in Hc. cbn in Hc. change (32 - bit_len (Addr4 w)) with 0 in Hc.
    rewrite Z.shiftr_0_r in Hc. apply Z.eqb_eq, Z.lxor_eq in Hc. by subst.
Qed.

(** The DHCP backend reports only addresses the job targets. *)
#[export] Instance DHCPDiscoverer_target_scoped read format now :
  TargetScoped (DHCPDiscoverer_Discover read format now).
Proof.
  intros job o. unfold DHCPDiscoverer_Discover.
  destruct (decide _); [by intros ?%not_elem_of_nil|].
  destruct (scopeFromTargets (job_Targets job)) as [scope|e] eqn:Hscope; [|by intros ?%not_elem_of_nil].
  destruct read as [| |data]; [by intros ?%not_elem_of_nil..|].
  destruct (parseLeases data format) as [ls|e]; [|by intros ?%not_elem_of_nil].
  cbn [out_obs]. intros (l & _ & Ho)%list_elem_of_omap. unfold lease_observation in Ho.
  destruct (scopedIPv4 (l_ip l) scope) eqn:Hs; [|done]. injection Ho as <-.
  by eapply scopedIPv4_targets.
Qed.
End contract.
