(* ===== verification/Snmp.v ===== *)
(** * The SNMP backend: [internal/scanner/agent/snmp.go]

    The decoders of walked rows, the ARP harvest, the device inventory and the
    [arp_table] and [snmp_inventory] halves of [SNMPDiscoverer.Discover]. The
    session to a device ([snmpSession], gosnmp behind it) is a parameter. *)

From S2P Require Import Prelude GoStrings Netip Macaddr Protocol Discovery.
Local Open Scope Z_scope.

(** ** PDUs

    A [gosnmp.SnmpPDU] is its OID and a value of dynamic type: the types the
    program's type switches name, and any other. *)
Inductive pdu_value : Type :=
| VBytes (raw : list ascii)
| VString (s : string)
| VInt (z : Z)       (** [int], [int32], [int64] *)
| VUint (z : Z)      (** [uint], [uint32], [uint64] *)
| VOther.

Record SnmpPDU : Type := MkPDU { Name : string; Value : pdu_value }.

Record snmpSession : Type := MkSession
  { Connect : option string;
    Get : list string → result string (list SnmpPDU);
    BulkWalkAll : string → result string (list SnmpPDU) }.

(** ** OIDs *)

Definition ipNetToMediaPhysAddress : string := "1.3.6.1.2.1.4.22.1.2".
Definition oidSysDescr : string := "1.3.6.1.2.1.1.1.0".
Definition oidSysObjectID : string := "1.3.6.1.2.1.1.2.0".
Definition oidSysUpTime : string := "1.3.6.1.2.1.1.3.0".
Definition oidSysContact : string := "1.3.6.1.2.1.1.4.0".
Definition oidSysName : string := "1.3.6.1.2.1.1.5.0".
Definition oidSysLocation : string := "1.3.6.1.2.1.1.6.0".
Definition oidIPAdEntIfIndex : string := "1.3.6.1.2.1.4.20.1.2".
Definition oidIfPhysAddress : string := "1.3.6.1.2.1.2.2.1.6".
Definition oidIfDescr : string := "1.3.6.1.2.1.2.2.1.2".
Definition oidIfOperStatus : string := "1.3.6.1.2.1.2.2.1.8".
Definition oidDot1dBasePortIfIndex : string := "1.3.6.1.2.1.17.1.4.1.2".
Definition oidDot1qPvid : string := "1.3.6.1.2.1.17.7.1.4.5.1.1".
Definition oidDot1qVlanStaticName : string := "1.3.6.1.2.1.17.7.1.4.3.1.1".
Definition oidEntPhysicalClass : string := "1.3.6.1.2.1.47.1.1.1.1.5".
Definition oidEntPhysicalSerialNum : string := "1.3.6.1.2.1.47.1.1.1.1.11".
Definition entPhysicalClassChassis : Z := 3.

Definition SNMPv2c : string := "2c".

Record SNMPConfig : Type := MkSNMPConfig
  { sc_Version : string; sc_Community : string; sc_Port : Z; sc_Timeout : Z; sc_Retries : Z }.

Definition SNMPConfig_withDefaults (c : SNMPConfig) : SNMPConfig :=
  MkSNMPConfig
    (if decide (sc_Version c = "") then SNMPv2c else sc_Version c)
    (if decide (trim_space (sc_Community c) = "") then "public" else sc_Community c)
    (if sc_Port c =? 0 then 161 else sc_Port c)
    (if sc_Timeout c <=? 0 then 5000000000 else sc_Timeout c)
    (if sc_Retries c <? 0 then 0 else sc_Retries c).

(** ** Decoders *)

(** The loop over four decimal octets. *)
Fixpoint octet_values (l : list string) : option (list Z) :=
  match l with
  | [] => Some []
  | p :: l =>
      v ← atoi p;
      if (v <? 0) || (255 <? v) then None else vs ← octet_values l; Some (v :: vs)
  end.

Definition ipv4FromOIDSuffix (oid : string) : option string :=
  let parts := split_on "."%char (trim_prefix oid ".") in
  if decide (length parts < 4)%nat then None
  else (λ os, addr4_string (of_octets os)) <$> octet_values (drop (length parts - 4) parts).

Definition ipFromARPOID (oid : string) : option string := ipv4FromOIDSuffix oid.

Definition lastOIDSubID (oid : string) : option Z :=
  p ← last (split_on "."%char (trim_prefix oid "."));
  n ← atoi p;
  if n <? 0 then None else Some n.

Definition ifIndexFromOIDSuffix (oid : string) : option Z := lastOIDSubID oid.

(** [int(v)] of an unsigned 64-bit value wraps. *)
Definition intFromPDU (pdu : SnmpPDU) : option Z :=
  match Value pdu with
  | VInt z => Some z
  | VUint z => Some (wrap64 z)
  | _ => None
  end.

Definition operStatus (pdu : SnmpPDU) : string :=
  match intFromPDU pdu with
  | Some 1 => "up"
  | Some 2 => "down"
  | _ => ""
  end.

Definition macFromPDU (pdu : SnmpPDU) : option string :=
  match Value pdu with
  | VBytes raw =>
      if negb (length raw =? 6)%nat then None
      else if forallb (λ b, byte_val b =? 0) raw then None
      else Some (join ":" (map hex_byte raw))
  | _ => None
  end.

Definition normalizeOID (oid : string) : string := trim_prefix oid ".".

Definition octetString (pdu : SnmpPDU) : string :=
  match Value pdu with VBytes raw => str_of_list raw | VString s => s | _ => "" end.

Definition oidValue (pdu : SnmpPDU) : string :=
  match Value pdu with VString s => normalizeOID s | _ => "" end.

Definition singleLine (s : string) : string := join " " (fields s).

Definition classifyOSFamily (sysDescr : string) : string :=
  let d := to_lower sysDescr in
  if decide (d = "") then ""
  else if contains d "windows" then "Windows"
  else if contains d "cisco ios" || contains d "cisco nx-os" || contains d "cisco adaptive security"
  then "Cisco IOS"
  else if contains d "junos" || contains d "juniper" then "JunOS"
  else if contains d "routeros" || contains d "mikrotik" then "RouterOS"
  else if contains d "darwin" then "macOS"
  else if contains d "freebsd" || contains d "openbsd" || contains d "netbsd" then "BSD"
  else if contains d "linux" then "Linux"
  else "".

(** Hundredths of a second, divided as Go divides; [ticks] is
    [gosnmp.ToBigInt(v).Int64()]. *)
Definition formatUptime (ticks : Z) : string :=
  let secs := Z.quot ticks 100 in
  if secs <=? 0 then ""
  else
    let days := secs / 86400 in
    let hrs := secs mod 86400 / 3600 in
    let mins := secs mod 3600 / 60 in
    if 0 <? days then itoa days +:+ "d " +:+ itoa hrs +:+ "h " +:+ itoa mins +:+ "m"
    else if 0 <? hrs then itoa hrs +:+ "h " +:+ itoa mins +:+ "m"
    else itoa mins +:+ "m".

Definition usableSerial (serial : string) : bool :=
  negb (bool_decide (to_lower (trim_space serial) ∈
    [""; "n/a"; "na"; "none"; "unknown"; "0"; "default string"; "to be filled by o.e.m."])).

(** The loop over the sorted indexes. *)
Fixpoint chassis_pick (classes : gmap Z Z) (serials : gmap Z string) (indexes : list Z)
    (fallback : string) : string :=
  match indexes with
  | [] => fallback
  | idx :: rest =>
      let serial := default "" (serials !! idx) in
      if negb (usableSerial serial) then chassis_pick classes serials rest fallback
      else if default 0 (classes !! idx) =? entPhysicalClassChassis then serial
      else chassis_pick classes serials rest (if decide (fallback = "") then serial else fallback)
  end.

Definition chassisSerial (classes : gmap Z Z) (serials : gmap Z string) : string :=
  chassis_pick classes serials (merge_sort Z.le (map fst (map_to_list serials))) "".

(** ** The device inventory *)

Record inventoryAddr : Type := MkInvAddr { ia_ip : string; ia_ifIndex : Z; ia_hasIf : bool }.

Record deviceInventory : Type := MkInventory
  { sysName : string; sysDescr : string; sysObjectID : string; sysContact : string;
    sysLocation : string; hwSerial : string; sysUpTime : string;
    ifMAC : gmap Z string; ifDescr : gmap Z string; ifOper : gmap Z string;
    ifVLAN : gmap Z Z; vlanName : gmap Z string; addrs : list inventoryAddr }.

Definition ev_snmp (summary : string) : Evidence := MkEvidence "snmp" summary "".

Definition when {A} (b : bool) (x : A) : list A := if b then [x] else [].
Definition nonempty (s : string) : bool := negb (bool_decide (s = "")).

Definition inventory_evidence (inv : deviceInventory) (addr : inventoryAddr) (target : string)
    : list Evidence :=
  let idx := itoa (ia_ifIndex addr) in
  let name := default "" (ifDescr inv !! ia_ifIndex addr) in
  let status := default "" (ifOper inv !! ia_ifIndex addr) in
  let vlan := default 0 (ifVLAN inv !! ia_ifIndex addr) in
  let vname := default "" (vlanName inv !! vlan) in
  [MkEvidence "snmp" ("SNMP inventory from " +:+ target) (sysDescr inv)] ++
  (if ia_hasIf addr then
     let label := if nonempty name then name +:+ " (ifIndex " +:+ idx +:+ ")" else "ifIndex " +:+ idx in
     let label := if nonempty status then label +:+ ", " +:+ status else label in
     [ev_snmp ("Interface " +:+ label)] ++
     when (0 <? vlan)
       (ev_snmp ("VLAN " +:+ itoa vlan +:+ (if nonempty vname then " (" +:+ vname +:+ ")" else "")))
   else []) ++
  when (nonempty (sysLocation inv)) (ev_snmp ("Location: " +:+ sysLocation inv)) ++
  when (nonempty (sysContact inv)) (ev_snmp ("Contact: " +:+ sysContact inv)) ++
  when (nonempty (sysUpTime inv)) (ev_snmp ("Uptime: " +:+ sysUpTime inv)) ++
  when (nonempty (sysObjectID inv)) (MkEvidence "snmp" "sysObjectID" (sysObjectID inv)) ++
  when (nonempty (hwSerial inv)) (ev_snmp ("Hardware serial: " +:+ hwSerial inv)).

Definition inventory_observation (inv : deviceInventory) (addr : inventoryAddr) (now : Z)
    (target : string) : Observation :=
  {| obs_IP := ia_ip addr;
     obs_MAC := if ia_hasIf addr then default "" (ifMAC inv !! ia_ifIndex addr) else "";
     obs_Vendor := ""; obs_Hostname := sysName inv;
     obs_OSFamily := classifyOSFamily (sysDescr inv); obs_OSDetail := sysDescr inv;
     obs_VLAN := if ia_hasIf addr then default 0 (ifVLAN inv !! ia_ifIndex addr) else 0;
     obs_HWSerial := hwSerial inv; obs_HWObjectID := sysObjectID inv;
     obs_Services := []; obs_Evidence := inventory_evidence inv addr target;
     obs_ObservedAt := now |}.

(** A best-effort walk: the rows folded into [init], or [init] when it fails. *)
Definition walk_into {S} (session : snmpSession) (oid : string) (step : S → SnmpPDU → S) (init : S) : S :=
  match BulkWalkAll session oid with Ok pdus => foldl step init pdus | Err _ => init end.

(** [if idx, ok := key(pdu.Name); ok { if v, ok := value(pdu); ok { m[idx] = v } }] *)
Definition put_row {V} (value : SnmpPDU → option V) (m : gmap Z V) (pdu : SnmpPDU) : gmap Z V :=
  match lastOIDSubID (Name pdu), value pdu with
  | Some idx, Some v => <[idx := v]> m
  | _, _ => m
  end.

Definition nonempty_string (s : string) : option string := if nonempty s then Some s else None.

Section walks.
(** [gosnmp.ToBigInt(v).Int64()] *)
Context (ToInt64 : pdu_value → Z).

(** One scalar of the system group. *)
Definition put_system (inv : deviceInventory) (pdu : SnmpPDU) : deviceInventory :=
  let '(MkInventory name descr oid contact loc serial up mac de op vl vn ad) := inv in
  let n := normalizeOID (Name pdu) in
  if decide (n = oidSysDescr) then
    MkInventory name (singleLine (octetString pdu)) oid contact loc serial up mac de op vl vn ad
  else if decide (n = oidSysObjectID) then
    MkInventory name descr (oidValue pdu) contact loc serial up mac de op vl vn ad
  else if decide (n = oidSysUpTime) then
    MkInventory name descr oid contact loc serial (formatUptime (ToInt64 (Value pdu))) mac de op vl vn ad
  else if decide (n = oidSysContact) then
    MkInventory name descr oid (singleLine (octetString pdu)) loc serial up mac de op vl vn ad
  else if decide (n = oidSysName) then
    MkInventory (singleLine (octetString pdu)) descr oid contact loc serial up mac de op vl vn ad
  else if decide (n = oidSysLocation) then
    MkInventory name descr oid contact (singleLine (octetString pdu)) serial up mac de op vl vn ad
  else inv.

Definition put_addr (l : list inventoryAddr) (pdu : SnmpPDU) : list inventoryAddr :=
  match ipv4FromOIDSuffix (Name pdu), intFromPDU pdu with
  | Some ip, Some ifIndex => l ++ [MkInvAddr ip ifIndex true]
  | _, _ => l
  end.

(** The access VLAN of each interface, joined through its bridge port. *)
Definition put_pvid (portToIf : gmap Z Z) (m : gmap Z Z) (pdu : SnmpPDU) : gmap Z Z :=
  match lastOIDSubID (Name pdu), intFromPDU pdu with
  | Some port, Some vlan =>
      if vlan <=? 0 then m
      else match portToIf !! port with Some ifIndex => <[ifIndex := vlan]> m | None => m end
  | _, _ => m
  end.

Definition walkVLANs (session : snmpSession) : gmap Z Z * gmap Z string :=
  let portToIf := walk_into session oidDot1dBasePortIfIndex (put_row intFromPDU) ∅ in
  (walk_into session oidDot1qPvid (put_pvid portToIf) ∅,
   walk_into session oidDot1qVlanStaticName
     (put_row (λ pdu, nonempty_string (singleLine (octetString pdu)))) ∅).

Context (dial : string → result string snmpSession).

(** [dial] then [Connect], with the error texts of the two callers. *)
Definition open_session (target : string) : result string snmpSession :=
  match dial target with
  | Err e => Err ("snmp dial " +:+ target +:+ ": " +:+ e)
  | Ok session =>
      match Connect session with
      | Some e => Err ("snmp connect " +:+ target +:+ ": " +:+ e)
      | None => Ok session
      end
  end.

Definition walkInventory (target : string) : result string deviceInventory :=
  session ← open_session target;
  let inv := MkInventory "" "" "" "" "" "" "" ∅ ∅ ∅ ∅ ∅ [] in
  match Get session [oidSysDescr; oidSysObjectID; oidSysUpTime; oidSysContact; oidSysName;
                     oidSysLocation] with
  | Err e => Err ("snmp get system " +:+ target +:+ ": " +:+ e)
  | Ok vars =>
      let inv := foldl put_system inv vars in
      let '(vlans, vnames) := walkVLANs session in
      let classes := walk_into session oidEntPhysicalClass (put_row intFromPDU) ∅ in
      let serials := walk_into session oidEntPhysicalSerialNum
                       (put_row (λ pdu, Some (singleLine (octetString pdu)))) ∅ in
      Ok {| sysName := sysName inv; sysDescr := sysDescr inv; sysObjectID := sysObjectID inv;
            sysContact := sysContact inv; sysLocation := sysLocation inv;
            hwSerial := chassisSerial classes serials; sysUpTime := sysUpTime inv;
            ifMAC := walk_into session oidIfPhysAddress (put_row macFromPDU) ∅;
            ifDescr := walk_into session oidIfDescr
                         (put_row (λ pdu, nonempty_string (singleLine (octetString pdu)))) ∅;
            ifOper := walk_into session oidIfOperStatus
                        (put_row (λ pdu, nonempty_string (operStatus pdu))) ∅;
            ifVLAN := vlans; vlanName := vnames;
            addrs := walk_into session oidIPAdEntIfIndex put_addr [] |}
  end.

(** ** The ARP harvest *)

Record arpEntry : Type := MkArp { arp_ip : string; arp_mac : string }.

Definition parseARPPDUs (pdus : list SnmpPDU) : list arpEntry :=
  omap (λ pdu, ip ← ipFromARPOID (Name pdu); mac ← macFromPDU pdu; Some (MkArp ip mac)) pdus.

Definition walkARP (target : string) : result string (list arpEntry) :=
  session ← open_session target;
  match BulkWalkAll session ipNetToMediaPhysAddress with
  | Err e => Err ("snmp walk " +:+ target +:+ ": " +:+ e)
  | Ok pdus => Ok (parseARPPDUs pdus)
  end.

(** Observations and errors so far, and the addresses already recorded. *)
Record harvest : Type := MkHarvest
  { h_obs : list Observation; h_errs : list ScanError; h_index : gset string }.

Definition harvest_init : harvest := MkHarvest [] [] ∅.

Definition harvest_fail (st : harvest) (target e : string) : harvest :=
  MkHarvest (h_obs st) (h_errs st ++ [MkScanError "snmp_failed" e target]) (h_index st).

(** Appends an observation unless its address is already recorded. *)
Definition harvest_add (st : harvest) (o : Observation) : harvest :=
  if decide (obs_IP o ∈ h_index st) then st
  else MkHarvest (h_obs st ++ [o]) (h_errs st) ({[obs_IP o]} ∪ h_index st).

Definition arp_observation (now : Z) (target : string) (e : arpEntry) : Observation :=
  MkObservation (arp_ip e) (arp_mac e) "" "" "" "" 0 "" "" []
    [ev_snmp ("ARP/neighbor entry from gateway " +:+ target)] now.

Definition arp_target (scope : list Prefix) (now : Z) (st : harvest) (target : string) : harvest :=
  match walkARP target with
  | Err e => harvest_fail st target e
  | Ok entries =>
      foldl (λ st e, if scopedIPv4 (arp_ip e) scope
                     then harvest_add st (arp_observation now target e) else st) st entries
  end.

Definition discoverARP (ctx : Ctx) (job : ScanJob) (scope : list Prefix) (now : Z) : Outcome :=
  let '(st, err) := target_loop ctx (arp_target scope now) 0 (job_Targets job) harvest_init in
  MkOutcome (h_obs st) (h_errs st) err.

(** The closure [add]: the new state, and whether the address is in scope. *)
Definition inventory_add (scope : list Prefix) (now : Z) (inv : deviceInventory) (target : string)
    (st : harvest) (addr : inventoryAddr) : harvest * bool :=
  if scopedIPv4 (ia_ip addr) scope
  then (harvest_add st (inventory_observation inv addr now target), true)
  else (st, false).

Definition inventory_target (scope : list Prefix) (now : Z) (st : harvest) (target : string) : harvest :=
  match walkInventory target with
  | Err e => harvest_fail st target e
  | Ok inv =>
      let '(st, inScope) :=
        foldl (λ '(st, inScope) addr,
                 let '(st, ok) := inventory_add scope now inv target st addr in
                 (st, inScope || ok)) (st, false) (addrs inv) in
      if (inScope : bool) then st
      else (inventory_add scope now inv target st (MkInvAddr target 0 false)).1
  end.

Definition discoverInventory (ctx : Ctx) (job : ScanJob) (scope : list Prefix) (now : Z) : Outcome :=
  let '(st, err) := target_loop ctx (inventory_target scope now) 0 (job_Targets job) harvest_init in
  MkOutcome (h_obs st) (h_errs st) err.
End walks.

(** ** Lemmas: decoding rows *)

Lemma split_on_app_all c x y : split_on c (x +:+ String c y) = split_on c x ++ split_on c y.
Proof.
  induction x as [|a x IH].
  - rewrite str_app_nil_l. cbn [split_on]. by rewrite decide_True.
  - rewrite str_app_cons. cbn [split_on]. rewrite IH. destruct (decide (a = c)); [done|].
    destruct (split_on c x) as [|w ws] eqn:Hs; [by apply split_on_nonempty in Hs|done].
Qed.

Lemma split_addr4 v : split_on "." (addr4_string v) = map itoa (octets4 v).
Proof.
  unfold addr4_string. apply split_join; [done|]. apply Forall_map, Forall_forall. intros b _.
  by apply itoa_no_sep.
Qed.

Lemma trim_dot s : trim_prefix (String "." s) "." = s.
Proof. unfold trim_prefix. by rewrite (proj2 (strip_prefix_Some "." (String "." s) s)). Qed.

(** A row OID that ends in an address: the parts before it, then its octets. *)
Lemma split_row_oid base v :
  ∃ l, split_on "." (trim_prefix (base +:+ "." +:+ addr4_string v) ".") = l ++ map itoa (octets4 v).
Proof.
  rewrite str_app_cons, str_app_nil_l. destruct base as [|c base].
  - exists []. rewrite str_app_nil_l, trim_dot. apply split_addr4.
  - destruct (decide (c = "."%char)) as [->|Hc].
    + exists (split_on "." base). by rewrite str_app_cons, trim_dot, split_on_app_all, split_addr4.
    + exists (split_on "." (String c base)).
      unfold trim_prefix. assert (strip_prefix "." (String c base +:+ String "." (addr4_string v)) = None) as ->.
      { rewrite str_app_cons. cbn [strip_prefix]. by rewrite decide_False. }
      cbn [default]. by rewrite split_on_app_all, split_addr4.
Qed.

Lemma octet_values_itoa os : Forall (λ b, 0 ≤ b < 256) os → octet_values (map itoa os) = Some os.
Proof.
  induction 1 as [|b os Hb _ IH]; [done|]. cbn [map octet_values].
  rewrite atoi_itoa by (unfold in_int64, int64_min, int64_max; lia). cbn [mbind option_bind].
  replace ((b <? 0) || (255 <? b)) with false by lia. by rewrite IH.
Qed.

Lemma ipv4FromOIDSuffix_row base v :
  0 ≤ v < 2 ^ 32 → ipv4FromOIDSuffix (base +:+ "." +:+ addr4_string v) = Some (addr4_string v).
Proof.
  intros Hv. unfold ipv4FromOIDSuffix. destruct (split_row_oid base v) as [l ->].
  rewrite decide_False by (rewrite length_app; simpl; lia).
  replace (drop _ _) with (map itoa (octets4 v)).
  - rewrite octet_values_itoa by apply octets4_range. cbn [fmap option_fmap option_map].
    by rewrite of_octets4.
  - rewrite length_app. replace (length l + _ - 4)%nat with (length l) by (simpl; lia).
    by rewrite drop_app_length.
Qed.

Lemma macFromPDU_Some pdu m :
  macFromPDU pdu = Some m →
  ∃ raw, Value pdu = VBytes raw ∧ length raw = 6%nat ∧ existsb (λ b, negb (byte_val b =? 0)) raw = true ∧
         m = Macaddr.mac_string (map byte_val raw).
Proof.
  unfold macFromPDU. destruct (Value pdu) as [raw| | | |]; [|done..].
  destruct (Nat.eqb_spec (length raw) 6) as [Hl|]; [|done]. cbn [negb].
  destruct (forallb _ raw) eqn:Hz; [done|]. intros [= <-]. exists raw. split_and!; [done|done| |].
  - apply not_false_is_true. intros He. assert (forallb (λ b, byte_val b =? 0) raw = true); [|congruence].
    apply forallb_forall. intros b Hb. destruct (byte_val b =? 0) eqn:Hbv; [done|].
    assert (existsb (λ b, negb (byte_val b =? 0)) raw = true); [|congruence].
    apply existsb_exists. exists b. by rewrite Hbv.
  - unfold Macaddr.mac_string. f_equal. rewrite map_map. apply map_ext. intros b. by rewrite byte_of_val.
Qed.

(** An ARP-table row decodes to the binding it encodes: under any column
    and interface index, a six-byte non-zero value yields the address of the
    row index and a text that reads back as those six bytes; any other value
    yields nothing. *)
Theorem parseARPPDUs_row column ifIndex v value :
  0 ≤ v < 2 ^ 32 →
  match parseARPPDUs [MkPDU (column +:+ "." +:+ itoa ifIndex +:+ "." +:+ addr4_string v) value] with
  | [e] => arp_ip e = addr4_string v ∧
           ∃ raw, value = VBytes raw ∧ Macaddr.parse_mac (arp_mac e) = Some (map byte_val raw)
  | l => l = [] ∧ ∀ raw, value = VBytes raw → length raw = 6%nat → Forall (λ b, byte_val b = 0) raw
  end.
Proof.
  intros Hv. unfold parseARPPDUs, ipFromARPOID. cbn [omap list_omap Name].
  rewrite <- (str_app_assoc "."), <- str_app_assoc, (ipv4FromOIDSuffix_row _ v Hv). cbn [mbind option_bind].
  destruct (macFromPDU _) as [m|] eqn:Hm; cbn [mbind option_bind].
  - apply macFromPDU_Some in Hm as (raw & Hval & Hl & _ & ->). split; [done|]. exists raw. split; [done|].
    apply Macaddr.parse_mac_string; [by rewrite length_map|].
    apply Forall_map, Forall_forall. intros b _. apply byte_val_range.
  - split; [done|]. intros raw Hraw Hl. revert Hm. unfold macFromPDU. cbn [Value]. rewrite Hraw, Hl.
    cbn [Nat.eqb negb]. destruct (forallb _ raw) eqn:Hz; [|done]. intros _. apply Forall_forall.
    intros b Hb%list_elem_of_In. rewrite forallb_forall in Hz. by apply Z.eqb_eq, Hz.
Qed.

Lemma parseARPPDUs_row_witness :
  parseARPPDUs [MkPDU ("1.3.6.1.2.1.4.22.1.2" +:+ "." +:+ itoa 7 +:+ "." +:+ addr4_string 3232235786)
                  (VBytes (map byte_of [0; 17; 34; 51; 68; 85]))]
  = [MkArp "192.168.1.10" "00:11:22:33:44:55"] ∧
  Macaddr.parse_mac "00:11:22:33:44:55" = Some (map byte_val (map byte_of [0; 17; 34; 51; 68; 85])).
Proof.
  pose proof (parseARPPDUs_row "1.3.6.1.2.1.4.22.1.2" 7 3232235786
    (VBytes (map byte_of [0; 17; 34; 51; 68; 85]))) as H.
  assert (0 ≤ 3232235786 < 2 ^ 32) as Hv by lia. specialize (H Hv).
  replace (parseARPPDUs _) with [MkArp "192.168.1.10" "00:11:22:33:44:55"] in * by (vm_compute; reflexivity).
  destruct H as [_ (raw & [= <-] & Hm)]. split; [done|exact Hm].
Defined.

(** ** Lemmas: the chassis serial *)

(** [idx] carries a usable serial, of a chassis row when [chassis] is set. *)
Definition serial_at (classes : gmap Z Z) (serials : gmap Z string) (chassis : bool) (idx : Z) (s : string) : Prop :=
  serials !! idx = Some s ∧ usableSerial s = true ∧
  (chassis = true → classes !! idx = Some entPhysicalClassChassis).

(** [s] is the serial of the lowest index that carries one. *)
Definition lowest_serial classes serials (chassis : bool) (s : string) : Prop :=
  ∃ idx, serial_at classes serials chassis idx s ∧
         ∀ j t, serial_at classes serials chassis j t → idx ≤ j.

Lemma usableSerial_nonempty s : usableSerial s = true → s ≠ "".
Proof. by intros H ->. Qed.

Lemma chassis_pick_spec classes serials l fb :
  StronglySorted Z.le l → (∀ i, i ∈ l → is_Some (serials !! i)) →
  let r := chassis_pick classes serials l fb in
  (∃ idx, idx ∈ l ∧ serial_at classes serials true idx r ∧
          ∀ j t, j ∈ l → serial_at classes serials true j t → idx ≤ j) ∨
  ((∀ j t, j ∈ l → ¬ serial_at classes serials true j t) ∧
   (if decide (fb = "") then
      (∃ idx, idx ∈ l ∧ serial_at classes serials false idx r ∧
              ∀ j t, j ∈ l → serial_at classes serials false j t → idx ≤ j) ∨
      (r = "" ∧ ∀ j t, j ∈ l → ¬ serial_at classes serials false j t)
    else r = fb)).
Proof.
  intros Hs Hsome. cbn zeta. revert fb. induction Hs as [|i l Hl IH Hi]; intros fb; cbn [chassis_pick].
  { right. split; [by intros ? ? ?%not_elem_of_nil|].
    destruct (decide (fb = "")) as [->|]; [|done]. right. split; [done|]. by intros ? ? ?%not_elem_of_nil. }
  destruct (Hsome i ltac:(by left)) as [s Hsi]. rewrite Hsi. cbn [default from_option id].
  assert (∀ i, i ∈ l → is_Some (serials !! i)) as Hsome' by (intros; apply Hsome; by right).
  specialize (IH Hsome').
  destruct (usableSerial s) eqn:Hu; cbn [negb].
  - destruct (Z.eqb_spec (default 0 (classes !! i)) entPhysicalClassChassis) as [Hc|Hc].
    + left. exists i. split; [by left|]. split.
      * split_and!; [done..|]. intros _. destruct (classes !! i); simpl in Hc; [by rewrite Hc|done].
      * intros j t [->|Hj]%elem_of_cons _; [lia|]. rewrite Forall_forall in Hi. auto.
    + assert (∀ t, ¬ serial_at classes serials true i t) as Hni.
      { intros t (_ & _ & Hcl). rewrite Hcl in Hc by done. done. }
      assert (serial_at classes serials false i s) as Hsi' by done.
      set (fb' := if decide (fb = "") then s else fb).
      assert (fb' ≠ "") as Hne.
      { unfold fb'. destruct (decide (fb = "")); [by apply usableSerial_nonempty|done]. }
      destruct (IH fb') as [(idx & Hidx & Hat & Hmin)|[Hno Hfb]].
      * left. exists idx. split; [by right|]. split; [done|].
        intros j t [->|Hj]%elem_of_cons Hj'; [by apply Hni in Hj'|eauto].
      * right. split; [intros j t [->|Hj]%elem_of_cons; [apply Hni|eauto]|].
        destruct (decide (fb' = "")); [done|]. rewrite Hfb. unfold fb'.
        destruct (decide (fb = "")); [|done]. left. exists i. split; [by left|]. split; [done|].
        intros j t [->|Hj]%elem_of_cons _; [lia|]. rewrite Forall_forall in Hi. auto.
  - assert (∀ b t, ¬ serial_at classes serials b i t) as Hni.
    { intros b t (Ht & Hut & _). congruence. }
    destruct (IH fb) as [(idx & Hidx & Hat & Hmin)|[Hno Hfb]].
    + left. exists idx. split; [by right|]. split; [done|].
      intros j t [->|Hj]%elem_of_cons Hj'; [by apply Hni in Hj'|eauto].
    + right. split; [intros j t [->|Hj]%elem_of_cons; [apply Hni|eauto]|].
      destruct (decide (fb = "")); [|done]. destruct Hfb as [(idx & Hidx & Hat & Hmin)|[Hr Hn]].
      * left. exists idx. split; [by right|]. split; [done|].
        intros j t [->|Hj]%elem_of_cons Hj'; [by apply Hni in Hj'|eauto].
      * right. split; [done|]. intros j t [->|Hj]%elem_of_cons; [apply Hni|eauto].
Qed.

(** The hardware serial identifies the unit: it is the usable serial of
    the lowest-indexed chassis row when some chassis row has one, else the
    lowest-indexed usable serial of any row, else nothing; a placeholder such
    as [N/A] is never chosen. *)
Theorem chassisSerial_spec classes serials :
  let r := chassisSerial classes serials in
  lowest_serial classes serials true r ∨
  ((∀ i s, ¬ serial_at classes serials true i s) ∧
   (lowest_serial classes serials false r ∨
    (r = "" ∧ ∀ i s, ¬ serial_at classes serials false i s))).
Proof.
  cbn zeta. unfold chassisSerial. set (l := merge_sort _ _).
  assert (∀ i, i ∈ l ↔ is_Some (serials !! i)) as Hl.
  { intros i. unfold l. rewrite (merge_sort_Permutation Z.le), list_elem_of_fmap. split.
    - intros ([k s] & -> & Hks%elem_of_map_to_list). by exists s.
    - intros [s Hs]. exists (i, s). split; [done|]. by apply elem_of_map_to_list. }
  assert (∀ b i s, serial_at classes serials b i s → i ∈ l) as Hin.
  { intros b i s (Hs & _). apply Hl. eauto. }
  destruct (chassis_pick_spec classes serials l "") as [(idx & Hidx & Hat & Hmin)|[Hno Hfb]].
  - apply Sorted_StronglySorted; [apply _|]. apply Sorted_merge_sort. apply _.
  - intros i. by rewrite Hl.
  - left. exists idx. eauto.
  - right. split; [intros i s H; by apply (Hno i s (Hin _ _ _ H))|].
    rewrite decide_True in Hfb by done. destruct Hfb as [(idx & Hidx & Hat & Hmin)|[Hr Hn]].
    + left. exists idx. eauto.
    + right. split; [done|]. intros i s H. by apply (Hn i s (Hin _ _ _ H)).
Qed.
