(* ===== verification/Neighbors.v ===== *)
(** * Link-layer neighbours: [internal/scanner/agent/neighbors.go]

    The CDP and LLDP tables of a device joined into neighbours, the [lldp_cdp]
    scan, and the whole of [SNMPDiscoverer.Discover] with its contract. *)

From S2P Require Import Prelude GoStrings Netip Protocol Discovery Merge Snmp.
Local Open Scope Z_scope.

Definition cdpCacheAddress : string := "1.3.6.1.4.1.9.9.23.1.2.1.1.4".
Definition cdpCacheVersion : string := "1.3.6.1.4.1.9.9.23.1.2.1.1.5".
Definition cdpCacheDeviceID : string := "1.3.6.1.4.1.9.9.23.1.2.1.1.6".
Definition cdpCacheDevicePort : string := "1.3.6.1.4.1.9.9.23.1.2.1.1.7".
Definition cdpCachePlatform : string := "1.3.6.1.4.1.9.9.23.1.2.1.1.8".
Definition lldpRemChassisIDSubtype : string := "1.0.8802.1.1.2.1.4.1.1.4".
Definition lldpRemChassisID : string := "1.0.8802.1.1.2.1.4.1.1.5".
Definition lldpRemPortID : string := "1.0.8802.1.1.2.1.4.1.1.7".
Definition lldpRemPortDesc : string := "1.0.8802.1.1.2.1.4.1.1.8".
Definition lldpRemSysName : string := "1.0.8802.1.1.2.1.4.1.1.9".
Definition lldpRemSysDesc : string := "1.0.8802.1.1.2.1.4.1.1.10".
Definition lldpRemManAddrIfId : string := "1.0.8802.1.1.2.1.4.2.1.4".
Definition lldpChassisSubtypeMAC : Z := 4.
Definition addrFamilyIPv4 : string := "1".

Record neighbor : Type := MkNeighbor
  { n_ip : string; n_mac : string; n_hostname : string; n_osDetail : string; n_osFamily : string;
    n_source : string; n_remotePort : string; n_platform : string; n_version : string }.

Definition neighbor_at (ip source : string) : neighbor := MkNeighbor ip "" "" "" "" source "" "" "".

Definition set_mac (v : string) (n : neighbor) : neighbor :=
  MkNeighbor (n_ip n) v (n_hostname n) (n_osDetail n) (n_osFamily n) (n_source n) (n_remotePort n)
    (n_platform n) (n_version n).
Definition set_hostname (v : string) (n : neighbor) : neighbor :=
  MkNeighbor (n_ip n) (n_mac n) v (n_osDetail n) (n_osFamily n) (n_source n) (n_remotePort n)
    (n_platform n) (n_version n).
Definition set_osDetail (v : string) (n : neighbor) : neighbor :=
  MkNeighbor (n_ip n) (n_mac n) (n_hostname n) v (n_osFamily n) (n_source n) (n_remotePort n)
    (n_platform n) (n_version n).
Definition set_osFamily (v : string) (n : neighbor) : neighbor :=
  MkNeighbor (n_ip n) (n_mac n) (n_hostname n) (n_osDetail n) v (n_source n) (n_remotePort n)
    (n_platform n) (n_version n).
Definition set_remotePort (v : string) (n : neighbor) : neighbor :=
  MkNeighbor (n_ip n) (n_mac n) (n_hostname n) (n_osDetail n) (n_osFamily n) (n_source n) v
    (n_platform n) (n_version n).
Definition set_platform (v : string) (n : neighbor) : neighbor :=
  MkNeighbor (n_ip n) (n_mac n) (n_hostname n) (n_osDetail n) (n_osFamily n) (n_source n)
    (n_remotePort n) v (n_version n).
Definition set_version (v : string) (n : neighbor) : neighbor :=
  MkNeighbor (n_ip n) (n_mac n) (n_hostname n) (n_osDetail n) (n_osFamily n) (n_source n)
    (n_remotePort n) (n_platform n) v.

Definition neighbor_observation (n : neighbor) (now : Z) (target : string) : Observation :=
  let proto := to_upper (n_source n) in
  MkObservation (n_ip n) (n_mac n) "" (n_hostname n) (n_osFamily n) (n_osDetail n) 0 "" "" []
    ([MkEvidence (n_source n) (proto +:+ " neighbor reported by " +:+ target) ""] ++
     when (nonempty (n_remotePort n)) (MkEvidence (n_source n) ("Remote port: " +:+ n_remotePort n) "") ++
     when (nonempty (n_platform n)) (MkEvidence (n_source n) ("Platform: " +:+ n_platform n) "") ++
     when (nonempty (n_version n)) (MkEvidence (n_source n) "Version" (n_version n))) now.

(** ** Row indexes *)

Definition oidSuffix (oid colOID : string) : option string :=
  strip_prefix (normalizeOID colOID +:+ ".") (normalizeOID oid).

Definition indexAfter (oid colOID : string) (want : nat) : option string :=
  suffix ← oidSuffix oid colOID;
  if decide (count_byte "." suffix + 1 = want)%nat then Some suffix else None.

Definition cdpCacheIndex (oid : string) : option string := indexAfter oid cdpCacheAddress 2.

Definition ipv4FromOctetValue (v : pdu_value) : option string :=
  match v with
  | VBytes [a; b; c; d] => Some (addr4_string (of_octets (map byte_val [a; b; c; d])))
  | _ => None
  end.

Definition parseLLDPManAddr (oid : string) : option (string * string) :=
  suffix ← oidSuffix oid lldpRemManAddrIfId;
  let parts := split_on "." suffix in
  if decide (length parts < 5)%nat then None
  else if decide (parts !! 3%nat ≠ Some addrFamilyIPv4 ∨ parts !! 4%nat ≠ Some "4" ∨
                  (length parts < 9)%nat) then None
  else
    os ← octet_values (take 4 (drop 5 parts));
    Some (join "." (take 3 parts), addr4_string (of_octets os)).

(** ** The two tables *)

(** The neighbours by row index, and the indexes in first-seen order. *)
Definition anchor : Type := gmap string neighbor * list string.

(** The rows of the anchoring column; [decode] gives a row's index and address. *)
Definition anchor_rows (source : string) (decode : SnmpPDU → option (string * string))
    (pdus : list SnmpPDU) : anchor :=
  foldl (λ '(m, order) pdu,
           match decode pdu with
           | None => (m, order)
           | Some (idx, ip) =>
               match m !! idx with
               | Some _ => (m, order)
               | None => (<[idx := neighbor_at ip source]> m, order ++ [idx])
               end
           end) (∅, []) pdus.

(** The closures [enrich] and [walkInto]: a column's non-empty values set on the
    neighbours their rows belong to. *)
Definition enrich (session : snmpSession) (want : nat) (colOID : string)
    (set : string → neighbor → neighbor) (m : gmap string neighbor) : gmap string neighbor :=
  walk_into session colOID
    (λ m pdu, match indexAfter (Name pdu) colOID want with
              | None => m
              | Some idx =>
                  let value := singleLine (octetString pdu) in
                  if nonempty value then alter (set value) idx m else m
              end) m.

Definition cdp_row (pdu : SnmpPDU) : option (string * string) :=
  idx ← cdpCacheIndex (Name pdu); ip ← ipv4FromOctetValue (Value pdu); Some (idx, ip).

Definition cdp_finish (n : neighbor) : neighbor :=
  let n := if decide (n_osDetail n = "") then set_osDetail (n_platform n) n else n in
  set_osFamily (classifyOSFamily (n_version n +:+ " " +:+ n_platform n)) n.

Definition collectCDP (session : snmpSession) : result string (list neighbor) :=
  match BulkWalkAll session cdpCacheAddress with
  | Err e => Err e
  | Ok addrPDUs =>
      let '(m, order) := anchor_rows "cdp" cdp_row addrPDUs in
      let m := enrich session 2 cdpCacheDeviceID set_hostname m in
      let m := enrich session 2 cdpCacheDevicePort set_remotePort m in
      let m := enrich session 2 cdpCachePlatform set_platform m in
      let m := enrich session 2 cdpCacheVersion set_version m in
      Ok (omap (λ idx, cdp_finish <$> m !! idx) order)
  end.

Definition put_subtype (st : gmap string Z) (pdu : SnmpPDU) : gmap string Z :=
  match indexAfter (Name pdu) lldpRemChassisIDSubtype 3, intFromPDU pdu with
  | Some key, Some v => <[key := v]> st
  | _, _ => st
  end.

Definition put_chassis (subtypes : gmap string Z) (m : gmap string neighbor) (pdu : SnmpPDU)
    : gmap string neighbor :=
  match indexAfter (Name pdu) lldpRemChassisID 3 with
  | None => m
  | Some key =>
      if default 0 (subtypes !! key) =? lldpChassisSubtypeMAC then
        match macFromPDU pdu with Some mac => alter (set_mac mac) key m | None => m end
      else m
  end.

Definition collectLLDP (session : snmpSession) : result string (list neighbor) :=
  match BulkWalkAll session lldpRemManAddrIfId with
  | Err e => Err e
  | Ok manPDUs =>
      let '(m, order) := anchor_rows "lldp" (λ pdu, parseLLDPManAddr (Name pdu)) manPDUs in
      if decide (order = []) then Ok []
      else
        let m := enrich session 3 lldpRemSysName set_hostname m in
        let m := enrich session 3 lldpRemSysDesc set_osDetail m in
        let m := enrich session 3 lldpRemPortID set_remotePort m in
        let m := enrich session 3 lldpRemPortDesc set_remotePort m in
        let subtypes := walk_into session lldpRemChassisIDSubtype put_subtype ∅ in
        let m := walk_into session lldpRemChassisID (put_chassis subtypes) m in
        Ok (omap (λ key, (λ n, set_osFamily (classifyOSFamily (n_osDetail n)) n) <$> m !! key) order)
  end.

(** ** The scan *)

Section discoverer.
Context `{GoText}.
Context (ToInt64 : pdu_value → Z) (dial : string → result string snmpSession).

(** The text of an error, for [%w]. *)
Definition err_text {A} (r : result string A) : string := match r with Ok _ => "" | Err e => e end.
Definition ok_list {A} (r : result string (list A)) : list A := match r with Ok l => l | Err _ => [] end.

Definition walkNeighbors (target : string) : result string (list neighbor) :=
  session ← open_session dial target;
  let cdp := collectCDP session in
  let lldp := collectLLDP session in
  if negb (is_ok cdp) && negb (is_ok lldp) then
    Err ("snmp neighbor walk " +:+ target +:+ ": " +:+ err_text cdp)
  else Ok (ok_list cdp ++ ok_list lldp).

Definition neighbor_target (scope : list Prefix) (now : Z)
    (st : list Observation * list ScanError) (target : string)
    : list Observation * list ScanError :=
  let '(raw, errs) := st in
  match walkNeighbors target with
  | Err e => (raw, errs ++ [MkScanError "snmp_failed" e target])
  | Ok neighbors =>
      (raw ++ map (λ n, neighbor_observation n now target)
                (filter (λ n, scopedIPv4 (n_ip n) scope = true) neighbors), errs)
  end.

Definition discoverNeighbors (ctx : Ctx) (job : ScanJob) (scope : list Prefix) (now : Z) : Outcome :=
  let '(st, err) := target_loop ctx (neighbor_target scope now) 0 (job_Targets job) ([], []) in
  MkOutcome (mergeObservations st.1) st.2 err.

Definition SNMPDiscoverer_Discover (version : string) (ctx : Ctx) (now : Z) : Discoverer :=
  λ job,
    if decide (job_Mode job = ModePassive) then MkOutcome [] [] None
    else if decide (version ≠ SNMPv2c) then
      fail ("SNMP version " +:+ quote version +:+ " is not supported yet (only v2c)")
    else if decide (job_Targets job = []) then fail "SNMP scan has no target devices"
    else match parseScopePrefixes (job_AllowedCIDRs job) with
         | Err e => fail ("parse job allowlist: " +:+ e)
         | Ok scope =>
             if decide (job_Type job = ScanSNMPInventory)
             then discoverInventory ToInt64 dial ctx job scope now
             else if decide (job_Type job = ScanLLDPCDP)
             then discoverNeighbors ctx job scope now
             else discoverARP dial ctx job scope now
         end.
End discoverer.

(** ** Lemmas: the join of the two LLDP tables *)

Lemma normalizeOID_digit c s : c ≠ "."%char → normalizeOID (String c s) = String c s.
Proof.
  intros Hc. unfold normalizeOID, trim_prefix.
  assert (strip_prefix "." (String c s) = None) as ->; [|done].
  cbn [strip_prefix]. by rewrite decide_False.
Qed.

Lemma oidSuffix_row c col suffix :
  c ≠ "."%char → oidSuffix (String c col +:+ "." +:+ suffix) (String c col) = Some suffix.
Proof.
  intros Hc. unfold oidSuffix. rewrite (normalizeOID_digit c col) by done.
  rewrite (str_app_cons c col ("." +:+ suffix)), normalizeOID_digit by done.
  rewrite <- (str_app_cons c col), <- str_app_assoc. apply strip_prefix_app.
Qed.

(** The key [lldpRemTable] and [lldpRemManAddrTable] share. *)
Definition lldp_key (timeMark localPort remIndex : Z) : string :=
  join "." (map itoa [timeMark; localPort; remIndex]).

Lemma count_lldp_key a b c : count_byte "." (lldp_key a b c) = 2%nat.
Proof.
  unfold lldp_key. cbn [map join]. rewrite !count_byte_app, !itoa_no_sep by done. done.
Qed.

(** The neighbour's address finds its neighbour: the management-address
    row of any IPv4 neighbour decodes to that address and to exactly the key
    under which every column of the remote table reports the same neighbour. *)
Theorem parseLLDPManAddr_join a b c v d col :
  0 ≤ v < 2 ^ 32 → d ≠ "."%char →
  parseLLDPManAddr (lldpRemManAddrIfId +:+ "." +:+ lldp_key a b c +:+ ".1.4." +:+ addr4_string v)
    = Some (lldp_key a b c, addr4_string v) ∧
  indexAfter (String d col +:+ "." +:+ lldp_key a b c) (String d col) 3 = Some (lldp_key a b c).
Proof.
  intros Hv Hd. split.
  - unfold parseLLDPManAddr.
    change lldpRemManAddrIfId with (String "1" ".0.8802.1.1.2.1.4.2.1.4").
    rewrite oidSuffix_row by done. cbn [mbind option_bind].
    set (key := [itoa a; itoa b; itoa c]).
    assert (lldp_key a b c +:+ ".1.4." +:+ addr4_string v
            = join "." (key ++ ["1"; "4"] ++ map itoa (octets4 v))) as ->.
    { unfold lldp_key, key, addr4_string, octets4. cbn [map app join]. by rewrite !str_app_assoc. }
    rewrite (split_join "."%char) by
      (done || (apply Forall_app; split; [|apply Forall_app; split];
        [by repeat (apply Forall_cons; split); [apply itoa_no_sep..|apply Forall_nil]
        |by repeat constructor
        |apply Forall_map, Forall_forall; intros; by apply itoa_no_sep])).
    rewrite decide_False by (simpl; lia). rewrite decide_False by (intros [H|[H|H]]; [done|done|simpl in H; lia]).
    change (take 4 (drop 5 _)) with (map itoa (octets4 v)).
    rewrite octet_values_itoa by apply octets4_range. cbn [mbind option_bind].
    by rewrite of_octets4.
  - unfold indexAfter. rewrite oidSuffix_row by done. cbn [mbind option_bind].
    by rewrite count_lldp_key.
Qed.

Lemma parseLLDPManAddr_join_witness :
  parseLLDPManAddr "1.0.8802.1.1.2.1.4.2.1.4.0.7.2.1.4.192.168.1.10" = Some ("0.7.2", "192.168.1.10") ∧
  indexAfter "1.0.8802.1.1.2.1.4.1.1.9.0.7.2" lldpRemSysName 3 = Some "0.7.2".
Proof.
  apply (parseLLDPManAddr_join 0 7 2 3232235786 "1" ".0.8802.1.1.2.1.4.1.1.9"); [lia|done].
Defined.

(** ** The backend's contract *)

Section contract.
Context `{GoText} (ToInt64 : pdu_value → Z) (dial : string → result string snmpSession).

(** The state of the ARP and inventory loops. *)
Definition harvest_ok (cidrs : list string) (st : harvest) : Prop :=
  (∀ o, o ∈ h_obs st → in_allowlist cidrs (obs_IP o)) ∧ NoDup (map obs_IP (h_obs st)) ∧
  ∀ o, o ∈ h_obs st → obs_IP o ∈ h_index st.

Lemma harvest_init_ok cidrs : harvest_ok cidrs harvest_init.
Proof. split_and!; [by intros ? ?%not_elem_of_nil|constructor|by intros ? ?%not_elem_of_nil]. Qed.

Lemma harvest_fail_ok cidrs st t e : harvest_ok cidrs st → harvest_ok cidrs (harvest_fail st t e).
Proof. done. Qed.

Lemma harvest_add_ok cidrs st o :
  in_allowlist cidrs (obs_IP o) → harvest_ok cidrs st → harvest_ok cidrs (harvest_add st o).
Proof.
  intros Ho (Hs & Hn & Hi). unfold harvest_add. destruct (decide _) as [|Hni]; [done|].
  split_and!; cbn [h_obs h_index].
  - intros o' [?| ->%list_elem_of_singleton]%elem_of_app; auto.
  - rewrite map_app. apply NoDup_app. split; [done|]. split; [|apply NoDup_singleton].
    intros ip (o' & -> & Ho')%list_elem_of_fmap Heq%list_elem_of_singleton. apply Hni.
    rewrite <- Heq. auto.
  - intros o' [?| ->%list_elem_of_singleton]%elem_of_app; set_solver.
Qed.

Lemma foldl_inv {A B} (P : A → Prop) (f : A → B → A) l a :
  P a → (∀ a b, P a → P (f a b)) → P (foldl f a l).
Proof. intros Ha Hf. revert a Ha. induction l as [|b l IH]; intros a Ha; [done|]. apply IH, Hf, Ha. Qed.

Lemma arp_target_ok cidrs scope now st t :
  parseScopePrefixes cidrs = Ok scope → harvest_ok cidrs st →
  harvest_ok cidrs (arp_target dial scope now st t).
Proof.
  intros Hscope Hst. unfold arp_target. destruct (walkARP dial t) as [es|e]; [|by apply harvest_fail_ok].
  apply foldl_inv; [done|]. intros st' e Hst'. destruct (scopedIPv4 (arp_ip e) scope) eqn:Hs; [|done].
  apply harvest_add_ok; [|done]. by eapply scopedIPv4_allowlist.
Qed.

Lemma inventory_add_ok cidrs scope now inv t st a :
  parseScopePrefixes cidrs = Ok scope → harvest_ok cidrs st →
  harvest_ok cidrs (inventory_add scope now inv t st a).1.
Proof.
  intros Hscope Hst. unfold inventory_add. destruct (scopedIPv4 (ia_ip a) scope) eqn:Hs; [|done].
  apply harvest_add_ok; [|done]. by eapply scopedIPv4_allowlist.
Qed.

Lemma inventory_target_ok cidrs scope now st t :
  parseScopePrefixes cidrs = Ok scope → harvest_ok cidrs st →
  harvest_ok cidrs (inventory_target ToInt64 dial scope now st t).
Proof.
  intros Hscope Hst. unfold inventory_target.
  destruct (walkInventory ToInt64 dial t) as [inv|e]; [|by apply harvest_fail_ok].
  set (f := λ '(st, inScope) addr, _).
  assert (harvest_ok cidrs (foldl f (st, false) (addrs inv)).1) as Hfold.
  { apply (foldl_inv (λ p, harvest_ok cidrs p.1)); [done|]. intros [st' ok] a Hst'. unfold f.
    pose proof (inventory_add_ok cidrs scope now inv t st' a Hscope Hst') as Ha.
    by destruct (inventory_add scope now inv t st' a). }
  destruct (foldl f (st, false) (addrs inv)) as [st' []]; [done|]. by apply inventory_add_ok.
Qed.

Lemma neighbors_ok cidrs scope now ctx i targets st :
  parseScopePrefixes cidrs = Ok scope →
  (∀ o, o ∈ st.1 → in_allowlist cidrs (obs_IP o)) →
  ∀ o, o ∈ (target_loop ctx (neighbor_target dial scope now) i targets st).1.1 →
    in_allowlist cidrs (obs_IP o).
Proof.
  intros Hscope Hst. apply (target_loop_inv (λ st : list Observation * list ScanError,
    ∀ o, o ∈ st.1 → in_allowlist cidrs (obs_IP o))); [done|].
  intros [raw errs] t _ Hraw. unfold neighbor_target.
  destruct (walkNeighbors dial t) as [ns|e]; [|done]. cbn [fst].
  intros o [?|(n & -> & [Hn _]%list_elem_of_filter)%list_elem_of_fmap]%elem_of_app; [by apply Hraw|].
  by eapply scopedIPv4_allowlist.
Qed.

Lemma SNMPDiscoverer_ok version ctx now job :
  let out := SNMPDiscoverer_Discover ToInt64 dial version ctx now job in
  NoDup (map obs_IP (out_obs out)) ∧
  ∀ o, o ∈ out_obs out → in_allowlist (job_AllowedCIDRs job) (obs_IP o).
Proof.
  cbn zeta. assert (NoDup (map obs_IP []) ∧
    ∀ o, o ∈ [] → in_allowlist (job_AllowedCIDRs job) (obs_IP o)) as Hnil.
  { split; [constructor|by intros ? ?%not_elem_of_nil]. }
  unfold SNMPDiscoverer_Discover. repeat (destruct (decide _); [exact Hnil|]).
  destruct (parseScopePrefixes (job_AllowedCIDRs job)) as [scope|e] eqn:Hscope; [|exact Hnil].
  destruct (decide (job_Type job = ScanSNMPInventory)); [|destruct (decide _)].
  - unfold discoverInventory.
    assert (harvest_ok (job_AllowedCIDRs job)
      (target_loop ctx (inventory_target ToInt64 dial scope now) 0 (job_Targets job) harvest_init).1)
      as (Hs & Hn & _).
    { apply target_loop_inv; [apply harvest_init_ok|]. intros. by apply inventory_target_ok. }
    by destruct (target_loop _ _ _ _ _).
  - unfold discoverNeighbors.
    pose proof (neighbors_ok _ scope now ctx 0 (job_Targets job) ([], []) Hscope) as Hin.
    destruct (target_loop _ _ _ _ _) as [st err]. cbn [out_obs fst] in *. split.
    + rewrite mergeObservations_IPs. apply NoDup_first_seen.
    + intros o Ho. assert (obs_IP o ∈ map obs_IP st.1) as (o' & Heq & Ho')%list_elem_of_fmap.
      { apply (list_elem_of_fmap_2 obs_IP) in Ho. change (fmap obs_IP) with (map obs_IP) in Ho.
        rewrite mergeObservations_IPs in Ho. by apply elem_of_first_seen in Ho as [? _]. }
      rewrite Heq. apply Hin; [by intros ? ?%not_elem_of_nil|done].
  - unfold discoverARP.
    assert (harvest_ok (job_AllowedCIDRs job)
      (target_loop ctx (arp_target dial scope now) 0 (job_Targets job) harvest_init).1) as (Hs & Hn & _).
    { apply target_loop_inv; [apply harvest_init_ok|]. intros. by apply arp_target_ok. }
    by destruct (target_loop _ _ _ _ _).
Qed.

#[export] Instance SNMPDiscoverer_scoped version ctx now :
  Scoped (SNMPDiscoverer_Discover ToInt64 dial version ctx now).
Proof. intros job o. apply SNMPDiscoverer_ok. Qed.

(** Whatever the devices answer, an SNMP scan of any of its three kinds
    reports each address at most once and none outside the job's allowlist. *)
Theorem SNMPDiscoverer_contract version ctx now job :
  let out := SNMPDiscoverer_Discover ToInt64 dial version ctx now job in
  NoDup (map obs_IP (out_obs out)) ∧
  ∀ o, o ∈ out_obs out → in_allowlist (job_AllowedCIDRs job) (obs_IP o).
Proof. apply SNMPDiscoverer_ok. Qed.
End contract.
