(* ===== verification/Dns.v ===== *)
(** * DNS enrichment: [internal/scanner/agent/dns.go]

    The reverse-then-forward lookup of one address and the [dns_lookup] scan.
    The resolver ([NameResolver]) is a parameter. *)

From S2P Require Import Prelude GoStrings Netip Protocol Discovery Names.
Local Open Scope Z_scope.

(** [None] is a lookup error. *)
Record NameResolver : Type := MkResolver
  { LookupAddr : string → option (list string);
    LookupHost : string → option (list string) }.

(** The first usable name of the answers: trimmed, without its final dot. *)
Fixpoint first_name (names : list string) : string :=
  match names with
  | [] => ""
  | n :: ns => let n := trim_suffix (trim_space n) "." in if decide (n ≠ "") then n else first_name ns
  end.

Section discoverer.
Context `{GoText} (resolve : NameResolver).

Definition forwardConfirms (name ip : string) : bool :=
  match LookupHost resolve name with
  | None => false
  | Some addrs => bool_decide (ip ∈ addrs)
  end.

Definition dns_lookup (ip : string) (now : Z) : option Observation :=
  names ← LookupAddr resolve ip;
  let name := first_name names in
  if decide (name = "") then None
  else
    let summary := "Reverse DNS (PTR): " +:+ name +:+
      (if forwardConfirms name ip then " (forward-confirmed)"
       else " (forward lookup did not confirm)") in
    Some (MkObservation ip "" "" name "" "" 0 "" "" [] [MkEvidence "dns" summary ""] now).

Definition dns_target (scope : list Prefix) (now : Z)
    (st : list Observation * list ScanError) (target : string)
    : list Observation * list ScanError :=
  let '(obs, errs) := st in
  match parse_addr target with
  | Some (Addr4 v) =>
      if negb (withinScope (Addr4 v) scope) then st
      else match dns_lookup target now with
           | Some o => (obs ++ [o], errs)
           | None => (obs, errs ++ [MkScanError "dns_unresolved" "no PTR record for this address" target])
           end
  | _ => (obs, errs ++ [MkScanError "dns_unresolved"
           "DNS lookup needs single-host targets (cannot resolve a CIDR)" target])
  end.

Definition DNSDiscoverer_Discover (ctx : Ctx) (now : Z) : Discoverer :=
  λ job,
    if decide (job_Mode job = ModePassive) then MkOutcome [] [] None
    else if decide (job_Targets job = []) then fail "DNS lookup has no target hosts"
    else match parseScopePrefixes (job_AllowedCIDRs job) with
         | Err e => fail ("parse job allowlist: " +:+ e)
         | Ok scope =>
             let '(st, err) := target_loop ctx (dns_target scope now) 0 (job_Targets job) ([], []) in
             MkOutcome st.1 st.2 err
         end.

Lemma dns_lookup_IP ip now o : dns_lookup ip now = Some o → obs_IP o = ip.
Proof.
  unfold dns_lookup. destruct (LookupAddr resolve ip) as [ns|]; cbn; [|done].
  destruct (decide _); [done|]. by intros [= <-].
Qed.

(** The DNS backend reports only addresses of the job's allowlist. *)
#[export] Instance DNSDiscoverer_scoped ctx now : Scoped (DNSDiscoverer_Discover ctx now).
Proof.
  intros job o. unfold DNSDiscoverer_Discover.
  destruct (decide _); [by intros ?%not_elem_of_nil|].
  destruct (decide _); [by intros ?%not_elem_of_nil|].
  destruct (parseScopePrefixes (job_AllowedCIDRs job)) as [scope|e] eqn:Hscope;
    [|by intros ?%not_elem_of_nil].
  pose proof (target_loop_inv
    (λ st : list Observation * list ScanError,
       ∀ o, o ∈ st.1 → in_allowlist (job_AllowedCIDRs job) (obs_IP o))
    ctx (dns_target scope now) 0 (job_Targets job) ([], [])) as Hinv.
  destruct (target_loop _ _ _ _ _) as [st err]. simpl in *. intros Ho. revert o Ho. apply Hinv.
  - by intros o ?%not_elem_of_nil.
  - clear Hinv st err. intros [obs errs] t _ IH. unfold dns_target.
    destruct (parse_addr t) as [[v|]|] eqn:Ht; [|exact IH..].
    destruct (withinScope (Addr4 v) scope) eqn:Hw; [|exact IH]. cbn [negb].
    destruct (dns_lookup t now) as [o|] eqn:Hl; [|exact IH]. simpl in *.
    intros o' [Ho'| ->%list_elem_of_singleton]%elem_of_app; [by apply IH|].
    rewrite (dns_lookup_IP _ _ _ Hl). eapply scopedIPv4_allowlist; [exact Hscope|].
    unfold scopedIPv4. by rewrite Ht.
Qed.
End discoverer.
