(* ===== verification/Nmap.v ===== *)
(** * The nmap backend: [internal/scanner/agent/nmap.go]

    The egress plan (which targets are pinned to the scan source), the command
    lines of the two stages, the conversion of nmap's report and the staged scan.
    Running nmap and decoding its XML are parameters. *)

From S2P Require Import Prelude GoStrings Netip Protocol Budget Discovery Merge.
Local Open Scope Z_scope.

(** ** Egress *)

Definition PinAuto : string := "auto".
Definition PinAlways : string := "always".
Definition PinOff : string := "off".

Definition ParsePinMode (s : string) : string :=
  let m := to_lower (trim_space s) in
  if decide (m = PinAlways) then PinAlways
  else if decide (m = PinOff) then PinOff
  else PinAuto.

Record EgressOptions : Type := MkEgress
  { eg_Interface : string; eg_SourceIP : string; eg_PinMode : string; eg_SourceNet : option IPNet }.

Definition egress_args (e : EgressOptions) : list string :=
  (if decide (trim_space (eg_Interface e) ≠ "") then ["-e"; eg_Interface e] else []) ++
  (if decide (trim_space (eg_SourceIP e) ≠ "") then ["-S"; eg_SourceIP e] else []).

Definition effectivePinMode (e : EgressOptions) : string :=
  if decide (eg_PinMode e = "") then PinAuto else eg_PinMode e.

Definition withoutPin (e : EgressOptions) : EgressOptions :=
  MkEgress "" "" (eg_PinMode e) (eg_SourceNet e).

Definition pinConfigured (e : EgressOptions) : bool :=
  bool_decide (trim_space (eg_Interface e) ≠ "") || bool_decide (trim_space (eg_SourceIP e) ≠ "").

Inductive targetAdjacency : Type := adjacencyLocal | adjacencyRouted | adjacencyStraddle.

#[export] Instance targetAdjacency_eq_dec : EqDecision targetAdjacency.
Proof. solve_decision. Defined.

Definition classifyNets (srcNet tnet : IPNet) : targetAdjacency :=
  if ipnet_contains srcNet (ipn_ip tnet) && (ipn_ones srcNet <=? ipn_ones tnet) then adjacencyLocal
  else if ipnet_contains tnet (ipn_ip srcNet) && (ipn_ones tnet <? ipn_ones srcNet)
  then adjacencyStraddle
  else adjacencyRouted.

Definition classifyAdjacency (token : string) (srcNet : option IPNet) : targetAdjacency :=
  match srcNet with
  | None => adjacencyRouted
  | Some srcNet =>
      match net_parse_ip token with
      | Some ip => if ipnet_contains srcNet ip then adjacencyLocal else adjacencyRouted
      | None =>
          match net_parse_cidr token with
          | Some tnet => classifyNets srcNet tnet
          | None => adjacencyRouted
          end
      end
  end.

Record egressSet : Type := MkEgressSet
  { es_targets : list string; es_egress : EgressOptions; es_pinned : bool }.
Record egressPlan : Type := MkEgressPlan { ep_sets : list egressSet; ep_notices : list ScanError }.

(** ** Reports *)

Record nmapPort : Type := MkNmapPort
  { np_Protocol : string; np_PortID : Z; np_State : string;
    np_Name : string; np_Product : string; np_Version : string }.
Record nmapOSMatch : Type := MkNmapOSMatch { om_Name : string; om_Classes : list string }.
(** An address is its text, its type and its vendor. *)
Record nmapHost : Type := MkNmapHost
  { nh_State : string; nh_Addresses : list (string * string * string);
    nh_Hostnames : list string; nh_Ports : list nmapPort; nh_OSMatches : list nmapOSMatch }.

(** The address loop: the IPv4 and MAC addresses and the vendor, the last one
    of each type winning. *)
Definition host_address (acc : string * string * string) (addr : string * string * string)
    : string * string * string :=
  let '(ip, mac, vendor) := acc in
  let '(a, type, v) := addr in
  if decide (type = "ipv4") then (a, mac, vendor)
  else if decide (type = "mac") then (ip, a, v)
  else acc.

Definition open_service (p : nmapPort) : option ServiceObservation :=
  if decide (np_State p ≠ "open") then None
  else Some (MkService (np_Protocol p) (np_PortID p) (np_State p) (np_Name p) (np_Product p) (np_Version p)).

Definition host_observation (now : Z) (host : nmapHost) : option Observation :=
  if decide (nh_State host ≠ "" ∧ nh_State host ≠ "up") then None
  else
    let '(ip, mac, vendor) := foldl host_address ("", "", "") (nh_Addresses host) in
    if decide (ip = "") then None
    else Some
      {| obs_IP := ip; obs_MAC := mac; obs_Vendor := vendor;
         obs_Hostname := default "" (head (nh_Hostnames host));
         obs_OSFamily := default "" (m ← head (nh_OSMatches host); head (om_Classes m));
         obs_OSDetail := default "" (om_Name <$> head (nh_OSMatches host));
         obs_VLAN := 0; obs_HWSerial := ""; obs_HWObjectID := "";
         obs_Services := omap open_service (nh_Ports host);
         obs_Evidence := if decide (vendor ≠ "") then [MkEvidence "nmap" ("MAC vendor: " +:+ vendor) ""] else [];
         obs_ObservedAt := now |}.

(** ** Command lines *)

Definition hostDiscoveryTimeoutSeconds : Z := 60.

Definition portArgsForMode (mode : string) : list string :=
  if decide (mode = ModeDeepActive) then ["-p-"] else ["--top-ports"; "1000"].
Definition versionAllForMode (mode : string) : bool := bool_decide (mode = ModeStandardActive).
Definition timingArgs (mode : string) (rateCapped : bool) : list string :=
  if decide (mode ≠ ModeDeepActive) then []
  else ["-T4"; "--max-retries"; "2"] ++ (if rateCapped then [] else ["--min-rate"; "1000"]).

Definition hostDiscoveryArgs (job : ScanJob) (egress : EgressOptions) : list string :=
  ["-oX"; "-"; "--privileged"; "-sn"; "-T4"] ++ egress_args egress ++
  ["--host-timeout"; itoa hostDiscoveryTimeoutSeconds +:+ "s"] ++ ["--"] ++ job_Targets job.

(** The probe flags of a scan type; [None] is the unsupported-type error. *)
Definition type_args (job : ScanJob) : option (list string) :=
  let versions := portArgsForMode (job_Mode job) ++
                  (if versionAllForMode (job_Mode job) then ["--version-all"] else []) in
  if decide (job_Type job = ScanServiceDetect) then Some ("-sV" :: versions)
  else if decide (job_Type job = ScanOSProbe) then
    Some ("-O" :: (if decide (job_Mode job ≠ ModeLightActive) then "-sV" :: versions else []))
  else if decide (job_Type job = ScanCombined) then Some ("-sV" :: "-O" :: versions)
  else None.

(** The options before the host list. *)
Definition serviceScanOptions (job : ScanJob) (egress : EgressOptions) (typeArgs : list string) : list string :=
  let rate := ProbesPerSecond (job_RateLimit job) in
  let rate := if (rate <=? 0) && negb (bool_decide (job_Mode job = ModeDeepActive)) then 100 else rate in
  ["-oX"; "-"; "--privileged"; "-Pn"] ++ egress_args egress ++
  (if 0 <? rate then ["--max-rate"; itoa rate] else []) ++
  (if 0 <? Concurrency (job_RateLimit job)
   then ["--max-parallelism"; itoa (Concurrency (job_RateLimit job))] else []) ++
  timingArgs (job_Mode job) (0 <? rate) ++
  (if 0 <? job_TimeoutSeconds job then ["--host-timeout"; itoa (job_TimeoutSeconds job) +:+ "s"] else []) ++
  typeArgs.

Definition observedIPs (observations : list Observation) : list string :=
  filter (λ ip, ip ≠ "") (map obs_IP observations).

Section nmap.
Context `{GoText}.
(** [IPNet.String] *)
Context (IPNet_String : IPNet → string).
(** One run of the binary: its standard output and, when it fails, the error. *)
Context (run : list string → string * option string).
(** [xml.Unmarshal] into [nmapRun]: the hosts, or an error. *)
Context (unmarshal : string → result string (list nmapHost)).

Definition ipNetString (n : option IPNet) : string :=
  match n with None => "(unknown)" | Some n => IPNet_String n end.

Definition straddle_notice (egress : EgressOptions) (t : string) : ScanError :=
  MkScanError CodeScanIgnored
    ("Target " +:+ t +:+ " straddles the scan source subnet " +:+ ipNetString (eg_SourceNet egress) +:+
     "; scanning it over the default route (unpinned). Split the in-subnet portion into its own target to pin it.") t.

Definition planEgress (egress : EgressOptions) (targets : list string) : egressPlan :=
  let mode := effectivePinMode egress in
  if negb (pinConfigured egress) || bool_decide (mode = PinOff) then
    MkEgressPlan [MkEgressSet targets (withoutPin egress) false] []
  else if decide (mode = PinAlways) then MkEgressPlan [MkEgressSet targets egress true] []
  else
    let adjacency t := classifyAdjacency t (eg_SourceNet egress) in
    let pinned := filter (λ t, adjacency t = adjacencyLocal) targets in
    let unpinned := filter (λ t, adjacency t ≠ adjacencyLocal) targets in
    let notices := map (straddle_notice egress) (filter (λ t, adjacency t = adjacencyStraddle) targets) in
    MkEgressPlan
      ((if decide (pinned = []) then [] else [MkEgressSet pinned egress true]) ++
       (if decide (unpinned = []) then [] else [MkEgressSet unpinned (withoutPin egress) false]))
      notices.

Definition setHasRouted (targets : list string) (srcNet : option IPNet) : bool :=
  existsb (λ t, negb (bool_decide (classifyAdjacency t srcNet = adjacencyLocal))) targets.

Definition pinSourceLabel (e : EgressOptions) : string :=
  if decide (eg_SourceIP e ≠ "") then
    if decide (eg_Interface e ≠ "") then eg_SourceIP e +:+ " on " +:+ eg_Interface e else eg_SourceIP e
  else eg_Interface e.

Definition zeroHostNotice (egress : EgressOptions) (set : egressSet) : option ScanError :=
  if negb (pinConfigured egress) then None
  else
    let targets := join ", " (es_targets set) in
    let net := ipNetString (eg_SourceNet egress) in
    let msg :=
      if es_pinned set && setHasRouted (es_targets set) (eg_SourceNet egress) then
        "No live hosts discovered for " +:+ targets +:+ ". The scanner pins egress to " +:+
        pinSourceLabel egress +:+
        " (AGENT_SCAN_PIN_MODE=always), but the target is routed (outside the source subnet " +:+ net +:+
        "), so probes leave the wrong interface and replies are lost. Set AGENT_SCAN_PIN_MODE=auto, use bridge mode for routed scans, or place a scanner on the target VLAN."
      else if negb (es_pinned set) then
        "No live hosts discovered for " +:+ targets +:+
        " over the default route (unpinned). MAC discovery needs layer-2 adjacency, so a routed subnet yields no MACs this way — scan its gateway with arp_table/snmp_inventory, or place a scanner on that VLAN."
      else "No live hosts discovered for " +:+ targets +:+ " on the pinned source segment " +:+ net +:+ "." in
    Some (MkScanError CodeScanIgnored msg "").

Definition serviceScanArgs (job : ScanJob) (egress : EgressOptions) (hosts : list string)
    : result string (list string) :=
  if decide (hosts = []) then Err "service scan has no live hosts"
  else match type_args job with
       | None => Err ("unsupported scan type " +:+ quote (job_Type job))
       | Some typeArgs => Ok (serviceScanOptions job egress typeArgs ++ ["--"] ++ hosts)
       end.

Definition parseNmapXML (now : Z) (data : string) : result string (list Observation) :=
  if decide (data = "") then Ok []
  else match unmarshal data with
       | Err e => Err ("parse nmap xml: " +:+ e)
       | Ok hosts => Ok (omap (host_observation now) hosts)
       end.

Definition runNmap (now : Z) (args : list string)
    : result string (list Observation * list ScanError) :=
  let '(out, runErr) := run args in
  match runErr, parseNmapXML now out with
  | Some e, Ok (o :: os) => Ok (o :: os, [MkScanError "nmap_partial" e ""])
  | Some e, _ => Err e
  | None, Err e => Err e
  | None, Ok os => Ok (os, [])
  end.

Definition with_targets (job : ScanJob) (targets : list string) : ScanJob :=
  MkScanJob (job_ID job) (job_AgentID job) (job_RequestedBy job) (job_Type job) (job_Mode job)
    (job_AllowedCIDRs job) targets (job_Ports job) (job_RateLimit job) (job_TimeoutSeconds job)
    (job_CreatedAt job).

Definition discoverSet (now : Z) (job : ScanJob) (targets : list string) (egress : EgressOptions)
    : result string (list Observation * list ScanError) :=
  let setJob := with_targets job targets in
  '(alive, errs) ← runNmap now (hostDiscoveryArgs setJob egress);
  if decide (job_Type job = ScanHostDiscovery) then Ok (alive, errs)
  else if decide (alive = []) then Ok ([], errs)
  else
    scanArgs ← serviceScanArgs setJob egress (observedIPs alive);
    '(scanned, scanErrs) ← runNmap now scanArgs;
    Ok (alive ++ scanned, errs ++ scanErrs).

(** The loop over the plan's sets; the first failing set fails the scan. *)
Fixpoint discover_sets (now : Z) (job : ScanJob) (egress : EgressOptions) (sets : list egressSet)
    (allObs : list Observation) (errs : list ScanError) : result string (list Observation * list ScanError) :=
  match sets with
  | [] => Ok (allObs, errs)
  | set :: sets =>
      '(obs, setErrs) ← discoverSet now job (es_targets set) (es_egress set);
      let notice := if decide (obs = []) then option_list (zeroHostNotice egress set) else [] in
      discover_sets now job egress sets (allObs ++ obs) (errs ++ notice ++ setErrs)
  end.

Definition NmapDiscoverer_Discover (egress : EgressOptions) (now : Z) : Discoverer :=
  λ job,
    if decide (job_Mode job = ModePassive) then MkOutcome [] [] None
    else if decide (job_Targets job = []) then fail "scan job has no targets"
    else
      let plan := planEgress egress (job_Targets job) in
      match discover_sets now job egress (ep_sets plan) [] (ep_notices plan) with
      | Err e => fail e
      | Ok (allObs, errs) => MkOutcome (mergeObservations allObs) errs None
      end.
End nmap.

(** ** Lemmas: adjacency *)

(** The source subnet as the code holds it: the interface's network. *)
Definition ipnet_of (q : Prefix) : IPNet := MkIPNet (pfx_addr q) (pfx_bits q) 32.

Lemma is4_inv a : is4 a = true → ∃ v, a = Addr4 v.
Proof. destruct a; [eauto|done]. Qed.

Section adjacency.
Context (q : Prefix) (Hq : prefix_wf q) (Hq4 : is4 (pfx_addr q) = true).

(** The block structure of two networks: nested one way, nested the other
    way, or disjoint. *)
Lemma classifyNets_spec p :
  prefix_wf p → is4 (pfx_addr p) = true →
  match classifyNets (ipnet_of q) (MkIPNet (pfx_addr (prefix_masked p)) (pfx_bits p) 32) with
  | adjacencyLocal => ∀ v, prefix_contains p (Addr4 v) = true → prefix_contains q (Addr4 v) = true
  | adjacencyRouted => ∀ v, prefix_contains p (Addr4 v) = true → prefix_contains q (Addr4 v) = false
  | adjacencyStraddle =>
      (∃ v, prefix_contains p (Addr4 v) = true ∧ prefix_contains q (Addr4 v) = true) ∧
      (∃ v, prefix_contains p (Addr4 v) = true ∧ prefix_contains q (Addr4 v) = false)
  end.
Proof using Hq Hq4.
  intros Hp Hp4. pose proof (host_bits_range p Hp Hp4). pose proof (host_bits_range q Hq Hq4).
  set (m := prefix_masked p).
  assert (prefix_wf m) as Hm by by apply prefix_masked_wf.
  assert (is4 (pfx_addr m) = true) as Hm4 by by (unfold m; rewrite prefix_masked_is4).
  assert (∀ v, prefix_contains m (Addr4 v) = prefix_contains p (Addr4 v)) as Hmp
    by (intros; by apply prefix_contains_masked).
  pose proof (host_bits_masked p) as Hhm. fold m in Hhm.
  pose proof (prefix_masked_bits p) as Hbm. fold m in Hbm.
  assert (ipn_ones (ipnet_of q) = pfx_bits q) as Hoq by done.
  assert (pfx_bits q ≤ pfx_bits p ↔ host_bits p ≤ host_bits q) as Hbits.
  { unfold host_bits, bit_len. rewrite Hp4, Hq4. lia. }
  destruct (is4_inv _ Hm4) as [a Ha]. destruct (is4_inv _ Hq4) as [b Hb].
  assert (0 ≤ a < 2 ^ 32) as Hra by (destruct Hm as [Hr _]; unfold addr_wf in Hr; by rewrite Ha in Hr).
  assert (0 ≤ b < 2 ^ 32) as Hrb by (destruct Hq as [Hr _]; unfold addr_wf in Hr; by rewrite Hb in Hr).
  unfold classifyNets. cbn [ipn_ip ipn_ones]. rewrite <- Hbm.
  assert (ipnet_contains (ipnet_of q) (pfx_addr m) = prefix_contains q (Addr4 a)) as ->.
  { rewrite Ha. by apply ipnet_contains4. }
  assert (ipnet_contains (MkIPNet (pfx_addr m) (pfx_bits m) 32) (ipn_ip (ipnet_of q))
          = prefix_contains p (Addr4 b)) as ->.
  { cbn [ipnet_of ipn_ip]. rewrite Hb, <- Hmp. by apply ipnet_contains4. }
  rewrite Hoq, Hbm.
  assert (prefix_contains p (Addr4 a) = true) as Hpa.
  { rewrite <- Hmp, <- Ha. by apply prefix_contains_self. }
  assert (prefix_contains q (Addr4 b) = true) as Hqb.
  { rewrite <- Hb. by apply prefix_contains_self. }
  assert (∀ v w, prefix_contains p (Addr4 v) = true → prefix_contains p (Addr4 w) = true →
    v / 2 ^ host_bits p = w / 2 ^ host_bits p) as Hpdiv.
  { intros v w. rewrite !prefix_contains4_div by done. congruence. }
  assert (∀ v w, prefix_contains q (Addr4 v) = true →
    (prefix_contains q (Addr4 w) = true ↔ v / 2 ^ host_bits q = w / 2 ^ host_bits q)) as Hqdiv.
  { intros v w. rewrite !prefix_contains4_div by done. split; congruence. }
  destruct (prefix_contains q (Addr4 a) && (pfx_bits q <=? pfx_bits p)) eqn:H1.
  - bool_hyps. intros v Hv. apply (Hqdiv a v); [done|].
    apply (div_pow2_coarser _ _ (host_bits p)); [tauto || lia|by apply Hpdiv].
  - destruct (prefix_contains p (Addr4 b) && (pfx_bits p <? pfx_bits q)) eqn:H2.
    + bool_hyps. split; [by exists b|].
      destruct (prefix_contains q (Addr4 (prefix_first p))) eqn:Hf.
      * exists (prefix_first p + prefix_count p - 1). rewrite prefix_contains4 by done.
        assert (0 < 2 ^ host_bits q) by (apply Z.pow_pos_nonneg; lia).
        assert (2 ^ host_bits q < 2 ^ host_bits p) by (apply Z.pow_lt_mono_r; tauto || lia).
        unfold prefix_count. split; [lia|]. apply not_true_is_false. intros Hl.
        rewrite prefix_contains4 in Hf, Hl by done. unfold prefix_count in *. lia.
      * exists (prefix_first p). split; [|done]. rewrite prefix_contains4 by done.
        assert (0 < 2 ^ host_bits p) by (apply Z.pow_pos_nonneg; lia). unfold prefix_count. lia.
    + intros v Hv. destruct (prefix_contains q (Addr4 v)) eqn:Hqv; [|done]. exfalso.
      destruct (Z.leb_spec (pfx_bits q) (pfx_bits p)).
      * assert (prefix_contains q (Addr4 a) = true) as Hc; [|by rewrite Hc in H1].
        apply (Hqdiv v a); [done|]. apply (div_pow2_coarser _ _ (host_bits p)); [lia|by apply Hpdiv].
      * assert (prefix_contains p (Addr4 b) = true) as Hc.
        { rewrite prefix_contains4_div by done. rewrite <- (proj1 (prefix_contains4_div p v Hp Hp4) Hv).
          apply (div_pow2_coarser _ _ (host_bits q)); [lia|]. symmetry. by apply (Hqdiv v b). }
        rewrite Hc in H2. bool_hyps. cbn in H2. lia.
Qed.
End adjacency.

Lemma net_parse_ip_addr t v : parse_addr t = Some (Addr4 v) → net_parse_ip t = Some (Addr4 v).
Proof. intros Ht. unfold net_parse_ip. by rewrite Ht. Qed.

Lemma classifyAdjacency_target q t :
  prefix_wf q → is4 (pfx_addr q) = true → ipv4_target t →
  match classifyAdjacency t (Some (ipnet_of q)) with
  | adjacencyLocal => ∀ v, target_covers t v → prefix_contains q (Addr4 v) = true
  | adjacencyRouted => ∀ v, target_covers t v → prefix_contains q (Addr4 v) = false
  | adjacencyStraddle =>
      (∃ v, target_covers t v ∧ prefix_contains q (Addr4 v) = true) ∧
      (∃ v, target_covers t v ∧ prefix_contains q (Addr4 v) = false)
  end.
Proof.
  intros Hq Hq4 [(p & Hp & Hp4)|(v & Hv)]; unfold classifyAdjacency.
  - pose proof (parse_addr_prefix_text _ _ Hp Hp4) as Hna. unfold net_parse_ip. rewrite Hna.
    cbn [mbind option_bind]. rewrite (net_parse_cidr_prefix _ _ Hp Hp4).
    assert (∀ v, target_covers t v ↔ prefix_contains p (Addr4 v) = true) as Hcov.
    { intros v. unfold target_covers, cidr_covers. rewrite Hna. split.
      - intros [(p' & Hp' & _ & Hc)|?]; [|done]. congruence.
      - intros Hc. left. eauto. }
    pose proof (classifyNets_spec q Hq Hq4 p (parse_prefix4_wf _ _ Hp Hp4) Hp4) as Hs.
    destruct (classifyNets _ _); setoid_rewrite Hcov; exact Hs.
  - rewrite (net_parse_ip_addr _ _ Hv).
    destruct (parse_addr4_inv _ _ Hv) as [Hr _].
    assert (∀ w, target_covers t w ↔ w = v) as Hcov.
    { intros w. unfold target_covers, cidr_covers. rewrite (parse_prefix_addr4 _ _ Hv), Hv.
      split; [by intros [(? & ? & _)|[= ->]]|intros ->; by right]. }
    unfold ipnet_of. rewrite ipnet_contains4 by done.
    destruct (prefix_contains q (Addr4 v)) eqn:Hc; intros w ->%Hcov; done.
Qed.

(** Adjacency is exact: a target is local when every address it names is
    in the source subnet, routed when none is, and straddling when some are and
    some are not; the three CIDR tests of the code decide this completely. *)
Theorem classifyAdjacency_spec q t :
  prefix_wf q → is4 (pfx_addr q) = true → ipv4_target t →
  match classifyAdjacency t (Some (ipnet_of q)) with
  | adjacencyLocal => ∀ v, target_covers t v → prefix_contains q (Addr4 v) = true
  | adjacencyRouted => ∀ v, target_covers t v → prefix_contains q (Addr4 v) = false
  | adjacencyStraddle =>
      (∃ v, target_covers t v ∧ prefix_contains q (Addr4 v) = true) ∧
      (∃ v, target_covers t v ∧ prefix_contains q (Addr4 v) = false)
  end.
Proof. apply classifyAdjacency_target. Qed.

Lemma classifyAdjacency_spec_witness :
  classifyAdjacency "192.168.0.0/16" (Some (ipnet_of (PrefixFrom (Addr4 3232235777) 24))) = adjacencyStraddle ∧
  ∃ v, target_covers "192.168.0.0/16" v ∧
       prefix_contains (PrefixFrom (Addr4 3232235777) 24) (Addr4 v) = false.
Proof.
  assert (classifyAdjacency "192.168.0.0/16" (Some (ipnet_of (PrefixFrom (Addr4 3232235777) 24)))
          = adjacencyStraddle) as He by (vm_compute; reflexivity).
  split; [exact He|].
  pose proof (classifyAdjacency_spec (PrefixFrom (Addr4 3232235777) 24) "192.168.0.0/16") as H.
  rewrite He in H. apply H.
  - repeat split; vm_compute; congruence.
  - reflexivity.
  - left. eexists. split; vm_compute; reflexivity.
Defined.

(** ** Lemmas: the egress plan *)

Lemma filter_split {A} (P : A → Prop) `{!∀ x, Decision (P x)} (l : list A) :
  filter P l ++ filter (λ x, ¬ P x) l ≡ₚ l.
Proof.
  induction l as [|x l IH]; [done|]. destruct (decide (P x)).
  - rewrite filter_cons_True, (filter_cons_False (λ x, ¬ P x)) by tauto. simpl. by rewrite IH.
  - rewrite filter_cons_False, (filter_cons_True (λ x, ¬ P x)) by tauto.
    by rewrite <- Permutation_middle, IH.
Qed.

Lemma egress_args_withoutPin e : egress_args (withoutPin e) = [].
Proof. done. Qed.

(** The plan is a partition: every target is scanned exactly once; a set
    that is not pinned carries no source flags and a pinned one carries the
    configured pin; and in the automatic mode a valid target is pinned exactly
    when all its addresses are in the source subnet. *)
Theorem planEgress_partition IPNet_String egress targets :
  let plan := planEgress IPNet_String egress targets in
  concat (map es_targets (ep_sets plan)) ≡ₚ targets ∧
  (∀ s, s ∈ ep_sets plan →
     if es_pinned s then es_egress s = egress else egress_args (es_egress s) = []) ∧
  (∀ q, pinConfigured egress = true → effectivePinMode egress = PinAuto →
     prefix_wf q → is4 (pfx_addr q) = true → eg_SourceNet egress = Some (ipnet_of q) →
     ∀ s t, s ∈ ep_sets plan → t ∈ es_targets s → ipv4_target t →
       (∃ v, target_covers t v) →
       es_pinned s = true ↔ ∀ v, target_covers t v → prefix_contains q (Addr4 v) = true).
Proof.
  cbn zeta. unfold planEgress.
  destruct (negb (pinConfigured egress) || bool_decide (effectivePinMode egress = PinOff)) eqn:Hoff.
  { cbn [ep_sets map concat es_targets]. rewrite app_nil_r. split_and!; [done| |].
    - intros s ->%list_elem_of_singleton. apply egress_args_withoutPin.
    - intros q Hpin Hauto. rewrite Hpin, Hauto in Hoff. done. }
  destruct (decide (effectivePinMode egress = PinAlways)) as [Halways|_].
  { cbn [ep_sets map concat es_targets]. rewrite app_nil_r. split_and!; [done| |].
    - by intros s ->%list_elem_of_singleton.
    - intros q Hpin Hauto. by rewrite Hauto in Halways. }
  cbn [ep_sets]. set (src := eg_SourceNet egress).
  set (pinned := filter (λ t, classifyAdjacency t src = adjacencyLocal) targets).
  set (unpinned := filter (λ t, classifyAdjacency t src ≠ adjacencyLocal) targets).
  assert (∀ s, s ∈ (if decide (pinned = []) then [] else [MkEgressSet pinned egress true]) ++
    (if decide (unpinned = []) then [] else [MkEgressSet unpinned (withoutPin egress) false]) →
    s = MkEgressSet pinned egress true ∨ s = MkEgressSet unpinned (withoutPin egress) false) as Hsets.
  { intros s Hs%elem_of_app. repeat destruct (decide _);
      rewrite ?list_elem_of_singleton, ?elem_of_nil in Hs; tauto. }
  split_and!.
  - transitivity (pinned ++ unpinned); [|apply filter_split].
    rewrite map_app, concat_app. f_equiv.
    + destruct (decide (pinned = [])) as [->|]; [done|]. simpl. by rewrite app_nil_r.
    + destruct (decide (unpinned = [])) as [->|]; [done|]. simpl. by rewrite app_nil_r.
  - intros s [->| ->]%Hsets; [done|apply egress_args_withoutPin].
  - intros q _ _ Hq Hq4 Hsrc s t Hs Ht H4 [w Hw].
    pose proof (classifyAdjacency_target q t Hq Hq4 H4) as Hcl. rewrite <- Hsrc in Hcl. fold src in Hcl.
    destruct (Hsets s Hs) as [->| ->]; cbn [es_targets es_pinned] in *.
    + apply list_elem_of_filter in Ht as [Hloc _]. rewrite Hloc in Hcl. done.
    + apply list_elem_of_filter in Ht as [Hloc _]. split; [done|]. intros Hall. exfalso.
      destruct (classifyAdjacency t src); [done| |].
      * specialize (Hcl w Hw). by rewrite Hall in Hcl.
      * destruct Hcl as [_ (v & Hv & Hn)]. by rewrite Hall in Hn.
Qed.
