(* ===== verification/Combined.v ===== *)
(** * The combined scan: [internal/scanner/agent/combined.go]

    The notice collector its worker pool shares, the best-effort passes, and
    [CombinedDiscoverer.Discover]. The workers run concurrently: each is the
    list of notices it records, and [schedule] is the order in which the mutex
    lets them through, any interleaving. *)

From S2P Require Import Prelude GoStrings Netip Protocol Discovery Merge Nmap.
Local Open Scope Z_scope.

(** ** The notice collector *)

Inductive note : Type :=
| NoteTarget (label : string)
| NoteWhole (label message : string).

#[export] Instance note_eq_dec : EqDecision note.
Proof. solve_decision. Defined.

Record noticeCollector : Type := MkCollector
  { perTarget : gmap string Z; wholePass : gmap string string }.

Definition collector_init : noticeCollector := MkCollector ∅ ∅.

(** [label+"\x00"+message] *)
Definition nul : ascii := "000"%char.
Definition whole_key (label message : string) : string := label +:+ String nul message.

Definition noteTarget (n : noticeCollector) (label : string) : noticeCollector :=
  MkCollector (<[label := default 0 (perTarget n !! label) + 1]> (perTarget n)) (wholePass n).

Definition noteWhole (n : noticeCollector) (label message : string) : noticeCollector :=
  MkCollector (perTarget n) (<[whole_key label message := label]> (wholePass n)).

Definition record_note (n : noticeCollector) (x : note) : noticeCollector :=
  match x with
  | NoteTarget label => noteTarget n label
  | NoteWhole label message => noteWhole n label message
  end.

(** [sort.Strings] of a map's keys. *)
Definition sorted_keys {A} (m : gmap string A) : list string :=
  merge_sort String.le (map fst (map_to_list m)).

Definition whole_notice (m : gmap string string) (k : string) : ScanError :=
  let label := default "" (m !! k) in
  let message := match cut_byte nul k with Some (_, message) => message | None => "" end in
  MkScanError CodeScanIgnored (label +:+ " skipped: " +:+ message) "".

Definition target_notice (m : gmap string Z) (label : string) : ScanError :=
  let count := default 0 (m !! label) in
  let host := if count =? 1 then "host" else "hosts" in
  MkScanError CodeScanIgnored
    (label +:+ " skipped: " +:+ itoa count +:+ " " +:+ host +:+ " did not respond") "".

Definition notices (n : noticeCollector) : list ScanError :=
  map (whole_notice (wholePass n)) (sorted_keys (wholePass n)) ++
  map (target_notice (perTarget n)) (sorted_keys (perTarget n)).

(** ** Host lists *)

Definition union_step (st : gset string * list string) (h : string) : gset string * list string :=
  let '(seen, out) := st in
  if decide (h = "" ∨ h ∈ seen) then st else ({[h]} ∪ seen, out ++ [h]).

Definition unionHosts (a b : list string) : list string :=
  (foldl union_step (foldl union_step (∅, []) a) b).2.

Definition hostTargets (targets : list string) : list string :=
  filter (λ t, is_ok (E:=unit) (of_option () (parse_addr t)) = true) targets.

(** ** The passes *)

Definition sub_job (job : ScanJob) (scanType mode : string) (targets : list string) : ScanJob :=
  MkScanJob (job_ID job) (job_AgentID job) (job_RequestedBy job) scanType mode
    (job_AllowedCIDRs job) targets (job_Ports job) (job_RateLimit job) (job_TimeoutSeconds job)
    (job_CreatedAt job).

Definition error_note (label : string) (e : ScanError) : note :=
  if decide (trim_space (se_Target e) ≠ "") then NoteTarget label else NoteWhole label (se_Message e).

(** A pass's observations and the notices it records, in order. *)
Definition runPass (d : Discoverer) (job : ScanJob) (targets : list string) (scanType label : string)
    : list Observation * list note :=
  if decide (targets = []) then ([], [])
  else
    let out := d (sub_job job scanType ModeDeepActive targets) in
    match out_err out with
    | Some e => ([], [NoteWhole label e])
    | None => (out_obs out, map (error_note label) (out_errs out))
    end.

Section combined.
Context (nmap snmp names dns dhcp : Discoverer).

Definition enrichHost (job : ScanJob) (host : string) : list Observation * list note :=
  let '(inv, n1) := runPass snmp job [host] ScanSNMPInventory "SNMP inventory" in
  let '(arp, n2) := if decide (inv = []) then ([], [])
                    else runPass snmp job [host] ScanARPTable "ARP harvest" in
  let '(lldp, n3) := if decide (inv = []) then ([], [])
                     else runPass snmp job [host] ScanLLDPCDP "LLDP/CDP neighbors" in
  let '(nm, n4) := runPass names job [host] ScanNameLookup "name lookup" in
  let '(dn, n5) := runPass dns job [host] ScanDNSLookup "DNS lookup" in
  (inv ++ arp ++ lldp ++ nm ++ dn, n1 ++ n2 ++ n3 ++ n4 ++ n5).

(** The hosts whose worker is started: none after a cancelled poll. *)
Fixpoint started (ctx : Ctx) (i : nat) (hosts : list string) : list string :=
  match hosts with
  | [] => []
  | h :: hs => match ctx i with Some _ => [] | None => h :: started ctx (i + 1) hs end
  end.

Definition no_hosts_note : note :=
  NoteWhole "Per-host enrichment" "no live hosts discovered to query (SNMP, names, DNS)".

(** [schedule] turns the notices of the goroutines (the DHCP pass, then the
    per-host workers or the main one) into the order they are recorded in. *)
Definition enrich (ctx : Ctx) (schedule : list (list note) → list note) (job : ScanJob)
    (hosts : list string) : list Observation * list ScanError :=
  let '(dhcpObs, dhcpNotes) := runPass dhcp job (job_Targets job) ScanDHCPLeases "DHCP leases" in
  let workers := map (enrichHost job) (started ctx 0 hosts) in
  let hostNotes := if decide (hosts = []) then [[no_hosts_note]] else map snd workers in
  let nc := foldl record_note collector_init (schedule (dhcpNotes :: hostNotes)) in
  (concat (map fst workers) ++ dhcpObs, notices nc).

Definition CombinedDiscoverer_Discover (ctx : Ctx) (schedule : list (list note) → list note) : Discoverer :=
  λ job,
    let core := nmap (sub_job job ScanCombined ModeDeepActive (job_Targets job)) in
    match out_err core with
    | Some e => fail e
    | None =>
        let perHostTargets := unionHosts (observedIPs (out_obs core)) (hostTargets (job_Targets job)) in
        let '(enrichObs, enrichNotices) := enrich ctx schedule job perHostTargets in
        MkOutcome (mergeObservations (out_obs core ++ enrichObs)) (out_errs core ++ enrichNotices) None
    end.
End combined.

(** ** Lemmas: the collector does not depend on the schedule *)

Definition note_label (x : note) : string :=
  match x with NoteTarget l => l | NoteWhole l _ => l end.

(** The labels are constants without a NUL byte. *)
Definition note_ok (x : note) : Prop := count_byte nul (note_label x) = 0%nat.

Lemma whole_key_inj l m k o :
  count_byte nul l = 0%nat → count_byte nul k = 0%nat → whole_key l m = whole_key k o → l = k ∧ m = o.
Proof.
  intros Hl Hk H. apply (f_equal (cut_byte nul)) in H. unfold whole_key in H.
  rewrite !cut_byte_app in H by done. by injection H.
Qed.

Lemma record_note_comm n x y :
  note_ok x → note_ok y → record_note (record_note n x) y = record_note (record_note n y) x.
Proof.
  intros Hx Hy. destruct n as [pt wp], x as [l|l m], y as [k|k o]; cbn; try done;
    unfold noteTarget, noteWhole; cbn.
  - f_equal. destruct (decide (l = k)) as [->|Hne]; [done|].
    rewrite !lookup_insert_ne by done. by rewrite insert_insert_ne.
  - f_equal. destruct (decide (whole_key l m = whole_key k o)) as [He|Hne].
    + destruct (whole_key_inj l m k o Hx Hy He) as [-> ->]. done.
    + by rewrite insert_insert_ne.
Qed.

Lemma record_notes_permutation l1 l2 n :
  l1 ≡ₚ l2 → Forall note_ok l1 → foldl record_note n l1 = foldl record_note n l2.
Proof.
  intros Hp. revert n. induction Hp as [|x l1 l2 _ IH|x y l|l1 l2 l3 H12 IH12 _ IH23]; intros n Hok.
  - done.
  - inversion Hok; subst. cbn. by apply IH.
  - inversion Hok as [|? ? Hy Hl]; subst. inversion Hl; subst. cbn. by rewrite record_note_comm.
  - rewrite IH12 by done. apply IH23. by rewrite <- H12.
Qed.

Lemma runPass_notes_ok d job ts ty label :
  count_byte nul label = 0%nat → Forall note_ok (runPass d job ts ty label).2.
Proof.
  intros Hl. unfold runPass. destruct (decide _); [by apply Forall_nil|].
  destruct (out_err _); cbn [snd]; [by repeat constructor|].
  apply Forall_map, Forall_forall. intros e _. unfold error_note, note_ok. by destruct (decide _).
Qed.

(** ** Lemmas: hosts *)

Lemma union_step_spec l : (foldl union_step (∅, []) l) = (list_to_set (first_seen l), first_seen l).
Proof.
  induction l as [|h l IH] using rev_ind; [done|].
  rewrite foldl_app, IH, first_seen_snoc. cbn [foldl union_step].
  destruct (decide (h = "" ∨ h ∈ first_seen l)) as [Hd|Hd].
  - rewrite decide_True; [done|]. by rewrite elem_of_list_to_set.
  - rewrite decide_False by by rewrite elem_of_list_to_set. f_equal. set_solver.
Qed.

Lemma unionHosts_first_seen a b : unionHosts a b = first_seen (a ++ b).
Proof. unfold unionHosts. by rewrite <- foldl_app, union_step_spec. Qed.

Section contract.
Context (nmap snmp names dns dhcp : Discoverer).

Lemma enrichHost_notes_ok job h : Forall note_ok (enrichHost snmp names dns job h).2.
Proof.
  unfold enrichHost.
  pose proof (runPass_notes_ok snmp job [h] ScanSNMPInventory "SNMP inventory" eq_refl) as H1.
  pose proof (runPass_notes_ok snmp job [h] ScanARPTable "ARP harvest" eq_refl) as H2.
  pose proof (runPass_notes_ok snmp job [h] ScanLLDPCDP "LLDP/CDP neighbors" eq_refl) as H3.
  pose proof (runPass_notes_ok names job [h] ScanNameLookup "name lookup" eq_refl) as H4.
  pose proof (runPass_notes_ok dns job [h] ScanDNSLookup "DNS lookup" eq_refl) as H5.
  destruct (runPass _ _ _ ScanSNMPInventory _) as [inv n1].
  destruct (runPass _ _ _ ScanARPTable _), (runPass _ _ _ ScanLLDPCDP _),
    (runPass _ _ _ ScanNameLookup _), (runPass _ _ _ ScanDNSLookup _). cbn [snd] in *.
  destruct (decide (inv = [])); cbn [snd]; rewrite !Forall_app; split_and!; try done; by apply Forall_nil.
Qed.

Definition interleaves (schedule : list (list note) → list note) : Prop :=
  ∀ ls, schedule ls ≡ₚ concat ls.

Lemma enrich_schedule ctx s1 s2 job hosts :
  interleaves s1 → interleaves s2 →
  enrich snmp names dns dhcp ctx s1 job hosts = enrich snmp names dns dhcp ctx s2 job hosts.
Proof.
  intros H1 H2. unfold enrich.
  pose proof (runPass_notes_ok dhcp job (job_Targets job) ScanDHCPLeases "DHCP leases" eq_refl) as Hd.
  destruct (runPass dhcp job (job_Targets job) ScanDHCPLeases "DHCP leases") as [dhcpObs dn]. cbn [snd] in Hd.
  set (hn := if decide (hosts = []) then _ else _).
  assert (Forall note_ok (concat (dn :: hn))) as Hok.
  { cbn [concat]. apply Forall_app. split; [done|]. unfold hn. destruct (decide _).
    - by repeat constructor.
    - clear hn H1 H2. induction (started ctx 0 hosts) as [|h hs IH]; [by apply Forall_nil|].
      cbn. apply Forall_app. split; [apply enrichHost_notes_ok|exact IH]. }
  unfold interleaves in *. do 2 f_equal.
  apply record_notes_permutation; [by rewrite H1, H2|by rewrite H1].
Qed.

(** Scheduling does not matter: the worker goroutines may record their
    notices in any order, and the combined scan's observations, notices and
    error are the same. *)
Theorem CombinedDiscoverer_schedule ctx s1 s2 job :
  interleaves s1 → interleaves s2 →
  CombinedDiscoverer_Discover nmap snmp names dns dhcp ctx s1 job =
  CombinedDiscoverer_Discover nmap snmp names dns dhcp ctx s2 job.
Proof.
  intros H1 H2. unfold CombinedDiscoverer_Discover. destruct (out_err _); [done|].
  by rewrite (enrich_schedule ctx s1 s2).
Qed.

Lemma runPass_obs d job ts ty label o :
  o ∈ (runPass d job ts ty label).1 → o ∈ out_obs (d (sub_job job ty ModeDeepActive ts)).
Proof.
  unfold runPass. destruct (decide _); [by intros ?%not_elem_of_nil|].
  destruct (out_err _); [by intros ?%not_elem_of_nil|done].
Qed.

Context `{!Scoped snmp, !Scoped names, !Scoped dns, !TargetScoped dhcp, !TargetScoped nmap}.

Lemma runPass_scoped d `{!Scoped d} job ts ty label o :
  o ∈ (runPass d job ts ty label).1 → in_allowlist (job_AllowedCIDRs job) (obs_IP o).
Proof. intros Ho%runPass_obs%scoped. done. Qed.

Lemma enrichHost_scoped job h o :
  o ∈ (enrichHost snmp names dns job h).1 → in_allowlist (job_AllowedCIDRs job) (obs_IP o).
Proof using All.
  unfold enrichHost.
  pose proof (runPass_scoped snmp job [h] ScanSNMPInventory "SNMP inventory" o) as H1.
  pose proof (runPass_scoped snmp job [h] ScanARPTable "ARP harvest" o) as H2.
  pose proof (runPass_scoped snmp job [h] ScanLLDPCDP "LLDP/CDP neighbors" o) as H3.
  pose proof (runPass_scoped names job [h] ScanNameLookup "name lookup" o) as H4.
  pose proof (runPass_scoped dns job [h] ScanDNSLookup "DNS lookup" o) as H5.
  destruct (runPass _ _ _ ScanSNMPInventory _) as [inv n1].
  destruct (runPass _ _ _ ScanARPTable _), (runPass _ _ _ ScanLLDPCDP _),
    (runPass _ _ _ ScanNameLookup _), (runPass _ _ _ ScanDNSLookup _). cbn [fst] in *.
  destruct (decide (inv = [])); cbn [fst]; rewrite !elem_of_app, ?elem_of_nil; tauto.
Qed.

Lemma enrich_scoped ctx schedule job hosts o :
  targets_in_allowlist job →
  o ∈ (enrich snmp names dns dhcp ctx schedule job hosts).1 → in_allowlist (job_AllowedCIDRs job) (obs_IP o).
Proof using All.
  intros Hjob. unfold enrich.
  pose proof (runPass_obs dhcp job (job_Targets job) ScanDHCPLeases "DHCP leases" o) as Hd.
  destruct (runPass dhcp job (job_Targets job) ScanDHCPLeases "DHCP leases") as [dhcpObs dn]. cbn [fst] in *.
  intros [Ho|Ho]%elem_of_app.
  - induction (started ctx 0 hosts) as [|h hs IH]; [by apply not_elem_of_nil in Ho|].
    cbn in Ho. apply elem_of_app in Ho as [Ho|Ho]; [by eapply enrichHost_scoped|auto].
  - apply in_targets_allowlist; [done|]. by apply target_scoped in Hd.
Qed.

Lemma Combined_scoped ctx schedule job o :
  targets_in_allowlist job →
  o ∈ out_obs (CombinedDiscoverer_Discover nmap snmp names dns dhcp ctx schedule job) →
  in_allowlist (job_AllowedCIDRs job) (obs_IP o).
Proof using All.
  intros Hjob. unfold CombinedDiscoverer_Discover.
  destruct (out_err (nmap _)) eqn:He; [by intros ?%not_elem_of_nil|].
  set (core := nmap _) in *. set (hosts := unionHosts _ _).
  pose proof (λ o, enrich_scoped ctx schedule job hosts o Hjob) as Henr.
  destruct (enrich _ _ _ _ _ _ _ _) as [eobs enots]. cbn [out_obs fst] in *.
  intros Ho. apply (list_elem_of_fmap_2 obs_IP) in Ho. change (fmap obs_IP) with (map obs_IP) in Ho.
  rewrite mergeObservations_IPs in Ho. apply elem_of_first_seen in Ho as [(o' & -> & Ho')%list_elem_of_fmap _].
  apply elem_of_app in Ho' as [Ho'|Ho']; [|by apply Henr].
  apply in_targets_allowlist; [done|]. by apply (target_scoped (sub_job job ScanCombined ModeDeepActive (job_Targets job))).
Qed.

(** C37: the combined scan fails only with its core: when nmap succeeds the
    job succeeds whatever the enrichment passes do, every host nmap found is
    reported, one record per address, and (the backends keeping their
    contracts) no address outside the job's allowlist. *)
Theorem CombinedDiscoverer_contract ctx schedule job :
  let core := nmap (sub_job job ScanCombined ModeDeepActive (job_Targets job)) in
  let out := CombinedDiscoverer_Discover nmap snmp names dns dhcp ctx schedule job in
  targets_in_allowlist job →
  out_err out = out_err core ∧
  (out_err core = None → ∀ o, o ∈ out_obs core → obs_IP o ≠ "" →
     ∃ o', o' ∈ out_obs out ∧ obs_IP o' = obs_IP o) ∧
  NoDup (map obs_IP (out_obs out)) ∧
  ∀ o, o ∈ out_obs out → in_allowlist (job_AllowedCIDRs job) (obs_IP o).
Proof using All.
  cbn zeta. intros Hjob. pose proof (λ o, Combined_scoped ctx schedule job o Hjob) as Hsc. revert Hsc.
  unfold CombinedDiscoverer_Discover. set (core := nmap _). destruct (out_err core) as [e|] eqn:He; intros Hsc.
  { split_and!; [done|done|constructor|done]. }
  destruct (enrich _ _ _ _ _ _ _ _) as [eobs enots]. cbn [out_err out_obs] in *. split_and!; [done| | |done].
  - intros _ o Ho Hne. assert (obs_IP o ∈ map obs_IP (mergeObservations (out_obs core ++ eobs)))
      as (o' & Heq & Ho')%list_elem_of_fmap; [|by exists o'].
    rewrite mergeObservations_IPs. apply elem_of_first_seen. split; [|done].
    apply list_elem_of_fmap_2, elem_of_app. by left.
  - rewrite mergeObservations_IPs. apply NoDup_first_seen.
Qed.
End contract.

(** A core that reports every single-host target, and backends that stay quiet. *)
Definition echo_core : Discoverer := λ job,
  MkOutcome (map (λ t, MkObservation t "" "" "" "" "" 0 "" "" [] [] 0)
    (filter (λ t, match parse_addr t with Some a => is4 a | None => false end = true) (job_Targets job))) [] None.
Definition quiet : Discoverer := λ _, MkOutcome [] [MkScanError "snmp_failed" "no answer" "10.0.0.1"] None.

#[export] Instance echo_core_target_scoped : TargetScoped echo_core.
Proof.
  intros job o (t & -> & [Ht Hin]%list_elem_of_filter)%list_elem_of_fmap. cbn [obs_IP].
  destruct (parse_addr t) as [[v|]|] eqn:Hv; [|done..]. exists v, t. split_and!; [done..|]. by right.
Qed.
#[export] Instance quiet_scoped : Scoped quiet.
Proof. by intros job o ?%not_elem_of_nil. Qed.
#[export] Instance quiet_target_scoped : TargetScoped quiet.
Proof. by intros job o ?%not_elem_of_nil. Qed.

Lemma CombinedDiscoverer_schedule_witness :
  let job := example_job ["10.0.0.0/24"] ["10.0.0.1"] in
  CombinedDiscoverer_Discover echo_core quiet quiet quiet quiet (λ _, None) (@concat note) job =
  CombinedDiscoverer_Discover echo_core quiet quiet quiet quiet (λ _, None) (λ ls, reverse (concat ls)) job.
Proof.
  apply (CombinedDiscoverer_schedule echo_core quiet quiet quiet quiet (λ _, None)
           (@concat note) (λ ls, reverse (concat ls)) (example_job ["10.0.0.0/24"] ["10.0.0.1"])).
  - intros ls. reflexivity.
  - intros ls. apply reverse_Permutation.
Defined.

Lemma example_job_targets : targets_in_allowlist (example_job ["10.0.0.0/24"] ["10.0.0.1"]).
Proof. apply ValidateJobTargets_None. vm_compute. reflexivity. Qed.

Lemma CombinedDiscoverer_contract_witness :
  let out := CombinedDiscoverer_Discover echo_core quiet quiet quiet quiet (λ _, None) (@concat note)
               (example_job ["10.0.0.0/24"] ["10.0.0.1"]) in
  out_err out = None ∧ ∃ o, o ∈ out_obs out ∧ obs_IP o = "10.0.0.1".
Proof.
  destruct (CombinedDiscoverer_contract echo_core quiet quiet quiet quiet (λ _, None) (@concat note)
    (example_job ["10.0.0.0/24"] ["10.0.0.1"]) example_job_targets) as (He & Hfound & _ & _).
  split; [rewrite He; reflexivity|].
  apply (Hfound eq_refl (MkObservation "10.0.0.1" "" "" "" "" "" 0 "" "" [] [] 0)).
  - vm_compute. by left.
  - done.
Defined.
