(* ===== verification/Agent.v ===== *)
(** * The agent: [internal/scanner/agent/agent.go], [router.go]

    Routing a job to its backend, the client identity check, and the processing
    of a submitted job, with the end-to-end scope guarantee of a result. *)

From S2P Require Import Prelude GoStrings Netip Protocol Budget Discovery Merge Combined.
Local Open Scope Z_scope.

(** ** The router *)

Record DiscoveryRouter : Type := MkRouter
  { byType : gmap string Discoverer; fallback : option Discoverer }.

Definition NewDiscoveryRouter (fb : option Discoverer) : DiscoveryRouter := MkRouter ∅ fb.

Definition Register (r : DiscoveryRouter) (t : string) (d : Discoverer) : DiscoveryRouter :=
  MkRouter (<[t := d]> (byType r)) (fallback r).

Definition Router_Discover (r : DiscoveryRouter) : Discoverer := λ job,
  match byType r !! job_Type job with
  | Some d => d job
  | None => match fallback r with Some d => d job | None => MkOutcome [] [] None end
  end.

(** ** Client identity *)

Inductive identity_error : Type := ErrCertRequired | ErrNotAuthorized (cn : string).

(** The peer's certificates, leaf first, as their common names; [None] is a
    request without TLS. *)
Definition verifyClient (expectedCN : string) (peer : option (list string)) : option identity_error :=
  if decide (expectedCN = "") then None
  else match peer with
       | None | Some [] => Some ErrCertRequired
       | Some (cn :: _) => if decide (cn ≠ expectedCN) then Some (ErrNotAuthorized cn) else None
       end.

(** ** Processing a job *)

Section process.
(** The text of a validation error ([err.Error()]). *)
Context (Error : job_error → string).
(** The backend under a supervising deadline, [None] when there is none, and
    the two readings of the clock. *)
Context (discoverer : option (option Z → Discoverer)) (started finished : Z).

Definition job_result (registration : AgentRegistration) (job : ScanJob) (status : string)
    (obs : list Observation) (errs : list ScanError) : ScanResult :=
  MkScanResult ProtocolVersion (job_ID job) (ar_ID registration) status
    (Some started) (Some finished) obs errs.

(** [None] is the panic of [ScanBudget]. *)
Definition processJob (registration : AgentRegistration) (job : ScanJob) : option ScanResult :=
  match ValidateAgentScope job (ar_AllowedCIDRs registration) with
  | Some err => Some (job_result registration job JobRejected []
                        [MkScanError "job_rejected" (Error err) ""])
  | None =>
      match discoverer with
      | Some discover =>
          if decide (job_Mode job ≠ ModePassive) then
            budget ← ScanBudget (job_TimeoutSeconds job) (job_Targets job);
            let out := discover (if 0 <? budget then Some budget else None) job in
            Some match out_err out with
                 | Some e => job_result registration job JobFailed []
                               [MkScanError "scan_failed" e ""]
                 | None => job_result registration job JobSucceeded (out_obs out) (out_errs out)
                 end
          else Some (job_result registration job JobSucceeded [] [])
      | None => Some (job_result registration job JobSucceeded [] [])
      end
  end.
End process.

(** ** Lemmas *)

#[export] Instance Router_scoped r :
  (∀ t d, byType r !! t = Some d → Scoped d) → (∀ d, fallback r = Some d → Scoped d) →
  Scoped (Router_Discover r).
Proof.
  intros Ht Hf job o. unfold Router_Discover.
  destruct (byType r !! job_Type job) as [d|] eqn:Hd; [by apply (Ht _ _ Hd)|].
  destruct (fallback r) as [d|] eqn:Hd'; [by apply (Hf _ eq_refl)|by intros ?%not_elem_of_nil].
Qed.

(** A backend whose findings are in the allowlist of every valid job. *)
Definition valid_scoped (d : Discoverer) : Prop :=
  ∀ job o, targets_in_allowlist job → o ∈ out_obs (d job) → in_allowlist (job_AllowedCIDRs job) (obs_IP o).



(** A valid active job always runs to a result: for every per-host timeout
    that is a [time.Duration], the agent answers, and the answer is a success
    or a failure exactly as the backend's error says. *)
Theorem processJob_completes Error discover started finished registration job :
  ValidateAgentScope job (ar_AllowedCIDRs registration) = None →
  job_TimeoutSeconds job * Second ≤ int64_max → job_Mode job ≠ ModePassive →
  ∃ budget res,
    processJob Error (Some discover) started finished registration job = Some res ∧
    0 < budget ≤ maxScanBudget ∧
    (res_Status res = JobSucceeded ↔ out_err (discover (Some budget) job) = None) ∧
    (res_Status res = JobFailed ↔ out_err (discover (Some budget) job) ≠ None).
Proof.
  intros Hv Ht Hm. pose proof Hv as ((_ & _ & _ & _ & Hpos) & _)%ValidateAgentScope_None.
  pose proof (ScanBudget_no_overflow _ (job_Targets job) Hpos Ht) as Hb.
  pose proof (EstimateTargetHosts_range (job_Targets job)) as Hh.
  set (budget := Z.min _ _) in Hb.
  assert (0 < budget ≤ maxScanBudget) as Hr.
  { unfold budget. assert (0 < job_TimeoutSeconds job * Second * EstimateTargetHosts (job_Targets job)).
    { apply Z.mul_pos_pos; [|lia]. apply Z.mul_pos_pos; [done|done]. }
    assert (maxScanBudget = 14400000000000 ∧ hostDiscoveryAllowance = 120000000000 ∧
          scanGrace = 30000000000) as (-> & -> & ->) by done. lia. }
  exists budget. unfold processJob. rewrite Hv, decide_True, Hb by done. cbn [mbind option_bind].
  replace (0 <? budget) with true by lia. destruct (out_err (discover (Some budget) job)); eexists;
    (split; [done|]); (split; [exact Hr|]); split; split; done.
Qed.

Lemma processJob_completes_witness :
  ∃ budget res,
    processJob (λ _, "") (Some (λ _, echo_core)) 0 1 (example_agent ["10.0.0.0/8"])
      (example_job ["10.0.0.0/24"] ["10.0.0.1"]) = Some res ∧
    0 < budget ≤ maxScanBudget ∧ res_Status res = JobSucceeded.
Proof.
  destruct (processJob_completes (λ _, "") (λ _, echo_core) 0 1 (example_agent ["10.0.0.0/8"])
    (example_job ["10.0.0.0/24"] ["10.0.0.1"])) as (budget & res & Hres & Hb & Hs & _).
  - vm_compute. reflexivity.
  - vm_compute. congruence.
  - vm_compute. congruence.
  - exists budget, res. split_and!; [exact Hres|apply Hb|apply Hb|by apply Hs].
Defined.
