(* ===== verification/Process.v ===== *)
(** * Programs that interleave

    Code that reads the clock, the random source and the database is modelled as
    a tree of atomic steps on a world [W]; between two steps other goroutines and
    other clients of the database may act. *)

From S2P Require Import Prelude.

Section process.
Context {W : Type}.

(** [Atom g k] is one atomic step: in the world [w] it leaves [g w], and the
    program goes on as [k w]. *)
Inductive prog (A : Type) : Type :=
| Ret (a : A)
| Atom (g : W → W) (k : W → prog A).

#[global] Arguments Ret {_} _.
#[global] Arguments Atom {_} _ _.

Fixpoint prog_bind {A B} (h : A → prog B) (p : prog A) : prog B :=
  match p with
  | Ret a => h a
  | Atom g k => Atom g (λ w, prog_bind h (k w))
  end.

#[global] Instance prog_mret : MRet prog := @Ret.
#[global] Instance prog_mbind : MBind prog := @prog_bind.

(** One atomic step that returns a value. *)
Definition atomic {A} (f : W → A * W) : prog A := Atom (λ w, (f w).2) (λ w, Ret (f w).1).

(** A program running among others: before its [i]-th step the rest of the
    system has taken the world through [env i]. *)
Fixpoint exec {A} (env : nat → W → W) (i : nat) (p : prog A) (w : W) : A * W :=
  match p with
  | Ret a => (a, w)
  | Atom g k => let w0 := env i w in exec env (S i) (k w0) (g w0)
  end.

(** The worlds its own steps leave, in order. *)
Fixpoint trace {A} (env : nat → W → W) (i : nat) (p : prog A) (w : W) : list W :=
  match p with
  | Ret _ => []
  | Atom g k => let w0 := env i w in g w0 :: trace env (S i) (k w0) (g w0)
  end.

(** A program running alone. *)
Definition quiet : nat → W → W := λ _ w, w.
Definition alone {A} (p : prog A) (w : W) : A * W := exec quiet 0 p w.

(** A sequence of calls, for the effects. *)
Fixpoint for_each {A} (f : A → prog unit) (l : list A) : prog unit :=
  match l with [] => Ret () | a :: l => prog_bind (λ _, for_each f l) (f a) end.

(** Every step of the program, from any world, is a step of [R]. *)
Fixpoint guarantees (R : W → W → Prop) {A} (p : prog A) : Prop :=
  match p with
  | Ret _ => True
  | Atom g k => ∀ w, R w (g w) ∧ guarantees R (k w)
  end.

(** Every value the program can return, whatever happens around it. *)
Fixpoint returns {A} (Q : A → Prop) (p : prog A) : Prop :=
  match p with
  | Ret a => Q a
  | Atom g k => ∀ w, returns Q (k w)
  end.

Lemma prog_bind_ret {A B} (a : A) (h : A → prog B) : prog_bind h (Ret a) = h a.
Proof. done. Qed.

Lemma guarantees_bind R {A B} (p : prog A) (h : A → prog B) :
  guarantees R p → (∀ a, guarantees R (h a)) → guarantees R (prog_bind h p).
Proof.
  intros Hp Hh. induction p as [a|g k IH]; [exact (Hh a)|].
  intros w. destruct (Hp w) as [Hg Hk]. split; [exact Hg|]. by apply IH.
Qed.

Lemma guarantees_mono (R R' : W → W → Prop) {A} (p : prog A) :
  (∀ w w', R w w' → R' w w') → guarantees R p → guarantees R' p.
Proof. intros HR. induction p as [a|g k IH]; [done|]. intros Hp w. destruct (Hp w). split; auto. Qed.

Lemma guarantees_atomic (R : W → W → Prop) {A} (f : W → A * W) :
  (∀ w, R w (f w).2) → guarantees R (atomic f).
Proof. intros Hf w. by split. Qed.

Lemma guarantees_for_each R {A} (f : A → prog unit) l :
  (∀ a, guarantees R (f a)) → guarantees R (for_each f l).
Proof.
  intros Hf. induction l as [|a l IH]; [done|]. apply guarantees_bind; [apply Hf|done].
Qed.

(** What a program guarantees holds from its first world to its last, when the
    relation is a preorder the rest of the system respects too. *)
Lemma guarantees_exec R `{!PreOrder R} {A} (p : prog A) env i w :
  guarantees R p → (∀ j w, R w (env j w)) → R w (exec env i p w).2.
Proof.
  intros Hp Henv. revert i w. induction p as [a|g k IH]; intros i w; [reflexivity|].
  cbn. destruct (Hp (env i w)) as [Hg Hk]. etrans; [apply (Henv i)|].
  etrans; [exact Hg|]. by apply IH.
Qed.

Lemma returns_bind {A B} (Q : A → Prop) (Q' : B → Prop) (p : prog A) (h : A → prog B) :
  returns Q p → (∀ a, Q a → returns Q' (h a)) → returns Q' (prog_bind h p).
Proof.
  intros Hp Hh. induction p as [a|g k IH]; [exact (Hh a Hp)|].
  intros w. apply IH. apply Hp.
Qed.

Lemma returns_True {A} (p : prog A) : returns (λ _, True) p.
Proof. induction p as [a|g k IH]; [done|]. intros w. apply IH. Qed.

Lemma returns_after {A B} (Q : B → Prop) (p : prog A) (h : A → prog B) :
  (∀ a, returns Q (h a)) → returns Q (prog_bind h p).
Proof. intros Hh. apply (returns_bind (λ _, True)); [apply returns_True|auto]. Qed.

Lemma returns_exec {A} (Q : A → Prop) (p : prog A) env i w :
  returns Q p → Q (exec env i p w).1.
Proof.
  revert i w. induction p as [a|g k IH]; intros i w Hp; [exact Hp|]. apply IH, Hp.
Qed.

(** A sequence runs its first part and then, with the clock of [env] moved on by
    the steps taken, its second. *)
Lemma exec_bind {A B} env i (p : prog A) (h : A → prog B) w :
  exec env i (prog_bind h p) w =
  exec env (i + length (trace env i p w)) (h (exec env i p w).1) (exec env i p w).2.
Proof.
  revert i w. induction p as [a|g k IH]; intros i w; cbn; [by rewrite Nat.add_0_r|].
  rewrite Nat.add_succ_r. apply IH.
Qed.

Lemma trace_bind {A B} env i (p : prog A) (h : A → prog B) w :
  trace env i (prog_bind h p) w =
  trace env i p w ++
  trace env (i + length (trace env i p w)) (h (exec env i p w).1) (exec env i p w).2.
Proof.
  revert i w. induction p as [a|g k IH]; intros i w; cbn; [by rewrite Nat.add_0_r|].
  rewrite Nat.add_succ_r. f_equal. apply IH.
Qed.

Lemma exec_atomic {A} env i (f : W → A * W) w : exec env i (atomic f) w = f (env i w).
Proof. cbn. by destruct (f (env i w)). Qed.

Lemma alone_atomic {A} (f : W → A * W) w : alone (atomic f) w = f w.
Proof. apply exec_atomic. Qed.

Lemma exec_quiet_index {A} (p : prog A) i w : exec quiet i p w = alone p w.
Proof.
  unfold alone. generalize 0. revert i w.
  induction p as [a|g k IH]; intros i w n; [done|]. apply IH.
Qed.

Lemma alone_bind {A B} (p : prog A) (h : A → prog B) w :
  alone (prog_bind h p) w = let '(a, w') := alone p w in alone (h a) w'.
Proof.
  revert w. induction p as [a|g k IH]; intros w; [done|].
  unfold alone at 1. cbn. rewrite exec_quiet_index. unfold quiet in IH |- *.
  rewrite IH. unfold alone at 3. cbn. rewrite exec_quiet_index. done.
Qed.

Lemma alone_ret {A} (a : A) w : alone (Ret a) w = (a, w).
Proof. done. Qed.

Lemma exec_bind_atomic {A B} env i (f : W → A * W) (h : A → prog B) w :
  exec env i (prog_bind h (atomic f)) w = exec env (S i) (h (f (env i w)).1) (f (env i w)).2.
Proof. done. Qed.

End process.

#[global] Arguments prog _ _ : clear implicits.

(** A program on a part of the world. *)
Section focus.
Context {V W : Type} (get : W → V) (put : V → W → W).

Fixpoint focus {A} (p : prog V A) : prog W A :=
  match p with
  | Ret a => Ret a
  | Atom g k => Atom (λ w, put (g (get w)) w) (λ w, focus (k (get w)))
  end.

Lemma guarantees_focus (R : V → V → Prop) (R' : W → W → Prop) {A} (p : prog V A) :
  (∀ w v, R (get w) v → R' w (put v w)) → guarantees R p → guarantees R' (focus p).
Proof.
  intros HR. induction p as [a|g k IH]; [done|]. intros Hp w. destruct (Hp (get w)) as [Hg Hk]. split; [by apply HR|by apply IH].
Qed.

(** It runs as it does on the part alone. *)
Lemma alone_focus {A} (p : prog V A) w :
  (∀ w v, get (put v w) = v) → (∀ w v v', put v' (put v w) = put v' w) → (∀ w, put (get w) w = w) →
  alone (focus p) w = ((alone p (get w)).1, put (alone p (get w)).2 w).
Proof.
  intros Hgp Hpp Hpg. unfold alone. generalize 0. revert w. induction p as [a|g k IH]; intros w i; cbn.
  - by rewrite Hpg.
  - rewrite IH. unfold quiet. by rewrite Hgp, Hpp.
Qed.
End focus.

Notation "x ←! p ; q" := (prog_bind (λ x, q) p)
  (at level 20, p at level 100, q at level 200, right associativity).

#[export] Hint Resolve guarantees_bind guarantees_atomic guarantees_for_each : lipam.

(** * What must come before a change

    A program is [guarded] when each of its steps is harmless until one of them
    was taken from a world that grants it the right to go on. *)

Section guard.
Context {W : Type}.

(** The steps a program takes: the world each starts from and the one it leaves. *)
Fixpoint steps {A} (env : nat → W → W) (i : nat) (p : prog W A) (w : W) : list (W * W) :=
  match p with
  | Ret _ => []
  | Atom g k => let w0 := env i w in (w0, g w0) :: steps env (S i) (k w0) (g w0)
  end.

Context (R : W → W → Prop) (ok : W → Prop).

(** [R] is harmless, [ok] grants the right; a value returned without it is in [Q]. *)
Fixpoint guarded {A} (Q : A → Prop) (p : prog W A) : Prop :=
  match p with
  | Ret a => Q a
  | Atom g k => ∀ w, R w (g w) ∧ (ok w ∨ guarded Q (k w))
  end.

Lemma guarded_bind {A B} (Q : A → Prop) (Q' : B → Prop) (p : prog W A) (h : A → prog W B) :
  guarded Q p → (∀ a, Q a → guarded Q' (h a)) → guarded Q' (prog_bind h p).
Proof.
  intros Hp Hh. induction p as [a|g k IH]; [by apply Hh|]. intros w. destruct (Hp w) as [Hg [Hok|Hk]].
  - split; [done|by left].
  - split; [done|]. right. by apply IH.
Qed.

Lemma guarded_mono {A} (Q Q' : A → Prop) (p : prog W A) : (∀ a, Q a → Q' a) → guarded Q p → guarded Q' p.
Proof.
  intros HQ. induction p as [a|g k IH]; [apply HQ|]. intros Hp w. destruct (Hp w) as [Hg [Hok|Hk]]; split; auto.
Qed.

Lemma guarded_harmless {A} (p : prog W A) : guarantees R p → guarded (λ _, True) p.
Proof. induction p as [a|g k IH]; [done|]. intros Hp w. destruct (Hp w). split; [done|]. right. by apply IH. Qed.

Lemma guarded_after {A B} (Q' : B → Prop) (p : prog W A) (h : A → prog W B) :
  guarantees R p → (∀ a, guarded Q' (h a)) → guarded Q' (prog_bind h p).
Proof. intros Hp Hh. apply (guarded_bind (λ _, True)); [by apply guarded_harmless|auto]. Qed.

(** Before a step that is not harmless, there was one that granted the right. *)
Lemma guarded_steps {A} (Q : A → Prop) (p : prog W A) env i w l a b l' :
  guarded Q p → steps env i p w = l ++ (a, b) :: l' → ¬ R a b → ∃ x y, (x, y) ∈ l ∧ ok x.
Proof.
  intros Hp Hs Hn. revert i w l Hp Hs. induction p as [v|g k IH]; intros i w l Hp Hs; cbn in Hs.
  - by destruct l.
  - destruct (Hp (env i w)) as [Hg Hk]. destruct l as [|[x y] l]; simplify_eq/=; [done|].
    destruct Hk as [Hok|Hk]; [by exists (env i w), (g (env i w)); split; [left|]|].
    destruct (IH _ _ _ _ Hk H0) as (x & y & Hin & Hok). exists x, y. split; [by right|done].
Qed.
End guard.

Lemma guaranteed_steps {W} (R : W → W → Prop) {A} (p : prog W A) env i w a b :
  guarantees R p → (a, b) ∈ steps env i p w → R a b.
Proof.
  revert i w. induction p as [v|g k IH]; intros i w Hp Hs; [by apply not_elem_of_nil in Hs|]. destruct (Hp (env i w)) as [Hg Hk].
  cbn in Hs. apply elem_of_cons in Hs as [[= -> ->]|Hs]; [done|]. by eapply IH.
Qed.

Lemma guarded_focus {V W} (get : W → V) (put : V → W → W) (R : V → V → Prop) (R' : W → W → Prop) (ok : V → Prop)
    {A} (Q : A → Prop) (p : prog V A) :
  (∀ w v, R (get w) v → R' w (put v w)) → guarded R ok Q p → guarded R' (λ w, ok (get w)) Q (focus get put p).
Proof.
  intros HR. induction p as [a|g k IH]; [done|]. intros Hp w. destruct (Hp (get w)) as [Hg [Hok|Hk]].
  - split; [by apply HR|by left].
  - split; [by apply HR|right; by apply IH].
Qed.

(** More is harmless, more grants the right. *)
Lemma guarded_weaken {W A} (R R' : W → W → Prop) (ok ok' : W → Prop) (Q : A → Prop) (p : prog W A) :
  (∀ w w', R w w' → R' w w') → (∀ w, ok w → ok' w) → guarded R ok Q p → guarded R' ok' Q p.
Proof.
  intros HR Hok. induction p as [a|g k IH]; [done|]. intros Hp w. destruct (Hp w) as [Hg [Hw|Hk]]; split; auto.
Qed.

Section staged.
Context {W X : Type} (R : W → W → Prop) (found granted : X → W → Prop).

(** Two stages: only [R] until a step whose world shows some [x], and from there
    only [R] until one that grants it. *)
Fixpoint staged {A} (p : prog W A) : Prop :=
  match p with
  | Ret _ => True
  | Atom g k => ∀ w, R w (g w) ∧
      ((∃ x, found x w ∧ guarded R (granted x) (λ _, True) (k w)) ∨ staged (k w))
  end.

Lemma staged_after {A B} (p : prog W A) (h : A → prog W B) :
  guarantees R p → (∀ a, staged (h a)) → staged (prog_bind h p).
Proof.
  intros Hp Hh. induction p as [a|g k IH]; [apply Hh|]. intros w. destruct (Hp w) as [Hg Hk].
  split; [done|]. right. by apply IH.
Qed.

Lemma staged_steps {A} (p : prog W A) env i w l a b l' :
  staged p → steps env i p w = l ++ (a, b) :: l' → ¬ R a b →
  ∃ x y y' z z' l1 l2, l = l1 ++ (y, y') :: l2 ∧ found x y ∧ (z, z') ∈ l2 ∧ granted x z.
Proof.
  intros Hp Hs Hn. revert i w l Hp Hs. induction p as [v|g k IH]; intros i w l Hp Hs; cbn in Hs; [by destruct l|].
  destruct (Hp (env i w)) as [Hg Hk]. destruct l as [|[y y'] l]; simplify_eq/=; [done|].
  destruct Hk as [(x & Hx & Hk)|Hk].
  - destruct (guarded_steps _ _ _ _ _ _ _ _ _ _ _ Hk H0 Hn) as (z & z' & Hin & Hz).
    by exists x, (env i w), (g (env i w)), z, z', [], l.
  - destruct (IH _ _ _ _ Hk H0) as (x & y & y' & z & z' & l1 & l2 & -> & Hx & Hin & Hz).
    by exists x, y, y', z, z', ((env i w, g (env i w)) :: l1), l2.
Qed.
End staged.
