(* ===== verification/Scans.v ===== *)
(** * Scan records in the store: [internal/store/scans.go]

    The tables of agents, schedules and jobs (with the constraints of
    [internal/db/migrations.go]) and the statements over them. Every statement is
    one atomic step, so that the goroutines of the orchestrator may interleave
    between any two. The database clock, lost connections, the random source and
    PostgreSQL's [jsonb] input are the environment [Env]. *)

From S2P Require Import Prelude GoStrings GoTime Process.
Local Open Scope Z_scope.

(** ** Records of the package *)

Record ScanAgent : Type := MkScanAgent
  { sa_ID : string; sa_Name : string; sa_SiteID : string; sa_EndpointURL : string;
    sa_CertificateSubject : string; sa_AllowedCIDRs : list string; sa_Status : string;
    sa_AutoImport : bool; sa_Version : string; sa_LastSeenAt : option Z;
    sa_CreatedAt : Z; sa_UpdatedAt : Z }.

Record ScanAgentInput : Type := MkScanAgentInput
  { ai_Name : string; ai_SiteID : string; ai_EndpointURL : string;
    ai_CertificateSubject : string; ai_AllowedCIDRs : list string; ai_Status : string;
    ai_AutoImport : bool }.

Record ScanJob : Type := MkScanJob
  { sj_ID : string; sj_AgentID : string; sj_AgentName : string; sj_ScheduleID : string;
    sj_RequestedBy : string; sj_RequestedByName : string; sj_ScanType : string; sj_Mode : string;
    sj_AllowedCIDRs : list string; sj_Targets : list string; sj_TimeoutSeconds : Z;
    sj_Status : string; sj_Error : string; sj_Result : string;
    sj_StartedAt : option Z; sj_FinishedAt : option Z; sj_CreatedAt : Z; sj_UpdatedAt : Z }.

Record ScanJobInput : Type := MkScanJobInput
  { ji_AgentID : string; ji_ScheduleID : option string; ji_RequestedBy : option string;
    ji_ScanType : string; ji_Mode : string; ji_AllowedCIDRs : list string;
    ji_Targets : list string; ji_TimeoutSeconds : Z }.

Record ScanJobResult : Type := MkScanJobResult
  { jr_Status : string; jr_Error : string; jr_Result : string;
    jr_StartedAt : option Z; jr_FinishedAt : option Z }.

Record ScanSchedule : Type := MkScanSchedule
  { ss_ID : string; ss_Name : string; ss_AgentID : string; ss_AgentName : string;
    ss_ScanType : string; ss_Mode : string; ss_AllowedCIDRs : list string;
    ss_Targets : list string; ss_TimeoutSeconds : Z; ss_IntervalSeconds : Z; ss_Enabled : bool;
    ss_WindowStartMin : option Z; ss_WindowEndMin : option Z; ss_WindowDays : list Z;
    ss_WindowTZ : string; ss_LastRunAt : option Z; ss_LastRunStatus : string;
    ss_LastRunError : string; ss_LastJobID : string; ss_NextRunAt : Z;
    ss_CreatedAt : Z; ss_UpdatedAt : Z }.

Record ScanScheduleInput : Type := MkScanScheduleInput
  { si_Name : string; si_AgentID : string; si_ScanType : string; si_Mode : string;
    si_AllowedCIDRs : list string; si_Targets : list string; si_TimeoutSeconds : Z;
    si_IntervalSeconds : Z; si_Enabled : bool; si_WindowStartMin : option Z;
    si_WindowEndMin : option Z; si_WindowDays : list Z; si_WindowTZ : string }.

(** ** Display of a schedule's window *)

Definition HasWindow (s : ScanSchedule) : bool :=
  bool_decide (ss_WindowStartMin s ≠ None) || bool_decide (ss_WindowEndMin s ≠ None) ||
  (0 <? length (ss_WindowDays s))%nat.

(** [fmt.Sprintf("%02d:%02d", m/60, m%60)]; Go's division truncates. *)
Definition formatMinutes (m : Z) : string :=
  pad_itoa 2 (Z.quot m 60) +:+ ":" +:+ pad_itoa 2 (Z.rem m 60).

Definition weekdayNames : list string := ["Sun"; "Mon"; "Tue"; "Wed"; "Thu"; "Fri"; "Sat"].
Definition weekdayName (d : Z) : string := default "" (weekdayNames !! Z.to_nat d).

(** The days in range, each once, in order of first mention. *)
Fixpoint uniq_days (seen days : list Z) : list Z :=
  match days with
  | [] => []
  | d :: days =>
      if (d <? 0) || (6 <? d) || bool_decide (d ∈ seen) then uniq_days seen days
      else d :: uniq_days (d :: seen) days
  end.

(** The longest run of consecutive days at the front of a list, and the rest. *)
Fixpoint take_run (d : Z) (days : list Z) : list Z * list Z :=
  match days with
  | d' :: rest => if d' =? d + 1 then let '(run, rest) := take_run d' rest in (d' :: run, rest)
                  else ([], days)
  | [] => ([], [])
  end.

Definition en_dash : string := str_of_list (map byte_of [226; 128; 147]).

Definition run_groups (d : Z) (run : list Z) : list string :=
  if (3 <=? length (d :: run))%nat then [weekdayName d +:+ en_dash +:+ weekdayName (List.last run d)]
  else map weekdayName (d :: run).

Fixpoint day_groups (fuel : nat) (days : list Z) : list string :=
  match fuel, days with
  | S fuel, d :: days => let '(run, rest) := take_run d days in
                         run_groups d run ++ day_groups fuel rest
  | _, _ => []
  end.

Definition formatWeekdays (days : list Z) : string :=
  let uniq := merge_sort Z.le (uniq_days [] days) in
  if decide (uniq = []) then "" else join ", " (day_groups (length uniq) uniq).

Definition WindowLabel (s : ScanSchedule) : string :=
  let days := formatWeekdays (ss_WindowDays s) in
  let tz := if decide (ss_WindowTZ s = "") then "UTC" else ss_WindowTZ s in
  let parts := (if decide (days = "") then [] else [days]) ++
    match ss_WindowStartMin s, ss_WindowEndMin s with
    | Some a, Some b => [formatMinutes a +:+ en_dash +:+ formatMinutes b +:+ " " +:+ tz]
    | _, _ => []
    end in
  if decide (parts = []) then "Any time" else join " " parts.

Definition LastRunFailed (s : ScanSchedule) : bool :=
  bool_decide (ss_LastRunStatus s = "failed") || bool_decide (ss_LastRunStatus s = "rejected").

Example formatWeekdays_1 : formatWeekdays [5; 4; 3; 2; 1] = "Mon" +:+ en_dash +:+ "Fri".
Proof. vm_compute. reflexivity. Qed.
Example formatWeekdays_2 : formatWeekdays [1; 3; 5] = "Mon, Wed, Fri".
Proof. vm_compute. reflexivity. Qed.
Example formatWeekdays_3 : formatWeekdays [6; 5; 9; 5] = "Fri, Sat".
Proof. vm_compute. reflexivity. Qed.

(** ** The database *)

(** A row of [scan_jobs]; [result] is the text of the [jsonb] value. *)
Record JobRow : Type := MkJobRow
  { row_agent : string; row_schedule : option string; row_requested_by : option string;
    row_type : string; row_mode : string; row_allowed : list string; row_targets : list string;
    row_timeout : Z; row_status : string; row_error : string; row_result : option string;
    row_started : option Z; row_finished : option Z; row_created : Z; row_updated : Z }.

(** A row of [audit_logs], but for its number. *)
Record AuditRow : Type := MkAuditRow
  { au_actor : option string; au_action : string; au_subject_type : string;
    au_subject : string; au_metadata : string; au_created : Z }.

(** The environment at its [n]-th interaction: the clock, whether the statement
    is lost (connection, timeout), the random token, and PostgreSQL's reading of
    a [jsonb] literal ([None] when it rejects it). *)
Class Env : Type :=
  { clock : nat → Z; fault : nat → bool; token : nat → option string;
    jsonb_in : string → option string }.

Inductive db_error : Type :=
| ErrNotFound | ErrLost | ErrForeignKey | ErrDuplicateKey | ErrOutOfRange | ErrCheck | ErrJSON
| ErrToken | ErrNoContainingSubnet | ErrTooFew | ErrNull | ErrOverlap | ErrAddressOutOfCIDR
| ErrDuplicate | ErrInvalid.

#[export] Instance db_error_eq_dec : EqDecision db_error.
Proof. solve_decision. Defined.

(** A [timestamptz] has microseconds. *)
Definition timestamptz (t : Z) : Z := t - t mod 1000.

Definition int4 (z : Z) : bool := (- 2 ^ 31 <=? z) && (z <? 2 ^ 31).

(** A goroutine [go s.run(ctx, agent, job, actor)] that was started. *)
Definition run_call : Type := ScanAgent * ScanJob * option string.

Section store.
(** The rest of the database, reached through the discovery queue. *)
Context {Inv : Type} {env : Env}.

Record World : Type := MkWorld
  { w_sites : gset string; w_users : gmap string string; w_agents : gmap string ScanAgent;
    w_schedules : gmap string ScanSchedule; w_jobs : gmap string JobRow;
    w_audit : list AuditRow; w_inv : Inv; w_spawned : list run_call; w_step : nat }.

Definition with_agents (a : gmap string ScanAgent) (w : World) : World :=
  MkWorld (w_sites w) (w_users w) a (w_schedules w) (w_jobs w) (w_audit w) (w_inv w) (w_spawned w) (w_step w).
Definition with_schedules (s : gmap string ScanSchedule) (w : World) : World :=
  MkWorld (w_sites w) (w_users w) (w_agents w) s (w_jobs w) (w_audit w) (w_inv w) (w_spawned w) (w_step w).
Definition with_jobs (j : gmap string JobRow) (w : World) : World :=
  MkWorld (w_sites w) (w_users w) (w_agents w) (w_schedules w) j (w_audit w) (w_inv w) (w_spawned w) (w_step w).
Definition with_audit (a : list AuditRow) (w : World) : World :=
  MkWorld (w_sites w) (w_users w) (w_agents w) (w_schedules w) (w_jobs w) a (w_inv w) (w_spawned w) (w_step w).
Definition with_inv (i : Inv) (w : World) : World :=
  MkWorld (w_sites w) (w_users w) (w_agents w) (w_schedules w) (w_jobs w) (w_audit w) i (w_spawned w) (w_step w).
Definition with_spawned (s : list run_call) (w : World) : World :=
  MkWorld (w_sites w) (w_users w) (w_agents w) (w_schedules w) (w_jobs w) (w_audit w) (w_inv w) s (w_step w).
Definition bump (w : World) : World :=
  MkWorld (w_sites w) (w_users w) (w_agents w) (w_schedules w) (w_jobs w) (w_audit w) (w_inv w) (w_spawned w) (S (w_step w)).

Definition Go (A : Type) : Type := prog World A.
(** A Go call returning a value and an error. *)
Definition GoE (A : Type) : Type := Go (result db_error A).

(** One statement: it may be lost; otherwise it reads the database clock and
    either changes the tables or fails and leaves them as they were. *)
Definition run_stmt {A} (f : Z → World → result db_error (A * World)) (w : World) :
    result db_error A * World :=
  if fault (w_step w) then (Err ErrLost, bump w)
  else match f (timestamptz (clock (w_step w))) (bump w) with
       | Ok (a, w') => (Ok a, w')
       | Err e => (Err e, bump w)
       end.

Definition stmt {A} (f : Z → World → result db_error (A * World)) : GoE A := atomic (run_stmt f).

Definition time_now : Go Z := atomic (λ w, (clock (w_step w), bump w)).
Definition random_token : GoE string :=
  atomic (λ w, (of_option ErrToken (token (w_step w)), bump w)).

(** [x, err := p; if err != nil return err]. *)
Definition try_bind {A B} (p : GoE A) (h : A → GoE B) : GoE B :=
  prog_bind (λ r, match r with Ok a => h a | Err e => Ret (Err e) end) p.
End store.
#[global] Arguments World _ : clear implicits.
#[global] Arguments Go _ _ : clear implicits.
#[global] Arguments GoE _ _ : clear implicits.

Notation "x ←? p ; q" := (try_bind p (λ x, q))
  (at level 20, p at level 100, q at level 200, right associativity).

Section operations.
Context {Inv : Type} {env : Env}.
(** What deleting scan jobs and agents does to the rows outside this package
    that reference them ([ON DELETE SET NULL]). *)
Context (unlink : gset string → gset string → Inv → Inv).
Implicit Types (w : World Inv) (id : string).

(** *** Agents *)

Definition site_ok (w : World Inv) (site : string) : bool :=
  bool_decide (site = "" ∨ site ∈ w_sites w).

Definition GetScanAgent (id : string) : GoE Inv ScanAgent :=
  stmt (λ _ w, match w_agents w !! id with
               | Some a => Ok (a, w)
               | None => Err ErrNotFound
               end).

Definition CreateScanAgent (input : ScanAgentInput) : GoE Inv ScanAgent :=
  id ←? random_token;
  let status := if decide (ai_Status input = "") then "pending" else ai_Status input in
  _ ←? stmt (λ now w,
    if decide (w_agents w !! id ≠ None) then Err ErrDuplicateKey
    else if negb (site_ok w (ai_SiteID input)) then Err ErrForeignKey
    else Ok ((), with_agents (<[id :=
      MkScanAgent id (ai_Name input) (ai_SiteID input) (ai_EndpointURL input)
        (ai_CertificateSubject input) (ai_AllowedCIDRs input) status (ai_AutoImport input)
        "" None now now]> (w_agents w)) w));
  GetScanAgent id.

Definition UpdateScanAgent (id : string) (input : ScanAgentInput) : GoE Inv ScanAgent :=
  _ ←? stmt (λ now w,
    match w_agents w !! id with
    | None => Err ErrNotFound
    | Some a =>
        if negb (site_ok w (ai_SiteID input)) then Err ErrForeignKey
        else Ok ((), with_agents (<[id :=
          MkScanAgent id (ai_Name input) (ai_SiteID input) (ai_EndpointURL input)
            (ai_CertificateSubject input) (ai_AllowedCIDRs input) (ai_Status input)
            (ai_AutoImport input) (sa_Version a) (sa_LastSeenAt a) (sa_CreatedAt a) now]>
          (w_agents w)) w)
    end);
  GetScanAgent id.

(** Deleting an agent deletes its schedules and jobs and unlinks what pointed
    at them. *)
Definition schedule_unlink (gone : gset string) (j : JobRow) : JobRow :=
  match row_schedule j with
  | Some s =>
      if decide (s ∈ gone) then
        MkJobRow (row_agent j) None (row_requested_by j) (row_type j) (row_mode j)
          (row_allowed j) (row_targets j) (row_timeout j) (row_status j) (row_error j)
          (row_result j) (row_started j) (row_finished j) (row_created j) (row_updated j)
      else j
  | None => j
  end.

Definition DeleteScanAgent (id : string) : GoE Inv unit :=
  stmt (λ _ w,
    if decide (w_agents w !! id = None) then Err ErrNotFound
    else
      let schedules := filter (λ p, ss_AgentID p.2 ≠ id) (w_schedules w) in
      let jobs := filter (λ p, row_agent p.2 ≠ id) (w_jobs w) in
      let gone : gset string := dom (w_schedules w) ∖ dom schedules in
      Ok ((), with_agents (delete id (w_agents w)) (with_schedules schedules
        (with_jobs (schedule_unlink gone <$> jobs)
          (with_inv (unlink (dom (w_jobs w) ∖ dom jobs) {[id]} (w_inv w)) w))))).

(** [LIMIT 1] without an order: any agent with the endpoint may answer. *)
Definition by_endpoint (url : string) (w : World Inv) : option string :=
  (λ found, found.2.1) <$>
    list_find (λ p, sa_EndpointURL p.2 = url) (map_to_list (w_agents w)).

Definition GetScanAgentByEndpoint (url : string) : GoE Inv ScanAgent :=
  id ←? stmt (λ _ w, match by_endpoint url w with
                     | Some id => Ok (id, w)
                     | None => Err ErrNotFound
                     end);
  GetScanAgent id.

Definition EnrollDiscoveredAgent (url : string) (input : ScanAgentInput) :
    GoE Inv (ScanAgent * bool) :=
  found ←! GetScanAgentByEndpoint url;
  match found with
  | Ok existing => Ret (Ok (existing, false))
  | Err ErrNotFound =>
      agent ←? CreateScanAgent (MkScanAgentInput (ai_Name input) (ai_SiteID input) url
                 (ai_CertificateSubject input) (ai_AllowedCIDRs input) "pending" (ai_AutoImport input));
      Ret (Ok (agent, true))
  | Err e => Ret (Err e)
  end.

Definition set_status (status : string) (now : Z) (a : ScanAgent) : ScanAgent :=
  MkScanAgent (sa_ID a) (sa_Name a) (sa_SiteID a) (sa_EndpointURL a) (sa_CertificateSubject a)
    (sa_AllowedCIDRs a) status (sa_AutoImport a) (sa_Version a) (sa_LastSeenAt a)
    (sa_CreatedAt a) now.

Definition SetScanAgentStatus (id status : string) : GoE Inv unit :=
  stmt (λ now w, match w_agents w !! id with
                 | None => Err ErrNotFound
                 | Some a => Ok ((), with_agents (<[id := set_status status now a]> (w_agents w)) w)
                 end).

Definition touch (version : string) (now : Z) (a : ScanAgent) : ScanAgent :=
  MkScanAgent (sa_ID a) (sa_Name a) (sa_SiteID a) (sa_EndpointURL a) (sa_CertificateSubject a)
    (sa_AllowedCIDRs a) (sa_Status a) (sa_AutoImport a)
    (if decide (version = "") then sa_Version a else version) (Some now) (sa_CreatedAt a) now.

Definition TouchScanAgent (id version : string) : GoE Inv unit :=
  stmt (λ now w, Ok ((), with_agents (alter (touch version now) id (w_agents w)) w)).

(** *** Jobs *)

Definition job_of_row (id : string) (r : JobRow) (w : World Inv) : ScanJob :=
  MkScanJob id (row_agent r) (default "" (sa_Name <$> w_agents w !! row_agent r))
    (default "" (row_schedule r)) (default "" (row_requested_by r))
    (default "" (row_requested_by r ≫= λ u, w_users w !! u))
    (row_type r) (row_mode r) (row_allowed r) (row_targets r) (row_timeout r)
    (row_status r) (row_error r) (default "" (row_result r))
    (row_started r) (row_finished r) (row_created r) (row_updated r).

Definition GetScanJob (id : string) : GoE Inv ScanJob :=
  stmt (λ _ w, match w_jobs w !! id with
               | Some r => Ok (job_of_row id r w, w)
               | None => Err ErrNotFound
               end).

Definition references {A} (table : gmap string A) (key : option string) : bool :=
  match key with None => true | Some k => bool_decide (is_Some (table !! k)) end.

Definition job_timeout (input : ScanJobInput) : Z :=
  if ji_TimeoutSeconds input <=? 0 then 60 else ji_TimeoutSeconds input.

Definition new_job_row (input : ScanJobInput) (now : Z) : JobRow :=
  MkJobRow (ji_AgentID input) (ji_ScheduleID input) (ji_RequestedBy input) (ji_ScanType input)
    (ji_Mode input) (ji_AllowedCIDRs input) (ji_Targets input) (job_timeout input)
    "queued" "" None None None now now.

Definition CreateScanJob (input : ScanJobInput) : GoE Inv ScanJob :=
  id ←? random_token;
  _ ←? stmt (λ now w,
    if negb (int4 (job_timeout input)) then Err ErrOutOfRange
    else if decide (w_jobs w !! id ≠ None) then Err ErrDuplicateKey
    else if negb (references (w_agents w) (Some (ji_AgentID input)) &&
                  references (w_schedules w) (ji_ScheduleID input) &&
                  references (w_users w) (ji_RequestedBy input)) then Err ErrForeignKey
    else Ok ((), with_jobs (<[id := new_job_row input now]> (w_jobs w)) w));
  GetScanJob id.

(** [ORDER BY created_at DESC LIMIT]; PostgreSQL leaves equal times unordered. *)
Definition newer (p q : string * JobRow) : Prop := row_created q.2 ≤ row_created p.2.
#[local] Instance newer_dec p q : Decision (newer p q).
Proof. unfold newer. apply _. Defined.

Definition ListScanJobs (limit : Z) : GoE Inv (list ScanJob) :=
  let limit := if (limit <=? 0) || (200 <? limit) then 50 else limit in
  stmt (λ _ w, Ok (map (λ p, job_of_row p.1 p.2 w)
    (take (Z.to_nat limit) (merge_sort newer (map_to_list (w_jobs w)))), w)).

Definition job_update (res : ScanJobResult) (json : option string) (now : Z) (r : JobRow) : JobRow :=
  MkJobRow (row_agent r) (row_schedule r) (row_requested_by r) (row_type r) (row_mode r)
    (row_allowed r) (row_targets r) (row_timeout r) (jr_Status res) (jr_Error res) json
    (match jr_StartedAt res with Some t => Some (timestamptz t) | None => row_started r end)
    (timestamptz <$> jr_FinishedAt res) (row_created r) now.

(** The [result] column: NULL for an empty text. *)
Definition result_json (res : ScanJobResult) : result db_error (option string) :=
  if decide (jr_Result res = "") then Ok None
  else match jsonb_in (jr_Result res) with Some j => Ok (Some j) | None => Err ErrJSON end.

Definition UpdateScanJobResult (id : string) (res : ScanJobResult) : GoE Inv unit :=
  stmt (λ now w,
    match result_json res with
    | Err e => Err e
    | Ok json => Ok ((), with_jobs (alter (job_update res json now) id (w_jobs w)) w)
    end).

(** *** Schedules *)

Definition schedule_of_row (s : ScanSchedule) (w : World Inv) : ScanSchedule :=
  MkScanSchedule (ss_ID s) (ss_Name s) (ss_AgentID s)
    (default "" (sa_Name <$> w_agents w !! ss_AgentID s)) (ss_ScanType s) (ss_Mode s)
    (ss_AllowedCIDRs s) (ss_Targets s) (ss_TimeoutSeconds s) (ss_IntervalSeconds s) (ss_Enabled s)
    (ss_WindowStartMin s) (ss_WindowEndMin s) (ss_WindowDays s) (ss_WindowTZ s) (ss_LastRunAt s)
    (ss_LastRunStatus s) (ss_LastRunError s) (ss_LastJobID s) (ss_NextRunAt s)
    (ss_CreatedAt s) (ss_UpdatedAt s).

Definition GetScanSchedule (id : string) : GoE Inv ScanSchedule :=
  stmt (λ _ w, match w_schedules w !! id with
               | Some s => Ok (schedule_of_row s w, w)
               | None => Err ErrNotFound
               end).

(** The constraints on a schedule's columns. *)
Definition window_min_ok (m : option Z) : bool :=
  match m with None => true | Some m => (0 <=? m) && (m <=? 1439) end.
Definition schedule_input_ok (input : ScanScheduleInput) : result db_error unit :=
  if negb (int4 (si_TimeoutSeconds input) && int4 (si_IntervalSeconds input) &&
           forallb int4 (option_list (si_WindowStartMin input) ++
                         option_list (si_WindowEndMin input) ++ si_WindowDays input))
  then Err ErrOutOfRange
  else if negb (window_min_ok (si_WindowStartMin input) && window_min_ok (si_WindowEndMin input))
  then Err ErrCheck else Ok ().

Definition schedule_tz (input : ScanScheduleInput) : string :=
  if decide (si_WindowTZ input = "") then "UTC" else si_WindowTZ input.

Definition schedule_put (id : string) (input : ScanScheduleInput) (old : ScanSchedule)
    (next now : Z) : ScanSchedule :=
  MkScanSchedule id (si_Name input) (si_AgentID input) "" (si_ScanType input) (si_Mode input)
    (si_AllowedCIDRs input) (si_Targets input) (si_TimeoutSeconds input) (si_IntervalSeconds input)
    (si_Enabled input) (si_WindowStartMin input) (si_WindowEndMin input) (si_WindowDays input)
    (schedule_tz input) (ss_LastRunAt old) (ss_LastRunStatus old) (ss_LastRunError old)
    (ss_LastJobID old) next (ss_CreatedAt old) now.

(** A row before its first run. *)
Definition blank_schedule (now : Z) : ScanSchedule :=
  MkScanSchedule "" "" "" "" "" "" [] [] 60 0 true None None [] "UTC" None "" "" "" now now now.

Definition CreateScanSchedule (input : ScanScheduleInput) : GoE Inv ScanSchedule :=
  id ←? random_token;
  now ←! time_now;
  let nextRun := now + wrap64 (si_IntervalSeconds input * second) in
  _ ←? stmt (λ now w,
    match schedule_input_ok input with
    | Err e => Err e
    | Ok _ =>
        if decide (w_schedules w !! id ≠ None) then Err ErrDuplicateKey
        else if negb (references (w_agents w) (Some (si_AgentID input))) then Err ErrForeignKey
        else Ok ((), with_schedules (<[id :=
          schedule_put id input (blank_schedule now) (timestamptz nextRun) now]> (w_schedules w)) w)
    end);
  GetScanSchedule id.

Definition UpdateScanSchedule (id : string) (input : ScanScheduleInput) : GoE Inv ScanSchedule :=
  _ ←? stmt (λ now w,
    match schedule_input_ok input, w_schedules w !! id with
    | Err ErrOutOfRange, _ => Err ErrOutOfRange
    | _, None => Err ErrNotFound
    | Err e, Some _ => Err e
    | Ok _, Some old =>
        if negb (references (w_agents w) (Some (si_AgentID input))) then Err ErrForeignKey
        else Ok ((), with_schedules (<[id :=
          schedule_put id input old (ss_NextRunAt old) now]> (w_schedules w)) w)
    end);
  GetScanSchedule id.

Definition DeleteScanSchedule (id : string) : GoE Inv unit :=
  stmt (λ _ w,
    if decide (w_schedules w !! id = None) then Err ErrNotFound
    else Ok ((), with_schedules (delete id (w_schedules w))
                   (with_jobs (schedule_unlink {[id]} <$> w_jobs w) w))).

Definition due (now : Z) (s : ScanSchedule) : bool := ss_Enabled s && (ss_NextRunAt s <=? now).

Definition earlier (s t : ScanSchedule) : Prop := ss_NextRunAt s ≤ ss_NextRunAt t.
#[local] Instance earlier_dec s t : Decision (earlier s t).
Proof. unfold earlier. apply _. Defined.

(** [WHERE enabled AND next_run_at <= now() ORDER BY next_run_at]. *)
Definition due_list (now : Z) (w : World Inv) : list ScanSchedule :=
  map (λ s, schedule_of_row s w)
    (merge_sort earlier (filter (λ s, due now s = true) (snd <$> map_to_list (w_schedules w)))).

Definition ListDueScanSchedules : GoE Inv (list ScanSchedule) :=
  stmt (λ now w, Ok (due_list now w, w)).

Definition ran (now : Z) (s : ScanSchedule) : ScanSchedule :=
  MkScanSchedule (ss_ID s) (ss_Name s) (ss_AgentID s) (ss_AgentName s) (ss_ScanType s) (ss_Mode s)
    (ss_AllowedCIDRs s) (ss_Targets s) (ss_TimeoutSeconds s) (ss_IntervalSeconds s) (ss_Enabled s)
    (ss_WindowStartMin s) (ss_WindowEndMin s) (ss_WindowDays s) (ss_WindowTZ s) (Some now)
    (ss_LastRunStatus s) (ss_LastRunError s) (ss_LastJobID s)
    (now + ss_IntervalSeconds s * second) (ss_CreatedAt s) now.

Definition MarkScanScheduleRan (id : string) : GoE Inv unit :=
  stmt (λ now w, Ok ((), with_schedules (alter (ran now) id (w_schedules w)) w)).

Definition last_run (status errMsg jobID : string) (now : Z) (s : ScanSchedule) : ScanSchedule :=
  MkScanSchedule (ss_ID s) (ss_Name s) (ss_AgentID s) (ss_AgentName s) (ss_ScanType s) (ss_Mode s)
    (ss_AllowedCIDRs s) (ss_Targets s) (ss_TimeoutSeconds s) (ss_IntervalSeconds s) (ss_Enabled s)
    (ss_WindowStartMin s) (ss_WindowEndMin s) (ss_WindowDays s) (ss_WindowTZ s) (Some now)
    status errMsg jobID (ss_NextRunAt s) (ss_CreatedAt s) now.

Definition SetScanScheduleLastRun (id status errMsg jobID : string) : GoE Inv unit :=
  stmt (λ now w, Ok ((), with_schedules (alter (last_run status errMsg jobID now) id (w_schedules w)) w)).

(** *** Audit, [store.go] *)

(** [metadata] must be a JSON text; the audit hook (webhooks) is another part. *)
Definition CreateAuditLog (actor : option string) (action subjectType subjectID metadata : string) :
    GoE Inv unit :=
  let metadata := if decide (metadata = "") then "{}" else metadata in
  stmt (λ now w,
    match jsonb_in metadata with
    | None => Err ErrJSON
    | Some j => if negb (references (w_users w) actor) then Err ErrForeignKey
                else Ok ((), with_audit (w_audit w ++ [MkAuditRow actor action subjectType subjectID j now]) w)
    end).
End operations.

(** ** Integrity of the tables *)

Section integrity.
Context {Inv : Type} {env : Env} (unlink : gset string → gset string → Inv → Inv).

Definition minute_ok (m : option Z) : Prop := ∀ x, m = Some x → 0 ≤ x < 1440.

Definition agent_wf (w : World Inv) (id : string) (a : ScanAgent) : Prop :=
  sa_ID a = id ∧ (sa_SiteID a = "" ∨ sa_SiteID a ∈ w_sites w).
Definition schedule_wf (w : World Inv) (id : string) (s : ScanSchedule) : Prop :=
  ss_ID s = id ∧ is_Some (w_agents w !! ss_AgentID s) ∧
  minute_ok (ss_WindowStartMin s) ∧ minute_ok (ss_WindowEndMin s) ∧
  int4 (ss_TimeoutSeconds s) = true ∧ int4 (ss_IntervalSeconds s) = true.
Definition job_wf (w : World Inv) (_ : string) (r : JobRow) : Prop :=
  is_Some (w_agents w !! row_agent r) ∧
  (∀ k, row_schedule r = Some k → is_Some (w_schedules w !! k)) ∧
  (∀ u, row_requested_by r = Some u → is_Some (w_users w !! u)) ∧
  0 < row_timeout r < 2 ^ 31.

(** Keys agree with the records, references resolve, numbers are in range. *)
Definition wf (w : World Inv) : Prop :=
  map_Forall (agent_wf w) (w_agents w) ∧ map_Forall (schedule_wf w) (w_schedules w) ∧
  map_Forall (job_wf w) (w_jobs w).

Definition keeps_wf (w w' : World Inv) : Prop := wf w → wf w'.

Lemma due_list_elem now (w : World Inv) s :
  s ∈ due_list now w ↔
  ∃ k t, w_schedules w !! k = Some t ∧ due now t = true ∧ s = schedule_of_row t w.
Proof.
  unfold due_list. rewrite list_elem_of_fmap. split.
  - intros (t & -> & Ht). rewrite merge_sort_Permutation in Ht.
    apply list_elem_of_filter in Ht as [Hd Ht]. apply list_elem_of_fmap in Ht as ((k & t') & -> & Hk).
    apply elem_of_map_to_list in Hk. by exists k, t'.
  - intros (k & t & Hk & Hd & ->). exists t. split; [done|]. rewrite merge_sort_Permutation.
    apply list_elem_of_filter. split; [done|]. apply list_elem_of_fmap. exists (k, t).
    split; [done|]. by apply elem_of_map_to_list.
Qed.

Lemma guarantees_stmt {A} (R : World Inv → World Inv → Prop)
    (f : Z → World Inv → result db_error (A * World Inv)) :
  (∀ w, R w (bump w)) → (∀ w now a w', f now (bump w) = Ok (a, w') → R w w') →
  guarantees R (stmt f).
Proof.
  intros Hb Hf. apply guarantees_atomic. intros w. unfold run_stmt.
  destruct (fault _); [apply Hb|].
  destruct (f _ (bump w)) as [[a w']|e] eqn:Hr; [by eapply Hf|apply Hb].
Qed.

Lemma alone_stmt {A} (f : Z → World Inv → result db_error (A * World Inv)) w :
  alone (stmt f) w = run_stmt f w.
Proof. apply alone_atomic. Qed.

Lemma alone_try {A B} (p : GoE Inv A) (h : A → GoE Inv B) w :
  alone (try_bind p h) w =
  match alone p w with (Ok a, w') => alone (h a) w' | (Err e, w') => (Err e, w') end.
Proof. unfold try_bind. rewrite alone_bind. by destruct (alone p w) as [[a|e] w']. Qed.

Lemma guarantees_try {A B} (R : World Inv → World Inv → Prop) (p : GoE Inv A) (h : A → GoE Inv B) :
  guarantees R p → (∀ a, guarantees R (h a)) → guarantees R (try_bind p h).
Proof. intros Hp Hh. apply guarantees_bind; [done|]. by intros [a|e]; [apply Hh|]. Qed.

Lemma guarantees_time_now (R : World Inv → World Inv → Prop) :
  (∀ w, R w (bump w)) → guarantees R time_now.
Proof. intros Hb. by apply guarantees_atomic. Qed.

Lemma guarantees_random_token (R : World Inv → World Inv → Prop) :
  (∀ w, R w (bump w)) → guarantees R random_token.
Proof. intros Hb. by apply guarantees_atomic. Qed.

Lemma is_Some_insert {A} (m : gmap string A) i x k : is_Some (m !! k) → is_Some (<[i:=x]> m !! k).
Proof. intros H. destruct (decide (i = k)) as [->|]; [by rewrite lookup_insert_eq|by rewrite lookup_insert_ne]. Qed.

Lemma is_Some_alter {A} (m : gmap string A) f i k : is_Some (m !! k) → is_Some (alter f i m !! k).
Proof.
  intros [x H]. destruct (decide (i = k)) as [->|].
  - rewrite lookup_alter_eq, H. by eexists.
  - rewrite lookup_alter_ne by done. by eexists.
Qed.

(** Growing the key sets of the tables preserves what the rows promise. *)
Lemma schedule_wf_mono w w' id s :
  (∀ k, is_Some (w_agents w !! k) → is_Some (w_agents w' !! k)) →
  schedule_wf w id s → schedule_wf w' id s.
Proof. intros Hk (?&?&?&?&?&?). unfold schedule_wf. split_and!; auto. Qed.

Lemma job_wf_mono w w' id r :
  (∀ k, is_Some (w_agents w !! k) → is_Some (w_agents w' !! k)) →
  (∀ k, is_Some (w_schedules w !! k) → is_Some (w_schedules w' !! k)) →
  w_users w' = w_users w → job_wf w id r → job_wf w' id r.
Proof. intros Ha Hs Hu (?&?&?&?). unfold job_wf. rewrite Hu. split; [|split; [|split]]; auto. Qed.

Lemma map_Forall_alter {A} (P : string → A → Prop) f i (m : gmap string A) :
  (∀ x, P i x → P i (f x)) → map_Forall P m → map_Forall P (alter f i m).
Proof.
  intros Hf Hm k x Hx. destruct (decide (i = k)) as [->|].
  - rewrite lookup_alter_eq in Hx. destruct (m !! k) as [y|] eqn:Hy; simplify_eq/=. apply Hf. by apply Hm.
  - rewrite lookup_alter_ne in Hx by done. by apply Hm.
Qed.

(** The four ways a statement changes one table. *)
Lemma wf_put_agent w id a :
  wf w → agent_wf w id a → wf (with_agents (<[id:=a]> (w_agents w)) w).
Proof.
  intros (Ha & Hs & Hj) H. split_and!; cbn.
  - by apply map_Forall_insert_2.
  - intros k s ?. eapply schedule_wf_mono; [|by apply Hs]. intros. by apply is_Some_insert.
  - intros k r ?. eapply (job_wf_mono w); [| | |by apply Hj]; try done. intros. by apply is_Some_insert.
Qed.

Lemma wf_alter_agent w id f :
  wf w → (∀ a, agent_wf w id a → agent_wf w id (f a)) → wf (with_agents (alter f id (w_agents w)) w).
Proof.
  intros (Ha & Hs & Hj) H. split_and!; cbn.
  - by apply map_Forall_alter.
  - intros k s ?. eapply schedule_wf_mono; [|by apply Hs]. intros. by apply is_Some_alter.
  - intros k r ?. eapply (job_wf_mono w); [| | |by apply Hj]; try done. intros. by apply is_Some_alter.
Qed.

Lemma wf_put_schedule w id s :
  wf w → schedule_wf w id s → wf (with_schedules (<[id:=s]> (w_schedules w)) w).
Proof.
  intros (Ha & Hs & Hj) H. split_and!; cbn; [done|by apply map_Forall_insert_2|].
  intros k r ?. eapply (job_wf_mono w); [| | |by apply Hj]; try done. intros. by apply is_Some_insert.
Qed.

Lemma wf_alter_schedule w id f :
  wf w → (∀ s, schedule_wf w id s → schedule_wf w id (f s)) →
  wf (with_schedules (alter f id (w_schedules w)) w).
Proof.
  intros (Ha & Hs & Hj) H. split_and!; cbn; [done|by apply map_Forall_alter|].
  intros k r ?. eapply (job_wf_mono w); [| | |by apply Hj]; try done. intros. by apply is_Some_alter.
Qed.

Lemma wf_jobs w jobs :
  wf w → map_Forall (job_wf w) jobs → wf (with_jobs jobs w).
Proof. by intros (Ha & Hs & Hj) H. Qed.

Lemma wf_audit w l : wf w → wf (with_audit l w).
Proof. done. Qed.

Lemma references_spec {A} (m : gmap string A) key :
  references m key = true ↔ ∀ k, key = Some k → is_Some (m !! k).
Proof.
  destruct key as [k|]; cbn; [rewrite bool_decide_eq_true|].
  - split; [by intros ? ? [= <-]|by intros H; apply H].
  - by split.
Qed.

Lemma site_ok_spec (w : World Inv) site : site_ok w site = true ↔ site = "" ∨ site ∈ w_sites w.
Proof. unfold site_ok. by rewrite bool_decide_eq_true. Qed.

Lemma window_min_ok_spec m : window_min_ok m = true ↔ minute_ok m.
Proof.
  unfold minute_ok. destruct m as [m|]; cbn; [|by split].
  split; [intros H x [= <-]; lia|intros H; specialize (H m eq_refl); lia].
Qed.

Lemma schedule_input_ok_spec input :
  schedule_input_ok input = Ok () →
  minute_ok (si_WindowStartMin input) ∧ minute_ok (si_WindowEndMin input) ∧
  int4 (si_TimeoutSeconds input) = true ∧ int4 (si_IntervalSeconds input) = true.
Proof.
  unfold schedule_input_ok. rewrite <- !window_min_ok_spec. intros H.
  repeat case_match; simplify_eq. bool_hyps. tauto.
Qed.

Lemma schedule_unlink_wf (w w' : World Inv) gone id r :
  (∀ k, is_Some (w_agents w !! k) → k ≠ row_agent r ∨ is_Some (w_agents w' !! k)) →
  (∀ k, is_Some (w_schedules w !! k) → k ∈ gone ∨ is_Some (w_schedules w' !! k)) →
  w_users w' = w_users w → job_wf w id r → job_wf w' id (schedule_unlink gone r).
Proof.
  intros Ha Hs Hu (Hra & Hrs & Hru & Ht).
  assert (is_Some (w_agents w' !! row_agent r)) by (by destruct (Ha _ Hra)).
  unfold schedule_unlink. destruct (row_schedule r) as [k|] eqn:Hk.
  - destruct (decide (k ∈ gone)).
    + unfold job_wf. rewrite Hu. split_and!; [done|done|done|apply Ht|apply Ht].
    + unfold job_wf. rewrite Hu, Hk. split_and!; [done| |done|apply Ht|apply Ht]. intros ? [= <-].
      by destruct (Hs k (Hrs k eq_refl)).
  - unfold job_wf. rewrite Hu, Hk. split_and!; [done|done|done|apply Ht|apply Ht].
Qed.

Lemma guarantees_stmt_wf {A} (f : Z → World Inv → result db_error (A * World Inv)) :
  (∀ w now a w', wf w → f now w = Ok (a, w') → wf w') → guarantees keeps_wf (stmt f).
Proof.
  intros Hf. apply guarantees_stmt; [by intros w Hw|]. intros w now a w' Hr Hw.
  by apply (Hf (bump w) now a w').
Qed.

Lemma schedule_row_wf (w : World Inv) id input old next now :
  schedule_input_ok input = Ok () → is_Some (w_agents w !! si_AgentID input) →
  schedule_wf w id (schedule_put id input old next now).
Proof.
  intros (?&?&?&?)%schedule_input_ok_spec Href. by split_and!.
Qed.

(** The proof obligations of a statement that keeps the tables well formed. *)
Ltac wf_stmt :=
  apply guarantees_stmt_wf;
  let Hwf := fresh "Hwf" in intros w now ? w' Hwf ?; repeat case_match; simplify_eq/=; bool_hyps.

Lemma DeleteScanAgent_wf id : guarantees keeps_wf (DeleteScanAgent unlink id).
Proof.
  wf_stmt. destruct Hwf as (Ha & Hs & Hj). split_and!; cbn.
  - intros k a [_ Hk]%lookup_delete_Some. exact (Ha k a Hk).
  - intros k s [Hk Hne]%map_lookup_filter_Some. destruct (Hs k s Hk) as (?&[a Hag]&?).
    split_and!; try tauto. exists a. cbn. by rewrite lookup_delete_ne.
  - intros k r' Hk. apply lookup_fmap_Some in Hk as (r & <- & Hk).
    apply map_lookup_filter_Some in Hk as [Hk Hne]. cbn in Hne.
    apply (schedule_unlink_wf w); [| |done|by apply Hj].
    + intros a Hag. destruct (decide (a = id)) as [->|]; [by left|].
      right. cbn. by rewrite lookup_delete_ne.
    + intros s [x Hx]. cbn.
      destruct (filter (λ p : string * ScanSchedule, ss_AgentID p.2 ≠ id) (w_schedules w) !! s) eqn:Hf;
        [by right; eexists|]. left.
      apply elem_of_difference. rewrite !elem_of_dom, Hx, Hf. split; [by eexists|by intros [? [=]]].
Qed.
(** Walks through a program to its statements. *)
Ltac wf_prog :=
  repeat match goal with
  | |- guarantees _ (try_bind _ _) => apply guarantees_try; [|intros ?]
  | |- guarantees _ (prog_bind _ _) => apply guarantees_bind; [|intros ?]
  | |- guarantees _ time_now => apply guarantees_time_now; by intros w Hw
  | |- guarantees _ random_token => apply guarantees_random_token; by intros w Hw
  | |- guarantees _ (Ret _) => exact I
  | |- guarantees _ (match _ with _ => _ end) => case_match
  end.

Lemma GetScanAgent_wf id : guarantees keeps_wf (GetScanAgent (Inv := Inv) id).
Proof. by wf_stmt. Qed.
Lemma GetScanJob_wf id : guarantees keeps_wf (GetScanJob (Inv := Inv) id).
Proof. by wf_stmt. Qed.
Lemma GetScanSchedule_wf id : guarantees keeps_wf (GetScanSchedule (Inv := Inv) id).
Proof. by wf_stmt. Qed.
Lemma ListScanJobs_wf limit : guarantees keeps_wf (ListScanJobs (Inv := Inv) limit).
Proof. by wf_stmt. Qed.
Lemma ListDueScanSchedules_wf : guarantees keeps_wf (ListDueScanSchedules (Inv := Inv)).
Proof. by wf_stmt. Qed.

Lemma CreateScanAgent_wf input : guarantees keeps_wf (CreateScanAgent (Inv := Inv) input).
Proof.
  unfold CreateScanAgent. wf_prog; [|apply GetScanAgent_wf]. wf_stmt;
    (apply wf_put_agent; [done|split; [done|by apply site_ok_spec]]).
Qed.

Lemma UpdateScanAgent_wf id input : guarantees keeps_wf (UpdateScanAgent (Inv := Inv) id input).
Proof.
  unfold UpdateScanAgent. wf_prog; [|apply GetScanAgent_wf]. wf_stmt;
    (apply wf_put_agent; [done|split; [done|by apply site_ok_spec]]).
Qed.

Lemma EnrollDiscoveredAgent_wf url input :
  guarantees keeps_wf (EnrollDiscoveredAgent (Inv := Inv) url input).
Proof.
  unfold EnrollDiscoveredAgent. wf_prog; try apply CreateScanAgent_wf.
  unfold GetScanAgentByEndpoint. wf_prog; [by wf_stmt|apply GetScanAgent_wf].
Qed.

Lemma SetScanAgentStatus_wf id status : guarantees keeps_wf (SetScanAgentStatus (Inv := Inv) id status).
Proof.
  wf_stmt. apply wf_put_agent; [done|]. destruct Hwf as (Ha & _).
  match goal with H : w_agents _ !! _ = Some _ |- _ => exact (Ha _ _ H) end.
Qed.

Lemma TouchScanAgent_wf id version : guarantees keeps_wf (TouchScanAgent (Inv := Inv) id version).
Proof. wf_stmt. by apply wf_alter_agent. Qed.

Lemma CreateScanJob_wf input : guarantees keeps_wf (CreateScanJob (Inv := Inv) input).
Proof.
  unfold CreateScanJob. wf_prog; [|apply GetScanJob_wf]. wf_stmt.
  apply wf_jobs; [done|]. apply map_Forall_insert_2; [|apply Hwf].
  split_and!; cbn; try by apply references_spec.
  - assumption.
  - unfold job_timeout. destruct (_ <=? 0) eqn:?; lia.
  - unfold int4 in *. lia.
Qed.

Lemma UpdateScanJobResult_wf id res : guarantees keeps_wf (UpdateScanJobResult (Inv := Inv) id res).
Proof. wf_stmt. apply wf_jobs; [done|]. by apply map_Forall_alter; [|apply Hwf]. Qed.

Lemma CreateScanSchedule_wf input : guarantees keeps_wf (CreateScanSchedule (Inv := Inv) input).
Proof.
  unfold CreateScanSchedule. wf_prog; [|apply GetScanSchedule_wf]. wf_stmt;
    apply wf_put_schedule; try done; apply schedule_row_wf; (assumption || by (repeat match goal with u : unit |- _ => destruct u end)).
Qed.

Lemma UpdateScanSchedule_wf id input : guarantees keeps_wf (UpdateScanSchedule (Inv := Inv) id input).
Proof.
  unfold UpdateScanSchedule. wf_prog; [|apply GetScanSchedule_wf]. wf_stmt;
    apply wf_put_schedule; try done; apply schedule_row_wf; (assumption || by (repeat match goal with u : unit |- _ => destruct u end)).
Qed.

Lemma DeleteScanSchedule_wf id : guarantees keeps_wf (DeleteScanSchedule (Inv := Inv) id).
Proof.
  wf_stmt. destruct Hwf as (Ha & Hs & Hj). split_and!; cbn; [done| |].
  - intros k s [_ Hk]%lookup_delete_Some. exact (Hs k s Hk).
  - intros k r' Hk. apply lookup_fmap_Some in Hk as (r & <- & Hk).
    apply (schedule_unlink_wf w); [by right| |done|by apply Hj].
    intros s Hx. cbn. destruct (decide (s = id)) as [->|]; [left; set_solver|].
    right. by rewrite lookup_delete_ne.
Qed.

Lemma MarkScanScheduleRan_wf id : guarantees keeps_wf (MarkScanScheduleRan (Inv := Inv) id).
Proof. wf_stmt. by apply wf_alter_schedule. Qed.

Lemma SetScanScheduleLastRun_wf id status err job :
  guarantees keeps_wf (SetScanScheduleLastRun (Inv := Inv) id status err job).
Proof. wf_stmt. by apply wf_alter_schedule. Qed.

Lemma CreateAuditLog_wf actor action st si meta :
  guarantees keeps_wf (CreateAuditLog (Inv := Inv) actor action st si meta).
Proof. by wf_stmt. Qed.

(** C18: every statement of the scan store, whatever the environment does to it,
    keeps the tables well formed: keys agree with the records' identifiers,
    jobs and schedules name existing agents, schedules and users (deletions
    cascade or unlink), window bounds are minutes of the day, and timeouts fit
    the column and are positive for jobs. *)
Theorem store_integrity :
  (∀ input, guarantees keeps_wf (CreateScanAgent (Inv := Inv) input)) ∧
  (∀ id input, guarantees keeps_wf (UpdateScanAgent (Inv := Inv) id input)) ∧
  (∀ id, guarantees keeps_wf (DeleteScanAgent unlink id)) ∧
  (∀ url input, guarantees keeps_wf (EnrollDiscoveredAgent (Inv := Inv) url input)) ∧
  (∀ id status, guarantees keeps_wf (SetScanAgentStatus (Inv := Inv) id status)) ∧
  (∀ id version, guarantees keeps_wf (TouchScanAgent (Inv := Inv) id version)) ∧
  (∀ input, guarantees keeps_wf (CreateScanJob (Inv := Inv) input)) ∧
  (∀ id res, guarantees keeps_wf (UpdateScanJobResult (Inv := Inv) id res)) ∧
  (∀ input, guarantees keeps_wf (CreateScanSchedule (Inv := Inv) input)) ∧
  (∀ id input, guarantees keeps_wf (UpdateScanSchedule (Inv := Inv) id input)) ∧
  (∀ id, guarantees keeps_wf (DeleteScanSchedule (Inv := Inv) id)) ∧
  (∀ id, guarantees keeps_wf (MarkScanScheduleRan (Inv := Inv) id)) ∧
  (∀ id status err job, guarantees keeps_wf (SetScanScheduleLastRun (Inv := Inv) id status err job)).
Proof.
  split_and!; intros; auto using CreateScanAgent_wf, UpdateScanAgent_wf, DeleteScanAgent_wf,
    EnrollDiscoveredAgent_wf, SetScanAgentStatus_wf, TouchScanAgent_wf, CreateScanJob_wf,
    UpdateScanJobResult_wf, CreateScanSchedule_wf, UpdateScanSchedule_wf, DeleteScanSchedule_wf,
    MarkScanScheduleRan_wf, SetScanScheduleLastRun_wf.
Qed.
End integrity.
