(* ===== verification/Windows.v ===== *)
(** * Schedule windows: [internal/scanner/orchestrator/windows.go]

    When a due schedule may fire: a time-of-day range, possibly wrapping past
    midnight, and a weekday set, both read on the local clock of the schedule's
    zone. *)

From S2P Require Import Prelude GoStrings GoTime Process Scans.
Local Open Scope Z_scope.

(** A [*time.Location]: the local clock's offset from UTC at an instant. *)
Definition Location : Type := Z → Z.
Definition UTC : Location := λ _, 0.
(** [now.In(loc)], read as a wall clock. *)
Definition local (loc : Location) (now : Z) : Z := now + loc now.

Record scanWindow : Type := MkScanWindow
  { startMin : Z; endMin : Z; days : gset Z; win_loc : option Location }.

Definition windowAllows (w : scanWindow) (now : Z) : bool :=
  let now := match win_loc w with Some loc => local loc now | None => now end in
  if (0 <? size (days w))%nat && negb (bool_decide (weekday now ∈ days w)) then false
  else if (startMin w <? 0) || (endMin w <? 0) then true
  else
    let cur := minute_of_day now in
    if startMin w =? endMin w then true
    else if startMin w <? endMin w then (startMin w <=? cur) && (cur <? endMin w)
    else (startMin w <=? cur) || (cur <? endMin w).

Section windows.
(** [time.LoadLocation], from the zone database. *)
Context (LoadLocation : string → option Location).

Definition window_days (l : list Z) : gset Z :=
  list_to_set (filter (λ d, 0 ≤ d ∧ d ≤ 6) l).

Definition window_loc (name : string) : Location :=
  if decide (name ≠ "" ∧ name ≠ "UTC") then default UTC (LoadLocation name) else UTC.

Definition windowFromSchedule (s : ScanSchedule) : scanWindow :=
  MkScanWindow (default (-1) (ss_WindowStartMin s)) (default (-1) (ss_WindowEndMin s))
    (window_days (ss_WindowDays s)) (Some (window_loc (ss_WindowTZ s))).

(** ** Lemmas *)

Lemma weekday_range t : 0 ≤ weekday t ≤ 6.
Proof. unfold weekday. pose proof (Z.mod_pos_bound (t / day + 4) 7). lia. Qed.

Lemma minute_of_day_range t : 0 ≤ minute_of_day t < 1440.
Proof.
  unfold minute_of_day.
  assert (day = 1440 * minute) as -> by reflexivity. assert (0 < minute) as Hm by reflexivity.
  pose proof (Z.mod_pos_bound t (1440 * minute)) as Hb.
  split; [apply Z.div_pos; lia|]. apply Z.div_lt_upper_bound; lia.
Qed.

Lemma window_days_elem d l : d ∈ window_days l ↔ d ∈ l ∧ 0 ≤ d ≤ 6.
Proof. unfold window_days. rewrite elem_of_list_to_set, list_elem_of_filter. tauto. Qed.

Lemma window_days_empty l : window_days l = ∅ ↔ Forall (λ d, ¬ 0 ≤ d ≤ 6) l.
Proof.
  rewrite Forall_forall. split.
  - intros He d Hd Hr. assert (d ∈ window_days l) as Hx by (by apply window_days_elem).
    rewrite He in Hx. by apply not_elem_of_empty in Hx.
  - intros Hl. apply set_eq. intros d. rewrite window_days_elem.
    split; [intros [Hd Hr]; by destruct (Hl d Hd)|by intros ?%not_elem_of_empty].
Qed.

(** The minutes of the day from [a] round to before [b]. *)
Definition minutes_after (a m : Z) : Z := (m - a) mod 1440.

Lemma cyclic_range a b m :
  0 ≤ a < 1440 → 0 ≤ b < 1440 → 0 ≤ m < 1440 → a ≠ b →
  (minutes_after a m < minutes_after a b ↔
   if a <? b then a ≤ m < b else a ≤ m ∨ m < b).
Proof.
  intros Ha Hb Hm Hab. unfold minutes_after.
  assert (∀ x, 0 ≤ x < 1440 → (x - a) mod 1440 = if a <=? x then x - a else x - a + 1440) as Hmod.
  { intros x Hx. destruct (Z.leb_spec a x); [apply Z.mod_small; lia|].
    symmetry. apply (Z.mod_unique _ _ (-1)); lia. }
  rewrite (Hmod m Hm), (Hmod b Hb).
  destruct (Z.ltb_spec a b), (Z.leb_spec a m), (Z.leb_spec a b); lia.
Qed.

(** A due schedule may fire exactly when the local weekday is one of its
    days (any day, when none of its days is a weekday) and the local minute is
    in its range: all day when a bound is missing or the bounds are equal, and
    otherwise in the half-open arc of the clock face from the start forward to
    the end, which is how a range that wraps past midnight is read. *)
Theorem windowAllows_spec s now :
  (∀ m, ss_WindowStartMin s = Some m → 0 ≤ m < 1440) →
  (∀ m, ss_WindowEndMin s = Some m → 0 ≤ m < 1440) →
  let t := local (window_loc (ss_WindowTZ s)) now in
  windowAllows (windowFromSchedule s) now = true ↔
    (weekday t ∈ ss_WindowDays s ∨ Forall (λ d, ¬ 0 ≤ d ≤ 6) (ss_WindowDays s)) ∧
    match ss_WindowStartMin s, ss_WindowEndMin s with
    | Some a, Some b => a = b ∨ minutes_after a (minute_of_day t) < minutes_after a b
    | _, _ => True
    end.
Proof.
  intros Hs He t. unfold windowAllows, windowFromSchedule. cbn [win_loc startMin endMin days].
  fold t. rewrite <- window_days_empty.
  assert ((0 <? size (window_days (ss_WindowDays s)))%nat &&
     negb (bool_decide (weekday t ∈ window_days (ss_WindowDays s))) = false ↔
     weekday t ∈ ss_WindowDays s ∨ window_days (ss_WindowDays s) = ∅) as <-.
  { rewrite andb_false_iff, Nat.ltb_ge, negb_false_iff, bool_decide_eq_true, window_days_elem.
    pose proof (weekday_range t) as Hr. rewrite Nat.le_0_r, size_empty_iff, <- leibniz_equiv_iff.
    tauto. }
  pose proof (minute_of_day_range t) as Hm.
  destruct (_ && _); [by split; [|intros [? _]]|].
  destruct (ss_WindowStartMin s) as [a|] eqn:Ha; cbn [default from_option id].
  2: { by replace (_ <? 0) with true by done. }
  destruct (ss_WindowEndMin s) as [b|] eqn:Hb; cbn [default from_option id].
  2: { rewrite orb_true_r. by split. }
  specialize (Hs a eq_refl). specialize (He b eq_refl).
  replace ((a <? 0) || (b <? 0)) with false by lia.
  destruct (Z.eqb_spec a b) as [->|Hab]; [by split; [split; [|left]|]|].
  rewrite cyclic_range by done. destruct (a <? b); lia.
Qed.
End windows.

(** A night window in a zone two hours ahead of UTC. *)
Definition night_schedule : ScanSchedule :=
  MkScanSchedule "s" "night" "a" "" "combined" "light_active" [] [] 60 3600 true
    (Some 1320) (Some 360) [4] "Europe/Athens" None "" "" "" 0 0 0.
Definition athens : string → option Location := λ _, Some (λ _, 2 * hour).

Lemma windowAllows_spec_witness :
  windowAllows (windowFromSchedule athens night_schedule) (1700136000 * second + 8 * hour) = true.
Proof.
  apply (windowAllows_spec athens night_schedule (1700136000 * second + 8 * hour)).
  - intros m [= <-]. lia.
  - intros m [= <-]. lia.
  - split; [left; vm_compute; by left|]. right. vm_compute. reflexivity.
Defined.
