(* ===== verification/Queue.v ===== *)
(** * The discovery queue as the orchestrator uses it

    The records of [internal/store/discoveries.go] and the operations the
    orchestrator calls, as an interface: what it relies on is that they leave the
    scan tables alone. *)

From S2P Require Import Prelude Process Scans.
Local Open Scope Z_scope.

Record DiscoveryService : Type := MkDiscoveryService
  { ds_Protocol : string; ds_Port : Z; ds_State : string; ds_ServiceName : string;
    ds_Product : string; ds_Version : string }.

#[export] Instance DiscoveryService_eq_dec : EqDecision DiscoveryService.
Proof. solve_decision. Defined.

Definition ReconcileNew : string := "new".
Definition ReconcileMatch : string := "match".
Definition ReconcileConflict : string := "conflict".

Record DiscoveryInput : Type := MkDiscoveryInput
  { di_JobID : string; di_AgentID : string; di_IP : string; di_MAC : string; di_Vendor : string;
    di_Hostname : string; di_OSFamily : string; di_OSDetail : string; di_HWSerial : string;
    di_HWObjectID : string; di_VLAN : Z; di_Services : list DiscoveryService }.

Record DiscoveryUpsert : Type := MkDiscoveryUpsert
  { du_ID : string; du_ReviewStatus : string; du_ReconcileStatus : string }.

Record Discovery : Type := MkDiscovery
  { d_ID : string; d_JobID : string; d_AgentID : string; d_AgentName : string; d_IP : string;
    d_MAC : string; d_Vendor : string; d_Hostname : string; d_OSFamily : string;
    d_OSDetail : string; d_HWSerial : string; d_HWObjectID : string; d_VLAN : Z;
    d_Services : list DiscoveryService; d_Status : string; d_ReconcileStatus : string;
    d_Conflict : string; d_ImportedAddressID : string; d_ImportedDeviceID : string;
    d_FirstSeenAt : Z; d_LastSeenAt : Z }.

(** Only the inventory, and the position in the environment, change. *)
Definition only_inv {Inv} (w w' : World Inv) : Prop :=
  w_sites w' = w_sites w ∧ w_users w' = w_users w ∧ w_agents w' = w_agents w ∧
  w_schedules w' = w_schedules w ∧ w_jobs w' = w_jobs w ∧ w_audit w' = w_audit w ∧
  w_spawned w' = w_spawned w.

#[export] Instance only_inv_preorder {Inv} : PreOrder (@only_inv Inv).
Proof.
  split; [by intros w|]. intros w1 w2 w3 (?&?&?&?&?&?&?) (?&?&?&?&?&?&?).
  unfold only_inv. split_and!; congruence.
Qed.

(** The operations, and the law the orchestrator relies on. *)
Class DiscoveryStore (Inv : Type) : Type :=
  { UpsertDiscovery : DiscoveryInput → GoE Inv DiscoveryUpsert;
    ImportDiscovery : string → string → GoE Inv Discovery;
    SyncImportedDiscovery : string → GoE Inv string;
    AutoLinkDeviceBySerial : string → GoE Inv (list string);
    upsert_inv : ∀ input, guarantees only_inv (UpsertDiscovery input);
    import_inv : ∀ id name, guarantees only_inv (ImportDiscovery id name);
    sync_inv : ∀ id, guarantees only_inv (SyncImportedDiscovery id);
    autolink_inv : ∀ id, guarantees only_inv (AutoLinkDeviceBySerial id) }.
