(* ===== verification/Inventory.v ===== *)
(** * The inventory behind the discovery queue

    [internal/store/discoveries.go] and the linking half of
    [internal/store/device_links.go]: subnets, devices, addresses, MACs and
    discoveries as tables; reconciling, recording, importing and syncing an
    observation; hardware groups. The instance [inventory_store] at the end
    discharges the interface of [Queue]. A transaction is one atomic step. *)

From S2P Require Import Prelude GoStrings Netip Macaddr GoTime Process Scans Queue.
Local Open Scope Z_scope.

(** ** Tables

    [inet] and [macaddr] values are represented by their canonical text. Rows are
    keyed by the column PostgreSQL keeps unique. *)

Record Subnet : Type := MkSubnet
  { sn_site : option string; sn_cidr : string; sn_name : string; sn_vlan : option Z;
    sn_description : string }.

Record Device : Type := MkDevice
  { dv_Name : string; dv_Description : string; dv_OSFamily : string; dv_OSDetail : string;
    dv_HWSerial : string; dv_HWObjectID : string; dv_Services : list DiscoveryService;
    dv_Source : string; dv_Created : Z; dv_Group : option string }.

(** Keyed by the address. *)
Record AddressRow : Type := MkAddressRow
  { ad_ID : string; ad_Subnet : option string; ad_Device : option string; ad_State : string;
    ad_Hostname : string; ad_Notes : string; ad_LastSeen : option Z }.

(** Keyed by the MAC. *)
Record MacRow : Type := MkMacRow
  { mc_ID : string; mc_Device : option string; mc_Vendor : string; mc_Private : bool }.

(** Keyed by the address. *)
Record DiscoveryRow : Type := MkDiscoveryRow
  { dr_ID : string; dr_Job : option string; dr_Agent : option string; dr_MAC : option string;
    dr_Vendor : string; dr_Hostname : string; dr_OSFamily : string; dr_OSDetail : string;
    dr_HWSerial : string; dr_HWObjectID : string; dr_VLAN : Z; dr_Services : list DiscoveryService;
    dr_Status : string; dr_Reconcile : string; dr_Conflict : string;
    dr_Address : option string; dr_Device : option string; dr_First : Z; dr_Last : Z }.

(** Tags by identifier; a tagging is a tag, an entity type and an entity. *)
Record Tag : Type := MkTag { tg_name : string; tg_color : string }.

(** Custom fields by identifier; values by field and entity. *)
Record CustomFieldDef : Type := MkCustomField
  { cf_EntityType : string; cf_Name : string; cf_FieldType : string; cf_Created : Z }.

Record Inventory : Type := MkInventory
  { iv_settings : gmap string string; iv_subnets : gmap string Subnet;
    iv_devices : gmap string Device; iv_addresses : gmap string AddressRow;
    iv_macs : gmap string MacRow; iv_discoveries : gmap string DiscoveryRow;
    iv_rejections : gset (string * string);
    iv_tags : gmap string Tag; iv_taggings : gset (string * string * string);
    iv_fields : gmap string CustomFieldDef; iv_values : gmap (string * string) string }.

Definition with_subnets (x : gmap string Subnet) (v : Inventory) : Inventory :=
  MkInventory (iv_settings v) x (iv_devices v) (iv_addresses v) (iv_macs v) (iv_discoveries v) (iv_rejections v)
    (iv_tags v) (iv_taggings v) (iv_fields v) (iv_values v).
Definition with_devices (x : gmap string Device) (v : Inventory) : Inventory :=
  MkInventory (iv_settings v) (iv_subnets v) x (iv_addresses v) (iv_macs v) (iv_discoveries v) (iv_rejections v)
    (iv_tags v) (iv_taggings v) (iv_fields v) (iv_values v).
Definition with_addresses (x : gmap string AddressRow) (v : Inventory) : Inventory :=
  MkInventory (iv_settings v) (iv_subnets v) (iv_devices v) x (iv_macs v) (iv_discoveries v) (iv_rejections v)
    (iv_tags v) (iv_taggings v) (iv_fields v) (iv_values v).
Definition with_macs (x : gmap string MacRow) (v : Inventory) : Inventory :=
  MkInventory (iv_settings v) (iv_subnets v) (iv_devices v) (iv_addresses v) x (iv_discoveries v) (iv_rejections v)
    (iv_tags v) (iv_taggings v) (iv_fields v) (iv_values v).
Definition with_discoveries (x : gmap string DiscoveryRow) (v : Inventory) : Inventory :=
  MkInventory (iv_settings v) (iv_subnets v) (iv_devices v) (iv_addresses v) (iv_macs v) x (iv_rejections v)
    (iv_tags v) (iv_taggings v) (iv_fields v) (iv_values v).

(** [cidr >>= inet] and [masklen]. *)
Definition cidr_contains (cidr ip : string) : bool :=
  match parse_prefix cidr, parse_addr ip with
  | Some p, Some a => prefix_contains p a
  | _, _ => false
  end.
Definition masklen (cidr : string) : Z :=
  match parse_prefix cidr with Some p => pfx_bits p | None => 0 end.

Definition emptyToNil (s : string) : option string :=
  if decide (trim_space s = "") then None else Some s.
Definition nonempty (s : string) : option string := if decide (s = "") then None else Some s.

(** [CASE WHEN new <> '' THEN new ELSE old END]. *)
Definition keep_text (new old : string) : string := if decide (new = "") then old else new.
Definition keep_list {A} (new old : list A) : list A := match new with [] => old | _ => new end.

(** ** Reconciling an observation with the records *)

Section inventory.
Context {env : Env}.
(** PostgreSQL's [inet] and [macaddr] input (the canonical text), and
    [json.Marshal] of a service list. *)
Context (inet_in macaddr_in : string → option string)
        (MarshalServices : list DiscoveryService → string).

(** A column reference that resolves to a device. *)
Definition macs_of (device : option string) (v : Inventory) : list string :=
  match device with
  | Some d => fst <$> filter (λ p, mc_Device p.2 = Some d) (map_to_list (iv_macs v))
  | None => []
  end.

(** Another address of the device that owns a MAC; [LIMIT 1] picks any. *)
Definition other_address (mac ip : string) (v : Inventory) : option string :=
  match iv_macs v !! mac with
  | Some m =>
      match mc_Device m with
      | Some d => (λ p, p.2.1) <$>
          list_find (λ p, ad_Device p.2 = Some d ∧ p.1 ≠ ip) (map_to_list (iv_addresses v))
      | None => None
      end
  | None => None
  end.

(** The classification, once both queries have answered. *)
Definition reconcile_managed (a : AddressRow) (mac : option string) (v : Inventory) : string * string :=
  let macs := macs_of (ad_Device a) v in
  let who := default "" (dv_Name <$> (ad_Device a ≫= λ d, iv_devices v !! d)) in
  if bool_decide (mac ≠ None) && (0 <? length macs)%nat &&
     negb (match mac with Some m => bool_decide (m ∈ macs) | None => false end) then
    (ReconcileConflict, "Address is assigned to " +:+ keep_text who "another device" +:+
                        " with a different MAC")
  else if decide (ad_State a = "deprecated") then
    (ReconcileConflict, "Address is marked deprecated but is responding")
  else (ReconcileMatch, "").

(** [ip] and [mac] as the statements see them; an invalid text is an error. *)
Definition inet_arg (ip : string) : result db_error string := of_option ErrOutOfRange (inet_in ip).
Definition mac_arg (mac : string) : result db_error (option string) :=
  if decide (mac = "") then Ok None
  else match macaddr_in mac with Some m => Ok (Some m) | None => Err ErrOutOfRange end.

Definition reconcileDiscovery (ip mac : string) : GoE Inventory (string * string) :=
  found ←? stmt (λ _ w,
    ip ← inet_arg ip; mac ← mac_arg mac;
    Ok ((λ a, reconcile_managed a mac (w_inv w)) <$> iv_addresses (w_inv w) !! ip, w));
  match found with
  | Some verdict => Ret (Ok verdict)
  | None =>
      if decide (mac = "") then Ret (Ok (ReconcileNew, ""))
      else
        other ←? stmt (λ _ w,
          ip ← inet_arg ip; mac ← mac_arg mac;
          Ok (mac ≫= λ m, other_address m ip (w_inv w), w));
        match other with
        | Some otherIP => Ret (Ok (ReconcileConflict, "MAC is already recorded on " +:+ otherIP))
        | None => Ret (Ok (ReconcileNew, ""))
        end
  end.

(** ** Recording an observation *)

Definition new_discovery (id : string) (input : DiscoveryInput) (mac : option string)
    (status conflict : string) (now : Z) : DiscoveryRow :=
  MkDiscoveryRow id (emptyToNil (di_JobID input)) (emptyToNil (di_AgentID input)) mac
    (di_Vendor input) (di_Hostname input) (di_OSFamily input) (di_OSDetail input)
    (di_HWSerial input) (di_HWObjectID input) (di_VLAN input) (di_Services input)
    "pending" status conflict None None now now.

(** [ON CONFLICT (ip) DO UPDATE]. *)
Definition refresh_discovery (old new : DiscoveryRow) : DiscoveryRow :=
  MkDiscoveryRow (dr_ID old) (dr_Job new) (dr_Agent new)
    (match dr_MAC new with Some m => Some m | None => dr_MAC old end)
    (keep_text (dr_Vendor new) (dr_Vendor old)) (keep_text (dr_Hostname new) (dr_Hostname old))
    (keep_text (dr_OSFamily new) (dr_OSFamily old)) (keep_text (dr_OSDetail new) (dr_OSDetail old))
    (keep_text (dr_HWSerial new) (dr_HWSerial old)) (keep_text (dr_HWObjectID new) (dr_HWObjectID old))
    (if dr_VLAN new =? 0 then dr_VLAN old else dr_VLAN new)
    (keep_list (dr_Services new) (dr_Services old))
    (if decide (dr_Status old = "imported" ∧ dr_Address old = None ∧ dr_Reconcile new = ReconcileNew)
     then "pending" else dr_Status old)
    (dr_Reconcile new) (dr_Conflict new) (dr_Address old) (dr_Device old) (dr_First old) (dr_Last new).

Definition has_discovery_id (id : string) (v : Inventory) : bool :=
  existsb (λ p, bool_decide (dr_ID p.2 = id)) (map_to_list (iv_discoveries v)).

(** The upsert: the row it leaves under [ip], and the inventory. *)
Definition upsert_discovery (ip : string) (new : DiscoveryRow) (v : Inventory) :
    result db_error (DiscoveryRow * Inventory) :=
  match iv_discoveries v !! ip with
  | Some old => let row := refresh_discovery old new in
                Ok (row, with_discoveries (<[ip := row]> (iv_discoveries v)) v)
  | None => if has_discovery_id (dr_ID new) v then Err ErrDuplicateKey
            else Ok (new, with_discoveries (<[ip := new]> (iv_discoveries v)) v)
  end.

Definition seen_now (now : Z) (a : AddressRow) : AddressRow :=
  MkAddressRow (ad_ID a) (ad_Subnet a) (ad_Device a) (ad_State a) (ad_Hostname a) (ad_Notes a) (Some now).

Definition inv_UpsertDiscovery (input : DiscoveryInput) : GoE Inventory DiscoveryUpsert :=
  id ←? random_token;
  verdict ←? reconcileDiscovery (di_IP input) (di_MAC input);
  let '(status, conflict) := (verdict : string * string) in
  row ←? stmt (λ now w,
    ip ← inet_arg (di_IP input); mac ← mac_arg (default "" (emptyToNil (di_MAC input)));
    if negb (int4 (di_VLAN input)) then Err ErrOutOfRange
    else if negb (references (w_jobs w) (emptyToNil (di_JobID input)) &&
                  references (w_agents w) (emptyToNil (di_AgentID input))) then Err ErrForeignKey
    else match jsonb_in (MarshalServices (di_Services input)) with
    | None => Err ErrJSON
    | Some _ =>
        '(row, v) ← upsert_discovery ip (new_discovery id input mac status conflict now) (w_inv w);
        Ok (row, with_inv v w)
    end);
  let out := MkDiscoveryUpsert (dr_ID row) (dr_Status row) status in
  if decide (status = ReconcileNew) then Ret (Ok out)
  else
    _ ←? stmt (λ now w,
      ip ← inet_arg (di_IP input);
      Ok ((), with_inv (with_addresses (alter (seen_now now) ip (iv_addresses (w_inv w))) (w_inv w)) w));
    Ret (Ok out).

(** ** Reading and dismissing *)

Definition find_discovery (id : string) (v : Inventory) : option (string * DiscoveryRow) :=
  snd <$> list_find (λ p, dr_ID p.2 = id) (map_to_list (iv_discoveries v)).

Definition discovery_of_row (ip : string) (r : DiscoveryRow) (w : World Inventory) : Discovery :=
  MkDiscovery (dr_ID r) (default "" (dr_Job r)) (default "" (dr_Agent r))
    (default "" (sa_Name <$> (dr_Agent r ≫= λ a, w_agents w !! a))) ip (default "" (dr_MAC r))
    (dr_Vendor r) (dr_Hostname r) (dr_OSFamily r) (dr_OSDetail r) (dr_HWSerial r) (dr_HWObjectID r)
    (dr_VLAN r) (dr_Services r) (dr_Status r) (dr_Reconcile r) (dr_Conflict r)
    (default "" (dr_Address r)) (default "" (dr_Device r)) (dr_First r) (dr_Last r).

Definition GetDiscovery (id : string) : GoE Inventory Discovery :=
  stmt (λ _ w, match find_discovery id (w_inv w) with
               | Some (ip, r) => Ok (discovery_of_row ip r w, w)
               | None => Err ErrNotFound
               end).

Definition set_dismissed (r : DiscoveryRow) : DiscoveryRow :=
  MkDiscoveryRow (dr_ID r) (dr_Job r) (dr_Agent r) (dr_MAC r) (dr_Vendor r) (dr_Hostname r)
    (dr_OSFamily r) (dr_OSDetail r) (dr_HWSerial r) (dr_HWObjectID r) (dr_VLAN r) (dr_Services r)
    "dismissed" (dr_Reconcile r) (dr_Conflict r) (dr_Address r) (dr_Device r) (dr_First r) (dr_Last r).

Definition DismissDiscovery (id : string) : GoE Inventory unit :=
  stmt (λ _ w, match find_discovery id (w_inv w) with
               | Some (ip, r) =>
                   if decide (dr_Status r = "imported") then Err ErrNotFound
                   else Ok ((), with_inv (with_discoveries
                          (<[ip := set_dismissed r]> (iv_discoveries (w_inv w))) (w_inv w)) w)
               | None => Err ErrNotFound
               end).

Definition CountPendingDiscoveries : GoE Inventory Z :=
  stmt (λ _ w, Ok (Z.of_nat (length (filter (λ p, dr_Status p.2 = "pending")
    (map_to_list (iv_discoveries (w_inv w))))), w)).
Definition CountUnreviewedConflicts : GoE Inventory Z :=
  stmt (λ _ w, Ok (Z.of_nat (length (filter (λ p, dr_Status p.2 = "pending" ∧
    dr_Reconcile p.2 = ReconcileConflict) (map_to_list (iv_discoveries (w_inv w))))), w)).
End inventory.
