(* ===== verification/Import.v ===== *)
(** * Importing discoveries and linking devices

    The rest of [internal/store/discoveries.go] (import, sync, VLAN backfill) and
    [internal/store/device_links.go] (hardware groups, same-hardware rules, serial
    auto-linking). *)

From S2P Require Import Prelude GoStrings Netip Macaddr GoTime Process Scans Queue Inventory.
Local Open Scope Z_scope.

(** ** Import *)

(** [ORDER BY masklen(cidr) DESC LIMIT 1]. *)
Definition longer (p q : string * Subnet) : string * Subnet :=
  if masklen (sn_cidr p.2) <? masklen (sn_cidr q.2) then q else p.
Definition containing_subnet (ip : string) (v : Inventory) : option (string * Subnet) :=
  match filter (λ p, cidr_contains (sn_cidr p.2) ip = true) (map_to_list (iv_subnets v)) with
  | [] => None
  | p :: l => Some (foldl longer p l)
  end.

Definition needs_vlan (ip : string) (s : Subnet) : bool :=
  bool_decide (sn_vlan s = None) && cidr_contains (sn_cidr s) ip.

Definition set_vlan (vlan : option Z) (s : Subnet) : Subnet :=
  MkSubnet (sn_site s) (sn_cidr s) (sn_name s) vlan (sn_description s).

Definition backfillSubnetVLAN (ip : string) (vlan : Z) (v : Inventory) : result db_error Inventory :=
  if vlan <=? 0 then Ok v
  else if (4094 <? vlan) && existsb (λ p, needs_vlan ip p.2) (map_to_list (iv_subnets v))
  then Err ErrCheck
  else Ok (with_subnets
    ((λ s, if needs_vlan ip s then set_vlan (Some vlan) s else s) <$> iv_subnets v) v).

Section import.
Context {env : Env}.
(** [macaddr] input, and [json.Marshal] of a service list. *)
Context (macaddr_in : string → option string) (MarshalServices : list DiscoveryService → string).

(** The prior import's device, or the owner of the MAC; the empty text for none.
    A NULL owner does not scan into a Go string. *)
Definition resolveImportDevice (d : Discovery) (v : Inventory) : result db_error string :=
  if bool_decide (d_ImportedDeviceID d ≠ "") && bool_decide (is_Some (iv_devices v !! d_ImportedDeviceID d))
  then Ok (d_ImportedDeviceID d)
  else if decide (d_MAC d = "") then Ok ""
  else
    mac ← of_option ErrOutOfRange (macaddr_in (d_MAC d));
    match iv_macs v !! mac with
    | None => Ok ""
    | Some r => of_option ErrNull (mc_Device r)
    end.

Definition has_mac_id (id : string) (v : Inventory) : bool :=
  existsb (λ p, bool_decide (mc_ID p.2 = id)) (map_to_list (iv_macs v)).

Definition attachDiscoveryMAC (token : option string) (deviceID mac reportedVendor : string)
    (v : Inventory) : result db_error Inventory :=
  let '(mac, isPrivate, vendor) := match Analyze mac with
    | Ok a => (Address a, IsPrivate a,
               if decide (reportedVendor = "") then Vendor a else reportedVendor)
    | Err _ => (mac, false, reportedVendor)
    end in
  macID ← of_option ErrToken token;
  mac ← of_option ErrOutOfRange (macaddr_in mac);
  match iv_macs v !! mac with
  | Some old =>
      Ok (with_macs (<[mac := MkMacRow (mc_ID old) (mc_Device old)
            (if decide (mc_Vendor old = "") then vendor else mc_Vendor old) (mc_Private old)]> (iv_macs v)) v)
  | None =>
      if has_mac_id macID v then Err ErrDuplicateKey
      else Ok (with_macs (<[mac := MkMacRow macID (Some deviceID) vendor isPrivate]> (iv_macs v)) v)
  end.

Definition discovery_source (d : Discovery) : string := keep_text (d_AgentName d) "scan".

Definition device_name (d : Discovery) (manual : string) : string :=
  keep_text manual (keep_text (d_Hostname d) ("host-" +:+ d_IP d)).

Definition new_device (d : Discovery) (manual : string) (now : Z) : Device :=
  MkDevice (device_name d manual) "Created from scan discovery" (d_OSFamily d) (d_OSDetail d)
    (d_HWSerial d) (d_HWObjectID d) (d_Services d) (discovery_source d) now None.

Definition refresh_device (d : Discovery) (manual : string) (x : Device) : Device :=
  MkDevice (keep_text manual (dv_Name x)) (dv_Description x)
    (keep_text (d_OSFamily d) (dv_OSFamily x)) (keep_text (d_OSDetail d) (dv_OSDetail x))
    (keep_text (d_HWSerial d) (dv_HWSerial x)) (keep_text (d_HWObjectID d) (dv_HWObjectID x))
    (keep_list (d_Services d) (dv_Services x)) (discovery_source d) (dv_Created x) (dv_Group x).

Definition importDiscoveryDevice (deviceToken macToken : option string) (d : Discovery) (name : string)
    (now : Z) (v : Inventory) : result db_error (string * Inventory) :=
  let manual := trim_space name in
  found ← resolveImportDevice d v;
  _ ← of_option ErrJSON (jsonb_in (MarshalServices (d_Services d)));
  '(deviceID, v) ←
    (if decide (found = "") then
       id ← of_option ErrToken deviceToken;
       if decide (iv_devices v !! id ≠ None) then Err ErrDuplicateKey
       else Ok (id, with_devices (<[id := new_device d manual now]> (iv_devices v)) v)
     else Ok (found, with_devices (alter (refresh_device d manual) found (iv_devices v)) v));
  if decide (d_MAC d = "") then Ok (deviceID, v)
  else v ← attachDiscoveryMAC macToken deviceID (d_MAC d) (d_Vendor d) v; Ok (deviceID, v).

Definition has_address_id (id : string) (v : Inventory) : bool :=
  existsb (λ p, bool_decide (ad_ID p.2 = id)) (map_to_list (iv_addresses v)).

Definition put_address (id subnetID deviceID : string) (d : Discovery) (now : Z) (v : Inventory) :
    result db_error (string * Inventory) :=
  match iv_addresses v !! d_IP d with
  | Some old =>
      Ok (ad_ID old, with_addresses (<[d_IP d := MkAddressRow (ad_ID old) (Some subnetID)
            (match nonempty deviceID with Some x => Some x | None => ad_Device old end) (ad_State old)
            (keep_text (d_Hostname d) (ad_Hostname old)) (ad_Notes old) (Some now)]> (iv_addresses v)) v)
  | None =>
      if has_address_id id v then Err ErrDuplicateKey
      else Ok (id, with_addresses (<[d_IP d := MkAddressRow id (Some subnetID) (nonempty deviceID)
            "assigned" (d_Hostname d) "Imported from scan discovery" (Some now)]> (iv_addresses v)) v)
  end.

Definition set_imported (addressID deviceID : string) (r : DiscoveryRow) : DiscoveryRow :=
  MkDiscoveryRow (dr_ID r) (dr_Job r) (dr_Agent r) (dr_MAC r) (dr_Vendor r) (dr_Hostname r)
    (dr_OSFamily r) (dr_OSDetail r) (dr_HWSerial r) (dr_HWObjectID r) (dr_VLAN r) (dr_Services r)
    "imported" (dr_Reconcile r) (dr_Conflict r) (Some addressID) (emptyToNil deviceID)
    (dr_First r) (dr_Last r).

Definition mark_imported (id addressID deviceID : string) (v : Inventory) : Inventory :=
  with_discoveries ((λ r, if decide (dr_ID r = id) then set_imported addressID deviceID r else r)
    <$> iv_discoveries v) v.

(** The transaction of [ImportDiscovery], on the discovery read before it. *)
Definition import_tx (deviceToken macToken addressToken : option string) (d : Discovery) (name : string)
    (now : Z) (v : Inventory) : result db_error Inventory :=
  '(subnetID, _) ← of_option ErrNoContainingSubnet (containing_subnet (d_IP d) v);
  v ← backfillSubnetVLAN (d_IP d) (d_VLAN d) v;
  '(deviceID, v) ← importDiscoveryDevice deviceToken macToken d name now v;
  addressID ← of_option ErrToken addressToken;
  '(addressID, v) ← put_address addressID subnetID deviceID d now v;
  Ok (mark_imported (d_ID d) addressID deviceID v).

(** A random token, whose failure shows where it is used. *)
Definition draw_token : Go Inventory (option string) :=
  atomic (λ w, (token (w_step w), bump w)).

Definition inv_ImportDiscovery (id name : string) : GoE Inventory Discovery :=
  discovery ←? GetDiscovery id;
  deviceToken ←! draw_token; macToken ←! draw_token; addressToken ←! draw_token;
  _ ←? stmt (λ now w,
    v ← import_tx deviceToken macToken addressToken discovery name now (w_inv w);
    Ok ((), with_inv v w));
  GetDiscovery id.

(** ** Sync *)

Definition sync_device (d : Discovery) (x : Device) : Device := refresh_device d "" x.

Definition backfill_hostname (d : Discovery) (a : AddressRow) : AddressRow :=
  if decide (ad_ID a = d_ImportedAddressID d ∧ ad_Hostname a = "") then
    MkAddressRow (ad_ID a) (ad_Subnet a) (ad_Device a) (ad_State a) (d_Hostname d) (ad_Notes a) (ad_LastSeen a)
  else a.

(** The transaction of [SyncImportedDiscovery]; [None] when the device is gone. *)
Definition sync_tx (macToken : option string) (d : Discovery) (v : Inventory) :
    result db_error (option Inventory) :=
  if decide (iv_devices v !! d_ImportedDeviceID d = None) then Ok None
  else
    _ ← of_option ErrJSON (jsonb_in (MarshalServices (d_Services d)));
    let v := with_devices (alter (sync_device d) (d_ImportedDeviceID d) (iv_devices v)) v in
    v ← (if decide (d_MAC d = "") then Ok v
         else attachDiscoveryMAC macToken (d_ImportedDeviceID d) (d_MAC d) (d_Vendor d) v);
    let v := if decide (d_Hostname d ≠ "" ∧ d_ImportedAddressID d ≠ "")
             then with_addresses (backfill_hostname d <$> iv_addresses v) v else v in
    v ← backfillSubnetVLAN (d_IP d) (d_VLAN d) v;
    Ok (Some v).

Definition inv_SyncImportedDiscovery (id : string) : GoE Inventory string :=
  d ←? GetDiscovery id;
  if decide (d_Status d ≠ "imported" ∨ d_ImportedDeviceID d = "") then Ret (Ok "")
  else
    macToken ←! draw_token;
    stmt (λ _ w,
      out ← sync_tx macToken d (w_inv w);
      match out with
      | None => Ok ("", w)
      | Some v => Ok (d_ImportedDeviceID d, with_inv v w)
      end).
End import.

(** ** Same-hardware rules *)

Record deviceIdentity : Type := MkIdentity
  { id_Hostname : string; id_OSFamily : string; id_HWSerial : string; id_SubnetIDs : list string }.

Definition canonicalIdentity (s : string) : string := to_lower (trim_space s).

Definition disjointSubnets (a b : list string) : bool :=
  negb (bool_decide (a = [])) && negb (bool_decide (b = [])) &&
  negb (existsb (λ id, bool_decide (id ∈ a)) b).

Definition sameHardwareCandidate (a b : deviceIdentity) : bool :=
  if bool_decide (canonicalIdentity (id_Hostname a) = "") ||
     negb (bool_decide (canonicalIdentity (id_Hostname a) = canonicalIdentity (id_Hostname b))) then false
  else if bool_decide (canonicalIdentity (id_OSFamily a) = "") ||
     negb (bool_decide (canonicalIdentity (id_OSFamily a) = canonicalIdentity (id_OSFamily b))) then false
  else disjointSubnets (id_SubnetIDs a) (id_SubnetIDs b).

Definition goldHardwareCandidate (a b : deviceIdentity) : bool :=
  if bool_decide (trim_space (id_HWSerial a) = "") ||
     negb (bool_decide (trim_space (id_HWSerial a) = trim_space (id_HWSerial b))) then false
  else disjointSubnets (id_SubnetIDs a) (id_SubnetIDs b).

Definition singleHostname (l : list string) : string := match l with [h] => h | _ => "" end.

(** ** Hardware groups *)

Definition set_group (g : option string) (x : Device) : Device :=
  MkDevice (dv_Name x) (dv_Description x) (dv_OSFamily x) (dv_OSDetail x) (dv_HWSerial x)
    (dv_HWObjectID x) (dv_Services x) (dv_Source x) (dv_Created x) g.

(** [COALESCE(hardware_group_id, '')], with the empty text read as none. *)
Definition group_name (x : Device) : option string := dv_Group x ≫= nonempty.
Definition group_of (v : Inventory) (id : string) : option string := iv_devices v !! id ≫= group_name.
Definition in_groups (groups : list string) (x : Device) : bool :=
  match dv_Group x with Some g => bool_decide (g ∈ groups) | None => false end.

(** The distinct non-empty ids, and the groups they are in, in sorted order. *)
Definition link_ids (ids : list string) : list string :=
  remove_dups (filter (λ id, id ≠ "") ids).
Definition groups_of (ids : list string) (v : Inventory) : list string :=
  merge_sort String.le (remove_dups (omap (group_of v) ids)).

(** The transaction of [LinkDevices]; an empty group text is NULL's reading. *)
Definition link_tx (token : option string) (unique : list string) (v : Inventory) :
    result db_error Inventory :=
  if negb (forallb (λ id, bool_decide (is_Some (iv_devices v !! id))) unique) then Err ErrNotFound
  else
    let groups := groups_of unique v in
    target ← match groups with g :: _ => Ok g | [] => of_option ErrToken token end;
    Ok (with_devices (map_imap (λ id x,
      Some (if bool_decide (id ∈ unique) || in_groups groups x
            then set_group (Some target) x else x)) (iv_devices v)) v).

Definition unlink_tx (id : string) (v : Inventory) : result db_error Inventory :=
  match iv_devices v !! id with
  | None => Err ErrNotFound
  | Some x =>
      match group_name x with
      | None => Ok v
      | Some g =>
          let devices := <[id := set_group None x]> (iv_devices v) in
          let members := filter (λ p, dv_Group p.2 = Some g) (map_to_list devices) in
          if (length members <? 2)%nat
          then Ok (with_devices ((λ x, if decide (dv_Group x = Some g) then set_group None x else x) <$> devices) v)
          else Ok (with_devices devices v)
      end
  end.

Section links.
Context {env : Env}.

Definition LinkDevices (ids : list string) : GoE Inventory unit :=
  let unique := link_ids ids in
  if (length unique <? 2)%nat then Ret (Err ErrTooFew)
  else
    target ←! draw_token;
    stmt (λ _ w, v ← link_tx target unique (w_inv w); Ok ((), with_inv v w)).

Definition UnlinkDevice (id : string) : GoE Inventory unit :=
  stmt (λ _ w, v ← unlink_tx id (w_inv w); Ok ((), with_inv v w)).

(** [btrim]: spaces only. *)
Definition btrim (s : string) : string := trim_func (λ c, bool_decide (c = " "%char)) s.

(** The subnets of a device's addresses, each once. *)
Definition subnets_of (id : string) (v : Inventory) : list string :=
  remove_dups (omap (λ p, if decide (ad_Device p.2 = Some id) then ad_Subnet p.2 else None)
    (map_to_list (iv_addresses v))).
Definition hostnames_of (id : string) (v : Inventory) : list string :=
  remove_dups (omap (λ p, if decide (ad_Device p.2 = Some id) then nonempty (to_lower (btrim (ad_Hostname p.2)))
                          else None) (map_to_list (iv_addresses v))).

Definition identity_of (id : string) (x : Device) (v : Inventory) : deviceIdentity :=
  MkIdentity (singleHostname (hostnames_of id v)) (dv_OSFamily x) (btrim (dv_HWSerial x)) (subnets_of id v).

Definition deviceLinkIdentity (id : string) : GoE Inventory (deviceIdentity * string) :=
  stmt (λ _ w, match iv_devices (w_inv w) !! id with
               | Some x => Ok ((identity_of id x (w_inv w), default "" (dv_Group x)), w)
               | None => Err ErrNotFound
               end).

Definition pair_of (a b : string) : string * string :=
  if decide (String.le a b) then (a, b) else (b, a).

(** The candidate query: its condition on a device, and its rows in order. *)
Definition has_address (id : string) (v : Inventory) : bool :=
  existsb (λ q, bool_decide (ad_Device q.2 = Some id)) (map_to_list (iv_addresses v)).

Definition serial_candidate (id serial group : string) (v : Inventory) (other : string) (x : Device) : bool :=
  bool_decide (other ≠ id) && bool_decide (btrim (dv_HWSerial x) = serial) &&
  (bool_decide (group = "") || negb (bool_decide (dv_Group x = Some group))) &&
  negb (bool_decide (pair_of other id ∈ iv_rejections v)) && has_address other v.

Definition id_le (p q : string * list string) : Prop := String.le p.1 q.1.
#[export] Instance id_le_dec : RelDecision id_le.
Proof. intros p q. unfold id_le. apply _. Defined.

Definition serial_candidates (id serial group : string) (v : Inventory) : list (string * list string) :=
  merge_sort id_le (omap (λ p,
    if serial_candidate id serial group v p.1 p.2 then Some (p.1, subnets_of p.1 v) else None)
    (map_to_list (iv_devices v))).

Definition serial_matches (subnets : list string) (rows : list (string * list string)) : list string :=
  map fst (filter (λ r, disjointSubnets subnets r.2 = true) rows).

Definition SettingDeviceLinkAutoSerial : string := "device_link_auto_serial".

Definition inv_AutoLinkDeviceBySerial (id : string) : GoE Inventory (list string) :=
  enabled ←? stmt (λ _ w, Ok (default "" (iv_settings (w_inv w) !! SettingDeviceLinkAutoSerial), w));
  if decide (enabled ≠ "true") then Ret (Ok [])
  else
    found ←! deviceLinkIdentity id;
    match found with
    | Err ErrNotFound => Ret (Ok [])
    | Err e => Ret (Err e)
    | Ok (target, group) =>
        let serial := trim_space (id_HWSerial target) in
        if decide (serial = "" ∨ id_SubnetIDs target = []) then Ret (Ok [])
        else
          rows ←? stmt (λ _ w, Ok (serial_candidates id serial group (w_inv w), w));
          let matches := serial_matches (id_SubnetIDs target) rows in
          if decide (matches = []) then Ret (Ok [])
          else _ ←? LinkDevices (id :: matches); Ret (Ok matches)
    end.

Definition DismissDeviceLinkSuggestion (a b : string) : GoE Inventory unit :=
  if decide (a = "" ∨ b = "" ∨ a = b) then Ret (Err ErrTooFew)
  else stmt (λ _ w,
    if negb (bool_decide (is_Some (iv_devices (w_inv w) !! a)) &&
             bool_decide (is_Some (iv_devices (w_inv w) !! b))) then Err ErrForeignKey
    else Ok ((), with_inv (MkInventory (iv_settings (w_inv w)) (iv_subnets (w_inv w))
      (iv_devices (w_inv w)) (iv_addresses (w_inv w)) (iv_macs (w_inv w)) (iv_discoveries (w_inv w))
      ({[pair_of a b]} ∪ iv_rejections (w_inv w)) (iv_tags (w_inv w)) (iv_taggings (w_inv w))
      (iv_fields (w_inv w)) (iv_values (w_inv w))) w)).
End links.
