(* ===== verification/InventorySpec.v ===== *)
(** * What the inventory promises

    The instance of the interface of [Queue], the integrity of the inventory's
    tables, and the contracts of recording, importing and linking. *)

From S2P Require Import Prelude GoStrings Netip Macaddr GoTime Process Scans Queue Inventory Import.
Local Open Scope Z_scope.

(** ** The interface: only the inventory changes *)

Section interface.
Context {env : Env}.
Context (inet_in macaddr_in : string → option string)
        (MarshalServices : list DiscoveryService → string).

Lemma guarantees_stmt_inv {A} (R : Inventory → Inventory → Prop)
    (f : Z → World Inventory → result db_error (A * World Inventory)) :
  (∀ v, R v v) →
  (∀ w now a w', f now w = Ok (a, w') → ∃ v, w' = with_inv v w ∧ R (w_inv w) v) →
  guarantees (λ w w', only_inv w w' ∧ R (w_inv w) (w_inv w')) (stmt f).
Proof.
  intros Hr Hf. apply guarantees_stmt; [by intros w|].
  intros w now a w' H. destruct (Hf _ _ _ _ H) as (v & -> & Hv). by split.
Qed.

(** A step of the inventory in [R], the rest of the world fixed. *)
Definition inv_step (R : Inventory → Inventory → Prop) (w w' : World Inventory) : Prop :=
  only_inv w w' ∧ R (w_inv w) (w_inv w').

Ltac inv_prog :=
  repeat match goal with
  | |- guarantees _ (try_bind _ _) => apply guarantees_try; [|intros ?]
  | |- guarantees _ (prog_bind _ _) => apply guarantees_bind; [|intros ?]
  | |- guarantees _ random_token => apply guarantees_atomic; intros ?; by split
  | |- guarantees _ draw_token => apply guarantees_atomic; intros ?; by split
  | |- guarantees _ (Ret _) => exact I
  | |- guarantees _ (match _ with _ => _ end) => case_match
  end.

(** A statement that only reads. *)
Lemma read_step {A} (R : Inventory → Inventory → Prop)
    (f : Z → World Inventory → result db_error (A * World Inventory)) :
  (∀ v, R v v) → (∀ w now a w', f now w = Ok (a, w') → w' = w) → guarantees (inv_step R) (stmt f).
Proof.
  intros Hr Hf. apply guarantees_stmt_inv; [done|]. intros w now a w' H.
  apply Hf in H as ->. exists (w_inv w). split; [by destruct w|done].
Qed.

Ltac reads := apply read_step; [done|intros; repeat case_match; by simplify_eq/=].

Section steps.
Context (R : Inventory → Inventory → Prop) (Hrefl : ∀ v, R v v).
Hypothesis R_upsert : ∀ ip new v row v',
  dr_Status new = "pending" → dr_Address new = None → dr_Device new = None →
  upsert_discovery ip new v = Ok (row, v') → R v v'.
Hypothesis R_seen : ∀ ip now v, R v (with_addresses (alter (seen_now now) ip (iv_addresses v)) v).
Hypothesis R_import : ∀ t1 t2 t3 d name now v v',
  import_tx macaddr_in MarshalServices t1 t2 t3 d name now v = Ok v' → R v v'.
Hypothesis R_sync : ∀ t d v v',
  sync_tx macaddr_in MarshalServices t d v = Ok (Some v') → R v v'.
Hypothesis R_link : ∀ t ids v v',
  NoDup ids → (2 ≤ length ids)%nat → link_tx t ids v = Ok v' → R v v'.

Lemma reconcile_step ip mac : guarantees (inv_step R) (reconcileDiscovery inet_in macaddr_in ip mac).
Proof.
  unfold reconcileDiscovery. inv_prog; apply read_step; try done; intros w1 now1 x w2 Hx.
  all: unfold inet_arg, mac_arg in Hx; destruct (inet_in ip); cbn in Hx; [|done].
  all: repeat case_match; cbn in Hx; by simplify_eq/=.
Qed.

Lemma UpsertDiscovery_step input :
  guarantees (inv_step R) (inv_UpsertDiscovery inet_in macaddr_in MarshalServices input).
Proof.
  unfold inv_UpsertDiscovery. inv_prog; [apply reconcile_step| |].
  - apply guarantees_stmt_inv; [done|]. intros w now x w' Hx.
    destruct (inet_arg inet_in (di_IP input)) as [ip|]; [cbn in Hx|done].
    destruct (mac_arg macaddr_in _) as [mac|]; [cbn in Hx|done].
    repeat case_match; simplify_eq.
    destruct (upsert_discovery _ _ _) as [[row v]|] eqn:Hup; [cbn in Hx|done]. simplify_eq.
    exists v. split; [done|]. by eapply R_upsert; [| | |exact Hup].
  - apply guarantees_stmt_inv; [done|]. intros w now x w' Hx.
    destruct (inet_arg inet_in (di_IP input)) as [ip|]; [cbn in Hx|done]. simplify_eq. by eexists.
Qed.

Lemma GetDiscovery_step id : guarantees (inv_step R) (GetDiscovery id).
Proof. unfold GetDiscovery. reads. Qed.

Lemma ImportDiscovery_step id name :
  guarantees (inv_step R) (inv_ImportDiscovery macaddr_in MarshalServices id name).
Proof.
  unfold inv_ImportDiscovery. inv_prog; try apply GetDiscovery_step.
  apply guarantees_stmt_inv; [done|]. intros w now x w' H.
  destruct (import_tx _ _ _ _ _ _ _ _ _) as [v|] eqn:Hi; [cbn in H|done]. simplify_eq.
  exists v. split; [done|]. by eapply R_import.
Qed.

Lemma SyncImportedDiscovery_step id :
  guarantees (inv_step R) (inv_SyncImportedDiscovery macaddr_in MarshalServices id).
Proof.
  unfold inv_SyncImportedDiscovery. inv_prog; try apply GetDiscovery_step.
  apply guarantees_stmt_inv; [done|]. intros w now x w' H'.
  destruct (sync_tx _ _ _ _ _) as [[v|]|] eqn:Hs; cbn in H'; simplify_eq.
  - exists v. split; [done|]. by eapply R_sync.
  - exists (w_inv w'). split; [by destruct w'|done].
Qed.

Lemma link_ids_NoDup ids : NoDup (link_ids ids).
Proof. apply NoDup_remove_dups. Qed.

Lemma LinkDevices_step ids : guarantees (inv_step R) (LinkDevices ids).
Proof.
  unfold LinkDevices. inv_prog. apply guarantees_stmt_inv; [done|]. intros w now x w' H'.
  destruct (link_tx _ _ _) as [v|] eqn:Hl; [cbn in H'|done]. simplify_eq.
  exists v. split; [done|]. eapply R_link; [apply link_ids_NoDup| |exact Hl].
  by apply Nat.ltb_ge.
Qed.

Lemma AutoLinkDeviceBySerial_step id : guarantees (inv_step R) (inv_AutoLinkDeviceBySerial id).
Proof.
  unfold inv_AutoLinkDeviceBySerial, deviceLinkIdentity. inv_prog; try reads. apply LinkDevices_step.
Qed.
End steps.

Lemma inv_step_only {A} (p : prog (World Inventory) A) :
  guarantees (inv_step (λ _ _, True)) p → guarantees only_inv p.
Proof.
  induction p as [a|g k IH]; [done|]. intros Hp w. destruct (Hp w) as [[? _] ?]. auto.
Qed.

(** The inventory implements the queue the orchestrator is proved against. *)
#[refine] Instance inventory_store : DiscoveryStore Inventory :=
  {| UpsertDiscovery := inv_UpsertDiscovery inet_in macaddr_in MarshalServices;
     ImportDiscovery := inv_ImportDiscovery macaddr_in MarshalServices;
     SyncImportedDiscovery := inv_SyncImportedDiscovery macaddr_in MarshalServices;
     AutoLinkDeviceBySerial := inv_AutoLinkDeviceBySerial |}.
Proof.
  all: intros; apply inv_step_only.
  - by apply UpsertDiscovery_step.
  - by apply ImportDiscovery_step.
  - by apply SyncImportedDiscovery_step.
  - by apply AutoLinkDeviceBySerial_step.
Defined.
End interface.

(** ** What the transactions change *)

(** Splits a chain of results that ended well. *)
Ltac ok_chain H :=
  repeat first
    [ progress simplify_eq/=
    | match type of H with
      | context [of_option _ ?o] => destruct o eqn:?; cbn in H
      | context [match ?x with _ => _ end] => destruct x eqn:?; cbn in H
      end ]; try discriminate H.

Lemma alter_missing {A} (f : A → A) (m : gmap string A) k : m !! k = None → alter f k m = m.
Proof.
  intros Hk. apply map_eq. intros i. destruct (decide (k = i)) as [<-|].
  - by rewrite lookup_alter_eq, Hk.
  - by rewrite lookup_alter_ne.
Qed.

(** Every device stays, in its group; a new one is in none. *)
Definition devices_kept (v v' : Inventory) : Prop :=
  (∀ id x, iv_devices v !! id = Some x → ∃ x', iv_devices v' !! id = Some x' ∧ dv_Group x' = dv_Group x) ∧
  (∀ id x', iv_devices v' !! id = Some x' → iv_devices v !! id = None → dv_Group x' = None).

Lemma devices_kept_refl v v' : iv_devices v' = iv_devices v → devices_kept v v'.
Proof. intros H. split; rewrite H; [by eauto|]. intros id x' Hx Hn. congruence. Qed.

Lemma devices_kept_alter f k v v' :
  iv_devices v' = alter f k (iv_devices v) → (∀ x, dv_Group (f x) = dv_Group x) → devices_kept v v'.
Proof.
  intros H Hf. split; rewrite H; intros id x Hx.
  - destruct (decide (k = id)) as [->|].
    + exists (f x). by rewrite lookup_alter_eq, Hx.
    + exists x. by rewrite lookup_alter_ne.
  - destruct (decide (k = id)) as [->|].
    + intros Hn. by rewrite lookup_alter_eq, Hn in Hx.
    + rewrite lookup_alter_ne in Hx by done. intros Hn. congruence.
Qed.

Lemma devices_kept_insert k x v v' :
  iv_devices v' = <[k := x]> (iv_devices v) → iv_devices v !! k = None → dv_Group x = None →
  devices_kept v v'.
Proof.
  intros H Hk Hx. split; rewrite H; intros id y Hy.
  - exists y. rewrite lookup_insert_ne; [done|]. congruence.
  - destruct (decide (k = id)) as [->|].
    + intros _. rewrite lookup_insert_eq in Hy. by simplify_eq.
    + rewrite lookup_insert_ne in Hy by done. intros Hn. congruence.
Qed.

(** The subnet chosen contains the address, and none that does is longer. *)
Lemma containing_subnet_Some ip v sid s :
  containing_subnet ip v = Some (sid, s) →
  iv_subnets v !! sid = Some s ∧ cidr_contains (sn_cidr s) ip = true ∧
  ∀ sid' s', iv_subnets v !! sid' = Some s' → cidr_contains (sn_cidr s') ip = true →
    masklen (sn_cidr s') ≤ masklen (sn_cidr s).
Proof.
  unfold containing_subnet. intros H.
  assert (∀ q, q ∈ filter (λ p, cidr_contains (sn_cidr p.2) ip = true) (map_to_list (iv_subnets v)) ↔
    iv_subnets v !! q.1 = Some q.2 ∧ cidr_contains (sn_cidr q.2) ip = true) as Hel.
  { intros [k x]. rewrite list_elem_of_filter. cbn. rewrite elem_of_map_to_list. tauto. }
  destruct (filter _ _) as [|p l]; simplify_eq.
  assert (∀ l p, (foldl longer p l = p ∨ foldl longer p l ∈ l) ∧
    masklen (sn_cidr p.2) ≤ masklen (sn_cidr (foldl longer p l).2) ∧
    ∀ q, q ∈ l → masklen (sn_cidr q.2) ≤ masklen (sn_cidr (foldl longer p l).2)) as Hmax.
  { clear. intros l. induction l as [|x l IH]; intros p; cbn.
    - split_and!; [by left|lia|by intros q ?%not_elem_of_nil].
    - assert ((longer p x = p ∨ longer p x = x) ∧
        masklen (sn_cidr p.2) ≤ masklen (sn_cidr (longer p x).2) ∧
        masklen (sn_cidr x.2) ≤ masklen (sn_cidr (longer p x).2)) as (Hpx & Hp & Hx).
      { unfold longer. destruct (Z.ltb_spec (masklen (sn_cidr p.2)) (masklen (sn_cidr x.2))).
        - split; [by right|lia].
        - split; [by left|lia]. }
      destruct (IH (longer p x)) as (Hin & Hge & Hall). split_and!; [|lia|].
      + destruct Hin as [->|Hin]; [|right; by right].
        destruct Hpx as [->| ->]; [by left|right; by left].
      + intros q [->|Hq]%elem_of_cons; [lia|by apply Hall]. }
  destruct (Hmax l p) as (Hin & Hge & Hall). rewrite H in Hin, Hge, Hall. cbn in *.
  assert ((sid, s) ∈ p :: l) as Hsel by (destruct Hin as [->|?]; [by left|by right]).
  apply Hel in Hsel as [Hs Hc]. cbn in Hs, Hc. split; [done|]. split; [done|].
  intros sid' s' Hs' Hc'. assert ((sid', s') ∈ p :: l) as Hq by by apply Hel.
  apply elem_of_cons in Hq as [<-|Hq]; [exact Hge|exact (Hall _ Hq)].
Qed.

Lemma containing_subnet_None ip v :
  containing_subnet ip v = None ↔
  ∀ sid s, iv_subnets v !! sid = Some s → cidr_contains (sn_cidr s) ip = false.
Proof.
  unfold containing_subnet. split.
  - intros H sid s Hs. apply not_true_is_false. intros Hc.
    assert ((sid, s) ∈ filter (λ p, cidr_contains (sn_cidr p.2) ip = true) (map_to_list (iv_subnets v))) as Hin
      by (apply list_elem_of_filter; split; [done|by apply elem_of_map_to_list]).
    destruct (filter _ _); [by apply not_elem_of_nil in Hin|done].
  - intros Hall. destruct (filter _ _) as [|[sid s] l] eqn:Hf; [done|].
    assert ((sid, s) ∈ filter (λ p, cidr_contains (sn_cidr p.2) ip = true) (map_to_list (iv_subnets v))) as Hin
      by (rewrite Hf; by left).
    apply list_elem_of_filter in Hin as [Hc Hs%elem_of_map_to_list]. cbn in Hc. by rewrite (Hall sid s Hs) in Hc.
Qed.

(** Every MAC stays with its owner. *)
Definition macs_kept (v : Inventory) (macs : gmap string MacRow) : Prop :=
  ∀ m old, iv_macs v !! m = Some old → ∃ r, macs !! m = Some r ∧ mc_Device r = mc_Device old.

Section changes.
Context {env : Env} (macaddr_in : string → option string)
        (MarshalServices : list DiscoveryService → string).

Lemma attach_Ok t dev mac vendor v v' :
  attachDiscoveryMAC macaddr_in t dev mac vendor v = Ok v' →
  ∃ macs, v' = with_macs macs v ∧
    (∀ m r, macs !! m = Some r →
      mc_Device r = Some dev ∨ ∃ old, iv_macs v !! m = Some old ∧ mc_Device r = mc_Device old) ∧
    macs_kept v macs.
Proof.
  unfold attachDiscoveryMAC. destruct (match Analyze mac with Ok _ => _ | Err _ => _ end) as [[m0 p] w].
  intros H. destruct t as [id|]; [cbn in H|done]. destruct (macaddr_in m0) as [k|]; [cbn in H|done].
  destruct (iv_macs v !! k) as [old|] eqn:Hold.
  - simplify_eq. eexists. split; [reflexivity|].
    split; intros m r Hm; destruct (decide (k = m)) as [->|].
    + rewrite lookup_insert_eq in Hm. simplify_eq. right. by exists old.
    + rewrite lookup_insert_ne in Hm by done. right. by exists r.
    + eexists. rewrite lookup_insert_eq. simplify_eq. by split.
    + exists r. by rewrite lookup_insert_ne.
  - destruct (has_mac_id id v); simplify_eq. eexists. split; [reflexivity|].
    split; intros m r Hm; destruct (decide (k = m)) as [->|].
    + rewrite lookup_insert_eq in Hm. simplify_eq. by left.
    + rewrite lookup_insert_ne in Hm by done. right. by exists r.
    + congruence.
    + exists r. by rewrite lookup_insert_ne.
Qed.

Lemma backfill_Ok ip vlan v v' :
  backfillSubnetVLAN ip vlan v = Ok v' →
  ∃ subnets, v' = with_subnets subnets v ∧
    (∀ id s, iv_subnets v !! id = Some s → ∃ s', subnets !! id = Some s' ∧ sn_cidr s' = sn_cidr s ∧
       (sn_vlan s' = sn_vlan s ∨
        sn_vlan s = None ∧ cidr_contains (sn_cidr s) ip = true ∧ sn_vlan s' = Some vlan ∧ 1 ≤ vlan ≤ 4094)) ∧
    (∀ id, is_Some (subnets !! id) → is_Some (iv_subnets v !! id)).
Proof.
  unfold backfillSubnetVLAN. intros H. destruct (Z.leb_spec vlan 0).
  { simplify_eq. exists (iv_subnets v'). split; [by destruct v'|]. split; [|done].
    intros id s Hs. exists s. auto. }
  destruct (_ && _) eqn:Hc; simplify_eq. eexists. split; [reflexivity|]. split.
  - intros id s Hs. eexists. split; [by rewrite lookup_fmap, Hs|].
    destruct (needs_vlan ip s) eqn:Hn; [|by split; [|left]]. split; [done|]. right.
    unfold needs_vlan in Hn. bool_hyps. split_and!; try done; [lia|].
    destruct (Z.ltb_spec 4094 vlan); [|lia]. exfalso. cbn in Hc.
    assert (existsb (λ p, needs_vlan ip p.2) (map_to_list (iv_subnets v)) = true) as Hex; [|congruence].
    apply existsb_exists. exists (id, s). split; [apply list_elem_of_In; by apply elem_of_map_to_list|].
    unfold needs_vlan. cbn. apply andb_true_iff. split; [by apply bool_decide_eq_true|done].
  - intros id Hid. rewrite lookup_fmap in Hid. by apply fmap_is_Some in Hid.
Qed.

Lemma resolve_Ok d v found :
  resolveImportDevice macaddr_in d v = Ok found →
  found = "" ∨ is_Some (iv_devices v !! found) ∨
  ∃ m r, iv_macs v !! m = Some r ∧ mc_Device r = Some found.
Proof.
  unfold resolveImportDevice. destruct (_ && _) eqn:Hc; intros H.
  { simplify_eq. bool_hyps. by right; left. }
  destruct (decide (d_MAC d = "")); simplify_eq; [by left|].
  destruct (macaddr_in (d_MAC d)) as [m|]; [cbn in H|done].
  destruct (iv_macs v !! m) as [r|] eqn:Hm; [|simplify_eq; by left].
  destruct (mc_Device r) as [dev|] eqn:Hr; [cbn in H; simplify_eq|done]. right. right. by exists m, r.
Qed.

(** The device part of an import. *)
Lemma importDevice_Ok t1 t2 d name now v dev v' :
  importDiscoveryDevice macaddr_in MarshalServices t1 t2 d name now v = Ok (dev, v') →
  ∃ devices macs, v' = with_macs macs (with_devices devices v) ∧ devices_kept v v' ∧
    (is_Some (devices !! dev) ∨
     ∃ m r, iv_macs v !! m = Some r ∧ mc_Device r = Some dev ∧ devices = iv_devices v) ∧
    (∀ m r, macs !! m = Some r →
      mc_Device r = Some dev ∨ ∃ old, iv_macs v !! m = Some old ∧ mc_Device r = mc_Device old) ∧
    macs_kept v macs ∧ (∀ k, k ≠ dev → devices !! k = iv_devices v !! k) ∧
    (dev ≠ "" ∨ t1 = Some "").
Proof.
  unfold importDiscoveryDevice. set (manual := trim_space name). intros H.
  destruct (resolveImportDevice macaddr_in d v) as [found|] eqn:Hf; [cbn in H|done].
  destruct (jsonb_in _) as [j|]; [cbn in H|done].
  destruct (if decide (found = "") then _ else _) as [[dev' v1]|] eqn:Hd; [cbn in H|done].
  assert (∃ devices, v1 = with_devices devices v ∧ devices_kept v v1 ∧
    (is_Some (devices !! dev') ∨
     ∃ m r, iv_macs v !! m = Some r ∧ mc_Device r = Some dev' ∧ devices = iv_devices v) ∧
    (∀ k, k ≠ dev' → devices !! k = iv_devices v !! k) ∧ (dev' ≠ "" ∨ t1 = Some ""))
    as (devices & -> & Hkept & Hdev & Hother).
  { destruct (decide (found = "")) as [->|Hne].
    - destruct t1 as [id|]; [cbn in Hd|done]. destruct (decide (iv_devices v !! id ≠ None)); simplify_eq.
      eexists. split; [reflexivity|]. split.
      + eapply (devices_kept_insert dev'); [reflexivity| |done]. destruct (iv_devices v !! dev'); [by destruct n|done].
      + split_and!; [left; rewrite lookup_insert_eq; by eexists| |].
        * intros k Hk. by rewrite lookup_insert_ne.
        * destruct (decide (dev' = "")) as [->|]; [by right|by left].
    - simplify_eq. eexists. split; [reflexivity|]. split.
      + by eapply devices_kept_alter.
      + split; [|split; [intros k Hk; by rewrite lookup_alter_ne|by left]].
        destruct (iv_devices v !! dev') as [x|] eqn:Hx.
        * left. rewrite lookup_alter_eq, Hx. by eexists.
        * right. destruct (resolve_Ok _ _ _ Hf) as [?|[[y Hy]|(m & r & Hm & Hr)]]; [done|congruence|].
          exists m, r. split; [done|]. split; [done|]. by apply alter_missing. }
  destruct (decide (d_MAC d = "")) as [|Hmac].
  { simplify_eq. exists devices, (iv_macs v). split; [by destruct v|].
    split; [done|]. split; [done|]. split; [intros m r Hm; right; by exists r|].
    split; [|done]. intros m r Hm. by exists r. }
  destruct (attachDiscoveryMAC _ _ _ _ _ _) as [v2|] eqn:Ha; [cbn in H|done]. simplify_eq.
  destruct (attach_Ok _ _ _ _ _ _ Ha) as (macs & -> & Hm & Hmk).
  exists devices, macs. split; [done|]. split; [exact Hkept|]. done.
Qed.

Lemma put_address_Ok id sid dev d now v aid v' :
  put_address id sid dev d now v = Ok (aid, v') →
  ∃ a, v' = with_addresses (<[d_IP d := a]> (iv_addresses v)) v ∧ ad_ID a = aid ∧ ad_Subnet a = Some sid ∧
    ad_LastSeen a = Some now ∧
    match iv_addresses v !! d_IP d with
    | Some old => aid = ad_ID old ∧ ad_State a = ad_State old ∧ ad_Notes a = ad_Notes old ∧
        ad_Hostname a = keep_text (d_Hostname d) (ad_Hostname old) ∧
        ad_Device a = match nonempty dev with Some x => Some x | None => ad_Device old end
    | None => has_address_id aid v = false ∧ ad_State a = "assigned" ∧ ad_Device a = nonempty dev
    end.
Proof.
  unfold put_address. destruct (iv_addresses v !! d_IP d) as [old|] eqn:Hold; intros H.
  - simplify_eq. by eexists.
  - destruct (has_address_id id v) eqn:Hid; simplify_eq. by eexists.
Qed.

(** The parts of a successful import. *)
Lemma import_tx_Ok t1 t2 t3 d name now v v' :
  import_tx macaddr_in MarshalServices t1 t2 t3 d name now v = Ok v' →
  ∃ sid s v1 dev v2 aid v3,
    containing_subnet (d_IP d) v = Some (sid, s) ∧
    backfillSubnetVLAN (d_IP d) (d_VLAN d) v = Ok v1 ∧
    importDiscoveryDevice macaddr_in MarshalServices t1 t2 d name now v1 = Ok (dev, v2) ∧
    put_address (default "" t3) sid dev d now v2 = Ok (aid, v3) ∧
    v' = mark_imported (d_ID d) aid dev v3.
Proof.
  unfold import_tx. intros H.
  destruct (containing_subnet (d_IP d) v) as [[sid s]|]; [cbn in H|done].
  destruct (backfillSubnetVLAN _ _ v) as [v1|] eqn:H1; [cbn in H|done].
  destruct (importDiscoveryDevice _ _ _ _ _ _ _ v1) as [[dev v2]|] eqn:H2; [cbn in H|done].
  destruct t3 as [t3|]; [cbn in H|done].
  destruct (put_address _ _ _ _ _ v2) as [[aid v3]|] eqn:H3; [cbn in H|done]. simplify_eq.
  by exists sid, s, v1, dev, v2, aid, v3.
Qed.
End changes.
