(* ===== verification/Integrity.v ===== *)
(** * The integrity of the inventory

    Every reference between the inventory's tables resolves, identifiers are
    unique and VLAN tags are in range, and every operation of [Inventory] and
    [Import] keeps it so. *)

From S2P Require Import Prelude GoStrings Netip Macaddr GoTime Process Scans Queue Inventory Import InventorySpec.
Local Open Scope Z_scope.

(** A nullable column that names a row of [table], when it names one. *)
Definition resolves {A} (table : gmap string A) (key : option string) : Prop :=
  ∀ k, key = Some k → is_Some (table !! k).

(** Table [m] has at least the rows of [n]. *)
Definition covers {A B} (n : gmap string A) (m : gmap string B) : Prop :=
  ∀ k, is_Some (n !! k) → is_Some (m !! k).

Lemma resolves_covers {A B} (n : gmap string A) (m : gmap string B) key :
  resolves n key → covers n m → resolves m key.
Proof. intros Hn Hc k Hk. by apply Hc, Hn. Qed.

Lemma resolves_Some {A} (m : gmap string A) k : is_Some (m !! k) → resolves m (Some k).
Proof. intros Hk j [= <-]. exact Hk. Qed.

Lemma resolves_None {A} (m : gmap string A) : resolves m None.
Proof. done. Qed.

(** The identifiers of the addresses. *)
Definition address_id (addresses : gmap string AddressRow) (aid : string) : Prop :=
  ∃ ip a, addresses !! ip = Some a ∧ ad_ID a = aid.

Record inv_wf (v : Inventory) : Prop :=
  { wf_subnet : ∀ sid s n, iv_subnets v !! sid = Some s → sn_vlan s = Some n → 1 ≤ n ≤ 4094;
    wf_address : ∀ ip a, iv_addresses v !! ip = Some a →
      resolves (iv_subnets v) (ad_Subnet a) ∧ resolves (iv_devices v) (ad_Device a);
    wf_mac : ∀ m r, iv_macs v !! m = Some r →
      is_Some (mc_Device r) ∧ resolves (iv_devices v) (mc_Device r);
    wf_discovery : ∀ ip r, iv_discoveries v !! ip = Some r →
      resolves (iv_devices v) (dr_Device r) ∧
      ∀ aid, dr_Address r = Some aid → address_id (iv_addresses v) aid;
    wf_address_id : ∀ ip1 ip2 a1 a2, iv_addresses v !! ip1 = Some a1 → iv_addresses v !! ip2 = Some a2 →
      ad_ID a1 = ad_ID a2 → ip1 = ip2;
    wf_discovery_id : ∀ ip1 ip2 r1 r2, iv_discoveries v !! ip1 = Some r1 → iv_discoveries v !! ip2 = Some r2 →
      dr_ID r1 = dr_ID r2 → ip1 = ip2 }.

(** ** One table at a time *)

Lemma wf_with_subnets subnets v :
  inv_wf v → covers (iv_subnets v) subnets →
  (∀ sid s n, subnets !! sid = Some s → sn_vlan s = Some n → 1 ≤ n ≤ 4094) →
  inv_wf (with_subnets subnets v).
Proof.
  intros [] Hc Hv. split; cbn; try done. intros ip a0 Ha.
  destruct (wf_address0 ip a0 Ha) as [Hs Hd]. split; [|done]. by eapply resolves_covers.
Qed.

Lemma wf_with_devices devices v :
  inv_wf v → covers (iv_devices v) devices → inv_wf (with_devices devices v).
Proof.
  intros [] Hc. split; cbn; try done.
  - intros ip a0 Ha. destruct (wf_address0 ip a0 Ha). split; [done|]. by eapply resolves_covers.
  - intros m r Hm. destruct (wf_mac0 m r Hm). split; [done|]. by eapply resolves_covers.
  - intros ip r Hr. destruct (wf_discovery0 ip r Hr). split; [|done]. by eapply resolves_covers.
Qed.

Lemma wf_with_macs macs v :
  inv_wf v → (∀ m r, macs !! m = Some r → is_Some (mc_Device r) ∧ resolves (iv_devices v) (mc_Device r)) →
  inv_wf (with_macs macs v).
Proof. intros [] Hm. by split. Qed.

Lemma wf_with_discoveries discoveries v :
  inv_wf v →
  (∀ ip r, discoveries !! ip = Some r → resolves (iv_devices v) (dr_Device r) ∧
     ∀ aid, dr_Address r = Some aid → address_id (iv_addresses v) aid) →
  (∀ ip1 ip2 r1 r2, discoveries !! ip1 = Some r1 → discoveries !! ip2 = Some r2 →
     dr_ID r1 = dr_ID r2 → ip1 = ip2) →
  inv_wf (with_discoveries discoveries v).
Proof. intros [] Hd Hi. by split. Qed.

(** Rows rewritten in place, identifiers kept. *)
Lemma wf_map_addresses (f : AddressRow → AddressRow) v :
  inv_wf v → (∀ a0, ad_ID (f a0) = ad_ID a0) →
  (∀ a0, ad_Subnet (f a0) = ad_Subnet a0) → (∀ a0, ad_Device (f a0) = ad_Device a0) →
  ∀ addresses, (∀ ip, addresses !! ip = iv_addresses v !! ip ∨ addresses !! ip = f <$> iv_addresses v !! ip) →
  inv_wf (with_addresses addresses v).
Proof.
  intros [] Hid Hs Hd addresses Hall.
  assert (∀ ip a0, addresses !! ip = Some a0 → ∃ a1, iv_addresses v !! ip = Some a1 ∧
    ad_ID a0 = ad_ID a1 ∧ ad_Subnet a0 = ad_Subnet a1 ∧ ad_Device a0 = ad_Device a1) as Hback.
  { intros ip a0 Ha. destruct (Hall ip) as [He|He]; rewrite He in Ha; [by exists a0|].
    destruct (iv_addresses v !! ip) as [a1|]; [cbn in Ha|done]. simplify_eq. by exists a1. }
  split; cbn; try done.
  - intros ip a0 Ha. destruct (Hback _ _ Ha) as (a1 & Ha1 & _ & -> & ->). by eapply wf_address0.
  - intros ip r Hr. destruct (wf_discovery0 ip r Hr) as [Hd1 Ha1]. split; [done|].
    intros aid (ip' & a0 & Ha & He)%Ha1. exists ip'.
    destruct (Hall ip') as [He'|He']; rewrite He', Ha.
    + by exists a0.
    + exists (f a0). split; [done|]. by rewrite Hid.
  - intros ip1 ip2 a1 a2 H1 H2 He.
    destruct (Hback _ _ H1) as (b1 & Hb1 & He1 & _), (Hback _ _ H2) as (b2 & Hb2 & He2 & _).
    eapply wf_address_id0; [exact Hb1|exact Hb2|congruence].
Qed.

(** One address put in place of the old one, or under a fresh identifier. *)
Lemma wf_put_address ip a0 v :
  inv_wf v → resolves (iv_subnets v) (ad_Subnet a0) → resolves (iv_devices v) (ad_Device a0) →
  (match iv_addresses v !! ip with
   | Some old => ad_ID a0 = ad_ID old
   | None => ∀ ip' b, iv_addresses v !! ip' = Some b → ad_ID b ≠ ad_ID a0
   end) →
  inv_wf (with_addresses (<[ip := a0]> (iv_addresses v)) v).
Proof.
  intros [] Hs Hd Hid. split; cbn; try done.
  - intros ip' a1. rewrite lookup_insert_Some. intros [[-> ->]|[_ Ha]]; [done|by eapply wf_address0].
  - intros ip' r Hr. destruct (wf_discovery0 ip' r Hr) as [Hd1 Ha1]. split; [done|].
    intros aid (ip1 & a1 & Ha & He)%Ha1. destruct (decide (ip = ip1)) as [<-|Hne].
    + exists ip, a0. rewrite lookup_insert_eq. rewrite Ha in Hid. split; [done|congruence].
    + exists ip1, a1. by rewrite lookup_insert_ne.
  - intros ip1 ip2 a1 a2. rewrite !lookup_insert_Some.
    intros [[<- <-]|[Hn1 H1]] [[<- <-]|[Hn2 H2]] He; try done; try (by eapply wf_address_id0).
    + destruct (iv_addresses v !! ip) as [old|] eqn:Ho.
      * exfalso. apply Hn2. eapply wf_address_id0; [exact Ho|exact H2|congruence].
      * exfalso. by apply (Hid _ _ H2).
    + destruct (iv_addresses v !! ip) as [old|] eqn:Ho.
      * exfalso. apply Hn1. eapply wf_address_id0; [exact Ho|exact H1|congruence].
      * exfalso. by apply (Hid _ _ H1).
Qed.

Lemma has_id_false {A} (id : A → string) (m : gmap string A) key :
  existsb (λ p, bool_decide (id p.2 = key)) (map_to_list m) = false →
  ∀ k x, m !! k = Some x → id x ≠ key.
Proof.
  intros Hf k x Hx He. apply not_true_iff_false in Hf. apply Hf. apply existsb_exists.
  exists (k, x). split; [by apply list_elem_of_In, elem_of_map_to_list|]. by apply bool_decide_eq_true.
Qed.

(** ** Every transaction keeps it *)

Lemma covers_kept v v' : devices_kept v v' → covers (iv_devices v) (iv_devices v').
Proof. intros [Hk _] k [x Hx]. destruct (Hk k x Hx) as (x' & Hx' & _). by exists x'. Qed.

Lemma covers_alter {A} (f : A → A) k (m : gmap string A) : covers m (alter f k m).
Proof.
  intros i Hi. destruct (decide (k = i)) as [->|].
  - rewrite lookup_alter_eq. by apply fmap_is_Some.
  - by rewrite lookup_alter_ne.
Qed.

Lemma wf_upsert ip new v row v' :
  dr_Status new = "pending" → dr_Address new = None → dr_Device new = None →
  upsert_discovery ip new v = Ok (row, v') → inv_wf v → inv_wf v'.
Proof.
  intros _ Ha Hd H Hw. unfold upsert_discovery in H.
  destruct (iv_discoveries v !! ip) as [old|] eqn:Ho.
  - simplify_eq. apply wf_with_discoveries; [done| |].
    + intros ip' r. rewrite lookup_insert_Some. intros [[-> <-]|[_ Hr]]; [|by eapply wf_discovery].
      cbn. by eapply wf_discovery.
    + intros ip1 ip2 r1 r2. rewrite !lookup_insert_Some.
      intros [[<- <-]|[Hn1 H1]] [[<- <-]|[Hn2 H2]] He; try done; by eapply (wf_discovery_id _ Hw).
  - destruct (has_discovery_id (dr_ID new) v) eqn:Hid; simplify_eq.
    pose proof (has_id_false _ _ _ Hid) as Hfresh. apply wf_with_discoveries; [done| |].
    + intros ip' r. rewrite lookup_insert_Some. intros [[-> <-]|[_ Hr]]; [|by eapply wf_discovery].
      by rewrite Hd, Ha.
    + intros ip1 ip2 r1 r2. rewrite !lookup_insert_Some.
      intros [[<- <-]|[Hn1 H1]] [[<- <-]|[Hn2 H2]] He; try done.
      * by destruct (Hfresh _ _ H2).
      * by destruct (Hfresh _ _ H1).
      * by eapply (wf_discovery_id _ Hw).
Qed.

Lemma wf_seen ip now v : inv_wf v → inv_wf (with_addresses (alter (seen_now now) ip (iv_addresses v)) v).
Proof.
  intros Hw. apply (wf_map_addresses (seen_now now)); try done. intros ip'.
  destruct (decide (ip = ip')) as [->|]; [right; by rewrite lookup_alter_eq|left; by rewrite lookup_alter_ne].
Qed.

Lemma wf_backfill ip vlan v v' : backfillSubnetVLAN ip vlan v = Ok v' → inv_wf v → inv_wf v'.
Proof.
  intros H Hw. destruct (backfill_Ok _ _ _ _ H) as (subnets & -> & Hs & Hd).
  apply wf_with_subnets; [done| |].
  - intros k [s Hk]. destruct (Hs k s Hk) as (s' & Hs' & _). by exists s'.
  - intros sid s' n Hs' Hn. destruct (Hd sid) as [s Hk]; [by exists s'|].
    destruct (Hs sid s Hk) as (s'' & Hs'' & _ & Hv). assert (s'' = s') as -> by congruence.
    destruct Hv as [Hv|(_ & _ & Hv & Hr)].
    + eapply (wf_subnet _ Hw sid s); congruence.
    + assert (n = vlan) as -> by congruence. exact Hr.
Qed.

Section integrity.
Context {env : Env}.
Context (inet_in macaddr_in : string → option string)
        (MarshalServices : list DiscoveryService → string).

Lemma wf_attach t dev mac vendor v v' :
  attachDiscoveryMAC macaddr_in t dev mac vendor v = Ok v' → is_Some (iv_devices v !! dev) →
  inv_wf v → inv_wf v'.
Proof.
  intros H Hdev Hw. destruct (attach_Ok _ _ _ _ _ _ _ H) as (macs & -> & Hm & _).
  apply wf_with_macs; [done|]. intros m r Hr. destruct (Hm m r Hr) as [->|(old & Ho & ->)].
  - split; [by eexists|by apply resolves_Some].
  - by apply (wf_mac _ Hw m).
Qed.

Lemma wf_importDevice t1 t2 d name now v dev v' :
  importDiscoveryDevice macaddr_in MarshalServices t1 t2 d name now v = Ok (dev, v') →
  inv_wf v → inv_wf v' ∧ is_Some (iv_devices v' !! dev).
Proof.
  intros H Hw. destruct (importDevice_Ok _ _ _ _ _ _ _ _ _ _ H) as (devices & macs & -> & Hk & Hd & Hm & _).
  assert (is_Some (devices !! dev)) as Hdev.
  { destruct Hd as [?|(m & r & Hr & Hmd & ->)]; [done|]. by eapply (wf_mac _ Hw m). }
  split; [|done]. assert (inv_wf (with_devices devices v)) as Hw'.
  { apply wf_with_devices; [done|]. intros k [x Hx]. destruct (proj1 Hk k x Hx) as (x' & Hx' & _). by exists x'. }
  apply wf_with_macs; [done|]. intros m r Hr. destruct (Hm m r Hr) as [->|(old & Ho & ->)].
  - split; [by eexists|by apply resolves_Some].
  - by apply (wf_mac _ Hw' m).
Qed.

Lemma wf_put id sid dev d now v aid v' :
  put_address id sid dev d now v = Ok (aid, v') →
  is_Some (iv_subnets v !! sid) → is_Some (iv_devices v !! dev) → inv_wf v →
  inv_wf v' ∧ address_id (iv_addresses v') aid.
Proof.
  intros H Hs Hd Hw. destruct (put_address_Ok _ _ _ _ _ _ _ _ H) as (a0 & -> & Hid & Hsub & _ & Hold). split.
  2:{ exists (d_IP d), a0. cbn. by rewrite lookup_insert_eq. }
  apply wf_put_address; [done| | |].
  - rewrite Hsub. by apply resolves_Some.
  - unfold nonempty in Hold. destruct (iv_addresses v !! d_IP d) as [old|] eqn:Ho.
    + destruct Hold as (_ & _ & _ & _ & ->).
      destruct (decide (dev = "")); [by eapply (wf_address _ Hw)|by apply resolves_Some].
    + destruct Hold as (_ & _ & ->). destruct (decide (dev = "")); [done|by apply resolves_Some].
  - destruct (iv_addresses v !! d_IP d) as [old|] eqn:Ho.
    + rewrite Hid. by destruct Hold as (-> & _).
    + destruct Hold as (Hf & _). intros ip' b Hb. rewrite Hid. exact (has_id_false _ _ _ Hf ip' b Hb).
Qed.

Lemma wf_mark id aid dev v :
  address_id (iv_addresses v) aid → is_Some (iv_devices v !! dev) →
  inv_wf v → inv_wf (mark_imported id aid dev v).
Proof.
  intros Ha Hd Hw.
  assert (∀ ip r', ((λ r, if decide (dr_ID r = id) then set_imported aid dev r else r)
    <$> iv_discoveries v) !! ip = Some r' → ∃ r, iv_discoveries v !! ip = Some r ∧ dr_ID r' = dr_ID r ∧
    (r' = r ∨ dr_Address r' = Some aid ∧ dr_Device r' = emptyToNil dev)) as Hback.
  { intros ip r'. rewrite lookup_fmap, fmap_Some. intros (r & Hr & ->). exists r.
    destruct (decide (dr_ID r = id)); cbn; auto. }
  apply wf_with_discoveries; [done| |].
  - intros ip r' Hr. destruct (Hback _ _ Hr) as (r & Hr0 & _ & [->|[Hra Hrd]]); [by eapply wf_discovery|].
    rewrite Hra, Hrd. split; [|intros aid' [= <-]; done].
    unfold emptyToNil. destruct (decide (trim_space dev = "")); [done|by apply resolves_Some].
  - intros ip1 ip2 r1 r2 H1 H2 He. destruct (Hback _ _ H1) as (b1 & Hb1 & E1 & _), (Hback _ _ H2) as (b2 & Hb2 & E2 & _).
    eapply (wf_discovery_id _ Hw); [exact Hb1|exact Hb2|congruence].
Qed.

Lemma wf_import t1 t2 t3 d name now v v' :
  import_tx macaddr_in MarshalServices t1 t2 t3 d name now v = Ok v' → inv_wf v → inv_wf v'.
Proof.
  intros H Hw. destruct (import_tx_Ok _ _ _ _ _ _ _ _ _ _ H)
    as (sid & s & v1 & dev & v2 & aid & v3 & Hc & Hb & Hi & Hp & ->).
  pose proof (wf_backfill _ _ _ _ Hb Hw) as Hw1.
  destruct (wf_importDevice _ _ _ _ _ _ _ _ Hi Hw1) as [Hw2 Hdev].
  assert (is_Some (iv_subnets v2 !! sid)) as Hsid.
  { destruct (containing_subnet_Some _ _ _ _ Hc) as (Hs & _).
    destruct (backfill_Ok _ _ _ _ Hb) as (subnets & -> & Hsub & _).
    destruct (importDevice_Ok _ _ _ _ _ _ _ _ _ _ Hi) as (devices & macs & -> & _).
    cbn. destruct (Hsub _ _ Hs) as (s' & Hs' & _). by exists s'. }
  destruct (wf_put _ _ _ _ _ _ _ _ Hp Hsid Hdev Hw2) as [Hw3 Ha].
  apply wf_mark; [done| |done].
  destruct (put_address_Ok _ _ _ _ _ _ _ _ Hp) as (a0 & -> & _). exact Hdev.
Qed.

Lemma wf_sync t d v v' :
  sync_tx macaddr_in MarshalServices t d v = Ok (Some v') → inv_wf v → inv_wf v'.
Proof.
  intros H Hw. unfold sync_tx in H. destruct (decide _) as [|Hdev]; [done|].
  destruct (jsonb_in _) as [j|]; [cbn in H|done].
  set (v1 := with_devices (alter (sync_device d) (d_ImportedDeviceID d) (iv_devices v)) v) in H.
  assert (inv_wf v1) as Hw1 by (apply wf_with_devices; [done|apply covers_alter]).
  assert (is_Some (iv_devices v1 !! d_ImportedDeviceID d)) as Hd1
    by (apply covers_alter; destruct (iv_devices v !! d_ImportedDeviceID d); [by eexists|done]).
  destruct (if decide (d_MAC d = "") then Ok v1 else _) as [v2|] eqn:Ha; [cbn in H|done].
  assert (inv_wf v2) as Hw2.
  { destruct (decide (d_MAC d = "")); [by simplify_eq|]. by eapply wf_attach. }
  destruct (backfillSubnetVLAN _ _ _) as [v3|] eqn:Hb; [cbn in H|done]. simplify_eq.
  eapply wf_backfill; [exact Hb|].
  destruct (decide (d_Hostname d ≠ "" ∧ d_ImportedAddressID d ≠ "")); [|exact Hw2].
  apply (wf_map_addresses (backfill_hostname d)); [done| | | |].
  1-3: intros a0; unfold backfill_hostname; by destruct (decide (ad_ID a0 = d_ImportedAddressID d ∧ ad_Hostname a0 = "")).
  intros ip. right. by rewrite lookup_fmap.
Qed.

Lemma wf_link t ids v v' : link_tx t ids v = Ok v' → inv_wf v → inv_wf v'.
Proof.
  intros H Hw. unfold link_tx in H. destruct (negb _); [done|].
  destruct (match groups_of ids v with [] => _ | _ => _ end) as [g|]; [cbn in H|done]. simplify_eq.
  apply wf_with_devices; [done|]. intros k [x Hx]. rewrite map_lookup_imap, Hx. by eexists.
Qed.

Lemma wf_unlink id v v' : unlink_tx id v = Ok v' → inv_wf v → inv_wf v'.
Proof.
  intros H Hw. unfold unlink_tx in H. destruct (iv_devices v !! id) as [x|] eqn:Hx; [|done].
  assert (covers (iv_devices v) (<[id := set_group None x]> (iv_devices v))) as Hc.
  { intros k Hk. destruct (decide (id = k)) as [<-|]; [by rewrite lookup_insert_eq|by rewrite lookup_insert_ne]. }
  destruct (group_name x) as [g|]; [|by simplify_eq].
  destruct (length _ <? 2)%nat; simplify_eq; apply wf_with_devices; try done.
  intros k Hk%Hc. rewrite lookup_fmap. by apply fmap_is_Some.
Qed.

Lemma wf_dismiss id ip r v :
  find_discovery id v = Some (ip, r) → inv_wf v →
  inv_wf (with_discoveries (<[ip := set_dismissed r]> (iv_discoveries v)) v).
Proof.
  intros Hf Hw. unfold find_discovery in Hf. apply fmap_Some in Hf as ((i & ip0 & r0) & Hl & [= -> ->]).
  apply list_find_Some in Hl as (Hl & _ & _). apply list_elem_of_lookup_2, elem_of_map_to_list in Hl.
  apply wf_with_discoveries; [done| |].
  - intros ip' r'. cbn. rewrite lookup_insert_Some.
    intros [[<- <-]|[_ Hr]]; [exact (wf_discovery _ Hw _ _ Hl)|exact (wf_discovery _ Hw _ _ Hr)].
  - intros ip1 ip2 r1 r2. cbn. rewrite !lookup_insert_Some.
    intros [[<- <-]|[Hn1 H1]] [[<- <-]|[Hn2 H2]] He; [done|..].
    + exact (wf_discovery_id _ Hw _ _ _ _ Hl H2 He).
    + exact (wf_discovery_id _ Hw _ _ _ _ H1 Hl He).
    + exact (wf_discovery_id _ Hw _ _ _ _ H1 H2 He).
Qed.

(** ** The integrity theorem *)

(** The statement leaves the rest of the world alone and keeps the inventory whole. *)
Definition keeps_inventory : World Inventory → World Inventory → Prop :=
  inv_step (λ v v', inv_wf v → inv_wf v').

Lemma keeps_inventory_stmt {A} (f : Z → World Inventory → result db_error (A * World Inventory)) :
  (∀ w now a w', f now w = Ok (a, w') →
     ∃ v, w' = with_inv v w ∧ (inv_wf (w_inv w) → inv_wf v)) →
  guarantees keeps_inventory (stmt f).
Proof. intros Hf. by apply (guarantees_stmt_inv (λ v v', inv_wf v → inv_wf v')). Qed.

Lemma UnlinkDevice_wf id : guarantees keeps_inventory (UnlinkDevice id).
Proof.
  apply keeps_inventory_stmt. intros w now x w' Hx.
  destruct (unlink_tx id (w_inv w)) as [v|] eqn:Hu; [cbn in Hx|done]. simplify_eq.
  exists v. split; [done|]. by eapply wf_unlink.
Qed.

Lemma DismissDiscovery_wf id : guarantees keeps_inventory (DismissDiscovery id).
Proof.
  apply keeps_inventory_stmt. intros w now x w' Hx.
  destruct (find_discovery id (w_inv w)) as [[ip r]|] eqn:Hf; [|done].
  destruct (decide (dr_Status r = "imported")); [done|]. simplify_eq.
  eexists. split; [reflexivity|]. by eapply wf_dismiss.
Qed.

Lemma DismissSuggestion_wf i j : guarantees keeps_inventory (DismissDeviceLinkSuggestion i j).
Proof.
  unfold DismissDeviceLinkSuggestion. destruct (decide _); [exact I|].
  apply keeps_inventory_stmt. intros w now x w' Hx. destruct (negb _); [done|]. simplify_eq.
  eexists. split; [reflexivity|]. by intros [].
Qed.

(** C19: every operation of the discovery queue and of device linking, whatever
    runs between its statements, changes the inventory only and keeps it whole:
    addresses name existing subnets and devices, MACs name existing devices,
    an imported discovery names existing addresses and devices, identifiers
    stay unique and recorded VLAN tags stay between 1 and 4094. *)
Theorem inventory_integrity :
  (∀ input, guarantees keeps_inventory (inv_UpsertDiscovery inet_in macaddr_in MarshalServices input)) ∧
  (∀ id name, guarantees keeps_inventory (inv_ImportDiscovery macaddr_in MarshalServices id name)) ∧
  (∀ id, guarantees keeps_inventory (inv_SyncImportedDiscovery macaddr_in MarshalServices id)) ∧
  (∀ id, guarantees keeps_inventory (DismissDiscovery id)) ∧
  (∀ ids, guarantees keeps_inventory (LinkDevices ids)) ∧
  (∀ id, guarantees keeps_inventory (UnlinkDevice id)) ∧
  (∀ id, guarantees keeps_inventory (inv_AutoLinkDeviceBySerial id)) ∧
  (∀ i j, guarantees keeps_inventory (DismissDeviceLinkSuggestion i j)).
Proof.
  split_and!; intros; try apply DismissDiscovery_wf; try apply UnlinkDevice_wf;
    try apply DismissSuggestion_wf; unfold keeps_inventory.
  - apply UpsertDiscovery_step; [done|by eauto using wf_upsert|by eauto using wf_seen].
  - apply ImportDiscovery_step; [done|apply wf_import].
  - apply SyncImportedDiscovery_step; [done|apply wf_sync].
  - apply LinkDevices_step; [done|]. intros t l v v' _ _. apply wf_link.
  - apply AutoLinkDeviceBySerial_step; [done|]. intros t l v v' _ _. apply wf_link.
Qed.
End integrity.
