(* ===== verification/Lifecycle.v ===== *)
(** * The life of a discovery

    What recording, reviewing and importing do to a discovery and to the records
    behind it: the review states and their transitions, the classification of an
    observation, and the contract of an import. *)

From S2P Require Import Prelude GoStrings Netip Macaddr GoTime Process Scans Queue Inventory Import InventorySpec Integrity.
Local Open Scope Z_scope.

(** ** Review states *)

(** Known data stays known: only a non-empty value replaces one. *)
Record no_less (r r' : DiscoveryRow) : Prop :=
  { nl_id : dr_ID r' = dr_ID r;
    nl_first : dr_First r' = dr_First r;
    nl_links : dr_Address r' = dr_Address r ∧ dr_Device r' = dr_Device r;
    nl_mac : is_Some (dr_MAC r) → is_Some (dr_MAC r');
    nl_vendor : dr_Vendor r ≠ "" → dr_Vendor r' ≠ "";
    nl_hostname : dr_Hostname r ≠ "" → dr_Hostname r' ≠ "";
    nl_os : (dr_OSFamily r ≠ "" → dr_OSFamily r' ≠ "") ∧ (dr_OSDetail r ≠ "" → dr_OSDetail r' ≠ "");
    nl_hw : (dr_HWSerial r ≠ "" → dr_HWSerial r' ≠ "") ∧ (dr_HWObjectID r ≠ "" → dr_HWObjectID r' ≠ "");
    nl_vlan : dr_VLAN r ≠ 0 → dr_VLAN r' ≠ 0;
    nl_services : dr_Services r ≠ [] → dr_Services r' ≠ [] }.

(** An imported discovery whose address was deleted is new again. *)
Definition reopened (r r' : DiscoveryRow) : Prop :=
  dr_Status r = "imported" ∧ dr_Address r = None ∧ dr_Reconcile r' = ReconcileNew ∧ dr_Status r' = "pending".

(** A step where every row moves as [P] says, none is lost, and a new one is
    pending without links. *)
Definition rows_step (P : DiscoveryRow → DiscoveryRow → Prop) (v v' : Inventory) : Prop :=
  ∀ ip, match iv_discoveries v !! ip, iv_discoveries v' !! ip with
        | Some r, Some r' => r' = r ∨ P r r'
        | Some _, None => False
        | None, Some r' => dr_Status r' = "pending" ∧ dr_Address r' = None ∧ dr_Device r' = None
        | None, None => True
        end.

Lemma rows_step_same P v v' : iv_discoveries v' = iv_discoveries v → rows_step P v v'.
Proof. intros H ip. rewrite H. destruct (iv_discoveries v !! ip); [by left|done]. Qed.

Lemma rows_step_insert P v ip r r' :
  iv_discoveries v !! ip = Some r → P r r' →
  rows_step P v (with_discoveries (<[ip := r']> (iv_discoveries v)) v).
Proof.
  intros Hr Hp ip'. cbn. destruct (decide (ip = ip')) as [<-|].
  - rewrite Hr, lookup_insert_eq. by right.
  - rewrite lookup_insert_ne by done. destruct (iv_discoveries v !! ip'); [by left|done].
Qed.

Lemma keep_text_some new old : old ≠ "" → keep_text new old ≠ "".
Proof. unfold keep_text. by destruct (decide (new = "")). Qed.

Lemma refresh_no_less old new : no_less old (refresh_discovery old new).
Proof.
  split; cbn; try done; try (split; intros; by apply keep_text_some); try by apply keep_text_some.
  - intros [m Hm]. destruct (dr_MAC new); [by eexists|by rewrite Hm; eexists].
  - intros Hv. by destruct (Z.eqb_spec (dr_VLAN new) 0).
  - intros Hs. by destruct (dr_Services new).
Qed.

Lemma upsert_rows ip new v row v' :
  dr_Status new = "pending" → dr_Address new = None → dr_Device new = None →
  upsert_discovery ip new v = Ok (row, v') →
  rows_step (λ r r', no_less r r' ∧ (dr_Status r' = dr_Status r ∨ reopened r r')) v v'.
Proof.
  intros Hst Ha Hd H. unfold upsert_discovery in H. destruct (iv_discoveries v !! ip) as [old|] eqn:Ho.
  - simplify_eq. apply (rows_step_insert _ _ _ old); [done|]. split; [apply refresh_no_less|].
    unfold reopened. cbn. destruct (decide _) as [(? & ? & ?)|]; [by right|by left].
  - destruct (has_discovery_id _ _); simplify_eq. intros ip'. cbn.
    destruct (decide (ip = ip')) as [<-|].
    + by rewrite Ho, lookup_insert_eq.
    + rewrite lookup_insert_ne by done. destruct (iv_discoveries v !! ip'); [by left|done].
Qed.

Section lifecycle.
Context {env : Env}.
Context (inet_in macaddr_in : string → option string)
        (MarshalServices : list DiscoveryService → string).

Lemma importDevice_rows t1 t2 d name now v dev v' :
  importDiscoveryDevice macaddr_in MarshalServices t1 t2 d name now v = Ok (dev, v') →
  iv_discoveries v' = iv_discoveries v.
Proof. intros H. by destruct (importDevice_Ok _ _ _ _ _ _ _ _ _ _ H) as (? & ? & -> & _). Qed.

Lemma backfill_rows ip vlan v v' :
  backfillSubnetVLAN ip vlan v = Ok v' → iv_discoveries v' = iv_discoveries v.
Proof. intros H. by destruct (backfill_Ok _ _ _ _ H) as (? & -> & _). Qed.

Lemma import_rows t1 t2 t3 d name now v v' :
  import_tx macaddr_in MarshalServices t1 t2 t3 d name now v = Ok v' →
  rows_step (λ r r', ∃ aid dev, r' = set_imported aid dev r) v v'.
Proof.
  intros H. destruct (import_tx_Ok _ _ _ _ _ _ _ _ _ _ H)
    as (sid & s & v1 & dev & v2 & aid & v3 & _ & Hb & Hi & Hp & ->).
  destruct (put_address_Ok _ _ _ _ _ _ _ _ Hp) as (a0 & -> & _).
  intros ip. cbn. rewrite lookup_fmap, (importDevice_rows _ _ _ _ _ _ _ _ Hi), (backfill_rows _ _ _ _ Hb).
  destruct (iv_discoveries v !! ip) as [r|]; cbn; [|done].
  destruct (decide (dr_ID r = d_ID d)); [right; by exists aid, dev|by left].
Qed.

Lemma sync_rows t d v v' :
  sync_tx macaddr_in MarshalServices t d v = Ok (Some v') → iv_discoveries v' = iv_discoveries v.
Proof.
  intros H. unfold sync_tx in H. destruct (decide _); [done|].
  destruct (jsonb_in _); [cbn in H|done].
  destruct (if decide (d_MAC d = "") then _ else _) as [v2|] eqn:Ha; [cbn in H|done].
  destruct (backfillSubnetVLAN _ _ _) as [v3|] eqn:Hb; [cbn in H|done]. simplify_eq.
  rewrite (backfill_rows _ _ _ _ Hb).
  transitivity (iv_discoveries v2); [by destruct (decide (d_Hostname d ≠ "" ∧ d_ImportedAddressID d ≠ ""))|].
  destruct (decide (d_MAC d = "")); [by simplify_eq|].
  by destruct (attach_Ok _ _ _ _ _ _ _ Ha) as (macs & -> & _).
Qed.

Lemma link_rows t ids v v' : link_tx t ids v = Ok v' → iv_discoveries v' = iv_discoveries v.
Proof.
  intros H. unfold link_tx in H. destruct (negb _); [done|].
  destruct (match groups_of ids v with [] => _ | _ => _ end) as [g|]; [cbn in H|done]. by simplify_eq.
Qed.

Lemma unlink_rows id v v' : unlink_tx id v = Ok v' → iv_discoveries v' = iv_discoveries v.
Proof.
  intros H. unfold unlink_tx in H. destruct (iv_devices v !! id) as [x|]; [|done].
  destruct (group_name x) as [g|]; [|by simplify_eq].
  destruct (length _ <? 2)%nat; by simplify_eq.
Qed.

Definition rows_unchanged (v v' : Inventory) : Prop := iv_discoveries v' = iv_discoveries v.

Lemma find_discovery_lookup id v ip r :
  find_discovery id v = Some (ip, r) → iv_discoveries v !! ip = Some r ∧ dr_ID r = id.
Proof.
  intros Hf. apply fmap_Some in Hf as ((i & ip0 & r0) & Hl & [= -> ->]).
  apply list_find_Some in Hl as (Hl & Hid & _). split; [|done].
  by apply elem_of_map_to_list, list_elem_of_lookup_2 with i.
Qed.

Lemma DismissDiscovery_rows id :
  guarantees (inv_step (rows_step (λ r r', dr_ID r = id ∧ dr_Status r ≠ "imported" ∧ r' = set_dismissed r)))
    (DismissDiscovery id).
Proof.
  apply guarantees_stmt_inv; [intros v; by apply rows_step_same|]. intros w now x w' Hx.
  destruct (find_discovery id (w_inv w)) as [[ip r]|] eqn:Hf; [|done].
  destruct (decide (dr_Status r = "imported")); [done|]. simplify_eq.
  destruct (find_discovery_lookup _ _ _ _ Hf) as [Hr Hid].
  eexists. split; [reflexivity|]. by eapply rows_step_insert.
Qed.

Lemma UnlinkDevice_rows id : guarantees (inv_step rows_unchanged) (UnlinkDevice id).
Proof.
  apply guarantees_stmt_inv; [done|]. intros w now x w' Hx.
  destruct (unlink_tx id (w_inv w)) as [v|] eqn:Hu; [cbn in Hx|done]. simplify_eq.
  exists v. split; [done|]. by eapply unlink_rows.
Qed.

(** C20: the review states of a discovery, whatever runs between the statements
    of an operation: recording an observation never loses what was known of the
    host and keeps its review status, except that an imported discovery whose
    address was deleted and is seen as new returns to pending; an import only
    sets the status and the two links; dismissing never touches an imported
    discovery; syncing and linking change no discovery; and a discovery starts
    pending and is never deleted by any of them. *)
Theorem discovery_lifecycle :
  (∀ input, guarantees
     (inv_step (rows_step (λ r r', no_less r r' ∧ (dr_Status r' = dr_Status r ∨ reopened r r'))))
     (inv_UpsertDiscovery inet_in macaddr_in MarshalServices input)) ∧
  (∀ id name, guarantees
     (inv_step (rows_step (λ r r', ∃ aid dev, r' = set_imported aid dev r)))
     (inv_ImportDiscovery macaddr_in MarshalServices id name)) ∧
  (∀ id, guarantees
     (inv_step (rows_step (λ r r', dr_ID r = id ∧ dr_Status r ≠ "imported" ∧ r' = set_dismissed r)))
     (DismissDiscovery id)) ∧
  (∀ id, guarantees (inv_step rows_unchanged) (inv_SyncImportedDiscovery macaddr_in MarshalServices id)) ∧
  (∀ id, guarantees (inv_step rows_unchanged) (inv_AutoLinkDeviceBySerial id)) ∧
  (∀ ids, guarantees (inv_step rows_unchanged) (LinkDevices ids)) ∧
  (∀ id, guarantees (inv_step rows_unchanged) (UnlinkDevice id)).
Proof.
  split_and!; intros.
  - apply UpsertDiscovery_step; [intros v; by apply rows_step_same|apply upsert_rows|].
    intros ip now v. by apply rows_step_same.
  - apply ImportDiscovery_step; [intros v; by apply rows_step_same|apply import_rows].
  - apply DismissDiscovery_rows.
  - apply SyncImportedDiscovery_step; [done|apply sync_rows].
  - apply AutoLinkDeviceBySerial_step; [done|]. intros t l v v' _ _. apply link_rows.
  - apply LinkDevices_step; [done|]. intros t l v v' _ _. apply link_rows.
  - apply UnlinkDevice_rows.
Qed.

End lifecycle.

(** ** Classifying an observation *)

Section reconciling.
Context {env : Env}.
Context (inet_in macaddr_in : string → option string).

(** [m] belongs to device [dev]. *)
Definition owns (v : Inventory) (dev m : string) : Prop :=
  ∃ r, iv_macs v !! m = Some r ∧ mc_Device r = Some dev.

(** The address's device has MACs, and the observed one is not among them. *)
Definition contradicts (v : Inventory) (mac : option string) (row : AddressRow) : Prop :=
  ∃ m dev, mac = Some m ∧ ad_Device row = Some dev ∧ (∃ m', owns v dev m') ∧ ¬ owns v dev m.

(** The owner of the observed MAC has another address. *)
Definition moved (v : Inventory) (mac : option string) (ip : string) : Prop :=
  ∃ m dev ip' row, mac = Some m ∧ owns v dev m ∧ ip' ≠ ip ∧
    iv_addresses v !! ip' = Some row ∧ ad_Device row = Some dev.

Lemma elem_of_macs_of dev m v : m ∈ macs_of (Some dev) v ↔ owns v dev m.
Proof.
  unfold macs_of, owns. rewrite list_elem_of_fmap. split.
  - intros ([k r] & -> & [Hd Hin]%list_elem_of_filter). exists r. split; [by apply elem_of_map_to_list|exact Hd].
  - intros (r & Hr & Hd). exists (m, r). split; [done|]. apply list_elem_of_filter.
    split; [exact Hd|by apply elem_of_map_to_list].
Qed.

Lemma contradicts_test v mac row :
  bool_decide (mac ≠ None) && (0 <? length (macs_of (ad_Device row) v))%nat &&
    negb (match mac with Some m => bool_decide (m ∈ macs_of (ad_Device row) v) | None => false end) = true ↔
  contradicts v mac row.
Proof.
  unfold contradicts. rewrite !andb_true_iff, bool_decide_eq_true, negb_true_iff, Nat.ltb_lt.
  destruct (ad_Device row) as [dev|].
  2:{ cbn. split; [intros [[_ ?] _]; lia|by intros (m & dev & _ & ? & _)]. }
  destruct mac as [m|]; [|by split; [intros [[? _] _]|intros (m & ? & ? & _)]].
  rewrite bool_decide_eq_false, elem_of_macs_of. split.
  - intros [[_ Hlen] Hno]. exists m, dev. split_and!; try done.
    destruct (macs_of (Some dev) v) as [|m' l] eqn:Hm; [cbn in Hlen; lia|].
    exists m'. apply elem_of_macs_of. rewrite Hm. by left.
  - intros (m0 & dev0 & [= <-] & [= <-] & [m' Hm'%elem_of_macs_of] & Hno). split; [|done]. split; [done|].
    destruct (macs_of (Some dev) v); [by apply not_elem_of_nil in Hm'|cbn; lia].
Qed.

Lemma other_address_Some m ip v :
  is_Some (other_address m ip v) ↔ moved v (Some m) ip.
Proof.
  unfold other_address, moved, owns. split.
  - intros [x Hx]. destruct (iv_macs v !! m) as [r|] eqn:Hr; [|done].
    destruct (mc_Device r) as [dev|] eqn:Hd; [|done].
    apply fmap_Some in Hx as ((i & ip' & row) & Hl & _).
    apply list_find_Some in Hl as (Hl & [Hdev Hne] & _).
    apply list_elem_of_lookup_2, elem_of_map_to_list in Hl.
    exists m, dev, ip', row. split_and!; try done. by exists r.
  - intros (m0 & dev & ip' & row & [= <-] & (r & Hr & Hd) & Hne & Hrow & Hdev). rewrite Hr, Hd.
    apply fmap_is_Some. destruct (list_find _ _) as [x|] eqn:Hl; [by eexists|].
    eapply list_find_None in Hl. rewrite Forall_forall in Hl. exfalso.
    apply (Hl (ip', row)); [by apply elem_of_map_to_list|by split].
Qed.

Lemma reconcile_managed_spec row m v :
  let '(status, conflict) := reconcile_managed row m v in
  (status = ReconcileMatch ↔ ad_State row ≠ "deprecated" ∧ ¬ contradicts v m row) ∧
  (status = ReconcileConflict ↔ ad_State row = "deprecated" ∨ contradicts v m row) ∧
  status ≠ ReconcileNew ∧ (conflict ≠ "" ↔ status = ReconcileConflict).
Proof.
  unfold reconcile_managed. destruct (_ && _) eqn:Hc.
  - apply contradicts_test in Hc. split_and!; [by split; [|intros [_ []]]|by split; auto|done|done].
  - apply not_true_iff_false in Hc. rewrite contradicts_test in Hc.
    destruct (decide (ad_State row = "deprecated")).
    + split_and!; [by split; [|intros [? _]]|by split; auto|done|done].
    + split_and!; [by split|by split; [|intros []]|done|by split].
Qed.

(** How an observation is classified. With statements that arrive and inputs
    PostgreSQL reads, the answer is exactly one of: match, when the address is
    managed, not deprecated and its device's MACs do not contradict the observed
    one; conflict, when it is managed and deprecated or contradicted, or not
    managed while the owner of the observed MAC has another address; new
    otherwise. A note is given exactly with a conflict, and nothing is written. *)
Theorem reconcileDiscovery_spec ip mac addr m (w : World Inventory) :
  (∀ n, fault n = false) → inet_in ip = Some addr →
  (mac = "" ∧ m = None ∨ mac ≠ "" ∧ m = macaddr_in mac ∧ is_Some m) →
  let v := w_inv w in
  let managed row := iv_addresses v !! addr = Some row in
  ∃ status conflict w',
    alone (reconcileDiscovery inet_in macaddr_in ip mac) w = (Ok (status, conflict), w') ∧ w_inv w' = v ∧
    (status = ReconcileMatch ↔ ∃ row, managed row ∧ ad_State row ≠ "deprecated" ∧ ¬ contradicts v m row) ∧
    (status = ReconcileConflict ↔
       (∃ row, managed row ∧ (ad_State row = "deprecated" ∨ contradicts v m row)) ∨
       iv_addresses v !! addr = None ∧ moved v m addr) ∧
    (status = ReconcileNew ↔ iv_addresses v !! addr = None ∧ ¬ moved v m addr) ∧
    (conflict ≠ "" ↔ status = ReconcileConflict).
Proof.
  intros Hcalm Hip Hmac v managed.
  assert (mac_arg macaddr_in mac = Ok m) as Harg.
  { unfold mac_arg. destruct Hmac as [[-> ->]|(Hne & -> & [k Hk])]; [done|].
    rewrite decide_False by done. by rewrite Hk. }
  unfold reconcileDiscovery. rewrite alone_try, alone_stmt. unfold run_stmt. rewrite Hcalm.
  unfold inet_arg. rewrite Hip, Harg. cbn [of_option mbind result_bind w_inv bump]. fold v.
  destruct (iv_addresses v !! addr) as [row|] eqn:Hrow; cbn [fmap option_fmap option_map].
  - pose proof (reconcile_managed_spec row m v) as Hspec.
    destruct (reconcile_managed row m v) as [status conflict]. destruct Hspec as (Hm & Hc & Hn & Ht).
    exists status, conflict. eexists. split; [reflexivity|]. split; [reflexivity|]. unfold managed.
    split_and!; [rewrite Hm|rewrite Hc|split; [done|by intros [? _]]|exact Ht].
    + split; [intros ?; exists row; by split|intros (r & [= <-] & ?); done].
    + split; [intros ?; left; exists row; by split|intros [(r & [= <-] & ?)|[? _]]; done].
  - assert (∀ w' : World Inventory, alone (Ret (Ok (ReconcileNew, ""))) w' =
      (Ok (ReconcileNew, "") : result db_error (string * string), w')) as Hret by done.
    destruct Hmac as [[-> ->]|(Hne & _ & [k ->])].
    + rewrite decide_True, Hret by done. do 3 eexists. split; [reflexivity|]. split; [reflexivity|].
      assert (¬ moved v None addr) by (by intros (? & ? & ? & ? & ? & _)). unfold managed.
      split_and!; (split; [try done|]); [intros (? & ? & _)|intros [(? & ? & _)|[_ ?]]|done|done]; done.
    + rewrite decide_False, alone_try, alone_stmt by done. unfold run_stmt. rewrite Hcalm.
      cbn [of_option mbind result_bind option_bind w_inv bump]. fold v.
      pose proof (other_address_Some k addr v) as Ho. unfold managed.
      destruct (other_address k addr v) as [otherIP|].
      * assert (moved v (Some k) addr) as Hmoved by (apply Ho; by eexists).
        do 3 eexists. split; [reflexivity|]. split; [reflexivity|].
        split_and!; (split; [try done|]); [intros (? & ? & _)|intros _; by right| |intros [_ ?]|]; done.
      * assert (¬ moved v (Some k) addr) as Hmoved by (by intros [? ?]%Ho).
        do 3 eexists. split; [reflexivity|]. split; [reflexivity|].
        split_and!; (split; [try done|]); [intros (? & ? & _)|intros [(? & ? & _)|[_ ?]]|done|done]; done.
Qed.
End reconciling.

(** ** Importing *)

Section importing.
Context {env : Env}.
Context (macaddr_in : string → option string) (MarshalServices : list DiscoveryService → string).

(** What an import of row [r] under [ip] does: the address is put in the longest
    containing subnet and owned by device [dev], everything else is kept. *)
Record imports (ip : string) (r : DiscoveryRow) (now : Z) (v v' : Inventory)
    (sid dev : string) (row : AddressRow) : Prop :=
  { im_subnet : ∃ s, iv_subnets v !! sid = Some s ∧ cidr_contains (sn_cidr s) ip = true ∧
      ∀ sid' s', iv_subnets v !! sid' = Some s' → cidr_contains (sn_cidr s') ip = true →
        masklen (sn_cidr s') ≤ masklen (sn_cidr s);
    im_address : iv_addresses v' = <[ip := row]> (iv_addresses v);
    im_row : ad_Subnet row = Some sid ∧ ad_Device row = Some dev ∧ ad_LastSeen row = Some now;
    im_kept : match iv_addresses v !! ip with
              | Some old => ad_ID row = ad_ID old ∧ ad_State row = ad_State old ∧
                  ad_Notes row = ad_Notes old ∧ ad_Hostname row = keep_text (dr_Hostname r) (ad_Hostname old)
              | None => ad_State row = "assigned"
              end;
    im_device : is_Some (iv_devices v' !! dev) ∧ ∀ k, k ≠ dev → iv_devices v' !! k = iv_devices v !! k;
    im_groups : devices_kept v v';
    im_macs : macs_kept v (iv_macs v');
    im_subnets : ∀ k s, iv_subnets v !! k = Some s → ∃ s', iv_subnets v' !! k = Some s' ∧
      sn_cidr s' = sn_cidr s ∧ (is_Some (sn_vlan s) → sn_vlan s' = sn_vlan s);
    im_discovery : iv_discoveries v' = <[ip := set_imported (ad_ID row) dev r]> (iv_discoveries v) }.

Lemma devices_kept_eq v1 v2 v1' v2' :
  iv_devices v1 = iv_devices v2 → iv_devices v1' = iv_devices v2' → devices_kept v1 v1' → devices_kept v2 v2'.
Proof. intros E E' [Hk Hn]. split; rewrite <- E, <- E'; assumption. Qed.

(** Marking touches the one row with the identifier. *)
Lemma mark_imported_insert id aid dev ip r v :
  inv_wf v → iv_discoveries v !! ip = Some r → dr_ID r = id →
  iv_discoveries (mark_imported id aid dev v) = <[ip := set_imported aid dev r]> (iv_discoveries v).
Proof.
  intros Hw Hr Hid. apply map_eq. intros ip'. cbn. rewrite lookup_fmap.
  destruct (decide (ip = ip')) as [<-|Hne].
  - rewrite Hr, lookup_insert_eq. cbn. by rewrite decide_True.
  - rewrite lookup_insert_ne by done. destruct (iv_discoveries v !! ip') as [r'|] eqn:Hr'; [|done].
    cbn. rewrite decide_False; [done|]. intros He. apply Hne.
    eapply (wf_discovery_id _ Hw); [exact Hr|exact Hr'|congruence].
Qed.

Lemma import_tx_imports t1 t2 t3 ip r w name now v v' :
  inv_wf v → t1 ≠ Some "" → iv_discoveries v !! ip = Some r →
  import_tx macaddr_in MarshalServices t1 t2 t3 (discovery_of_row ip r w) name now v = Ok v' →
  ∃ sid dev row, imports ip r now v v' sid dev row.
Proof.
  intros Hw Ht Hr H. destruct (import_tx_Ok _ _ _ _ _ _ _ _ _ _ H)
    as (sid & s & v1 & dev & v2 & aid & v3 & Hc & Hb & Hi & Hp & ->). cbn in Hc, Hb, Hp |- *.
  pose proof (wf_backfill _ _ _ _ Hb Hw) as Hw1.
  destruct (wf_importDevice _ _ _ _ _ _ _ _ _ _ Hi Hw1) as [Hw2 Hdev].
  destruct (backfill_Ok _ _ _ _ Hb) as (subnets & -> & Hs & _).
  destruct (importDevice_Ok _ _ _ _ _ _ _ _ _ _ Hi)
    as (devices & macs & -> & Hk & _ & _ & Hm & Ho & [Hne|?]); [|done].
  destruct (put_address_Ok _ _ _ _ _ _ _ _ Hp) as (row & -> & Hid & Hsub & Hseen & Hold).
  cbn in *. exists sid, dev, row. split; cbn; try done.
  - exists s. by apply containing_subnet_Some.
  - unfold nonempty in Hold. rewrite decide_False in Hold by done.
    destruct (iv_addresses v !! ip); split_and!; tauto.
  - destruct (iv_addresses v !! ip); [|by destruct Hold as (_ & ? & _)].
    destruct Hold as (-> & ? & ? & ? & _). by split_and!.
  - intros k s0 Hs0. destruct (Hs k s0 Hs0) as (s' & Hs' & Hcidr & Hv). exists s'. split_and!; try done.
    intros [n Hn]. destruct Hv as [?|(? & _)]; [done|congruence].
  - rewrite Hid. exact (mark_imported_insert (dr_ID r) aid dev ip r v Hw Hr eq_refl).
Qed.

(** Errors of the parts that never stand for a missing row or subnet. *)
Definition plain_error (e : db_error) : Prop := e ≠ ErrNotFound ∧ e ≠ ErrLost ∧ e ≠ ErrNoContainingSubnet.

Lemma attach_Err t dev mac vendor v e :
  attachDiscoveryMAC macaddr_in t dev mac vendor v = Err e → plain_error e.
Proof.
  unfold attachDiscoveryMAC. destruct (match Analyze mac with Ok _ => _ | Err _ => _ end) as [[m0 p] u].
  destruct t as [i|]; cbn; [|by intros [= <-]]. destruct (macaddr_in m0) as [k|]; cbn; [|by intros [= <-]].
  destruct (iv_macs v !! k); [done|]. destruct (has_mac_id i v); [|done]. by intros [= <-].
Qed.

Lemma resolve_Err d v e : resolveImportDevice macaddr_in d v = Err e → plain_error e.
Proof.
  unfold resolveImportDevice. destruct (_ && _); [done|]. destruct (decide (d_MAC d = "")); [done|].
  destruct (macaddr_in (d_MAC d)) as [m|]; cbn; [|by intros [= <-]].
  destruct (iv_macs v !! m) as [r|]; [|done]. destruct (mc_Device r); cbn; [done|]. by intros [= <-].
Qed.

Lemma importDevice_Err t1 t2 d name now v e :
  importDiscoveryDevice macaddr_in MarshalServices t1 t2 d name now v = Err e → plain_error e.
Proof.
  unfold importDiscoveryDevice. set (manual := trim_space name). intros H.
  destruct (resolveImportDevice macaddr_in d v) as [found|e1] eqn:Hf; cbn in H;
    [|simplify_eq; by eapply resolve_Err].
  destruct (jsonb_in _); cbn in H; [|by simplify_eq].
  destruct (if decide (found = "") then _ else _) as [[dev v1]|e1] eqn:Hd; cbn in H.
  - destruct (decide (d_MAC d = "")); [done|].
    destruct (attachDiscoveryMAC _ _ _ _ _ _) as [v2|e2] eqn:Ha; cbn in H; [done|].
    simplify_eq. by eapply attach_Err.
  - simplify_eq. destruct (decide (found = "")); [|done].
    destruct t1 as [i|]; cbn in Hd; [|by simplify_eq]. by destruct (decide (iv_devices v !! i ≠ None)); simplify_eq.
Qed.

Lemma import_tx_Err t1 t2 t3 d name now v e :
  import_tx macaddr_in MarshalServices t1 t2 t3 d name now v = Err e →
  plain_error e ∨ e = ErrNoContainingSubnet ∧ containing_subnet (d_IP d) v = None.
Proof.
  unfold import_tx. intros H. destruct (containing_subnet (d_IP d) v) as [[sid s]|]; cbn in H;
    [left|simplify_eq; by right].
  destruct (backfillSubnetVLAN _ _ _) as [v1|e1] eqn:Hb; cbn in H.
  2:{ unfold backfillSubnetVLAN in Hb. destruct (_ <=? _); [done|]. destruct (_ && _); by simplify_eq. }
  destruct (importDiscoveryDevice _ _ _ _ _ _ _ _) as [[dev v2]|e1] eqn:Hi; cbn in H;
    [|simplify_eq; by eapply importDevice_Err].
  destruct t3 as [t3|]; cbn in H; [|by simplify_eq].
  destruct (put_address _ _ _ _ _ _) as [[aid v3]|e1] eqn:Hp; cbn in H; [done|]. simplify_eq.
  unfold put_address in Hp. destruct (iv_addresses v2 !! d_IP d); [done|].
  destruct (has_address_id t3 v2); by simplify_eq.
Qed.

Lemma GetDiscovery_alone id (w : World Inventory) :
  alone (GetDiscovery id) w =
  if fault (w_step w) then (Err ErrLost, bump w)
  else match find_discovery id (w_inv w) with
       | Some (ip, r) => (Ok (discovery_of_row ip r (bump w)), bump w)
       | None => (Err ErrNotFound, bump w)
       end.
Proof.
  unfold GetDiscovery. rewrite alone_stmt. unfold run_stmt. destruct (fault (w_step w)); [done|].
  cbn. by destruct (find_discovery id (w_inv w)) as [[ip r]|].
Qed.

Lemma find_discovery_complete v ip r :
  inv_wf v → iv_discoveries v !! ip = Some r → find_discovery (dr_ID r) v = Some (ip, r).
Proof.
  intros Hw Hr. destruct (find_discovery (dr_ID r) v) as [[ip' r']|] eqn:Hf.
  - destruct (find_discovery_lookup _ _ _ _ Hf) as [Hr' Hid].
    assert (ip' = ip) as -> by (by eapply (wf_discovery_id _ Hw)). congruence.
  - unfold find_discovery in Hf. apply fmap_None in Hf. eapply list_find_None in Hf.
    rewrite Forall_forall in Hf. exfalso. apply (Hf (ip, r)); [|done]. by apply elem_of_map_to_list.
Qed.

End importing.

(** ** A concrete import *)

#[local] Instance demo_env : Env :=
  {| clock := λ n, Z.of_nat n * 1000000000; fault := λ _, false;
     token := λ n, Some (String.concat "" (repeat "t" (S n))); jsonb_in := λ s, Some s |}.

Definition demo_row : DiscoveryRow :=
  MkDiscoveryRow "d1" None None (Some "00:11:22:33:44:55") "" "nas" "" "" "" "" 12 [] "pending"
    ReconcileNew "" None None 0 0.
Definition demo_inventory : Inventory :=
  MkInventory ∅ (<["wide" := MkSubnet None "10.0.0.0/8" "wide" None ""]> {["near" := MkSubnet None "10.1.0.0/16" "near" (Some 7) ""]})
    ∅ ∅ ∅ {["10.1.2.3" := demo_row]} ∅ ∅ ∅ ∅ ∅.
Definition demo_world : World Inventory := MkWorld ∅ ∅ ∅ ∅ ∅ [] demo_inventory [] 0.

Lemma demo_wf : inv_wf demo_inventory.
Proof.
  split; cbn; try done.
  - intros sid s n. rewrite lookup_insert_Some, lookup_singleton_Some.
    intros [[_ <-]|(_ & _ & <-)] [= <-]. lia.
  - intros ip r [<- <-]%lookup_singleton_Some. done.
  - intros ip1 ip2 r1 r2 [<- _]%lookup_singleton_Some [<- _]%lookup_singleton_Some. done.
Qed.

Lemma demo_token n : token n ≠ Some "".
Proof. cbn. by destruct n. Qed.


Lemma reconcileDiscovery_spec_witness :
  ∃ status conflict w',
    alone (reconcileDiscovery Some Some "10.1.2.3" "") demo_world = (Ok (status, conflict), w') ∧
    status = ReconcileNew.
Proof.
  destruct (reconcileDiscovery_spec Some Some "10.1.2.3" "" "10.1.2.3" None demo_world)
    as (status & conflict & w' & He & _ & _ & _ & [_ Hnew] & _).
  - done.
  - reflexivity.
  - by left.
  - exists status, conflict, w'. split; [exact He|]. apply Hnew. split; [reflexivity|].
    by intros (? & ? & ? & ? & ? & _).
Defined.
