(* ===== verification/Hardware.v ===== *)
(** * Hardware groups

    The groups of devices that are one physical unit: linking is the join of the
    groups it touches, unlinking removes one member and dissolves a group of one,
    and no operation of [Inventory] and [Import] leaves a device alone in a group.
    Serial auto-linking links exactly the devices its rule admits. *)

From S2P Require Import Prelude GoStrings Netip Macaddr GoTime Process Scans Queue Inventory Import InventorySpec.
Local Open Scope Z_scope.

(** Two devices in one group. *)
Definition linked (v : Inventory) (i j : string) : Prop :=
  ∃ g, group_of v i = Some g ∧ group_of v j = Some g.

(** A device among [ids] or in the group of one. *)
Definition touched (v : Inventory) (ids : list string) (i : string) : Prop :=
  is_Some (iv_devices v !! i) ∧ (i ∈ ids ∨ ∃ j, j ∈ ids ∧ linked v i j).

(** No device is alone in its group. *)
Definition no_singletons (v : Inventory) : Prop :=
  ∀ i g, group_of v i = Some g → ∃ j, j ≠ i ∧ group_of v j = Some g.

Lemma group_name_Some x g : group_name x = Some g ↔ dv_Group x = Some g ∧ g ≠ "".
Proof.
  unfold group_name, nonempty. destruct (dv_Group x) as [h|]; cbn; [|by split; [|intros [? _]]].
  destruct (decide (h = "")); split; [done|intros [[= ->] ?]; done|by intros [= ->]|by intros [[= ->] _]].
Qed.

Lemma group_of_Some v i g :
  group_of v i = Some g ↔ ∃ x, iv_devices v !! i = Some x ∧ dv_Group x = Some g ∧ g ≠ "".
Proof.
  unfold group_of. destruct (iv_devices v !! i) as [x|]; cbn.
  - rewrite group_name_Some. split; [intros ?; by exists x|by intros (y & [= <-] & ?)].
  - by split; [|intros (x & ? & _)].
Qed.

Lemma elem_of_groups_of ids v g : g ∈ groups_of ids v ↔ ∃ j, j ∈ ids ∧ group_of v j = Some g.
Proof.
  unfold groups_of. rewrite merge_sort_Permutation, elem_of_remove_dups, list_elem_of_omap. done.
Qed.

Lemma in_groups_iff groups x :
  (∀ g, g ∈ groups → g ≠ "") → in_groups groups x = true ↔ ∃ g, g ∈ groups ∧ group_name x = Some g.
Proof.
  intros Hne. unfold in_groups. split.
  - destruct (dv_Group x) as [g|] eqn:Hg; [|done]. intros Hin%bool_decide_eq_true.
    exists g. split; [done|]. apply group_name_Some. auto.
  - intros (g & Hin & [Hg _]%group_name_Some). rewrite Hg. by apply bool_decide_eq_true.
Qed.

(** ** Linking *)

(** Who gets the surviving group, and everybody else keeps theirs. *)
Lemma link_tx_groups t ids v v' :
  link_tx t ids v = Ok v' → ∃ target,
    (∀ i, i ∈ ids → is_Some (iv_devices v !! i)) ∧
    (match groups_of ids v with g :: _ => target = g | [] => t = Some target end) ∧
    (∀ i, touched v ids i → group_of v' i = nonempty target) ∧
    (∀ i, ¬ touched v ids i → group_of v' i = group_of v i).
Proof.
  unfold link_tx. destruct (negb _) eqn:Hall; [done|]. apply negb_false_iff in Hall.
  rewrite forallb_forall in Hall. intros H.
  destruct (match groups_of ids v with [] => _ | _ => _ end) as [target|] eqn:Ht; [cbn in H|done].
  simplify_eq. exists target.
  assert (∀ i, i ∈ ids → is_Some (iv_devices v !! i)) as Hex.
  { intros i Hi%list_elem_of_In. by apply Hall, bool_decide_eq_true in Hi. }
  assert (∀ g, g ∈ groups_of ids v → g ≠ "") as Hne.
  { intros g (j & _ & (x & _ & _ & ?)%group_of_Some)%elem_of_groups_of. done. }
  assert (∀ i x, iv_devices v !! i = Some x →
    bool_decide (i ∈ ids) || in_groups (groups_of ids v) x = true ↔ touched v ids i) as Htest.
  { intros i x Hx. unfold touched, linked.
    rewrite orb_true_iff, bool_decide_eq_true, (in_groups_iff _ _ Hne). split.
    - intros [Hi|(g & (j & Hj & Hg)%elem_of_groups_of & Hn)]; (split; [by eexists|]); [by left|].
      right. exists j. split; [done|]. exists g. split; [|done]. unfold group_of. by rewrite Hx.
    - intros [_ [Hi|(j & Hj & g & Hg & Hgj)]]; [by left|]. right. exists g.
      split; [apply elem_of_groups_of; by exists j|]. unfold group_of in Hg. by rewrite Hx in Hg. }
  split_and!; [done| | |].
  - destruct (groups_of ids v); [|congruence]. destruct t as [t0|]; cbn in Ht; congruence.
  - intros i Hi. destruct Hi as [[x Hx] Hi']. unfold group_of at 1. cbn.
    rewrite map_lookup_imap, Hx. cbn. destruct (_ || _) eqn:Hb; [done|].
    apply not_true_iff_false in Hb. rewrite (Htest i x Hx) in Hb. destruct Hb. by split; [eexists|].
  - intros i Hi. unfold group_of. cbn. rewrite map_lookup_imap.
    destruct (iv_devices v !! i) as [x|] eqn:Hx; [cbn|done].
    destruct (_ || _) eqn:Hb; [by apply (Htest i x Hx) in Hb|done].
Qed.

Lemma touched_group v ids i g : group_of v i = Some g → g ∈ groups_of ids v → touched v ids i.
Proof.
  intros Hi (j & Hj & Hg)%elem_of_groups_of. split.
  - apply group_of_Some in Hi as (x & Hx & _). by eexists.
  - right. exists j. split; [done|]. by exists g.
Qed.

Lemma touched_group_of v ids i g : touched v ids i → group_of v i = Some g → g ∈ groups_of ids v.
Proof.
  intros [_ [Hi|(j & Hj & g' & Hg & Hgj)]] Hgi; apply elem_of_groups_of; [by exists i|].
  exists j. split; [done|congruence].
Qed.

Lemma target_nonempty t ids v target :
  t ≠ Some "" → (match groups_of ids v with g :: _ => target = g | [] => t = Some target end) → target ≠ "".
Proof.
  intros Ht Hm. destruct (groups_of ids v) as [|g l] eqn:Hg; [congruence|]. subst target.
  assert (g ∈ groups_of ids v) as Hin by (rewrite Hg; by left).
  by apply elem_of_groups_of in Hin as (j & _ & (x & _ & _ & ?)%group_of_Some).
Qed.

Lemma linked_same_group v i j g : group_of v i = Some g → linked v i j → group_of v j = Some g.
Proof. intros Hi (h & Hh & Hj). congruence. Qed.

(** Linking devices joins their groups. Afterwards two devices share a group
    exactly when they did before or both are among the given devices or in the
    group of one of them: groups are merged whole, none is split, and no other
    device is drawn in. It fails, changing nothing, exactly when a device is
    unknown or a group name is needed and none can be generated. *)
Theorem link_tx_join t ids v :
  t ≠ Some "" → (∀ g i, t = Some g → group_of v i ≠ Some g) →
  match link_tx t ids v with
  | Ok v' => ∀ i j, linked v' i j ↔ linked v i j ∨ touched v ids i ∧ touched v ids j
  | Err ErrNotFound => ∃ i, i ∈ ids ∧ iv_devices v !! i = None
  | Err ErrToken => t = None ∧ ∀ i, i ∈ ids → group_of v i = None
  | Err _ => False
  end.
Proof.
  intros Ht Hfresh. destruct (link_tx t ids v) as [v'|e] eqn:Hl.
  - destruct (link_tx_groups _ _ _ _ Hl) as (target & _ & Htarget & Hin & Hout).
    pose proof (target_nonempty _ _ _ _ Ht Htarget) as Hne.
    assert (∀ i, touched v ids i → group_of v' i = Some target) as Hin'.
    { intros i Hi. rewrite (Hin i Hi). unfold nonempty. by rewrite decide_False. }
    assert (∀ i, group_of v i = Some target → touched v ids i) as Hold.
    { intros i Hi. apply (touched_group _ _ _ target); [done|].
      destruct (groups_of ids v) as [|g l] eqn:Hg; [by destruct (Hfresh _ i Htarget)|].
      subst target. by left. }
    assert (∀ i, touched v ids i ∨ ¬ touched v ids i) as Hdec.
    { intros i. destruct (decide (is_Some (iv_devices v !! i))) as [Hs|Hs]; [|right; by intros []].
      destruct (decide (i ∈ ids)); [left; by split; [|left]|].
      destruct (group_of v i) as [g|] eqn:Hg.
      - destruct (decide (g ∈ groups_of ids v)); [left; by eapply touched_group|].
        right. intros Hti. by apply (touched_group_of _ _ _ _ Hti) in Hg.
      - right. intros [_ [?|(j & _ & h & ? & _)]]; congruence. }
    intros i j. split.
    + intros (g & Hi & Hj).
      destruct (Hdec i) as [Hti|Hti], (Hdec j) as [Htj|Htj]; [by right|..].
      * rewrite (Hin' i Hti) in Hi. rewrite (Hout j Htj) in Hj. simplify_eq. destruct Htj. by apply Hold.
      * rewrite (Hin' j Htj) in Hj. rewrite (Hout i Hti) in Hi. simplify_eq. destruct Hti. by apply Hold.
      * left. exists g. by rewrite <- (Hout i Hti), <- (Hout j Htj).
    + intros [(g & Hi & Hj)|[Hti Htj]]; [|exists target; auto].
      destruct (decide (g ∈ groups_of ids v)) as [Hg|Hg].
      * exists target. split; apply Hin'; by eapply touched_group.
      * exists g. split; (rewrite Hout; [done|]); intros Htouch; apply Hg;
          by eapply touched_group_of.
  - unfold link_tx in Hl. destruct (negb _) eqn:Hall.
    + simplify_eq. apply negb_true_iff, not_true_iff_false in Hall.
      destruct (decide (Exists (λ i, iv_devices v !! i = None) ids)) as [He|He]; [by apply Exists_exists in He|].
      destruct Hall. apply forallb_forall. intros i Hi%list_elem_of_In. apply bool_decide_eq_true.
      destruct (iv_devices v !! i) eqn:Hi'; [by eexists|]. destruct He. apply Exists_exists. by exists i.
    + destruct (groups_of ids v) as [|g l] eqn:Hg; [|done]. destruct t as [t|]; [done|].
      cbn in Hl. simplify_eq. split; [done|]. intros i Hi. destruct (group_of v i) as [g|] eqn:Hgi; [|done].
      assert (g ∈ groups_of ids v) as Hin by (apply elem_of_groups_of; by exists i).
      rewrite Hg in Hin. by apply not_elem_of_nil in Hin.
Qed.

(** ** Unlinking *)

Lemma group_of_insert v id x i :
  group_of (with_devices (<[id := x]> (iv_devices v)) v) i =
  if decide (i = id) then group_name x else group_of v i.
Proof.
  unfold group_of. cbn. destruct (decide (i = id)) as [->|].
  - by rewrite lookup_insert_eq.
  - by rewrite lookup_insert_ne.
Qed.

Lemma length_two {A} (l : list A) x y : x ∈ l → y ∈ l → x ≠ y → (2 ≤ length l)%nat.
Proof.
  intros Hx Hy Hne. destruct l as [|z [|u l]]; [by apply not_elem_of_nil in Hx| |cbn; lia].
  apply list_elem_of_singleton in Hx, Hy. congruence.
Qed.

(** The members of a group after the row update. *)
Lemma members_iff (devices : gmap string Device) g :
  (length (filter (λ p, dv_Group p.2 = Some g) (map_to_list devices)) < 2)%nat ↔
  ∀ i j x y, devices !! i = Some x → devices !! j = Some y →
    dv_Group x = Some g → dv_Group y = Some g → i = j.
Proof.
  assert (∀ i x, (i, x) ∈ filter (λ p, dv_Group p.2 = Some g) (map_to_list devices) ↔
    devices !! i = Some x ∧ dv_Group x = Some g) as Hel.
  { intros i x. rewrite list_elem_of_filter. cbn. rewrite elem_of_map_to_list. tauto. }
  split.
  - intros Hlen i j x y Hx Hy Hgx Hgy. destruct (decide (i = j)) as [|Hne]; [done|].
    enough (2 ≤ length (filter (λ p : string * Device, dv_Group p.2 = Some g) (map_to_list devices)))%nat by lia.
    apply (length_two _ (i, x) (j, y)); [by apply Hel|by apply Hel|congruence].
  - intros Huniq. pose proof (NoDup_fst_map_to_list devices) as Hnd.
    apply (NoDup_fmap_1 fst) in Hnd.
    assert (NoDup (filter (λ p : string * Device, dv_Group p.2 = Some g) (map_to_list devices))) as Hnd'
      by by apply NoDup_filter.
    destruct (filter _ _) as [|[i x] [|[j y] l]]; cbn; [lia..|]. exfalso.
    destruct (proj1 (Hel i x)) as [Hx Hgx]; [by left|]. destruct (proj1 (Hel j y)) as [Hy Hgy]; [by right; left|].
    assert (i = j) as -> by by eapply Huniq.
    apply NoDup_cons in Hnd' as [Hnin _]. apply Hnin. assert (y = x) as -> by congruence. by left.
Qed.

Lemma group_of_dissolve v (devices : gmap string Device) g i :
  g ≠ "" →
  group_of (with_devices ((λ x, if decide (dv_Group x = Some g) then set_group None x else x) <$> devices) v) i =
  match group_of (with_devices devices v) i with
  | Some h => if decide (h = g) then None else Some h
  | None => None
  end.
Proof.
  intros Hg. unfold group_of. cbn. rewrite lookup_fmap. destruct (devices !! i) as [x|]; cbn; [|done].
  destruct (decide (dv_Group x = Some g)) as [Hx|Hx].
  - assert (group_name x = Some g) as -> by (by apply group_name_Some). by rewrite decide_True.
  - destruct (group_name x) as [h|] eqn:Hh; [|done]. rewrite decide_False; [done|].
    intros ->. by apply group_name_Some in Hh as [? _].
Qed.

(** At most one member is left. *)
Lemma alone_iff v (devices : gmap string Device) g :
  g ≠ "" →
  (length (filter (λ p, dv_Group p.2 = Some g) (map_to_list devices)) < 2)%nat ↔
  ∀ i j, group_of (with_devices devices v) i = Some g → group_of (with_devices devices v) j = Some g → i = j.
Proof.
  intros Hg. rewrite members_iff. split.
  - intros Hu i j (x & Hx & Hgx & _)%group_of_Some (y & Hy & Hgy & _)%group_of_Some. by eapply Hu.
  - intros Hu i j x y Hx Hy Hgx Hgy. apply Hu; apply group_of_Some; [by exists x|by exists y].
Qed.

(** A second member, when there are two. *)
Lemma members_other v (devices : gmap string Device) g i :
  g ≠ "" →
  (2 ≤ length (filter (λ p, dv_Group p.2 = Some g) (map_to_list devices)))%nat →
  ∃ j, j ≠ i ∧ group_of (with_devices devices v) j = Some g.
Proof.
  intros Hg Hlen.
  assert (∀ j x, (j, x) ∈ filter (λ p, dv_Group p.2 = Some g) (map_to_list devices) →
    group_of (with_devices devices v) j = Some g) as Hel.
  { intros j x [Hgx Hx]%list_elem_of_filter. apply group_of_Some. exists x.
    split; [by apply elem_of_map_to_list|]. by split. }
  pose proof (NoDup_fst_map_to_list devices) as Hnd.
  assert (∀ j x y, (j, x) ∈ filter (λ p, dv_Group p.2 = Some g) (map_to_list devices) →
    (j, y) ∈ filter (λ p, dv_Group p.2 = Some g) (map_to_list devices) → x = y) as Hfun.
  { intros j x y [_ Hx%elem_of_map_to_list]%list_elem_of_filter [_ Hy%elem_of_map_to_list]%list_elem_of_filter.
    cbn in Hx, Hy. congruence. }
  assert (NoDup (filter (λ p : string * Device, dv_Group p.2 = Some g) (map_to_list devices))) as Hnd'
    by (apply NoDup_filter; by apply (NoDup_fmap_1 fst)).
  destruct (filter _ _) as [|[j x] [|[k y] l]]; cbn in Hlen; [lia..|].
  destruct (decide (j = i)) as [->|]; [|exists j; split; [done|]; eapply Hel; by left].
  exists k. split; [|eapply Hel; right; by left]. intros ->.
  assert (x = y) as -> by (eapply Hfun; [by left|right; by left]).
  apply NoDup_cons in Hnd' as [Hnin _]. apply Hnin. by left.
Qed.

(** The groups an unlinking leaves: either the rest of the group was one device
    and is dissolved, or two members at least remain. *)
Lemma unlink_tx_groups id v v' :
  unlink_tx id v = Ok v' →
  (group_of v id = None ∧ v' = v) ∨
  ∃ g, group_of v id = Some g ∧
    ((∀ i h, group_of v' i = Some h ↔ i ≠ id ∧ h ≠ g ∧ group_of v i = Some h) ∧
     (∀ i j, i ≠ id → j ≠ id → group_of v i = Some g → group_of v j = Some g → i = j) ∨
     (∀ i h, group_of v' i = Some h ↔ i ≠ id ∧ group_of v i = Some h) ∧
     (∀ i, ∃ j, j ≠ i ∧ j ≠ id ∧ group_of v j = Some g)).
Proof.
  unfold unlink_tx. destruct (iv_devices v !! id) as [x|] eqn:Hx; [|done].
  destruct (group_name x) as [g|] eqn:Hg; intros Hu; cycle 1.
  { simplify_eq. left. split; [|done]. unfold group_of. by rewrite Hx. }
  right. exists g. assert (g ≠ "") as Hne by (by apply group_name_Some in Hg as [_ ?]).
  split; [unfold group_of; by rewrite Hx|].
  set (v1 := with_devices (<[id := set_group None x]> (iv_devices v)) v) in *.
  assert (∀ i, group_of v1 i = if decide (i = id) then None else group_of v i) as H1
    by (intros i; apply group_of_insert).
  assert (∀ i h, group_of v1 i = Some h ↔ i ≠ id ∧ group_of v i = Some h) as H1'.
  { intros i h. rewrite H1. destruct (decide (i = id)); [by split; [|intros []]|tauto]. }
  destruct (length _ <? 2)%nat eqn:Hlen; injection Hu as <-; [left|right].
  - apply Nat.ltb_lt in Hlen. rewrite (alone_iff v _ _ Hne) in Hlen. fold v1 in Hlen. split.
    + intros i h. rewrite (group_of_dissolve _ _ _ _ Hne). fold v1. specialize (H1' i).
      destruct (group_of v1 i) as [k|].
      * destruct (H1' k) as [[Hi Hk] _]; [done|].
        destruct (decide (k = g)); split; [done|intros (_ & ? & ?); congruence|intros [= ->]; done|].
        intros (_ & _ & ?). congruence.
      * split; [done|]. intros (? & _ & ?). by destruct (H1' h) as [_ Hn]; rewrite Hn.
    + intros i j Hi Hj Hgi Hgj. apply Hlen; by apply H1'.
  - apply Nat.ltb_ge in Hlen. split; [done|]. intros i.
    destruct (members_other v _ _ i Hne Hlen) as (j & Hj & Hgj). fold v1 in Hgj. exists j.
    apply H1' in Hgj as [??]. done.
Qed.

Lemma no_singletons_unlink id v v' : unlink_tx id v = Ok v' → no_singletons v → no_singletons v'.
Proof.
  intros Hu Hs. destruct (unlink_tx_groups _ _ _ Hu) as [[_ ->]|(g & Hg & [[H2 Hone]|[H2 Htwo]])]; [done|..].
  - intros i h (Hi & Hh & (j & Hji & Hj)%Hs)%H2. exists j. split; [done|]. apply H2.
    split_and!; [|done|done]. intros ->. congruence.
  - intros i h (Hi & Hih)%H2. destruct (Hs i h Hih) as (j & Hji & Hj).
    destruct (decide (j = id)) as [->|Hjd]; [|exists j; by rewrite H2].
    assert (h = g) as -> by congruence. destruct (Htwo i) as (k & Hk & Hkid & Hgk).
    exists k. by rewrite H2.
Qed.

(** Unlinking a device takes it, and nobody else, out of its group: two other
    devices share a group exactly when they did before, and a group left with
    one member is dissolved. It fails only for an unknown device. *)
Theorem unlink_tx_leaves id v :
  match unlink_tx id v with
  | Ok v' => group_of v' id = None ∧
      (∀ i j, i ≠ j → linked v' i j ↔ linked v i j ∧ i ≠ id ∧ j ≠ id) ∧
      (∀ i g, group_of v' i = Some g → group_of v i = Some g) ∧
      (∀ i g, group_of v i = Some g → linked v i id → (∀ j, linked v i j → j = i ∨ j = id) →
         group_of v' i = None)
  | Err e => e = ErrNotFound ∧ iv_devices v !! id = None
  end.
Proof.
  destruct (unlink_tx id v) as [v'|e] eqn:Hu; cycle 1.
  { unfold unlink_tx in Hu. destruct (iv_devices v !! id) as [x|]; [|by simplify_eq].
    destruct (group_name x); [|done]. by destruct (length _ <? 2)%nat. }
  destruct (unlink_tx_groups _ _ _ Hu) as [[Hn ->]|(g & Hg & Hcases)].
  { split_and!; [done| |done|].
    - intros i j _. split; [|tauto]. intros (h & ? & ?). split; [by exists h|]. split; intros ->; congruence.
    - intros i g _ (h & _ & ?) _. congruence. }
  unfold linked. destruct Hcases as [[H2 Hone]|[H2 Htwo]]; setoid_rewrite H2.
  - split_and!.
    + destruct (group_of v' id) as [h|] eqn:Hh; [|done]. by apply H2 in Hh as [? _].
    + intros i j Hij. split; [intros (h & (? & _ & ?) & (? & _ & ?)); split; [by exists h|done]|].
      intros ((h & Hi & Hj) & Hii & Hjj). exists h. assert (h ≠ g); [|done].
      intros ->. apply Hij. by apply Hone.
    + tauto.
    + intros i h Hi (k & Hk & Hkid) _. destruct (group_of v' i) as [h'|] eqn:Hh; [|done].
      apply H2 in Hh as (_ & ? & ?). congruence.
  - split_and!.
    + destruct (group_of v' id) as [h|] eqn:Hh; [|done]. by apply H2 in Hh as [? _].
    + intros i j Hij. split; [intros (h & (? & ?) & (? & ?)); split; [by exists h|done]|].
      intros ((h & Hi & Hj) & Hii & Hjj). by exists h.
    + tauto.
    + intros i h Hi (k & Hk & Hkid) Hall. exfalso. destruct (Htwo i) as (j & Hji & Hjid & Hgj).
      destruct (Hall j); [|done|done]. exists g. split; [congruence|done].
Qed.

(** ** No operation leaves a device alone in a group *)

Lemma group_of_kept v v' : devices_kept v v' → ∀ i, group_of v' i = group_of v i.
Proof.
  intros [Hk Hn] i. unfold group_of.
  destruct (iv_devices v !! i) as [x|] eqn:Hx.
  - destruct (Hk i x Hx) as (x' & -> & He). cbn. unfold group_name. by rewrite He.
  - destruct (iv_devices v' !! i) as [x'|] eqn:Hx'; [|done]. cbn. unfold group_name. by rewrite (Hn i x').
Qed.

Lemma no_singletons_same v v' : (∀ i, group_of v' i = group_of v i) → no_singletons v → no_singletons v'.
Proof. intros Hg Hs i g. rewrite Hg. intros (j & ? & ?)%Hs. exists j. by rewrite Hg. Qed.

Lemma no_singletons_link t ids v v' :
  NoDup ids → (2 ≤ length ids)%nat → link_tx t ids v = Ok v' → no_singletons v → no_singletons v'.
Proof.
  intros Hnd Hlen Hl Hs. destruct (link_tx_groups _ _ _ _ Hl) as (target & Hex & _ & Hin & Hout).
  assert (∀ i, i ∈ ids → touched v ids i) as Hids by (intros i Hi; split; [by apply Hex|by left]).
  assert (∀ i, touched v ids i ∨ ¬ touched v ids i) as Hdec.
  { intros i. destruct (decide (is_Some (iv_devices v !! i))); [|right; by intros []].
    destruct (decide (i ∈ ids)); [left; auto|].
    destruct (group_of v i) as [g|] eqn:Hg.
    - destruct (decide (g ∈ groups_of ids v)); [left; by eapply touched_group|].
      right. intros Hti. by apply (touched_group_of _ _ _ _ Hti) in Hg.
    - right. intros [_ [?|(j & _ & h & ? & _)]]; congruence. }
  intros i g Hi. destruct (Hdec i) as [Ht|Ht].
  - rewrite (Hin i Ht) in Hi. destruct ids as [|a0 [|b0 l]]; cbn in Hlen; [lia..|].
    destruct (decide (a0 = i)) as [<-|]; [exists b0|exists a0].
    + split; [|rewrite Hin; [done|apply Hids; right; by left]].
      intros ->. apply NoDup_cons in Hnd as [Hn _]. apply Hn. by left.
    + split; [done|]. rewrite Hin; [done|apply Hids; by left].
  - rewrite (Hout i Ht) in Hi. destruct (Hs i g Hi) as (j & Hj & Hgj). exists j. split; [done|].
    rewrite Hout; [done|]. intros Htj. apply Ht. eapply touched_group; [exact Hi|].
    by eapply touched_group_of.
Qed.

Section groups.
Context {env : Env}.
Context (inet_in macaddr_in : string → option string)
        (MarshalServices : list DiscoveryService → string).

Lemma import_kept t1 t2 t3 d name now v v' :
  import_tx macaddr_in MarshalServices t1 t2 t3 d name now v = Ok v' → ∀ i, group_of v' i = group_of v i.
Proof.
  intros H i. destruct (import_tx_Ok _ _ _ _ _ _ _ _ _ _ H)
    as (sid & s & v1 & dev & v2 & aid & v3 & _ & Hb & Hi & Hp & ->).
  destruct (backfill_Ok _ _ _ _ Hb) as (subnets & -> & _).
  destruct (importDevice_Ok _ _ _ _ _ _ _ _ _ _ Hi) as (devices & macs & -> & Hk & _).
  destruct (put_address_Ok _ _ _ _ _ _ _ _ Hp) as (a0 & -> & _).
  exact (group_of_kept _ _ Hk i).
Qed.

Lemma sync_kept t d v v' :
  sync_tx macaddr_in MarshalServices t d v = Ok (Some v') → ∀ i, group_of v' i = group_of v i.
Proof.
  intros H. unfold sync_tx in H. destruct (decide _); [done|].
  destruct (jsonb_in _); [cbn in H|done].
  destruct (if decide (d_MAC d = "") then _ else _) as [v2|] eqn:Ha; [cbn in H|done].
  destruct (backfillSubnetVLAN _ _ _) as [v3|] eqn:Hb; [cbn in H|done]. simplify_eq.
  destruct (backfill_Ok _ _ _ _ Hb) as (subnets & -> & _). apply group_of_kept.
  apply (devices_kept_alter (sync_device d) (d_ImportedDeviceID d)); [|done]. cbn.
  transitivity (iv_devices v2); [by destruct (decide (d_Hostname d ≠ "" ∧ d_ImportedAddressID d ≠ ""))|].
  destruct (decide (d_MAC d = "")); [by simplify_eq|].
  by destruct (attach_Ok _ _ _ _ _ _ _ Ha) as (macs & -> & _).
Qed.

Lemma UnlinkDevice_groups id :
  guarantees (inv_step (λ v v', no_singletons v → no_singletons v')) (UnlinkDevice id).
Proof.
  apply guarantees_stmt_inv; [done|]. intros w now x w' Hx.
  destruct (unlink_tx id (w_inv w)) as [v|] eqn:Hu; [cbn in Hx|done]. simplify_eq.
  exists v. split; [done|]. by eapply no_singletons_unlink.
Qed.

End groups.

(** ** Auto-linking by serial *)

Section autolink.
Context {env : Env}.

Lemma elem_of_subnets_of i v s : s ∈ subnets_of i v → has_address i v = true.
Proof.
  unfold subnets_of. rewrite elem_of_remove_dups, list_elem_of_omap. intros ([ip r] & Hin & Hs). cbn in Hs.
  destruct (decide (ad_Device r = Some i)) as [Hd|]; [|done]. unfold has_address. apply existsb_exists.
  exists (ip, r). split; [by apply list_elem_of_In|by apply bool_decide_eq_true].
Qed.

(** A device the rule admits for [id]. *)
Definition admitted (v : Inventory) (id : string) (x : Device) (m : string) : Prop :=
  m ≠ id ∧ ∃ y, iv_devices v !! m = Some y ∧
    goldHardwareCandidate (identity_of id x v) (identity_of m y v) = true ∧
    (pair_of m id ∉ iv_rejections v) ∧ ¬ linked v id m.

(** Serials are padded with spaces at most. *)
Definition plain_serials (v : Inventory) : Prop :=
  ∀ i y, iv_devices v !! i = Some y → trim_space (btrim (dv_HWSerial y)) = btrim (dv_HWSerial y).

Lemma disjoint_nonempty l k : disjointSubnets l k = true → l ≠ [] ∧ k ≠ [].
Proof. unfold disjointSubnets. intros H. bool_hyps. done. Qed.

Lemma not_linked_test v id x m y :
  iv_devices v !! id = Some x → iv_devices v !! m = Some y →
  (bool_decide (default "" (dv_Group x) = "") ||
   negb (bool_decide (dv_Group y = Some (default "" (dv_Group x))))) = true ↔
  ¬ linked v id m.
Proof.
  intros Hx Hy. rewrite orb_true_iff, negb_true_iff, bool_decide_eq_true, bool_decide_eq_false.
  unfold linked. setoid_rewrite group_of_Some. split.
  - intros Ht (g & (x' & Hx' & Hgx & Hg) & (y' & Hy' & Hgy & _)). simplify_eq. rewrite Hgx in Ht. cbn in Ht.
    destruct Ht; congruence.
  - intros Hn. destruct (dv_Group x) as [g|] eqn:Hgx; [cbn|by left].
    destruct (decide (g = "")); [by left|]. right. intros Hgy. apply Hn. exists g. split; [by exists x|by exists y].
Qed.

Lemma elem_of_serial_matches v id x m :
  plain_serials v → iv_devices v !! id = Some x → trim_space (btrim (dv_HWSerial x)) ≠ "" →
  m ∈ serial_matches (subnets_of id v)
        (serial_candidates id (trim_space (btrim (dv_HWSerial x))) (default "" (dv_Group x)) v) ↔
  admitted v id x m.
Proof.
  intros Hplain Hx Hser. unfold serial_matches, serial_candidates, admitted.
  rewrite list_elem_of_fmap. setoid_rewrite list_elem_of_filter. setoid_rewrite merge_sort_Permutation.
  setoid_rewrite list_elem_of_omap. split.
  - intros ([m' s] & -> & Hdis & ([i y] & Hin & Hc)). cbn in *. apply elem_of_map_to_list in Hin.
    destruct (serial_candidate _ _ _ _ _ _) eqn:Hcand; [|done]. simplify_eq.
    unfold serial_candidate in Hcand. rewrite !andb_true_iff in Hcand.
    destruct Hcand as ((((Hne & Heq) & Hgrp) & Hrej) & Hadr).
    apply bool_decide_eq_true in Hne, Heq. apply negb_true_iff, bool_decide_eq_false in Hrej.
    split; [done|]. exists y. split; [done|]. split_and!; [|done|by apply (not_linked_test v id x m' y Hx Hin)].
    unfold goldHardwareCandidate, identity_of. cbn [id_HWSerial id_SubnetIDs]. rewrite (Hplain _ _ Hin), Heq.
    rewrite bool_decide_eq_false_2 by done. rewrite bool_decide_eq_true_2 by done. exact Hdis.
  - intros (Hne & y & Hy & Hgold & Hrej & Hlk). exists (m, subnets_of m v). split; [done|].
    unfold goldHardwareCandidate, identity_of in Hgold. cbn [id_HWSerial id_SubnetIDs] in Hgold.
    rewrite bool_decide_eq_false_2 in Hgold by done.
    destruct (bool_decide (trim_space (btrim (dv_HWSerial x)) = _)) eqn:Heq; [cbn in Hgold|done].
    apply bool_decide_eq_true in Heq. rewrite (Hplain _ _ Hy) in Heq. split; [exact Hgold|].
    exists (m, y). split; [by apply elem_of_map_to_list|]. cbn.
    assert (serial_candidate id (trim_space (btrim (dv_HWSerial x))) (default "" (dv_Group x)) v m y = true) as ->;
      [|done].
    unfold serial_candidate. rewrite !andb_true_iff. split_and!.
    + by apply bool_decide_eq_true.
    + by apply bool_decide_eq_true.
    + by apply (not_linked_test v id x m y Hx Hy).
    + by apply negb_true_iff, bool_decide_eq_false.
    + apply disjoint_nonempty in Hgold as [_ Hn].
      destruct (subnets_of m v) as [|s l] eqn:Hs; [done|].
      eapply (elem_of_subnets_of m v s). rewrite Hs. by left.
Qed.

Lemma LinkDevices_alone ids (w : World Inventory) :
  (∀ n, fault n = false) →
  match alone (LinkDevices ids) w with
  | (Ok _, w') => link_tx (token (w_step w)) (link_ids ids) (w_inv w) = Ok (w_inv w')
  | (Err _, w') => w_inv w' = w_inv w
  end.
Proof.
  intros Hcalm. unfold LinkDevices. destruct (length (link_ids ids) <? 2)%nat; [done|].
  rewrite alone_bind. unfold draw_token. rewrite alone_atomic, alone_stmt. unfold run_stmt. rewrite Hcalm.
  cbn [w_inv bump]. by destruct (link_tx _ _ _).
Qed.

(** Auto-linking by serial, running alone with statements that arrive. When
    the setting is on it returns exactly the devices the gold rule admits for the
    device: same non-empty serial, subnets disjoint from its own, the pair not
    dismissed, not in its group already; it puts them all in the device's group,
    and changes nothing when there is none or when it fails. *)
Theorem AutoLinkDeviceBySerial_spec id x (w : World Inventory) :
  let v := w_inv w in
  (∀ n, fault n = false) → (∀ n, token n ≠ Some "") → plain_serials v → iv_devices v !! "" = None →
  iv_settings v !! SettingDeviceLinkAutoSerial = Some "true" → iv_devices v !! id = Some x →
  match alone (inv_AutoLinkDeviceBySerial id) w with
  | (Ok matches, w') => (∀ m, m ∈ matches ↔ admitted v id x m) ∧
      (∀ m, m ∈ matches → linked (w_inv w') id m) ∧ (matches = [] → w_inv w' = v)
  | (Err _, w') => w_inv w' = v
  end.
Proof.
  intros v Hcalm Htok Hplain Hempty Hset Hx. unfold inv_AutoLinkDeviceBySerial.
  rewrite alone_try, alone_stmt. unfold run_stmt. rewrite Hcalm. fold v. cbn [w_inv bump].
  change (iv_settings (w_inv w)) with (iv_settings v). rewrite Hset. cbn [default].
  rewrite decide_False by (intros Hc; by destruct Hc).
  rewrite alone_bind. unfold deviceLinkIdentity. rewrite alone_stmt. unfold run_stmt. rewrite Hcalm.
  cbn [w_inv bump]. change (iv_devices (w_inv w)) with (iv_devices v). rewrite Hx. fold v.
  set (serial := trim_space (btrim (dv_HWSerial x))).
  change (trim_space (id_HWSerial (identity_of id x v))) with serial.
  change (id_SubnetIDs (identity_of id x v)) with (subnets_of id v).
  assert (∀ m, admitted v id x m → serial ≠ "" ∧ subnets_of id v ≠ []) as Hneed.
  { intros m (_ & y & _ & Hg & _). unfold goldHardwareCandidate, identity_of in Hg. cbn [id_HWSerial id_SubnetIDs] in Hg.
    fold serial in Hg. destruct (bool_decide (serial = "")) eqn:Hs; [done|]. apply bool_decide_eq_false in Hs.
    split; [done|]. cbn [orb] in Hg. destruct (negb _); [done|]. by apply disjoint_nonempty in Hg as [? _]. }
  destruct (decide (serial = "" ∨ subnets_of id v = [])) as [Hno|Hyes].
  { rewrite alone_ret. split_and!; [|by intros m ?%not_elem_of_nil|done].
    intros m. split; [by intros ?%not_elem_of_nil|]. intros [? ?]%Hneed. by destruct Hno. }
  rewrite alone_try, alone_stmt. unfold run_stmt. rewrite Hcalm. cbn [w_inv bump]. fold v.
  set (matches := serial_matches _ _).
  assert (∀ m, m ∈ matches ↔ admitted v id x m) as Hm
    by (intros m; apply elem_of_serial_matches; [done|done|by intros ?; apply Hyes; left]).
  destruct (decide (matches = [])) as [He|Hne].
  { rewrite alone_ret. split_and!; [|by intros m ?%not_elem_of_nil|done].
    intros m. rewrite <- Hm, He. done. }
  rewrite alone_try. set (w1 := bump (bump (bump w))). change v with (w_inv w1) in Hm |- *.
  pose proof (LinkDevices_alone (id :: matches) w1 Hcalm) as Hl.
  destruct (alone (LinkDevices (id :: matches)) w1) as [[u|e] w2]; [|exact Hl].
  rewrite alone_ret. split_and!; [exact Hm| |done]. intros m Hin.
  assert (∀ i, i ∈ id :: matches → touched (w_inv w1) (link_ids (id :: matches)) i) as Htouch.
  { intros i Hi. assert (is_Some (iv_devices v !! i)) as Hs.
    { apply elem_of_cons in Hi as [->|Hi]; [by exists x|]. apply Hm in Hi as (_ & y & Hy & _). by exists y. }
    split; [exact Hs|]. left. unfold link_ids. rewrite elem_of_remove_dups, list_elem_of_filter. split; [|done].
    intros ->. destruct Hs as [y Hy]. congruence. }
  destruct (link_tx_groups _ _ _ _ Hl) as (target & _ & Htarget & Hgin & _).
  exists target. pose proof (target_nonempty _ _ _ _ (Htok _) Htarget) as Hnt.
  assert (nonempty target = Some target) as Ht by (unfold nonempty; by rewrite decide_False).
  rewrite <- Ht. split; apply Hgin, Htouch; [by left|by right].
Qed.
End autolink.

(** ** Concrete devices *)

Definition unit_device (serial : string) (group : option string) : Device :=
  MkDevice "d" "" "" "" serial "" [] "" 0 group.
Definition unit_address (subnet device : string) : AddressRow :=
  MkAddressRow device (Some subnet) (Some device) "assigned" "" "" None.

(** One unit in subnet [s1], and two devices of subnet [s2] with its serial. *)
Definition clones : Inventory :=
  MkInventory {[SettingDeviceLinkAutoSerial := "true"]} ∅
    (<["a" := unit_device "S1 " None]> (<["b" := unit_device "S1" None]> {["c" := unit_device " S1" None]}))
    (<["10.0.1.1" := unit_address "s1" "a"]> (<["10.0.2.1" := unit_address "s2" "b"]>
       {["10.0.2.2" := unit_address "s2" "c"]}))
    ∅ ∅ ∅ ∅ ∅ ∅ ∅.
Definition clones_world : World Inventory := MkWorld ∅ ∅ ∅ ∅ ∅ [] clones [] 0.

#[local] Instance link_env : Env :=
  {| clock := λ n, Z.of_nat n; fault := λ _, false; token := λ _, Some "g"; jsonb_in := λ s, Some s |}.

Lemma clones_cases i y :
  iv_devices clones !! i = Some y →
  (i = "a" ∨ i = "b" ∨ i = "c") ∧ dv_Group y = None ∧
  trim_space (btrim (dv_HWSerial y)) = btrim (dv_HWSerial y).
Proof.
  cbn. rewrite !lookup_insert_Some, lookup_singleton_Some.
  intros [[<- <-]|[_ [[<- <-]|[_ [<- <-]]]]]; (split; [tauto|]); (split; [reflexivity|vm_compute; reflexivity]).
Qed.

Lemma link_tx_join_witness :
  match link_tx (Some "g") ["a"; "b"] clones with
  | Ok v' => linked v' "a" "b"
  | Err _ => False
  end.
Proof.
  pose proof (link_tx_join (Some "g") ["a"; "b"] clones) as H.
  destruct (link_tx (Some "g") ["a"; "b"] clones) as [v'|e] eqn:Hl.
  - apply H.
    + done.
    + intros g i _ (y & Hy & Hg & _)%group_of_Some. apply clones_cases in Hy as (_ & Hn & _). congruence.
    + right. split; (split; [by eexists|left; set_solver]).
  - assert (is_Some (match link_tx (Some "g") ["a"; "b"] clones with Ok v => Some v | Err _ => None end)) as [? He]
      by (vm_compute; by eexists).
    by rewrite Hl in He.
Defined.

(** The two clones are admitted one by one, and end up linked to each other. *)
Lemma AutoLinkDeviceBySerial_spec_witness :
  match alone (inv_AutoLinkDeviceBySerial "a") clones_world with
  | (Ok matches, w') => matches = ["b"; "c"] ∧ linked (w_inv w') "b" "c"
  | (Err _, _) => False
  end.
Proof.
  pose proof (AutoLinkDeviceBySerial_spec "a" (unit_device "S1 " None) clones_world) as H.
  assert ((alone (inv_AutoLinkDeviceBySerial "a") clones_world).1 = Ok ["b"; "c"]) as Hres
    by (vm_compute; reflexivity).
  destruct (alone (inv_AutoLinkDeviceBySerial "a") clones_world) as [res w']. cbn in Hres. subst res.
  split; [reflexivity|].
  destruct H as (_ & Hlink & _); [done|done| |reflexivity|reflexivity|reflexivity|].
  - intros i y Hy. by apply clones_cases in Hy as (_ & _ & ?).
  - destruct (Hlink "b") as (g & Ha & Hb); [by left|]. destruct (Hlink "c") as (h & Ha' & Hc); [by right; left|].
    exists g. split; [exact Hb|congruence].
Defined.
