(* ===== verification/Records.v ===== *)
(** * The records an operator edits

    [internal/store/ipam.go] and [internal/store/devices.go]: subnets, addresses,
    devices and MACs over the tables of [Inventory], with the checks the store
    makes before a statement and the constraints the schema makes in it. *)

From S2P Require Import Prelude GoStrings Netip Ipam Macaddr GoTime Process Scans Queue Inventory Import.
From Stdlib Require Import SpecFloat.
Local Open Scope Z_scope.

(** ** Inputs and views *)

Record SubnetInput : Type := MkSubnetInput
  { si_SiteID : string; si_CIDR : string; si_Name : string; si_VLAN : option Z; si_Description : string }.

Record AddressInput : Type := MkAddressInput
  { ai_Address : string; ai_State : string; ai_DeviceID : string; ai_Hostname : string; ai_Notes : string }.

Record DeviceInput : Type := MkDeviceInput { vi_Name : string; vi_Description : string }.

(** The Go struct [Subnet]; its tags and site name are display data. *)
Record SubnetView : Type := MkSubnetView
  { sv_ID : string; sv_SiteID : string; sv_CIDR : string; sv_Name : string; sv_VLAN : option Z;
    sv_Description : string; sv_AddressCount : Z; sv_ConflictCount : Z; sv_Capacity : Z;
    sv_UtilizationPct : spec_float }.

Record IPAddress : Type := MkIPAddress
  { ip_ID : string; ip_SubnetID : string; ip_DeviceID : string; ip_DeviceName : string;
    ip_Address : string; ip_State : string; ip_Hostname : string; ip_Notes : string }.

Record MACAddress : Type := MkMACAddress
  { ma_ID : string; ma_DeviceID : string; ma_Address : string; ma_Vendor : string; ma_IsPrivate : bool }.

(** The Go struct [Device]: the row with its counts; its tags and the primary
    subnet are display data. *)
Record DeviceView : Type := MkDeviceView
  { vw_ID : string; vw_Row : Device; vw_AddressCount : Z; vw_MACCount : Z; vw_PrivateMACCount : Z;
    vw_Linked : bool }.

(** ** What the schema checks *)

Definition address_states : list string := ["available"; "reserved"; "assigned"; "deprecated"; "conflict"].
Definition state_in (s : string) : bool := bool_decide (s ∈ address_states).

(** [vlan integer CHECK (vlan IS NULL OR vlan BETWEEN 1 AND 4094)]. *)
Definition vlan_check (vlan : option Z) : result db_error unit :=
  match vlan with
  | None => Ok ()
  | Some n => if negb (int4 n) then Err ErrOutOfRange
              else if (1 <=? n) && (n <=? 4094) then Ok () else Err ErrCheck
  end.
Definition vlan_int4 (vlan : option Z) : bool :=
  match vlan with None => true | Some n => int4 n end.

(** [a && b] on [cidr]. *)
Definition cidr_overlap (a b : string) : bool :=
  match parse_prefix a, parse_prefix b with
  | Some p, Some q => prefix_overlaps p q
  | _, _ => false
  end.

Definition overlapping (existingID cidr : string) (v : Inventory) : bool :=
  existsb (λ p, cidr_overlap (sn_cidr p.2) cidr &&
    (bool_decide (existingID = "") || negb (bool_decide (p.1 = existingID)))) (map_to_list (iv_subnets v)).

(** [UNIQUE (cidr)], but for row [id]. *)
Definition cidr_taken (id cidr : string) (v : Inventory) : bool :=
  existsb (λ p, bool_decide (sn_cidr p.2 = cidr) && negb (bool_decide (p.1 = id))) (map_to_list (iv_subnets v)).

(** [ON DELETE] of the foreign keys to addresses, devices and subnets. *)
Definition unlink_address (ids : list string) (r : DiscoveryRow) : DiscoveryRow :=
  match dr_Address r with
  | Some aid =>
      if bool_decide (aid ∈ ids) then
        MkDiscoveryRow (dr_ID r) (dr_Job r) (dr_Agent r) (dr_MAC r) (dr_Vendor r) (dr_Hostname r)
          (dr_OSFamily r) (dr_OSDetail r) (dr_HWSerial r) (dr_HWObjectID r) (dr_VLAN r) (dr_Services r)
          (dr_Status r) (dr_Reconcile r) (dr_Conflict r) None (dr_Device r) (dr_First r) (dr_Last r)
      else r
  | None => r
  end.

Definition drop_device (ids : list string) (o : option string) : option string :=
  match o with Some d => if bool_decide (d ∈ ids) then None else Some d | None => None end.

Definition unlink_device (ids : list string) (r : DiscoveryRow) : DiscoveryRow :=
  MkDiscoveryRow (dr_ID r) (dr_Job r) (dr_Agent r) (dr_MAC r) (dr_Vendor r) (dr_Hostname r)
    (dr_OSFamily r) (dr_OSDetail r) (dr_HWSerial r) (dr_HWObjectID r) (dr_VLAN r) (dr_Services r)
    (dr_Status r) (dr_Reconcile r) (dr_Conflict r) (dr_Address r) (drop_device ids (dr_Device r))
    (dr_First r) (dr_Last r).

Definition set_device (o : option string) (a : AddressRow) : AddressRow :=
  MkAddressRow (ad_ID a) (ad_Subnet a) o (ad_State a) (ad_Hostname a) (ad_Notes a) (ad_LastSeen a).
Definition set_subnet (o : option string) (a : AddressRow) : AddressRow :=
  MkAddressRow (ad_ID a) o (ad_Device a) (ad_State a) (ad_Hostname a) (ad_Notes a) (ad_LastSeen a).

(** [DELETE FROM ip_addresses WHERE f]. *)
Definition delete_addresses (f : AddressRow → bool) (v : Inventory) : Inventory :=
  let gone := map (λ p, ad_ID p.2) (filter (λ p, f p.2 = true) (map_to_list (iv_addresses v))) in
  with_discoveries (unlink_address gone <$> iv_discoveries v)
    (with_addresses (filter (λ p, f p.2 = false) (iv_addresses v)) v).

(** [DELETE FROM devices WHERE id = ANY(ids)]. *)
Definition delete_devices (ids : list string) (v : Inventory) : Inventory :=
  MkInventory (iv_settings v) (iv_subnets v)
    (filter (λ p, p.1 ∉ ids) (iv_devices v))
    ((λ a, set_device (drop_device ids (ad_Device a)) a) <$> iv_addresses v)
    (filter (λ p, drop_device ids (mc_Device p.2) = mc_Device p.2) (iv_macs v))
    (unlink_device ids <$> iv_discoveries v)
    (filter (λ p, (p.1 ∉ ids) ∧ (p.2 ∉ ids)) (iv_rejections v))
    (iv_tags v) (iv_taggings v) (iv_fields v) (iv_values v).

(** [DELETE FROM subnets WHERE id = ANY(ids)]. *)
Definition delete_subnets (ids : list string) (v : Inventory) : Inventory :=
  with_subnets (filter (λ p, p.1 ∉ ids) (iv_subnets v))
    (with_addresses ((λ a, set_subnet (drop_device ids (ad_Subnet a)) a) <$> iv_addresses v) v).

(** ** Subnets *)

Section records.
Context {env : Env}.
Context (inet_in macaddr_in cidr_in : string → option string).

Definition ensureNoSubnetOverlap (existingID cidr : string) : GoE Inventory unit :=
  stmt (λ _ w,
    c ← of_option ErrOutOfRange (cidr_in cidr);
    if overlapping existingID c (w_inv w) then Err ErrOverlap else Ok ((), w)).

Definition count_addresses (f : AddressRow → bool) (v : Inventory) : Z :=
  Z.of_nat (length (filter (λ p, f p.2 = true) (map_to_list (iv_addresses v)))).

(** [scanSubnet] on a row: the capacity of an IPv6 subnet is an error. *)
Definition scanSubnet (id : string) (s : Subnet) (v : Inventory) : result db_error SubnetView :=
  let inside a := bool_decide (ad_Subnet a = Some id) in
  let count := count_addresses inside v in
  match AddressCapacity (sn_cidr s) with
  | Err _ => Err ErrInvalid
  | Ok capacity =>
      Ok (MkSubnetView id (default "" (sn_site s)) (sn_cidr s) (sn_name s) (sn_vlan s) (sn_description s)
        count (count_addresses (λ a, inside a && bool_decide (ad_State a = "conflict")) v)
        capacity (UtilizationPercent count capacity))
  end.

Definition GetSubnet (id : string) : GoE Inventory SubnetView :=
  stmt (λ _ w, match iv_subnets (w_inv w) !! id with
               | Some s => view ← scanSubnet id s (w_inv w); Ok (view, w)
               | None => Err ErrNotFound
               end).

Definition site_in (input : SubnetInput) (w : World Inventory) : bool :=
  match emptyToNil (si_SiteID input) with None => true | Some s => bool_decide (s ∈ w_sites w) end.

Definition subnet_row (cidr : string) (input : SubnetInput) : Subnet :=
  MkSubnet (emptyToNil (si_SiteID input)) cidr (si_Name input) (si_VLAN input) (si_Description input).

Definition insert_subnet (id : string) (input : SubnetInput) (w : World Inventory) :
    result db_error (unit * World Inventory) :=
  c ← of_option ErrOutOfRange (cidr_in (si_CIDR input));
  _ ← vlan_check (si_VLAN input);
  if bool_decide (is_Some (iv_subnets (w_inv w) !! id)) || cidr_taken id c (w_inv w) then Err ErrDuplicateKey
  else if negb (site_in input w) then Err ErrForeignKey
  else Ok ((), with_inv (with_subnets (<[id := subnet_row c input]> (iv_subnets (w_inv w))) (w_inv w)) w).

Definition CreateSubnet (input : SubnetInput) : GoE Inventory SubnetView :=
  _ ←? ensureNoSubnetOverlap "" (si_CIDR input);
  id ←? random_token;
  _ ←? stmt (λ _ w, insert_subnet id input w);
  GetSubnet id.

Definition update_subnet (id : string) (input : SubnetInput) (w : World Inventory) :
    result db_error (unit * World Inventory) :=
  c ← of_option ErrOutOfRange (cidr_in (si_CIDR input));
  if negb (vlan_int4 (si_VLAN input)) then Err ErrOutOfRange
  else if bool_decide (iv_subnets (w_inv w) !! id = None) then Err ErrNotFound
  else
    _ ← vlan_check (si_VLAN input);
    if cidr_taken id c (w_inv w) then Err ErrDuplicateKey
    else if negb (site_in input w) then Err ErrForeignKey
    else Ok ((), with_inv (with_subnets (<[id := subnet_row c input]> (iv_subnets (w_inv w))) (w_inv w)) w).

Definition UpdateSubnet (id : string) (input : SubnetInput) : GoE Inventory SubnetView :=
  _ ←? ensureNoSubnetOverlap id (si_CIDR input);
  _ ←? stmt (λ _ w, update_subnet id input w);
  GetSubnet id.

Definition DeleteSubnet (id : string) : GoE Inventory unit :=
  stmt (λ _ w, if bool_decide (iv_subnets (w_inv w) !! id = None) then Err ErrNotFound
               else Ok ((), with_inv (delete_subnets [id] (w_inv w)) w)).

(** [ParseVLAN]. *)
Definition ParseVLAN (value : string) : result db_error (option Z) :=
  let value := trim_space value in
  if decide (value = "") then Ok None
  else match atoi value with
       | Some vlan => if (vlan <? 1) || (4094 <? vlan) then Err ErrInvalid else Ok (Some vlan)
       | None => Err ErrInvalid
       end.

(** ** Addresses *)

Definition find_address (id : string) (v : Inventory) : option (string * AddressRow) :=
  snd <$> list_find (λ p, ad_ID p.2 = id) (map_to_list (iv_addresses v)).

Definition address_view (ip : string) (a : AddressRow) (subnet name : string) : IPAddress :=
  MkIPAddress (ad_ID a) subnet (default "" (ad_Device a)) name ip (ad_State a) (ad_Hostname a) (ad_Notes a).

Definition address_row (id : string) (subnet : option string) (seen : option Z) (input : AddressInput) : AddressRow :=
  MkAddressRow id subnet (emptyToNil (ai_DeviceID input)) (ai_State input) (ai_Hostname input)
    (ai_Notes input) seen.

Definition insert_address (id subnetID : string) (input : AddressInput) (w : World Inventory) :
    result db_error (IPAddress * World Inventory) :=
  ip ← of_option ErrOutOfRange (inet_in (ai_Address input));
  if negb (state_in (ai_State input)) then Err ErrOutOfRange
  else if has_address_id id (w_inv w) || bool_decide (is_Some (iv_addresses (w_inv w) !! ip)) then Err ErrDuplicateKey
  else if negb (bool_decide (is_Some (iv_subnets (w_inv w) !! subnetID)) &&
                references (iv_devices (w_inv w)) (emptyToNil (ai_DeviceID input))) then Err ErrForeignKey
  else
    let row := address_row id (Some subnetID) None input in
    Ok (address_view ip row subnetID "",
        with_inv (with_addresses (<[ip := row]> (iv_addresses (w_inv w))) (w_inv w)) w).

(** [ipam.Contains], before either statement. *)
Definition in_subnet {A} (subnet : SubnetView) (input : AddressInput) (k : GoE Inventory A) : GoE Inventory A :=
  match Contains (sv_CIDR subnet) (ai_Address input) with
  | Err _ => Ret (Err ErrInvalid)
  | Ok false => Ret (Err ErrAddressOutOfCIDR)
  | Ok true => k
  end.

Definition CreateAddress (subnet : SubnetView) (input : AddressInput) : GoE Inventory IPAddress :=
  in_subnet subnet input (
    id ←? random_token;
    stmt (λ _ w, insert_address id (sv_ID subnet) input w)).

(** A NULL subnet does not scan into a Go string. *)
Definition GetAddress (id : string) : GoE Inventory IPAddress :=
  stmt (λ _ w,
    match find_address id (w_inv w) with
    | None => Err ErrNotFound
    | Some (ip, a) =>
        subnet ← of_option ErrNull (ad_Subnet a);
        Ok (address_view ip a subnet (default "" (dv_Name <$> (ad_Device a ≫= λ d, iv_devices (w_inv w) !! d))), w)
    end).

Definition update_address (id : string) (input : AddressInput) (w : World Inventory) :
    result db_error (unit * World Inventory) :=
  ip ← of_option ErrOutOfRange (inet_in (ai_Address input));
  if negb (state_in (ai_State input)) then Err ErrOutOfRange
  else
    match find_address id (w_inv w) with
    | None => Err ErrNotFound
    | Some (old, a) =>
        if negb (bool_decide (old = ip)) && bool_decide (is_Some (iv_addresses (w_inv w) !! ip)) then Err ErrDuplicateKey
        else if negb (references (iv_devices (w_inv w)) (emptyToNil (ai_DeviceID input))) then Err ErrForeignKey
        else Ok ((), with_inv (with_addresses
               (<[ip := address_row (ad_ID a) (ad_Subnet a) (ad_LastSeen a) input]>
                 (delete old (iv_addresses (w_inv w)))) (w_inv w)) w)
    end.

Definition UpdateAddress (id : string) (subnet : SubnetView) (input : AddressInput) : GoE Inventory IPAddress :=
  in_subnet subnet input (
    _ ←? stmt (λ _ w, update_address id input w);
    GetAddress id).

(** No address names the device. *)
Definition orphan (v : Inventory) (id : string) : bool := negb (has_address id v).

Definition delete_address (id : string) (v : Inventory) : result db_error Inventory :=
  match find_address id v with
  | None => Err ErrNotFound
  | Some (_, a) =>
      let v := delete_addresses (λ b, bool_decide (ad_ID b = id)) v in
      match ad_Device a ≫= nonempty with
      | Some d => Ok (if orphan v d then delete_devices [d] v else v)
      | None => Ok v
      end
  end.

Definition DeleteAddress (id : string) : GoE Inventory unit :=
  stmt (λ _ w, v ← delete_address id (w_inv w); Ok ((), with_inv v w)).

(** ** Devices *)

Definition shares_group (id : string) (x : Device) (v : Inventory) : bool :=
  match dv_Group x with
  | Some g => existsb (λ p, bool_decide (dv_Group p.2 = Some g) && negb (bool_decide (p.1 = id)))
                (map_to_list (iv_devices v))
  | None => false
  end.

Definition count_macs (f : MacRow → bool) (v : Inventory) : Z :=
  Z.of_nat (length (filter (λ p, f p.2 = true) (map_to_list (iv_macs v)))).

Definition scanDevice (id : string) (x : Device) (v : Inventory) : DeviceView :=
  MkDeviceView id x
    (count_addresses (λ a, bool_decide (ad_Device a = Some id)) v)
    (count_macs (λ m, bool_decide (mc_Device m = Some id)) v)
    (count_macs (λ m, bool_decide (mc_Device m = Some id) && mc_Private m) v)
    (shares_group id x v).

Definition GetDevice (id : string) : GoE Inventory DeviceView :=
  stmt (λ _ w, match iv_devices (w_inv w) !! id with
               | Some x => Ok (scanDevice id x (w_inv w), w)
               | None => Err ErrNotFound
               end).

(** A device made by hand: the other columns are their defaults. *)
Definition plain_device (name description : string) (now : Z) : Device :=
  MkDevice name description "" "" "" "" [] "" now None.
Definition rename_device (name description : string) (x : Device) : Device :=
  MkDevice name description (dv_OSFamily x) (dv_OSDetail x) (dv_HWSerial x) (dv_HWObjectID x)
    (dv_Services x) (dv_Source x) (dv_Created x) (dv_Group x).

Definition insert_device (id name description : string) (now : Z) (v : Inventory) : result db_error Inventory :=
  if bool_decide (is_Some (iv_devices v !! id)) then Err ErrDuplicateKey
  else Ok (with_devices (<[id := plain_device name description now]> (iv_devices v)) v).

Definition CreateDevice (input : DeviceInput) : GoE Inventory DeviceView :=
  id ←? random_token;
  _ ←? stmt (λ now w,
    v ← insert_device id (vi_Name input) (vi_Description input) now (w_inv w);
    Ok ((), with_inv v w));
  GetDevice id.

Definition UpdateDevice (id : string) (input : DeviceInput) : GoE Inventory DeviceView :=
  _ ←? stmt (λ _ w,
    if bool_decide (iv_devices (w_inv w) !! id = None) then Err ErrNotFound
    else Ok ((), with_inv (with_devices
      (alter (rename_device (vi_Name input) (vi_Description input)) id (iv_devices (w_inv w))) (w_inv w)) w));
  GetDevice id.

(** Devices and their addresses. *)
Definition delete_with_addresses (ids : list string) (v : Inventory) : Inventory :=
  delete_devices ids
    (delete_addresses (λ a, match ad_Device a with Some d => bool_decide (d ∈ ids) | None => false end) v).

Definition DeleteDevice (id : string) : GoE Inventory unit :=
  stmt (λ _ w, if bool_decide (iv_devices (w_inv w) !! id = None) then Err ErrNotFound
               else Ok ((), with_inv (delete_with_addresses [id] (w_inv w)) w)).

(** ** MAC addresses and tags *)

Definition tag_name_taken (name : string) (v : Inventory) : bool :=
  existsb (λ p, bool_decide (tg_name p.2 = name)) (map_to_list (iv_tags v)).

Definition with_tags (tags : gmap string Tag) (taggings : gset (string * string * string)) (v : Inventory) : Inventory :=
  MkInventory (iv_settings v) (iv_subnets v) (iv_devices v) (iv_addresses v) (iv_macs v) (iv_discoveries v)
    (iv_rejections v) tags taggings (iv_fields v) (iv_values v).

Definition TagDevice (deviceID tagID name color : string) : GoE Inventory unit :=
  _ ←? stmt (λ _ w,
    if bool_decide (is_Some (iv_tags (w_inv w) !! tagID)) then Ok ((), w)
    else if tag_name_taken name (w_inv w) then Err ErrDuplicateKey
    else Ok ((), with_inv (with_tags (<[tagID := MkTag name color]> (iv_tags (w_inv w)))
                             (iv_taggings (w_inv w)) (w_inv w)) w));
  stmt (λ _ w,
    if bool_decide (iv_tags (w_inv w) !! tagID = None) then Err ErrForeignKey
    else Ok ((), with_inv (with_tags (iv_tags (w_inv w))
                   ({[(tagID, "device", deviceID)]} ∪ iv_taggings (w_inv w)) (w_inv w)) w)).

Definition insert_mac (id deviceID : string) (analysis : Analysis) (w : World Inventory) :
    result db_error (MACAddress * World Inventory) :=
  mac ← of_option ErrOutOfRange (macaddr_in (Address analysis));
  if has_mac_id id (w_inv w) || bool_decide (is_Some (iv_macs (w_inv w) !! mac)) then Err ErrDuplicateKey
  else if bool_decide (iv_devices (w_inv w) !! deviceID = None) then Err ErrForeignKey
  else Ok (MkMACAddress id deviceID mac (Vendor analysis) (IsPrivate analysis),
           with_inv (with_macs (<[mac := MkMacRow id (Some deviceID) (Vendor analysis) (IsPrivate analysis)]>
             (iv_macs (w_inv w))) (w_inv w)) w).

Definition CreateMACAddress (deviceID value : string) : GoE Inventory MACAddress :=
  match Analyze value with
  | Err _ => Ret (Err ErrInvalid)
  | Ok analysis =>
      id ←? random_token;
      address ←? stmt (λ _ w, insert_mac id deviceID analysis w);
      if IsPrivate analysis then
        _ ←? TagDevice deviceID "private-mac" "Private MAC" "amber"; Ret (Ok address)
      else Ret (Ok address)
  end.

Definition find_mac (id : string) (v : Inventory) : option (string * MacRow) :=
  snd <$> list_find (λ p, mc_ID p.2 = id) (map_to_list (iv_macs v)).

Definition GetMACAddress (id : string) : GoE Inventory MACAddress :=
  stmt (λ _ w,
    match find_mac id (w_inv w) with
    | None => Err ErrNotFound
    | Some (mac, m) =>
        dev ← of_option ErrNull (mc_Device m);
        Ok (MkMACAddress (mc_ID m) dev mac (mc_Vendor m) (mc_Private m), w)
    end).

Definition DeleteMACAddress (id : string) : GoE Inventory unit :=
  stmt (λ _ w,
    match find_mac id (w_inv w) with
    | None => Err ErrNotFound
    | Some (mac, _) => Ok ((), with_inv (with_macs (delete mac (iv_macs (w_inv w))) (w_inv w)) w)
    end).
End records.
