(* ===== verification/Bulk.v ===== *)
(** * Bulk edits, custom fields and imported rows

    [internal/store/bulk.go], [internal/store/custom_fields.go] and
    [internal/store/portability.go]: one change over many records, the
    operator-defined attributes, and the upserts of a validated file. *)

From S2P Require Import Prelude GoStrings Netip Ipam Macaddr GoTime Process Scans Queue Inventory Import Records.
Local Open Scope Z_scope.

(** How many rows a change reaches. *)
Definition rows_affected {A} (f : A → bool) (m : gmap string A) : Z :=
  Z.of_nat (length (filter (λ p, f p.2 = true) (map_to_list m))).
Definition keys_affected {A} (ids : list string) (m : gmap string A) : Z :=
  Z.of_nat (length (filter (λ p, p.1 ∈ ids) (map_to_list m))).

(** [id = ANY(ids)]. *)
Definition address_in (ids : list string) (a : AddressRow) : bool := bool_decide (ad_ID a ∈ ids).

Definition set_state (state : string) (a : AddressRow) : AddressRow :=
  MkAddressRow (ad_ID a) (ad_Subnet a) (ad_Device a) state (ad_Hostname a) (ad_Notes a) (ad_LastSeen a).

Section bulk.
Context {env : Env}.
(** PostgreSQL's [lower]. *)
Context (lower : string → string).

(** ** Addresses, subnets and devices *)

Definition BulkSetAddressState (ids : list string) (state : string) : GoE Inventory Z :=
  stmt (λ _ w,
    if negb (state_in state) then Err ErrOutOfRange
    else Ok (rows_affected (address_in ids) (iv_addresses (w_inv w)),
             with_inv (with_addresses
               ((λ a, if address_in ids a then set_state state a else a) <$> iv_addresses (w_inv w)) (w_inv w)) w)).

Definition BulkClearAddressDevice (ids : list string) : GoE Inventory Z :=
  stmt (λ _ w,
    Ok (rows_affected (address_in ids) (iv_addresses (w_inv w)),
        with_inv (with_addresses
          ((λ a, if address_in ids a then set_device None a else a) <$> iv_addresses (w_inv w)) (w_inv w)) w)).

Definition bulk_delete_addresses (ids : list string) (v : Inventory) : Inventory :=
  let devices := omap (λ p, if address_in ids p.2 then ad_Device p.2 ≫= nonempty else None)
                   (map_to_list (iv_addresses v)) in
  let v := delete_addresses (address_in ids) v in
  delete_devices (filter (λ d, orphan v d = true) devices) v.

Definition BulkDeleteAddresses (ids : list string) : GoE Inventory Z :=
  stmt (λ _ w, Ok (rows_affected (address_in ids) (iv_addresses (w_inv w)),
                   with_inv (bulk_delete_addresses ids (w_inv w)) w)).

Definition BulkSetSubnetVLAN (ids : list string) (vlan : option Z) : GoE Inventory Z :=
  stmt (λ _ w,
    if negb (vlan_int4 vlan) then Err ErrOutOfRange
    else
      let n := keys_affected ids (iv_subnets (w_inv w)) in
      _ ← (if n =? 0 then Ok () else vlan_check vlan);
      Ok (n, with_inv (with_subnets (map_imap (λ id s,
        Some (if bool_decide (id ∈ ids) then set_vlan vlan s else s)) (iv_subnets (w_inv w))) (w_inv w)) w)).

Definition BulkDeleteSubnets (ids : list string) : GoE Inventory Z :=
  stmt (λ _ w, Ok (keys_affected ids (iv_subnets (w_inv w)), with_inv (delete_subnets ids (w_inv w)) w)).

Definition BulkDeleteDevices (ids : list string) : GoE Inventory Z :=
  stmt (λ _ w, Ok (keys_affected ids (iv_devices (w_inv w)), with_inv (delete_with_addresses ids (w_inv w)) w)).

(** ** Tags *)

Definition tag_named (name : string) (v : Inventory) : option string :=
  (λ p, p.2.1) <$> list_find (λ p, tg_name p.2 = name) (map_to_list (iv_tags v)).

(** [ON CONFLICT (name) DO UPDATE]: the tag with the name, made when there is none. *)
Definition ensure_tag (id name : string) (v : Inventory) : result db_error (string * Inventory) :=
  match tag_named name v with
  | Some tagID => Ok (tagID, v)
  | None => if bool_decide (is_Some (iv_tags v !! id)) then Err ErrDuplicateKey
            else Ok (id, with_tags (<[id := MkTag name "slate"]> (iv_tags v)) (iv_taggings v) v)
  end.

Definition taggings_of (tagID entityType : string) (ids : list string) : gset (string * string * string) :=
  list_to_set (map (λ id, (tagID, entityType, id)) ids).

Definition BulkAddTag (entityType : string) (ids : list string) (name : string) : GoE Inventory Z :=
  let name := trim_space name in
  if decide (name = "") then Ret (Err ErrInvalid)
  else
    id ←? random_token;
    tagID ←? stmt (λ _ w, '(tagID, v) ← ensure_tag id name (w_inv w); Ok (tagID, with_inv v w));
    stmt (λ _ w,
      if bool_decide (iv_tags (w_inv w) !! tagID = None) && negb (bool_decide (ids = [])) then Err ErrForeignKey
      else
        let links := taggings_of tagID entityType ids in
        Ok (Z.of_nat (size (links ∖ iv_taggings (w_inv w))),
            with_inv (with_tags (iv_tags (w_inv w)) (links ∪ iv_taggings (w_inv w)) (w_inv w)) w)).

Definition BulkRemoveTag (entityType : string) (ids : list string) (name : string) : GoE Inventory Z :=
  let name := trim_space name in
  if decide (name = "") then Ret (Err ErrInvalid)
  else stmt (λ _ w,
    let links := match tag_named name (w_inv w) with
                 | Some tagID => taggings_of tagID entityType ids
                 | None => ∅
                 end in
    Ok (Z.of_nat (size (links ∩ iv_taggings (w_inv w))),
        with_inv (with_tags (iv_tags (w_inv w)) (iv_taggings (w_inv w) ∖ links) (w_inv w)) w)).

(** ** Custom fields

    The definitions are in the order of the table; the pages sort them by name,
    in the database's collation. *)

Definition CustomFieldSubnet : string := "subnet".
Definition CustomFieldAddress : string := "ip_address".
Definition CustomFieldDevice : string := "device".

Definition ValidCustomFieldEntityType (entityType : string) : bool :=
  bool_decide (entityType ∈ [CustomFieldSubnet; CustomFieldAddress; CustomFieldDevice]).

Definition with_fields (fields : gmap string CustomFieldDef) (values : gmap (string * string) string)
    (v : Inventory) : Inventory :=
  MkInventory (iv_settings v) (iv_subnets v) (iv_devices v) (iv_addresses v) (iv_macs v) (iv_discoveries v)
    (iv_rejections v) (iv_tags v) (iv_taggings v) fields values.

Definition field_exists (f : string → bool) (entityType : string) (v : Inventory) : bool :=
  existsb (λ p, bool_decide (cf_EntityType p.2 = entityType) && f (cf_Name p.2)) (map_to_list (iv_fields v)).

Definition insert_field (id entityType name : string) (now : Z) (v : Inventory) :
    result db_error (CustomFieldDef * Inventory) :=
  if bool_decide (is_Some (iv_fields v !! id)) || field_exists (λ n, bool_decide (n = name)) entityType v
  then Err ErrDuplicateKey
  else let d := MkCustomField entityType name "text" now in
       Ok (d, with_fields (<[id := d]> (iv_fields v)) (iv_values v) v).

Definition CreateCustomFieldDef (entityType name : string) : GoE Inventory (string * CustomFieldDef) :=
  let name := trim_space name in
  if negb (ValidCustomFieldEntityType entityType) then Ret (Err ErrInvalid)
  else if decide (name = "") then Ret (Err ErrInvalid)
  else
    exists_ ←? stmt (λ _ w,
      Ok (field_exists (λ n, bool_decide (lower n = lower name)) entityType (w_inv w), w));
    if (exists_ : bool) then Ret (Err ErrDuplicate)
    else
      id ←? random_token;
      stmt (λ now w, '(d, v) ← insert_field id entityType name now (w_inv w); Ok ((id, d), with_inv v w)).

(** The values of the field go with it. *)
Definition DeleteCustomFieldDef (id : string) : GoE Inventory unit :=
  stmt (λ _ w,
    if bool_decide (iv_fields (w_inv w) !! id = None) then Err ErrNotFound
    else Ok ((), with_inv (with_fields (delete id (iv_fields (w_inv w)))
                   (filter (λ p, p.1.1 ≠ id) (iv_values (w_inv w))) (w_inv w)) w)).

Definition field_ids (entityType : string) (v : Inventory) : list string :=
  omap (λ p, if bool_decide (cf_EntityType p.2 = entityType) then Some p.1 else None) (map_to_list (iv_fields v)).

(** One definition: absent from the form, cleared, or stored. *)
Definition set_value (entityID : string) (values : gmap string string) (v : Inventory) (id : string) :
    result db_error Inventory :=
  match values !! id with
  | None => Ok v
  | Some value =>
      let value := trim_space value in
      if decide (value = "") then Ok (with_fields (iv_fields v) (delete (id, entityID) (iv_values v)) v)
      else if bool_decide (iv_fields v !! id = None) then Err ErrForeignKey
      else Ok (with_fields (iv_fields v) (<[(id, entityID) := value]> (iv_values v)) v)
  end.

Fixpoint set_values (entityID : string) (values : gmap string string) (ids : list string) (v : Inventory) :
    result db_error Inventory :=
  match ids with
  | [] => Ok v
  | id :: ids => v ← set_value entityID values v id; set_values entityID values ids v
  end.

Definition SetCustomFieldValues (entityType entityID : string) (values : gmap string string) : GoE Inventory unit :=
  if decide (entityID = "") then Ret (Err ErrInvalid)
  else
    defs ←? stmt (λ _ w, Ok (field_ids entityType (w_inv w), w));
    if decide (defs = []) then Ret (Ok ())
    else stmt (λ _ w, v ← set_values entityID values defs (w_inv w); Ok ((), with_inv v w)).

(** [COALESCE(v.value, '')] for each definition. *)
Definition CustomFieldValues (entityType entityID : string) : GoE Inventory (list (string * string)) :=
  stmt (λ _ w,
    Ok (map (λ id, (id, default "" (iv_values (w_inv w) !! (id, entityID)))) (field_ids entityType (w_inv w)), w)).
End bulk.

(** ** Imported rows *)

Record SubnetImport : Type := MkSubnetImport
  { sm_SiteID : string; sm_CIDR : string; sm_Name : string; sm_VLAN : option Z; sm_Description : string }.
Record AddressImport : Type := MkAddressImport
  { am_Address : string; am_SubnetID : string; am_DeviceID : string; am_State : string;
    am_Hostname : string; am_Notes : string }.
Record DeviceImport : Type := MkDeviceImport { em_Name : string; em_Description : string }.

Section imports.
Context {env : Env}.
Context (inet_in cidr_in : string → option string).

(** The subnet with the CIDR; [UNIQUE (cidr)] leaves one at most. *)
Definition subnet_with_cidr (cidr : string) (v : Inventory) : option string :=
  (λ p, p.2.1) <$> list_find (λ p, sn_cidr p.2 = cidr) (map_to_list (iv_subnets v)).

Definition import_row_subnet (token : option string) (r : SubnetImport) (w : World Inventory) :
    result db_error (World Inventory) :=
  id ← of_option ErrToken token;
  c ← of_option ErrOutOfRange (cidr_in (sm_CIDR r));
  _ ← vlan_check (sm_VLAN r);
  if negb (match emptyToNil (sm_SiteID r) with None => true | Some s => bool_decide (s ∈ w_sites w) end)
  then Err ErrForeignKey
  else
    let row := MkSubnet (emptyToNil (sm_SiteID r)) c (sm_Name r) (sm_VLAN r) (sm_Description r) in
    match subnet_with_cidr c (w_inv w) with
    | Some old => Ok (with_inv (with_subnets (<[old := row]> (iv_subnets (w_inv w))) (w_inv w)) w)
    | None =>
        if bool_decide (is_Some (iv_subnets (w_inv w) !! id)) then Err ErrDuplicateKey
        else Ok (with_inv (with_subnets (<[id := row]> (iv_subnets (w_inv w))) (w_inv w)) w)
    end.

Definition import_row_address (token : option string) (r : AddressImport) (w : World Inventory) :
    result db_error (World Inventory) :=
  id ← of_option ErrToken token;
  ip ← of_option ErrOutOfRange (inet_in (am_Address r));
  if negb (state_in (am_State r)) then Err ErrOutOfRange
  else if negb (references (iv_subnets (w_inv w)) (emptyToNil (am_SubnetID r)) &&
                references (iv_devices (w_inv w)) (emptyToNil (am_DeviceID r))) then Err ErrForeignKey
  else
    let put id seen :=
      with_inv (with_addresses (<[ip := MkAddressRow id (emptyToNil (am_SubnetID r)) (emptyToNil (am_DeviceID r))
        (am_State r) (am_Hostname r) (am_Notes r) seen]> (iv_addresses (w_inv w))) (w_inv w)) w in
    match iv_addresses (w_inv w) !! ip with
    | Some old => Ok (put (ad_ID old) (ad_LastSeen old))
    | None => if has_address_id id (w_inv w) then Err ErrDuplicateKey else Ok (put id None)
    end.

(** The oldest device with the name. *)
Definition older (p q : string * Device) : string * Device :=
  if dv_Created q.2 <? dv_Created p.2 then q else p.
Definition device_named (name : string) (v : Inventory) : option string :=
  match filter (λ p, dv_Name p.2 = name) (map_to_list (iv_devices v)) with
  | [] => None
  | p :: l => Some (foldl older p l).1
  end.

Definition describe_device (description : string) (x : Device) : Device :=
  rename_device (dv_Name x) description x.

Definition import_row_device (token : option string) (now : Z) (r : DeviceImport) (w : World Inventory) :
    result db_error (World Inventory) :=
  match device_named (em_Name r) (w_inv w) with
  | Some id => Ok (with_inv (with_devices (alter (describe_device (em_Description r)) id (iv_devices (w_inv w))) (w_inv w)) w)
  | None =>
      id ← of_option ErrToken token;
      v ← insert_device id (em_Name r) (em_Description r) now (w_inv w);
      Ok (with_inv v w)
  end.

(** One transaction over the rows; each has the token it draws. *)
Fixpoint import_rows {A} (step : option string → A → World Inventory → result db_error (World Inventory))
    (rows : list (option string * A)) (w : World Inventory) : result db_error (World Inventory) :=
  match rows with
  | [] => Ok w
  | (token, r) :: rows => w ← step token r w; import_rows step rows w
  end.

Fixpoint draw_tokens {A} (rows : list A) : Go Inventory (list (option string * A)) :=
  match rows with
  | [] => Ret []
  | r :: rows => token ←! draw_token; rest ←! draw_tokens rows; Ret ((token, r) :: rest)
  end.

Definition ImportSubnets (rows : list SubnetImport) : GoE Inventory unit :=
  rows ←! draw_tokens rows;
  stmt (λ _ w, w ← import_rows import_row_subnet rows w; Ok ((), w)).
Definition ImportAddresses (rows : list AddressImport) : GoE Inventory unit :=
  rows ←! draw_tokens rows;
  stmt (λ _ w, w ← import_rows import_row_address rows w; Ok ((), w)).
Definition ImportDevices (rows : list DeviceImport) : GoE Inventory unit :=
  rows ←! draw_tokens rows;
  stmt (λ now w, w ← import_rows (λ token, import_row_device token now) rows w; Ok ((), w)).
End imports.
