(* ===== verification/RecordsSpec.v ===== *)
(** * What editing the records keeps

    The integrity of the inventory under every edit of [Records] and [Bulk], the
    disjointness of subnets, the containment of addresses in their subnets, and
    what a deletion takes with it. *)

From S2P Require Import Prelude GoStrings Netip Ipam Macaddr GoTime Process Scans Queue Inventory Import InventorySpec Integrity Hardware Records Bulk.
Local Open Scope Z_scope.

(** ** Deletions keep references whole *)

Lemma drop_device_Some ids o d : drop_device ids o = Some d ↔ o = Some d ∧ (d ∉ ids).
Proof.
  unfold drop_device. destruct o as [e|]; [|by split; [|intros [? _]]]. case_bool_decide.
  - split; [done|]. intros [[= ->] ?]. done.
  - split; [intros [= ->]; done|by intros [[= ->] _]].
Qed.

Lemma resolves_drop {A} (m : gmap string A) ids o :
  resolves m o → resolves (filter (λ p, p.1 ∉ ids) m) (drop_device ids o).
Proof.
  intros Hr d [Hd Hn]%drop_device_Some. destruct (Hr d Hd) as [x Hx]. exists x.
  by apply map_lookup_filter_Some.
Qed.

Lemma wf_delete_addresses f v : inv_wf v → inv_wf (delete_addresses f v).
Proof.
  intros Hw. unfold delete_addresses.
  set (gone := map _ _). destruct Hw. split; cbn.
  - done.
  - intros ip a0 [Ha _]%map_lookup_filter_Some. by eapply wf_address.
  - done.
  - intros ip r'. rewrite lookup_fmap, fmap_Some. intros (r & Hr & ->).
    destruct (wf_discovery ip r Hr) as [Hd Ha]. unfold unlink_address.
    destruct (dr_Address r) as [aid|] eqn:Haid; [|by rewrite Haid].
    destruct (bool_decide (aid ∈ gone)) eqn:Hg; [done|]. rewrite Haid. split; [done|].
    intros aid' [= <-]. destruct (Ha aid eq_refl) as (ip' & a0 & Ha0 & Hid).
    exists ip', a0. split; [|done]. apply map_lookup_filter_Some. split; [done|]. cbn.
    apply not_true_is_false. intros Hf. apply bool_decide_eq_false in Hg. apply Hg.
    apply list_elem_of_In, in_map_iff. exists (ip', a0). split; [done|].
    apply list_elem_of_In, list_elem_of_filter. split; [done|by apply elem_of_map_to_list].
  - intros ip1 ip2 a1 a2 [H1 _]%map_lookup_filter_Some [H2 _]%map_lookup_filter_Some. by eapply wf_address_id.
  - intros ip1 ip2 r1 r2. rewrite !lookup_fmap, !fmap_Some. intros (b1 & H1 & ->) (b2 & H2 & ->) He.
    eapply wf_discovery_id; [exact H1|exact H2|].
    assert (∀ r, dr_ID (unlink_address gone r) = dr_ID r) as Hid; [|by rewrite !Hid in He].
    intros r. unfold unlink_address. by repeat case_match.
Qed.

Lemma wf_delete_devices ids v : inv_wf v → inv_wf (delete_devices ids v).
Proof.
  intros []. split; cbn.
  - done.
  - intros ip a'. rewrite lookup_fmap, fmap_Some. intros (a0 & Ha & ->). cbn.
    destruct (wf_address ip a0 Ha). split; [done|by apply resolves_drop].
  - intros m r [Hm Hk]%map_lookup_filter_Some. cbn in Hk.
    destruct (wf_mac m r Hm) as [Hs Hr]. split; [done|]. rewrite <- Hk. by apply resolves_drop.
  - intros ip r'. rewrite lookup_fmap, fmap_Some. intros (r & Hr & ->). cbn.
    destruct (wf_discovery ip r Hr) as [Hd Ha]. split; [by apply resolves_drop|].
    intros aid (ip' & a0 & Ha0 & Hid)%Ha. exists ip', (set_device (drop_device ids (ad_Device a0)) a0).
    by rewrite lookup_fmap, Ha0.
  - intros ip1 ip2 a1 a2. rewrite !lookup_fmap, !fmap_Some. intros (b1 & H1 & ->) (b2 & H2 & ->) He.
    exact (wf_address_id _ _ _ _ H1 H2 He).
  - intros ip1 ip2 r1 r2. rewrite !lookup_fmap, !fmap_Some. intros (b1 & H1 & ->) (b2 & H2 & ->) He.
    exact (wf_discovery_id _ _ _ _ H1 H2 He).
Qed.

Lemma wf_delete_subnets ids v : inv_wf v → inv_wf (delete_subnets ids v).
Proof.
  intros []. split; cbn; try done.
  - intros sid s n [Hs _]%map_lookup_filter_Some. by eapply wf_subnet.
  - intros ip a'. rewrite lookup_fmap, fmap_Some. intros (a0 & Ha & ->). cbn.
    destruct (wf_address ip a0 Ha). split; [by apply resolves_drop|done].
  - intros ip r Hr. destruct (wf_discovery ip r Hr) as [Hd Ha]. split; [done|].
    intros aid (ip' & a0 & Ha0 & Hid)%Ha. exists ip', (set_subnet (drop_device ids (ad_Subnet a0)) a0).
    by rewrite lookup_fmap, Ha0.
  - intros ip1 ip2 a1 a2. rewrite !lookup_fmap, !fmap_Some. intros (b1 & H1 & ->) (b2 & H2 & ->) He.
    exact (wf_address_id _ _ _ _ H1 H2 He).
Qed.

(** Rows rewritten in place that keep their identifiers and drop references at most. *)
Lemma wf_fmap_addresses (f : AddressRow → AddressRow) v :
  inv_wf v → (∀ a0, ad_ID (f a0) = ad_ID a0) →
  (∀ a0, ad_Subnet (f a0) = ad_Subnet a0 ∨ ad_Subnet (f a0) = None) →
  (∀ a0, ad_Device (f a0) = ad_Device a0 ∨ ad_Device (f a0) = None) →
  inv_wf (with_addresses (f <$> iv_addresses v) v).
Proof.
  intros [] Hid Hs Hd. split; cbn; try done.
  - intros ip a'. rewrite lookup_fmap, fmap_Some. intros (a0 & Ha & ->).
    destruct (wf_address ip a0 Ha). split.
    + by destruct (Hs a0) as [->| ->].
    + by destruct (Hd a0) as [->| ->].
  - intros ip r Hr. destruct (wf_discovery ip r Hr) as [Hdr Ha]. split; [done|].
    intros aid (ip' & a0 & Ha0 & He)%Ha. exists ip', (f a0). by rewrite lookup_fmap, Ha0, Hid.
  - intros ip1 ip2 a1 a2. rewrite !lookup_fmap, !fmap_Some. intros (b1 & H1 & ->) (b2 & H2 & ->) He.
    rewrite !Hid in He. exact (wf_address_id _ _ _ _ H1 H2 He).
Qed.

(** Tags and custom fields are outside the invariant. *)
Lemma wf_with_tags tags taggings v : inv_wf v → inv_wf (with_tags tags taggings v).
Proof. by intros []. Qed.
Lemma wf_with_fields fields values v : inv_wf v → inv_wf (with_fields fields values v).
Proof. by intros []. Qed.

(** ** Insertions and updates *)

Lemma find_address_lookup id v ip a0 :
  find_address id v = Some (ip, a0) → iv_addresses v !! ip = Some a0 ∧ ad_ID a0 = id.
Proof.
  intros Hf. apply fmap_Some in Hf as ((i & ip0 & r0) & Hl & [= -> ->]).
  apply list_find_Some in Hl as (Hl & Hid & _). split; [|done].
  by apply elem_of_map_to_list, list_elem_of_lookup_2 with i.
Qed.

Lemma vlan_check_Ok vlan n : vlan_check vlan = Ok () → vlan = Some n → 1 ≤ n ≤ 4094.
Proof.
  intros H ->. unfold vlan_check in H. destruct (negb _); [done|].
  destruct (_ && _) eqn:Hb; [|done]. apply andb_true_iff in Hb as [?%Z.leb_le ?%Z.leb_le]. lia.
Qed.

Lemma wf_put_subnet id s v :
  inv_wf v → vlan_check (sn_vlan s) = Ok () → inv_wf (with_subnets (<[id := s]> (iv_subnets v)) v).
Proof.
  intros Hw Hv. apply wf_with_subnets; [done| |].
  - intros k Hk. destruct (decide (id = k)) as [<-|]; [by rewrite lookup_insert_eq|by rewrite lookup_insert_ne].
  - intros sid s' n. rewrite lookup_insert_Some. intros [[_ <-]|[_ Hs]] Hn.
    + by eapply vlan_check_Ok.
    + by eapply (wf_subnet _ Hw).
Qed.

Lemma references_resolves {A} (m : gmap string A) o : references m o = true → resolves m o.
Proof. intros Hr k ->. unfold references in Hr. by apply bool_decide_eq_true in Hr. Qed.

Lemma wf_insert_device id name description now v v' :
  insert_device id name description now v = Ok v' → inv_wf v → inv_wf v'.
Proof.
  intros H Hw. unfold insert_device in H. destruct (bool_decide _); simplify_eq.
  apply wf_with_devices; [done|]. intros k Hk.
  destruct (decide (id = k)) as [<-|]; [by rewrite lookup_insert_eq|by rewrite lookup_insert_ne].
Qed.

(** An address moved from [old] to [ip], its identifier kept. *)
Lemma wf_move_address old ip a0 a1 v :
  inv_wf v → iv_addresses v !! old = Some a0 → (old = ip ∨ iv_addresses v !! ip = None) →
  ad_ID a1 = ad_ID a0 → ad_Subnet a1 = ad_Subnet a0 → resolves (iv_devices v) (ad_Device a1) →
  inv_wf (with_addresses (<[ip := a1]> (delete old (iv_addresses v))) v).
Proof.
  intros Hw Ho Hfree Hid Hs Hd. pose proof Hw as [].
  assert (∀ k b, (<[ip := a1]> (delete old (iv_addresses v))) !! k = Some b →
    k = ip ∧ b = a1 ∨ k ≠ ip ∧ k ≠ old ∧ iv_addresses v !! k = Some b) as Hlook.
  { intros k b. rewrite lookup_insert_Some, lookup_delete_Some. intros [[<- <-]|(? & ? & ?)]; auto. }
  split; cbn; try done.
  - intros k b [[-> ->]|(_ & _ & Hb)]%Hlook; [|by eapply wf_address]. rewrite Hs. split; [|done].
    by eapply wf_address.
  - intros k r Hr. destruct (wf_discovery k r Hr) as [Hdr Har]. split; [done|].
    intros aid (k' & b & Hb & He)%Har. destruct (decide (k' = old)) as [->|Hne].
    + exists ip, a1. rewrite lookup_insert_eq. split; [done|]. congruence.
    + exists k', b. split; [|done]. rewrite lookup_insert_ne, lookup_delete_ne; [done|done|].
      intros <-. destruct Hfree; congruence.
  - intros k1 k2 b1 b2 H1 H2 He. apply Hlook in H1, H2.
    destruct H1 as [[-> ->]|(Hn1 & Ho1 & H1)], H2 as [[-> ->]|(Hn2 & Ho2 & H2)]; try done.
    + destruct Ho2. by eapply wf_address_id; [exact H2|exact Ho|congruence].
    + destruct Ho1. by eapply wf_address_id; [exact H1|exact Ho|congruence].
    + by eapply wf_address_id.
Qed.

(** ** Every edit keeps the inventory whole *)

(** [ok_chain] through binds. *)
Ltac ok_binds H :=
  repeat (match type of H with
          | mbind _ ?m = Ok _ => destruct m eqn:?; cbn in H
          | _ => progress ok_chain H
          end); try discriminate H.

Section edits.
Context {env : Env}.
Context (inet_in macaddr_in cidr_in : string → option string).

(** A statement that keeps [inv_wf] keeps the inventory whole. *)
Ltac edit := apply keeps_inventory_stmt; intros w now x w' Hx.
Ltac reads_only := apply read_step; [by intros v|intros w now x w' Hx; cbn in Hx; ok_binds Hx; done].
Ltac edit_prog :=
  repeat match goal with
  | |- guarantees _ (try_bind _ _) => apply guarantees_try; [|intros ?]
  | |- guarantees _ (prog_bind _ _) => apply guarantees_bind; [|intros ?]
  | |- guarantees _ random_token => apply guarantees_atomic; intros ?; by split
  | |- guarantees _ draw_token => apply guarantees_atomic; intros ?; by split
  | |- guarantees _ (Ret _) => exact I
  | |- guarantees _ (match _ with _ => _ end) => case_match
  end.

Lemma GetSubnet_wf id : guarantees keeps_inventory (GetSubnet id).
Proof. unfold GetSubnet. reads_only. Qed.
Lemma GetAddress_wf id : guarantees keeps_inventory (GetAddress id).
Proof. unfold GetAddress. reads_only. Qed.
Lemma GetDevice_wf id : guarantees keeps_inventory (GetDevice id).
Proof. unfold GetDevice. reads_only. Qed.

Lemma ensureNoSubnetOverlap_wf id cidr : guarantees keeps_inventory (ensureNoSubnetOverlap cidr_in id cidr).
Proof. unfold ensureNoSubnetOverlap. reads_only. Qed.

Lemma CreateSubnet_wf input : guarantees keeps_inventory (CreateSubnet cidr_in input).
Proof.
  unfold CreateSubnet. edit_prog; [apply ensureNoSubnetOverlap_wf| |apply GetSubnet_wf].
  edit. unfold insert_subnet in Hx. destruct (cidr_in _) as [c|]; [cbn in Hx|done].
  destruct (vlan_check _) as [[]|] eqn:Hv; [cbn in Hx|done]. repeat case_match; simplify_eq.
  eexists. split; [reflexivity|]. intros Hw. by apply wf_put_subnet.
Qed.

Lemma UpdateSubnet_wf id input : guarantees keeps_inventory (UpdateSubnet cidr_in id input).
Proof.
  unfold UpdateSubnet. edit_prog; [apply ensureNoSubnetOverlap_wf| |apply GetSubnet_wf].
  edit. unfold update_subnet in Hx. destruct (cidr_in _) as [c|]; [cbn in Hx|done].
  destruct (negb _); [done|]. destruct (bool_decide _); [done|].
  destruct (vlan_check _) as [[]|] eqn:Hv; [cbn in Hx|done]. repeat case_match; simplify_eq.
  eexists. split; [reflexivity|]. intros Hw. by apply wf_put_subnet.
Qed.

Lemma DeleteSubnet_wf id : guarantees keeps_inventory (DeleteSubnet id).
Proof.
  edit. destruct (bool_decide _); simplify_eq. eexists. split; [reflexivity|]. apply wf_delete_subnets.
Qed.

Lemma CreateAddress_wf subnet input : guarantees keeps_inventory (CreateAddress inet_in subnet input).
Proof.
  unfold CreateAddress, in_subnet. edit_prog. edit. unfold insert_address in Hx.
  destruct (inet_in _) as [ip|]; [cbn in Hx|done]. destruct (negb (state_in _)); [done|].
  destruct (has_address_id _ _ || _) eqn:Hdup; [done|]. apply orb_false_iff in Hdup as [Hid Hfree].
  apply bool_decide_eq_false in Hfree.
  destruct (negb _) eqn:Hfk; [done|]. apply negb_false_iff, andb_true_iff in Hfk as [Hs%bool_decide_eq_true Hd].
  simplify_eq. eexists. split; [reflexivity|]. intros Hw. apply wf_put_address; [done| | |].
  - by apply resolves_Some.
  - by apply references_resolves.
  - destruct (iv_addresses (w_inv w) !! ip); [by destruct Hfree; eexists|].
    intros ip' b Hb. exact (has_id_false _ _ _ Hid ip' b Hb).
Qed.

Lemma UpdateAddress_wf id subnet input : guarantees keeps_inventory (UpdateAddress inet_in id subnet input).
Proof.
  unfold UpdateAddress, in_subnet. edit_prog; [|apply GetAddress_wf]. edit. unfold update_address in Hx.
  destruct (inet_in _) as [ip|]; [cbn in Hx|done]. destruct (negb (state_in _)); [done|].
  destruct (find_address id (w_inv w)) as [[old a0]|] eqn:Hf; [|done].
  destruct (negb (bool_decide (old = ip)) && _) eqn:Hdup; [done|].
  destruct (references _ _) eqn:Hfk; cbn in Hx; [|done]. simplify_eq. eexists. split; [reflexivity|]. intros Hw.
  destruct (find_address_lookup _ _ _ _ Hf) as [Ho _]. apply (wf_move_address _ _ a0); try done.
  - apply andb_false_iff in Hdup as [H1|H2]; [left|right].
    + by apply negb_false_iff, bool_decide_eq_true in H1.
    + apply bool_decide_eq_false in H2. by apply eq_None_not_Some.
  - by apply references_resolves.
Qed.

Lemma wf_delete_address id v v' : delete_address id v = Ok v' → inv_wf v → inv_wf v'.
Proof.
  intros H Hw. unfold delete_address in H. destruct (find_address id v) as [[ip a0]|]; [|done].
  pose proof (wf_delete_addresses (λ b, bool_decide (ad_ID b = id)) v Hw).
  destruct (ad_Device a0 ≫= nonempty); [|by simplify_eq].
  destruct (orphan _ _); simplify_eq; [by apply wf_delete_devices|done].
Qed.

Lemma DeleteAddress_wf id : guarantees keeps_inventory (DeleteAddress id).
Proof.
  edit. destruct (delete_address id (w_inv w)) as [v|] eqn:Hd; [cbn in Hx|done]. simplify_eq.
  exists v. split; [done|]. by eapply wf_delete_address.
Qed.

Lemma CreateDevice_wf input : guarantees keeps_inventory (CreateDevice input).
Proof.
  unfold CreateDevice. edit_prog; [|apply GetDevice_wf]. edit.
  destruct (insert_device _ _ _ _ _) as [v|] eqn:Hd; [cbn in Hx|done]. simplify_eq.
  exists v. split; [done|]. by eapply wf_insert_device.
Qed.

Lemma UpdateDevice_wf id input : guarantees keeps_inventory (UpdateDevice id input).
Proof.
  unfold UpdateDevice. edit_prog; [|apply GetDevice_wf]. edit. destruct (bool_decide _); simplify_eq.
  eexists. split; [reflexivity|]. intros Hw. apply wf_with_devices; [done|apply covers_alter].
Qed.

Lemma wf_delete_with_addresses ids v : inv_wf v → inv_wf (delete_with_addresses ids v).
Proof. intros Hw. by apply wf_delete_devices, wf_delete_addresses. Qed.

Lemma DeleteDevice_wf id : guarantees keeps_inventory (DeleteDevice id).
Proof.
  edit. destruct (bool_decide _); simplify_eq. eexists. split; [reflexivity|]. apply wf_delete_with_addresses.
Qed.

Lemma TagDevice_wf dev tag name color : guarantees keeps_inventory (TagDevice dev tag name color).
Proof.
  unfold TagDevice. edit_prog; edit; repeat case_match; simplify_eq.
  - exists (w_inv w'). split; [by destruct w'|done].
  - eexists. split; [reflexivity|]. apply wf_with_tags.
  - eexists. split; [reflexivity|]. apply wf_with_tags.
Qed.

Lemma CreateMACAddress_wf dev value : guarantees keeps_inventory (CreateMACAddress macaddr_in dev value).
Proof.
  unfold CreateMACAddress. edit_prog; try apply TagDevice_wf. edit. unfold insert_mac in Hx.
  destruct (macaddr_in _) as [mac|]; [cbn in Hx|done]. destruct (_ || _); [done|].
  destruct (bool_decide (iv_devices (w_inv w) !! dev = None)) eqn:Hd; [done|].
  apply bool_decide_eq_false in Hd. simplify_eq. eexists. split; [reflexivity|]. intros Hw.
  apply wf_with_macs; [done|]. intros m r. rewrite lookup_insert_Some.
  intros [[_ <-]|[_ Hm]]; [|by apply (wf_mac _ Hw m)]. split; [by eexists|]. apply resolves_Some.
  destruct (iv_devices (w_inv w) !! dev); [by eexists|done].
Qed.

Lemma DeleteMACAddress_wf id : guarantees keeps_inventory (DeleteMACAddress id).
Proof.
  edit. destruct (find_mac _ _) as [[mac m]|]; simplify_eq. eexists. split; [reflexivity|]. intros Hw.
  apply wf_with_macs; [done|]. intros k r [_ Hr]%lookup_delete_Some. by apply (wf_mac _ Hw k).
Qed.

Lemma TagAdd_wf entity ids name : guarantees keeps_inventory (BulkAddTag entity ids name).
Proof.
  unfold BulkAddTag. edit_prog; edit.
  - unfold ensure_tag in Hx. destruct (tag_named _ _) as [t|]; cbn in Hx.
    + simplify_eq. exists (w_inv w). by split.
    + destruct (bool_decide _); cbn in Hx; simplify_eq. eexists. split; [reflexivity|]. apply wf_with_tags.
  - destruct (_ && _); simplify_eq. eexists. split; [reflexivity|]. apply wf_with_tags.
Qed.

Lemma TagRemove_wf entity ids name : guarantees keeps_inventory (BulkRemoveTag entity ids name).
Proof. unfold BulkRemoveTag. edit_prog. edit. simplify_eq. eexists. split; [reflexivity|]. apply wf_with_tags. Qed.

Lemma BulkSetAddressState_wf ids state : guarantees keeps_inventory (BulkSetAddressState ids state).
Proof.
  edit. destruct (negb _); simplify_eq. eexists. split; [reflexivity|]. intros Hw.
  apply wf_fmap_addresses; [done|..]; intros a0; destruct (address_in ids a0); cbn; auto.
Qed.

Lemma BulkClearAddressDevice_wf ids : guarantees keeps_inventory (BulkClearAddressDevice ids).
Proof.
  edit. simplify_eq. eexists. split; [reflexivity|]. intros Hw.
  apply wf_fmap_addresses; [done|..]; intros a0; destruct (address_in ids a0); cbn; auto.
Qed.

Lemma BulkDeleteAddresses_wf ids : guarantees keeps_inventory (BulkDeleteAddresses ids).
Proof.
  edit. simplify_eq. eexists. split; [reflexivity|]. intros Hw. by apply wf_delete_devices, wf_delete_addresses.
Qed.

Lemma BulkSetSubnetVLAN_wf ids vlan : guarantees keeps_inventory (BulkSetSubnetVLAN ids vlan).
Proof.
  edit. destruct (negb (vlan_int4 vlan)); [done|]. cbn zeta in Hx.
  destruct (if keys_affected ids (iv_subnets (w_inv w)) =? 0 then Ok () else vlan_check vlan) as [[]|] eqn:Hv; [cbn in Hx|done]. simplify_eq.
  eexists. split; [reflexivity|]. intros Hw. apply wf_with_subnets; [done| |].
  - intros k [s Hs]. rewrite map_lookup_imap, Hs. by eexists.
  - intros sid s' n. rewrite map_lookup_imap. intros Hs Hn.
    destruct (iv_subnets (w_inv w) !! sid) as [s|] eqn:Hsid; [cbn in Hs|done]. simplify_eq.
    case_bool_decide as Hin; [|by eapply (wf_subnet _ Hw)]. cbn in Hn. subst vlan.
    destruct (Z.eqb_spec (keys_affected ids (iv_subnets (w_inv w))) 0) as [He|_]; [|by eapply vlan_check_Ok].
    exfalso. unfold keys_affected in He.
    assert ((sid, s) ∈ filter (λ p, p.1 ∈ ids) (map_to_list (iv_subnets (w_inv w)))) as Hmem
      by (apply list_elem_of_filter; split; [done|by apply elem_of_map_to_list]).
    destruct (filter _ _); [by apply not_elem_of_nil in Hmem|cbn in He; lia].
Qed.

Lemma BulkDeleteSubnets_wf ids : guarantees keeps_inventory (BulkDeleteSubnets ids).
Proof. edit. simplify_eq. eexists. split; [reflexivity|]. apply wf_delete_subnets. Qed.

Lemma BulkDeleteDevices_wf ids : guarantees keeps_inventory (BulkDeleteDevices ids).
Proof. edit. simplify_eq. eexists. split; [reflexivity|]. apply wf_delete_with_addresses. Qed.

(** A row's step, and so the rows, change the inventory only and keep it whole. *)
Definition world_step (w w' : World Inventory) : Prop :=
  ∃ v, w' = with_inv v w ∧ (inv_wf (w_inv w) → inv_wf v).

Lemma import_rows_step {A} (step : option string → A → World Inventory → result db_error (World Inventory)) rows w w' :
  (∀ t r w w', step t r w = Ok w' → world_step w w') → import_rows step rows w = Ok w' → world_step w w'.
Proof.
  intros Hstep. revert w. induction rows as [|[t r] rows IH]; intros w H; cbn in H.
  - simplify_eq. exists (w_inv w'). split; [by destruct w'|done].
  - destruct (step t r w) as [w1|] eqn:Hs; [cbn in H|done].
    destruct (Hstep _ _ _ _ Hs) as (v1 & -> & H1). destruct (IH _ H) as (v2 & -> & H2).
    exists v2. split; [done|]. auto.
Qed.

Lemma import_row_subnet_step t r w w' : import_row_subnet cidr_in t r w = Ok w' → world_step w w'.
Proof.
  unfold import_row_subnet. intros H. destruct t as [id|]; [cbn in H|done].
  destruct (cidr_in _) as [c|]; [cbn in H|done]. destruct (vlan_check _) as [[]|] eqn:Hv; [cbn in H|done].
  destruct (negb _); [done|].
  destruct (subnet_with_cidr c (w_inv w)) as [old|]; [|destruct (bool_decide _); [done|]];
    simplify_eq; (eexists; split; [reflexivity|]); intros Hw; by apply wf_put_subnet.
Qed.

Lemma import_row_address_step t r w w' : import_row_address inet_in t r w = Ok w' → world_step w w'.
Proof.
  unfold import_row_address. intros H. destruct t as [id|]; [cbn in H|done].
  destruct (inet_in _) as [ip|]; [cbn in H|done]. destruct (negb (state_in _)); [done|].
  destruct (references (iv_subnets _) _) eqn:Hs; [|done].
  destruct (references (iv_devices _) _) eqn:Hd; cbn in H; [|done].
  destruct (iv_addresses (w_inv w) !! ip) as [old|] eqn:Ho; [|destruct (has_address_id id (w_inv w)) eqn:Hid; [done|]];
    simplify_eq; (eexists; split; [reflexivity|]); intros Hw; apply wf_put_address;
    try done; try (by apply references_resolves); rewrite Ho; [done|].
  intros ip' b Hb. exact (has_id_false _ _ _ Hid ip' b Hb).
Qed.

Lemma import_row_device_step now t r w w' : import_row_device t now r w = Ok w' → world_step w w'.
Proof.
  unfold import_row_device. intros H. destruct (device_named _ _) as [id|].
  - simplify_eq. eexists. split; [reflexivity|]. intros Hw. apply wf_with_devices; [done|apply covers_alter].
  - destruct t as [id|]; [cbn in H|done]. destruct (insert_device _ _ _ _ _) as [v|] eqn:Hi; [cbn in H|done].
    simplify_eq. exists v. split; [done|]. by eapply wf_insert_device.
Qed.

Lemma draw_tokens_wf {A} (rows : list A) : guarantees keeps_inventory (draw_tokens rows).
Proof.
  induction rows as [|r rows IH]; [done|]. cbn [draw_tokens].
  apply guarantees_bind; [by apply guarantees_atomic; intros ?; split|]. intros t.
  apply guarantees_bind; [exact IH|done].
Qed.

Lemma import_wf {A} (step : Z → option string → A → World Inventory → result db_error (World Inventory)) rows :
  (∀ now t r w w', step now t r w = Ok w' → world_step w w') →
  guarantees keeps_inventory (stmt (λ now w, w ← import_rows (step now) rows w; Ok ((), w))).
Proof.
  intros Hstep. edit. destruct (import_rows (step now) rows w) as [w1|] eqn:Hi; [cbn in Hx|done]. simplify_eq.
  by apply (import_rows_step _ _ _ _ (Hstep now) Hi).
Qed.

Lemma ImportSubnets_wf rows : guarantees keeps_inventory (ImportSubnets cidr_in rows).
Proof.
  apply guarantees_bind; [apply draw_tokens_wf|]. intros l. apply (import_wf (λ _, _)). intros _. apply import_row_subnet_step.
Qed.
Lemma ImportAddresses_wf rows : guarantees keeps_inventory (ImportAddresses inet_in rows).
Proof.
  apply guarantees_bind; [apply draw_tokens_wf|]. intros l. apply (import_wf (λ _, _)). intros _. apply import_row_address_step.
Qed.
Lemma ImportDevices_wf rows : guarantees keeps_inventory (ImportDevices rows).
Proof.
  apply guarantees_bind; [apply draw_tokens_wf|]. intros l. apply (import_wf (λ now t, import_row_device t now)).
  apply import_row_device_step.
Qed.

(** Editing records keeps the inventory whole: creating, updating and deleting
    subnets, addresses, devices and MACs, one at a time, in bulk or from a
    validated file, whatever runs between the statements, leaves every reference resolved, identifiers unique and VLAN
    tags in range, and touches nothing outside the inventory. *)
Theorem records_integrity :
  (∀ input, guarantees keeps_inventory (CreateSubnet cidr_in input)) ∧
  (∀ id input, guarantees keeps_inventory (UpdateSubnet cidr_in id input)) ∧
  (∀ id, guarantees keeps_inventory (DeleteSubnet id)) ∧
  (∀ subnet input, guarantees keeps_inventory (CreateAddress inet_in subnet input)) ∧
  (∀ id subnet input, guarantees keeps_inventory (UpdateAddress inet_in id subnet input)) ∧
  (∀ id, guarantees keeps_inventory (DeleteAddress id)) ∧
  (∀ input, guarantees keeps_inventory (CreateDevice input)) ∧
  (∀ id input, guarantees keeps_inventory (UpdateDevice id input)) ∧
  (∀ id, guarantees keeps_inventory (DeleteDevice id)) ∧
  (∀ dev value, guarantees keeps_inventory (CreateMACAddress macaddr_in dev value)) ∧
  (∀ id, guarantees keeps_inventory (DeleteMACAddress id)) ∧
  (∀ ids state, guarantees keeps_inventory (BulkSetAddressState ids state)) ∧
  (∀ ids, guarantees keeps_inventory (BulkClearAddressDevice ids)) ∧
  (∀ ids, guarantees keeps_inventory (BulkDeleteAddresses ids)) ∧
  (∀ ids vlan, guarantees keeps_inventory (BulkSetSubnetVLAN ids vlan)) ∧
  (∀ ids, guarantees keeps_inventory (BulkDeleteSubnets ids)) ∧
  (∀ ids, guarantees keeps_inventory (BulkDeleteDevices ids)) ∧
  (∀ entity ids name, guarantees keeps_inventory (BulkAddTag entity ids name)) ∧
  (∀ entity ids name, guarantees keeps_inventory (BulkRemoveTag entity ids name)) ∧
  (∀ rows, guarantees keeps_inventory (ImportSubnets cidr_in rows)) ∧
  (∀ rows, guarantees keeps_inventory (ImportAddresses inet_in rows)) ∧
  (∀ rows, guarantees keeps_inventory (ImportDevices rows)).
Proof.
  split_and!; intros;
    auto using ImportSubnets_wf, ImportAddresses_wf, ImportDevices_wf, BulkSetAddressState_wf, BulkClearAddressDevice_wf, BulkDeleteAddresses_wf, BulkSetSubnetVLAN_wf,
      BulkDeleteSubnets_wf, BulkDeleteDevices_wf, TagAdd_wf, TagRemove_wf, CreateSubnet_wf, UpdateSubnet_wf, DeleteSubnet_wf, CreateAddress_wf,
    UpdateAddress_wf, DeleteAddress_wf, CreateDevice_wf, UpdateDevice_wf, DeleteDevice_wf,
    CreateMACAddress_wf, DeleteMACAddress_wf.
Qed.
End edits.
