(* ===== verification/Placement.v ===== *)
(** * Where addresses live

    Subnets do not overlap and addresses lie in their subnets: what the store's
    checks promise of [Records], which statements keep it, and what a deletion
    takes with it. *)

From S2P Require Import Prelude GoStrings Netip Ipam Macaddr GoTime Process Scans Queue Inventory Import InventorySpec Integrity Hardware Records Bulk RecordsSpec.
Local Open Scope Z_scope.

(** ** Overlap is a common address *)

Lemma mask_shift w b : 0 ≤ b ≤ w → mask w b = Z.shiftl (Z.ones b) (w - b).
Proof.
  intros Hb. unfold mask. rewrite Z.shiftl_mul_pow2, Z.ones_equiv by lia.
  replace w with (b + (w - b)) at 1 by lia. rewrite Z.pow_add_r by lia. lia.
Qed.

Lemma mask_coarser w b c : 0 ≤ b ≤ c → c ≤ w → Z.land (mask w c) (mask w b) = mask w b.
Proof.
  intros Hb Hc. rewrite !mask_shift by lia. apply Z.bits_inj'. intros n Hn.
  rewrite Z.land_spec, !Z.shiftl_spec by lia.
  destruct (Z.lt_ge_cases n (w - b)) as [Hlt|Hge].
  - by rewrite (Z.testbit_neg_r _ (n - (w - b))), andb_false_r by lia.
  - destruct (Z.lt_ge_cases n w).
    + by rewrite !Z.ones_spec_low by lia.
    + by rewrite !Z.ones_spec_high by lia.
Qed.

(** Equal under a mask, equal under a coarser one. *)
Lemma land_coarser w b c x v :
  0 ≤ b ≤ c → c ≤ w → Z.land (Z.lxor x v) (mask w c) = 0 → Z.land x (mask w b) = Z.land v (mask w b).
Proof.
  intros Hb Hc H. rewrite <- (mask_coarser w b c) by lia. rewrite !Z.land_assoc. f_equal.
  apply Z.bits_inj'. intros n Hn. apply (f_equal (λ z, Z.testbit z n)) in H.
  rewrite Z.land_spec, Z.lxor_spec, Z.bits_0 in H. rewrite !Z.land_spec.
  by destruct (Z.testbit x n), (Z.testbit v n), (Z.testbit (mask w c) n).
Qed.

Lemma parse_prefix_bits s p : parse_prefix s = Some p → 0 ≤ pfx_bits p ≤ bit_len (pfx_addr p).
Proof. by intros (x & y & _ & _ & _ & Hb)%parse_prefix_Some. Qed.

(** Subnets with an address in common overlap, in either family. *)
Lemma cidr_overlap_common c d ip :
  cidr_contains c ip = true → cidr_contains d ip = true → cidr_overlap c d = true.
Proof.
  unfold cidr_contains, cidr_overlap. destruct (parse_prefix c) as [p|] eqn:Hp; [|done].
  destruct (parse_prefix d) as [o|] eqn:Ho; [|by destruct (parse_addr ip)].
  destruct (parse_addr ip) as [[x|x z]|]; [| |done]; intros H1 H2.
  - assert (is4 (pfx_addr p) = true) as H4p by by destruct p as [[]].
    assert (is4 (pfx_addr o) = true) as H4o by by destruct o as [[]].
    apply prefix_overlaps4; try done; [by eapply parse_prefix4_wf|by eapply parse_prefix4_wf|by exists x].
  - pose proof (parse_prefix_bits _ _ Hp) as Hbp. pose proof (parse_prefix_bits _ _ Ho) as Hbo.
    destruct p as [[v|v zp] b], o as [[u|u zo] e]; try done. cbn in Hbp, Hbo, H1, H2.
    apply andb_true_iff in H1 as [_ H1%Z.eqb_eq], H2 as [_ H2%Z.eqb_eq].
    unfold prefix_overlaps. cbn. apply orb_true_iff. right. apply Z.eqb_eq.
    transitivity (Z.land x (mask 128 (Z.min b e))); [symmetry|].
    + by apply (land_coarser 128 _ b); [lia|lia|].
    + by apply (land_coarser 128 _ e); [lia|lia|].
Qed.

Lemma prefix_overlaps_comm p o : prefix_overlaps p o = prefix_overlaps o p.
Proof.
  unfold prefix_overlaps. rewrite (Z.min_comm (pfx_bits o)), (Z.eqb_sym (addr_val (pfx_addr (prefix_masked (PrefixFrom (pfx_addr o) _))))).
  f_equal. apply bool_decide_ext. by split.
Qed.

Lemma cidr_overlap_comm c d : cidr_overlap c d = cidr_overlap d c.
Proof.
  unfold cidr_overlap. destruct (parse_prefix c), (parse_prefix d); try done. apply prefix_overlaps_comm.
Qed.

(** ** Disjoint subnets *)

Definition subnets_disjoint (v : Inventory) : Prop :=
  ∀ i j s t, iv_subnets v !! i = Some s → iv_subnets v !! j = Some t → i ≠ j →
    cidr_overlap (sn_cidr s) (sn_cidr t) = false.

(** An address is in one subnet at most. *)
Definition one_subnet (v : Inventory) : Prop :=
  ∀ ip i j s t, iv_subnets v !! i = Some s → iv_subnets v !! j = Some t →
    cidr_contains (sn_cidr s) ip = true → cidr_contains (sn_cidr t) ip = true → i = j.

Lemma disjoint_one_subnet v : subnets_disjoint v → one_subnet v.
Proof.
  intros Hd ip i j s t Hi Hj Hs Ht. destruct (decide (i = j)) as [|Hne]; [done|].
  pose proof (cidr_overlap_common _ _ _ Hs Ht) as Ho. by rewrite (Hd i j s t) in Ho.
Qed.

Lemma overlapping_false existing c v :
  overlapping existing c v = false →
  ∀ i s, iv_subnets v !! i = Some s → (existing = "" ∨ i ≠ existing) → cidr_overlap (sn_cidr s) c = false.
Proof.
  intros Ho i s Hs Hi. apply not_true_is_false. intros Hc. apply not_true_iff_false in Ho. apply Ho.
  apply existsb_exists. exists (i, s). split; [by apply list_elem_of_In, elem_of_map_to_list|]. cbn.
  rewrite Hc, andb_true_l. apply orb_true_iff. destruct Hi as [->|Hi].
  - left. by apply bool_decide_eq_true.
  - right. by apply negb_true_iff, bool_decide_eq_false.
Qed.

Lemma disjoint_put id c s v :
  subnets_disjoint v → sn_cidr s = c →
  (∀ i t, iv_subnets v !! i = Some t → i ≠ id → cidr_overlap (sn_cidr t) c = false) →
  subnets_disjoint (with_subnets (<[id := s]> (iv_subnets v)) v).
Proof.
  intros Hd <- Hc i j t u. cbn. rewrite !lookup_insert_Some.
  intros [[<- <-]|[Hi Ht]] [[<- <-]|[Hj Hu]] Hne; [done| | |by eapply Hd].
  - rewrite cidr_overlap_comm. by eapply Hc.
  - by eapply Hc.
Qed.

(** A table of subnets some of which went, with their CIDRs as they were. *)
Lemma disjoint_sub v v' :
  (∀ i s, iv_subnets v' !! i = Some s → ∃ t, iv_subnets v !! i = Some t ∧ sn_cidr t = sn_cidr s) →
  subnets_disjoint v → subnets_disjoint v'.
Proof.
  intros Hsub Hd i j s t Hs Ht Hne. destruct (Hsub _ _ Hs) as (s0 & Hs0 & <-), (Hsub _ _ Ht) as (t0 & Ht0 & <-).
  by eapply Hd.
Qed.

(** ** Programs running alone

    [triple P p Q]: from an inventory in [P], [p] running alone either returns a
    value related by [Q] to the inventory it leaves, or fails leaving [E]. *)
Section logic.
Context {env : Env} (E : Inventory → Prop).

Definition triple {A} (P : Inventory → Prop) (p : GoE Inventory A) (Q : A → Inventory → Prop) : Prop :=
  ∀ w, P (w_inv w) → let '(res, w') := alone p w in
    match res with Ok a => Q a (w_inv w') | Err _ => E (w_inv w') end.

Lemma triple_ret {A} P (a : A) (Q : A → Inventory → Prop) : (∀ v, P v → Q a v) → triple P (Ret (Ok a)) Q.
Proof. intros HQ w Hw. by apply HQ. Qed.

Lemma triple_err {A} P e (Q : A → Inventory → Prop) : (∀ v, P v → E v) → triple P (Ret (Err e)) Q.
Proof. intros HE w Hw. by apply HE. Qed.

Lemma triple_stmt {A} P (f : Z → World Inventory → result db_error (A * World Inventory)) Q :
  (∀ v, P v → E v) →
  (∀ now w a w', P (w_inv w) → f now w = Ok (a, w') → Q a (w_inv w')) → triple P (stmt f) Q.
Proof.
  intros HE Hf w Hw. rewrite alone_stmt. unfold run_stmt. destruct (fault _); [by apply HE|].
  destruct (f _ (bump w)) as [[a w']|e] eqn:He; [by eapply (Hf _ (bump w))|by apply HE].
Qed.

Lemma triple_try {A B} P (p : GoE Inventory A) (h : A → GoE Inventory B) R Q :
  triple P p R → (∀ a, triple (R a) (h a) Q) → triple P (try_bind p h) Q.
Proof.
  intros Hp Hh w Hw. rewrite alone_try. specialize (Hp w Hw). destruct (alone p w) as [[a|e] w']; [|done].
  exact (Hh a w' Hp).
Qed.

Lemma triple_token P : (∀ v, P v → E v) → triple P random_token (λ _, P).
Proof. intros HE w Hw. unfold random_token. rewrite alone_atomic. destruct (token _); cbn; auto. Qed.

(** A statement that only reads keeps what holds. *)
Lemma triple_read {A} P (f : Z → World Inventory → result db_error (A * World Inventory)) :
  (∀ v, P v → E v) → (∀ now w a w', f now w = Ok (a, w') → w' = w) → triple P (stmt f) (λ _, P).
Proof. intros HE Hf. apply triple_stmt; [done|]. by intros now w a w' Hw ->%Hf. Qed.

Lemma GetSubnet_read P id : (∀ v, P v → E v) → triple P (GetSubnet id) (λ _, P).
Proof.
  intros HE. apply triple_read; [done|]. intros now w a w' Hx. destruct (iv_subnets (w_inv w) !! id); [|done].
  destruct (scanSubnet _ _ _); cbn in Hx; by simplify_eq.
Qed.

Lemma GetAddress_read P id : (∀ v, P v → E v) → triple P (GetAddress id) (λ _, P).
Proof.
  intros HE. apply triple_read; [done|]. intros now w a w' Hx. destruct (find_address id (w_inv w)) as [[ip b]|]; [|done].
  destruct (ad_Subnet b); cbn in Hx; by simplify_eq.
Qed.
End logic.

(** [p], running alone, keeps [I]. *)
Definition keeps_alone {env : Env} {A} (I : Inventory → Prop) (p : GoE Inventory A) : Prop :=
  triple I I p (λ _, I).

Lemma keeps_alone_stmt {env : Env} {A} I (f : Z → World Inventory → result db_error (A * World Inventory)) :
  (∀ now w a w', f now w = Ok (a, w') → I (w_inv w) → I (w_inv w')) → keeps_alone I (stmt f).
Proof. intros Hf. apply triple_stmt; [done|]. intros now w a w' Hw He. by eapply Hf. Qed.

Section subnets.
Context {env : Env} (inet_in cidr_in : string → option string).

(** What the check establishes, until something else runs. *)
Definition no_overlap (id cidr : string) (v : Inventory) : Prop :=
  ∀ c, cidr_in cidr = Some c → overlapping id c v = false.

Lemma ensureNoSubnetOverlap_check I id cidr :
  triple I I (ensureNoSubnetOverlap cidr_in id cidr) (λ _ v, I v ∧ no_overlap id cidr v).
Proof.
  apply triple_stmt; [done|]. intros now w a w' Hw Hx. unfold no_overlap.
  destruct (cidr_in cidr) as [c|]; [cbn in Hx|done]. destruct (overlapping id c _) eqn:Ho; simplify_eq.
  split; [done|]. by intros ? [= <-].
Qed.

Lemma insert_subnet_disjoint id input w w' :
  insert_subnet cidr_in id input w = Ok ((), w') → no_overlap "" (si_CIDR input) (w_inv w) →
  subnets_disjoint (w_inv w) → subnets_disjoint (w_inv w').
Proof.
  intros Hx Ho Hd. unfold insert_subnet in Hx. destruct (cidr_in _) as [c|] eqn:Hc; [cbn in Hx|done].
  destruct (vlan_check _); [cbn in Hx|done]. destruct (_ || _); [done|]. destruct (negb _); [done|]. simplify_eq.
  apply (disjoint_put id c); [done|done|]. intros i t Ht _.
  eapply overlapping_false; [by apply Ho|exact Ht|by left].
Qed.

Lemma update_subnet_disjoint id input w w' :
  update_subnet cidr_in id input w = Ok ((), w') → no_overlap id (si_CIDR input) (w_inv w) →
  subnets_disjoint (w_inv w) → subnets_disjoint (w_inv w').
Proof.
  intros Hx Ho Hd. unfold update_subnet in Hx. destruct (cidr_in _) as [c|] eqn:Hc; [cbn in Hx|done].
  destruct (negb _); [done|]. destruct (bool_decide _); [done|]. destruct (vlan_check _); [cbn in Hx|done].
  destruct (cidr_taken _ _ _); [done|]. destruct (negb _); [done|]. simplify_eq.
  apply (disjoint_put id c); [done|done|]. intros i t Ht Hi.
  eapply overlapping_false; [by apply Ho|exact Ht|by right].
Qed.

Lemma CreateSubnet_disjoint input : keeps_alone subnets_disjoint (CreateSubnet cidr_in input).
Proof.
  eapply triple_try; [apply ensureNoSubnetOverlap_check|]. intros [].
  eapply (triple_try _ _ _ _ (λ _ v, subnets_disjoint v ∧ no_overlap "" (si_CIDR input) v)); [by apply triple_token; intros v []|]. intros id.
  eapply (triple_try _ _ _ _ (λ _, subnets_disjoint)); [|intros []; by apply GetSubnet_read].
  apply triple_stmt; [by intros v []|]. intros now w [] w' [Hd Ho] Hx. by eapply insert_subnet_disjoint.
Qed.

Lemma UpdateSubnet_disjoint id input : keeps_alone subnets_disjoint (UpdateSubnet cidr_in id input).
Proof.
  eapply triple_try; [apply ensureNoSubnetOverlap_check|]. intros [].
  eapply (triple_try _ _ _ _ (λ _, subnets_disjoint)); [|intros []; by apply GetSubnet_read].
  apply triple_stmt; [by intros v []|]. intros now w [] w' [Hd Ho] Hx. by eapply update_subnet_disjoint.
Qed.

Lemma delete_subnets_disjoint ids v : subnets_disjoint v → subnets_disjoint (delete_subnets ids v).
Proof. apply disjoint_sub. intros i s [Hs _]%map_lookup_filter_Some. by exists s. Qed.

Lemma DeleteSubnet_disjoint id : keeps_alone subnets_disjoint (DeleteSubnet id).
Proof.
  apply keeps_alone_stmt. intros now w [] w' Hx. destruct (bool_decide _); simplify_eq.
  apply delete_subnets_disjoint.
Qed.

Lemma BulkDeleteSubnets_disjoint ids : keeps_alone subnets_disjoint (BulkDeleteSubnets ids).
Proof. apply keeps_alone_stmt. intros now w n w' Hx. simplify_eq. apply delete_subnets_disjoint. Qed.

Lemma BulkSetSubnetVLAN_disjoint ids vlan : keeps_alone subnets_disjoint (BulkSetSubnetVLAN ids vlan).
Proof.
  apply keeps_alone_stmt. intros now w n w' Hx. destruct (negb _); [done|]. cbn zeta in Hx.
  destruct (if keys_affected ids (iv_subnets (w_inv w)) =? 0 then Ok () else vlan_check vlan) as [[]|]; [cbn in Hx|done].
  simplify_eq. apply disjoint_sub. intros i s. cbn. rewrite map_lookup_imap.
  destruct (iv_subnets (w_inv w) !! i) as [t|]; [cbn; intros [= <-]|done]. exists t. by case_bool_decide.
Qed.
(** The calls that change the subnets. *)
Inductive subnet_call : Type :=
| CallCreateSubnet (input : SubnetInput)
| CallUpdateSubnet (id : string) (input : SubnetInput)
| CallDeleteSubnet (id : string)
| CallBulkSetSubnetVLAN (ids : list string) (vlan : option Z)
| CallBulkDeleteSubnets (ids : list string).

Definition ignore {A} (p : GoE Inventory A) : Go Inventory unit := prog_bind (λ _, Ret ()) p.

Definition subnet_run (c : subnet_call) : Go Inventory unit :=
  match c with
  | CallCreateSubnet input => ignore (CreateSubnet cidr_in input)
  | CallUpdateSubnet id input => ignore (UpdateSubnet cidr_in id input)
  | CallDeleteSubnet id => ignore (DeleteSubnet id)
  | CallBulkSetSubnetVLAN ids vlan => ignore (BulkSetSubnetVLAN ids vlan)
  | CallBulkDeleteSubnets ids => ignore (BulkDeleteSubnets ids)
  end.

Lemma ignore_keeps {A} I (p : GoE Inventory A) w :
  keeps_alone I p → I (w_inv w) → I (w_inv (alone (ignore p) w).2).
Proof.
  intros Hp Hw. unfold ignore. rewrite alone_bind. specialize (Hp w Hw).
  by destruct (alone p w) as [[a|e] w'].
Qed.

Lemma subnet_run_disjoint c w : subnets_disjoint (w_inv w) → subnets_disjoint (w_inv (alone (subnet_run c) w).2).
Proof.
  destruct c; apply ignore_keeps;
    auto using CreateSubnet_disjoint, UpdateSubnet_disjoint, DeleteSubnet_disjoint,
      BulkSetSubnetVLAN_disjoint, BulkDeleteSubnets_disjoint.
Qed.

(** C23: whatever sequence of calls creates, updates and deletes subnets, one call
    at a time, no two subnets come to overlap: at the end an address, IPv4 or
    IPv6, is in one subnet at most. *)
Theorem subnets_stay_disjoint (calls : list subnet_call) (w : World Inventory)
    (Hd : subnets_disjoint (w_inv w)) :
  let w' := (alone (for_each subnet_run calls) w).2 in
  subnets_disjoint (w_inv w') ∧ one_subnet (w_inv w').
Proof.
  cbn zeta. assert (subnets_disjoint (w_inv (alone (for_each subnet_run calls) w).2)) as H;
    [|split; [exact H|by apply disjoint_one_subnet]].
  revert w Hd. induction calls as [|c calls IH]; intros w Hd; [exact Hd|]. cbn [for_each]. rewrite alone_bind.
  pose proof (subnet_run_disjoint c w Hd) as H. destruct (alone (subnet_run c) w) as [[] w']. by apply IH.
Qed.
End subnets.

(** *** Two calls at once

    The check and the insertion are separate statements. *)

#[local] Instance race_env : Env :=
  {| clock := λ n, Z.of_nat n * 1000000000; fault := λ _, false;
     token := λ n, Some (String.concat "" (repeat "t" (S n))); jsonb_in := λ s, Some s |}.

Definition wide_input : SubnetInput := MkSubnetInput "" "10.0.0.0/8" "wide" None "".
Definition near_input : SubnetInput := MkSubnetInput "" "10.1.0.0/16" "near" None "".
Definition empty_inventory : Inventory := MkInventory ∅ ∅ ∅ ∅ ∅ ∅ ∅ ∅ ∅ ∅ ∅.
Definition empty_world : World Inventory := MkWorld ∅ ∅ ∅ ∅ ∅ [] empty_inventory [] 0.

(** Between the statements of one [CreateSubnet] another may run: both
    succeed and an address is in two subnets. *)
Theorem CreateSubnet_race :
  ∃ env (view : SubnetView),
    (∀ i w, env i w = w ∨ env i w = (alone (CreateSubnet Some near_input) w).2) ∧
    subnets_disjoint (w_inv empty_world) ∧
    let '(res, w') := exec env 0 (CreateSubnet Some wide_input) empty_world in
    res = Ok view ∧ ¬ one_subnet (w_inv w').
Proof.
  exists (λ i w, if decide (i = 1%nat) then (alone (CreateSubnet Some near_input) w).2 else w).
  assert (∃ view, (exec (λ i w, if decide (i = 1%nat) then (alone (CreateSubnet Some near_input) w).2 else w) 0
    (CreateSubnet Some wide_input) empty_world).1 = Ok view) as [view Hv] by (vm_compute; by eexists).
  exists view. split; [|split].
  - intros i w. destruct (decide _); auto.
  - intros i j s t Hs. cbn in Hs. by apply lookup_empty_Some in Hs.
  - destruct (exec _ _ _ _) as [res w'] eqn:He. split; [exact Hv|]. intros Ho.
    assert (∃ i j s t, i ≠ j ∧ iv_subnets (w_inv w') !! i = Some s ∧ iv_subnets (w_inv w') !! j = Some t ∧
      cidr_contains (sn_cidr s) "10.1.0.1" = true ∧ cidr_contains (sn_cidr t) "10.1.0.1" = true)
      as (i & j & s & t & Hne & Hs & Ht & Hcs & Hct); [|by apply Hne; eapply Ho].
    apply (f_equal snd) in He. cbn [snd] in He. rewrite <- He.
    exists "ttt", "tttttt", (subnet_row "10.1.0.0/16" near_input), (subnet_row "10.0.0.0/8" wide_input).
    split; [done|]. split_and!; vm_compute; reflexivity.
Qed.

(** ** Addresses inside their subnets *)

(** An address that names a subnet lies in it. *)
Definition contained (v : Inventory) : Prop :=
  ∀ ip a0 sid s, iv_addresses v !! ip = Some a0 → ad_Subnet a0 = Some sid →
    iv_subnets v !! sid = Some s → cidr_contains (sn_cidr s) ip = true.

(** PostgreSQL's [inet] input and [netip.ParseAddr] read the same address. *)
Definition inet_agrees (inet_in : string → option string) : Prop :=
  ∀ s ip x, inet_in s = Some ip → parse_addr s = Some x → parse_addr ip = Some x.

(** A view of a subnet with the CIDR the row has. *)
Definition current (view : SubnetView) (v : Inventory) : Prop :=
  ∃ s, iv_subnets v !! sv_ID view = Some s ∧ sn_cidr s = sv_CIDR view.

Lemma cidr_contains_Contains inet_in cidr s ip :
  inet_agrees inet_in → inet_in s = Some ip → Contains cidr s = Ok true → cidr_contains cidr ip = true.
Proof.
  intros Ha Hi Hc. unfold Contains in Hc. unfold cidr_contains.
  destruct (parse_prefix cidr) as [p|]; [cbn in Hc|done]. destruct (parse_addr s) as [x|] eqn:Hx; [cbn in Hc|done].
  rewrite (Ha s ip x Hi Hx). by simplify_eq.
Qed.

(** Rows that went, lost a reference, or changed otherwise. *)
Lemma contained_sub v v' :
  (∀ ip a0, iv_addresses v' !! ip = Some a0 → ∃ b, iv_addresses v !! ip = Some b ∧
     (ad_Subnet a0 = ad_Subnet b ∨ ad_Subnet a0 = None)) →
  (∀ sid s, iv_subnets v' !! sid = Some s → ∃ t, iv_subnets v !! sid = Some t ∧ sn_cidr t = sn_cidr s) →
  contained v → contained v'.
Proof.
  intros Ha Hs Hc ip a0 sid s Hip Hsid Hsub. destruct (Ha _ _ Hip) as (b & Hb & [He|He]); [|congruence].
  destruct (Hs _ _ Hsub) as (t & Ht & <-). apply (Hc ip b sid); [exact Hb|congruence|exact Ht].
Qed.

Lemma contained_put ip a0 v :
  contained v →
  (∀ sid s, ad_Subnet a0 = Some sid → iv_subnets v !! sid = Some s → cidr_contains (sn_cidr s) ip = true) →
  contained (with_addresses (<[ip := a0]> (iv_addresses v)) v).
Proof.
  intros Hc Ha k b sid s. cbn. rewrite lookup_insert_Some. intros [[<- <-]|[_ Hb]]; [by apply Ha|by eapply Hc].
Qed.

Lemma contained_delete_addresses f v : contained v → contained (delete_addresses f v).
Proof.
  apply contained_sub; [|by intros sid s Hs; exists s]. intros ip a0 [Ha _]%map_lookup_filter_Some. exists a0. auto.
Qed.

Lemma contained_delete_devices ids v : contained v → contained (delete_devices ids v).
Proof.
  apply contained_sub; [|by intros sid s Hs; exists s]. intros ip a0. cbn. rewrite lookup_fmap, fmap_Some.
  intros (b & Hb & ->). exists b. auto.
Qed.

Lemma contained_delete_subnets ids v : contained v → contained (delete_subnets ids v).
Proof.
  apply contained_sub.
  - intros ip a0. cbn. rewrite lookup_fmap, fmap_Some. intros (b & Hb & ->). exists b. split; [done|].
    cbn. destruct (ad_Subnet b) as [d|]; cbn; [case_bool_decide; auto|auto].
  - intros sid s [Hs _]%map_lookup_filter_Some. by exists s.
Qed.

Lemma contained_delete_address id v v' : delete_address id v = Ok v' → contained v → contained v'.
Proof.
  intros H Hc. unfold delete_address in H. destruct (find_address id v) as [[ip a0]|]; [|done].
  pose proof (contained_delete_addresses (λ b, bool_decide (ad_ID b = id)) v Hc).
  destruct (ad_Device a0 ≫= nonempty); [|by simplify_eq].
  destruct (orphan _ _); simplify_eq; [by apply contained_delete_devices|done].
Qed.

Section containment.
Context {env : Env} (inet_in cidr_in : string → option string).
Hypothesis Hinet : inet_agrees inet_in.

Lemma GetSubnet_current (E I : Inventory → Prop) id :
  (∀ v, I v → E v) → triple E I (GetSubnet id) (λ view v, I v ∧ current view v ∧ sv_ID view = id).
Proof.
  intros HE. apply triple_stmt; [done|]. intros now w view w' Hw Hx.
  destruct (iv_subnets (w_inv w) !! id) as [s|] eqn:Hs; [|done]. unfold scanSubnet in Hx.
  destruct (AddressCapacity _); cbn in Hx; [|done]. simplify_eq. split; [done|]. split; [by exists s|done].
Qed.

(** [in_subnet] runs what follows once the address is in the subnet. *)
Lemma in_subnet_check {A} I subnet input (k : GoE Inventory A) Q :
  (∀ v, I v → contained v) →
  (Contains (sv_CIDR subnet) (ai_Address input) = Ok true → triple contained I k Q) →
  triple contained I (in_subnet subnet input k) Q.
Proof.
  intros HI Hk. unfold in_subnet. destruct (Contains _ _) as [[]|e]; [by apply Hk|by apply triple_err..].
Qed.

Lemma CreateAddress_contained subnet input :
  triple contained (λ v, contained v ∧ current subnet v) (CreateAddress inet_in subnet input) (λ _, contained).
Proof.
  apply in_subnet_check; [by intros v []|]. intros Hc.
  eapply triple_try; [by apply triple_token; intros v []|]. intros id.
  apply triple_stmt; [by intros v []|]. intros now w view w' [Hw (s & Hs & Hcidr)] Hx. unfold insert_address in Hx.
  destruct (inet_in _) as [ip|] eqn:Hip; [cbn in Hx|done]. repeat (case_match; [done|]). simplify_eq.
  apply contained_put; [done|]. cbn. intros sid t [= <-] Ht. simplify_eq. rewrite Hcidr.
  by eapply cidr_contains_Contains.
Qed.

Lemma UpdateAddress_contained id subnet input :
  triple contained (λ v, contained v ∧ current subnet v ∧
      ∃ ip a0, find_address id v = Some (ip, a0) ∧ ad_Subnet a0 = Some (sv_ID subnet))
    (UpdateAddress inet_in id subnet input) (λ _, contained).
Proof.
  apply in_subnet_check; [by intros v []|]. intros Hc.
  eapply (triple_try _ _ _ _ (λ _, contained)); [|intros []; by apply GetAddress_read].
  apply triple_stmt; [by intros v []|]. intros now w [] w' (Hw & (s & Hs & Hcidr) & old & a0 & Hf & Ha) Hx.
  unfold update_address in Hx. destruct (inet_in _) as [ip|] eqn:Hip; [cbn in Hx|done].
  rewrite Hf in Hx. repeat (case_match; [done|]). simplify_eq.
  intros k b sid t. cbn. rewrite lookup_insert_Some. intros [[<- <-]|[_ Hb]].
  - cbn. intros Hsid Ht. assert (sid = sv_ID subnet) as -> by congruence. assert (t = s) as -> by congruence.
    rewrite Hcidr. by eapply cidr_contains_Contains.
  - apply lookup_delete_Some in Hb as [_ Hb]. by eapply Hw.
Qed.

Lemma GetAddress_current I id :
  triple I I (GetAddress id) (λ a v, I v ∧
    ∃ ip a0, find_address id v = Some (ip, a0) ∧ ad_Subnet a0 = Some (ip_SubnetID a)).
Proof.
  apply triple_stmt; [done|]. intros now w a w' Hw Hx.
  destruct (find_address id (w_inv w)) as [[ip a0]|] eqn:Hf; [|done].
  destruct (ad_Subnet a0) as [sid|] eqn:Hs; cbn in Hx; [|done]. simplify_eq. split; [done|]. exists ip, a0. by rewrite Hs.
Qed.

(** What a program guarantees of every step it does alone. *)
Lemma guarantees_keeps {A} I (p : GoE Inventory A) :
  guarantees (inv_step (λ v v', I v → I v')) p → keeps_alone I p.
Proof.
  intros Hp w Hw.
  assert (PreOrder (λ w w' : World Inventory, I (w_inv w) → I (w_inv w'))) as Hpre by (split; [by intros x|intros x y z ???; auto]).
  unfold alone. destruct (exec quiet 0 p w) as [res w'] eqn:He. assert (I (w_inv w')); [|by destruct res].
  replace w' with (exec quiet 0 p w).2 by by rewrite He. apply (guarantees_exec (λ w w', I (w_inv w) → I (w_inv w'))); [|by intros j w0|done].
  clear -Hp. induction p as [a|g k IH]; [done|]. intros w. destruct (Hp w) as [[_ Hg] Hk].
  split; [exact Hg|]. by apply IH.
Qed.

Lemma contained_import macaddr_in MarshalServices t1 t2 t3 d name now v v' :
  import_tx macaddr_in MarshalServices t1 t2 t3 d name now v = Ok v' → contained v → contained v'.
Proof.
  intros H Hc. destruct (import_tx_Ok _ _ _ _ _ _ _ _ _ _ H) as (sid & s & v1 & dev & v2 & aid & v3 & Hsub & Hb & Hi & Hp & ->).
  destruct (containing_subnet_Some _ _ _ _ Hsub) as (Hs & Hin & _).
  destruct (backfill_Ok _ _ _ _ Hb) as (subnets & -> & Hback & Hnew).
  destruct (importDevice_Ok _ _ _ _ _ _ _ _ _ _ Hi) as (devices & macs & -> & _).
  destruct (put_address_Ok _ _ _ _ _ _ _ _ Hp) as (a0 & -> & _ & Ha & _).
  intros ip b i t. cbn. rewrite lookup_insert_Some. intros Hb' Hi' Ht.
  destruct (Hnew i (mk_is_Some _ _ Ht)) as [u Hu]. destruct (Hback _ _ Hu) as (t' & Ht' & Hcidr & _).
  assert (t' = t) as -> by congruence. rewrite Hcidr. destruct Hb' as [[<- <-]|[_ Hb']]; [|by eapply Hc].
  assert (i = sid) as -> by congruence. by assert (u = s) as -> by congruence.
Qed.

Definition placed (v : Inventory) : Prop := inv_wf v ∧ contained v.

Lemma placed_put_subnet id s v :
  placed v → iv_subnets v !! id = None → vlan_check (sn_vlan s) = Ok () →
  placed (with_subnets (<[id := s]> (iv_subnets v)) v).
Proof.
  intros [Hw Hc] Hid Hv. split; [by apply wf_put_subnet|]. intros ip a0 sid t Ha Hs. cbn.
  rewrite lookup_insert_Some. intros [[<- _]|[_ Ht]]; [|by eapply Hc].
  destruct (wf_address _ Hw _ _ Ha) as [Hr _]. destruct (Hr id Hs) as [u Hu]. congruence.
Qed.

Lemma CreateSubnet_placed input : keeps_alone placed (CreateSubnet cidr_in input).
Proof.
  eapply (triple_try _ _ _ _ (λ _, placed)); [apply triple_read; [done|]|intros []].
  { intros now w [] w' Hx. destruct (cidr_in _); cbn in Hx; [|done]. by case_match; simplify_eq. }
  eapply (triple_try _ _ _ _ (λ _, placed)); [by apply triple_token|]. intros id.
  eapply (triple_try _ _ _ _ (λ _, placed)); [|intros []; by apply GetSubnet_read].
  apply triple_stmt; [done|]. intros now w [] w' Hp Hx. unfold insert_subnet in Hx.
  destruct (cidr_in _) as [c|] eqn:Hc; [cbn in Hx|done].
  destruct (vlan_check _) as [[]|] eqn:Hv; [cbn in Hx|done].
  destruct (_ || _) eqn:Hdup; [done|]. apply orb_false_iff in Hdup as [Hid%bool_decide_eq_false _].
  destruct (negb _); [done|]. simplify_eq. apply placed_put_subnet; [done| |done]. by apply eq_None_not_Some.
Qed.

Lemma keeps_both {A} I J (p : GoE Inventory A) :
  keeps_alone I p → keeps_alone J p → keeps_alone (λ v, I v ∧ J v) p.
Proof.
  intros Hi Hj w [Hwi Hwj]. specialize (Hi w Hwi). specialize (Hj w Hwj).
  by destruct (alone p w) as [[a|e] w'].
Qed.

Lemma place_new_address sid input :
  keeps_alone contained (subnet ←? GetSubnet sid; CreateAddress inet_in subnet input).
Proof.
  eapply triple_try; [by apply GetSubnet_current|]. intros subnet w (Hw & Hc & _). by apply CreateAddress_contained.
Qed.

Lemma place_moved_address id input :
  keeps_alone contained (existing ←? GetAddress id;
    subnet ←? GetSubnet (ip_SubnetID existing); UpdateAddress inet_in id subnet input).
Proof.
  eapply triple_try; [apply GetAddress_current|]. intros a0.
  eapply triple_try.
  - by apply (GetSubnet_current contained (λ v, contained v ∧
      ∃ ip b, find_address id v = Some (ip, b) ∧ ad_Subnet b = Some (ip_SubnetID a0))); intros v [].
  - intros subnet w ((Hw & Hf) & Hc & Hid). apply UpdateAddress_contained. rewrite Hid. by split_and!.
Qed.
End containment.

Section placement.
Context {env : Env} (inet_in macaddr_in cidr_in : string → option string)
        (MarshalServices : list DiscoveryService → string).

(** Editing one record at a time, as the handlers do, every reference stays
    whole and every address stays in the subnet it names: a new or changed
    address is checked against its subnet's CIDR, an import places a discovery
    in a subnet that contains it, and no deletion misplaces what it leaves. *)
Theorem addresses_stay_contained (Hinet : inet_agrees inet_in) :
  (∀ sid input, keeps_alone placed (subnet ←? GetSubnet sid; CreateAddress inet_in subnet input)) ∧
  (∀ id input, keeps_alone placed (existing ←? GetAddress id;
     subnet ←? GetSubnet (ip_SubnetID existing); UpdateAddress inet_in id subnet input)) ∧
  (∀ id name, keeps_alone placed (inv_ImportDiscovery macaddr_in MarshalServices id name)) ∧
  (∀ id, keeps_alone placed (DeleteAddress id)) ∧
  (∀ id, keeps_alone placed (DeleteSubnet id)) ∧
  (∀ id, keeps_alone placed (DeleteDevice id)) ∧
  (∀ input, keeps_alone placed (CreateSubnet cidr_in input)).
Proof.
  split_and!; intros; [..|apply CreateSubnet_placed]; (apply keeps_both; [apply guarantees_keeps|]).
  - apply guarantees_try; [apply GetSubnet_wf|intros; apply CreateAddress_wf].
  - by apply place_new_address.
  - apply guarantees_try; [apply GetAddress_wf|intros].
    apply guarantees_try; [apply GetSubnet_wf|intros; apply UpdateAddress_wf].
  - by apply place_moved_address.
  - apply ImportDiscovery_step; [done|apply wf_import].
  - apply guarantees_keeps, ImportDiscovery_step; [done|apply contained_import].
  - apply DeleteAddress_wf.
  - apply keeps_alone_stmt. intros now w [] w' Hx. destruct (delete_address id (w_inv w)) eqn:Hd; cbn in Hx; [|done].
    simplify_eq. by apply (contained_delete_address id).
  - apply DeleteSubnet_wf.
  - apply keeps_alone_stmt. intros now w [] w' Hx. destruct (bool_decide _); simplify_eq. apply contained_delete_subnets.
  - apply DeleteDevice_wf.
  - apply keeps_alone_stmt. intros now w [] w' Hx. destruct (bool_decide _); simplify_eq. intros Hc.
    by apply contained_delete_devices, contained_delete_addresses.
Qed.
End placement.

(** A lookup in a table of one row. *)
Ltac single H := cbn in H; apply lookup_singleton_Some in H as [<- <-].

(** [UpdateSubnet] checks overlap only: moving a subnet's CIDR leaves its
    addresses outside it. *)
Definition moved_world : World Inventory :=
  MkWorld ∅ ∅ ∅ ∅ ∅ [] (with_addresses {["10.1.0.5" := MkAddressRow "a" (Some "s") None "assigned" "" "" None]}
    (with_subnets {["s" := subnet_row "10.1.0.0/16" near_input]} empty_inventory)) [] 0.

(** Updating a subnet's CIDR does not check the addresses it has: a placed
    inventory can be left with an address outside its subnet. *)
Theorem UpdateSubnet_strands :
  let '(res, w') := alone (UpdateSubnet Some "s" (MkSubnetInput "" "10.2.0.0/16" "near" None "")) moved_world in
  contained (w_inv moved_world) ∧ (∃ view, res = Ok view) ∧ ¬ contained (w_inv w').
Proof.
  destruct (alone _ _) as [res w'] eqn:He.
  assert (∃ view, res = Ok view) as Hres.
  { apply (f_equal fst) in He. cbn [fst] in He. rewrite <- He. vm_compute. by eexists. }
  split; [|split; [exact Hres|]].
  - intros ip a0 sid s Ha Hsid Hs. single Ha. single Hs. vm_compute. reflexivity.
  - intros Hc. apply (f_equal snd) in He. cbn [snd] in He.
    pose proof (Hc "10.1.0.5" (MkAddressRow "a" (Some "s") None "assigned" "" "" None) "s"
      (subnet_row "10.2.0.0/16" near_input)) as H. rewrite <- He in H.
    assert (cidr_contains "10.2.0.0/16" "10.1.0.5" = false) as Hf by (vm_compute; reflexivity).
    cbn [sn_cidr subnet_row] in H. rewrite Hf in H. discriminate H; vm_compute; reflexivity.
Qed.

(** ** What a deletion takes with it *)

Section deletions.
Context {env : Env}.

(** With unique identifiers the row found is the row. *)
Lemma find_address_Some ip a0 v :
  inv_wf v → iv_addresses v !! ip = Some a0 → find_address (ad_ID a0) v = Some (ip, a0).
Proof.
  intros Hw Ha. unfold find_address.
  destruct (list_find (λ p, ad_ID p.2 = ad_ID a0) (map_to_list (iv_addresses v))) as [[i [ip' b]]|] eqn:Hf.
  - apply list_find_Some in Hf as (Hl & Hid & _). apply list_elem_of_lookup_2, elem_of_map_to_list in Hl.
    assert (ip' = ip) as -> by (eapply (wf_address_id _ Hw); [exact Hl|exact Ha|done]).
    cbn. by simplify_eq.
  - apply list_find_None in Hf. rewrite Forall_forall in Hf.
    destruct (Hf (ip, a0)); [by apply elem_of_map_to_list|done].
Qed.

(** Deleting a subnet keeps its addresses and detaches them, and from then on
    [GetAddress] fails on each of them, for it reads the subnet's identifier into
    a string; the other addresses are as they were. *)
Theorem DeleteSubnet_detaches (id : string) (w : World Inventory)
    (Hw : inv_wf (w_inv w)) (Hcalm : ∀ n, fault n = false) (Hid : is_Some (iv_subnets (w_inv w) !! id)) :
  let '(res, w') := alone (DeleteSubnet id) w in
  res = Ok () ∧ iv_subnets (w_inv w') !! id = None ∧
  dom (iv_addresses (w_inv w')) = dom (iv_addresses (w_inv w)) ∧
  ∀ ip a0, iv_addresses (w_inv w) !! ip = Some a0 →
    if decide (ad_Subnet a0 = Some id) then
      iv_addresses (w_inv w') !! ip = Some (set_subnet None a0) ∧
      (alone (GetAddress (ad_ID a0)) w').1 = Err ErrNull
    else iv_addresses (w_inv w') !! ip = Some a0.
Proof.
  unfold DeleteSubnet. rewrite alone_stmt. unfold run_stmt. rewrite Hcalm. cbn [w_inv bump].
  rewrite bool_decide_eq_false_2 by (destruct Hid as [s ->]; done).
  set (v := w_inv w) in *. split; [done|]. cbn [w_inv with_inv]. split; [|split].
  - cbn. apply map_lookup_filter_None. right. intros s _ Hn. apply Hn. by apply list_elem_of_singleton.
  - cbn. by rewrite dom_fmap_L.
  - intros ip a0 Ha. assert (iv_addresses (delete_subnets [id] v) !! ip =
        Some (set_subnet (drop_device [id] (ad_Subnet a0)) a0)) as Hnew by (cbn; by rewrite lookup_fmap, Ha).
    assert (drop_device [id] (ad_Subnet a0) = if decide (ad_Subnet a0 = Some id) then None else ad_Subnet a0) as Hdrop.
    { unfold drop_device. destruct (ad_Subnet a0) as [sid|]; [|by case_decide].
      case_bool_decide as Hin; rewrite list_elem_of_singleton in Hin; case_decide; congruence. }
    rewrite Hdrop in Hnew. destruct (decide (ad_Subnet a0 = Some id)) as [Hs|Hs].
    + split; [exact Hnew|]. unfold GetAddress. rewrite alone_stmt. unfold run_stmt. rewrite Hcalm. cbn [w_inv bump].
      pose proof (find_address_Some _ _ _ (wf_delete_subnets [id] v Hw) Hnew) as Hf. cbn [ad_ID set_subnet] in Hf.
      cbn [w_inv with_inv]. rewrite Hf. done.
    + rewrite Hnew. by destruct a0.
Qed.

Lemma delete_one_address ip a0 v :
  inv_wf v → iv_addresses v !! ip = Some a0 →
  iv_addresses (delete_addresses (λ b, bool_decide (ad_ID b = ad_ID a0)) v) = delete ip (iv_addresses v).
Proof.
  intros Hw Ha. apply map_eq. intros k. cbn. apply option_eq. intros b.
  rewrite map_lookup_filter_Some, lookup_delete_Some. cbn. rewrite bool_decide_eq_false. split.
  - intros [Hb Hn]. split; [|done]. intros <-. congruence.
  - intros [Hk Hb]. split; [done|]. intros He. apply Hk. by eapply (wf_address_id _ Hw).
Qed.

Lemma orphan_iff v dev :
  orphan v dev = true ↔ ∀ k b, iv_addresses v !! k = Some b → ad_Device b ≠ Some dev.
Proof.
  unfold orphan, has_address. rewrite negb_true_iff. split.
  - intros Hf k b Hb Hd. apply not_true_iff_false in Hf. apply Hf. apply existsb_exists. exists (k, b).
    split; [by apply list_elem_of_In, elem_of_map_to_list|]. by apply bool_decide_eq_true.
  - intros Hn. apply not_true_iff_false. intros ((k & b) & Hin & Hb)%existsb_exists.
    apply bool_decide_eq_true in Hb. eapply Hn; [|exact Hb]. by apply elem_of_map_to_list, list_elem_of_In.
Qed.

Lemma unlinked_address ip a0 v :
  iv_addresses v !! ip = Some a0 →
  ∀ k r, iv_discoveries (delete_addresses (λ b, bool_decide (ad_ID b = ad_ID a0)) v) !! k = Some r →
    dr_Address r ≠ Some (ad_ID a0).
Proof.
  intros Ha k r'. cbn. rewrite lookup_fmap, fmap_Some. intros (r & Hr & ->). unfold unlink_address.
  destruct (dr_Address r) as [aid|] eqn:Haid; [|by rewrite Haid].
  case_bool_decide as Hin; [done|]. rewrite Haid. intros [= ->]. apply Hin.
  apply list_elem_of_In, in_map_iff. exists (ip, a0). split; [done|].
  apply list_elem_of_In, list_elem_of_filter. cbn. rewrite bool_decide_eq_true. split; [done|by apply elem_of_map_to_list].
Qed.

(** Deleting an address removes it and no other, and the device it named
    goes with it exactly when that was its last address; then the device's MACs
    go and its discoveries are unlinked. *)
Theorem DeleteAddress_takes_orphans (ip dev : string) (a0 : AddressRow) (v v' : Inventory)
    (Hw : inv_wf v) (Ha : iv_addresses v !! ip = Some a0) (Hd : ad_Device a0 = Some dev) (Hne : dev ≠ "")
    (Hv : delete_address (ad_ID a0) v = Ok v') :
  iv_addresses v' !! ip = None ∧
  (∀ k b, k ≠ ip → iv_addresses v !! k = Some b → iv_addresses v' !! k = Some b) ∧
  (∀ k, k ≠ dev → iv_devices v' !! k = iv_devices v !! k) ∧
  let last := ∀ k b, iv_addresses v !! k = Some b → ad_Device b = Some dev → k = ip in
  (last → iv_devices v' !! dev = None ∧ (∀ m r, iv_macs v' !! m = Some r → mc_Device r ≠ Some dev) ∧
          (∀ k r, iv_discoveries v' !! k = Some r → dr_Device r ≠ Some dev ∧ dr_Address r ≠ Some (ad_ID a0))) ∧
  (¬ last → iv_devices v' !! dev = iv_devices v !! dev ∧ iv_macs v' = iv_macs v).
Proof.
  set (v1 := delete_addresses (λ b, bool_decide (ad_ID b = ad_ID a0)) v).
  pose proof (delete_one_address _ _ _ Hw Ha : iv_addresses v1 = _) as Hv1.
  assert (orphan v1 dev = true ↔ ∀ k b, iv_addresses v !! k = Some b → ad_Device b = Some dev → k = ip) as Hlast.
  { rewrite orphan_iff, Hv1. split.
    - intros Hn k b Hb Hb'. destruct (decide (k = ip)); [done|]. destruct (Hn k b); [by rewrite lookup_delete_ne|done].
    - intros Hl k b [Hk Hb]%lookup_delete_Some Hb'. by apply Hk, eq_sym, (Hl k b). }
  unfold delete_address in Hv. rewrite (find_address_Some _ _ _ Hw Ha), Hd in Hv. cbn [mbind option_bind] in Hv.
  unfold nonempty in Hv. rewrite decide_False in Hv by done. fold v1 in Hv.
  pose proof (unlinked_address _ _ _ Ha : ∀ k r, iv_discoveries v1 !! k = Some r → _) as Hdisc.
  assert (iv_devices v1 = iv_devices v ∧ iv_macs v1 = iv_macs v) as [Hdv Hmc] by done. clearbody v1.
  destruct (orphan v1 dev) eqn:Ho; injection Hv as <-.
  - assert (drop_device [dev] (Some dev) = None) as Hdrop
      by (unfold drop_device; by rewrite bool_decide_eq_true_2 by by apply list_elem_of_singleton).
    split_and!.
    + cbn. by rewrite Hv1, lookup_fmap, lookup_delete_eq.
    + intros k b Hk Hb. cbn. rewrite Hv1, lookup_fmap, lookup_delete_ne, Hb by done. cbn.
      assert (ad_Device b ≠ Some dev) as Hbd by (intros Hb'; apply Hk; by eapply Hlast).
      destruct b as [? ? [d|] ? ? ? ?]; [|done]. cbn in Hbd |- *. unfold drop_device.
      by rewrite bool_decide_eq_false_2 by (rewrite list_elem_of_singleton; congruence).
    + intros k Hk. cbn. apply option_eq. intros x. rewrite map_lookup_filter_Some, Hdv. cbn. rewrite list_elem_of_singleton.
      split; [by intros []|by split].
    + intros last. split; [intros _; split_and!|intros Hn; destruct Hn; exact (proj1 Hlast eq_refl)].
      * cbn. apply map_lookup_filter_None. right. intros x _ Hn. apply Hn. by apply list_elem_of_singleton.
      * intros m r [_ Hr]%map_lookup_filter_Some Hm. cbn in Hr. rewrite Hm in Hr. congruence.
      * intros k r'. cbn. rewrite lookup_fmap, fmap_Some. intros (r & Hr & ->). cbn. split; [|by eapply Hdisc].
        intros [? Hn]%drop_device_Some. apply Hn. by apply list_elem_of_singleton.
  - split_and!.
    + by rewrite Hv1, lookup_delete_eq.
    + intros k b Hk Hb. by rewrite Hv1, lookup_delete_ne.
    + by rewrite Hdv.
    + intros last. split; [intros Hl; apply Hlast in Hl; congruence|]. by rewrite Hdv, Hmc.
Qed.
End deletions.

(** ** Concrete worlds *)

Lemma subnets_stay_disjoint_witness :
  one_subnet (w_inv (alone (for_each (subnet_run Some)
    [CallCreateSubnet wide_input; CallCreateSubnet near_input; CallDeleteSubnet "ttt"; CallCreateSubnet near_input])
    empty_world).2).
Proof.
  refine (proj2 (subnets_stay_disjoint Some _ empty_world _)).
  intros i j s t Hs. cbn in Hs. by apply lookup_empty_Some in Hs.
Defined.

(** [inet] input that keeps the text of an address. *)
Definition same_text (s : string) : option string :=
  match parse_addr s with Some _ => Some s | None => None end.

Lemma moved_placed : placed (w_inv moved_world).
Proof.
  split; [split|].
  - intros sid s n Hs. single Hs. done.
  - intros ip a0 Ha. single Ha. split; [|done]. apply resolves_Some. cbn. by rewrite lookup_singleton_eq.
  - done.
  - done.
  - intros ip1 ip2 a1 a2 H1 H2 _. single H1. single H2. done.
  - done.
  - intros ip a0 sid s Ha Hsid Hs. single Ha. single Hs. vm_compute. reflexivity.
Qed.

Lemma addresses_stay_contained_witness :
  placed (w_inv (alone (subnet ←? GetSubnet "s";
    CreateAddress same_text subnet (MkAddressInput "10.1.7.7" "assigned" "" "nas" "")) moved_world).2).
Proof.
  assert (inet_agrees same_text) as Hinet.
  { intros s ip x Hs Hx. unfold same_text in Hs. rewrite Hx in Hs. by injection Hs as <-. }
  destruct (addresses_stay_contained same_text Some Some (λ _, "[]") Hinet) as (Hcreate & _).
  pose proof (Hcreate "s" (MkAddressInput "10.1.7.7" "assigned" "" "nas" "") moved_world moved_placed) as H.
  revert H. generalize (alone (subnet ←? GetSubnet "s";
    CreateAddress same_text subnet (MkAddressInput "10.1.7.7" "assigned" "" "nas" "")) moved_world).
  intros [[a0|e] w'] H; exact H.
Defined.

Lemma DeleteSubnet_detaches_witness :
  (alone (GetAddress "a") (alone (DeleteSubnet "s") moved_world).2).1 = Err ErrNull.
Proof.
  pose proof (DeleteSubnet_detaches "s" moved_world (proj1 moved_placed) (λ _, eq_refl)) as H.
  assert (is_Some (iv_subnets (w_inv moved_world) !! "s")) as Hid by by eexists.
  specialize (H Hid). destruct (alone (DeleteSubnet "s") moved_world) as [res w'].
  destruct H as (_ & _ & _ & H). specialize (H "10.1.0.5" _ eq_refl). destruct (decide _) as [|Hn].
  - apply H.
  - by destruct Hn.
Defined.

Definition orphan_inventory : Inventory :=
  with_addresses {["10.1.0.5" := MkAddressRow "a" None (Some "d") "assigned" "" "" None]}
    (with_devices {["d" := plain_device "nas" "" 0]} empty_inventory).

Lemma orphan_wf : inv_wf orphan_inventory.
Proof.
  split.
  - intros sid s n Hs. cbn in Hs. by apply lookup_empty_Some in Hs.
  - intros ip a0 Ha. single Ha. split; [by intros k Hk|]. apply resolves_Some. cbn. by rewrite lookup_singleton_eq.
  - intros m r Hm. cbn in Hm. by apply lookup_empty_Some in Hm.
  - intros k r Hk. cbn in Hk. by apply lookup_empty_Some in Hk.
  - intros ip1 ip2 a1 a2 H1 H2 _. single H1. single H2. done.
  - intros k1 k2 r1 r2 Hk. cbn in Hk. by apply lookup_empty_Some in Hk.
Qed.

Lemma DeleteAddress_takes_orphans_witness :
  ∃ v', delete_address "a" orphan_inventory = Ok v' ∧ iv_devices v' !! "d" = None.
Proof.
  assert (∃ v', delete_address "a" orphan_inventory = Ok v') as [v' Hv] by (vm_compute; by eexists).
  exists v'. split; [exact Hv|].
  destruct (DeleteAddress_takes_orphans "10.1.0.5" "d" _ orphan_inventory v' orphan_wf eq_refl eq_refl ltac:(done) Hv)
    as (_ & _ & _ & H & _).
  apply H. intros k b Hk _. by single Hk.
Defined.
