(* ===== verification/Fields.v ===== *)
(** * Custom fields

    What [Bulk]'s custom fields promise: names unique up to case, values of
    existing fields only, and a form that stores exactly what it holds. *)

From S2P Require Import Prelude GoStrings GoTime Process Scans Queue Inventory Import InventorySpec Integrity Records Bulk RecordsSpec Placement.
Local Open Scope Z_scope.

Section fields.
Context {env : Env} (lower : string → string).

(** Names are unique within an entity type, up to case; values are of fields
    that exist. *)
Record fields_wf (v : Inventory) : Prop :=
  { field_names : ∀ i j d e, iv_fields v !! i = Some d → iv_fields v !! j = Some e →
      cf_EntityType d = cf_EntityType e → lower (cf_Name d) = lower (cf_Name e) → i = j;
    field_values : ∀ f e x, iv_values v !! (f, e) = Some x → is_Some (iv_fields v !! f) ∧ x ≠ "" }.

Lemma field_exists_false f entityType v :
  field_exists f entityType v = false →
  ∀ i d, iv_fields v !! i = Some d → cf_EntityType d = entityType → f (cf_Name d) = false.
Proof.
  intros Hf i d Hi He. apply not_true_is_false. intros Ht. apply not_true_iff_false in Hf. apply Hf.
  apply existsb_exists. exists (i, d). split; [by apply list_elem_of_In, elem_of_map_to_list|]. cbn.
  by rewrite bool_decide_eq_true_2, Ht.
Qed.

Lemma CreateCustomFieldDef_wf entityType name : keeps_alone fields_wf (CreateCustomFieldDef lower entityType name).
Proof.
  unfold CreateCustomFieldDef. destruct (negb _); [by apply triple_err|]. destruct (decide _); [by apply triple_err|].
  set (nm := trim_space name) in *.
  eapply (triple_try _ _ _ _ (λ b v, fields_wf v ∧ b = field_exists (λ m, bool_decide (lower m = lower nm)) entityType v)).
  { apply triple_stmt; [done|]. intros now w b w' Hw Hx. by simplify_eq. }
  intros [|]; [by apply triple_err; intros v []|].
  eapply (triple_try _ _ _ _ (λ _ v, fields_wf v ∧ false = field_exists (λ m, bool_decide (lower m = lower nm)) entityType v));
    [by apply triple_token; intros v []|]. intros id.
  apply triple_stmt; [by intros v []|]. intros now w d w' [Hw Hex] Hx. unfold insert_field in Hx.
  destruct (_ || _) eqn:Hdup; [done|]. cbn in Hx. simplify_eq. apply orb_false_iff in Hdup as [Hid _].
  apply bool_decide_eq_false in Hid. apply eq_sym in Hex. pose proof (field_exists_false _ _ _ Hex) as Hnone.
  destruct Hw as [Hn Hv]. split; cbn.
  - intros i j a b. rewrite !lookup_insert_Some.
    intros [[<- <-]|[Hi Ha]] [[<- <-]|[Hj Hb]] He Hl; [done| | |by eapply Hn].
    + pose proof (Hnone j b Hb (eq_sym He)) as Hf. apply bool_decide_eq_false in Hf. by destruct Hf.
    + pose proof (Hnone i a Ha He) as Hf. apply bool_decide_eq_false in Hf. by destruct Hf.
  - intros f e x Hx'. destruct (Hv _ _ _ Hx'). split; [|done]. by apply is_Some_insert.
Qed.

Lemma DeleteCustomFieldDef_wf id : keeps_alone fields_wf (DeleteCustomFieldDef id).
Proof.
  apply keeps_alone_stmt. intros now w [] w' Hx [Hn Hv]. destruct (bool_decide _); simplify_eq. split; cbn.
  - intros i j d e [_ Hi]%lookup_delete_Some [_ Hj]%lookup_delete_Some. by eapply Hn.
  - intros f e x [Hx Hne]%map_lookup_filter_Some. destruct (Hv _ _ _ Hx). cbn in Hne. by rewrite lookup_delete_ne.
Qed.

(** What the form leaves of one value. *)
Definition form_value (values : gmap string string) (f : string) (old : option string) : option string :=
  match values !! f with None => old | Some x => nonempty (trim_space x) end.

Lemma set_value_Ok entityID values v f :
  is_Some (iv_fields v !! f) →
  ∃ v', set_value entityID values v f = Ok v' ∧ v' = with_fields (iv_fields v) (iv_values v') v ∧
    ∀ g e, iv_values v' !! (g, e) =
      if decide (g = f ∧ e = entityID) then form_value values g (iv_values v !! (g, e)) else iv_values v !! (g, e).
Proof.
  intros Hf. unfold set_value, form_value, nonempty. destruct (values !! f) as [x|] eqn:Hx.
  - destruct (decide (trim_space x = "")) as [Ht|Ht].
    + eexists. split; [done|]. split; [done|]. intros g e. cbn. destruct (decide (g = f ∧ e = entityID)) as [[-> ->]|Hne].
      * rewrite Hx, decide_True by done. by rewrite lookup_delete_eq.
      * rewrite lookup_delete_ne; [done|]. intros [= <- <-]. by apply Hne.
    + rewrite bool_decide_eq_false_2 by (destruct Hf as [d ->]; done).
      eexists. split; [done|]. split; [done|]. intros g e. cbn. destruct (decide (g = f ∧ e = entityID)) as [[-> ->]|Hne].
      * rewrite Hx, decide_False by done. by rewrite lookup_insert_eq.
      * rewrite lookup_insert_ne; [done|]. intros [= <- <-]. by apply Hne.
  - exists v. split; [done|]. split; [by destruct v|]. intros g e. destruct (decide (g = f ∧ e = entityID)) as [[-> ->]|]; [|done].
    by rewrite Hx.
Qed.

Lemma set_values_Ok entityID values ids v :
  NoDup ids → (∀ f, f ∈ ids → is_Some (iv_fields v !! f)) →
  ∃ v', set_values entityID values ids v = Ok v' ∧ v' = with_fields (iv_fields v) (iv_values v') v ∧
    ∀ g e, iv_values v' !! (g, e) =
      if decide (g ∈ ids ∧ e = entityID) then form_value values g (iv_values v !! (g, e)) else iv_values v !! (g, e).
Proof.
  revert v. induction ids as [|f ids IH]; intros v Hnd Hf.
  { exists v. split; [done|]. split; [by destruct v|]. intros g e. rewrite decide_False; [done|]. by intros [?%not_elem_of_nil _]. }
  apply NoDup_cons in Hnd as [Hnot Hnd].
  destruct (set_value_Ok entityID values v f (Hf f (list_elem_of_here _ _))) as (v1 & H1 & E1 & L1).
  destruct (IH v1 Hnd) as (v2 & H2 & E2 & L2).
  { intros g Hg. rewrite E1. cbn. apply Hf. apply elem_of_cons. by right. }
  exists v2. cbn [set_values]. rewrite H1. cbn [mbind result_bind]. split; [exact H2|]. split.
  { rewrite E2. cbn. rewrite E1 at 1 2. done. }
  intros g e. rewrite L2, L1. destruct (decide (g ∈ ids ∧ e = entityID)) as [[Hg ->]|Hn].
  - rewrite decide_False by (by intros [-> _]).
    rewrite decide_True by (split; [apply elem_of_cons; by right|done]). done.
  - destruct (decide (g = f ∧ e = entityID)) as [[-> ->]|Hn'].
    + rewrite decide_True by (split; [apply elem_of_cons; by left|done]). done.
    + rewrite decide_False; [done|]. intros [[->|Hg]%elem_of_cons ->]; [by apply Hn'|by apply Hn].
Qed.

Lemma field_ids_elem entityType v f :
  f ∈ field_ids entityType v ↔ ∃ d, iv_fields v !! f = Some d ∧ cf_EntityType d = entityType.
Proof.
  unfold field_ids. rewrite list_elem_of_omap. split.
  - intros ((f' & d) & Hin%elem_of_map_to_list & Hf). cbn in Hf. case_bool_decide; simplify_eq. by exists d.
  - intros (d & Hd & He). exists (f, d). split; [by apply elem_of_map_to_list|]. cbn. by rewrite bool_decide_eq_true_2.
Qed.

Lemma field_ids_NoDup entityType v : NoDup (field_ids entityType v).
Proof.
  unfold field_ids. pose proof (NoDup_fst_map_to_list (iv_fields v)) as Hnd.
  induction (map_to_list (iv_fields v)) as [|[f d] l IH]; [constructor|]. cbn in Hnd.
  apply NoDup_cons in Hnd as [Hn Hnd]. cbn. case_bool_decide; [|by apply IH]. constructor; [|by apply IH].
  intros ((f' & d') & Hin & Hf)%list_elem_of_omap. cbn in Hf. case_bool_decide; simplify_eq.
  apply Hn, list_elem_of_fmap. by exists (f, d').
Qed.

(** The custom-field form of an entity, running alone with statements that
    arrive, never fails, and afterwards the page shows, for every field of the
    entity's type, the submitted text trimmed, nothing where it was blank, and
    the old value where the form had no such field; no other entity's values and
    no definition change. *)
Theorem SetCustomFieldValues_spec (entityType entityID : string) (values : gmap string string) (w : World Inventory)
    (Hcalm : ∀ n, fault n = false) (Hid : entityID ≠ "") :
  let '(res, w') := alone (SetCustomFieldValues entityType entityID values) w in
  let v := w_inv w in
  let v' := w_inv w' in
  res = Ok () ∧ iv_fields v' = iv_fields v ∧
  (∀ f e, e ≠ entityID → iv_values v' !! (f, e) = iv_values v !! (f, e)) ∧
  (alone (CustomFieldValues entityType entityID) w').1 =
    Ok (map (λ f, (f, match values !! f with
                      | Some x => trim_space x
                      | None => default "" (iv_values v !! (f, entityID))
                      end)) (field_ids entityType v)).
Proof.
  unfold SetCustomFieldValues. rewrite decide_False by done. rewrite alone_try, alone_stmt. unfold run_stmt.
  rewrite Hcalm. cbn [w_inv bump]. set (v := w_inv w). set (ids := field_ids entityType v).
  destruct (set_values_Ok entityID values ids v (field_ids_NoDup _ _)) as (v' & Hset & Hv' & Hlook).
  { intros f (d & Hd & _)%field_ids_elem. by exists d. }
  assert (∀ f, f ∈ ids → default "" (iv_values v' !! (f, entityID)) =
    match values !! f with Some x => trim_space x | None => default "" (iv_values v !! (f, entityID)) end) as Hshow.
  { intros f Hf. rewrite Hlook, decide_True by done. unfold form_value, nonempty.
    destruct (values !! f) as [x|]; [|done]. by destruct (decide (trim_space x = "")) as [->|]. }
  assert (∀ w', w_inv w' = v' → (alone (CustomFieldValues entityType entityID) w').1 =
    Ok (map (λ f, (f, match values !! f with
      | Some x => trim_space x | None => default "" (iv_values v !! (f, entityID)) end)) ids)) as Hread.
  { intros w' Hw'. unfold CustomFieldValues. rewrite alone_stmt. unfold run_stmt. rewrite Hcalm. cbn [w_inv bump fst].
    rewrite Hw'. f_equal. assert (field_ids entityType v' = ids) as -> by (by rewrite Hv').
    apply map_ext_in. intros f Hf. by rewrite Hshow by (by apply list_elem_of_In). }
  destruct (decide (ids = [])) as [He|He].
  - rewrite alone_ret. cbn [w_inv bump]. split_and!; [done|done|done|]. apply Hread. cbn.
    rewrite He in Hset. cbn in Hset. by injection Hset as <-.
  - rewrite alone_stmt. unfold run_stmt. rewrite Hcalm. cbn [w_inv bump]. fold v. rewrite Hset. cbn [mbind result_bind w_inv with_inv].
    split_and!; [done|by rewrite Hv'| |by apply Hread].
    intros f e Hne. rewrite Hlook, decide_False; [done|]. by intros [_ ->].
Qed.
End fields.

(** ** A concrete form *)

#[local] Instance fields_env : Env :=
  {| clock := λ _, 0; fault := λ _, false; token := λ _, Some "t"; jsonb_in := λ s, Some s |}.

Definition fields_world : World Inventory :=
  MkWorld ∅ ∅ ∅ ∅ ∅ [] (with_fields {["owner" := MkCustomField "subnet" "Owner" "text" 0]} ∅ empty_inventory) [] 0.

Lemma SetCustomFieldValues_spec_witness :
  (alone (CustomFieldValues "subnet" "s1")
     (alone (SetCustomFieldValues "subnet" "s1" {["owner" := "  ops "]}) fields_world).2).1 = Ok [("owner", "ops")].
Proof.
  pose proof (SetCustomFieldValues_spec "subnet" "s1" {["owner" := "  ops "]} fields_world (λ _, eq_refl) ltac:(done)) as H.
  destruct (alone (SetCustomFieldValues "subnet" "s1" _) fields_world) as [res w'].
  destruct H as (_ & _ & _ & H). cbn [snd]. rewrite H. vm_compute. reflexivity.
Defined.
