(* ===== verification/Portability.v ===== *)
(** * Import and export

    [internal/app/portability.go] and [internal/app/netbox.go]: the CSV dialects,
    the validation of a file against the records, row by row, and its application.
    A message shown to the operator is the constructor of its error. *)

From S2P Require Import Prelude GoStrings Netip Ipam Csv GoTime Process Scans Queue Inventory Import Records Bulk.
Local Open Scope Z_scope.

Definition subnetCSVColumns : list string := ["name"; "cidr"; "vlan"; "site"; "description"].
Definition addressCSVColumns : list string := ["address"; "subnet"; "state"; "hostname"; "device"; "notes"].
Definition deviceCSVColumns : list string := ["name"; "description"].

(** ** What a file is validated against *)

Record existingSubnet : Type := MkExistingSubnet { es_prefix : Prefix; es_cidr : string }.

Record importContext : Type := MkImportContext
  { ic_subnets : list existingSubnet; ic_subnetByCIDR : gmap string string;
    ic_addresses : gset string; ic_sitesByName : gmap string string;
    ic_devicesByName : gmap string (list string) }.

Definition closer (ic : importContext) (addr : Addr) (best : string * string * Z) (s : existingSubnet) :
    string * string * Z :=
  if prefix_contains (es_prefix s) addr && (best.2 <? pfx_bits (es_prefix s))
  then (default "" (ic_subnetByCIDR ic !! es_cidr s), es_cidr s, pfx_bits (es_prefix s)) else best.

Definition containingSubnet (ic : importContext) (ip : string) : option (string * string) :=
  addr ← parse_addr ip;
  let '(id, cidr, bits) := foldl (closer ic addr) ("", "", -1) (ic_subnets ic) in
  if 0 <=? bits then Some (id, cidr) else None.

(** ** Rows *)

Inductive row_error : Type :=
| NameRequired | InvalidCIDR | InvalidVLAN | UnknownSite (site : string)
| DuplicateCIDR (cidr : string) (line : Z) | OverlapsLine (line : Z) | OverlapsExisting
| InvalidAddress | InvalidState | DuplicateAddress (address : string) (line : Z)
| NoContaining | UnknownDevice (name : string) | AmbiguousDevice (name : string) (n : nat).

Inductive file_error : Type :=
| MissingColumn (name : string) | NoContext | NotCSV | NoRows | NetBoxColumn (name : string)
| UnsupportedType | NotApplied.

Record importRow : Type := MkImportRow
  { ir_Line : Z; ir_Cells : list string; ir_Action : string; ir_Error : option row_error }.

Record importResult : Type := MkImportResult
  { res_Type : string; res_Columns : list string; res_Rows : list importRow;
    res_Created : Z; res_Updated : Z; res_Errors : Z; res_FileError : option file_error;
    res_CSV : string; res_Format : string }.

Definition result_init (type : string) (columns : list string) : importResult :=
  MkImportResult type columns [] 0 0 0 None "" "".
Definition file_failed (e : file_error) (r : importResult) : importResult :=
  MkImportResult (res_Type r) (res_Columns r) (res_Rows r) (res_Created r) (res_Updated r) (res_Errors r)
    (Some e) (res_CSV r) (res_Format r).
Definition count_row (row : importRow) (created updated errors : Z) (r : importResult) : importResult :=
  MkImportResult (res_Type r) (res_Columns r) (res_Rows r ++ [row]) (res_Created r + created)
    (res_Updated r + updated) (res_Errors r + errors) (res_FileError r) (res_CSV r) (res_Format r).
Definition with_source (csv format : string) (r : importResult) : importResult :=
  MkImportResult (res_Type r) (res_Columns r) (res_Rows r) (res_Created r) (res_Updated r) (res_Errors r)
    (res_FileError r) csv format.

(** ** Parsing *)

Definition bom : string := str_of_list (map byte_of [239; 187; 191]).
Definition header_name (h : string) : string := to_lower (trim_space (trim_prefix h bom)).

Definition parseCSV (body : string) : result csv_error (list string * list (list string)) :=
  records ← ReadAll body;
  match records with
  | [] => Ok ([], [])
  | header :: records => Ok (map header_name header, records)
  end.

(** The last column with a name. *)
Fixpoint column_index (i : nat) (header : list string) : gmap string nat :=
  match header with
  | [] => ∅
  | h :: header => let idx := column_index (S i) header in if decide (h ∈ header) then idx else <[h := i]> idx
  end.

Definition columnLookup (header required : list string) : result string (gmap string nat) :=
  let idx := column_index 0 header in
  match list_find (λ name, idx !! name = None) required with
  | Some (_, name) => Err name
  | None => Ok idx
  end.

Definition cell (row : list string) (idx : gmap string nat) (name : string) : string :=
  match idx !! name ≫= λ i, row !! i with Some x => trim_space x | None => "" end.

(** ** Validation

    The three validators run the same loop: a row fails, or is a create or an
    update and goes into the payload; what the rows before it hold is a state. *)

Section loop.
Context {S I : Type} (check : S → Z → list string → result row_error (S * bool * I)).

Definition row_step (line : Z) (row : list string) (acc : importResult * S * list I) : importResult * S * list I :=
  let '(res, st, imports) := acc in
  match check st line row with
  | Err e => (count_row (MkImportRow line row "error" (Some e)) 0 0 1 res, st, imports)
  | Ok (st, true, i) => (count_row (MkImportRow line row "update" None) 0 1 0 res, st, imports ++ [i])
  | Ok (st, false, i) => (count_row (MkImportRow line row "create" None) 1 0 0 res, st, imports ++ [i])
  end.

Fixpoint validate_rows (line : Z) (records : list (list string)) (acc : importResult * S * list I) :
    importResult * S * list I :=
  match records with
  | [] => acc
  | row :: records => validate_rows (line + 1) records (row_step line row acc)
  end.
End loop.

Definition guard {E} (ok : bool) (e : E) : result E unit := if ok then Ok () else Err e.

(** Subnets: the prefixes accepted so far, in order, and the lines of their CIDRs. *)
Definition subnet_state : Type := list (option Prefix * Z) * gmap string Z.

Definition overlaps_opt (p q : option Prefix) : bool :=
  match p, q with Some p, Some q => prefix_overlaps p q | _, _ => false end.

Definition check_subnet (ic : importContext) (idx : gmap string nat) (st : subnet_state) (line : Z) (row : list string) :
    result row_error (subnet_state * bool * SubnetImport) :=
  let '(pending, seen) := st in
  let name := cell row idx "name" in
  _ ← guard (negb (bool_decide (name = ""))) NameRequired;
  cidr ← (match NormalizeCIDR (cell row idx "cidr") with Ok c => Ok c | Err _ => Err InvalidCIDR end);
  vlan ← (match ParseVLAN (cell row idx "vlan") with Ok v => Ok v | Err _ => Err InvalidVLAN end);
  siteID ← (let site := cell row idx "site" in
            if decide (site = "") then Ok ""
            else of_option (UnknownSite site) (ic_sitesByName ic !! to_lower site));
  _ ← (match seen !! cidr with Some prev => Err (DuplicateCIDR cidr prev) | None => Ok () end);
  let prefix := parse_prefix cidr in
  _ ← (match list_find (λ p, overlaps_opt p.1 prefix = true) pending with
       | Some (_, p) => Err (OverlapsLine p.2)
       | None => Ok ()
       end);
  let isUpdate := bool_decide (is_Some (ic_subnetByCIDR ic !! cidr)) in
  _ ← guard (isUpdate || negb (existsb (λ s, overlaps_opt (Some (es_prefix s)) prefix) (ic_subnets ic))) OverlapsExisting;
  Ok ((pending ++ [(prefix, line)], <[cidr := line]> seen), isUpdate,
      MkSubnetImport siteID cidr name vlan (cell row idx "description")).

Definition check_address (ic : importContext) (idx : gmap string nat) (seen : gmap string Z) (line : Z)
    (row : list string) : result row_error (gmap string Z * bool * AddressImport) :=
  let state := to_lower (cell row idx "state") in
  address ← (match NormalizeIPv4 (cell row idx "address") with Ok a => Ok a | Err _ => Err InvalidAddress end);
  _ ← guard (state_in state) InvalidState;
  _ ← (match seen !! address with Some prev => Err (DuplicateAddress address prev) | None => Ok () end);
  '(subnetID, _) ← of_option NoContaining (containingSubnet ic address);
  deviceID ← (let device := cell row idx "device" in
              if decide (device = "") then Ok ""
              else match default [] (ic_devicesByName ic !! to_lower device) with
                   | [] => Err (UnknownDevice device)
                   | [id] => Ok id
                   | ids => Err (AmbiguousDevice device (length ids))
                   end);
  Ok (<[address := line]> seen, bool_decide (address ∈ ic_addresses ic),
      MkAddressImport address subnetID deviceID state (cell row idx "hostname") (cell row idx "notes")).

Definition check_device (ic : importContext) (idx : gmap string nat) (seen : gset string) (line : Z)
    (row : list string) : result row_error (gset string * bool * DeviceImport) :=
  let name := cell row idx "name" in
  _ ← guard (negb (bool_decide (name = ""))) NameRequired;
  let key := to_lower name in
  Ok ({[key]} ∪ seen, bool_decide (is_Some (ic_devicesByName ic !! key)) || bool_decide (key ∈ seen),
      MkDeviceImport name (cell row idx "description")).

Definition validateSubnets (records : list (list string)) (header : list string) (ic : importContext) :
    importResult * list SubnetImport :=
  let res := result_init "subnets" subnetCSVColumns in
  match columnLookup header ["name"; "cidr"] with
  | Err missing => (file_failed (MissingColumn missing) res, [])
  | Ok idx => let '(res, _, imports) := validate_rows (check_subnet ic idx) 2 records (res, ([], ∅), []) in (res, imports)
  end.

Definition validateAddresses (records : list (list string)) (header : list string) (ic : importContext) :
    importResult * list AddressImport :=
  let res := result_init "addresses" addressCSVColumns in
  match columnLookup header ["address"; "state"] with
  | Err missing => (file_failed (MissingColumn missing) res, [])
  | Ok idx => let '(res, _, imports) := validate_rows (check_address ic idx) 2 records (res, ∅, []) in (res, imports)
  end.

Definition validateDevices (records : list (list string)) (header : list string) (ic : importContext) :
    importResult * list DeviceImport :=
  let res := result_init "devices" deviceCSVColumns in
  match columnLookup header ["name"] with
  | Err missing => (file_failed (MissingColumn missing) res, [])
  | Ok idx => let '(res, _, imports) := validate_rows (check_device ic idx) 2 records (res, ∅, []) in (res, imports)
  end.

(** ** NetBox's columns *)

Definition formatLightIPAM : string := "lightipam".
Definition formatNetBox : string := "netbox".

Definition normalizeImportFormat (value : string) : string :=
  if decide (to_lower (trim_space value) = formatNetBox) then formatNetBox else formatLightIPAM.

Definition netboxSubnetColumns : list string := ["prefix"; "status"; "vlan_vid"; "site"; "description"].
Definition netboxAddressColumns : list string := ["address"; "status"; "dns_name"; "description"].
Definition netboxDeviceColumns : list string := ["name"; "status"; "description"].

Fixpoint firstNonEmpty (values : list string) : string :=
  match values with
  | [] => ""
  | v :: values => if decide (trim_space v = "") then firstNonEmpty values else trim_space v
  end.

Definition stripMask (address : string) : string :=
  match cut_byte "/"%char address with Some (host, _) => trim_space host | None => trim_space address end.

Definition mapNetBoxIPStatus (status : string) : string :=
  let s := to_lower (trim_space status) in
  if decide (s = "reserved") then "reserved" else if decide (s = "deprecated") then "deprecated" else "assigned".

Definition reverseNetBoxIPStatus (state : string) : string :=
  if decide (state = "reserved") then "reserved" else if decide (state = "deprecated") then "deprecated" else "active".

Definition netboxAddressString (address subnetCIDR : string) : string :=
  match parse_prefix subnetCIDR with
  | Some p => address +:+ "/" +:+ itoa (pfx_bits p)
  | None => address +:+ "/32"
  end.

Definition netbox_subnet (idx : gmap string nat) (row : list string) : list string :=
  let get := cell row idx in
  let name := if decide (get "description" = "") then get "prefix" else get "description" in
  [name; get "prefix"; firstNonEmpty [get "vlan_vid"; get "vlan_id"; get "vlan"]; get "site"; get "description"].
Definition netbox_address (idx : gmap string nat) (row : list string) : list string :=
  let get := cell row idx in
  [stripMask (get "address"); ""; mapNetBoxIPStatus (get "status"); get "dns_name"; ""; get "description"].
Definition netbox_device (idx : gmap string nat) (row : list string) : list string :=
  let get := cell row idx in [get "name"; firstNonEmpty [get "description"; get "comments"]].

Definition translateNetBoxImport (entity : string) (header : list string) (records : list (list string)) :
    result file_error (list string * list (list string)) :=
  let idx := column_index 0 header in
  let has name := bool_decide (is_Some (idx !! name)) in
  if decide (entity = "subnets") then
    if has "prefix" then Ok (subnetCSVColumns, map (netbox_subnet idx) records) else Err (NetBoxColumn "prefix")
  else if decide (entity = "addresses") then
    if has "address" then Ok (addressCSVColumns, map (netbox_address idx) records) else Err (NetBoxColumn "address")
  else if decide (entity = "devices") then
    if has "name" then Ok (deviceCSVColumns, map (netbox_device idx) records) else Err (NetBoxColumn "name")
  else Err UnsupportedType.

(** ** Export *)

Definition formula_triggers : list ascii :=
  ["="%char; "+"%char; "-"%char; "@"%char; byte_of 9; byte_of 13].

Definition sanitizeCSVCell (s : string) : string :=
  match s with
  | "" => ""
  | String c _ => if decide (c ∈ formula_triggers) then String "'"%char s else s
  end.

(** [beginCSV] and the rows written after it. *)
Definition csv_file (header : list string) (rows : list (list string)) : string :=
  write_all (map (map sanitizeCSVCell) (header :: rows)).

Definition vlan_text (vlan : option Z) : string := match vlan with Some n => itoa n | None => "" end.

Record AddressExport : Type := MkAddressExport
  { ae_Address : string; ae_Subnet : string; ae_State : string; ae_Hostname : string;
    ae_Device : string; ae_Notes : string }.

Section programs.
Context {env : Env}.
(** The names of the sites, and the [ORDER BY] of the listings: by name in the
    database's collation, by CIDR, by address. *)
Context (site_name : string → string)
        (by_cidr : list (string * Subnet) → list (string * Subnet))
        (by_address : list (string * AddressRow) → list (string * AddressRow))
        (by_name : ∀ A, (A → string) → list A → list A).

Definition ListSites : GoE Inventory (list (string * string)) :=
  stmt (λ _ w, Ok (by_name _ snd (map (λ id, (id, site_name id)) (elements (w_sites w))), w)).

Definition ListSubnets : GoE Inventory (list SubnetView) :=
  stmt (λ _ w,
    views ← mapM_result (λ p, scanSubnet p.1 p.2 (w_inv w)) (by_cidr (map_to_list (iv_subnets (w_inv w))));
    Ok (views, w)).

Definition ListDevices : GoE Inventory (list DeviceView) :=
  stmt (λ _ w,
    Ok (map (λ p, scanDevice p.1 p.2 (w_inv w))
          (by_name _ (λ p, dv_Name p.2) (map_to_list (iv_devices (w_inv w)))), w)).

Definition address_export (v : Inventory) (p : string * AddressRow) : AddressExport :=
  MkAddressExport p.1 (default "" (sn_cidr <$> (ad_Subnet p.2 ≫= λ s, iv_subnets v !! s)))
    (ad_State p.2) (ad_Hostname p.2) (default "" (dv_Name <$> (ad_Device p.2 ≫= λ d, iv_devices v !! d))) (ad_Notes p.2).

Definition ListAddressesForExport : GoE Inventory (list AddressExport) :=
  stmt (λ _ w, Ok (map (address_export (w_inv w)) (by_address (map_to_list (iv_addresses (w_inv w)))), w)).

(** [COALESCE(si.name, '')]. *)
Definition sv_SiteName (s : SubnetView) : string := if decide (sv_SiteID s = "") then "" else site_name (sv_SiteID s).

Definition add_subnet (ic : importContext) (s : SubnetView) : importContext :=
  MkImportContext
    (match parse_prefix (sv_CIDR s) with
     | Some p => ic_subnets ic ++ [MkExistingSubnet p (sv_CIDR s)]
     | None => ic_subnets ic
     end)
    (<[sv_CIDR s := sv_ID s]> (ic_subnetByCIDR ic)) (ic_addresses ic) (ic_sitesByName ic) (ic_devicesByName ic).

Definition name_key (name : string) : string := to_lower (trim_space name).

Definition add_device (devices : gmap string (list string)) (d : DeviceView) : gmap string (list string) :=
  let key := name_key (dv_Name (vw_Row d)) in <[key := default [] (devices !! key) ++ [vw_ID d]]> devices.

Definition import_context (subnets : list SubnetView) (sites : list (string * string)) (devices : list DeviceView)
    (addresses : list AddressExport) : importContext :=
  let ic := foldl add_subnet (MkImportContext [] ∅ ∅ ∅ ∅) subnets in
  MkImportContext (ic_subnets ic) (ic_subnetByCIDR ic) (list_to_set (map ae_Address addresses))
    (foldl (λ m s, <[name_key s.2 := s.1]> m) ∅ sites) (foldl add_device ∅ devices).

Definition buildImportContext : GoE Inventory importContext :=
  subnets ←? ListSubnets;
  sites ←? ListSites;
  devices ←? ListDevices;
  addresses ←? ListAddressesForExport;
  Ret (Ok (import_context subnets sites devices addresses)).

(** The typed payload of a validated file. *)
Inductive payload : Type :=
| NoPayload | PaySubnets (rows : list SubnetImport) | PayAddresses (rows : list AddressImport)
| PayDevices (rows : list DeviceImport).

(** The part of [validateImport] after the context is read. *)
Definition validate_body (ic : importContext) (entity body format : string) : importResult * payload :=
  let fail e := (file_failed e (MkImportResult entity [] [] 0 0 0 None body format), NoPayload) in
  match parseCSV body with
  | Err _ => fail NotCSV
  | Ok (header, records) =>
      if decide (records = []) then fail NoRows
      else
        match (if decide (format = formatNetBox) then translateNetBoxImport entity header records
               else Ok (header, records)) with
        | Err e => fail e
        | Ok (header, records) =>
            let source r := with_source body format r in
            if decide (entity = "subnets") then
              let '(r, rows) := validateSubnets records header ic in (source r, PaySubnets rows)
            else if decide (entity = "addresses") then
              let '(r, rows) := validateAddresses records header ic in (source r, PayAddresses rows)
            else if decide (entity = "devices") then
              let '(r, rows) := validateDevices records header ic in (source r, PayDevices rows)
            else (source (result_init "" []), NoPayload)
        end
  end.

Definition validateImport (entity body format : string) : Go Inventory (importResult * payload) :=
  ic ←! buildImportContext;
  match ic with
  | Err _ => Ret (file_failed NoContext (MkImportResult entity [] [] 0 0 0 None body format), NoPayload)
  | Ok ic => Ret (validate_body ic entity body format)
  end.

(** The files, as their handlers write them. *)
Definition subnet_record (s : SubnetView) : list string :=
  [sv_Name s; sv_CIDR s; vlan_text (sv_VLAN s); sv_SiteName s; sv_Description s].
Definition address_record (a : AddressExport) : list string :=
  [ae_Address a; ae_Subnet a; ae_State a; ae_Hostname a; ae_Device a; ae_Notes a].
Definition device_record (d : DeviceView) : list string := [dv_Name (vw_Row d); dv_Description (vw_Row d)].
Definition netbox_subnet_record (s : SubnetView) : list string :=
  [sv_CIDR s; "active"; vlan_text (sv_VLAN s); sv_SiteName s; sv_Name s].
Definition netbox_address_record (a : AddressExport) : list string :=
  [netboxAddressString (ae_Address a) (ae_Subnet a); reverseNetBoxIPStatus (ae_State a); ae_Hostname a; ae_Notes a].
Definition netbox_device_record (d : DeviceView) : list string :=
  [dv_Name (vw_Row d); "active"; dv_Description (vw_Row d)].

(** The bodies of the exports. *)
Definition subnets_csv (views : list SubnetView) : string := csv_file subnetCSVColumns (map subnet_record views).
Definition addresses_csv (rows : list AddressExport) : string := csv_file addressCSVColumns (map address_record rows).
Definition devices_csv (views : list DeviceView) : string := csv_file deviceCSVColumns (map device_record views).
Definition subnets_netbox (views : list SubnetView) : string :=
  csv_file netboxSubnetColumns (map netbox_subnet_record views).
Definition addresses_netbox (rows : list AddressExport) : string :=
  csv_file netboxAddressColumns (map netbox_address_record rows).
Definition devices_netbox (views : list DeviceView) : string :=
  csv_file netboxDeviceColumns (map netbox_device_record views).

(** The part of [importApply] between the form and the audit log: whether the
    file was applied, and the result to show when it was not. *)
Context (inet_in cidr_in : string → option string).

Definition apply_payload (p : payload) : GoE Inventory unit :=
  match p with
  | PaySubnets rows => ImportSubnets cidr_in rows
  | PayAddresses rows => ImportAddresses inet_in rows
  | PayDevices rows => ImportDevices rows
  | NoPayload => Ret (Ok ())
  end.

Definition apply_import (entity body format : string) : Go Inventory (importResult * bool) :=
  validated ←! validateImport entity body format;
  let '(result, payload) := validated in
  if bool_decide (res_FileError result ≠ None) || (0 <? res_Errors result) then Ret (result, false)
  else
    err ←! apply_payload payload;
    match err with
    | Err _ => Ret (file_failed NotApplied result, false)
    | Ok () => Ret (result, true)
    end.
End programs.
