(* ===== verification/PortabilitySpec.v ===== *)
(** * What an import promises

    Over [Portability]: the preview accounts for every row of the file, an import
    keeps the subnets disjoint, and a file the program exported changes nothing
    when it is imported again. *)

From S2P Require Import Prelude GoStrings Netip Ipam Csv GoTime Process Scans Queue Inventory Import InventorySpec Integrity Records Bulk RecordsSpec Placement Portability.
Local Open Scope Z_scope.

(** ** The preview *)

Definition rows_with (action : string) (r : importResult) : Z :=
  Z.of_nat (length (filter (λ row, ir_Action row = action) (res_Rows r))).

(** A row is a create or an update, or an error with its message. *)
Definition row_ok (row : importRow) : Prop :=
  (ir_Action row ∈ ["create"; "update"] ∧ ir_Error row = None) ∨ (ir_Action row = "error" ∧ is_Some (ir_Error row)).

(** The counts are those of the rows, which are numbered from [line] as in the
    file, and the payload has a row for each that is not an error. *)
Record tallied (line : Z) (r : importResult) (imports : nat) : Prop :=
  { tl_rows : Forall row_ok (res_Rows r);
    tl_lines : map ir_Line (res_Rows r) = imap (λ i _, line + Z.of_nat i) (res_Rows r);
    tl_created : res_Created r = rows_with "create" r;
    tl_updated : res_Updated r = rows_with "update" r;
    tl_errors : res_Errors r = rows_with "error" r;
    tl_imports : Z.of_nat imports = res_Created r + res_Updated r }.

Lemma tallied_init type columns line : tallied line (result_init type columns) 0.
Proof. by split. Qed.

Lemma imap_lines_snoc (line : Z) (l : list importRow) (x : importRow) :
  imap (λ i _, line + Z.of_nat i) (l ++ [x]) = imap (λ i _, line + Z.of_nat i) l ++ [line + Z.of_nat (length l)].
Proof. rewrite imap_app. cbn. by rewrite Nat.add_0_r. Qed.

(** One more row, with the counters it moves. *)
Lemma tallied_row line r n row :
  tallied line r n → row_ok row → ir_Line row = line + Z.of_nat (length (res_Rows r)) →
  tallied line (count_row row (if decide (ir_Action row = "create") then 1 else 0)
    (if decide (ir_Action row = "update") then 1 else 0) (if decide (ir_Action row = "error") then 1 else 0) r)
    (if decide (ir_Action row = "error") then n else S n).
Proof.
  intros [] Hok Hl. split; cbn.
  - apply Forall_app. by rewrite Forall_singleton.
  - rewrite map_app, imap_lines_snoc, tl_lines0. cbn. by rewrite Hl.
  - unfold rows_with in *. cbn. rewrite filter_app, length_app, Nat2Z.inj_add, tl_created0. f_equal.
    rewrite filter_cons. by destruct (decide _).
  - unfold rows_with in *. cbn. rewrite filter_app, length_app, Nat2Z.inj_add, tl_updated0. f_equal.
    rewrite filter_cons. by destruct (decide _).
  - unfold rows_with in *. cbn. rewrite filter_app, length_app, Nat2Z.inj_add, tl_errors0. f_equal.
    rewrite filter_cons. by destruct (decide _).
  - destruct row as [l c a e]. destruct Hok as [[Ha _]|[Ha _]]; cbn [ir_Action] in *.
    + apply elem_of_cons in Ha as [-> | ->%list_elem_of_singleton]; repeat case_decide; try done; lia.
    + subst a. repeat case_decide; try done; lia.
Qed.

Section loop.
Context {S I : Type} (check : S → Z → list string → result row_error (S * bool * I)).

Lemma row_step_tallied start line row res st imports :
  tallied start res (length imports) → line = start + Z.of_nat (length (res_Rows res)) →
  let '(res', st', imports') := row_step check line row (res, st, imports) in
  tallied start res' (length imports') ∧ map ir_Cells (res_Rows res') = map ir_Cells (res_Rows res) ++ [row] ∧
  res_FileError res' = res_FileError res.
Proof.
  intros Ht Hl. unfold row_step.
  destruct (check st line row) as [[[st' []] i]|e]; (split; [|split; [by (cbn; rewrite map_app)|done]]).
  - rewrite length_app, Nat.add_1_r. refine (tallied_row start res _ (MkImportRow line row "update" None) Ht _ Hl).
    left. split; [|done]. cbn. set_solver.
  - rewrite length_app, Nat.add_1_r. refine (tallied_row start res _ (MkImportRow line row "create" None) Ht _ Hl).
    left. split; [|done]. cbn. set_solver.
  - refine (tallied_row start res _ (MkImportRow line row "error" (Some e)) Ht _ Hl). right. by split; [|eexists].
Qed.

Lemma validate_rows_tallied start records line res st imports :
  tallied start res (length imports) → line = start + Z.of_nat (length (res_Rows res)) →
  let '(res', st', imports') := validate_rows check line records (res, st, imports) in
  tallied start res' (length imports') ∧ map ir_Cells (res_Rows res') = map ir_Cells (res_Rows res) ++ records ∧
  res_FileError res' = res_FileError res.
Proof.
  revert line res st imports. induction records as [|row records IH]; intros line res st imports Ht Hl; cbn [validate_rows].
  - by rewrite app_nil_r.
  - pose proof (row_step_tallied start line row res st imports Ht Hl) as H.
    destruct (row_step check line row (res, st, imports)) as [[res1 st1] imports1]. destruct H as (Ht1 & Hc & Hf).
    assert (length (res_Rows res1) = Datatypes.S (length (res_Rows res))) as Hn.
    { apply (f_equal length) in Hc. by rewrite length_app, !length_map, Nat.add_1_r in Hc. }
    specialize (IH (line + 1) res1 st1 imports1 Ht1). destruct (validate_rows _ _ _ _) as [[res' st'] imports'].
    destruct IH as (Ht' & Hc' & Hf'); [rewrite Hn; lia|]. split; [done|]. split; [|congruence].
    by rewrite Hc', Hc, <- app_assoc.
Qed.
End loop.

Definition payload_rows (p : payload) : nat :=
  match p with
  | NoPayload => 0
  | PaySubnets l => length l
  | PayAddresses l => length l
  | PayDevices l => length l
  end.

Definition reports (records : list (list string)) (r : importResult) (n : nat) : Prop :=
  tallied 2 r n ∧ (res_FileError r = None → map ir_Cells (res_Rows r) = records).

Lemma reports_failed records e type columns : reports records (file_failed e (result_init type columns)) 0.
Proof. split; [by split|done]. Qed.

Lemma validateSubnets_reports records header ic :
  let '(r, l) := validateSubnets records header ic in reports records r (length l).
Proof.
  unfold validateSubnets. destruct (columnLookup _ _) as [idx|]; [|apply reports_failed].
  pose proof (validate_rows_tallied (check_subnet ic idx) 2 records 2 (result_init "subnets" subnetCSVColumns) ([], ∅) [] (tallied_init _ _ _) eq_refl) as H.
  destruct (validate_rows _ _ _ _) as [[r st] l]. destruct H as (Ht & Hc & _). by split.
Qed.

Lemma validateAddresses_reports records header ic :
  let '(r, l) := validateAddresses records header ic in reports records r (length l).
Proof.
  unfold validateAddresses. destruct (columnLookup _ _) as [idx|]; [|apply reports_failed].
  pose proof (validate_rows_tallied (check_address ic idx) 2 records 2 (result_init "addresses" addressCSVColumns) ∅ [] (tallied_init _ _ _) eq_refl) as H.
  destruct (validate_rows _ _ _ _) as [[r st] l]. destruct H as (Ht & Hc & _). by split.
Qed.

Lemma validateDevices_reports records header ic :
  let '(r, l) := validateDevices records header ic in reports records r (length l).
Proof.
  unfold validateDevices. destruct (columnLookup _ _) as [idx|]; [|apply reports_failed].
  pose proof (validate_rows_tallied (check_device ic idx) 2 records 2 (result_init "devices" deviceCSVColumns) ∅ [] (tallied_init _ _ _) eq_refl) as H.
  destruct (validate_rows _ _ _ _) as [[r st] l]. destruct H as (Ht & Hc & _). by split.
Qed.

Lemma translate_rows entity header records header' records' :
  translateNetBoxImport entity header records = Ok (header', records') → length records' = length records.
Proof.
  unfold translateNetBoxImport. repeat case_decide; try (by intros);
    case_bool_decide; try (by intros); cbn; intros [= <- <-]; apply length_map.
Qed.

(** A preview accounts for the file: each data row is shown once, in order,
    under its line number; it is a create, an update or an error with a message;
    the three totals count those rows, and the payload has exactly the rows that
    are not errors. In the program's own format the cells are shown as read. *)
Theorem validate_body_accounts (ic : importContext) (entity body format : string) :
  let '(r, p) := validate_body ic entity body format in
  tallied 2 r (payload_rows p) ∧
  (entity ∈ ["subnets"; "addresses"; "devices"] → res_FileError r = None →
   ∃ header records, parseCSV body = Ok (header, records) ∧ length (res_Rows r) = length records ∧
     (format ≠ formatNetBox → map ir_Cells (res_Rows r) = records)).
Proof.
  assert (∀ e, tallied 2 (file_failed e (MkImportResult entity [] [] 0 0 0 None body format)) 0) as Hfail by by split.
  unfold validate_body. destruct (parseCSV body) as [[header records]|]; [|by split].
  destruct (decide (records = [])) as [|Hne]; [by split|].
  destruct (if decide (format = formatNetBox) then _ else _) as [[header' records']|] eqn:Htr; [|by split].
  assert (length records' = length records ∧ (format ≠ formatNetBox → records' = records)) as [Hlen Heq].
  { destruct (decide (format = formatNetBox)); [|by simplify_eq]. by apply translate_rows in Htr. }
  assert (∀ r n, reports records' r n → tallied 2 (with_source body format r) n ∧
    (res_FileError r = None → ∃ h k, Ok (header, records) = @Ok csv_error _ (h, k) ∧
      length (res_Rows r) = length k ∧ (format ≠ formatNetBox → map ir_Cells (res_Rows r) = k))) as Hrep.
  { intros r n [[] Hc]. split; [by split|]. intros Hf. exists header, records. specialize (Hc Hf). split; [done|].
    rewrite <- Hlen, <- (length_map ir_Cells), Hc. split; [done|]. intros Hn. by rewrite <- Heq. }
  clear Hfail Heq Hlen. destruct (decide (entity = "subnets")) as [He|He1].
  { pose proof (validateSubnets_reports records' header' ic) as Hv. destruct (validateSubnets _ _ _) as [r l].
    destruct (Hrep _ _ Hv). by split. }
  destruct (decide (entity = "addresses")) as [He|He2].
  { pose proof (validateAddresses_reports records' header' ic) as Hv. destruct (validateAddresses _ _ _) as [r l].
    destruct (Hrep _ _ Hv). by split. }
  destruct (decide (entity = "devices")) as [He|He3].
  { pose proof (validateDevices_reports records' header' ic) as Hv. destruct (validateDevices _ _ _) as [r l].
    destruct (Hrep _ _ Hv). by split. }
  split; [by split|]. intros Hin. exfalso. set_solver.
Qed.

(** ** What the rows of a payload satisfy *)

Lemma validate_rows_ind {S I} (check : S → Z → list string → result row_error (S * bool * I)) (P : S → list I → Prop) :
  (∀ st line row imports st' b i, P st imports → check st line row = Ok (st', b, i) → P st' (imports ++ [i])) →
  ∀ records line res st imports, P st imports →
    let '(_, st', imports') := validate_rows check line records (res, st, imports) in P st' imports'.
Proof.
  intros Hstep records. induction records as [|row records IH]; intros line res st imports HP; cbn [validate_rows]; [done|].
  unfold row_step. destruct (check st line row) as [[[st' b] i]|e] eqn:Hc; [|by apply IH].
  destruct b; apply IH; by eapply Hstep.
Qed.

Lemma overlaps_opt_parse c d : overlaps_opt (parse_prefix c) (parse_prefix d) = cidr_overlap c d.
Proof. done. Qed.

Lemma NormalizeCIDR_fixed s t : NormalizeCIDR s = Ok t → NormalizeCIDR t = Ok t.
Proof. intros H. by destruct (NormalizeCIDR_canonical s t H). Qed.

(** A row clear of what is there and of the rows before it, or an update. *)
Definition fit (base pending : list string) (r : SubnetImport) : Prop :=
  NormalizeCIDR (sm_CIDR r) = Ok (sm_CIDR r) ∧
  (∀ c, c ∈ pending → cidr_overlap c (sm_CIDR r) = false) ∧
  (sm_CIDR r ∈ base ∨ ∀ c, c ∈ base → cidr_overlap c (sm_CIDR r) = false).

Fixpoint all_fit (base pending : list string) (rows : list SubnetImport) : Prop :=
  match rows with
  | [] => True
  | r :: rows => fit base pending r ∧ all_fit base (pending ++ [sm_CIDR r]) rows
  end.

Lemma all_fit_snoc base pending rows r :
  all_fit base pending (rows ++ [r]) ↔ all_fit base pending rows ∧ fit base (pending ++ map sm_CIDR rows) r.
Proof.
  revert pending. induction rows as [|r0 rows IH]; intros pending; cbn.
  - rewrite app_nil_r. tauto.
  - rewrite IH, <- app_assoc. cbn. tauto.
Qed.

(** The context of an import says which CIDRs there are. *)
Definition knows_subnets (base : list string) (ic : importContext) : Prop :=
  (∀ c, is_Some (ic_subnetByCIDR ic !! c) → c ∈ base) ∧
  (∀ c p, c ∈ base → parse_prefix c = Some p → MkExistingSubnet p c ∈ ic_subnets ic).

Lemma check_subnet_fit base ic idx pending seen line row st b i :
  knows_subnets base ic → check_subnet ic idx (pending, seen) line row = Ok (st, b, i) →
  st.1 = pending ++ [(parse_prefix (sm_CIDR i), line)] ∧ NormalizeCIDR (sm_CIDR i) = Ok (sm_CIDR i) ∧
  (∀ p, p ∈ pending → overlaps_opt p.1 (parse_prefix (sm_CIDR i)) = false) ∧
  (sm_CIDR i ∈ base ∨ ∀ c, c ∈ base → cidr_overlap c (sm_CIDR i) = false).
Proof.
  intros [Hknown Hsub] H. unfold check_subnet in H.
  destruct (guard _ _) as [[]|]; [cbn [mbind result_bind] in H|done].
  destruct (NormalizeCIDR _) as [cidr|] eqn:Hn; [cbn [mbind result_bind] in H|done]. apply NormalizeCIDR_fixed in Hn.
  destruct (ParseVLAN _) as [vlan|]; [cbn [mbind result_bind] in H|done].
  destruct (if decide (cell row idx "site" = "") then _ else _) as [site|]; [|done].
  cbn [mbind result_bind] in H. destruct (seen !! cidr); [done|]. cbn [mbind result_bind] in H.
  destruct (list_find _ pending) as [[]|] eqn:Hpend; [done|]. cbn [mbind result_bind] in H.
  unfold guard in H. destruct (_ || _) eqn:Hg in H; [cbn [mbind result_bind] in H|done]. injection H as <- <- <-. cbn.
  split_and!; [done|done| |].
  - intros p Hp. apply not_true_is_false. rewrite list_find_None, Forall_forall in Hpend. by apply Hpend.
  - apply orb_true_iff in Hg as [Hu|Ho]; [left; apply Hknown; by apply bool_decide_eq_true in Hu|right].
    intros c Hc. apply not_true_is_false. intros Hov. apply negb_true_iff in Ho. apply not_true_iff_false in Ho. apply Ho.
    unfold cidr_overlap in Hov. destruct (parse_prefix c) as [p|] eqn:Hp; [|done].
    apply existsb_exists. exists (MkExistingSubnet p c). split; [by apply list_elem_of_In, Hsub|exact Hov].
Qed.

Lemma validateSubnets_fit base ic records header :
  knows_subnets base ic → all_fit base [] (validateSubnets records header ic).2.
Proof.
  intros Hic. unfold validateSubnets. destruct (columnLookup _ _) as [idx|]; [|done].
  pose proof (validate_rows_ind (check_subnet ic idx)
    (λ st imports, st.1.*1 = map (λ i, parse_prefix (sm_CIDR i)) imports ∧ all_fit base [] imports)) as H.
  assert (∀ st line row imports st' b i, st.1.*1 = map (λ i, parse_prefix (sm_CIDR i)) imports ∧ all_fit base [] imports →
    check_subnet ic idx st line row = Ok (st', b, i) →
    st'.1.*1 = map (λ i, parse_prefix (sm_CIDR i)) (imports ++ [i]) ∧ all_fit base [] (imports ++ [i])) as Hstep.
  { intros [pending seen] line row imports st' b i [Hp Hall] Hc.
    destruct (check_subnet_fit _ _ _ _ _ _ _ _ _ _ Hic Hc) as (-> & Hn & Hov & Hbase). cbn in Hp.
    rewrite fmap_app, map_app, Hp. split; [done|]. apply all_fit_snoc. split; [done|]. split; [done|]. split; [|done].
    intros c Hc'. cbn in Hc'. apply list_elem_of_fmap in Hc' as (j & -> & Hj). rewrite <- overlaps_opt_parse.
    assert (parse_prefix (sm_CIDR j) ∈ pending.*1) as (q & -> & Hq)%list_elem_of_fmap; [|by apply Hov].
    rewrite Hp. apply list_elem_of_fmap. by exists j. }
  specialize (H Hstep records 2 (result_init "subnets" subnetCSVColumns) ([], ∅) []).
  destruct (validate_rows _ _ _ _) as [[r st] l]. by apply H.
Qed.

(** An address whose subnet, if there is one with its identifier, contains it. *)
Definition housed (subnets : gmap string Subnet) (r : AddressImport) : Prop :=
  ∃ x, parse_addr (am_Address r) = Some x ∧ ∀ s, subnets !! am_SubnetID r = Some s →
    ∃ p, parse_prefix (sn_cidr s) = Some p ∧ prefix_contains p x = true.

(** The subnets of the context are in the table, under their identifiers. *)
Definition knows_ids (subnets : gmap string Subnet) (ic : importContext) : Prop :=
  (∀ e, e ∈ ic_subnets ic → parse_prefix (es_cidr e) = Some (es_prefix e) ∧ is_Some (ic_subnetByCIDR ic !! es_cidr e)) ∧
  (∀ c id s, ic_subnetByCIDR ic !! c = Some id → subnets !! id = Some s → sn_cidr s = c).

Lemma containingSubnet_housed subnets ic ip id cidr :
  knows_ids subnets ic → containingSubnet ic ip = Some (id, cidr) →
  ∃ x, parse_addr ip = Some x ∧ ∀ s, subnets !! id = Some s →
    ∃ p, parse_prefix (sn_cidr s) = Some p ∧ prefix_contains p x = true.
Proof.
  intros [Hlist Hids] H. unfold containingSubnet in H. destruct (parse_addr ip) as [x|]; [cbn in H|done].
  exists x. split; [done|]. intros s Hs.
  assert (∀ l best, (∀ e, e ∈ l → e ∈ ic_subnets ic) →
    (0 ≤ best.2 → ∃ e, e ∈ ic_subnets ic ∧ prefix_contains (es_prefix e) x = true ∧ best.1.1 = default "" (ic_subnetByCIDR ic !! es_cidr e)) →
    let r := foldl (closer ic x) best l in
    0 ≤ r.2 → ∃ e, e ∈ ic_subnets ic ∧ prefix_contains (es_prefix e) x = true ∧ r.1.1 = default "" (ic_subnetByCIDR ic !! es_cidr e)) as Hfold.
  { induction l as [|e l IH]; intros best Hl Hb; [done|]. cbn [foldl]. apply IH; [set_solver|].
    unfold closer. destruct (_ && _) eqn:Hc; [|done]. intros _. apply andb_true_iff in Hc as [Hc _].
    exists e. split; [set_solver|]. by split. }
  specialize (Hfold (ic_subnets ic) ("", "", -1) ltac:(done) ltac:(cbn; lia)). cbn zeta in Hfold.
  destruct (foldl _ _ _) as [[id' cidr'] bits]. destruct (Z.leb_spec 0 bits); [|done]. injection H as -> ->.
  destruct (Hfold ltac:(done)) as (e & He & Hc & Hid). cbn in Hid. destruct (Hlist e He) as [Hp [id' Hid']].
  rewrite Hid' in Hid. cbn in Hid. subst id'. rewrite (Hids _ _ _ Hid' Hs). by exists (es_prefix e).
Qed.

Lemma check_address_housed subnets ic idx seen line row st b i :
  knows_ids subnets ic → check_address ic idx seen line row = Ok (st, b, i) → housed subnets i.
Proof.
  intros Hic H. unfold check_address in H.
  destruct (NormalizeIPv4 _) as [address|]; [cbn [mbind result_bind] in H|done].
  destruct (guard _ _) as [[]|]; [cbn [mbind result_bind] in H|done].
  destruct (seen !! address); [done|]. cbn [mbind result_bind] in H.
  destruct (containingSubnet ic address) as [[id cidr]|] eqn:Hc; [cbn [mbind result_bind of_option] in H|done].
  destruct (if decide (cell row idx "device" = "") then _ else _) as [device|]; [|done].
  cbn [mbind result_bind] in H. injection H as <- <- <-. by eapply containingSubnet_housed.
Qed.

Lemma validateAddresses_housed subnets ic records header :
  knows_ids subnets ic → Forall (housed subnets) (validateAddresses records header ic).2.
Proof.
  intros Hic. unfold validateAddresses. destruct (columnLookup _ _) as [idx|]; [|by constructor].
  pose proof (validate_rows_ind (check_address ic idx) (λ _ imports, Forall (housed subnets) imports)) as H.
  specialize (H ltac:(intros; apply Forall_app; split; [done|]; apply Forall_singleton; by eapply check_address_housed)
    records 2 (result_init "addresses" addressCSVColumns) ∅ []).
  destruct (validate_rows _ _ _ _) as [[r st] l]. by apply H, Forall_nil.
Qed.

(** ** The context a program reads *)

Definition cidrs_of (v : Inventory) : list string := map (λ p, sn_cidr p.2) (map_to_list (iv_subnets v)).

Lemma cidrs_of_elem v c : c ∈ cidrs_of v ↔ ∃ id s, iv_subnets v !! id = Some s ∧ sn_cidr s = c.
Proof.
  unfold cidrs_of. rewrite list_elem_of_fmap. split.
  - intros ([id s] & -> & H%elem_of_map_to_list). by exists id, s.
  - intros (id & s & H & <-). exists (id, s). split; [done|]. by apply elem_of_map_to_list.
Qed.

Lemma foldl_add_subnet views ic :
  let ic' := foldl add_subnet ic views in
  (∀ c id, ic_subnetByCIDR ic' !! c = Some id →
     ic_subnetByCIDR ic !! c = Some id ∨ ∃ view, view ∈ views ∧ sv_CIDR view = c ∧ sv_ID view = id) ∧
  (∀ c, is_Some (ic_subnetByCIDR ic !! c) ∨ (∃ view, view ∈ views ∧ sv_CIDR view = c) → is_Some (ic_subnetByCIDR ic' !! c)) ∧
  (∀ e, e ∈ ic_subnets ic' ↔ e ∈ ic_subnets ic ∨
     ∃ view, view ∈ views ∧ sv_CIDR view = es_cidr e ∧ parse_prefix (es_cidr e) = Some (es_prefix e)).
Proof.
  cbn zeta. revert ic. induction views as [|view views IH]; intros ic; cbn [foldl].
  { split_and!; [auto| |].
    - intros c [H|(view & Hv%elem_of_nil & _)]; done.
    - intros e. split; [auto|]. intros [H|(view & Hv%elem_of_nil & _)]; done. }
  destruct (IH (add_subnet ic view)) as (H1 & H2 & H3). split_and!.
  - intros c id [H|(x & Hx & Hc)]%H1; [|right; exists x; split; [by right|done]].
    cbn in H. apply lookup_insert_Some in H as [[<- <-]|[_ H]]; [|by left].
    right. exists view. split; [by left|done].
  - intros c Hc. apply H2. destruct Hc as [Hc|(x & [->|Hx]%elem_of_cons & <-)].
    + left. cbn. by apply is_Some_insert.
    + left. cbn. rewrite lookup_insert_eq. by eexists.
    + right. by exists x.
  - intros e. rewrite H3. cbn. split.
    + intros [He|(x & Hx & Hc)]; [|right; exists x; split; [by right|done]].
      destruct (parse_prefix (sv_CIDR view)) as [p|] eqn:Hp; [|by left].
      apply elem_of_app in He as [He| ->%list_elem_of_singleton]; [by left|]. right. exists view.
      split; [by left|]. by split.
    + intros [He|(x & [->|Hx]%elem_of_cons & Hc & Hp)].
      * left. destruct (parse_prefix (sv_CIDR view)); [|done]. apply elem_of_app. by left.
      * left. rewrite Hc, Hp. apply elem_of_app. right. apply list_elem_of_singleton. rewrite <- Hc. by destruct e; cbn in *; subst.
      * right. exists x. by split.
Qed.

Section context.
Context {env : Env}.
Context (site_name : string → string)
        (by_cidr : list (string * Subnet) → list (string * Subnet))
        (by_address : list (string * AddressRow) → list (string * AddressRow))
        (by_name : ∀ A, (A → string) → list A → list A).
(** [ORDER BY] reorders. *)
Hypothesis Hby_cidr : ∀ l, by_cidr l ≡ₚ l.

(** The rows [ListSubnets] returns. *)
Definition views_of (v : Inventory) (views : list SubnetView) : Prop :=
  Forall2 (λ p view, scanSubnet p.1 p.2 v = Ok view) (by_cidr (map_to_list (iv_subnets v))) views.

Lemma scanSubnet_view id s v view : scanSubnet id s v = Ok view →
  sv_ID view = id ∧ sv_SiteID view = default "" (sn_site s) ∧ sv_CIDR view = sn_cidr s ∧ sv_Name view = sn_name s ∧
  sv_VLAN view = sn_vlan s ∧ sv_Description view = sn_description s.
Proof. unfold scanSubnet. destruct (AddressCapacity _); [|done]. by intros [= <-]. Qed.

Lemma views_of_elem v views view : views_of v views → view ∈ views →
  ∃ s, iv_subnets v !! sv_ID view = Some s ∧ sv_CIDR view = sn_cidr s.
Proof.
  intros Hv Hin. apply list_elem_of_lookup in Hin as [i Hi]. destruct (Forall2_lookup_r _ _ _ _ _ Hv Hi) as ([id s] & Hp & Hs).
  destruct (scanSubnet_view _ _ _ _ Hs) as (-> & _ & -> & _). exists s. split; [|done].
  apply elem_of_map_to_list. rewrite <- Hby_cidr. by apply list_elem_of_lookup_2 in Hp.
Qed.

Lemma views_of_has v views id s : views_of v views → iv_subnets v !! id = Some s →
  ∃ view, view ∈ views ∧ scanSubnet id s v = Ok view.
Proof.
  intros Hv Hs. assert ((id, s) ∈ by_cidr (map_to_list (iv_subnets v))) as Hin
    by (rewrite Hby_cidr; by apply elem_of_map_to_list).
  apply list_elem_of_lookup in Hin as [i Hi]. destruct (Forall2_lookup_l _ _ _ _ _ Hv Hi) as (view & Hp & Hview).
  exists view. split; [|done]. by apply list_elem_of_lookup_2 in Hp.
Qed.

(** What [buildImportContext] reads of an inventory. *)
Definition context_of (v : Inventory) (ic : importContext) : Prop :=
  ∃ views sites devices addresses, views_of v views ∧ ic = import_context views sites devices addresses.

Lemma context_knows v ic : context_of v ic → knows_subnets (cidrs_of v) ic ∧ knows_ids (iv_subnets v) ic.
Proof.
  intros (views & sites & devices & addresses & Hv & ->).
  destruct (foldl_add_subnet views (MkImportContext [] ∅ ∅ ∅ ∅)) as (H1 & H2 & H3). split; split; cbn.
  - intros c [id Hid]. apply H1 in Hid as [Hid|(view & Hin & <- & _)]; [cbn in Hid; by apply lookup_empty_Some in Hid|].
    destruct (views_of_elem v views view Hv Hin) as (s & Hs & ->). apply cidrs_of_elem. by eexists _, s.
  - intros c p (id & s & Hs & <-)%cidrs_of_elem Hp. destruct (views_of_has v views id s Hv Hs) as (view & Hin & Hsc).
    destruct (scanSubnet_view _ _ _ _ Hsc) as (_ & _ & Hc & _). apply H3. right. by exists view.
  - intros e He. apply H3 in He as [He|(view & Hin & Hc & Hp)]; [by apply not_elem_of_nil in He|]. split; [done|].
    apply H2. right. by exists view.
  - intros c id s Hid Hs. apply H1 in Hid as [Hid|(view & Hin & <- & <-)]; [cbn in Hid; by apply lookup_empty_Some in Hid|].
    destruct (views_of_elem v views view Hv Hin) as (t & Ht & ->). congruence.
Qed.

Lemma ListSubnets_views (E : Inventory → Prop) v0 :
  E v0 → triple E (λ v, v = v0) (ListSubnets by_cidr) (λ views v, v = v0 ∧ views_of v0 views).
Proof.
  intros HE. apply triple_stmt; [by intros ? ->|]. intros now w a w' Hw Hx.
  destruct (mapM_result _ _) as [views|] eqn:Hm; cbn in Hx; [|done]. simplify_eq. split; [done|].
  apply mapM_result_Ok. exact Hm.
Qed.

Lemma buildImportContext_context (E : Inventory → Prop) v0 :
  E v0 → triple E (λ v, v = v0) (buildImportContext site_name by_cidr by_address by_name)
           (λ ic v, v = v0 ∧ context_of v0 ic).
Proof.
  intros HE. assert (∀ A (f : Z → World Inventory → result db_error (A * World Inventory)) (R : Prop),
    (∀ now w a w', f now w = Ok (a, w') → w' = w) → triple E (λ v, v = v0 ∧ R) (stmt f) (λ _ v, v = v0 ∧ R)) as Hread.
  { intros A f R Hf. apply triple_read; [by intros v [-> _]|done]. }
  eapply triple_try; [by apply ListSubnets_views|]. intros views.
  eapply triple_try; [apply Hread; intros; by simplify_eq|]. intros sites.
  eapply triple_try; [apply Hread; intros; by simplify_eq|]. intros devices.
  eapply triple_try; [apply Hread; intros; by simplify_eq|]. intros addresses.
  apply triple_ret. intros v [-> Hv]. split; [done|]. by exists views, sites, devices, addresses.
Qed.

(** A preview changes nothing, and its payload fits the inventory. *)
Definition payload_fits (v : Inventory) (p : payload) : Prop :=
  match p with
  | PaySubnets rows => all_fit (cidrs_of v) [] rows
  | PayAddresses rows => Forall (housed (iv_subnets v)) rows
  | _ => True
  end.

Lemma validate_body_fits v ic entity body format : context_of v ic → payload_fits v (validate_body ic entity body format).2.
Proof.
  intros [Hs Hi]%context_knows. unfold validate_body. destruct (parseCSV body) as [[header records]|]; [|done].
  destruct (decide (records = [])); [done|]. destruct (if decide (format = formatNetBox) then _ else _) as [[h k]|]; [|done].
  destruct (decide (entity = "subnets")).
  { pose proof (validateSubnets_fit _ _ k h Hs) as H. by destruct (validateSubnets k h ic). }
  destruct (decide (entity = "addresses")).
  { pose proof (validateAddresses_housed _ _ k h Hi) as H. by destruct (validateAddresses k h ic). }
  destruct (decide (entity = "devices")); [|done]. by destruct (validateDevices k h ic).
Qed.

Lemma validateImport_fits entity body format w :
  let '((r, p), w') := alone (validateImport site_name by_cidr by_address by_name entity body format) w in
  w_inv w' = w_inv w ∧ payload_fits (w_inv w) p.
Proof.
  unfold validateImport. rewrite alone_bind.
  pose proof (buildImportContext_context (λ v, v = w_inv w) (w_inv w) eq_refl w eq_refl) as H.
  destruct (alone (buildImportContext _ _ _ _) w) as [[ic|e] w']; cbn.
  - destruct H as [Hw Hc]. pose proof (validate_body_fits (w_inv w) ic entity body format Hc) as Hp.
    destruct (validate_body ic entity body format) as [r p]. by split.
  - by split.
Qed.
End context.

(** ** Applying a file *)

Definition sound (v : Inventory) : Prop := placed v ∧ subnets_disjoint v.

Section applying.
Context {env : Env} (inet_in cidr_in : string → option string).
Hypothesis Hinet : inet_agrees inet_in.
(** PostgreSQL keeps the text of a canonical IPv4 network. *)
Hypothesis Hcidr : ∀ c d, NormalizeCIDR c = Ok c → cidr_in c = Some d → d = c.

Definition cidrs_are (base pending : list string) (v : Inventory) : Prop :=
  ∀ c, c ∈ cidrs_of v ↔ c ∈ base ∨ c ∈ pending.

Lemma subnet_with_cidr_Some c v id : subnet_with_cidr c v = Some id →
  ∃ s, iv_subnets v !! id = Some s ∧ sn_cidr s = c.
Proof.
  unfold subnet_with_cidr. rewrite fmap_Some. intros ([i [id' s]] & H & ->). apply list_find_Some in H as (H & Hc & _).
  exists s. split; [|done]. apply elem_of_map_to_list. by apply list_elem_of_lookup_2 in H.
Qed.

Lemma subnet_with_cidr_None c v : subnet_with_cidr c v = None → c ∉ cidrs_of v.
Proof.
  unfold subnet_with_cidr. rewrite fmap_None, list_find_None, Forall_forall.
  intros H (id & s & Hs & Hc)%cidrs_of_elem. apply (H (id, s)); [by apply elem_of_map_to_list|done].
Qed.

(** A subnet put where there was none with its CIDR, or in place of the one. *)
Lemma sound_put_subnet id s v :
  sound v → vlan_check (sn_vlan s) = Ok () →
  (∀ i t, iv_subnets v !! i = Some t → i ≠ id → cidr_overlap (sn_cidr t) (sn_cidr s) = false) →
  (∀ t, iv_subnets v !! id = Some t → sn_cidr t = sn_cidr s) →
  sound (with_subnets (<[id := s]> (iv_subnets v)) v).
Proof.
  intros [[Hw Hc] Hd] Hv Ho Hsame. split; [split|].
  - by apply wf_put_subnet.
  - intros ip a0 sid t Ha Hs. cbn. rewrite lookup_insert_Some. intros [[<- <-]|[_ Ht]]; [|by eapply Hc].
    destruct (wf_address _ Hw _ _ Ha) as [Hr _]. destruct (Hr id Hs) as [u Hu]. rewrite <- (Hsame u Hu). by eapply Hc.
  - by apply (disjoint_put id (sn_cidr s)).
Qed.

Lemma import_row_subnet_sound base pending t r w w' :
  import_row_subnet cidr_in t r w = Ok w' → fit base pending r →
  sound (w_inv w) → cidrs_are base pending (w_inv w) →
  sound (w_inv w') ∧ cidrs_are base (pending ++ [sm_CIDR r]) (w_inv w').
Proof.
  intros H (Hn & Hp & Hb) Hs Hc. unfold import_row_subnet in H. destruct t as [id|]; [cbn in H|done].
  destruct (cidr_in _) as [c|] eqn:Hin; [cbn in H|done]. apply (Hcidr _ _ Hn) in Hin as ->.
  destruct (vlan_check _) as [[]|] eqn:Hv; [cbn in H|done]. destruct (negb _); [done|].
  destruct (subnet_with_cidr (sm_CIDR r) (w_inv w)) as [old|] eqn:Hold.
  - destruct (subnet_with_cidr_Some _ _ _ Hold) as (s & Hlook & Hsc). injection H as <-. split.
    + apply sound_put_subnet; [done|exact Hv| |intros t Ht; cbn; congruence].
      intros i t Ht Hi. cbn. rewrite <- Hsc. destruct Hs as [_ Hd]. by apply (Hd i old).
    + intros d. rewrite cidrs_of_elem. cbn. split.
      * intros (i & t & Ht & <-). apply lookup_insert_Some in Ht as [[_ <-]|[_ Ht]]; [set_solver|].
        assert (sn_cidr t ∈ cidrs_of (w_inv w)) as [|]%Hc by (apply cidrs_of_elem; by exists i, t); set_solver.
      * intros Hd. assert (d ∈ cidrs_of (w_inv w)) as (i & t & Ht & Htd)%cidrs_of_elem.
        { apply Hc. destruct Hd as [|[| ->%list_elem_of_singleton]%elem_of_app]; [by left|by right|].
          apply Hc, cidrs_of_elem. by exists old, s. }
        destruct (decide (i = old)) as [->|Hi]; [|exists i, t; split; [by rewrite lookup_insert_ne|done]].
        eexists old, _. split; [apply lookup_insert_eq|]. cbn. congruence.
  - pose proof (subnet_with_cidr_None _ _ Hold) as Hnew. case_bool_decide as Hid; [done|]. injection H as <-.
    rewrite <- eq_None_not_Some in Hid.
    assert (sm_CIDR r ∉ base) as Hnb by (intros Hin; apply Hnew, Hc; by left). destruct Hb as [|Hb]; [done|]. split.
    + apply sound_put_subnet; [done|exact Hv| |congruence]. intros i t Ht _. cbn.
      assert (sn_cidr t ∈ cidrs_of (w_inv w)) as [|]%Hc by (apply cidrs_of_elem; by exists i, t); auto.
    + intros d. rewrite cidrs_of_elem. cbn. split.
      * intros (i & t & Ht & <-). apply lookup_insert_Some in Ht as [[_ <-]|[_ Ht]]; [set_solver|].
        assert (sn_cidr t ∈ cidrs_of (w_inv w)) as [|]%Hc by (apply cidrs_of_elem; by exists i, t); set_solver.
      * intros [Hd|[Hd| ->%list_elem_of_singleton]%elem_of_app].
        1,2: assert (d ∈ cidrs_of (w_inv w)) as (i & t & Ht & Htd)%cidrs_of_elem by (apply Hc; tauto);
          exists i, t; rewrite lookup_insert_ne by congruence; done.
        eexists id, _. split; [apply lookup_insert_eq|done].
Qed.

Lemma import_subnets_sound base rows pending w w' :
  import_rows (import_row_subnet cidr_in) rows w = Ok w' → all_fit base pending (map snd rows) →
  sound (w_inv w) → cidrs_are base pending (w_inv w) → sound (w_inv w').
Proof.
  revert pending w. induction rows as [|[t r] rows IH]; intros pending w H Hfit Hs Hc; cbn in H; [by simplify_eq|].
  destruct (import_row_subnet cidr_in t r w) as [w1|] eqn:Hr; [cbn in H|done]. destruct Hfit as [Hf Hfit].
  destruct (import_row_subnet_sound _ _ _ _ _ _ Hr Hf Hs Hc). by eapply IH.
Qed.

Lemma import_row_address_sound t r w w' :
  import_row_address inet_in t r w = Ok w' → housed (iv_subnets (w_inv w)) r → sound (w_inv w) →
  sound (w_inv w') ∧ iv_subnets (w_inv w') = iv_subnets (w_inv w).
Proof.
  intros H (x & Hx & Hh) [[Hw Hc] Hd]. pose proof (import_row_address_step inet_in t r w w' H) as (v & Hv & Hwf).
  unfold import_row_address in H. destruct t as [id|]; [cbn in H|done].
  destruct (inet_in _) as [ip|] eqn:Hip; [cbn in H|done]. destruct (negb (state_in _)); [done|]. destruct (negb _); [done|].
  assert (∀ aid seen, contained (with_addresses (<[ip := MkAddressRow aid (emptyToNil (am_SubnetID r)) (emptyToNil (am_DeviceID r))
    (am_State r) (am_Hostname r) (am_Notes r) seen]> (iv_addresses (w_inv w))) (w_inv w))) as Hput.
  { intros aid seen. apply contained_put; [done|]. intros sid s Hsid Hs. cbn in Hsid.
    assert (sid = am_SubnetID r) as -> by (unfold emptyToNil in Hsid; by destruct (decide _); simplify_eq).
    destruct (Hh s Hs) as (p & Hp & Hcp). unfold cidr_contains. by rewrite Hp, (Hinet _ _ _ Hip Hx). }
  assert (contained v ∧ subnets_disjoint v ∧ iv_subnets v = iv_subnets (w_inv w)) as (Hcv & Hdv & Hsv).
  { destruct (iv_addresses (w_inv w) !! ip) as [old|]; [|destruct (has_address_id _ _); [done|]]; subst w';
      injection H as Hvv; subst v; split_and!; try done; apply Hput. }
  subst w'. cbn. split; [split; [split; [by apply Hwf|done]|done]|done].
Qed.

Lemma import_addresses_sound rows w w' :
  import_rows (import_row_address inet_in) rows w = Ok w' → Forall (housed (iv_subnets (w_inv w))) (map snd rows) →
  sound (w_inv w) → sound (w_inv w').
Proof.
  revert w. induction rows as [|[t r] rows IH]; intros w H Hh Hs; cbn in H; [by simplify_eq|].
  destruct (import_row_address inet_in t r w) as [w1|] eqn:Hr; [cbn in H|done]. apply Forall_cons in Hh as [Hr0 Hh].
  destruct (import_row_address_sound _ _ _ _ Hr Hr0 Hs) as [Hs1 He]. apply (IH w1 H); [by rewrite He|done].
Qed.

Lemma import_row_device_sound now t r w w' : import_row_device t now r w = Ok w' → sound (w_inv w) → sound (w_inv w').
Proof.
  intros H [[Hw Hc] Hd]. pose proof (import_row_device_step now t r w w' H) as (v & -> & Hwf). cbn.
  assert (iv_addresses v = iv_addresses (w_inv w) ∧ iv_subnets v = iv_subnets (w_inv w)) as [Ha Hs].
  { unfold import_row_device in H. destruct (device_named _ _); [by injection H as <-|].
    destruct t; [cbn in H|done]. unfold insert_device in H. destruct (bool_decide _); [done|]. cbn in H. by injection H as <-. }
  split; [split; [by apply Hwf|]|].
  - intros ip a sid s. rewrite Ha, Hs. apply Hc.
  - intros i j s u. rewrite Hs. apply Hd.
Qed.

Lemma import_devices_sound now rows w w' :
  import_rows (λ t, import_row_device t now) rows w = Ok w' → sound (w_inv w) → sound (w_inv w').
Proof.
  revert w. induction rows as [|[t r] rows IH]; intros w H Hs; cbn in H; [by simplify_eq|].
  destruct (import_row_device t now r w) as [w1|] eqn:Hr; [cbn in H|done].
  apply (IH w1 H). by eapply import_row_device_sound.
Qed.

Lemma draw_tokens_rows {A} (rows : list A) w :
  let '(drawn, w') := alone (draw_tokens rows) w in w_inv w' = w_inv w ∧ w_sites w' = w_sites w ∧ map snd drawn = rows.
Proof.
  revert w. induction rows as [|r rows IH]; intros w; cbn [draw_tokens]; [done|].
  rewrite alone_bind. unfold draw_token. rewrite alone_atomic, alone_bind. specialize (IH (bump w)).
  destruct (alone (draw_tokens rows) (bump w)) as [drawn w']. destruct IH as (Hw & Hs & Hr). cbn. by rewrite Hw, Hs, Hr.
Qed.

(** A transaction over rows with their tokens. *)
Lemma import_run {A} (step : Z → option string → A → World Inventory → result db_error (World Inventory)) rows w :
  (∀ now drawn w1 w2, w_inv w1 = w_inv w → map snd drawn = rows → import_rows (step now) drawn w1 = Ok w2 → sound (w_inv w2)) →
  sound (w_inv w) →
  sound (w_inv (alone (drawn ←! draw_tokens rows; stmt (λ now w, w ← import_rows (step now) drawn w; Ok ((), w))) w).2).
Proof.
  intros Hstep Hs. rewrite alone_bind. pose proof (draw_tokens_rows rows w) as H.
  destruct (alone (draw_tokens rows) w) as [drawn w1]. destruct H as (Hw & _ & Hr). rewrite alone_stmt. unfold run_stmt.
  destruct (fault _); [cbn; by rewrite Hw|]. destruct (import_rows _ drawn (bump w1)) as [w2|] eqn:Hi; cbn; [|by rewrite Hw].
  by eapply (Hstep _ drawn (bump w1)).
Qed.

Lemma apply_payload_sound p w :
  payload_fits (w_inv w) p → sound (w_inv w) → sound (w_inv (alone (apply_payload inet_in cidr_in p) w).2).
Proof.
  intros Hp Hs. destruct p as [|rows|rows|rows]; cbn [apply_payload]; [done| | |].
  - apply (import_run (λ _, import_row_subnet cidr_in)); [|done]. intros now drawn w1 w2 Hw Hr Hi.
    apply (import_subnets_sound (cidrs_of (w_inv w)) drawn [] w1 w2 Hi); [by rewrite Hr|by rewrite Hw|].
    intros c. rewrite Hw. split; [by left|]. by intros [|?%not_elem_of_nil].
  - apply (import_run (λ _, import_row_address inet_in)); [|done]. intros now drawn w1 w2 Hw Hr Hi.
    apply (import_addresses_sound drawn w1 w2 Hi); [by rewrite Hr, Hw|by rewrite Hw].
  - apply (import_run (λ now t, import_row_device t now)); [|done]. intros now drawn w1 w2 Hw Hr Hi.
    apply (import_devices_sound now drawn w1 w2 Hi). by rewrite Hw.
Qed.

(** C34: a file, whatever it holds, in either dialect and for any kind of record,
    keeps the inventory sound when it is applied while nothing else runs:
    subnets do not overlap, every address is in its subnet, references resolve.
    The statements may fail. *)
Theorem apply_import_sound site_name by_cidr by_address by_name (Hby_cidr : ∀ l, by_cidr l ≡ₚ l)
    (entity body format : string) (w : World Inventory) (Hs : sound (w_inv w)) :
  sound (w_inv (alone (apply_import site_name by_cidr by_address by_name inet_in cidr_in entity body format) w).2).
Proof.
  unfold apply_import. rewrite alone_bind.
  pose proof (validateImport_fits site_name by_cidr by_address by_name Hby_cidr entity body format w) as Hv.
  destruct (alone (validateImport _ _ _ _ entity body format) w) as [[r p] w1]. destruct Hv as [Hw Hp].
  destruct (_ || _); [cbn; by rewrite Hw|]. rewrite alone_bind.
  pose proof (apply_payload_sound p w1) as H. rewrite Hw in H. specialize (H Hp Hs).
  destruct (alone (apply_payload _ _ p) w1) as [[[]|e] w2]; exact H.
Qed.
End applying.

(** ** Round trips *)

(** An exported file reads back as its header and its records, in order. A
    cell comes back as it was but for a carriage return before a line feed, and
    but for the quotation mark [sanitizeCSVCell] puts before a formula: the
    reader does not take that away. *)
Theorem parseCSV_csv_file (header : list string) (rows : list (list string))
    (Hheader : writable (map sanitizeCSVCell header)) (Hrows : Forall writable (map (map sanitizeCSVCell) rows)) :
  parseCSV (csv_file header rows) =
  Ok (map (λ h, header_name (crlf_to_lf (sanitizeCSVCell h))) header,
      map (map (λ f, crlf_to_lf (sanitizeCSVCell f))) rows).
Proof.
  unfold parseCSV, csv_file. cbn [map]. rewrite ReadAll_write_all by by constructor. cbn [mbind result_bind map].
  do 2 f_equal; [by rewrite !map_map|]. rewrite map_map. apply map_ext. intros l. apply map_map.
Qed.

(** A cell that comes back as it was. *)
Definition plain (s : string) : Prop := trim_space s = s ∧ crlf_to_lf s = s ∧ sanitizeCSVCell s = s.

Lemma plain_back s : plain s → crlf_to_lf (sanitizeCSVCell s) = s.
Proof. by intros (_ & Hc & ->). Qed.

Lemma wide_writable a b l : writable (map sanitizeCSVCell (a :: b :: l)).
Proof. by split. Qed.

Lemma plain_no_space s :
  (∀ c, Ascii.is_space c = true → count_byte c s = 0%nat) → (∀ c t, s = String c t → c ∉ formula_triggers) → plain s.
Proof.
  intros Hs Ht. split_and!; [by apply trim_space_id|apply crlf_none; by apply Hs|].
  destruct s as [|c t]; [done|]. cbn. rewrite decide_False; [done|]. by apply (Ht c t).
Qed.

Lemma digit_no_trigger c : is_digit c = true → c ∉ formula_triggers.
Proof. intros Hc Ht. unfold formula_triggers in Ht. rewrite !elem_of_cons in Ht. by destruct Ht as [->|[->|[->|[->|[->|[->|H%not_elem_of_nil]]]]]]. Qed.

Lemma itoa_digit z c t : 0 ≤ z → itoa z = String c t → is_digit c = true.
Proof.
  intros Hz H. destruct (is_digit c) eqn:Hd; [done|]. destruct (decide (c = "-"%char)) as [->|Hn].
  - unfold itoa in H. destruct (Z.ltb_spec z 0); [lia|]. unfold utoa in H. apply utoa_head in H; [|done]. by rewrite H in Hd.
  - pose proof (itoa_no_sep c z Hd Hn) as H0. rewrite H in H0. cbn in H0. by rewrite decide_True in H0.
Qed.

Lemma itoa_nonempty z : 0 ≤ z → itoa z ≠ "".
Proof. intros Hz. unfold itoa. destruct (Z.ltb_spec z 0); [lia|]. by apply utoa_go_nonempty. Qed.

Lemma addr4_string_head v c t : addr4_string v = String c t → is_digit c = true.
Proof.
  unfold addr4_string. pose proof (octets4_range v) as Hr. destruct (octets4 v) as [|z l] eqn:Ho; [done|].
  apply Forall_cons in Hr as [Hz _]. cbn [map]. rewrite join_app_head.
  destruct (itoa z) as [|d u] eqn:Hi; [by apply itoa_nonempty in Hi; [|lia]|].
  rewrite str_app_cons. intros [= <- _]. eapply itoa_digit; [|exact Hi]. lia.
Qed.

Lemma canonical_cidr c : NormalizeCIDR c = Ok c →
  ∃ p, prefix_wf p ∧ is4 (pfx_addr p) = true ∧ parse_prefix c = Some p ∧ c = prefix4_string p.
Proof.
  intros H. apply NormalizeCIDR_Ok in H as (p & Hp & H4 & Hc). exists (prefix_masked p).
  pose proof (parse_prefix4_wf _ _ Hp H4) as Hw. split_and!; [by apply prefix_masked_wf|by rewrite prefix_masked_is4| |done].
  rewrite Hc. by eapply parse_masked.
Qed.

Lemma canonical_plain c : NormalizeCIDR c = Ok c → plain c.
Proof.
  intros (p & Hw & H4 & _ & ->)%canonical_cidr. destruct p as [[v|] b]; [|done]. destruct Hw as [Hv _]. cbn in Hv.
  unfold prefix4_string. cbn [pfx_addr pfx_bits addr_val]. apply plain_no_space.
  - intros d (Hd & Hm & Hdot & Hs)%space_not_digit. rewrite !count_byte_app, addr4_string_no_sep, itoa_no_sep by done.
    cbn. by rewrite decide_False by congruence.
  - intros d t H. destruct (addr4_string v) as [|e u] eqn:He.
    + rewrite str_app_nil_l in H. injection H as <- _. by apply (bool_decide_unpack _).
    + rewrite str_app_cons in H. injection H as -> _. eapply digit_no_trigger, addr4_string_head, He.
Qed.

Lemma canonical_overlap_self c : NormalizeCIDR c = Ok c → cidr_overlap c c = true.
Proof.
  intros (p & Hw & H4 & Hp & _)%canonical_cidr. unfold cidr_overlap. rewrite Hp.
  apply prefix_overlaps4; try done. exists (prefix_first p). split; apply prefix_contains4; try done;
    assert (0 < prefix_count p) by (unfold prefix_count; pose proof (host_bits_range p Hw H4); lia); lia.
Qed.

Lemma vlan_plain vlan : vlan_check vlan = Ok () → plain (vlan_text vlan) ∧ ParseVLAN (vlan_text vlan) = Ok vlan.
Proof.
  destruct vlan as [n|]; [|done]. cbn. destruct (negb (int4 n)); [done|]. destruct (_ && _) eqn:Hn; [|done]. intros _.
  apply andb_true_iff in Hn as [H1%Z.leb_le H2%Z.leb_le].
  assert (plain (itoa n)) as Hpl.
  { apply plain_no_space; [intros d (Hd & Hm & _)%space_not_digit; by apply itoa_no_sep|].
    intros d t Hd. eapply digit_no_trigger, itoa_digit; [|exact Hd]. lia. }
  split; [done|]. unfold ParseVLAN. destruct Hpl as [-> _].
  assert (atoi (itoa n) = Some n) as Ha by (apply atoi_itoa; unfold in_int64, int64_min, int64_max; lia). rewrite Ha.
  destruct (decide (itoa n = "")) as [He|_]; [by rewrite He in Ha|].
  destruct (Z.ltb_spec n 1), (Z.ltb_spec 4094 n); (lia || done).
Qed.

(** *** Subnets, exported and imported again *)

Definition import_of (view : SubnetView) : SubnetImport :=
  MkSubnetImport (sv_SiteID view) (sv_CIDR view) (sv_Name view) (sv_VLAN view) (sv_Description view).

Section identity.
Context {env : Env}.
Context (site_name : string → string)
        (by_cidr : list (string * Subnet) → list (string * Subnet))
        (by_address : list (string * AddressRow) → list (string * AddressRow))
        (by_name : ∀ A, (A → string) → list A → list A)
        (inet_in cidr_in : string → option string).
Hypothesis Hby_cidr : ∀ l, by_cidr l ≡ₚ l.
Hypothesis Hby_name : ∀ A (f : A → string) l, by_name A f l ≡ₚ l.

(** A view the validation takes as it is: the context knows its CIDR and its site. *)
Record exported (ic : importContext) (view : SubnetView) : Prop :=
  { ex_cidr : NormalizeCIDR (sv_CIDR view) = Ok (sv_CIDR view);
    ex_known : is_Some (ic_subnetByCIDR ic !! sv_CIDR view);
    ex_name : plain (sv_Name view) ∧ sv_Name view ≠ "";
    ex_description : plain (sv_Description view);
    ex_vlan : vlan_check (sv_VLAN view) = Ok ();
    ex_site : plain (sv_SiteName site_name view) ∧
      (sv_SiteName site_name view = "" → sv_SiteID view = "") ∧
      (sv_SiteName site_name view ≠ "" → ic_sitesByName ic !! to_lower (sv_SiteName site_name view) = Some (sv_SiteID view)) }.

Definition subnet_index : gmap string nat := column_index 0 subnetCSVColumns.

Lemma subnet_cells view :
  let row := subnet_record site_name view in
  cell row subnet_index "name" = trim_space (sv_Name view) ∧
  cell row subnet_index "cidr" = trim_space (sv_CIDR view) ∧
  cell row subnet_index "vlan" = trim_space (vlan_text (sv_VLAN view)) ∧
  cell row subnet_index "site" = trim_space (sv_SiteName site_name view) ∧
  cell row subnet_index "description" = trim_space (sv_Description view).
Proof.
  cbn zeta. unfold cell.
  assert (subnet_index !! "name" = Some 0%nat ∧ subnet_index !! "cidr" = Some 1%nat ∧ subnet_index !! "vlan" = Some 2%nat ∧
    subnet_index !! "site" = Some 3%nat ∧ subnet_index !! "description" = Some 4%nat) as (-> & -> & -> & -> & ->)
    by (vm_compute; done).
  done.
Qed.

Lemma check_subnet_exported ic view pending seen line :
  exported ic view → seen !! sv_CIDR view = None →
  (∀ p, p ∈ pending → overlaps_opt p.1 (parse_prefix (sv_CIDR view)) = false) →
  check_subnet ic subnet_index (pending, seen) line (subnet_record site_name view) =
  Ok ((pending ++ [(parse_prefix (sv_CIDR view), line)], <[sv_CIDR view := line]> seen), true, import_of view).
Proof.
  intros [] Hseen Hp. destruct (subnet_cells view) as (Hn & Hc & Hv & Hs & Hd). cbn zeta in *.
  destruct ex_name0 as [[Hname _] Hne], ex_description0 as [Hdesc _], ex_site0 as ([Hsite _] & Hs1 & Hs2).
  destruct (canonical_plain _ ex_cidr0) as [Hcidr _]. destruct (vlan_plain _ ex_vlan0) as [[Hvt _] Hpv].
  unfold check_subnet. rewrite Hn, Hc, Hv, Hs, Hd, Hname, Hcidr, Hvt, Hsite, Hdesc, ex_cidr0, Hpv.
  unfold guard. rewrite bool_decide_eq_false_2 by done. cbn [negb mbind result_bind].
  assert ((if decide (sv_SiteName site_name view = "") then Ok ""
    else of_option (UnknownSite (sv_SiteName site_name view)) (ic_sitesByName ic !! to_lower (sv_SiteName site_name view))) =
    Ok (sv_SiteID view)) as ->.
  { destruct (decide _) as [He|He]; [by rewrite Hs1|]. by rewrite Hs2. }
  cbn [mbind result_bind]. rewrite Hseen. cbn [mbind result_bind].
  assert (list_find (λ p, overlaps_opt p.1 (parse_prefix (sv_CIDR view)) = true) pending = None) as ->.
  { apply list_find_None, Forall_forall. intros p Hin. rewrite Hp by done. done. }
  cbn [mbind result_bind]. by rewrite bool_decide_eq_true_2 by done.
Qed.

Lemma validate_exported ic views done_ line res pending seen imports :
  Forall (exported ic) views → ForallOrdPairs (λ x y, cidr_overlap (sv_CIDR x) (sv_CIDR y) = false) views →
  (∀ x y, x ∈ done_ → y ∈ views → cidr_overlap (sv_CIDR x) (sv_CIDR y) = false) →
  pending.*1 = map (λ x, parse_prefix (sv_CIDR x)) done_ → (∀ c, is_Some (seen !! c) → c ∈ map sv_CIDR done_) →
  let '(res', _, imports') := validate_rows (check_subnet ic subnet_index) line (map (subnet_record site_name) views)
                                (res, (pending, seen), imports) in
  imports' = imports ++ map import_of views ∧ res_FileError res' = res_FileError res ∧ res_Errors res' = res_Errors res ∧
  res_Created res' = res_Created res ∧ res_Updated res' = res_Updated res + Z.of_nat (length views).
Proof.
  revert done_ line res pending seen imports. induction views as [|view views IH];
    intros done_ line res pending seen imports Hex Hpair Hdone Hpend Hseen; cbn [map validate_rows].
  { rewrite app_nil_r. cbn. split_and!; (done || lia). }
  apply Forall_cons in Hex as [Hx Hex]. inversion Hpair as [|? ? Hview Hpair']; subst.
  assert (seen !! sv_CIDR view = None) as Hnew.
  { apply eq_None_not_Some. intros (x & Heq & Hin)%Hseen%list_elem_of_fmap.
    specialize (Hdone x view Hin ltac:(by left)). rewrite <- Heq in Hdone.
    by rewrite (canonical_overlap_self _ (ex_cidr _ _ Hx)) in Hdone. }
  unfold row_step. rewrite (check_subnet_exported ic view pending seen line Hx Hnew).
  2: { intros p Hp. assert (p.1 ∈ pending.*1) as Hin by (apply list_elem_of_fmap; by exists p).
       rewrite Hpend in Hin. apply list_elem_of_fmap in Hin as (x & -> & Hin). rewrite overlaps_opt_parse.
       apply Hdone; [done|by left]. }
  specialize (IH (done_ ++ [view]) (line + 1) (count_row (MkImportRow line (subnet_record site_name view) "update" None) 0 1 0 res)
    (pending ++ [(parse_prefix (sv_CIDR view), line)]) (<[sv_CIDR view := line]> seen) (imports ++ [import_of view]) Hex Hpair').
  destruct (validate_rows _ _ _ _) as [[res' st'] imports'].
  destruct IH as (-> & Hf & He & Hc & Hu).
  - intros x y [Hin| ->%list_elem_of_singleton]%elem_of_app Hy; [apply Hdone; [done|by right]|].
    rewrite Forall_forall in Hview. by apply Hview.
  - by rewrite fmap_app, map_app, Hpend.
  - intros c [x Hl]. rewrite map_app. apply elem_of_app.
    apply lookup_insert_Some in Hl as [[<- _]|[_ Hl]]; [right; by apply list_elem_of_singleton|left; apply Hseen; by eexists].
  - rewrite <- app_assoc. rewrite Hf, He, Hc, Hu. cbn. split_and!; (done || lia).
Qed.

(** An inventory whose subnets come back from a file: canonical CIDRs that do not
    overlap, trimmed texts without a formula or a carriage return, sites whose
    names tell them apart. *)
Record exportable (w : World Inventory) : Prop :=
  { xp_wf : inv_wf (w_inv w);
    xp_disjoint : subnets_disjoint (w_inv w);
    xp_subnet : ∀ id s, iv_subnets (w_inv w) !! id = Some s →
      NormalizeCIDR (sn_cidr s) = Ok (sn_cidr s) ∧ (plain (sn_name s) ∧ sn_name s ≠ "") ∧ plain (sn_description s);
    xp_sites : ∀ id s x, iv_subnets (w_inv w) !! id = Some s → sn_site s = Some x → x ∈ w_sites w;
    xp_site : ∀ x, x ∈ w_sites w → trim_space x ≠ "" ∧ plain (site_name x) ∧ site_name x ≠ "";
    xp_site_names : ∀ x y, x ∈ w_sites w → y ∈ w_sites w → to_lower (site_name x) = to_lower (site_name y) → x = y }.

Lemma foldl_sites (l : list (string * string)) (m : gmap string string) (p : string * string) :
  (∀ q r, q ∈ l → r ∈ l → name_key q.2 = name_key r.2 → q = r) → p ∈ l →
  foldl (λ m s, <[name_key s.2 := s.1]> m) m l !! name_key p.2 = Some p.1.
Proof.
  induction l as [|q l IH] using rev_ind; intros Hinj Hp; [by apply not_elem_of_nil in Hp|].
  rewrite foldl_app. cbn [foldl]. destruct (decide (name_key q.2 = name_key p.2)) as [He|Hne].
  - assert (q = p) as -> by (apply Hinj; [set_solver|done|done]). by rewrite lookup_insert_eq.
  - rewrite lookup_insert_ne by done. apply elem_of_app in Hp as [Hp| ->%list_elem_of_singleton]; [|done].
    apply IH; [|done]. intros a b Ha Hb. apply Hinj; set_solver.
Qed.

Lemma vlan_check_wf v id s : inv_wf v → iv_subnets v !! id = Some s → vlan_check (sn_vlan s) = Ok ().
Proof.
  intros Hw Hs. unfold vlan_check. destruct (sn_vlan s) as [n|] eqn:Hn; [|done]. destruct (wf_subnet _ Hw _ _ _ Hs Hn) as [H1 H2].
  unfold int4. replace (- 2 ^ 31 <=? n) with true by lia. replace (n <? 2 ^ 31) with true by lia.
  cbn. replace (1 <=? n) with true by lia. by replace (n <=? 4094) with true by lia.
Qed.

Definition site_rows (w : World Inventory) : list (string * string) :=
  by_name _ snd (map (λ id, (id, site_name id)) (elements (w_sites w))).

Lemma site_lookup w x : exportable w → x ∈ w_sites w →
  foldl (λ (m : gmap string string) s, <[name_key s.2 := s.1]> m) ∅ (site_rows w) !! to_lower (site_name x) = Some x.
Proof.
  intros Hx Hin. assert (∀ p, p ∈ site_rows w → p.1 ∈ w_sites w ∧ p.2 = site_name p.1) as Hrows.
  { intros p. unfold site_rows. rewrite Hby_name, list_elem_of_fmap. by intros (id & -> & H%elem_of_elements). }
  assert (∀ y, y ∈ w_sites w → name_key (site_name y) = to_lower (site_name y)) as Hkey.
  { intros y Hy. unfold name_key. destruct (xp_site _ Hx y Hy) as (_ & (-> & _) & _). done. }
  rewrite <- (Hkey x Hin). apply (foldl_sites (site_rows w) ∅ (x, site_name x)).
  - intros [a na] [b nb] Ha Hb. destruct (Hrows _ Ha) as [Hsa Hna], (Hrows _ Hb) as [Hsb Hnb]. cbn [fst snd] in *. subst na nb.
    cbn [snd]. rewrite (Hkey a Hsa), (Hkey b Hsb). intros He. by rewrite (xp_site_names _ Hx a b Hsa Hsb He).
  - unfold site_rows. rewrite Hby_name. apply list_elem_of_fmap. exists x. split; [done|]. by apply elem_of_elements.
Qed.

Lemma view_exported w views devices addresses view :
  exportable w → views_of by_cidr (w_inv w) views → view ∈ views →
  exported (import_context views (site_rows w) devices addresses) view.
Proof.
  intros Hx Hv Hin. apply list_elem_of_lookup in Hin as [i Hi].
  destruct (Forall2_lookup_r _ _ _ _ _ Hv Hi) as ([id s] & Hp & Hs). apply list_elem_of_lookup_2 in Hp.
  rewrite Hby_cidr in Hp. apply elem_of_map_to_list in Hp. cbn [fst snd] in Hs.
  destruct (scanSubnet_view _ _ _ _ Hs) as (Hid & Hsite & Hc & Hn & Hvl & Hd).
  destruct (xp_subnet _ Hx _ _ Hp) as (Hcidr & Hname & Hdesc). split; rewrite ?Hc, ?Hn, ?Hvl, ?Hd; try done.
  - destruct (foldl_add_subnet views (MkImportContext [] ∅ ∅ ∅ ∅)) as (_ & H2 & _). apply H2. right. exists view.
    split; [by apply list_elem_of_lookup_2 in Hi|done].
  - by eapply vlan_check_wf, Hp; apply Hx.
  - unfold sv_SiteName. rewrite Hsite. destruct (sn_site s) as [x|] eqn:Hsx; cbn; [|by rewrite decide_True by done].
    pose proof (xp_sites _ Hx _ _ _ Hp Hsx) as Hin. destruct (xp_site _ Hx x Hin) as (Ht & Hpl & Hne).
    rewrite decide_False by by intros ->. split; [done|]. split; [done|]. intros _. by apply site_lookup.
Qed.

Lemma views_ids v views : views_of by_cidr v views → map sv_ID views = map fst (by_cidr (map_to_list (iv_subnets v))).
Proof.
  unfold views_of. induction 1 as [|p view l views Hs _ IH]; [done|]. cbn. rewrite IH. f_equal. by apply scanSubnet_view in Hs as [-> _].
Qed.

Lemma views_disjoint v views : views_of by_cidr v views → subnets_disjoint v →
  ForallOrdPairs (λ x y, cidr_overlap (sv_CIDR x) (sv_CIDR y) = false) views.
Proof.
  intros Hv Hd. assert (NoDup (map sv_ID views)) as Hnd.
  { rewrite (views_ids _ _ Hv). change (NoDup ((by_cidr (map_to_list (iv_subnets v))).*1)).
    rewrite Hby_cidr. apply NoDup_fst_map_to_list. }
  assert (∀ x, x ∈ views → ∃ s, iv_subnets v !! sv_ID x = Some s ∧ sv_CIDR x = sn_cidr s) as Hrow
    by (intros x Hx; by apply (views_of_elem by_cidr Hby_cidr v views)).
  clear Hv. induction views as [|x views IH]; [constructor|]. cbn in Hnd. apply NoDup_cons in Hnd as [Hx Hnd]. constructor.
  - apply Forall_forall. intros y Hy. destruct (Hrow x ltac:(by left)) as (s & Hs & ->), (Hrow y ltac:(by right)) as (t & Ht & ->).
    apply (Hd _ _ _ _ Hs Ht). intros He. apply Hx, list_elem_of_fmap. by exists y.
  - apply IH; [done|]. intros y Hy. apply Hrow. by right.
Qed.

(** Nothing fails: no statement is lost, tokens come, and the database takes a
    canonical CIDR as it is. *)
Hypothesis Hquiet : ∀ n, fault n = false.
Hypothesis Htoken : ∀ n, is_Some (token n).
Hypothesis Hcidr : ∀ c, NormalizeCIDR c = Ok c → cidr_in c = Some c.

Lemma alone_quiet {A} (f : Z → World Inventory → result db_error (A * World Inventory)) w :
  alone (stmt f) w = match f (timestamptz (clock (w_step w))) (bump w) with
                     | Ok (a, w') => (Ok a, w')
                     | Err e => (Err e, bump w)
                     end.
Proof. rewrite alone_stmt. unfold run_stmt. by rewrite Hquiet. Qed.

Lemma ListSubnets_quiet w : exportable w →
  ∃ views, alone (ListSubnets by_cidr) w = (Ok views, bump w) ∧ views_of by_cidr (w_inv w) views.
Proof.
  intros Hx. unfold ListSubnets. rewrite alone_quiet. cbn [w_inv bump].
  destruct (mapM_result _ _) as [views|e] eqn:Hm.
  - exists views. cbn. split; [done|]. by apply mapM_result_Ok.
  - exfalso. apply mapM_result_Err in Hm as ([id s] & Hin & He). rewrite Hby_cidr in Hin. apply elem_of_map_to_list in Hin.
    destruct (xp_subnet _ Hx _ _ Hin) as (Hc & _). apply canonical_cidr in Hc as (p & Hw & H4 & Hp & _).
    cbn [fst snd] in He. unfold scanSubnet in He.
    assert (AddressCapacity (sn_cidr s) = Ok (prefix_count p)) as Hcap by (apply AddressCapacity_Ok; by exists p).
    by rewrite Hcap in He.
Qed.

Lemma buildImportContext_quiet w : exportable w →
  ∃ views devices addresses w', alone (buildImportContext site_name by_cidr by_address by_name) w =
    (Ok (import_context views (site_rows w) devices addresses), w') ∧ views_of by_cidr (w_inv w) views ∧ w_inv w' = w_inv w ∧ w_sites w' = w_sites w.
Proof.
  intros Hx. destruct (ListSubnets_quiet w Hx) as (views & Hl & Hv). unfold buildImportContext.
  rewrite alone_try, Hl. unfold ListSites. rewrite alone_try, alone_quiet. cbn beta iota.
  unfold ListDevices. rewrite alone_try, alone_quiet. cbn beta iota.
  unfold ListAddressesForExport. rewrite alone_try, alone_quiet. cbn beta iota.
  eexists views, _, _, _. split; [reflexivity|]. by split.
Qed.

(** The rows of an export put the subnets where they are. *)
Lemma import_rows_same views drawn w :
  exportable w → (∀ view, view ∈ views → ∃ s, iv_subnets (w_inv w) !! sv_ID view = Some s ∧
    scanSubnet (sv_ID view) s (w_inv w) = Ok view) →
  map snd drawn = map import_of views → Forall (λ p, is_Some p.1) drawn →
  import_rows (import_row_subnet cidr_in) drawn w = Ok w.
Proof.
  intros Hx. revert drawn. induction views as [|view views IH]; intros drawn Hv Hd Ht; destruct drawn as [|[t r] drawn]; try done.
  cbn in Hd. injection Hd as -> Hd. apply Forall_cons in Ht as [[tok Htok] Ht]. cbn in Htok. subst t. cbn [import_rows].
  destruct (Hv view ltac:(by left)) as (s & Hs & Hscan).
  destruct (scanSubnet_view _ _ _ _ Hscan) as (_ & Hsite & Hc & Hn & Hvl & Hdesc).
  destruct (xp_subnet _ Hx _ _ Hs) as (Hcidr' & _). assert (import_row_subnet cidr_in (Some tok) (import_of view) w = Ok w) as ->.
  2: { cbn [mbind result_bind]. apply IH; [|done|done]. intros x Hin. apply Hv. by right. }
  unfold import_row_subnet. cbn [of_option mbind result_bind import_of sm_CIDR sm_VLAN sm_SiteID sm_Name sm_Description].
  rewrite Hc, (Hcidr _ Hcidr'). cbn [of_option mbind result_bind].
  rewrite Hvl, (vlan_check_wf _ _ _ (xp_wf _ Hx) Hs). cbn [mbind result_bind].
  assert (emptyToNil (sv_SiteID view) = sn_site s) as ->.
  { rewrite Hsite. destruct (sn_site s) as [x|] eqn:Hsx; [|done]. cbn. unfold emptyToNil.
    destruct (xp_site _ Hx x (xp_sites _ Hx _ _ _ Hs Hsx)) as [Hne _]. by rewrite decide_False. }
  assert (negb match sn_site s with Some x => bool_decide (x ∈ w_sites w) | None => true end = false) as ->.
  { destruct (sn_site s) as [x|] eqn:Hsx; [|done]. by rewrite bool_decide_eq_true_2 by (by eapply xp_sites). }
  assert (subnet_with_cidr (sn_cidr s) (w_inv w) = Some (sv_ID view)) as ->.
  { destruct (subnet_with_cidr _ _) as [old|] eqn:Hold.
    - destruct (subnet_with_cidr_Some _ _ _ Hold) as (t & Hlook & Hct). f_equal. apply dec_stable. intros Hne.
      pose proof (xp_disjoint _ Hx _ _ _ _ Hlook Hs Hne) as Hov. rewrite Hct in Hov. by rewrite canonical_overlap_self in Hov.
    - exfalso. apply (subnet_with_cidr_None _ _ Hold), cidrs_of_elem. by exists (sv_ID view), s. }
  rewrite Hn, Hdesc. f_equal. assert (MkSubnet (sn_site s) (sn_cidr s) (sn_name s) (sn_vlan s) (sn_description s) = s) as -> by by destruct s.
  rewrite insert_id by done. by destruct w as [? ? ? ? ? ? []].
Qed.

Lemma draw_tokens_quiet {A} (rows : list A) w : Forall (λ p, is_Some p.1) (alone (draw_tokens rows) w).1.
Proof.
  revert w. induction rows as [|r rows IH]; intros w; cbn [draw_tokens]; [constructor|].
  rewrite alone_bind. unfold draw_token. rewrite alone_atomic, alone_bind. specialize (IH (bump w)).
  destruct (alone (draw_tokens rows) (bump w)) as [drawn w']. cbn. constructor; [apply Htoken|done].
Qed.

Lemma parse_subnets_csv w views :
  exportable w → views_of by_cidr (w_inv w) views →
  parseCSV (subnets_csv site_name views) = Ok (subnetCSVColumns, map (subnet_record site_name) views).
Proof.
  intros Hx Hv. unfold subnets_csv, parseCSV, csv_file. cbn [map].
  rewrite ReadAll_write_all; [|constructor; [by split|]].
  - cbn [mbind result_bind map]. do 2 f_equal. rewrite !map_map. apply map_ext_in. intros view Hin%list_elem_of_In.
    rewrite map_map. destruct (view_exported w views [] [] view Hx Hv Hin) as [Hc _ [Hn _] Hd Hvl [Hs _]].
    apply canonical_plain in Hc. apply vlan_plain in Hvl as [Hvl _]. unfold subnet_record. cbn [map].
    by rewrite !plain_back.
  - apply Forall_forall. intros l. rewrite map_map, list_elem_of_fmap. by intros (view & -> & _).
Qed.

Lemma validate_subnets_csv w views devices addresses :
  exportable w → views_of by_cidr (w_inv w) views → views ≠ [] →
  let ic := import_context views (site_rows w) devices addresses in
  let '(r, p) := validate_body ic "subnets" (subnets_csv site_name views) formatLightIPAM in
  p = PaySubnets (map import_of views) ∧ res_FileError r = None ∧ res_Errors r = 0 ∧ res_Created r = 0 ∧
  res_Updated r = Z.of_nat (length views).
Proof.
  intros Hx Hv Hne. cbn zeta. unfold validate_body. rewrite (parse_subnets_csv w views Hx Hv).
  rewrite decide_False by (destruct views; done). rewrite (decide_False (P := formatLightIPAM = formatNetBox)) by done.
  rewrite (decide_True (P := "subnets" = "subnets")) by done.
  assert (columnLookup subnetCSVColumns ["name"; "cidr"] = Ok subnet_index) as Hidx by (vm_compute; reflexivity).
  unfold validateSubnets. rewrite Hidx.
  pose proof (validate_exported (import_context views (site_rows w) devices addresses) views [] 2
    (result_init "subnets" subnetCSVColumns) [] ∅ []) as H.
  destruct (validate_rows _ _ _ _) as [[r st] l]. destruct H as (-> & Hf & He & Hc & Hu).
  - apply Forall_forall. intros view Hin. by apply view_exported.
  - eapply views_disjoint; [done|apply Hx].
  - intros x y Hin. by apply not_elem_of_nil in Hin.
  - done.
  - intros c [z Hz]. by apply lookup_empty_Some in Hz.
  - by split_and!.
Qed.

End identity.

(** *** NetBox *)

(** The state of an address after an export to NetBox and back. *)
Definition netbox_state (state : string) : string :=
  if decide (state ∈ ["reserved"; "deprecated"]) then state else "assigned".

Lemma netbox_status state : state_in state = true →
  mapNetBoxIPStatus (trim_space (reverseNetBoxIPStatus state)) = netbox_state state.
Proof.
  intros H%bool_decide_eq_true. unfold address_states in H. rewrite !elem_of_cons in H.
  destruct H as [->|[->|[->|[->|[->|H%not_elem_of_nil]]]]]; [..|done]; vm_compute; reflexivity.
Qed.

(** An address exported for NetBox and read back keeps its address, its
    hostname and its notes, whatever the mask of its subnet; it loses its device,
    and its state unless it is assigned, reserved or deprecated. *)
Theorem netbox_address_round_trip (a : AddressExport)
    (Haddr : NormalizeIPv4 (ae_Address a) = Ok (ae_Address a)) (Hstate : state_in (ae_State a) = true)
    (Htext : trim_space (ae_Hostname a) = ae_Hostname a ∧ trim_space (ae_Notes a) = ae_Notes a) :
  netbox_address (column_index 0 netboxAddressColumns) (netbox_address_record a) =
  address_record (MkAddressExport (ae_Address a) "" (netbox_state (ae_State a)) (ae_Hostname a) "" (ae_Notes a)).
Proof.
  destruct a as [addr subnet state host dev notes]. cbn [ae_Address ae_State ae_Hostname ae_Notes] in *.
  destruct Htext as [Hh Hn]. unfold NormalizeIPv4 in Haddr. destruct (parse_addr addr) as [[v|]|] eqn:Hp; try done.
  cbn in Haddr. injection Haddr as Hv. clear Hp.
  assert (∀ c, is_digit c = false → c ≠ "-"%char → c ≠ "."%char → count_byte c addr = 0%nat) as Hc
    by (intros c; rewrite <- Hv; apply addr4_string_no_sep).
  assert (trim_space addr = addr) as Ht by (apply trim_space_id; intros c (? & ? & ? & ?)%space_not_digit; by apply Hc).
  assert (∃ bits, netboxAddressString addr subnet = addr +:+ String "/"%char (itoa bits)) as [bits Hb].
  { unfold netboxAddressString. destruct (parse_prefix subnet) as [p|]; [by exists (pfx_bits p)|by exists 32]. }
  unfold netbox_address, netbox_address_record, address_record, cell.
  cbn [ae_Address ae_Subnet ae_State ae_Hostname ae_Device ae_Notes].
  assert (column_index 0 netboxAddressColumns !! "address" = Some 0%nat ∧ column_index 0 netboxAddressColumns !! "status" = Some 1%nat ∧
    column_index 0 netboxAddressColumns !! "dns_name" = Some 2%nat ∧ column_index 0 netboxAddressColumns !! "description" = Some 3%nat)
    as (-> & -> & -> & ->) by (vm_compute; done).
  cbn [mbind option_bind lookup list_lookup]. rewrite Hb, Hh, Hn, netbox_status by done.
  rewrite trim_space_id.
  - unfold stripMask. rewrite cut_byte_app by by apply Hc. by rewrite Ht.
  - intros c (? & ? & ? & ?)%space_not_digit. rewrite count_byte_app, Hc by done. cbn.
    rewrite decide_False by congruence. by apply itoa_no_sep.
Qed.

(** ** Concrete files *)

#[local] Instance steady_env : Env :=
  {| clock := λ n, Z.of_nat n * 1000000000; fault := λ _, false;
     token := λ n, Some (String.concat "" (repeat "t" (S n))); jsonb_in := λ s, Some s |}.

Definition keep_order {A : Type} (l : list A) : list A := l.
Definition plain_names (A : Type) (_ : A → string) (l : list A) : list A := l.

Definition one_device_world : World Inventory :=
  MkWorld ∅ ∅ ∅ ∅ ∅ [] (with_devices {["d" := plain_device "NAS" "old" 0]} empty_inventory) [] 0.
Definition device_file : string := "name,description" +:+ String LF ("nas,new" +:+ String LF "").

(** The preview matches device names without case and the import with it: a
    row the operator is shown as an update makes a second device. *)
Theorem device_update_creates :
  let '((r, applied), w) := alone (apply_import id keep_order keep_order plain_names Some Some "devices" device_file formatLightIPAM)
                              one_device_world in
  applied = true ∧ res_Updated r = 1 ∧ res_Created r = 0 ∧
  iv_devices (w_inv w) !! "d" = Some (plain_device "NAS" "old" 0) ∧
  (∃ id x, id ≠ "d" ∧ iv_devices (w_inv w) !! id = Some x ∧ dv_Name x = "nas").
Proof.
  set (run := alone (apply_import _ _ _ _ _ _ _ _ _) _).
  assert (run.1.2 = true ∧ res_Updated run.1.1 = 1 ∧ res_Created run.1.1 = 0) as (H1 & H2 & H3) by (vm_compute; done).
  assert (iv_devices (w_inv run.2) !! "d" = Some (plain_device "NAS" "old" 0)) as H4 by (vm_compute; reflexivity).
  assert (iv_devices (w_inv run.2) !! "ttttt" = Some (plain_device "nas" "new" 5000000000)) as H5 by (vm_compute; reflexivity).
  destruct run as [[r applied] w]. cbn [fst snd] in *. split_and!; try done.
  exists "ttttt", (plain_device "nas" "new" 5000000000). by split_and!.
Qed.

Lemma moved_sound : sound (w_inv moved_world).
Proof.
  split; [exact moved_placed|]. intros i j s t H1 H2 Hne. single H1. single H2. by destruct Hne.
Qed.

Definition subnet_file : string := "name,cidr" +:+ String LF ("far,10.2.0.0/16" +:+ String LF "").

Lemma apply_import_sound_witness :
  sound (w_inv (alone (apply_import id keep_order keep_order plain_names same_text Some "subnets" subnet_file formatLightIPAM)
    moved_world).2).
Proof.
  refine (apply_import_sound same_text Some _ _ id keep_order keep_order plain_names _ "subnets" subnet_file formatLightIPAM moved_world moved_sound).
  - intros s ip x Hs Hx. unfold same_text in Hs. rewrite Hx in Hs. by injection Hs as <-.
  - by intros c d _ [= <-].
  - done.
Defined.

Lemma parseCSV_csv_file_witness :
  parseCSV (csv_file ["Name"; "note"] [["=1,2"; "a" +:+ String CR (String LF "b")]]) =
  Ok (["name"; "note"], [["'=1,2"; "a" +:+ String LF "b"]]).
Proof.
  refine (parseCSV_csv_file ["Name"; "note"] [["=1,2"; "a" +:+ String CR (String LF "b")]] _ _); by repeat constructor.
Defined.

Lemma moved_exportable : exportable id moved_world.
Proof.
  split; [exact (proj1 moved_placed)|exact (proj2 moved_sound)| | | |].
  - intros i s Hs. single Hs. split_and!; try done.
  - intros i s x Hs. single Hs. done.
  - intros x Hx. by apply not_elem_of_empty in Hx.
  - intros x y Hx. by apply not_elem_of_empty in Hx.
Qed.


Lemma netbox_address_round_trip_witness :
  netbox_address (column_index 0 netboxAddressColumns)
    (netbox_address_record (MkAddressExport "10.1.0.5" "10.1.0.0/16" "conflict" "nas" "box" "rack 3")) =
  address_record (MkAddressExport "10.1.0.5" "" "assigned" "nas" "" "rack 3").
Proof.
  refine (netbox_address_round_trip (MkAddressExport "10.1.0.5" "10.1.0.0/16" "conflict" "nas" "box" "rack 3") _ _ _);
    [vm_compute; reflexivity..|done].
Defined.
