(* ===== verification/Listings.v ===== *)
(** * What the pages list

    The reads of [internal/store]: the dashboard's counts, a subnet's and a
    device's records, devices by subnet, linked devices and the suggestions to
    link more, custom fields, the audit log's filters, and the search. *)

From S2P Require Import Prelude GoStrings Netip GoTime Process Scans Queue Inventory Import Records Bulk Portability.
Local Open Scope Z_scope.

Record DashboardCounts : Type := MkDashboardStats
  { SubnetCount : Z; AddressCount : Z; ConflictCount : Z; DeviceCount : Z }.

Record LinkedAddress : Type := MkLinkedAddress
  { la_IP : string; la_SubnetID : string; la_SubnetName : string; la_SubnetCIDR : string }.
Record LinkedDevice : Type := MkLinkedDevice
  { ld_Device : DeviceView; ld_Addresses : list LinkedAddress; ld_MACs : list MACAddress }.
Record DeviceLinkSuggestion : Type := MkSuggestion
  { sg_DeviceID : string; sg_Name : string; sg_Hostname : string; sg_OSFamily : string;
    sg_SerialMatch : bool; sg_Addresses : list LinkedAddress }.

(** ** Devices by subnet *)

Record DeviceGroup : Type := MkDeviceGroup
  { dg_SubnetID : string; dg_SubnetName : string; dg_CIDR : string; dg_Devices : list DeviceView }.

(** The 16-byte form of an address: IPv4 ones are mapped. *)
Definition to16 (a : Addr) : Z := match a with Addr4 v => 65535 * 2 ^ 32 + v | Addr6 v _ => v end.

Definition lessCIDR (a b : string) : bool :=
  match net_parse_cidr a, net_parse_cidr b with
  | Some x, Some y =>
      if to16 (ipn_ip x) =? to16 (ipn_ip y) then ipn_ones x <? ipn_ones y
      else to16 (ipn_ip x) <? to16 (ipn_ip y)
  | Some _, None => true
  | None, Some _ => false
  | None, None => String.ltb a b
  end.

Definition group_less (x y : DeviceGroup) : bool :=
  if negb (Bool.eqb (bool_decide (dg_SubnetID x = "")) (bool_decide (dg_SubnetID y = "")))
  then bool_decide (dg_SubnetID y = "")
  else if negb (bool_decide (dg_CIDR x = dg_CIDR y)) then lessCIDR (dg_CIDR x) (dg_CIDR y)
  else String.ltb (dg_SubnetName x) (dg_SubnetName y).

(** A stable sort keeps [x] before [y] unless [y] is less. *)
Definition group_le (x y : DeviceGroup) : Prop := group_less y x = false.
#[export] Instance group_le_dec : RelDecision group_le.
Proof. intros x y. unfold group_le. apply _. Defined.

(** A device with its primary subnet: identifier, name and CIDR. *)
Definition placed : Type := DeviceView * (string * string * string).

Definition add_to_group (groups : gmap string DeviceGroup) (d : placed) : gmap string DeviceGroup :=
  let '(view, (id, name, cidr)) := d in
  let g := default (MkDeviceGroup id name cidr []) (groups !! id) in
  <[id := MkDeviceGroup (dg_SubnetID g) (dg_SubnetName g) (dg_CIDR g) (dg_Devices g ++ [view])]> groups.

Definition group_devices (l : list placed) : list DeviceGroup :=
  merge_sort group_le (map snd (map_to_list (foldl add_to_group ∅ l))).

(** ** The search *)

(** [text LIKE pattern], with [\] as the escape. *)
Fixpoint like_go (fuel : nat) (pattern s : list ascii) : bool :=
  match fuel with
  | O => false
  | S fuel =>
      match pattern with
      | [] => bool_decide (s = [])
      | p :: rest =>
          if decide (p = "%"%char) then
            like_go fuel rest s || match s with _ :: s => like_go fuel pattern s | [] => false end
          else if decide (p = "_"%char) then match s with _ :: s => like_go fuel rest s | [] => false end
          else
            let '(want, rest) := match rest with
                                 | q :: rest' => if decide (p = byte_of 92) then (q, rest') else (p, rest)
                                 | [] => (p, rest)
                                 end in
            match s with c :: s => bool_decide (c = want) && like_go fuel rest s | [] => false end
      end
  end.

(** [ILIKE]: both sides in lower case. A trailing escape is an error. *)
Definition ilike (pattern s : string) : bool :=
  let p := str_to_list (to_lower pattern) in
  let t := str_to_list (to_lower s) in
  like_go (S (length p + length t)) p t.

Record SearchResult : Type := MkSearchResult { sh_Label : string; sh_Detail : string; sh_URL : string }.
Record SearchResults : Type := MkSearchResults
  { sh_Subnets : list SearchResult; sh_Addresses : list SearchResult; sh_Devices : list SearchResult;
    sh_MACs : list SearchResult; sh_Total : Z }.

Definition searchLimitPerType : nat := 50.
Definition middle_dot : string := " " +:+ String (byte_of 194) (String (byte_of 183) " ").

Section listings.
Context {env : Env}.
(** The [ORDER BY] of the listings: by CIDR, by address, by MAC, by a name in the
    database's collation. *)
Context (by_cidr : list (string * Subnet) → list (string * Subnet))
        (by_address : list (string * AddressRow) → list (string * AddressRow))
        (by_mac : list (string * MacRow) → list (string * MacRow))
        (by_name : ∀ A : Type, (A → string) → list A → list A).

Definition db_DashboardStats : GoE Inventory DashboardCounts :=
  stmt (λ _ w,
    let v := w_inv w in
    Ok (MkDashboardStats (Z.of_nat (size (iv_subnets v))) (Z.of_nat (size (iv_addresses v)))
          (count_addresses (λ a, bool_decide (ad_State a = "conflict")) v) (Z.of_nat (size (iv_devices v))), w)).

Definition device_name_of (o : option string) (v : Inventory) : string :=
  default "" (dv_Name <$> (o ≫= λ d, iv_devices v !! d)).

Definition ListAddresses (subnetID : string) : GoE Inventory (list IPAddress) :=
  stmt (λ _ w,
    Ok (omap (λ p, if decide (ad_Subnet p.2 = Some subnetID)
                   then Some (address_view p.1 p.2 subnetID (device_name_of (ad_Device p.2) (w_inv w))) else None)
          (by_address (map_to_list (iv_addresses (w_inv w)))), w)).

(** The addresses of a device, in order. *)
Definition addresses_of (deviceID : string) (v : Inventory) : list (string * AddressRow) :=
  filter (λ p, ad_Device p.2 = Some deviceID) (by_address (map_to_list (iv_addresses v))).

(** A NULL subnet does not scan into a Go string. *)
Definition ListDeviceIPAddresses (deviceID : string) : GoE Inventory (list IPAddress) :=
  stmt (λ _ w,
    views ← mapM_result (λ p,
      subnet ← of_option ErrNull (ad_Subnet p.2);
      Ok (address_view p.1 p.2 subnet (device_name_of (ad_Device p.2) (w_inv w)))) (addresses_of deviceID (w_inv w));
    Ok (views, w)).

Definition mac_view (p : string * MacRow) : MACAddress :=
  MkMACAddress (mc_ID p.2) (default "" (mc_Device p.2)) p.1 (mc_Vendor p.2) (mc_Private p.2).

Definition ListMACAddresses (deviceID : string) : GoE Inventory (list MACAddress) :=
  stmt (λ _ w,
    Ok (map mac_view (filter (λ p, mc_Device p.2 = Some deviceID) (by_mac (map_to_list (iv_macs (w_inv w))))), w)).

(** The addresses with a subnet. *)
Definition linked_address (v : Inventory) (p : string * AddressRow) : option LinkedAddress :=
  id ← ad_Subnet p.2;
  s ← iv_subnets v !! id;
  Some (MkLinkedAddress p.1 id (sn_name s) (sn_cidr s)).

Definition listLinkedAddresses (deviceID : string) : GoE Inventory (list LinkedAddress) :=
  stmt (λ _ w, Ok (omap (linked_address (w_inv w)) (addresses_of deviceID (w_inv w)), w)).

(** The primary subnet is the one of the lowest address that has one. *)
Definition primary_subnet (v : Inventory) (deviceID : string) : string * string * string :=
  match head (omap (linked_address v) (addresses_of deviceID v)) with
  | Some a => (la_SubnetID a, la_SubnetName a, la_SubnetCIDR a)
  | None => ("", "", "")
  end.

Definition ListDeviceGroups : GoE Inventory (list DeviceGroup) :=
  stmt (λ _ w,
    let v := w_inv w in
    Ok (group_devices (map (λ p, (scanDevice p.1 p.2 v, primary_subnet v p.1))
          (by_name _ (λ p, dv_Name p.2) (map_to_list (iv_devices v)))), w)).

(** ** Linked devices *)

(** A loop whose body can fail. *)
Fixpoint each_of {A B} (f : A → GoE Inventory B) (l : list A) : GoE Inventory (list B) :=
  match l with
  | [] => Ret (Ok [])
  | a :: l => b ←? f a; rest ←? each_of f l; Ret (Ok (b :: rest))
  end.

Definition linked_device (id : string) : GoE Inventory LinkedDevice :=
  device ←? GetDevice id;
  addresses ←? listLinkedAddresses id;
  macs ←? ListMACAddresses id;
  Ret (Ok (MkLinkedDevice device addresses macs)).

Definition siblings (group deviceID : string) (v : Inventory) : list string :=
  map fst (by_name _ (λ p, dv_Name p.2)
    (filter (λ p, dv_Group p.2 = Some group ∧ p.1 ≠ deviceID) (map_to_list (iv_devices v)))).

Definition ListLinkedDevices (deviceID : string) : GoE Inventory (list LinkedDevice) :=
  group ←? stmt (λ _ w, match iv_devices (w_inv w) !! deviceID with
                        | Some x => Ok (default "" (dv_Group x), w)
                        | None => Err ErrNotFound
                        end);
  if decide (group = "") then Ret (Ok [])
  else
    ids ←? stmt (λ _ w, Ok (siblings group deviceID (w_inv w), w));
    each_of linked_device ids.

(** The condition of the suggestion query on another device; [os], [hostname] and
    [serial] are those of the target, and empty ones match nothing. *)
Definition link_candidate (id os group hostname serial : string) (v : Inventory) (other : string) (x : Device) : bool :=
  bool_decide (other ≠ id) && has_address other v &&
  ((bool_decide (serial ≠ "") && bool_decide (btrim (dv_HWSerial x) = serial)) ||
   (bool_decide (hostname ≠ "") && bool_decide (to_lower (btrim (dv_OSFamily x)) = os) &&
    bool_decide (hostname ∈ hostnames_of other v))) &&
  (bool_decide (group = "") || negb (bool_decide (dv_Group x = Some group))) &&
  negb (bool_decide (pair_of other id ∈ iv_rejections v)).

Record candidate : Type := MkCandidate { ca_id : string; ca_name : string; ca_identity : deviceIdentity }.

Definition link_candidates (id os group hostname serial : string) (v : Inventory) : list candidate :=
  omap (λ p, if link_candidate id os group hostname serial v p.1 p.2
             then Some (MkCandidate p.1 (dv_Name p.2) (identity_of p.1 p.2 v)) else None)
    (by_name _ (λ p, dv_Name p.2) (map_to_list (iv_devices v))).

Definition clears_rule (target : deviceIdentity) (c : candidate) : bool :=
  goldHardwareCandidate target (ca_identity c) || sameHardwareCandidate target (ca_identity c).

Definition suggestion (target : deviceIdentity) (c : candidate) : GoE Inventory DeviceLinkSuggestion :=
  addresses ←? listLinkedAddresses (ca_id c);
  Ret (Ok (MkSuggestion (ca_id c) (ca_name c) (id_Hostname (ca_identity c)) (id_OSFamily (ca_identity c))
    (goldHardwareCandidate target (ca_identity c)) addresses)).

Definition ListDeviceLinkSuggestions (deviceID : string) : GoE Inventory (list DeviceLinkSuggestion) :=
  found ←? deviceLinkIdentity deviceID;
  let '(target, group) := (found : deviceIdentity * string) in
  let serial := trim_space (id_HWSerial target) in
  let heuristic := bool_decide (id_Hostname target ≠ "") && bool_decide (id_OSFamily target ≠ "") in
  if (bool_decide (serial = "") && negb heuristic) || bool_decide (id_SubnetIDs target = []) then Ret (Ok [])
  else
    rows ←? stmt (λ _ w,
      Ok (link_candidates deviceID (canonicalIdentity (id_OSFamily target)) group
            (canonicalIdentity (id_Hostname target)) serial (w_inv w), w));
    each_of (suggestion target) (filter (λ c, clears_rule target c = true) rows).

(** ** Custom fields *)

Definition ListAllCustomFieldDefs : GoE Inventory (list (string * CustomFieldDef)) :=
  stmt (λ _ w, Ok (by_name _ (λ p, cf_EntityType p.2) (by_name _ (λ p, cf_Name p.2) (map_to_list (iv_fields (w_inv w)))), w)).

Definition GetCustomFieldDef (id : string) : GoE Inventory (string * CustomFieldDef) :=
  stmt (λ _ w, match iv_fields (w_inv w) !! id with Some d => Ok ((id, d), w) | None => Err ErrNotFound end).

(** ** Search *)

(** [rows WHERE any of the texts ILIKE pattern LIMIT 50], one result per row. *)
Definition hits {A} (pattern : string) (texts : A → list string) (rows : list A) : list A :=
  take searchLimitPerType (filter (λ a, existsb (ilike pattern) (texts a) = true) rows).

Definition joined (parts : list string) : string := join middle_dot parts.

Definition searchSubnets (pattern : string) : GoE Inventory (list SearchResult) :=
  stmt (λ _ w,
    Ok (map (λ p, MkSearchResult (sn_name p.2) (joined (sn_cidr p.2 :: filter (λ t, t ≠ "") [sn_description p.2]))
                    ("/subnets/" +:+ p.1))
          (hits pattern (λ p, [sn_cidr p.2; sn_name p.2; sn_description p.2])
             (by_cidr (map_to_list (iv_subnets (w_inv w))))), w)).

(** [ip.subnet_id] is scanned into a string. *)
Definition searchAddresses (pattern : string) : GoE Inventory (list SearchResult) :=
  stmt (λ _ w,
    found ← mapM_result (λ p,
        subnet ← of_option ErrNull (ad_Subnet p.2);
        Ok (MkSearchResult p.1
              (joined (ad_State p.2 :: filter (λ t, t ≠ "") [ad_Hostname p.2; device_name_of (ad_Device p.2) (w_inv w)]))
              ("/subnets/" +:+ subnet)))
      (hits pattern (λ p, [p.1; ad_Hostname p.2; ad_Notes p.2]) (by_address (map_to_list (iv_addresses (w_inv w)))));
    Ok (found, w)).

(** [COALESCE(NULLIF(os_detail, ''), NULLIF(os_family, ''))], scanned into a
    string. *)
Definition os_info (x : Device) : option string :=
  match nonempty (dv_OSDetail x) with Some t => Some t | None => nonempty (dv_OSFamily x) end.

Definition searchDevices (pattern : string) : GoE Inventory (list SearchResult) :=
  stmt (λ _ w,
    found ← mapM_result (λ p : string * Device,
        osInfo ← of_option ErrNull (os_info p.2);
        Ok (MkSearchResult (dv_Name p.2) (if decide (osInfo = "") then dv_Description p.2 else osInfo)
              ("/devices/" +:+ p.1)))
      (hits pattern (λ p, [dv_Name p.2; dv_Description p.2; dv_OSDetail p.2; dv_OSFamily p.2])
         (by_name _ (λ p, dv_Name p.2) (map_to_list (iv_devices (w_inv w)))));
    Ok (found, w)).

Definition searchMACs (pattern : string) : GoE Inventory (list SearchResult) :=
  stmt (λ _ w,
    found ← mapM_result (λ p : string * MacRow,
        device ← of_option ErrNull (mc_Device p.2);
        Ok (MkSearchResult p.1
              (joined (filter (λ t, t ≠ "") [mc_Vendor p.2; device_name_of (mc_Device p.2) (w_inv w)]))
              ("/devices/" +:+ device)))
      (hits pattern (λ p, [p.1; mc_Vendor p.2]) (by_mac (map_to_list (iv_macs (w_inv w)))));
    Ok (found, w)).

Definition Search (query : string) : GoE Inventory SearchResults :=
  let trimmed := trim_space query in
  if decide (trimmed = "") then Ret (Ok (MkSearchResults [] [] [] [] 0))
  else
    let pattern := "%" +:+ trimmed +:+ "%" in
    subnets ←? searchSubnets pattern;
    addresses ←? searchAddresses pattern;
    devices ←? searchDevices pattern;
    macs ←? searchMACs pattern;
    Ret (Ok (MkSearchResults subnets addresses devices macs
      (Z.of_nat (length subnets + length addresses + length devices + length macs)))).
End listings.
