(* ===== verification/ListingsSpec.v ===== *)
(** * What the listings promise

    The search's patterns and its failure on devices without an operating system,
    devices by subnet, and the suggestions to link devices. *)

From S2P Require Import Prelude GoStrings Netip GoTime Process Scans Queue Inventory Import Records Bulk Portability Hardware Listings.
Local Open Scope Z_scope.

(** ** Patterns *)

(** Characters that stand for themselves in a pattern. *)
Definition plain_char (c : ascii) : Prop := c ≠ "%"%char ∧ c ≠ "_"%char ∧ c ≠ byte_of 92.

Lemma like_any fuel s : (length s + 1 < fuel)%nat → like_go fuel ["%"%char] s = true.
Proof.
  revert s. induction fuel as [|fuel IH]; intros s Hf; [lia|]. cbn [like_go]. rewrite decide_True by done.
  destruct s as [|c s]; cbn in Hf.
  - destruct fuel; [lia|done].
  - rewrite IH by lia. by rewrite orb_true_r.
Qed.

Lemma like_prefix fuel q s :
  Forall plain_char q → (length q + length s + 1 < fuel)%nat →
  like_go fuel (q ++ ["%"%char]) s = true ↔ ∃ t, s = q ++ t.
Proof.
  intros Hq. revert fuel s. induction Hq as [|c q (H1 & H2 & H3) _ IH]; intros fuel s Hf; cbn in Hf.
  - rewrite like_any by lia. split; eauto.
  - destruct fuel as [|fuel]; [lia|]. cbn [app like_go].
    rewrite (decide_False (P := c = "%"%char)), (decide_False (P := c = "_"%char)) by done.
    assert (∃ x xs, q ++ ["%"%char] = x :: xs) as (x & xs & Hx) by (destruct q; by eexists _, _).
    rewrite Hx, decide_False, <- Hx by done. destruct s as [|d s]; [split; [done|by intros [t ?]]|]. rewrite andb_true_iff, bool_decide_eq_true, IH by (cbn in Hf; lia).
    split; [intros [-> [t ->]]; by exists t|]. intros [t [= -> ->]]. eauto.
Qed.

Lemma like_infix fuel q s :
  Forall plain_char q → (length q + length s + 2 < fuel)%nat →
  like_go fuel ("%"%char :: q ++ ["%"%char]) s = true ↔ ∃ a t, s = a ++ q ++ t.
Proof.
  intros Hq. revert fuel. induction s as [|c s IH]; intros fuel Hf; (destruct fuel as [|fuel]; [lia|]);
    cbn [like_go]; rewrite decide_True by done; rewrite orb_true_iff, (like_prefix fuel q) by (done || cbn in Hf |- *; lia).
  - split; [|by intros (a & t & Ha); left; destruct a; eauto]. intros [[t Ht]|?]; [by exists [], t|done].
  - rewrite IH by (cbn in Hf; lia). split.
    + intros [[t Ht]|(a & t & ->)]; [by exists [], t|by exists (c :: a), t].
    + intros ([|x a] & t & Ht); [by left; exists t|]. injection Ht as -> ->. right. eauto.
Qed.

(** A query without wildcard characters is found exactly in the texts that
    contain it, up to case. *)
Theorem ilike_contains q s :
  Forall plain_char (str_to_list (to_lower q)) →
  ilike ("%" +:+ q +:+ "%") s = true ↔ ∃ a t, to_lower s = a +:+ to_lower q +:+ t.
Proof.
  intros Hq. unfold ilike. cbn zeta.
  assert (str_to_list (to_lower ("%" +:+ q +:+ "%")) = "%"%char :: str_to_list (to_lower q) ++ ["%"%char]) as ->.
  { rewrite str_app_cons, str_app_nil_l. cbn. f_equal. unfold to_lower. clear. induction q as [|c q IH]; [done|].
    rewrite str_app_cons. cbn. by rewrite IH. }
  rewrite like_infix by (done || rewrite length_cons, length_app; cbn; lia). split.
  - intros (a & t & Hs). exists (str_of_list a), (str_of_list t).
    rewrite <- (str_of_to_list (to_lower s)), Hs, !str_of_list_app, str_of_to_list. done.
  - intros (a & t & ->). exists (str_to_list a), (str_to_list t). by rewrite !str_to_list_app.
Qed.

Lemma ilike_contains_witness :
  Forall plain_char (str_to_list (to_lower "Core")) ∧ ilike ("%" +:+ "Core" +:+ "%") "the core switch" = true.
Proof.
  assert (Forall plain_char (str_to_list (to_lower "Core"))) as H by (repeat constructor; done).
  split; [exact H|]. apply (ilike_contains "Core" _ H). by exists "the ", " switch".
Defined.

(** ** The search *)

Section search.
Context {env : Env} (by_name : ∀ A : Type, (A → string) → list A → list A).

Definition device_hits (pattern : string) (v : Inventory) : list (string * Device) :=
  hits pattern (λ p, [dv_Name p.2; dv_Description p.2; dv_OSDetail p.2; dv_OSFamily p.2])
    (by_name _ (λ p, dv_Name p.2) (map_to_list (iv_devices v))).

(** The device part of a search fails exactly when one of the devices it shows has
    neither an operating system nor a family of one, as no device made by hand has. *)
Theorem searchDevices_fails pattern w :
  fault (w_step w) = false →
  (∃ e, (alone (searchDevices by_name pattern) w).1 = Err e) ↔
  ∃ id x, (id, x) ∈ device_hits pattern (w_inv w) ∧ dv_OSDetail x = "" ∧ dv_OSFamily x = "".
Proof.
  intros Hf. unfold searchDevices, stmt. rewrite alone_atomic. unfold run_stmt. rewrite Hf.
  change (w_inv (bump w)) with (w_inv w). fold (device_hits pattern (w_inv w)).
  assert (∀ x, os_info x = None ↔ dv_OSDetail x = "" ∧ dv_OSFamily x = "") as Hos.
  { intros x. unfold os_info, nonempty. destruct (decide (dv_OSDetail x = "")), (decide (dv_OSFamily x = "")); split; done || by intros []. }
  set (f := λ p : string * Device, _). destruct (mapM_result f (device_hits pattern (w_inv w))) as [l|e] eqn:Hm; cbn.
  - split; [by intros [e ?]|]. intros (id & x & Hin & Hx). apply Hos in Hx. apply mapM_result_Ok in Hm.
    apply list_elem_of_lookup in Hin as [i Hi]. destruct (Forall2_lookup_l _ _ _ _ _ Hm Hi) as (y & _ & Hy).
    unfold f in Hy. cbn in Hy. by rewrite Hx in Hy.
  - split; [|by intros _; exists e]. intros _. apply mapM_result_Err in Hm as ([id x] & Hin & Hx).
    exists id, x. split; [done|]. apply Hos. unfold f in Hx. cbn in Hx. by destruct (os_info x).
Qed.
End search.

#[local] Instance quiet_env : Env :=
  {| clock := λ _, 0; fault := λ _, false; token := λ _, None; jsonb_in := Some |}.

Definition handmade : World Inventory :=
  MkWorld ∅ ∅ ∅ ∅ ∅ []
    (with_devices {["d" := plain_device "NAS" "" 0]} (MkInventory ∅ ∅ ∅ ∅ ∅ ∅ ∅ ∅ ∅ ∅ ∅)) [] 0.

Lemma searchDevices_fails_witness :
  fault (w_step handmade) = false ∧ ∃ e, (alone (searchDevices (λ _ _ l, l) "%nas%") handmade).1 = Err e.
Proof.
  split; [reflexivity|]. apply searchDevices_fails; [reflexivity|].
  exists "d", (plain_device "NAS" "" 0). split; [|split; reflexivity].
  assert (device_hits (λ _ _ l, l) "%nas%" (w_inv handmade) = [("d", plain_device "NAS" "" 0)]) as ->
    by (vm_compute; reflexivity). by left.
Defined.

(** ** Suggestions *)

(** White space other than blanks does not surround the texts that identify the
    device, and its host names are in lower case already. *)
Definition plainly_named (v : Inventory) (id : string) (x : Device) : Prop :=
  trim_space (btrim (dv_HWSerial x)) = btrim (dv_HWSerial x) ∧ trim_space (dv_OSFamily x) = btrim (dv_OSFamily x) ∧
  ∀ h, h ∈ hostnames_of id v → canonicalIdentity h = h.

(** The devices suggested for one. *)
Definition suggested (v : Inventory) (id : string) (x : Device) : list candidate :=
  let target := identity_of id x v in
  let serial := trim_space (id_HWSerial target) in
  let heuristic := bool_decide (id_Hostname target ≠ "") && bool_decide (id_OSFamily target ≠ "") in
  if (bool_decide (serial = "") && negb heuristic) || bool_decide (id_SubnetIDs target = []) then []
  else
    filter (λ c, clears_rule target c = true)
      (omap (λ p, if link_candidate id (canonicalIdentity (id_OSFamily target)) (default "" (dv_Group x))
                       (canonicalIdentity (id_Hostname target)) serial v p.1 p.2
                  then Some (MkCandidate p.1 (dv_Name p.2) (identity_of p.1 p.2 v)) else None)
        (map_to_list (iv_devices v))).

Lemma pair_of_comm a b : pair_of a b = pair_of b a.
Proof.
  unfold pair_of. destruct (decide (String.le a b)) as [H1|H1], (decide (String.le b a)) as [H2|H2]; try done.
  - by rewrite (anti_symm String.le a b H1 H2).
  - destruct (total String.le a b); done.
Qed.

Lemma disjointSubnets_comm a b : disjointSubnets a b = disjointSubnets b a.
Proof.
  unfold disjointSubnets. rewrite (andb_comm (negb (bool_decide (a = [])))). f_equal. f_equal.
  apply eq_true_iff_eq. rewrite !existsb_exists. setoid_rewrite bool_decide_eq_true. setoid_rewrite list_elem_of_In.
  split; intros (i & H1 & H2); eauto.
Qed.

Lemma disjointSubnets_nonempty a b : disjointSubnets a b = true → a ≠ [] ∧ b ≠ [].
Proof. unfold disjointSubnets. intros H. bool_hyps. done. Qed.

(** The two rules: what they take from the identities. *)
Lemma goldHardwareCandidate_iff a b :
  goldHardwareCandidate a b = true ↔
  trim_space (id_HWSerial a) ≠ "" ∧ trim_space (id_HWSerial a) = trim_space (id_HWSerial b) ∧
  disjointSubnets (id_SubnetIDs a) (id_SubnetIDs b) = true.
Proof.
  unfold goldHardwareCandidate. destruct (bool_decide_reflect (trim_space (id_HWSerial a) = "")),
    (bool_decide_reflect (trim_space (id_HWSerial a) = trim_space (id_HWSerial b))); cbn; split; try done; tauto.
Qed.

Lemma sameHardwareCandidate_iff a b :
  sameHardwareCandidate a b = true ↔
  canonicalIdentity (id_Hostname a) ≠ "" ∧ canonicalIdentity (id_Hostname a) = canonicalIdentity (id_Hostname b) ∧
  canonicalIdentity (id_OSFamily a) ≠ "" ∧ canonicalIdentity (id_OSFamily a) = canonicalIdentity (id_OSFamily b) ∧
  disjointSubnets (id_SubnetIDs a) (id_SubnetIDs b) = true.
Proof.
  unfold sameHardwareCandidate.
  destruct (bool_decide_reflect (canonicalIdentity (id_Hostname a) = "")),
    (bool_decide_reflect (canonicalIdentity (id_Hostname a) = canonicalIdentity (id_Hostname b))),
    (bool_decide_reflect (canonicalIdentity (id_OSFamily a) = "")),
    (bool_decide_reflect (canonicalIdentity (id_OSFamily a) = canonicalIdentity (id_OSFamily b)));
    cbn; split; try done; tauto.
Qed.

Lemma clears_rule_comm a b : goldHardwareCandidate a b || sameHardwareCandidate a b = goldHardwareCandidate b a || sameHardwareCandidate b a.
Proof.
  apply eq_true_iff_eq. rewrite !orb_true_iff, !goldHardwareCandidate_iff, !sameHardwareCandidate_iff.
  rewrite (disjointSubnets_comm (id_SubnetIDs b)). intuition congruence.
Qed.

Lemma subnets_of_address id v : subnets_of id v ≠ [] → has_address id v = true.
Proof.
  intros H. destruct (subnets_of id v) as [|s l] eqn:Hs; [done|].
  assert (s ∈ subnets_of id v) as Hin by (rewrite Hs; by left).
  unfold subnets_of in Hin. rewrite elem_of_remove_dups, list_elem_of_omap in Hin.
  destruct Hin as ([ip a] & Hin & Ha). cbn in Ha. destruct (decide (ad_Device a = Some id)); [|done].
  apply existsb_exists. exists (ip, a). split; [by apply list_elem_of_In|]. by apply bool_decide_eq_true.
Qed.

Lemma single_hostname id v h :
  singleHostname (hostnames_of id v) = h → h ≠ "" → h ∈ hostnames_of id v.
Proof. destruct (hostnames_of id v) as [|x [|y l]]; cbn; intros <-; [done|by left|done]. Qed.

Lemma elem_of_suggested v id x c :
  c ∈ suggested v id x ↔
  clears_rule (identity_of id x v) c = true ∧
  ∃ o y, iv_devices v !! o = Some y ∧ c = MkCandidate o (dv_Name y) (identity_of o y v) ∧
    link_candidate id (canonicalIdentity (dv_OSFamily x)) (default "" (dv_Group x))
      (canonicalIdentity (singleHostname (hostnames_of id v))) (trim_space (btrim (dv_HWSerial x))) v o y = true.
Proof.
  unfold suggested. cbn zeta. set (t := identity_of id x v). split.
  - destruct (_ || _); [by intros ?%not_elem_of_nil|]. rewrite list_elem_of_filter, list_elem_of_omap.
    intros [Hc ([o y] & Hin & Ho)]. split; [done|]. exists o, y. cbn [fst snd] in Ho.
    apply elem_of_map_to_list in Hin. destruct (link_candidate _ _ _ _ _ _ _ _) eqn:Hl; simplify_eq. done.
  - intros (Hc & o & y & Hy & -> & Hl). destruct ((_ || _) : bool) eqn:Hguard.
    + exfalso. unfold clears_rule in Hc. cbn [ca_identity] in Hc.
      apply orb_true_iff in Hc. apply orb_true_iff in Hguard. rewrite goldHardwareCandidate_iff, sameHardwareCandidate_iff in Hc.
      destruct Hguard as [Hg|Hg].
      * apply andb_true_iff in Hg as [Hs%bool_decide_eq_true Hh]. destruct Hc as [(? & _)|(Hn & _ & Ho & _)]; [done|].
        apply negb_true_iff, andb_false_iff in Hh as [Hh|Hh]; apply bool_decide_eq_false, dec_stable in Hh.
        { rewrite Hh in Hn. done. } { rewrite Hh in Ho. done. }
      * apply bool_decide_eq_true in Hg. assert (disjointSubnets (id_SubnetIDs t) (id_SubnetIDs (identity_of o y v)) = true)
          as Hd by tauto. by apply disjointSubnets_nonempty in Hd as [? _].
    + rewrite list_elem_of_filter, list_elem_of_omap. split; [done|]. exists (o, y). split; [by apply elem_of_map_to_list|].
      cbn [fst snd]. subst t. cbn [id_OSFamily id_Hostname id_HWSerial identity_of] in *. by rewrite Hl.
Qed.

Lemma suggested_mutual v a b x y :
  iv_devices v !! a = Some x → iv_devices v !! b = Some y → plainly_named v a x → plainly_named v b y →
  MkCandidate b (dv_Name y) (identity_of b y v) ∈ suggested v a x →
  MkCandidate a (dv_Name x) (identity_of a x v) ∈ suggested v b y.
Proof.
  intros Hx Hy (Hsa & Hoa & Hha) (Hsb & Hob & Hhb). rewrite !elem_of_suggested.
  intros (Hc & o & y' & Hy' & [= <- _ _] & Hl). rewrite Hy in Hy'. injection Hy' as <-.
  unfold clears_rule in *. cbn [ca_identity] in *. rewrite clears_rule_comm in Hc. split; [done|].
  exists a, x. split; [done|]. split; [done|]. unfold link_candidate in *.
  rewrite !andb_true_iff, !orb_true_iff, !andb_true_iff, !negb_true_iff, !bool_decide_eq_true, !bool_decide_eq_false in Hl |- *.
  destruct Hl as ((((Hne & Hb) & _) & Hg) & Hr). rewrite pair_of_comm in Hr.
  apply orb_true_iff in Hc. rewrite goldHardwareCandidate_iff, sameHardwareCandidate_iff in Hc.
  cbn [id_HWSerial id_OSFamily id_Hostname id_SubnetIDs identity_of] in Hc.
  assert (disjointSubnets (subnets_of b v) (subnets_of a v) = true) as [_ Hna]%disjointSubnets_nonempty by tauto.
  split_and!; [done|by apply subnets_of_address| | |done].
  - destruct Hc as [(Hs & He & _)|(Hn & He & Ho & Heo & _)]; [left; by rewrite He, Hsa in *|right].
    split_and!; [done| |].
    + unfold canonicalIdentity in Heo |- *. by rewrite <- Hoa, <- Heo.
    + rewrite He. destruct (decide (singleHostname (hostnames_of a v) = "")) as [Hz|Hz]; [by rewrite He, Hz in Hn|].
      rewrite Hha by by apply single_hostname. by apply single_hostname.
  - destruct Hg as [Hg|Hg].
    + destruct (dv_Group x) as [g|] eqn:Hgx; [|by right]. cbn in Hg. subst g. destruct (decide (default "" (dv_Group y) = "")); [by left|].
      right. congruence.
    + destruct (decide (default "" (dv_Group y) = "")) as [|Hny]; [by left|right]. intros Hgx. apply Hg. rewrite Hgx. cbn.
      by destruct (dv_Group y).
Qed.

Section mutual.
Context {env : Env} (by_address : list (string * AddressRow) → list (string * AddressRow))
        (by_name : ∀ A : Type, (A → string) → list A → list A).
Context (Hcalm : ∀ n, fault n = false) (Hperm : ∀ A f l, by_name A f l ≡ₚ l).

Lemma alone_stmt_calm {A} (f : Z → World Inventory → result db_error (A * World Inventory)) w a :
  f (timestamptz (clock (w_step w))) (bump w) = Ok (a, bump w) → alone (stmt f) w = (Ok a, bump w).
Proof. intros Hf. unfold stmt. rewrite alone_atomic. unfold run_stmt. by rewrite Hcalm, Hf. Qed.

Lemma each_suggestion target l w :
  ∃ k, (alone (each_of (suggestion by_address target) l) w).1 = Ok k ∧ map sg_DeviceID k = map ca_id l.
Proof.
  revert w. induction l as [|c l IH]; intros w; [by exists []|]. cbn [each_of]. rewrite alone_try.
  unfold suggestion at 1, listLinkedAddresses. rewrite alone_try, (alone_stmt_calm _ w _ eq_refl), alone_ret, alone_try.
  destruct (IH (bump w)) as (k & Hk & Hids). destruct (alone (each_of _ _) (bump w)) as [res w'].
  cbn [fst] in Hk. subst res. rewrite alone_ret. cbn [fst]. eexists. split; [reflexivity|]. cbn. by rewrite Hids.
Qed.

Lemma ListDeviceLinkSuggestions_suggested id x w :
  iv_devices (w_inv w) !! id = Some x →
  ∃ l, (alone (ListDeviceLinkSuggestions by_address by_name id) w).1 = Ok l ∧
    ∀ o, o ∈ map sg_DeviceID l ↔
      ∃ y, iv_devices (w_inv w) !! o = Some y ∧ MkCandidate o (dv_Name y) (identity_of o y (w_inv w)) ∈ suggested (w_inv w) id x.
Proof.
  intros Hx. unfold ListDeviceLinkSuggestions, deviceLinkIdentity. rewrite alone_try.
  rewrite (alone_stmt_calm _ w (identity_of id x (w_inv w), default "" (dv_Group x))) by (cbn; by rewrite Hx).
  unfold suggested. cbn zeta. destruct ((_ || _) : bool) eqn:Hguard.
  { exists []. split; [done|]. intros o. split; [by intros ?%not_elem_of_nil|by intros (y & _ & ?%not_elem_of_nil)]. }
  rewrite alone_try, (alone_stmt_calm _ (bump w) _ eq_refl).
  change (w_inv (bump (bump w))) with (w_inv w). unfold link_candidates.
  match goal with |- context [each_of _ ?l] => destruct (each_suggestion (identity_of id x (w_inv w)) l (bump (bump w))) as (k & Hk & Hids) end.
  exists k. split; [exact Hk|]. intros other. rewrite Hids, list_elem_of_fmap. setoid_rewrite list_elem_of_filter.
  setoid_rewrite list_elem_of_omap. setoid_rewrite Hperm. split.
  - intros (c & -> & Hc & [o y] & Hin & Ho). pose proof Hin as Hy%elem_of_map_to_list. cbn [fst snd] in Ho.
    case_match; simplify_eq. cbn [ca_id]. exists y. split; [done|]. split; [done|]. exists (o, y). split; [done|].
    cbn [fst snd]. by rewrite H.
  - intros (y & Hy & Hc & Hin). by exists (MkCandidate other (dv_Name y) (identity_of other y (w_inv w))).

Qed.
(** A suggestion is mutual: when a device is suggested as the same hardware as
    another, that one is suggested for it. *)
Theorem suggestions_are_mutual w a b x y la :
  iv_devices (w_inv w) !! a = Some x → iv_devices (w_inv w) !! b = Some y →
  plainly_named (w_inv w) a x → plainly_named (w_inv w) b y →
  (alone (ListDeviceLinkSuggestions by_address by_name a) w).1 = Ok la → b ∈ map sg_DeviceID la →
  ∃ lb, (alone (ListDeviceLinkSuggestions by_address by_name b) w).1 = Ok lb ∧ a ∈ map sg_DeviceID lb.
Proof.
  intros Hx Hy Hpx Hpy Hla Hb.
  destruct (ListDeviceLinkSuggestions_suggested a x w Hx) as (la' & Hla' & Ha). rewrite Hla in Hla'. injection Hla' as <-.
  apply Ha in Hb as (y' & Hy' & Hin). rewrite Hy in Hy'. injection Hy' as <-.
  destruct (ListDeviceLinkSuggestions_suggested b y w Hy) as (lb & Hlb & Hbl). exists lb. split; [exact Hlb|].
  apply Hbl. exists x. split; [exact Hx|]. by apply (suggested_mutual _ a b x y).
Qed.
End mutual.

(** A laptop seen on its wire and on its wireless address. *)
Definition two_interfaces : Inventory :=
  with_addresses {["10.0.0.5" := MkAddressRow "i" (Some "n") (Some "a") "assigned" "laptop" "" None;
                   "10.0.1.5" := MkAddressRow "j" (Some "m") (Some "b") "assigned" "laptop" "" None]}
    (with_devices {["a" := MkDevice "laptop" "" "macOS" "" "" "" [] "" 0 None;
                    "b" := MkDevice "laptop-wifi" "" "macos" "" "" "" [] "" 0 None]} (w_inv handmade)).
Definition two_seen : World Inventory := MkWorld ∅ ∅ ∅ ∅ ∅ [] two_interfaces [] 0.
Definition suggestions_of (id : string) : result db_error (list DeviceLinkSuggestion) :=
  (alone (ListDeviceLinkSuggestions (λ l, l) (λ _ _ l, l) id) two_seen).1.

Lemma suggestions_are_mutual_witness :
  (∃ l, suggestions_of "a" = Ok l ∧ "b" ∈ map sg_DeviceID l) ∧
  ∃ l, suggestions_of "b" = Ok l ∧ "a" ∈ map sg_DeviceID l.
Proof.
  assert (∃ l, suggestions_of "a" = Ok l ∧ "b" ∈ map sg_DeviceID l) as (l & Hl & Hb).
  { assert (match suggestions_of "a" with Ok l => map sg_DeviceID l | Err _ => [] end = ["b"]) as Hl by (vm_compute; reflexivity).
    destruct (suggestions_of "a") as [l|e]; [|discriminate Hl]. exists l. split; [reflexivity|].
    rewrite Hl. apply list_elem_of_here. }
  split; [exists l; exact (conj Hl Hb)|].
  refine (suggestions_are_mutual (λ l, l) (λ _ _ l, l) (λ _, eq_refl) (λ A f l, Permutation_refl l) two_seen "a" "b"
            _ _ l _ _ _ _ Hl Hb); [reflexivity|reflexivity| |].
  all: split; [reflexivity|]; split; [reflexivity|]; intros h Hh.
  - assert (hostnames_of "a" (w_inv two_seen) = ["laptop"]) as Hs by (vm_compute; reflexivity).
    rewrite Hs in Hh. apply list_elem_of_singleton in Hh as ->. reflexivity.
  - assert (hostnames_of "b" (w_inv two_seen) = ["laptop"]) as Hs by (vm_compute; reflexivity).
    rewrite Hs in Hh. apply list_elem_of_singleton in Hh as ->. reflexivity.
Defined.
