(* ===== verification/Orchestrator.v ===== *)
(** * The orchestrator: [internal/scanner/orchestrator/orchestrator.go]

    Jobs are validated, recorded, dispatched to an agent in a goroutine of their
    own, and their outcome recorded; due schedules are fired on a ticker. The
    goroutines share the database, one statement at a time. *)

From S2P Require Import Prelude GoStrings GoTime Netip Protocol Budget Process Scans Windows Queue.
Local Open Scope Z_scope.

(** An error of the orchestrator: the validation's, the store's, a missing
    dispatcher, or the text of a failed call to an agent. *)
Inductive orch_error : Type :=
| Invalid (e : job_error) | StoreFailed (e : db_error) | NotConfigured | AgentFailed (msg : string).

(** The [Dispatcher]: whether it is enabled, and what the agent at an endpoint
    answers, at the environment's [n]-th step, to a job sent with a deadline
    (the text of the error, or the result); the optional [enroller]. *)
Record Dispatcher : Type := MkDispatcher
  { Enabled : bool;
    Dispatch : nat → Z → string → Protocol.ScanJob → result string ScanResult;
    FetchRegistration : option (nat → string → result string AgentRegistration) }.

(** [fmt.Sprintf("%q", s)], for text whose bytes beyond ASCII are printable
    runes. *)
Definition backslash : ascii := byte_of 92.
Definition double_quote : ascii := byte_of 34.
Definition escaped (c : ascii) : string := String backslash (String c "").
Definition quote_byte (c : ascii) : string :=
  let n := byte_val c in
  if (n =? 34) || (n =? 92) then escaped c
  else if n =? 7 then escaped "a" else if n =? 8 then escaped "b"
  else if n =? 9 then escaped "t" else if n =? 10 then escaped "n"
  else if n =? 11 then escaped "v" else if n =? 12 then escaped "f"
  else if n =? 13 then escaped "r"
  else if (n <? 32) || (n =? 127) then escaped "x" +:+ hex_byte c
  else String c "".
Fixpoint quote_body (s : string) : string :=
  match s with "" => "" | String c s => quote_byte c +:+ quote_body s end.
Definition quote (s : string) : string :=
  String double_quote (quote_body s) +:+ String double_quote "".

Definition auditCountMetadata (field : string) (count : Z) : string :=
  "{" +:+ quote field +:+ ":" +:+ itoa count +:+ "}".
Definition status_metadata (status : string) : string :=
  "{" +:+ quote "status" +:+ ":" +:+ quote status +:+ "}".

Definition registrationFromAgent (a : ScanAgent) : AgentRegistration :=
  MkAgentRegistration (sa_ID a) (sa_Name a) "" "" (sa_CertificateSubject a) (sa_AllowedCIDRs a)
    (sa_Status a) zero_time None.

Definition scannerJob (id : string) (input : ScanJobInput) (now : Z) : Protocol.ScanJob :=
  Protocol.MkScanJob id (ji_AgentID input) (default "" (ji_RequestedBy input)) (ji_ScanType input)
    (ji_Mode input) (ji_AllowedCIDRs input) (ji_Targets input) [] (MkRateLimit 0 0)
    (ji_TimeoutSeconds input) now.

Definition scannerJobFromStore (job : ScanJob) : Protocol.ScanJob :=
  Protocol.MkScanJob (sj_ID job) (sj_AgentID job) (sj_RequestedBy job) (sj_ScanType job)
    (sj_Mode job) (sj_AllowedCIDRs job) (sj_Targets job) [] (MkRateLimit 0 0)
    (sj_TimeoutSeconds job) (sj_CreatedAt job).

Fixpoint headlineError (errs : list ScanError) : string :=
  match errs with
  | [] => ""
  | e :: errs => if decide (se_Code e = CodeScanIgnored) then headlineError errs else se_Message e
  end.

Definition servicesFromObservation (l : list ServiceObservation) : list DiscoveryService :=
  map (λ s, MkDiscoveryService (svc_Protocol s) (svc_Port s) (svc_State s) (svc_ServiceName s)
              (svc_Product s) (svc_Version s)) l.

Section orchestrator.
Context {Inv : Type} {env : Env} {queue : DiscoveryStore Inv}.
(** The dispatcher, [json.Marshal] of a result, [err.Error()] of a validation
    error and of a store error, and the zone database. *)
Context (dispatcher : option Dispatcher) (Marshal : ScanResult → option string)
        (Error : job_error → string) (StoreError : db_error → string)
        (LoadLocation : string → option Location).

Definition error_text (e : orch_error) : string :=
  match e with
  | Invalid e => Error e
  | StoreFailed e => StoreError e
  | NotConfigured => "scanner dispatch is not configured"
  | AgentFailed msg => msg
  end.

Definition DispatchEnabled : bool :=
  match dispatcher with Some d => Enabled d | None => false end.

(** ** Audit: failures are logged and ignored *)

Definition auditSubject (actor : option string) (action subjectType subjectID status : string) :
    Go Inv unit :=
  _ ←! CreateAuditLog actor action subjectType subjectID (status_metadata status); Ret ().

Definition audit (actor : option string) (action subjectID status : string) : Go Inv unit :=
  auditSubject actor action "scan_job" subjectID status.

Definition auditCount (action subjectID field : string) (count : Z) : Go Inv unit :=
  _ ←! CreateAuditLog None action "scan_job" subjectID (auditCountMetadata field count); Ret ().

(** ** Recording what a scan found *)

Definition autoLinkBySerial (deviceID : string) : Go Inv unit :=
  if decide (deviceID = "") then Ret ()
  else
    linked ←! AutoLinkDeviceBySerial deviceID;
    match linked with
    | Ok (_ :: _) => auditSubject None "device.link.auto" "device" deviceID "serial"
    | _ => Ret ()
    end.

Definition maybeAutoImport (agent : ScanAgent) (res : DiscoveryUpsert) : Go Inv bool :=
  if negb (sa_AutoImport agent) || bool_decide (du_ReviewStatus res ≠ "pending") ||
     bool_decide (du_ReconcileStatus res = ReconcileConflict) then Ret false
  else
    imported ←! ImportDiscovery (du_ID res) "";
    match imported with
    | Err _ => Ret false
    | Ok discovery =>
        _ ←! auditSubject None "scan.discovery.imported" "ip_address"
               (d_ImportedAddressID discovery) "auto";
        _ ←! autoLinkBySerial (d_ImportedDeviceID discovery);
        Ret true
    end.

Definition syncImported (res : DiscoveryUpsert) : Go Inv bool :=
  if bool_decide (du_ReviewStatus res ≠ "imported") ||
     bool_decide (du_ReconcileStatus res = ReconcileConflict) then Ret false
  else
    device ←! SyncImportedDiscovery (du_ID res);
    match device with
    | Err _ => Ret false
    | Ok deviceID => _ ←! autoLinkBySerial deviceID; Ret true
    end.

Definition discovery_input (agent : ScanAgent) (job : ScanJob) (o : Observation) : DiscoveryInput :=
  MkDiscoveryInput (sj_ID job) (sa_ID agent) (obs_IP o) (obs_MAC o) (obs_Vendor o) (obs_Hostname o)
    (obs_OSFamily o) (obs_OSDetail o) (obs_HWSerial o) (obs_HWObjectID o) (obs_VLAN o)
    (servicesFromObservation (obs_Services o)).

(** The counters of recorded, imported and synced observations. *)
Definition counters : Type := (Z * Z * Z)%type.

Fixpoint record_each (agent : ScanAgent) (job : ScanJob) (observations : list Observation)
    (n : counters) : Go Inv counters :=
  match observations with
  | [] => Ret n
  | o :: observations =>
      if decide (trim_space (obs_IP o) = "") then record_each agent job observations n
      else
        res ←! UpsertDiscovery (discovery_input agent job o);
        match res with
        | Err _ => record_each agent job observations n
        | Ok res =>
            let '(recorded, imported, synced) := n in
            auto ←! maybeAutoImport agent res;
            if (auto : bool) then
              record_each agent job observations (recorded + 1, imported + 1, synced)
            else
              sync ←! syncImported res;
              record_each agent job observations
                (recorded + 1, imported, if (sync : bool) then synced + 1 else synced)
        end
  end.

Definition recordDiscoveries (agent : ScanAgent) (job : ScanJob) (observations : list Observation) :
    Go Inv unit :=
  n ←! record_each agent job observations (0, 0, 0);
  let '(recorded, imported, synced) := n in
  _ ←! (if 0 <? recorded then
          auditCount "scan.discovery.recorded" (sj_ID job) "recorded_count" recorded else Ret ());
  _ ←! (if 0 <? imported then
          auditCount "scan.discovery.auto_imported" (sj_ID job) "imported_count" imported else Ret ());
  if 0 <? synced then
    auditCount "scan.discovery.synced" (sj_ID job) "synced_count" synced else Ret ().

(** ** Running a job *)

Definition dispatch_timeout (job : ScanJob) : option Z :=
  budget ← ScanBudget (sj_TimeoutSeconds job) (sj_Targets job);
  Some ((if budget <=? 0 then 30 * minute else budget) + 60 * second).

Definition failed_result (started finished : Z) (msg : string) : ScanJobResult :=
  MkScanJobResult "failed" msg "" (Some started) (Some finished).

Definition agent_result (started finished : Z) (res : ScanResult) : ScanJobResult :=
  let text := default "" (Marshal res) in
  if decide (res_Status res = "") then
    MkScanJobResult "failed" "agent returned no status" text (Some started) (Some finished)
  else
    MkScanJobResult (res_Status res) (headlineError (res_Errors res)) text
      (Some started) (Some finished).

(** [None] is the panic of [ScanBudget]. *)
Definition dispatch (agent : ScanAgent) (job : ScanJob) (started : Z) :
    Go Inv (option ScanJobResult) :=
  match dispatcher with
  | Some d =>
      if Enabled d then
        match dispatch_timeout job with
        | None => Ret None
        | Some timeout =>
            answer ←! atomic (λ w,
              (Dispatch d (w_step w) timeout (sa_EndpointURL agent) (scannerJobFromStore job), bump w));
            finished ←! time_now;
            match answer with
            | Err msg => Ret (Some (failed_result started finished msg))
            | Ok res =>
                if bool_decide (res_Status res = JobSucceeded) &&
                   (0 <? length (res_Observations res))%nat then
                  _ ←! recordDiscoveries agent job (res_Observations res);
                  Ret (Some (agent_result started finished res))
                else Ret (Some (agent_result started finished res))
            end
        end
      else
        finished ←! time_now;
        Ret (Some (failed_result started finished
          "scanner dispatch is not configured (set the app's mTLS client certificate)"))
  | None =>
      finished ←! time_now;
      Ret (Some (failed_result started finished
        "scanner dispatch is not configured (set the app's mTLS client certificate)"))
  end.

Definition recordScheduleRun (job : ScanJob) (status errMsg : string) : Go Inv unit :=
  if decide (sj_ScheduleID job = "") then Ret ()
  else _ ←! SetScanScheduleLastRun (sj_ScheduleID job) status errMsg (sj_ID job); Ret ().

Definition running (started : Z) : ScanJobResult :=
  MkScanJobResult "running" "" "" (Some started) None.

(** The bookkeeping after the outcome is recorded. *)
Definition finish (agent : ScanAgent) (job : ScanJob) (actor : option string)
    (res : ScanJobResult) : Go Inv unit :=
  _ ←! recordScheduleRun job (jr_Status res) (jr_Error res);
  if decide (jr_Status res = "succeeded") then
    _ ←! TouchScanAgent (sa_ID agent) "";
    audit actor "scan.job.completed" (sj_ID job) (jr_Status res)
  else audit actor "scan.job.failed" (sj_ID job) (jr_Status res).

Definition run (agent : ScanAgent) (job : ScanJob) (actor : option string) :
    Go Inv (option ScanJobResult) :=
  started ←! time_now;
  _ ←! UpdateScanJobResult (sj_ID job) (running started);
  _ ←! recordScheduleRun job "running" "";
  res ←! dispatch agent job started;
  match res with
  | None => Ret None
  | Some res =>
      _ ←! UpdateScanJobResult (sj_ID job) res;
      _ ←! finish agent job actor res;
      Ret (Some res)
  end.

(** ** Enqueuing *)

(** [go s.run(...)]. *)
Definition spawn (c : run_call) : Go Inv unit :=
  atomic (λ w, ((), with_spawned (w_spawned w ++ [c]) (bump w))).

Definition enqueue (agent : ScanAgent) (input : ScanJobInput) (actor : option string) :
    Go Inv (result orch_error ScanJob) :=
  now ←! time_now;
  match ValidateJobForAgent (scannerJob "preview" input now) (registrationFromAgent agent) with
  | Some e => Ret (Err (Invalid e))
  | None =>
      job ←! CreateScanJob input;
      match job with
      | Err e => Ret (Err (StoreFailed e))
      | Ok job =>
          _ ←! audit actor "scan.job.created" (sj_ID job) (sj_Status job);
          _ ←! spawn (agent, job, actor);
          Ret (Ok job)
      end
  end.

Definition TriggerManual (input : ScanJobInput) : Go Inv (result orch_error ScanJob) :=
  agent ←! GetScanAgent (ji_AgentID input);
  match agent with
  | Err e => Ret (Err (StoreFailed e))
  | Ok agent => enqueue agent input (ji_RequestedBy input)
  end.

Definition ValidateScope (input : ScanJobInput) : Go Inv (option orch_error) :=
  agent ←! GetScanAgent (ji_AgentID input);
  match agent with
  | Err e => Ret (Some (StoreFailed e))
  | Ok agent =>
      now ←! time_now;
      Ret (Invalid <$> ValidateAgentScope (scannerJob "preview" input now) (sa_AllowedCIDRs agent))
  end.

(** ** Schedules *)

Definition schedule_input (s : ScanSchedule) : ScanJobInput :=
  MkScanJobInput (ss_AgentID s) (Some (ss_ID s)) None (ss_ScanType s) (ss_Mode s)
    (ss_AllowedCIDRs s) (ss_Targets s) (ss_TimeoutSeconds s).

Definition runSchedule (s : ScanSchedule) : Go Inv unit :=
  agent ←! GetScanAgent (ss_AgentID s);
  match agent with
  | Err _ => Ret ()
  | Ok agent =>
      queued ←! enqueue agent (schedule_input s) None;
      match queued with
      | Ok _ => Ret ()
      | Err e =>
          _ ←! audit None "scan.schedule.rejected" (ss_ID s) (error_text e);
          _ ←! SetScanScheduleLastRun (ss_ID s) "rejected" (error_text e) "";
          Ret ()
      end
  end.

Definition fire (now : Z) (s : ScanSchedule) : Go Inv unit :=
  if windowAllows (windowFromSchedule LoadLocation s) now then
    _ ←! runSchedule s;
    _ ←! MarkScanScheduleRan (ss_ID s);
    Ret ()
  else Ret ().

Definition RunDueSchedules : Go Inv unit :=
  schedules ←! ListDueScanSchedules;
  match schedules with
  | Err _ => Ret ()
  | Ok schedules =>
      now ←! time_now;
      for_each (fire now) schedules
  end.

(** ** Enrolling agents *)

Definition enroll_input (url : string) (reg : AgentRegistration) : ScanAgentInput :=
  let name := trim_space (ar_Name reg) in
  MkScanAgentInput (if decide (name = "") then url else name) "" "" (ar_CertificateSubject reg)
    (ar_AllowedCIDRs reg) "" false.

Definition DiscoverAgent (url : string) : Go Inv (result orch_error (ScanAgent * bool)) :=
  match dispatcher ≫= FetchRegistration with
  | Some fetch =>
      if negb DispatchEnabled then Ret (Err NotConfigured) else
      reg ←! atomic (λ w, (fetch (w_step w) url, bump w));
      match reg with
      | Err msg => Ret (Err (AgentFailed msg))
      | Ok reg =>
          enrolled ←! EnrollDiscoveredAgent url (enroll_input url reg);
          match enrolled with
          | Err e => Ret (Err (StoreFailed e))
          | Ok (agent, created) =>
              _ ←! (if (created : bool) then
                      auditSubject None "scan.agent.discovered" "scan_agent" (sa_ID agent) (sa_Status agent)
                    else Ret ());
              Ret (Ok (agent, created))
          end
      end
  | None => Ret (Err NotConfigured)
  end.

(** The loop of [StartScheduler] with the ticks it sees before the server stops. *)
Definition StartScheduler (ticks : nat) : Go Inv unit := for_each (λ _, RunDueSchedules) (seq 0 ticks).

(** The retry loop of [StartAutoEnroll]; [done n] is the context's cancellation
    seen at the [n]-th step. The boolean reports an enrolment. *)
Fixpoint auto_enroll (cancelled : nat → bool) (url : string) (attempts : nat) : Go Inv bool :=
  match attempts with
  | O => Ret false
  | S attempts =>
      stop ←! atomic (λ w, (cancelled (w_step w), bump w));
      if (stop : bool) then Ret false
      else
        found ←! DiscoverAgent url;
        match found with
        | Err _ => auto_enroll cancelled url attempts
        | Ok _ => Ret true
        end
  end.

Definition StartAutoEnroll (cancelled : nat → bool) (url : string) : Go Inv bool :=
  if bool_decide (trim_space url = "") || negb DispatchEnabled then Ret false
  else auto_enroll cancelled url 10.

(** ** Isolation: who may change the record of a job *)

(** What [run] records about a job. *)
Definition job_obs (r : JobRow) : string * string * option string * option Z * option Z :=
  (row_status r, row_error r, row_result r, row_started r, row_finished r).

(** An existing row [j] stays, with the same recorded state. *)
Definition keeps_job (j : string) (w w' : World Inv) : Prop :=
  ∀ r, w_jobs w !! j = Some r → ∃ r', w_jobs w' !! j = Some r' ∧ job_obs r' = job_obs r.

#[local] Instance keeps_job_preorder j : PreOrder (keeps_job j).
Proof.
  split; [by intros w r ?; exists r|]. intros w1 w2 w3 H1 H2 r Hr.
  destruct (H1 r Hr) as (r' & Hr' & <-). by apply H2.
Qed.

Lemma keeps_job_same j (w w' : World Inv) : w_jobs w' = w_jobs w → keeps_job j w w'.
Proof. intros H r Hr. exists r. by rewrite H. Qed.

Lemma guarantees_impl (R R' : World Inv → World Inv → Prop) {A} (p : prog (World Inv) A) :
  (∀ w w', R w w' → R' w w') → guarantees R p → guarantees R' p.
Proof. intros HR. induction p as [a|g k IH]; [done|]. intros Hp w. destruct (Hp w). auto. Qed.

(** A statement that leaves the jobs alone. *)
Lemma stmt_keeps_jobs {A} j (f : Z → World Inv → result db_error (A * World Inv)) :
  (∀ w now a w', f now w = Ok (a, w') → w_jobs w' = w_jobs w) → guarantees (keeps_job j) (stmt f).
Proof.
  intros Hf. apply guarantees_stmt.
  - intros w. by apply keeps_job_same.
  - intros w now a w' H. apply keeps_job_same. by apply Hf in H.
Qed.

Lemma queue_keeps_job {A} j (p : prog (World Inv) A) :
  guarantees only_inv p → guarantees (keeps_job j) p.
Proof. apply guarantees_impl. intros w w' (_&_&_&_&H&_). by apply keeps_job_same. Qed.

Ltac jobs_alone := apply stmt_keeps_jobs; intros; repeat case_match; by simplify_eq/=.
Ltac job_prog :=
  repeat match goal with
  | |- guarantees _ (try_bind _ _) => apply guarantees_try; [|intros ?]
  | |- guarantees _ (prog_bind _ _) => apply guarantees_bind; [|intros ?]
  | |- guarantees _ (Ret _) => exact I
  | |- guarantees _ (atomic _) => apply guarantees_atomic; intros ?; by apply keeps_job_same
  | |- guarantees _ (match _ with _ => _ end) => case_match
  | |- guarantees _ (for_each _ _) => apply guarantees_for_each; intros ?
  end; auto with lipam.

Lemma GetScanAgent_keeps j id : guarantees (keeps_job j) (GetScanAgent (Inv := Inv) id).
Proof. jobs_alone. Qed.
Lemma CreateAuditLog_keeps j actor action st si meta :
  guarantees (keeps_job j) (CreateAuditLog (Inv := Inv) actor action st si meta).
Proof. jobs_alone. Qed.
Lemma TouchScanAgent_keeps j id v : guarantees (keeps_job j) (TouchScanAgent (Inv := Inv) id v).
Proof. jobs_alone. Qed.
Lemma SetScanScheduleLastRun_keeps j id s e job :
  guarantees (keeps_job j) (SetScanScheduleLastRun (Inv := Inv) id s e job).
Proof. jobs_alone. Qed.
Lemma MarkScanScheduleRan_keeps j id : guarantees (keeps_job j) (MarkScanScheduleRan (Inv := Inv) id).
Proof. jobs_alone. Qed.
Lemma ListDueScanSchedules_keeps j : guarantees (keeps_job j) (ListDueScanSchedules (Inv := Inv)).
Proof. jobs_alone. Qed.
Lemma upsert_keeps j input : guarantees (keeps_job j) (UpsertDiscovery (Inv := Inv) input).
Proof. apply queue_keeps_job, upsert_inv. Qed.
Lemma import_keeps j id name : guarantees (keeps_job j) (ImportDiscovery (Inv := Inv) id name).
Proof. apply queue_keeps_job, import_inv. Qed.
Lemma sync_keeps j id : guarantees (keeps_job j) (SyncImportedDiscovery (Inv := Inv) id).
Proof. apply queue_keeps_job, sync_inv. Qed.
Lemma autolink_keeps j id : guarantees (keeps_job j) (AutoLinkDeviceBySerial (Inv := Inv) id).
Proof. apply queue_keeps_job, autolink_inv. Qed.
#[local] Hint Resolve GetScanAgent_keeps CreateAuditLog_keeps TouchScanAgent_keeps
  SetScanScheduleLastRun_keeps MarkScanScheduleRan_keeps ListDueScanSchedules_keeps
  upsert_keeps import_keeps sync_keeps autolink_keeps : lipam.

Lemma auditSubject_keeps j actor action st si status :
  guarantees (keeps_job j) (auditSubject actor action st si status).
Proof. unfold auditSubject. job_prog. Qed.
#[local] Hint Resolve auditSubject_keeps : lipam.
Lemma audit_keeps j actor action si status :
  guarantees (keeps_job j) (audit actor action si status).
Proof. apply auditSubject_keeps. Qed.
Lemma auditCount_keeps j action si field n :
  guarantees (keeps_job j) (auditCount action si field n).
Proof. unfold auditCount. job_prog. Qed.
Lemma autoLinkBySerial_keeps j d : guarantees (keeps_job j) (autoLinkBySerial d).
Proof. unfold autoLinkBySerial. job_prog. Qed.
#[local] Hint Resolve audit_keeps auditCount_keeps autoLinkBySerial_keeps : lipam.
Lemma maybeAutoImport_keeps j agent res : guarantees (keeps_job j) (maybeAutoImport agent res).
Proof. unfold maybeAutoImport. job_prog. Qed.
Lemma syncImported_keeps j res : guarantees (keeps_job j) (syncImported res).
Proof. unfold syncImported. job_prog. Qed.
#[local] Hint Resolve maybeAutoImport_keeps syncImported_keeps : lipam.
Lemma record_each_keeps j agent job obs n : guarantees (keeps_job j) (record_each agent job obs n).
Proof. revert n. induction obs as [|o obs IH]; intros n; cbn [record_each]; job_prog. Qed.
#[local] Hint Resolve record_each_keeps : lipam.
Lemma recordDiscoveries_keeps j agent job obs :
  guarantees (keeps_job j) (recordDiscoveries agent job obs).
Proof. unfold recordDiscoveries. job_prog. Qed.
#[local] Hint Resolve recordDiscoveries_keeps : lipam.
Lemma dispatch_keeps j agent job started : guarantees (keeps_job j) (dispatch agent job started).
Proof. unfold dispatch, time_now. job_prog. Qed.
Lemma recordScheduleRun_keeps j job s e : guarantees (keeps_job j) (recordScheduleRun job s e).
Proof. unfold recordScheduleRun. job_prog. Qed.
#[local] Hint Resolve dispatch_keeps recordScheduleRun_keeps : lipam.
Lemma finish_keeps j agent job actor res : guarantees (keeps_job j) (finish agent job actor res).
Proof. unfold finish. job_prog. Qed.
#[local] Hint Resolve finish_keeps : lipam.

(** Recording an outcome touches that job only; a new job takes a fresh key. *)
Lemma UpdateScanJobResult_keeps j id res :
  id ≠ j → guarantees (keeps_job j) (UpdateScanJobResult (Inv := Inv) id res).
Proof.
  intros Hne. apply guarantees_stmt; [intros w; by apply keeps_job_same|].
  intros w now a w' H. case_match; simplify_eq/=. intros r Hr. exists r.
  cbn. by rewrite lookup_alter_ne.
Qed.

Lemma CreateScanJob_keeps j input : guarantees (keeps_job j) (CreateScanJob (Inv := Inv) input).
Proof.
  unfold CreateScanJob. job_prog.
  - by apply guarantees_random_token; intros w; apply keeps_job_same.
  - apply guarantees_stmt; [intros w; by apply keeps_job_same|].
    intros w now b w' H. repeat case_match; simplify_eq/=. intros r Hr. exists r. cbn.
    rewrite lookup_insert_ne; [done|]. intros ->. by destruct n; rewrite Hr.
  - jobs_alone.
Qed.
#[local] Hint Resolve CreateScanJob_keeps : lipam.

Lemma time_now_keeps j : guarantees (keeps_job j) time_now.
Proof. apply guarantees_time_now. intros w. by apply keeps_job_same. Qed.
Lemma spawn_keeps j c : guarantees (keeps_job j) (spawn c).
Proof. by apply guarantees_atomic; intros w; apply keeps_job_same. Qed.
#[local] Hint Resolve time_now_keeps spawn_keeps : lipam.

Lemma enqueue_keeps j agent input actor : guarantees (keeps_job j) (enqueue agent input actor).
Proof. unfold enqueue. job_prog. Qed.
#[local] Hint Resolve enqueue_keeps : lipam.

Lemma run_keeps j agent job actor :
  sj_ID job ≠ j → guarantees (keeps_job j) (run agent job actor).
Proof. intros Hne. unfold run. job_prog; by apply UpdateScanJobResult_keeps. Qed.

Lemma runSchedule_keeps j s : guarantees (keeps_job j) (runSchedule s).
Proof. unfold runSchedule. job_prog. Qed.
#[local] Hint Resolve runSchedule_keeps : lipam.

Lemma RunDueSchedules_keeps j : guarantees (keeps_job j) RunDueSchedules.
Proof. unfold RunDueSchedules, fire. job_prog. Qed.
Lemma StartScheduler_keeps j ticks : guarantees (keeps_job j) (StartScheduler ticks).
Proof. apply guarantees_for_each. intros ?. apply RunDueSchedules_keeps. Qed.

Lemma EnrollDiscoveredAgent_keeps j url input :
  guarantees (keeps_job j) (EnrollDiscoveredAgent (Inv := Inv) url input).
Proof.
  unfold EnrollDiscoveredAgent, GetScanAgentByEndpoint, CreateScanAgent. job_prog; try jobs_alone.
  all: by apply guarantees_random_token; intros w; apply keeps_job_same.
Qed.
#[local] Hint Resolve EnrollDiscoveredAgent_keeps : lipam.

Lemma DiscoverAgent_keeps j url : guarantees (keeps_job j) (DiscoverAgent url).
Proof. unfold DiscoverAgent. job_prog. Qed.

(** C4: a job's recorded state belongs to the goroutine that runs it: no other
    run, no enqueuing, no tick of the scheduler and no agent discovery changes
    it, whatever the environment does to their statements. *)
Theorem job_isolation j :
  (∀ agent job actor, sj_ID job ≠ j → guarantees (keeps_job j) (run agent job actor)) ∧
  (∀ input, guarantees (keeps_job j) (TriggerManual input)) ∧
  guarantees (keeps_job j) RunDueSchedules ∧
  (∀ url, guarantees (keeps_job j) (DiscoverAgent url)).
Proof.
  split_and!.
  - apply run_keeps.
  - intros input. unfold TriggerManual. job_prog.
  - apply RunDueSchedules_keeps.
  - apply DiscoverAgent_keeps.
Qed.

(** ** The history of a job *)

Implicit Types (o : string * string * option string * option Z * option Z).

Definition has_job (j : string) o (w : World Inv) : Prop :=
  ∃ r, w_jobs w !! j = Some r ∧ job_obs r = o.

(** The recorded state of job [j] after each step of a program. *)
Definition history {A} (j : string) (env' : nat → World Inv → World Inv) (i : nat)
    (p : prog (World Inv) A) (w : World Inv) : list (option (string * string * option string * option Z * option Z)) :=
  map (λ w, job_obs <$> w_jobs w !! j) (trace env' i p w).

Lemma has_job_keeps j o w w' : keeps_job j w w' → has_job j o w → has_job j o w'.
Proof. intros Hk (r & Hr & <-). destruct (Hk r Hr) as (r' & Hr' & Ho). by exists r'. Qed.

Section history.
Context (j : string) (env' : nat → World Inv → World Inv).
Hypothesis env_keeps : ∀ n w, keeps_job j w (env' n w).

(** A part that leaves the record alone contributes a constant history. *)
Lemma history_keeps {A} (p : prog (World Inv) A) i w o :
  guarantees (keeps_job j) p → has_job j o w →
  has_job j o (exec env' i p w).2 ∧ ∃ n, history j env' i p w = replicate n (Some o).
Proof.
  revert i w. induction p as [a|g k IH]; intros i w Hp Hw; [by split; [|exists 0%nat]|].
  destruct (Hp (env' i w)) as [Hg Hk]. cbn.
  assert (has_job j o (g (env' i w))) as Hw'.
  { eapply has_job_keeps; [exact Hg|]. apply (has_job_keeps j o w); [apply env_keeps|done]. }
  destruct (IH (env' i w) (S i) (g (env' i w)) Hk Hw') as (H & n & Hn).
  split; [exact H|]. exists (S n). unfold history in *. cbn.
  destruct Hw' as (r & -> & <-). cbn. f_equal. exact Hn.
Qed.

Lemma history_bind {A B} (p : prog (World Inv) A) (h : A → prog (World Inv) B) i w :
  history j env' i (prog_bind h p) w =
  history j env' i p w ++
  history j env' (i + length (trace env' i p w)) (h (exec env' i p w).1) (exec env' i p w).2.
Proof. unfold history. by rewrite trace_bind, map_app. Qed.

Definition updated (res : ScanJobResult) (json : option string) o :=
  let '(_, _, _, started, _) := o in
  (jr_Status res, jr_Error res, json,
   match jr_StartedAt res with Some t => Some (timestamptz t) | None => started end,
   timestamptz <$> jr_FinishedAt res).

(** Recording an outcome: the new state, or the old one when the statement is
    lost or its text is rejected. *)
Lemma history_update res i w o :
  has_job j o w →
  ∃ o', history j env' i (UpdateScanJobResult j res) w = [Some o'] ∧
    has_job j o' (exec env' i (UpdateScanJobResult j res) w).2 ∧
    (o' = o ∨ ∃ json, result_json res = Ok json ∧ o' = updated res json o) ∧
    ((∀ n, fault n = false) → ∀ json, result_json res = Ok json → o' = updated res json o).
Proof.
  intros Hw. unfold history. cbn. set (w0 := env' i w).
  assert (has_job j o w0) as (r & Hr & Ho) by (apply (has_job_keeps j o w); [apply env_keeps|done]).
  unfold run_stmt. destruct (fault (w_step w0)) eqn:Hf.
  { exists o. cbn. rewrite Hr. cbn. rewrite Ho. split_and!; [done|by exists r|by left|].
    intros Hnf. by rewrite Hnf in Hf. }
  destruct (result_json res) as [json|e] eqn:Hj; cbn.
  - exists (updated res json o). rewrite lookup_alter_eq, Hr. cbn. unfold has_job. cbn.
    rewrite lookup_alter_eq, Hr. subst o.
    split_and!; [done|by eexists|right; by exists json|by intros _ ? [= <-]].
  - exists o. rewrite Hr. cbn. rewrite Ho. split_and!; [done|by exists r|by left|done].
Qed.

(** The same for a part followed by the rest of a program. *)
Lemma history_seq {A B} (p : prog (World Inv) A) (h : A → prog (World Inv) B) i w o :
  guarantees (keeps_job j) p → has_job j o w →
  ∃ n i' a w', has_job j o w' ∧ (∀ Q, returns Q p → Q a) ∧
    exec env' i (prog_bind h p) w = exec env' i' (h a) w' ∧
    history j env' i (prog_bind h p) w = replicate n (Some o) ++ history j env' i' (h a) w'.
Proof.
  intros Hp Hw. destruct (history_keeps p i w o Hp Hw) as (Hw' & n & Hn).
  exists n, (i + length (trace env' i p w))%nat, (exec env' i p w).1, (exec env' i p w).2.
  split; [done|]. split; [intros Q HQ; by apply returns_exec|].
  rewrite exec_bind, history_bind, Hn. done.
Qed.

Lemma history_update_seq {B} res (h : result db_error unit → prog (World Inv) B) i w o :
  has_job j o w →
  ∃ i' a w' o', has_job j o' w' ∧
    exec env' i (prog_bind h (UpdateScanJobResult j res)) w = exec env' i' (h a) w' ∧
    history j env' i (prog_bind h (UpdateScanJobResult j res)) w =
      Some o' :: history j env' i' (h a) w' ∧
    (o' = o ∨ ∃ json, result_json res = Ok json ∧ o' = updated res json o) ∧
    ((∀ n, fault n = false) → ∀ json, result_json res = Ok json → o' = updated res json o).
Proof.
  intros Hw. destruct (history_update res i w o Hw) as (o' & Hh & Hw' & Ho & Hnf).
  eexists _, _, _, o'. split; [exact Hw'|]. split; [by rewrite exec_bind|].
  split; [by rewrite history_bind, Hh|]. done.
Qed.
End history.

(** A recorded job's timeout never makes [ScanBudget] panic. *)
Lemma dispatch_timeout_Some job :
  0 < sj_TimeoutSeconds job < 2 ^ 31 → ∃ timeout, dispatch_timeout job = Some timeout.
Proof.
  intros Ht. unfold dispatch_timeout.
  rewrite ScanBudget_no_overflow; [by eexists|lia|]. unfold Second, int64_max. lia.
Qed.

Lemma agent_result_times started finished res :
  jr_StartedAt (agent_result started finished res) = Some started ∧
  jr_FinishedAt (agent_result started finished res) = Some finished ∧
  jr_Status (agent_result started finished res) ≠ "".
Proof. unfold agent_result. by destruct (decide _). Qed.

Lemma dispatch_returns agent job started :
  0 < sj_TimeoutSeconds job < 2 ^ 31 →
  returns (λ out, ∃ res finished, out = Some res ∧ jr_StartedAt res = Some started ∧
             jr_FinishedAt res = Some finished ∧ jr_Status res ≠ "") (dispatch agent job started).
Proof.
  intros Ht. unfold dispatch.
  assert (returns (λ out, ∃ res finished, out = Some res ∧ jr_StartedAt res = Some started ∧
     jr_FinishedAt res = Some finished ∧ jr_Status res ≠ "")
    (finished ←! time_now (Inv := Inv);
        Ret (Some (failed_result started finished
          "scanner dispatch is not configured (set the app's mTLS client certificate)")))) as Hnot.
  { apply returns_after. intros finished. by eexists _, finished. }
  destruct dispatcher as [d|]; [|exact Hnot]. destruct (Enabled d); [|exact Hnot].
  destruct (dispatch_timeout_Some job Ht) as [timeout ->].
  apply returns_after. intros [res|msg]; apply returns_after; intros finished.
  - pose proof (agent_result_times started finished res) as Ha.
    destruct (_ && _); [apply returns_after; intros []|]; by eexists _, finished.
  - by eexists _, finished.
Qed.

(** One step of the proof below: the next part of the program that is running. *)
Tactic Notation "run_part" constr(Henv) constr(Hkeeps) constr(Hw) "as" simple_intropattern(pat) :=
  match goal with
  | |- context [exec ?env' ?i (prog_bind ?h _) ?w] =>
      destruct (history_seq _ env' Henv _ h i w _ Hkeeps Hw) as pat
  end.
Tactic Notation "run_update" constr(Henv) constr(Hw) "as" simple_intropattern(pat) :=
  match goal with
  | |- context [exec ?env' ?i (prog_bind ?h (UpdateScanJobResult ?j ?res)) ?w] =>
      destruct (history_update_seq j env' Henv res h i w _ Hw) as pat
  end.

(** The recorded states of a run. *)
Definition running_obs (started : Z) : string * string * option string * option Z * option Z :=
  ("running", "", None, Some (timestamptz started), None).
Definition final_obs (res : ScanJobResult) (json : option string) (started finished : Z) :
    string * string * option string * option Z * option Z :=
  (jr_Status res, jr_Error res, json, Some (timestamptz started), Some (timestamptz finished)).


(** ** Enqueuing *)

(** Jobs and goroutines are as they were. *)
Definition same_jobs (w w' : World Inv) : Prop :=
  w_jobs w' = w_jobs w ∧ w_spawned w' = w_spawned w.

#[local] Instance same_jobs_preorder : PreOrder same_jobs.
Proof.
  split; [by intros w|]. intros w1 w2 w3 [? ?] [? ?]. split; congruence.
Qed.

Lemma audit_same_jobs actor action si status w :
  same_jobs w (alone (audit actor action si status) w).2.
Proof.
  apply (guarantees_exec same_jobs); [|by intros].
  apply guarantees_bind; [|intros ?; exact I]. apply guarantees_stmt; [done|].
  intros w1 now a w' H. by repeat case_match; simplify_eq/=.
Qed.

(** A lost read after the insertion leaves a job no goroutine will run. *)
Lemma CreateScanJob_alone input w :
  let '(res, w') := alone (CreateScanJob (Inv := Inv) input) w in
  (∃ e, res = Err e ∧ same_jobs w w') ∨
  ∃ id now, w_jobs w !! id = None ∧ int4 (job_timeout input) = true ∧
    w_jobs w' = <[id := new_job_row input now]> (w_jobs w) ∧ w_spawned w' = w_spawned w ∧
    ((∃ w0 : World Inv, res = Ok (job_of_row id (new_job_row input now) w0)) ∨
     res = Err ErrLost ∧ ∃ n, fault n = true).
Proof.
  unfold CreateScanJob. rewrite alone_try. unfold random_token. rewrite alone_atomic.
  destruct (token (w_step w)) as [id|]; cbn [of_option]; [|by left; eexists].
  rewrite alone_try, alone_stmt. unfold run_stmt. destruct (fault _); [by left; eexists|].
  repeat case_match; simplify_eq/=; try by left; eexists.
  right. assert (w_jobs w !! id = None) as Hfresh by (destruct (w_jobs w !! id); [by destruct n|done]).
  match goal with H : alone _ _ = _ |- _ =>
    unfold GetScanJob in H; rewrite alone_stmt in H; unfold run_stmt in H;
    destruct (fault _) eqn:Hf; cbn in H; rewrite ?lookup_insert_eq in H; simplify_eq/= end.
  - eexists id, _. split_and!; [done|by apply negb_false_iff|done|done|right; by split; [|eexists]].
  - eexists id, _. split_and!; [done|by apply negb_false_iff|done|done|left; by eexists].
Qed.

Lemma scannerJob_valid input now agent id t (w0 : World Inv) :
  ValidateJobForAgent (scannerJob "preview" input now) (registrationFromAgent agent) = None →
  id ≠ "" →
  ValidateAgentScope (scannerJobFromStore (job_of_row id (new_job_row input t) w0))
    (sa_AllowedCIDRs agent) = None.
Proof.
  intros Hv Hid. unfold ValidateJobForAgent in Hv. repeat case_match; simplify_eq.
  apply ValidateAgentScope_None in Hv as ((_ & ? & ? & ? & Ht) & Hin & Hscope).
  apply ValidateAgentScope_None. split; [|by split]. cbn in *.
  unfold job_structure. cbn. split_and!; [done|done|done|done|].
  unfold job_timeout. by replace (ji_TimeoutSeconds input <=? 0) with false by lia.
Qed.


(** ** A tick of the scheduler *)

(** A schedule without the outcome of its last run. *)
Definition config (s : ScanSchedule) : ScanSchedule :=
  MkScanSchedule (ss_ID s) (ss_Name s) (ss_AgentID s) "" (ss_ScanType s) (ss_Mode s)
    (ss_AllowedCIDRs s) (ss_Targets s) (ss_TimeoutSeconds s) (ss_IntervalSeconds s) (ss_Enabled s)
    (ss_WindowStartMin s) (ss_WindowEndMin s) (ss_WindowDays s) (ss_WindowTZ s) None "" "" ""
    (ss_NextRunAt s) (ss_CreatedAt s) 0.

(** Schedule [id] is there or not as before, with the same configuration. *)
Definition keeps_config (id : string) (w w' : World Inv) : Prop :=
  config <$> w_schedules w' !! id = config <$> w_schedules w !! id.

#[local] Instance keeps_config_preorder id : PreOrder (keeps_config id).
Proof.
  split; [by intros w|]. intros w1 w2 w3 H1 H2. unfold keeps_config in *. by rewrite H2.
Qed.

Lemma stmt_keeps_config {A} id (f : Z → World Inv → result db_error (A * World Inv)) :
  (∀ w now a w', f now w = Ok (a, w') → w_schedules w' = w_schedules w) →
  guarantees (keeps_config id) (stmt f).
Proof.
  intros Hf. apply guarantees_stmt; [done|]. intros w now a w' H.
  unfold keeps_config. by apply Hf in H as ->.
Qed.

Ltac schedules_alone := apply stmt_keeps_config; intros; repeat case_match; by simplify_eq/=.
Ltac config_prog :=
  repeat match goal with
  | |- guarantees _ (try_bind _ _) => apply guarantees_try; [|intros ?]
  | |- guarantees _ (prog_bind _ _) => apply guarantees_bind; [|intros ?]
  | |- guarantees _ (Ret _) => exact I
  | |- guarantees _ (atomic _) => apply guarantees_atomic; intros ?; reflexivity
  | |- guarantees _ (match _ with _ => _ end) => case_match
  end; auto with lipam.

Lemma config_last_run id status e job now (m : gmap string ScanSchedule) k :
  config <$> alter (last_run status e job now) k m !! id = config <$> m !! id.
Proof.
  destruct (decide (k = id)) as [->|]; [|by rewrite lookup_alter_ne].
  rewrite lookup_alter_eq. by destruct (m !! id).
Qed.

Lemma SetScanScheduleLastRun_config id k s e job :
  guarantees (keeps_config id) (SetScanScheduleLastRun (Inv := Inv) k s e job).
Proof.
  apply guarantees_stmt; [done|]. intros w now a w' [= <- <-]. apply config_last_run.
Qed.

Lemma audit_config id actor action si status :
  guarantees (keeps_config id) (audit actor action si status).
Proof. unfold audit, auditSubject, CreateAuditLog. config_prog. schedules_alone. Qed.

Lemma enqueue_config id agent input actor :
  guarantees (keeps_config id) (enqueue agent input actor).
Proof.
  unfold enqueue, CreateScanJob, time_now, spawn, random_token. config_prog; try schedules_alone.
Qed.

Lemma runSchedule_config id s : guarantees (keeps_config id) (runSchedule s).
Proof.
  unfold runSchedule. config_prog.
  - schedules_alone.
  - apply enqueue_config.
  - apply audit_config.
  - apply SetScanScheduleLastRun_config.
Qed.

Lemma fire_other id now s : ss_ID s ≠ id → guarantees (keeps_config id) (fire now s).
Proof.
  intros Hne. unfold fire. config_prog; [apply runSchedule_config|].
  apply guarantees_stmt; [done|]. intros w t u w' [= <- <-].
  unfold keeps_config. cbn. by rewrite lookup_alter_ne.
Qed.

(** [c] is the configuration of schedule [id]. *)
Definition has_config (id : string) (c : ScanSchedule) (w : World Inv) : Prop :=
  config <$> w_schedules w !! id = Some c.

Lemma has_config_keeps id c w w' : keeps_config id w w' → has_config id c w → has_config id c w'.
Proof. unfold has_config. by intros ->. Qed.

Section tick.
Context (id : string) (env' : nat → World Inv → World Inv).
Hypothesis env_keeps : ∀ n w, keeps_config id w (env' n w).
Hypothesis no_fault : ∀ n, fault n = false.

Lemma exec_has_config {A} (p : prog (World Inv) A) i w c :
  guarantees (keeps_config id) p → has_config id c w → has_config id c (exec env' i p w).2.
Proof.
  intros Hp. apply has_config_keeps. by apply (guarantees_exec (keeps_config id)).
Qed.

(** Firing a schedule inside its window moves its next run one interval past
    the clock. *)
Lemma fire_own now s i w c :
  ss_ID s = id → windowAllows (windowFromSchedule LoadLocation s) now = true →
  has_config id c w →
  ∃ n, has_config id (config (ran (timestamptz (clock n)) c)) (exec env' i (fire now s) w).2.
Proof.
  intros Hid Hallow Hc. unfold fire. rewrite Hallow, exec_bind.
  assert (has_config id c (exec env' i (runSchedule s) w).2) as Hc1
    by (apply exec_has_config; [apply runSchedule_config|done]).
  revert Hc1. generalize (exec env' i (runSchedule s) w).2.
  generalize (i + length (trace env' i (runSchedule s) w))%nat. intros i1 w1 Hc1.
  unfold MarkScanScheduleRan, stmt. rewrite exec_bind, exec_atomic. cbn [exec snd].
  unfold run_stmt. rewrite no_fault. cbn [snd]. eexists. unfold has_config. cbn.
  apply (has_config_keeps _ _ _ (env' i1 w1)) in Hc1;
    [|apply env_keeps].
  rewrite Hid, lookup_alter_eq. apply fmap_Some in Hc1 as (t & Ht & ->). by rewrite Ht.
Qed.

(** Over a list of schedules: [id] is advanced when it is listed and inside its
    window, and otherwise left alone. *)
Lemma fire_all now l i w c :
  has_config id c w → config c = c →
  (Forall (λ s, ss_ID s = id → windowAllows (windowFromSchedule LoadLocation s) now = false) l →
   has_config id c (exec env' i (for_each (fire now) l) w).2) ∧
  (Exists (λ s, ss_ID s = id) l →
   Forall (λ s, ss_ID s = id → windowAllows (windowFromSchedule LoadLocation s) now = true) l →
   ∃ n, has_config id (config (ran (timestamptz (clock n)) c)) (exec env' i (for_each (fire now) l) w).2).
Proof.
  revert i w c. induction l as [|s l IH]; intros i w c Hc Hcc.
  { split; [done|]. intros He. by apply Exists_nil in He. }
  cbn [for_each]. rewrite exec_bind. set (w1 := (exec env' i (fire now s) w).2).
  set (i1 := (i + _)%nat). split.
  - intros [Hs Hl]%Forall_cons. apply IH; [|done|done].
    destruct (decide (ss_ID s = id)) as [Hid|Hid].
    + unfold w1, fire. by rewrite (Hs Hid).
    + by apply exec_has_config; [apply fire_other|].
  - intros He [Hs Hl]%Forall_cons. destruct (decide (ss_ID s = id)) as [Hid|Hid].
    + destruct (fire_own now s i w c Hid (Hs Hid) Hc) as [n Hn]. fold w1 in Hn.
      set (c1 := config (ran (timestamptz (clock n)) c)) in *.
      assert (config c1 = c1) as Hc1 by done.
      destruct (decide (Exists (λ s, ss_ID s = id) l)) as [Hex|Hnex].
      * destruct (proj2 (IH i1 w1 c1 Hn Hc1) Hex Hl) as [m Hm]. by exists m.
      * exists n. apply (proj1 (IH i1 w1 c1 Hn Hc1)). apply Forall_Exists_neg in Hnex.
        eapply Forall_impl; [exact Hnex|]. by intros x Hx Hx'.
    + apply Exists_cons in He as [He|He]; [done|].
      assert (has_config id c w1) as Hc1 by (apply exec_has_config; [by apply fire_other|done]).
      by apply (proj2 (IH i1 w1 c Hc1 Hcc)).
Qed.
End tick.

(** Configuration decides whether a schedule is due and inside its window. *)
Lemma config_due s t now : config s = config t → due now s = due now t.
Proof.
  intros H. unfold due. assert (ss_Enabled s = ss_Enabled t) as -> by (by injection H).
  by assert (ss_NextRunAt s = ss_NextRunAt t) as -> by (by injection H).
Qed.

Lemma config_window s t now :
  config s = config t →
  windowAllows (windowFromSchedule LoadLocation s) now =
  windowAllows (windowFromSchedule LoadLocation t) now.
Proof.
  intros H. unfold windowFromSchedule.
  assert (ss_WindowStartMin s = ss_WindowStartMin t) as -> by (by injection H).
  assert (ss_WindowEndMin s = ss_WindowEndMin t) as -> by (by injection H).
  assert (ss_WindowDays s = ss_WindowDays t) as -> by (by injection H).
  by assert (ss_WindowTZ s = ss_WindowTZ t) as -> by (by injection H).
Qed.

Lemma schedule_of_row_config s (w : World Inv) : config (schedule_of_row s w) = config s.
Proof. done. Qed.

(** Rows under their keys in [w] still are in a world with the same
    configurations. *)
Lemma config_row (w w1 : World Inv) k t :
  wf w → keeps_config k w w1 → w_schedules w1 !! k = Some t →
  ss_ID t = k ∧ ∃ s, w_schedules w !! k = Some s ∧ config t = config s.
Proof.
  intros (_ & Hss & _) Hk Ht. unfold keeps_config in Hk. rewrite Ht in Hk. symmetry in Hk.
  apply fmap_Some in Hk as (s & Hs & Hc). split; [|by exists s].
  destruct (Hss k s Hs) as [Hid _]. rewrite <- Hid. by injection Hc.
Qed.

(** The list of a tick names schedule [id] exactly when it is due, with its
    configuration. *)
Lemma due_list_own (w w1 : World Inv) id s now x :
  wf w → (∀ k, keeps_config k w w1) → w_schedules w !! id = Some s →
  x ∈ due_list now w1 → ss_ID x = id → config x = config s ∧ due now s = true.
Proof.
  intros Hwf Hk Hs (k & t & Ht & Hd & ->)%due_list_elem Hid. cbn in Hid.
  destruct (config_row w w1 k t Hwf (Hk k) Ht) as (Hkey & s0 & Hs0 & Hc).
  assert (k = id) as -> by congruence. assert (s0 = s) as -> by congruence.
  split; [exact Hc|]. by rewrite <- (config_due t s).
Qed.

Lemma due_list_listed (w w1 : World Inv) id s now :
  wf w → (∀ k, keeps_config k w w1) → w_schedules w !! id = Some s → due now s = true →
  Exists (λ x, ss_ID x = id) (due_list now w1).
Proof.
  intros Hwf Hk Hs Hd. pose proof (Hk id) as Hki. unfold keeps_config in Hki. rewrite Hs in Hki.
  apply fmap_Some in Hki as (t & Ht & Hc).
  destruct (config_row w w1 id t Hwf (Hk id) Ht) as (Hkey & _).
  apply Exists_exists. exists (schedule_of_row t w1). split; [|exact Hkey].
  apply due_list_elem. exists id, t. split; [done|]. split; [|done]. by rewrite (config_due t s).
Qed.

(** A tick fires the listed schedules in turn. *)
Lemma tick_exec env' i w :
  (∀ n, fault n = false) →
  let w1 := env' i w in
  let now := (exec env' (S i) time_now (exec env' i ListDueScanSchedules w).2).1 in
  exec env' i RunDueSchedules w =
  exec env' (S (S i))
    (for_each (fire now) (due_list (timestamptz (clock (w_step w1))) (bump w1)))
    (bump (env' (S i) (bump w1))).
Proof.
  intros Hnf w1 now. set (t0 := timestamptz (clock (w_step w1))).
  assert (run_stmt (λ now w, Ok (due_list now w, w)) w1 = (Ok (due_list t0 (bump w1)), bump w1)) as Hrun
    by (unfold run_stmt; by rewrite Hnf).
  assert ((exec env' i ListDueScanSchedules w) = (Ok (due_list t0 (bump w1)), bump w1)) as Hlisted
    by (unfold ListDueScanSchedules, stmt; by rewrite exec_atomic).
  unfold RunDueSchedules, ListDueScanSchedules, stmt. rewrite exec_bind_atomic. fold w1.
  rewrite Hrun. cbn [fst snd]. unfold time_now at 1. rewrite exec_bind_atomic. cbn [fst snd].
  unfold now. by rewrite Hlisted.
Qed.

End orchestrator.

(** ** Concrete inputs *)

(** A store with no discoveries. *)
#[local] Instance idle_queue : DiscoveryStore unit.
Proof.
  refine {| UpsertDiscovery := λ _, Ret (Err ErrNotFound); ImportDiscovery := λ _ _, Ret (Err ErrNotFound);
            SyncImportedDiscovery := λ _, Ret (Err ErrNotFound);
            AutoLinkDeviceBySerial := λ _, Ret (Err ErrNotFound) |}; intros; exact I.
Defined.

(** A second per step, nothing lost. *)
#[local] Instance calm_env : Env :=
  {| clock := λ n, Z.of_nat n * second; fault := λ _, false; token := λ _, Some "job-1";
     jsonb_in := λ s, Some s |}.

Definition lab_agent : ScanAgent :=
  MkScanAgent "a" "lab" "" "https://agent" "CN=agent" ["10.0.0.0/8"] "active" false "" None 0 0.
Definition lab_schedule : ScanSchedule :=
  MkScanSchedule "s" "nightly" "a" "" "combined" "light_active" ["10.0.0.0/24"] ["10.0.0.1"] 60 3600
    true None None [] "UTC" None "" "" "" 0 0 0.
Definition lab_row : JobRow :=
  MkJobRow "a" (Some "s") None "combined" "light_active" ["10.0.0.0/24"] ["10.0.0.1"] 60 "queued" ""
    None None None 0 0.
Definition lab_world : World unit :=
  MkWorld ∅ ∅ {["a" := lab_agent]} {["s" := lab_schedule]} {["j" := lab_row]} [] () [] 0.


