(* ===== verification/Lockout.v ===== *)
(** * Login throttling: [internal/app/lockout.go], [internal/store/login_attempts.go]

    The table of failed logins, the lockout decision, and the part of
    [loginSubmit] ([internal/app/app.go]) from the throttle to the password
    check. *)

From S2P Require Import Prelude GoStrings GoTime Protocol.
Local Open Scope Z_scope.

(** ** Records *)

Record lockoutPolicy : Type := MkPolicy { MaxAttempts : Z; Window : Z; Cooldown : Z }.
Record lockoutDecision : Type := MkDecision { Locked : bool; RetryAfter : Z }.
Record LoginFailureStats : Type := MkStats
  { UserFailures : Z; UserLast : Z; IPFailures : Z; IPLast : Z }.

(** A row of [login_attempts]. *)
Record attempt : Type := MkAttempt { at_username : string; at_ip : string; at_created : Z }.

(** ** The decision *)

(** [t.Sub(u)] saturates at the bounds of a [Duration]. *)
Definition time_sub (t u : Z) : Z := Z.max int64_min (Z.min int64_max (t - u)).

Definition unlocked : lockoutDecision := MkDecision false 0.

Definition lockoutForKey (policy : lockoutPolicy) (failures lastFailure now : Z) : lockoutDecision :=
  if (MaxAttempts policy <=? 0) || (failures <? MaxAttempts policy) || (lastFailure =? zero_time)
  then unlocked
  else
    let unlockAt := lastFailure + Cooldown policy in
    if unlockAt <=? now then unlocked else MkDecision true (time_sub unlockAt now).

Definition evaluateLockout (policy : lockoutPolicy) (stats : LoginFailureStats) (now : Z) :
    lockoutDecision :=
  let user := lockoutForKey policy (UserFailures stats) (UserLast stats) now in
  let ip := lockoutForKey policy (IPFailures stats) (IPLast stats) now in
  if RetryAfter user <? RetryAfter ip then ip else user.

(** ** The table *)

Definition RecordLoginFailure (username ip : string) (now : Z) (db : list attempt) : list attempt :=
  db ++ [MkAttempt username ip now].

Definition last_time (l : list attempt) : Z :=
  match l with [] => zero_time | a :: l => foldr (λ b m, Z.max (at_created b) m) (at_created a) l end.

Definition RecentLoginFailures (username ip : string) (since : Z) (db : list attempt) :
    LoginFailureStats :=
  let recent := filter (λ a, since < at_created a) db in
  let user := filter (λ a, at_username a = username) recent in
  let addr := filter (λ a, at_ip a = ip) recent in
  MkStats (Z.of_nat (length user)) (last_time user) (Z.of_nat (length addr)) (last_time addr).

Definition ClearLoginFailures (username : string) (db : list attempt) : list attempt :=
  filter (λ a, at_username a ≠ username) db.

(** ** A login *)

Inductive login_outcome : Type := Throttled (retry : Z) | BadCredentials | PasswordOK.

#[export] Instance login_outcome_eq_dec : EqDecision login_outcome.
Proof. solve_decision. Defined.

(** The login form, the time it is handled, and the time the database stamps on
    a failure it leads to. *)
Record login : Type := MkLogin
  { lg_username : string; lg_ip : string; lg_password : string; lg_now : Z; lg_stamp : Z }.

Section login.
Context (policy : lockoutPolicy).
(** The stored password hash of a user, and its verification. *)
Context (find_user : string → option string) (VerifyPassword : string → string → bool).

Definition password_ok (l : login) : bool :=
  match find_user (trim_space (lg_username l)) with
  | Some hash => VerifyPassword hash (lg_password l)
  | None => false
  end.

Definition loginSubmit (l : login) (db : list attempt) : login_outcome * list attempt :=
  let username := trim_space (lg_username l) in
  let stats := RecentLoginFailures username (lg_ip l) (lg_now l - Window policy) db in
  let decision := evaluateLockout policy stats (lg_now l) in
  if Locked decision then (Throttled (RetryAfter decision), db)
  else if password_ok l then (PasswordOK, ClearLoginFailures username db)
  else (BadCredentials, RecordLoginFailure username (lg_ip l) (lg_stamp l) db).

Fixpoint logins (ls : list login) (db : list attempt) : list (login * login_outcome) * list attempt :=
  match ls with
  | [] => ([], db)
  | l :: ls => let '(o, db) := loginSubmit l db in
               let '(os, db) := logins ls db in ((l, o) :: os, db)
  end.

(** ** Lemmas *)

Lemma last_time_ge t0 l : l ≠ [] → Forall (λ a, t0 ≤ at_created a) l → t0 ≤ last_time l.
Proof.
  destruct l as [|a l]; [done|]. intros _ [Ha Hl]%Forall_cons. cbn.
  induction Hl as [|b l Hb _ IH]; cbn; lia.
Qed.

Lemma lockoutForKey_locked failures last now :
  Locked (lockoutForKey policy failures last now) = true ↔
  0 < MaxAttempts policy ≤ failures ∧ last ≠ zero_time ∧ now < last + Cooldown policy.
Proof.
  unfold lockoutForKey. repeat case_match; bool_hyps; cbn; try lia.
Qed.

Lemma lockoutForKey_cases failures last now :
  lockoutForKey policy failures last now = unlocked ∨
  Locked (lockoutForKey policy failures last now) = true ∧
  0 < RetryAfter (lockoutForKey policy failures last now).
Proof.
  unfold lockoutForKey. destruct (_ || _); [by left|]. destruct (_ <=? _) eqn:H; [by left|right].
  bool_hyps. cbn. unfold time_sub, int64_min, int64_max. lia.
Qed.

Lemma lockoutForKey_retry failures last now :
  last ≤ now → Cooldown policy ≤ int64_max →
  RetryAfter (lockoutForKey policy failures last now) =
  if Locked (lockoutForKey policy failures last now) then last + Cooldown policy - now else 0.
Proof.
  intros Hl Hc. unfold lockoutForKey. repeat case_match; bool_hyps; cbn in *; simplify_eq; try done.
  unfold time_sub, int64_min, int64_max in *. lia.
Qed.

(** A login is blocked exactly when the username or the address has reached
    the limit and its last failure is within the cooldown, and the time it is
    told to wait is exact: with the same failures it stays blocked until that
    time has passed and is free from then on. *)
Theorem evaluateLockout_spec stats now :
  UserLast stats ≤ now → IPLast stats ≤ now → Cooldown policy ≤ int64_max →
  (Locked (evaluateLockout policy stats now) = true ↔
   ∃ failures last, ((failures, last) = (UserFailures stats, UserLast stats) ∨
                     (failures, last) = (IPFailures stats, IPLast stats)) ∧
     0 < MaxAttempts policy ≤ failures ∧ last ≠ zero_time ∧ now < last + Cooldown policy) ∧
  (∀ now', now ≤ now' →
   Locked (evaluateLockout policy stats now') = true ↔
   now' < now + RetryAfter (evaluateLockout policy stats now)).
Proof.
  intros Hu Hi Hc.
  assert (∀ t, now ≤ t → Locked (evaluateLockout policy stats t) =
    Locked (lockoutForKey policy (UserFailures stats) (UserLast stats) t) ||
    Locked (lockoutForKey policy (IPFailures stats) (IPLast stats) t)) as Hor.
  { intros t Ht. unfold evaluateLockout.
    pose proof (lockoutForKey_retry (UserFailures stats) (UserLast stats) t ltac:(lia) Hc) as Hru.
    pose proof (lockoutForKey_retry (IPFailures stats) (IPLast stats) t ltac:(lia) Hc) as Hri.
    pose proof (lockoutForKey_locked (UserFailures stats) (UserLast stats) t) as Hlu.
    pose proof (lockoutForKey_locked (IPFailures stats) (IPLast stats) t) as Hli.
    destruct (_ <? _) eqn:Hlt; bool_hyps;
      destruct (Locked (lockoutForKey _ (UserFailures stats) _ _)), (Locked (lockoutForKey _ (IPFailures stats) _ _));
      cbn; try done; lia. }
  split.
  - rewrite Hor, orb_true_iff, !lockoutForKey_locked by lia. split.
    + intros [H|H]; eexists _, _; (split; [|exact H]); [by left|by right].
    + intros (f & last & [[= -> ->]|[= -> ->]] & Hk); [by left|by right].
  - intros now' Hn. rewrite Hor by done. unfold evaluateLockout.
    pose proof (lockoutForKey_retry (UserFailures stats) (UserLast stats) now ltac:(lia) Hc) as Hru.
    pose proof (lockoutForKey_retry (IPFailures stats) (IPLast stats) now ltac:(lia) Hc) as Hri.
    pose proof (lockoutForKey_locked (UserFailures stats) (UserLast stats) now) as Hlu.
    pose proof (lockoutForKey_locked (IPFailures stats) (IPLast stats) now) as Hli.
    rewrite orb_true_iff, !lockoutForKey_locked.
    destruct (_ <? _) eqn:Hlt; bool_hyps;
      destruct (Locked (lockoutForKey _ (UserFailures stats) _ now)), (Locked (lockoutForKey _ (IPFailures stats) _ now));
      lia.
Qed.

Lemma last_time_elem a l : a ∈ l → at_created a ≤ last_time l.
Proof.
  destruct l as [|b l]; [by intros ?%not_elem_of_nil|]. cbn. intros [->|Ha]%elem_of_cons.
  - induction l as [|c l IH]; cbn; lia.
  - induction l as [|c l IH]; [by apply not_elem_of_nil in Ha|].
    apply elem_of_cons in Ha as [->|Ha]; cbn; [lia|]. specialize (IH Ha). lia.
Qed.

(** The failures of a user since a time. *)
Definition failures_since (u : string) (start : Z) (db : list attempt) : list attempt :=
  filter (λ a, at_username a = u ∧ start ≤ at_created a) db.

Lemma failures_since_record u start v ip now db :
  length (failures_since u start (RecordLoginFailure v ip now db)) =
  (length (failures_since u start db) + if decide (v = u ∧ (start ≤ now)%Z) then 1 else 0)%nat.
Proof.
  unfold failures_since, RecordLoginFailure. rewrite filter_app, length_app. f_equal.
  rewrite filter_cons. cbn. by destruct (decide _).
Qed.

Lemma failures_since_clear u start v db :
  v ≠ u → failures_since u start (ClearLoginFailures v db) = failures_since u start db.
Proof.
  intros Hv. unfold failures_since, ClearLoginFailures. rewrite list_filter_filter.
  apply list_filter_iff. intros a. split; [tauto|]. intros [Ha Hs]. by split; [|rewrite Ha; auto].
Qed.

Lemma failures_since_recent u start ip since db :
  since < start →
  Z.of_nat (length (failures_since u start db)) ≤ UserFailures (RecentLoginFailures u ip since db) ∧
  (failures_since u start db ≠ [] → start ≤ UserLast (RecentLoginFailures u ip since db)).
Proof.
  intros Hs. cbn. unfold failures_since.
  assert (filter (λ a, at_username a = u ∧ start ≤ at_created a) db =
    filter (λ a, start ≤ at_created a)
      (filter (λ a, at_username a = u) (filter (λ a, since < at_created a) db))) as ->.
  { rewrite !list_filter_filter. apply list_filter_iff. intros a.
    split; [intros [? ?]; split_and!; (done || lia)|tauto]. }
  set (l := filter (λ a, at_username a = u) _). split.
  - pose proof (length_filter (λ a, start ≤ at_created a) l). lia.
  - intros Hne. destruct (filter _ l) as [|a k] eqn:Hk; [done|].
    assert (a ∈ filter (λ a, start ≤ at_created a) l) as [Ha Hl]%list_elem_of_filter
      by (rewrite Hk; by left).
    etrans; [exact Ha|]. by apply last_time_elem.
Qed.

(** A wrong password is only looked at below the limit. *)
Lemma loginSubmit_limit start finish l db db' :
  0 < MaxAttempts policy → zero_time < start →
  finish ≤ start + Window policy → finish ≤ start + Cooldown policy →
  start ≤ lg_now l < finish →
  loginSubmit l db = (BadCredentials, db') →
  Z.of_nat (length (failures_since (trim_space (lg_username l)) start db)) < MaxAttempts policy.
Proof.
  intros Hm Hz Hw Hc Hn. unfold loginSubmit. set (u := trim_space (lg_username l)).
  set (stats := RecentLoginFailures _ _ _ _). intros H.
  destruct (Z.lt_ge_cases (Z.of_nat (length (failures_since u start db))) (MaxAttempts policy)) as [|Hge];
    [done|exfalso].
  destruct (failures_since_recent u start (lg_ip l) (lg_now l - Window policy) db ltac:(lia)) as [Hf Hl].
  fold stats in Hf, Hl.
  assert (failures_since u start db ≠ []) as Hne by (intros He; rewrite He in Hge; cbn in Hge; lia).
  specialize (Hl Hne).
  assert (Locked (lockoutForKey policy (UserFailures stats) (UserLast stats) (lg_now l)) = true) as Hu
    by (apply lockoutForKey_locked; lia).
  unfold evaluateLockout in H. destruct (_ <? _) eqn:Hlt; [|by rewrite Hu in H].
  assert (Locked (lockoutForKey policy (IPFailures stats) (IPLast stats) (lg_now l)) = true) as Hi.
  { bool_hyps.
    destruct (lockoutForKey_cases (UserFailures stats) (UserLast stats) (lg_now l)) as [He|[_ ?]];
      [by rewrite He in Hu|].
    destruct (lockoutForKey_cases (IPFailures stats) (IPLast stats) (lg_now l)) as [He|[? _]]; [|done].
    assert (RetryAfter unlocked = 0) by done. rewrite He in Hlt. lia. }
  by rewrite Hi in H.
Qed.

End login.

(** Three wrong guesses where two are allowed. *)
Definition strict_policy : lockoutPolicy := MkPolicy 2 (15 * minute) (15 * minute).
Definition guess (t : Z) : login := MkLogin "admin" "10.0.0.9" "guess" t t.


Lemma evaluateLockout_spec_witness :
  Locked (evaluateLockout strict_policy (MkStats 2 (2 * second) 2 (2 * second)) (901 * second)) = true ∧
  Locked (evaluateLockout strict_policy (MkStats 2 (2 * second) 2 (2 * second)) (902 * second)) ≠ true.
Proof.
  destruct (evaluateLockout_spec strict_policy (MkStats 2 (2 * second) 2 (2 * second)) (3 * second))
    as [_ Hwait].
  - vm_compute. congruence.
  - vm_compute. congruence.
  - vm_compute. congruence.
  - split.
    + apply (Hwait (901 * second)); vm_compute; congruence.
    + intros H. apply (Hwait (902 * second)) in H; [|vm_compute; congruence].
      revert H. vm_compute. congruence.
Defined.
