(* ===== verification/Password.v ===== *)
(** * The parts of [encoding/base32] and [encoding/base64] the program relies on

    The standard alphabets without padding, over lists of byte values. A group of
    bytes is a number in base 256 whose digits in the radix are the characters. *)

From S2P Require Import Prelude GoStrings.
Local Open Scope Z_scope.

(** [l] read as a number in base [b], and the [n] last digits of a number. *)
Definition undigits (b : Z) (l : list Z) : Z := foldl (λ v d, v * b + d) 0 l.
Fixpoint digits (b : Z) (n : nat) (v : Z) : list Z :=
  match n with O => [] | S n => digits b n (v / b) ++ [v mod b] end.

(** *** Alphabets *)

Definition alphabet32 : string := "ABCDEFGHIJKLMNOPQRSTUVWXYZ234567".
Definition alphabet64 : string :=
  "ABCDEFGHIJKLMNOPQRSTUVWXYZabcdefghijklmnopqrstuvwxyz0123456789+/".

Definition encode_digit (alphabet : string) (d : Z) : ascii :=
  default (byte_of 0) (str_to_list alphabet !! Z.to_nat d).
Definition decode_digit (alphabet : string) (c : ascii) : option Z :=
  (λ p, Z.of_nat p.1) <$> list_find (λ x, x = c) (str_to_list alphabet).

Definition encode_digits (alphabet : string) (l : list Z) : string :=
  str_of_list (map (encode_digit alphabet) l).
(** The digits of a text, line breaks skipped; [None] at any other character. *)
Definition decode_digits (alphabet : string) (s : string) : option (list Z) :=
  mapM (decode_digit alphabet)
    (filter (λ c, c ≠ byte_of 10 ∧ c ≠ byte_of 13) (str_to_list s)).

(** *** [base64.RawStdEncoding]: three bytes are four digits *)

Fixpoint digits64 (l : list Z) : list Z :=
  match l with
  | a :: b :: c :: l => digits 64 4 (undigits 256 [a; b; c]) ++ digits64 l
  | [a; b] => digits 64 3 (undigits 256 [a; b] * 4)
  | [a] => digits 64 2 (undigits 256 [a] * 16)
  | [] => []
  end.
Fixpoint undigits64 (l : list Z) : option (list Z) :=
  match l with
  | a :: b :: c :: d :: l =>
      rest ← undigits64 l; Some (digits 256 3 (undigits 64 [a; b; c; d]) ++ rest)
  | [a; b; c] => Some (digits 256 2 (undigits 64 [a; b; c] / 4))
  | [a; b] => Some (digits 256 1 (undigits 64 [a; b] / 16))
  | [a] => None
  | [] => Some []
  end.

Definition base64_encode (l : list Z) : string := encode_digits alphabet64 (digits64 l).
Definition base64_decode (s : string) : option (list Z) := decode_digits alphabet64 s ≫= undigits64.

(** *** [base32.StdEncoding.WithPadding(NoPadding)]: five bytes are eight digits *)

Fixpoint digits32 (l : list Z) : list Z :=
  match l with
  | a :: b :: c :: d :: e :: l => digits 32 8 (undigits 256 [a; b; c; d; e]) ++ digits32 l
  | [a; b; c; d] => digits 32 7 (undigits 256 [a; b; c; d] * 8)
  | [a; b; c] => digits 32 5 (undigits 256 [a; b; c] * 2)
  | [a; b] => digits 32 4 (undigits 256 [a; b] * 16)
  | [a] => digits 32 2 (undigits 256 [a] * 4)
  | [] => []
  end.
(** The last group may have 7, 5, 4 or 2 digits; the decoder drops one of 6, 3
    or 1 without an error. *)
Fixpoint undigits32 (l : list Z) : list Z :=
  match l with
  | a :: b :: c :: d :: e :: f :: g :: h :: l =>
      digits 256 5 (undigits 32 [a; b; c; d; e; f; g; h]) ++ undigits32 l
  | [_; _; _; _; _; _; _] => digits 256 4 (undigits 32 l / 8)
  | [_; _; _; _; _] => digits 256 3 (undigits 32 l / 2)
  | [_; _; _; _] => digits 256 2 (undigits 32 l / 16)
  | [_; _] => digits 256 1 (undigits 32 l / 4)
  | _ => []
  end.

Definition base32_encode (l : list Z) : string := encode_digits alphabet32 (digits32 l).
Definition base32_decode (s : string) : option (list Z) := undigits32 <$> decode_digits alphabet32 s.

Example base64_1 : base64_encode [77; 97; 110; 77; 97] = "TWFuTWE".
Proof. vm_compute. reflexivity. Qed.
Example base32_1 : base32_encode (map byte_val (str_to_list "foobar")) = "MZXW6YTBOI".
Proof. vm_compute. reflexivity. Qed.
Example base32_2 : base32_decode "MZXW6YTBOI" = Some (map byte_val (str_to_list "foobar")).
Proof. vm_compute. reflexivity. Qed.

(** ** Lemmas *)

Definition is_byte (b : Z) : Prop := 0 ≤ b < 256.

Lemma undigits_snoc b l d : undigits b (l ++ [d]) = undigits b l * b + d.
Proof. unfold undigits. by rewrite foldl_app. Qed.

Lemma digits_length b n v : length (digits b n v) = n.
Proof. revert v. induction n as [|n IH]; intros v; [done|]. cbn. rewrite length_app, IH. cbn. lia. Qed.

Lemma digits_undigits b l :
  0 < b → Forall (λ d, 0 ≤ d < b) l → digits b (length l) (undigits b l) = l.
Proof.
  intros Hb. induction l as [|d l IH] using rev_ind; [done|].
  intros [Hl [Hd _]%Forall_cons]%Forall_app. rewrite length_app, undigits_snoc, Nat.add_1_r. cbn.
  rewrite Z.div_add_l, (Z.div_small d), Z.add_0_r by lia.
  rewrite Z.add_comm, Z_mod_plus_full, Z.mod_small by lia. by rewrite IH.
Qed.

Lemma undigits_digits b n v : 1 < b → 0 ≤ v < b ^ Z.of_nat n → undigits b (digits b n v) = v.
Proof.
  intros Hb. revert v. induction n as [|n IH]; intros v Hv; [cbn in *; lia|].
  cbn [digits]. rewrite undigits_snoc, IH.
  - rewrite Z.mul_comm, <- Z_div_mod_eq_full. done.
  - rewrite Nat2Z.inj_succ, Z.pow_succ_r in Hv by lia.
    split; [apply Z.div_pos; lia|]. apply Z.div_lt_upper_bound; lia.
Qed.

Lemma digits_range b n v : 0 < b → Forall (λ d, 0 ≤ d < b) (digits b n v).
Proof.
  intros Hb. revert v. induction n as [|n IH]; intros v; [constructor|].
  cbn. apply Forall_app. split; [done|]. repeat constructor; by apply Z.mod_pos_bound.
Qed.

Lemma undigits_range b l :
  0 < b → Forall (λ d, 0 ≤ d < b) l → 0 ≤ undigits b l < b ^ Z.of_nat (length l).
Proof.
  intros Hb. induction l as [|d l IH] using rev_ind; [cbn; lia|].
  intros [Hl [Hd _]%Forall_cons]%Forall_app. specialize (IH Hl).
  rewrite undigits_snoc, length_app, Nat.add_1_r, Nat2Z.inj_succ, Z.pow_succ_r by lia. nia.
Qed.

(** Digits of a text. *)
Lemma decode_encode_digit64 d : 0 ≤ d < 64 → decode_digit alphabet64 (encode_digit alphabet64 d) = Some d.
Proof.
  intros Hd. assert (d ∈ seqZ 0 64) as H by (apply elem_of_seqZ; lia). revert d H Hd.
  assert (Forall (λ d, decode_digit alphabet64 (encode_digit alphabet64 d) = Some d) (seqZ 0 64)) as H
    by (refine (bool_decide_eq_true_1 _ _); vm_compute; reflexivity).
  intros d Hin _. by apply (proj1 (Forall_forall _ _) H).
Qed.

Lemma encode_digit64_plain d :
  0 ≤ d < 64 → encode_digit alphabet64 d ∉ [byte_of 10; byte_of 13; "$"%char; ","%char].
Proof.
  intros Hd. assert (d ∈ seqZ 0 64) as H by (apply elem_of_seqZ; lia). revert d H Hd.
  assert (Forall (λ d, encode_digit alphabet64 d ∉ [byte_of 10; byte_of 13; "$"%char; ","%char]) (seqZ 0 64)) as H
    by (refine (bool_decide_eq_true_1 _ _); vm_compute; reflexivity).
  intros d Hin _. by apply (proj1 (Forall_forall _ _) H).
Qed.

Lemma decode_encode_digits64 l :
  Forall (λ d, 0 ≤ d < 64) l → decode_digits alphabet64 (encode_digits alphabet64 l) = Some l.
Proof.
  unfold decode_digits, encode_digits. rewrite str_to_of_list.
  induction 1 as [|d l Hd Hl IH]; [done|]. cbn [map].
  pose proof (encode_digit64_plain d Hd) as Hp. rewrite filter_cons_True.
  - cbn [mapM]. rewrite decode_encode_digit64 by done. cbn [mbind option_bind]. by rewrite IH.
  - split; intros He; rewrite He in Hp; set_solver.
Qed.

Lemma base64_no_dollar l :
  Forall (λ d, 0 ≤ d < 64) l → count_byte "$" (encode_digits alphabet64 l) = 0%nat.
Proof.
  unfold encode_digits. induction 1 as [|d l Hd Hl IH]; [done|]. cbn.
  rewrite decide_False; [exact IH|]. intros He. pose proof (encode_digit64_plain d Hd) as Hp.
  rewrite He in Hp. set_solver.
Qed.

(** A group of bytes survives the change of radix, padded with [p] zero bits. *)
Lemma regroup b n l p k :
  1 < b → 0 < p → Forall is_byte l → 256 ^ Z.of_nat (length l) * p ≤ b ^ Z.of_nat n →
  k = length l → digits 256 k (undigits b (digits b n (undigits 256 l * p)) / p) = l.
Proof.
  intros Hb Hp Hl Hn ->. pose proof (undigits_range 256 l ltac:(lia) Hl) as Hr.
  rewrite undigits_digits, Z.div_mul by nia. by apply digits_undigits.
Qed.

Lemma regroup_full b n l k :
  1 < b → Forall is_byte l → 256 ^ Z.of_nat (length l) ≤ b ^ Z.of_nat n → k = length l →
  digits 256 k (undigits b (digits b n (undigits 256 l))) = l.
Proof.
  intros Hb Hl Hn Hk. rewrite <- (regroup b n l 1 k Hb ltac:(lia) Hl ltac:(lia) Hk) at 2.
  by rewrite Z.mul_1_r, Z.div_1_r.
Qed.

(** The text of a list of bytes reads back. *)
Lemma list_ind3 {A} (P : list A → Prop) :
  P [] → (∀ a, P [a]) → (∀ a b, P [a; b]) → (∀ a b c l, P l → P (a :: b :: c :: l)) → ∀ l, P l.
Proof.
  intros H0 H1 H2 H3 l. enough (P l ∧ (∀ a, P (a :: l)) ∧ (∀ a b, P (a :: b :: l))) by tauto.
  induction l as [|x l (IH1 & IH2 & IH3)]; split_and!; auto.
Qed.

Lemma digits64_range l : Forall (λ d, 0 ≤ d < 64) (digits64 l).
Proof.
  induction l as [|a|a b|a b c l IH] using list_ind3; [constructor| | |];
    cbn [digits64]; rewrite ?Forall_app; try split; try exact IH; by apply digits_range.
Qed.

Lemma undigits64_digits64 l : Forall is_byte l → undigits64 (digits64 l) = Some l.
Proof.
  induction l as [|a|a b|a b c l IH] using list_ind3; intros Hl; [done| | |]; cbn [digits64].
  - pose proof (regroup 64 2 [a] 16 1 ltac:(lia) ltac:(lia) Hl ltac:(cbn; lia) eq_refl) as H.
    by rewrite <- H at 2.
  - pose proof (regroup 64 3 [a; b] 4 2 ltac:(lia) ltac:(lia) Hl ltac:(cbn; lia) eq_refl) as H.
    by rewrite <- H at 2.
  - assert (Forall is_byte [a; b; c] ∧ Forall is_byte l) as [Hg Hr] by (by apply (Forall_app _ [a;b;c])).
    pose proof (regroup_full 64 4 [a; b; c] 3 ltac:(lia) Hg ltac:(cbn; lia) eq_refl) as H.
    change (a :: b :: c :: l) with ([a; b; c] ++ l). rewrite <- H at 2.
    cbn [digits app]. cbn [undigits64]. by rewrite (IH Hr).
Qed.

Lemma base64_round_trip l : Forall is_byte l → base64_decode (base64_encode l) = Some l.
Proof.
  intros Hl. unfold base64_decode, base64_encode.
  rewrite decode_encode_digits64 by apply digits64_range. cbn. by apply undigits64_digits64.
Qed.

Lemma base64_encode_no_dollar l : count_byte "$" (base64_encode l) = 0%nat.
Proof. apply base64_no_dollar, digits64_range. Qed.

(** * Password hashes and recovery codes: [internal/auth/password.go], [totp.go]

    The encoded form of a password hash, its verification, and the normal form of
    recovery codes. Argon2 is third-party code: a parameter. *)

Definition argonMemory : Z := 64 * 1024.
Definition argonIterations : Z := 3.
Definition argonParallelism : Z := 4.
Definition argonSaltLength : Z := 16.
Definition argonKeyLength : Z := 32.

Definition MaxUint32 : Z := 2 ^ 32 - 1.
Definition MaxUint8 : Z := 2 ^ 8 - 1.

Definition parseParam (value key : string) : option Z :=
  let prefix := key +:+ "=" in
  if negb (has_prefix value prefix) then None else atoi (trim_prefix value prefix).

Section password.
(** [argon2.IDKey(password, salt, time, memory, threads, keyLen)]. *)
Context (IDKey : string → list Z → Z → Z → Z → Z → list Z).

(** [salt] is what the random source gave, [None] when it failed. *)
Definition HashPassword (salt : option (list Z)) (password : string) : option string :=
  salt ← salt;
  let hash := IDKey password salt argonIterations argonMemory argonParallelism argonKeyLength in
  Some ("argon2id$v=19$m=" +:+ itoa argonMemory +:+ ",t=" +:+ itoa argonIterations +:+ ",p=" +:+
        itoa argonParallelism +:+ "$" +:+ base64_encode salt +:+ "$" +:+ base64_encode hash).

(** The parameters, as the conversions to [uint32] and [uint8] see them. *)
Definition parse_params (s : string) : option (Z * Z * Z) :=
  match split_on "," s with
  | [m; t; p] =>
      memory ← parseParam m "m"; iterations ← parseParam t "t"; parallelism ← parseParam p "p";
      if (memory <=? 0) || (MaxUint32 <? memory) then None
      else if (iterations <=? 0) || (MaxUint32 <? iterations) then None
      else if (parallelism <=? 0) || (MaxUint8 <? parallelism) then None
      else Some (memory, iterations, parallelism)
  | _ => None
  end.

Definition VerifyPassword (encoded password : string) : bool :=
  match split_on "$" encoded with
  | [alg; version; params; salt; key] =>
      if negb (bool_decide (alg = "argon2id")) || negb (bool_decide (version = "v=19")) then false
      else
        match parse_params params, base64_decode salt, base64_decode key with
        | Some (memory, iterations, parallelism), Some salt, Some expected =>
            bool_decide (IDKey password salt (wrapu32 iterations) (wrapu32 memory)
              (parallelism mod 2 ^ 8) (wrapu32 (Z.of_nat (length expected))) = expected)
        | _, _, _ => false
        end
  | _ => false
  end.

(** ** Lemmas *)

Lemma parse_params_range s m t p :
  parse_params s = Some (m, t, p) →
  0 < m ≤ MaxUint32 ∧ 0 < t ≤ MaxUint32 ∧ 0 < p ≤ MaxUint8.
Proof.
  unfold parse_params. intros H. repeat case_match; simplify_eq.
  destruct (parseParam _ "m") as [m'|]; [cbn in H|done].
  destruct (parseParam _ "t") as [t'|]; [cbn in H|done].
  destruct (parseParam _ "p") as [p'|]; [cbn in H|done].
  repeat case_match; simplify_eq. bool_hyps. lia.
Qed.

(** Acceptance, exactly: five parts, parameters that fit the conversions, two
    decodable texts, and the key Argon2 derives. *)
Lemma VerifyPassword_true encoded password :
  VerifyPassword encoded password = true ↔
  ∃ params s k m t p salt key,
    split_on "$" encoded = ["argon2id"; "v=19"; params; s; k] ∧
    parse_params params = Some (m, t, p) ∧
    base64_decode s = Some salt ∧ base64_decode k = Some key ∧
    IDKey password salt t m p (wrapu32 (Z.of_nat (length key))) = key.
Proof.
  unfold VerifyPassword. split.
  - destruct (split_on "$" encoded) as [|alg [|version [|params [|s [|k [|]]]]]] eqn:Hsplit; try done.
    destruct (bool_decide_reflect (alg = "argon2id")) as [->|]; [|done].
    destruct (bool_decide_reflect (version = "v=19")) as [->|]; [|done]. cbn [negb orb].
    destruct (parse_params params) as [[[m t] p]|] eqn:Hp; [|done].
    destruct (base64_decode s) as [salt|] eqn:Hs; [|done].
    destruct (base64_decode k) as [key|] eqn:Hk; [|done].
    pose proof (parse_params_range _ _ _ _ Hp) as Hr. intros H%bool_decide_eq_true.
    exists params, s, k, m, t, p, salt, key. split_and!; try done.
    unfold wrapu32, MaxUint32, MaxUint8 in *.
    by rewrite (Z.mod_small t), (Z.mod_small m), (Z.mod_small p) in H by lia.
  - intros (params & s & k & m & t & p & salt & key & -> & Hp & Hs & Hk & Hid).
    rewrite !bool_decide_true by done. cbn [negb orb]. rewrite Hp, Hs, Hk.
    apply parse_params_range in Hp. apply bool_decide_true.
    unfold wrapu32, MaxUint32, MaxUint8 in *. rewrite (Z.mod_small t), (Z.mod_small m), (Z.mod_small p) by lia.
    exact Hid.
Qed.

(** The parts of a fresh hash. *)
Lemma HashPassword_split salt password :
  ∃ encoded, HashPassword (Some salt) password = Some encoded ∧
  split_on "$" encoded = ["argon2id"; "v=19"; "m=65536,t=3,p=4"; base64_encode salt;
    base64_encode (IDKey password salt argonIterations argonMemory argonParallelism argonKeyLength)].
Proof.
  eexists. split; [reflexivity|]. set (key := base64_encode (IDKey _ _ _ _ _ _)).
  assert (count_byte "$" key = 0%nat) as Hk by apply base64_encode_no_dollar. clearbody key.
  pose proof (base64_encode_no_dollar salt) as Hs. revert Hs. generalize (base64_encode salt).
  intros s Hs.
  pose proof (split_join "$" ["argon2id"; "v=19"; "m=65536,t=3,p=4"; s; key]) as H.
  rewrite <- H at 1; [|done|by repeat constructor]. f_equal.
Qed.

(** A stored hash verifies the password it was made from, and another one
    only when Argon2 derives the same key for both. *)
Theorem VerifyPassword_HashPassword salt password :
  (∀ pw s t m p n, 0 ≤ n → Z.of_nat (length (IDKey pw s t m p n)) = n ∧
                           Forall is_byte (IDKey pw s t m p n)) →
  Forall is_byte salt →
  ∃ encoded, HashPassword (Some salt) password = Some encoded ∧
    VerifyPassword encoded password = true ∧
    ∀ other, VerifyPassword encoded other = true ↔
      IDKey other salt argonIterations argonMemory argonParallelism argonKeyLength =
      IDKey password salt argonIterations argonMemory argonParallelism argonKeyLength.
Proof.
  intros Hid Hsalt. destruct (HashPassword_split salt password) as (encoded & He & Hsplit).
  exists encoded. split; [exact He|].
  assert (∀ other, VerifyPassword encoded other = true ↔
      IDKey other salt argonIterations argonMemory argonParallelism argonKeyLength =
      IDKey password salt argonIterations argonMemory argonParallelism argonKeyLength) as Hiff;
    [|split; [by apply Hiff|exact Hiff]].
  intros other. rewrite VerifyPassword_true.
  destruct (Hid password salt argonIterations argonMemory argonParallelism argonKeyLength ltac:(done))
    as [Hlen Hbytes].
  set (key := IDKey password salt _ _ _ _) in *.
  assert (wrapu32 (Z.of_nat (length key)) = argonKeyLength) as Hw by (rewrite Hlen; reflexivity).
  assert (parse_params "m=65536,t=3,p=4" = Some (argonMemory, argonIterations, argonParallelism)) as Hp
    by (vm_compute; reflexivity).
  split.
  - intros (params & s & k & m & t & p & salt' & key' & Hs' & Hp' & Hsalt' & Hkey' & Hk).
    rewrite Hsplit in Hs'. simplify_eq.
    rewrite base64_round_trip in Hsalt', Hkey' by done. simplify_eq. by rewrite Hw in Hk.
  - intros Hk. eexists _, _, _, _, _, _, salt, key. rewrite Hsplit, Hw.
    split_and!; [reflexivity|exact Hp| | |exact Hk]; by apply base64_round_trip.
Qed.

(** What a password is checked against when its user does not exist: the hash of 32
    random bytes, [secret], or a constant when there is no salt to be had. *)
Definition decoyHash (secret : list Z) (salt : option (list Z)) : string :=
  default "argon2id$v=19$m=65536,t=3,p=4$YWJjZGVmZ2hpamtsbW5vcA$ZGVjb3lkZWNveWRlY295ZGVjb3lkZWNveWRlY295ZGU"
    (HashPassword salt (base64_encode secret)).

(** The check costs what the check of an account's password costs: one derivation with
    the same parameters, whatever the random source did. *)
Theorem decoy_same_work secret salt :
  (∀ pw s t m p n, 0 ≤ n → Z.of_nat (length (IDKey pw s t m p n)) = n ∧ Forall is_byte (IDKey pw s t m p n)) →
  (∀ s, salt = Some s → Forall is_byte s) →
  ∃ s key, ∀ password, VerifyPassword (decoyHash secret salt) password =
    bool_decide (IDKey password s argonIterations argonMemory argonParallelism argonKeyLength = key).
Proof.
  intros Hid Hsalt. unfold decoyHash. destruct salt as [s|].
  - destruct (HashPassword_split s (base64_encode secret)) as (encoded & -> & Hsplit). cbn [from_option id].
    destruct (Hid (base64_encode secret) s argonIterations argonMemory argonParallelism argonKeyLength ltac:(done)) as [Hlen Hbytes].
    set (key := IDKey _ s _ _ _ _) in *. exists s, key. intros password. unfold VerifyPassword. rewrite Hsplit.
    rewrite !base64_round_trip by auto. rewrite Hlen. reflexivity.
  - exists (default [] (base64_decode "YWJjZGVmZ2hpamtsbW5vcA")), (default [] (base64_decode "ZGVjb3lkZWNveWRlY295ZGVjb3lkZWNveWRlY295ZGU")).
    intros password. reflexivity.
Qed.
End password.

(** A stand-in for Argon2: the salt's first byte, repeated. *)
Definition toy_key (_ : string) (salt : list Z) (_ _ _ n : Z) : list Z :=
  replicate (Z.to_nat n) (default 0 (head salt) mod 256).

Lemma VerifyPassword_HashPassword_witness :
  ∃ encoded, HashPassword toy_key (Some [1; 2; 3]) "secret" = Some encoded ∧
    VerifyPassword toy_key encoded "secret" = true.
Proof.
  destruct (VerifyPassword_HashPassword toy_key [1; 2; 3] "secret") as (encoded & He & Hv & _).
  - intros pw s t m p n Hn. unfold toy_key. rewrite length_replicate. split; [lia|].
    apply Forall_replicate. unfold is_byte. apply Z.mod_pos_bound. lia.
  - repeat constructor; unfold is_byte; lia.
  - exists encoded. by split.
Defined.

Lemma decoy_same_work_witness :
  ∃ s key, VerifyPassword toy_key (decoyHash toy_key [7] None) "secret" = bool_decide (toy_key "secret" s 3 65536 4 32 = key).
Proof.
  destruct (decoy_same_work toy_key [7] None) as (s & key & H).
  - intros pw s t m p n Hn. unfold toy_key. rewrite length_replicate. split; [lia|].
    apply Forall_replicate. unfold is_byte. apply Z.mod_pos_bound. lia.
  - done.
  - exists s, key. apply H.
Defined.

(** A hash whose key part is empty is not refused: Argon2 is asked for no bytes,
    and the comparison is of two empty keys. *)
Lemma VerifyPassword_empty_key IDKey password :
  IDKey password [] 3 65536 4 0 = [] →
  VerifyPassword IDKey "argon2id$v=19$m=65536,t=3,p=4$$" password = true.
Proof.
  intros Hid. apply VerifyPassword_true.
  eexists _, _, _, 65536, 3, 4, [], []. split_and!; [reflexivity|vm_compute; reflexivity|done|done|].
  exact Hid.
Qed.

(** ** Recovery codes *)

Definition recoveryCodeAlphabet : string := "ABCDEFGHJKMNPQRSTUVWXYZ23456789".

Definition alphabet_char (b : Z) : ascii :=
  default (byte_of 0)
    (str_to_list recoveryCodeAlphabet !! Z.to_nat (b mod Z.of_nat (slen recoveryCodeAlphabet))).

(** [buf] is what the random source gave. *)
Definition randomFromAlphabet (buf : list Z) : string := str_of_list (map alphabet_char buf).

(** One code from ten random bytes, and [n] of them, [None] when the source fails. *)
Definition recovery_code (buf : list Z) : string :=
  let raw := str_to_list (randomFromAlphabet buf) in
  str_of_list (take 5 raw) +:+ "-" +:+ str_of_list (drop 5 raw).
Fixpoint GenerateRecoveryCodes (n : nat) (rand : nat → option (list Z)) : option (list string) :=
  match n with
  | O => Some []
  | S n => codes ← GenerateRecoveryCodes n rand; buf ← rand n; Some (codes ++ [recovery_code buf])
  end.

Definition NormalizeRecoveryCode (code : string) : string :=
  remove_byte " " (remove_byte "-" (to_upper (trim_space code))).
