(* ===== verification/Totp.v ===== *)
(** * Time-based one-time passwords: [internal/auth/totp.go]

    RFC 6238 codes over HMAC-SHA-1, their verification with one step of clock
    skew, and the display form of a secret. Bytes are their values. *)

From S2P Require Import Prelude GoStrings GoTime Password.
Local Open Scope Z_scope.

(** ** [crypto/sha1] and [crypto/hmac] *)

Definition rotl32 (n x : Z) : Z := wrapu32 (Z.lor (Z.shiftl x n) (Z.shiftr x (32 - n))).

Definition be_bytes (n : nat) (v : Z) : list Z := digits 256 n v.

(** The message, a one bit, zeros, and the bit length, in blocks of 64. *)
Definition sha1_pad (msg : list Z) : list Z :=
  let n := Z.of_nat (length msg) in
  msg ++ [128] ++ replicate (Z.to_nat ((55 - n) mod 64)) 0 ++ be_bytes 8 (wrapu64 (8 * n)).

Fixpoint words (l : list Z) : list Z :=
  match l with
  | a :: b :: c :: d :: l => undigits 256 [a; b; c; d] :: words l
  | _ => []
  end.

(** The schedule, kept newest first. *)
Fixpoint sha1_extend (n : nat) (w : list Z) : list Z :=
  match n with
  | O => w
  | S n =>
      let x i := default 0 (w !! i) in
      sha1_extend n (rotl32 1 (Z.lxor (Z.lxor (x 2%nat) (x 7%nat)) (Z.lxor (x 13%nat) (x 15%nat))) :: w)
  end.

Definition sha1_state : Type := (Z * Z * Z * Z * Z)%type.

Definition sha1_round (t : nat) (st : sha1_state) (w : Z) : sha1_state :=
  let '(a, b, c, d, e) := st in
  let '(f, k) :=
    if (t <? 20)%nat then (Z.lor (Z.land b c) (Z.land (Z.lxor b (2 ^ 32 - 1)) d), 1518500249)
    else if (t <? 40)%nat then (Z.lxor (Z.lxor b c) d, 1859775393)
    else if (t <? 60)%nat then
      (Z.lor (Z.lor (Z.land b c) (Z.land b d)) (Z.land c d), 2400959708)
    else (Z.lxor (Z.lxor b c) d, 3395469782) in
  (wrapu32 (rotl32 5 a + f + e + k + w), a, rotl32 30 b, c, d).

Fixpoint sha1_rounds (t : nat) (ws : list Z) (st : sha1_state) : sha1_state :=
  match ws with [] => st | w :: ws => sha1_rounds (S t) ws (sha1_round t st w) end.

Definition sha1_block (st : sha1_state) (block : list Z) : sha1_state :=
  let '(a, b, c, d, e) := st in
  let '(a', b', c', d', e') := sha1_rounds 0 (rev (sha1_extend 64 (rev (words block)))) st in
  (wrapu32 (a + a'), wrapu32 (b + b'), wrapu32 (c + c'), wrapu32 (d + d'), wrapu32 (e + e')).

Fixpoint sha1_blocks (fuel : nat) (l : list Z) (st : sha1_state) : sha1_state :=
  match fuel, l with
  | S fuel, _ :: _ => sha1_blocks fuel (drop 64 l) (sha1_block st (take 64 l))
  | _, _ => st
  end.

Definition sha1 (msg : list Z) : list Z :=
  let l := sha1_pad msg in
  let '(a, b, c, d, e) := sha1_blocks (length l) l
    (1732584193, 4023233417, 2562383102, 271733878, 3285377520) in
  be_bytes 4 a ++ be_bytes 4 b ++ be_bytes 4 c ++ be_bytes 4 d ++ be_bytes 4 e.

Definition hmac_sha1 (key msg : list Z) : list Z :=
  let key := if (64 <? length key)%nat then sha1 key else key in
  let block := key ++ replicate (64 - length key) 0 in
  sha1 (map (Z.lxor 92) block ++ sha1 (map (Z.lxor 54) block ++ msg)).

Definition text_bytes (s : string) : list Z := map byte_val (str_to_list s).
Definition hex (l : list Z) : string := foldr (λ b s, hex_byte (byte_of b) +:+ s) "" l.

Example sha1_1 : hex (sha1 (text_bytes "abc")) = "a9993e364706816aba3e25717850c26c9cd0d89d".
Proof. vm_compute. reflexivity. Qed.
Example hmac_1 :
  hex (hmac_sha1 (text_bytes "Jefe") (text_bytes "what do ya want for nothing?")) =
  "effcdf6ae5eb2fa2d27416d5f184df9c259a7c79".
Proof. vm_compute. reflexivity. Qed.

(** ** Codes *)

Definition totpPeriod : Z := 30.
Definition totpDigits : nat := 6.
Definition totpSkew : Z := 1.

(** [None] for an index out of range, which Go answers with a panic. *)
Definition truncate (sum : list Z) : option Z :=
  last ← last sum;
  let offset := Z.to_nat (Z.land last 15) in
  b0 ← sum !! offset; b1 ← sum !! (offset + 1)%nat;
  b2 ← sum !! (offset + 2)%nat; b3 ← sum !! (offset + 3)%nat;
  Some (Z.lor (Z.lor (Z.lor (Z.shiftl (Z.land b0 127) 24) (Z.shiftl b1 16)) (Z.shiftl b2 8)) b3).

Inductive totp_error : Type := ErrSecret | ErrPanic.

Definition totpCode (secret : string) (counter : Z) : result totp_error string :=
  match base32_decode (to_upper (trim_space secret)) with
  | None => Err ErrSecret
  | Some key =>
      match truncate (hmac_sha1 key (be_bytes 8 counter)) with
      | None => Err ErrPanic
      | Some value => Ok (pad_itoa totpDigits (value mod 10 ^ Z.of_nat totpDigits))
      end
  end.

(** [uint64(t.Unix()) / totpPeriod] for [t] in nanoseconds. *)
Definition totp_counter (t : Z) : Z := wrapu64 (t / second) / totpPeriod.

(** The loop over the skewed counters. *)
Fixpoint verify_deltas (secret code : string) (counter : Z) (deltas : list Z) : bool :=
  match deltas with
  | [] => false
  | delta :: deltas =>
      match totpCode secret (wrapu64 (counter + wrapu64 delta)) with
      | Err _ => false
      | Ok want => if bool_decide (want = code) then true
                   else verify_deltas secret code counter deltas
      end
  end.

Definition VerifyTOTP (secret code : string) (t : Z) : bool :=
  let code := trim_space code in
  if negb (slen code =? totpDigits)%nat then false
  else verify_deltas secret code (totp_counter t) [- totpSkew; 0; totpSkew].

(** [GenerateTOTPSecret] on the twenty bytes of the random source. *)
Definition GenerateTOTPSecret (buf : list Z) : string := base32_encode buf.

(** Groups of four characters, for a text of ASCII characters. *)
Fixpoint format_from (i : nat) (s : string) : string :=
  match s with
  | "" => ""
  | String c s =>
      (if (0 <? i)%nat && (i mod 4 =? 0)%nat then " " else "") +:+ String c (format_from (S i) s)
  end.
Definition FormatTOTPSecret (secret : string) : string := format_from 0 secret.

(** The vectors of RFC 6238, six digits. *)
Example totp_1 : totpCode (GenerateTOTPSecret (text_bytes "12345678901234567890")) (59 / 30) = Ok "287082".
Proof. vm_compute. reflexivity. Qed.
Example totp_2 :
  totpCode (GenerateTOTPSecret (text_bytes "12345678901234567890")) (1111111109 / 30) = Ok "081804".
Proof. vm_compute. reflexivity. Qed.
Example format_1 : FormatTOTPSecret "GEZDGNBVGY3TQOJQ" = "GEZD GNBV GY3T QOJQ".
Proof. vm_compute. reflexivity. Qed.

(** ** Lemmas *)

Lemma sha1_length msg : length (sha1 msg) = 20%nat.
Proof.
  unfold sha1, be_bytes. destruct (sha1_blocks _ _ _) as [[[[a b] c] d] e].
  by rewrite !length_app, !digits_length.
Qed.

(** The dynamic truncation stays inside the twenty bytes. *)
Lemma truncate_Some sum : length sum = 20%nat → ∃ v, truncate sum = Some v ∧ ∀ n, 0 < n → 0 ≤ v mod n < n.
Proof.
  intros Hl. unfold truncate.
  destruct (last sum) as [x|] eqn:Hx; [cbn [mbind option_bind]|by apply last_None in Hx; subst].
  assert (0 ≤ Z.land x 15 < 16) as Hr by (change 15 with (Z.ones 4); rewrite Z.land_ones by lia;
    apply Z.mod_pos_bound; lia).
  assert (∀ i, (i < 20)%nat → ∃ b, sum !! i = Some b) as Hi by (intros i ?; apply lookup_lt_is_Some; lia).
  destruct (Hi (Z.to_nat (Z.land x 15))) as [b0 ->]; [lia|].
  destruct (Hi (Z.to_nat (Z.land x 15) + 1)%nat) as [b1 ->]; [lia|].
  destruct (Hi (Z.to_nat (Z.land x 15) + 2)%nat) as [b2 ->]; [lia|].
  destruct (Hi (Z.to_nat (Z.land x 15) + 3)%nat) as [b3 ->]; [lia|].
  eexists. split; [reflexivity|]. intros n Hn. by apply Z.mod_pos_bound.
Qed.

Lemma slen_pad_left c w s : slen (pad_left c w s) = (w `max` slen s)%nat.
Proof.
  unfold pad_left. rewrite slen_app, <- (str_to_list_length (str_of_list _)), str_to_of_list.
  rewrite length_replicate. lia.
Qed.

Lemma slen_utoa_go fuel k n acc :
  0 ≤ n < 10 ^ Z.of_nat k → (0 < k)%nat → (slen (utoa_go fuel n acc) ≤ slen acc + k)%nat.
Proof.
  revert fuel n acc. induction k as [|k IH]; intros fuel n acc Hn Hk; [lia|].
  destruct fuel as [|fuel]; cbn [utoa_go]; [lia|].
  destruct (Z.eqb_spec (n / 10) 0) as [|Hne]; [cbn; lia|].
  assert (0 ≤ n / 10 < 10 ^ Z.of_nat k) as Hn'.
  { rewrite Nat2Z.inj_succ, Z.pow_succ_r in Hn by lia.
    split; [apply Z.div_pos; lia|apply Z.div_lt_upper_bound; lia]. }
  destruct k as [|k]; [cbn in Hn'; lia|].
  specialize (IH fuel (n / 10) (String (digit (n mod 10)) acc) Hn' ltac:(lia)). cbn in *. lia.
Qed.

Lemma slen_pad_itoa w n :
  (0 < w)%nat → 0 ≤ n < 10 ^ Z.of_nat w → slen (pad_itoa w n) = w.
Proof.
  intros Hw Hn. unfold pad_itoa, itoa, utoa. rewrite slen_pad_left.
  replace (n <? 0) with false by lia. pose proof (slen_utoa_go 20 w n "" Hn Hw). cbn in *. lia.
Qed.

(** A code is six characters; the only error is a secret that does not decode. *)
Lemma totpCode_cases secret :
  (∀ c, totpCode secret c = Err ErrSecret) ∨
  (∀ c, ∃ code, totpCode secret c = Ok code ∧ slen code = totpDigits).
Proof.
  unfold totpCode. destruct (base32_decode _) as [key|]; [right|by left]. intros c.
  destruct (truncate_Some (hmac_sha1 key (be_bytes 8 c)) (sha1_length _)) as (v & -> & Hv).
  eexists. split; [reflexivity|]. apply slen_pad_itoa; [unfold totpDigits; lia|].
  apply Hv. unfold totpDigits. lia.
Qed.

Lemma wrapu64_add a b : wrapu64 (a + wrapu64 b) = wrapu64 (a + b).
Proof. unfold wrapu64. apply Zplus_mod_idemp_r. Qed.

(** A code is accepted exactly when, trimmed, it is the secret's code for the
    current thirty-second step or one of its two neighbours; computing a code
    never indexes outside the digest, and the only failure is a secret that is
    not base32. *)
Theorem VerifyTOTP_spec secret :
  (∀ code t, VerifyTOTP secret code t = true ↔
     ∃ delta, -1 ≤ delta ≤ 1 ∧
       totpCode secret (wrapu64 (totp_counter t + delta)) = Ok (trim_space code)) ∧
  (∀ c, totpCode secret c ≠ Err ErrPanic) ∧
  (∀ c code, totpCode secret c = Ok code → slen code = totpDigits).
Proof.
  split; [|split].
  - intros code t. unfold VerifyTOTP. cbn [verify_deltas totpSkew]. rewrite !wrapu64_add.
    destruct (totpCode_cases secret) as [Herr|Hok].
    { rewrite Herr. split; [by destruct (negb _)|]. intros (d & _ & H). by rewrite Herr in H. }
    destruct (Hok (wrapu64 (totp_counter t + - totpSkew))) as (c1 & H1 & L1).
    destruct (Hok (wrapu64 (totp_counter t + 0))) as (c2 & H2 & L2).
    destruct (Hok (wrapu64 (totp_counter t + totpSkew))) as (c3 & H3 & L3).
    rewrite H1, H2, H3. destruct (Nat.eqb_spec (slen (trim_space code)) totpDigits) as [Hl|Hl]; cbn [negb].
    + repeat case_bool_decide; subst.
      * split; [|done]. intros _. exists (-1). split; [lia|exact H1].
      * split; [|done]. intros _. exists 0. split; [lia|exact H2].
      * split; [|done]. intros _. exists 1. split; [lia|exact H3].
      * split; [done|]. intros (d & Hd & Hcode).
        assert (d = - totpSkew ∨ d = 0 ∨ d = totpSkew) as [Heq|[Heq|Heq]] by (unfold totpSkew; lia);
          subst d; congruence.
    + split; [done|]. intros (d & Hd & Hcode).
      destruct (Hok (wrapu64 (totp_counter t + d))) as (c & H' & L). congruence.
  - intros c. destruct (totpCode_cases secret) as [Herr|Hok]; [by rewrite Herr|].
    by destruct (Hok c) as (code & -> & _).
  - intros c code H. destruct (totpCode_cases secret) as [Herr|Hok]; [by rewrite Herr in H|].
    destruct (Hok c) as (code' & H' & L). congruence.
Qed.
