(* ===== verification/Secrets.v ===== *)
(** * Hashed tokens and sealed secrets

    [internal/auth/tokens.go] and [internal/secret/secret.go]: the SHA-256 under
    which API tokens and recovery codes are stored, and the sealing of small
    secrets into versioned, URL-safe tokens. The AES-GCM cipher is an interface. *)

From S2P Require Import Prelude GoStrings Password Totp.
Local Open Scope Z_scope.

(** ** [crypto/sha256] *)

Definition rotr32 (n x : Z) : Z := rotl32 (32 - n) x.

Definition sha256_k : list Z :=
  [1116352408; 1899447441; 3049323471; 3921009573; 961987163; 1508970993; 2453635748; 2870763221;
   3624381080; 310598401; 607225278; 1426881987; 1925078388; 2162078206; 2614888103; 3248222580;
   3835390401; 4022224774; 264347078; 604807628; 770255983; 1249150122; 1555081692; 1996064986;
   2554220882; 2821834349; 2952996808; 3210313671; 3336571891; 3584528711; 113926993; 338241895;
   666307205; 773529912; 1294757372; 1396182291; 1695183700; 1986661051; 2177026350; 2456956037;
   2730485921; 2820302411; 3259730800; 3345764771; 3516065817; 3600352804; 4094571909; 275423344;
   430227734; 506948616; 659060556; 883997877; 958139571; 1322822218; 1537002063; 1747873779;
   1955562222; 2024104815; 2227730452; 2361852424; 2428436474; 2756734187; 3204031479; 3329325298].

(** The schedule, kept newest first. *)
Fixpoint sha256_extend (n : nat) (w : list Z) : list Z :=
  match n with
  | O => w
  | S n =>
      let x i := default 0 (w !! i) in
      let s0 y := Z.lxor (Z.lxor (rotr32 7 y) (rotr32 18 y)) (Z.shiftr y 3) in
      let s1 y := Z.lxor (Z.lxor (rotr32 17 y) (rotr32 19 y)) (Z.shiftr y 10) in
      sha256_extend n (wrapu32 (s1 (x 1%nat) + x 6%nat + s0 (x 14%nat) + x 15%nat) :: w)
  end.

(** The eight working words, as a list. *)
Definition sha256_round (st : list Z) (kw : Z * Z) : list Z :=
  match st with
  | [a; b; c; d; e; f; g; h] =>
      let s1 := Z.lxor (Z.lxor (rotr32 6 e) (rotr32 11 e)) (rotr32 25 e) in
      let ch := Z.lxor (Z.land e f) (Z.land (Z.lxor e (2 ^ 32 - 1)) g) in
      let t1 := h + s1 + ch + kw.1 + kw.2 in
      let s0 := Z.lxor (Z.lxor (rotr32 2 a) (rotr32 13 a)) (rotr32 22 a) in
      let maj := Z.lxor (Z.lxor (Z.land a b) (Z.land a c)) (Z.land b c) in
      [wrapu32 (t1 + s0 + maj); a; b; c; wrapu32 (d + t1); e; f; g]
  | _ => st
  end.

Definition sha256_block (st block : list Z) : list Z :=
  let w := rev (sha256_extend 48 (rev (words block))) in
  zip_with (λ x y, wrapu32 (x + y)) st (foldl sha256_round st (zip sha256_k w)).

Fixpoint sha256_blocks (fuel : nat) (l st : list Z) : list Z :=
  match fuel, l with
  | S fuel, _ :: _ => sha256_blocks fuel (drop 64 l) (sha256_block st (take 64 l))
  | _, _ => st
  end.

(** The padding is that of SHA-1. *)
Definition sha256 (msg : list Z) : list Z :=
  let l := sha1_pad msg in
  concat (map (be_bytes 4) (sha256_blocks (length l) l
    [1779033703; 3144134277; 1013904242; 2773480762; 1359893119; 2600822924; 528734635; 1541459225])).

Example sha256_1 :
  hex (sha256 (text_bytes "abc")) = "ba7816bf8f01cfea414140de5dae2223b00361a396177a9cb410ff61f20015ad".
Proof. vm_compute. reflexivity. Qed.

(** ** Tokens *)

Definition HashToken (token : string) : string := hex (sha256 (text_bytes token)).
Definition HashRecoveryCode (code : string) : string := HashToken (NormalizeRecoveryCode code).

(** ** [base64.RawURLEncoding] *)

Definition alphabet64url : string :=
  "ABCDEFGHIJKLMNOPQRSTUVWXYZabcdefghijklmnopqrstuvwxyz0123456789-_".
Definition base64url_encode (l : list Z) : string := encode_digits alphabet64url (digits64 l).
Definition base64url_decode (s : string) : option (list Z) := decode_digits alphabet64url s ≫= undigits64.

(** ** Sealing *)

Definition sealedPrefix : string := "v1.".

(** [cipher.AEAD] without additional data. *)
Record AEAD : Type := MkAEAD
  { NonceSize : nat; aead_seal : list Z → list Z → list Z; aead_open : list Z → list Z → option (list Z) }.

(** What it promises: what was sealed opens, under the same nonce. *)
Record AEADLaws (c : AEAD) : Prop :=
  { aead_open_seal : ∀ nonce plain, length nonce = NonceSize c → Forall is_byte plain →
      aead_open c nonce (aead_seal c nonce plain) = Some plain;
    aead_bytes : ∀ nonce plain, Forall is_byte (aead_seal c nonce plain) }.

Definition bytes_text (l : list Z) : string := str_of_list (map byte_of l).

Definition DeriveKey (material : list Z) : list Z := sha256 (text_bytes "lightipam:secret:v1:" ++ material).

(** [nonce] is what the random source gave. *)
Definition Seal (c : AEAD) (nonce : option (list Z)) (plaintext : string) : option string :=
  if decide (plaintext = "") then Some ""
  else
    nonce ← nonce;
    Some (sealedPrefix +:+ base64url_encode (nonce ++ aead_seal c nonce (text_bytes plaintext))).

Definition Open (c : AEAD) (token : string) : option string :=
  if decide (token = "") then Some ""
  else
    body ← strip_prefix sealedPrefix token;
    raw ← base64url_decode body;
    if (length raw <? NonceSize c)%nat then None
    else bytes_text <$> aead_open c (take (NonceSize c) raw) (drop (NonceSize c) raw).

(** ** Lemmas *)

Lemma decode_encode_digit64url d : 0 ≤ d < 64 → decode_digit alphabet64url (encode_digit alphabet64url d) = Some d.
Proof.
  intros Hd. assert (d ∈ seqZ 0 64) as H by (apply elem_of_seqZ; lia). revert d H Hd.
  assert (Forall (λ d, decode_digit alphabet64url (encode_digit alphabet64url d) = Some d) (seqZ 0 64)) as H
    by (refine (bool_decide_eq_true_1 _ _); vm_compute; reflexivity).
  intros d Hin _. by apply (proj1 (Forall_forall _ _) H).
Qed.

Lemma encode_digit64url_plain d : 0 ≤ d < 64 → encode_digit alphabet64url d ∉ [byte_of 10; byte_of 13].
Proof.
  intros Hd. assert (d ∈ seqZ 0 64) as H by (apply elem_of_seqZ; lia). revert d H Hd.
  assert (Forall (λ d, encode_digit alphabet64url d ∉ [byte_of 10; byte_of 13]) (seqZ 0 64)) as H
    by (refine (bool_decide_eq_true_1 _ _); vm_compute; reflexivity).
  intros d Hin _. by apply (proj1 (Forall_forall _ _) H).
Qed.

Lemma base64url_round_trip l : Forall is_byte l → base64url_decode (base64url_encode l) = Some l.
Proof.
  intros Hl. unfold base64url_decode, base64url_encode, decode_digits, encode_digits. rewrite str_to_of_list.
  assert (∀ k, Forall (λ d, 0 ≤ d < 64) k →
    mapM (decode_digit alphabet64url) (filter (λ c, c ≠ byte_of 10 ∧ c ≠ byte_of 13)
      (map (encode_digit alphabet64url) k)) = Some k) as Hk.
  { induction 1 as [|d k Hd _ IH]; [done|]. cbn [map]. pose proof (encode_digit64url_plain d Hd) as Hp.
    rewrite filter_cons_True by (split; intros He; rewrite He in Hp; set_solver).
    cbn [mapM]. rewrite decode_encode_digit64url by done. cbn [mbind option_bind]. by rewrite IH. }
  rewrite Hk by apply digits64_range. cbn. by apply undigits64_digits64.
Qed.

Lemma text_bytes_range s : Forall is_byte (text_bytes s).
Proof. apply Forall_forall. intros b (c & -> & _)%list_elem_of_fmap. apply byte_val_range. Qed.

Lemma bytes_text_bytes s : bytes_text (text_bytes s) = s.
Proof.
  unfold bytes_text, text_bytes. rewrite map_map, (map_ext _ id); [by rewrite map_id, str_of_to_list|].
  apply byte_of_val.
Qed.

(** What was sealed opens; the empty text is sealed by the empty token. *)
Lemma Open_Seal c nonce s token :
  AEADLaws c → (∀ n, nonce = Some n → length n = NonceSize c ∧ Forall is_byte n) →
  Seal c nonce s = Some token → Open c token = Some s.
Proof.
  intros Hc Hn. unfold Seal. destruct (decide (s = "")) as [->|Hs]; [by intros [= <-]|].
  destruct nonce as [n|]; [|done]. destruct (Hn n eq_refl) as [Hlen Hb]. intros [= <-]. unfold Open.
  rewrite decide_False by done. rewrite strip_prefix_app. cbn [mbind option_bind].
  rewrite base64url_round_trip by (apply Forall_app; split; [done|by apply aead_bytes]). cbn [mbind option_bind].
  rewrite length_app, Hlen. destruct (Nat.ltb_spec (NonceSize c + length (aead_seal c n (text_bytes s))) (NonceSize c)); [lia|].
  rewrite <- Hlen, take_app_length, drop_app_length.
  rewrite (aead_open_seal c Hc) by (done || apply text_bytes_range). cbn. by rewrite bytes_text_bytes.
Qed.
