(* ===== verification/Json.v ===== *)
(** * JSON text

    The parts of [encoding/json] the program uses: writing values, with the
    escapes of an [Encoder], and reading an object of strings, numbers and nulls
    into the fields of a struct. Text is UTF-8; bytes that are not become U+FFFD. *)

From S2P Require Import Prelude GoStrings.
Local Open Scope Z_scope.

(** ** Runes *)

Definition byte_in (lo hi : Z) (c : ascii) : bool := (lo <=? byte_val c) && (byte_val c <=? hi).

(** After a first byte of 128 or more: the range of the second byte and the
    number of continuation bytes that follow it. *)
Definition rune_lead (c : ascii) : option (Z * Z * nat) :=
  let b := byte_val c in
  if byte_in 194 223 c then Some (128, 191, 0%nat)
  else if b =? 224 then Some (160, 191, 1%nat)
  else if byte_in 225 236 c || byte_in 238 239 c then Some (128, 191, 1%nat)
  else if b =? 237 then Some (128, 159, 1%nat)
  else if b =? 240 then Some (144, 191, 2%nat)
  else if byte_in 241 243 c then Some (128, 191, 2%nat)
  else if b =? 244 then Some (128, 143, 2%nat)
  else None.

Fixpoint continuation (n : nat) (s : string) : option (string * string) :=
  match n, s with
  | O, _ => Some ("", s)
  | S n, String c s =>
      if byte_in 128 191 c then '(r, rest) ← continuation n s; Some (String c r, rest) else None
  | S _, "" => None
  end.

(** The valid rune at the head of [String c s], as bytes, and the rest. *)
Definition rune_head (c : ascii) (s : string) : option (string * string) :=
  if byte_val c <? 128 then Some (String c "", s)
  else
    '(lo, hi, n) ← rune_lead c;
    match s with
    | String c1 s1 =>
        if byte_in lo hi c1 then '(r, rest) ← continuation n s1; Some (String c (String c1 r), rest) else None
    | "" => None
    end.

(** The runes of a string; [None] is a byte that is part of none. *)
Fixpoint runes_go (fuel : nat) (s : string) : list (option string) :=
  match fuel, s with
  | S fuel, String c s' =>
      match rune_head c s' with
      | Some (r, rest) => Some r :: runes_go fuel rest
      | None => None :: runes_go fuel s'
      end
  | _, _ => []
  end.
Definition runes (s : string) : list (option string) := runes_go (slen s) s.

Definition bytes_str (l : list Z) : string := str_of_list (map byte_of l).
Definition replacement : string := bytes_str [239; 191; 189].

Definition str_concat (l : list string) : string := foldr String.append "" l.

(** The text with U+FFFD for each stray byte. *)
Definition to_valid (s : string) : string := str_concat (map (default replacement) (runes s)).

(** ** Writing *)

Definition quote : ascii := byte_of 34.
Definition backslash : ascii := byte_of 92.

Definition escape_byte (c : ascii) : string :=
  let b := byte_val c in
  if (b =? 34) || (b =? 92) then String backslash (String c "")
  else if b =? 8 then String backslash "b"
  else if b =? 12 then String backslash "f"
  else if b =? 10 then String backslash "n"
  else if b =? 13 then String backslash "r"
  else if b =? 9 then String backslash "t"
  else if (b <? 32) || (b =? 60) || (b =? 62) || (b =? 38) then String backslash ("u00" +:+ hex_byte c)
  else String c "".

Definition line_separator : string := bytes_str [226; 128; 168].
Definition paragraph_separator : string := bytes_str [226; 128; 169].

Definition escape_rune (r : option string) : string :=
  match r with
  | None => String backslash "ufffd"
  | Some r =>
      if decide (r = line_separator) then String backslash "u2028"
      else if decide (r = paragraph_separator) then String backslash "u2029"
      else match r with String c "" => escape_byte c | _ => r end
  end.

Definition json_string (s : string) : string :=
  String quote (str_concat (map escape_rune (runes s)) +:+ String quote "").

(** What is written: an object is in the order of its fields. *)
Inductive json : Type :=
| JNull
| JBool (b : bool)
| JInt (n : Z)
| JString (s : string)
| JArray (l : list json)
| JObject (l : list (string * json)).

Fixpoint json_text (j : json) : string :=
  match j with
  | JNull => "null"
  | JBool b => if b then "true" else "false"
  | JInt n => itoa n
  | JString s => json_string s
  | JArray l => "[" +:+ join "," (map json_text l) +:+ "]"
  | JObject l => "{" +:+ join "," (map (λ p, json_string p.1 +:+ ":" +:+ json_text p.2) l) +:+ "}"
  end.

(** [json.Marshal] of a map: the keys are sorted. *)
Definition key_le {A} (p q : string * A) : Prop := String.le p.1 q.1.
#[export] Instance key_le_dec {A} (p q : string * A) : Decision (key_le p q) := String.le_dec p.1 q.1.
Definition Marshal_map (l : list (string * json)) : string := json_text (JObject (merge_sort key_le l)).
Definition Marshal (l : list (string * string)) : string := Marshal_map (map (λ p, (p.1, JString p.2)) l).

(** ** Reading *)

Definition json_space (c : ascii) : bool :=
  let b := byte_val c in (b =? 32) || (b =? 9) || (b =? 13) || (b =? 10).
Definition skip_space : string → string := trim_left_func json_space.

Definition hex_value (c : ascii) : option Z :=
  let b := byte_val c in
  if byte_in 48 57 c then Some (b - 48)
  else if byte_in 97 102 c then Some (b - 87)
  else if byte_in 65 70 c then Some (b - 55)
  else None.

Definition hex4 (s : string) : option (Z * string) :=
  match s with
  | String a (String b (String c (String d rest))) =>
      a ← hex_value a; b ← hex_value b; c ← hex_value c; d ← hex_value d;
      Some (((a * 16 + b) * 16 + c) * 16 + d, rest)
  | _ => None
  end.

(** [utf8.AppendRune] *)
Definition rune_bytes (r : Z) : string :=
  if r <? 128 then bytes_str [r]
  else if r <? 2048 then bytes_str [192 + r / 64; 128 + r mod 64]
  else if r <? 65536 then bytes_str [224 + r / 4096; 128 + r / 64 mod 64; 128 + r mod 64]
  else bytes_str [240 + r / 262144; 128 + r / 4096 mod 64; 128 + r / 64 mod 64; 128 + r mod 64].

Definition surrogate (r : Z) : bool := (55296 <=? r) && (r <? 57344).
(** [utf16.DecodeRune] of two halves. *)
Definition surrogate_pair (r1 r2 : Z) : option Z :=
  if (55296 <=? r1) && (r1 <? 56320) && (56320 <=? r2) && (r2 <? 57344)
  then Some ((r1 - 55296) * 1024 + (r2 - 56320) + 65536) else None.

(** The rune of a [\uXXXX] whose digits are [s], with the half that may follow. *)
Definition unicode_escape (s : string) : option (string * string) :=
  '(r, rest) ← hex4 s;
  if surrogate r then
    match strip_prefix (String backslash "u") rest ≫= hex4 with
    | Some (r2, rest2) =>
        match surrogate_pair r r2 with
        | Some v => Some (rune_bytes v, rest2)
        | None => Some (replacement, rest)
        end
    | None => Some (replacement, rest)
    end
  else Some (rune_bytes r, rest).

Definition simple_escape (c : ascii) : option ascii :=
  let b := byte_val c in
  if (b =? 34) || (b =? 92) || (b =? 47) then Some c
  else if b =? 98 then Some (byte_of 8)
  else if b =? 102 then Some (byte_of 12)
  else if b =? 110 then Some (byte_of 10)
  else if b =? 114 then Some (byte_of 13)
  else if b =? 116 then Some (byte_of 9)
  else None.

(** One character of a string literal: its text and the rest. *)
Definition read_char (c : ascii) (s : string) : option (string * string) :=
  if decide (c = backslash) then
    match s with
    | String e s =>
        if decide (e = "u"%char) then unicode_escape s
        else x ← simple_escape e; Some (String x "", s)
    | "" => None
    end
  else if byte_val c <? 32 then None
  else match rune_head c s with
       | Some found => Some found
       | None => Some (replacement, s)
       end.

(** A string literal, after its opening quote. *)
Fixpoint read_string (fuel : nat) (s : string) : option (string * string) :=
  match fuel, s with
  | S fuel, String c s' =>
      if decide (c = quote) then Some ("", s')
      else
        '(text, rest) ← read_char c s';
        '(more, rest) ← read_string fuel rest;
        Some (text +:+ more, rest)
  | _, _ => None
  end.

Inductive scalar : Type :=
| SNull
| SBool (b : bool)
| SNumber (text : string)
| SString (s : string).

(** The digits at the head of a text. *)
Fixpoint span_digits (s : string) : string * string :=
  match s with
  | String c s' => if is_digit c then let '(d, rest) := span_digits s' in (String c d, rest) else ("", s)
  | "" => ("", "")
  end.

Definition one_digit (s : string) : option (string * string) :=
  let '(d, rest) := span_digits s in if decide (d = "") then None else Some (d, rest).

Definition read_integer (s : string) : option (string * string) :=
  match s with
  | String "0" rest => Some ("0", rest)
  | _ => one_digit s
  end.
Definition read_fraction (s : string) : option (string * string) :=
  match s with
  | String "." rest => '(d, rest) ← one_digit rest; Some (String "."%char d, rest)
  | _ => Some ("", s)
  end.
Definition read_exponent (s : string) : option (string * string) :=
  match s with
  | String e rest =>
      if decide (e = "e"%char ∨ e = "E"%char) then
        let '(sign, rest) :=
          match rest with
          | String "+" rest => ("+", rest)
          | String "-" rest => ("-", rest)
          | _ => ("", rest)
          end in
        '(d, rest) ← one_digit rest; Some (String e (sign +:+ d), rest)
      else Some ("", s)
  | "" => Some ("", "")
  end.

Definition read_unsigned (s : string) : option (string * string) :=
  '(i, s) ← read_integer s; '(f, s) ← read_fraction s; '(e, s) ← read_exponent s;
  Some (i +:+ f +:+ e, s).
Definition read_number (s : string) : option (string * string) :=
  match s with
  | String "-" s => '(u, s) ← read_unsigned s; Some (String "-"%char u, s)
  | _ => read_unsigned s
  end.

(** A value other than an array or an object; those fit no field that is read. *)
Definition read_scalar (s : string) : option (scalar * string) :=
  match s with
  | String c rest =>
      if decide (c = quote) then '(t, rest) ← read_string (S (slen rest)) rest; Some (SString t, rest)
      else
        match strip_prefix "null" s, strip_prefix "true" s, strip_prefix "false" s with
        | Some rest, _, _ => Some (SNull, rest)
        | _, Some rest, _ => Some (SBool true, rest)
        | _, _, Some rest => Some (SBool false, rest)
        | None, None, None => '(t, rest) ← read_number s; Some (SNumber t, rest)
        end
  | "" => None
  end.

(** A member of an object: its key and its value. *)
Definition read_member (s : string) : option (string * scalar * string) :=
  match skip_space s with
  | String c rest =>
      if decide (c = quote) then
        '(key, rest) ← read_string (S (slen rest)) rest;
        match skip_space rest with
        | String ":" rest => '(v, rest) ← read_scalar (skip_space rest); Some (key, v, rest)
        | _ => None
        end
      else None
  | "" => None
  end.

Fixpoint read_members (fuel : nat) (s : string) : option (list (string * scalar)) :=
  match fuel with
  | O => None
  | S fuel =>
      '(key, v, rest) ← read_member s;
      match skip_space rest with
      | String "}" _ => Some [(key, v)]
      | String "," rest => l ← read_members fuel rest; Some ((key, v) :: l)
      | _ => None
      end
  end.

(** A flat object, after its opening brace. *)
Definition read_object (s : string) : option (list (string * scalar)) :=
  match skip_space s with
  | String "}" _ => Some []
  | _ => read_members (slen s) s
  end.

(** ** Structs *)

(** [foldName]: the case of the letters, with the two runes that fold to one. *)
Fixpoint fold_name (s : string) : string :=
  match s with
  | "" => ""
  | String a (String b ((String c rest') as rest1) as rest0) =>
      if decide (a = byte_of 197 ∧ b = byte_of 191) then String "S"%char (fold_name rest1)
      else if decide (a = byte_of 226 ∧ b = byte_of 132 ∧ c = byte_of 170) then String "K"%char (fold_name rest')
      else String (upper_ascii a) (fold_name rest0)
  | String a ((String b "") as rest0) =>
      if decide (a = byte_of 197 ∧ b = byte_of 191) then "S" else String (upper_ascii a) (fold_name rest0)
  | String a "" => String (upper_ascii a) ""
  end.

(** The field a key names: the exact one, or the first up to case. *)
Definition field_named (names : list string) (key : string) : option string :=
  if decide (key ∈ names) then Some key
  else snd <$> list_find (λ n, fold_name n = fold_name key) names.

(** The value of a string field, and of a pointer to an [int]. *)
Definition into_string (v : scalar) (old : string) : option string :=
  match v with SNull => Some old | SString s => Some s | _ => None end.
Definition into_int_pointer (v : scalar) : option (option Z) :=
  match v with
  | SNull => Some None
  | SNumber t => Some <$> atoi t
  | _ => None
  end.

(** The first [n] bytes. *)
Fixpoint take_z (n : Z) (s : string) : string :=
  match s with
  | "" => ""
  | String c s => if n <=? 0 then "" else String c (take_z (n - 1) s)
  end.

Section decode.
Context {R : Type} (names : list string) (set_field : string → scalar → R → option R).

Fixpoint set_fields (l : list (string * scalar)) (r : R) : option R :=
  match l with
  | [] => Some r
  | (key, v) :: l => n ← field_named names key; r ← set_field n v r; set_fields l r
  end.

(** [Decode] of a body into a zero struct, with [DisallowUnknownFields]. *)
Definition decode_struct (zero : R) (body : string) : option R :=
  let s := skip_space (take_z (2 ^ 20) body) in
  match strip_prefix "null" s with
  | Some _ => Some zero
  | None =>
      match s with
      | String "{" rest => l ← read_object rest; set_fields l zero
      | _ => None
      end
  end.
End decode.

Example json_text_1 :
  Marshal [("username", "a<b"); ("role", bytes_str [195; 169; 255; 34; 10])] =
  "{" +:+ String quote "role" +:+ String quote ":" +:+ String quote (bytes_str [195; 169]) +:+ String backslash "ufffd"
  +:+ String backslash (String quote "") +:+ String backslash "n" +:+ String quote "," +:+ String quote "username"
  +:+ String quote ":" +:+ String quote "a" +:+ String backslash "u003cb" +:+ String quote "}".
Proof. vm_compute. reflexivity. Qed.

(** A text with apostrophes for the quotes. *)
Definition quoted (s : string) : string := str_map (λ c, if decide (c = "'"%char) then quote else c) s.

Example decode_1 :
  read_object (quoted " 'a' : 'x\u00e9\ud83d\ude00\n' ,'N': -12.5e+3, 'b':null}tail") =
  Some [("a", SString ("x" +:+ bytes_str [195; 169; 240; 159; 152; 128; 10])); ("N", SNumber "-12.5e+3"); ("b", SNull)].
Proof. vm_compute. reflexivity. Qed.
Example decode_2 : read_object (quoted "'a':01}") = None.
Proof. vm_compute. reflexivity. Qed.
Example decode_3 : read_object (quoted "'a':[]}") = None.
Proof. vm_compute. reflexivity. Qed.
Example field_named_1 : field_named ["vlan"; "site_id"] (bytes_str [197; 191] +:+ "ITE_ID") = Some "site_id".
Proof. vm_compute. reflexivity. Qed.

(** ** What is written is read back *)

(** A rune that stands at the head of any text. *)
Definition valid_rune (r : string) : Prop :=
  match r with String c t => ∀ rest, rune_head c (t +:+ rest) = Some (r, rest) | "" => False end.

Lemma continuation_valid n s r rest :
  continuation n s = Some (r, rest) → ∀ more, continuation n (r +:+ more) = Some (r, more).
Proof.
  revert s r rest. induction n as [|n IH]; intros s r rest H more; [by simplify_eq/=|].
  destruct s as [|c s]; [done|]. cbn in H. destruct (byte_in 128 191 c) eqn:Hc; [|done].
  destruct (continuation n s) as [[r' rest']|] eqn:Hr; simplify_eq/=. by rewrite Hc, (IH _ _ _ Hr).
Qed.

Lemma rune_head_valid c s r rest : rune_head c s = Some (r, rest) → valid_rune r.
Proof.
  unfold rune_head. intros H. destruct (byte_val c <? 128) eqn:Hc.
  - simplify_eq/=. intros rest'. unfold rune_head. by rewrite Hc.
  - destruct (rune_lead c) as [[[lo hi] n]|] eqn:Hl; [|done]. cbn in H. destruct s as [|c1 s]; [done|].
    destruct (byte_in lo hi c1) eqn:H1; [|done]. destruct (continuation n s) as [[t rest']|] eqn:Ht; simplify_eq/=.
    intros more. unfold rune_head. rewrite Hc, Hl. cbn. rewrite str_app_cons. by rewrite H1, (continuation_valid _ _ _ _ Ht).
Qed.

Lemma runes_valid s : Forall (λ o, ∀ r, o = Some r → valid_rune r) (runes s).
Proof.
  unfold runes. generalize (slen s) at 1. intros fuel. revert s.
  induction fuel as [|fuel IH]; intros [|c s]; try constructor. cbn.
  destruct (rune_head c s) as [[r rest]|] eqn:Hr; constructor; auto; [|done].
  intros r' [= <-]. by eapply rune_head_valid.
Qed.

(** Each character is written as one [read_char] takes back. *)
Definition reads_back (written text : string) : Prop :=
  ∃ a t, written = String a t ∧ a ≠ quote ∧ ∀ rest, read_char a (t +:+ rest) = Some (text, rest).

Ltac by_computing := eexists _, _; split; [reflexivity|]; split; [done|]; intros rest; reflexivity.

Lemma escape_byte_reads c : byte_val c < 128 → reads_back (escape_byte c) (String c "").
Proof. destruct c as [[] [] [] [] [] [] [] []]; intros H; try by cbv in H. all: by_computing. Qed.

Lemma escape_rune_reads o :
  (∀ r, o = Some r → valid_rune r) → reads_back (escape_rune o) (default replacement o).
Proof.
  intros H. destruct o as [r|]; [|by_computing]. specialize (H r eq_refl). unfold escape_rune. cbn [default from_option].
  destruct (decide (r = line_separator)) as [->|_]; [by_computing|].
  destruct (decide (r = paragraph_separator)) as [->|_]; [by_computing|].
  destruct r as [|c t]; [done|]. pose proof (H "") as H0. unfold rune_head in H0.
  destruct (byte_val c <? 128) eqn:Hc.
  - destruct t as [|c1 t]; [|done]. apply escape_byte_reads. lia.
  - destruct t as [|c1 t]; [exfalso|].
    { destruct (rune_lead c) as [[[lo hi] n]|]; done. }
    exists c, (String c1 t). split; [done|]. split; [by intros ->|]. intros rest. unfold read_char.
    destruct (decide (c = backslash)) as [->|_]; [done|].
    destruct (Z.ltb_spec (byte_val c) 32); [lia|]. by rewrite H.
Qed.

Lemma read_string_written rs rest fuel :
  Forall (λ o, ∀ r, o = Some r → valid_rune r) rs → (length rs < fuel)%nat →
  read_string fuel (str_concat (map escape_rune rs) +:+ String quote rest) =
    Some (str_concat (map (default replacement) rs), rest).
Proof.
  intros Hrs. revert fuel. induction Hrs as [|o rs Ho _ IH]; intros [|fuel] Hf; cbn in Hf; try lia; [done|].
  destruct (escape_rune_reads o Ho) as (a & t & Ha & Hq & Hread).
  cbn [map str_concat foldr]. fold (str_concat (map escape_rune rs)). rewrite Ha, str_app_assoc, str_app_cons. cbn [read_string].
  rewrite decide_False by done. rewrite Hread. cbn. rewrite IH by lia. done.
Qed.

Lemma span_digits_app d c rest :
  Forall (λ x, is_digit x = true) (str_to_list d) → is_digit c = false →
  span_digits (d +:+ String c rest) = (d, String c rest).
Proof.
  intros Hd Hc. induction d as [|x d IH]; cbn [str_to_list] in Hd.
  - rewrite str_app_nil_l. cbn [span_digits]. by rewrite Hc.
  - apply Forall_cons in Hd as [Hx Hd]. rewrite str_app_cons. cbn [span_digits]. by rewrite Hx, IH.
Qed.

Lemma utoa_go_digits fuel n s :
  Forall (λ x, is_digit x = true) (str_to_list s) → Forall (λ x, is_digit x = true) (str_to_list (utoa_go fuel n s)).
Proof.
  revert n s. induction fuel as [|fuel IH]; intros n s Hs; [done|]. cbn [utoa_go].
  assert (Forall (λ x, is_digit x = true) (str_to_list (String (digit (n mod 10)) s))).
  { constructor; [|done]. apply is_digit_digit, Z.mod_pos_bound. lia. }
  destruct (n / 10 =? 0); [done|]. by apply IH.
Qed.

(** A printed number has no leading zero. *)
Lemma utoa_go_leading fuel n s c t :
  0 < n < 10 ^ Z.of_nat fuel → utoa_go fuel n s = String c t → c ≠ "0"%char.
Proof.
  revert n s. induction fuel as [|fuel IH]; intros n s Hn; [cbn in Hn; lia|]. cbn [utoa_go].
  pose proof (Z.div_mod n 10 ltac:(lia)). pose proof (Z.mod_pos_bound n 10 ltac:(lia)).
  destruct (Z.eqb_spec (n / 10) 0) as [Hq|Hq].
  - intros [= <- <-] E. apply (f_equal byte_val) in E. rewrite byte_val_digit in E by lia.
    change (byte_val "0"%char) with 48 in E. lia.
  - apply IH. rewrite Nat2Z.inj_succ, Z.pow_succ_r in Hn by lia. lia.
Qed.

Lemma read_integer_utoa n c rest :
  0 ≤ n < 10 ^ 20 → is_digit c = false → read_integer (utoa n +:+ String c rest) = Some (utoa n, String c rest).
Proof.
  intros Hn Hc. assert (one_digit (utoa n +:+ String c rest) = Some (utoa n, String c rest)) as Hd.
  { unfold one_digit, utoa. rewrite span_digits_app by (done || by apply utoa_go_digits).
    by rewrite decide_False by by apply utoa_go_nonempty. }
  destruct (Z.eq_dec n 0) as [->|Hn0]; [done|].
  destruct (utoa n) as [|a t] eqn:Ha; [by apply utoa_go_nonempty in Ha|].
  rewrite str_app_cons in Hd |- *. unfold read_integer.
  assert (a ≠ "0"%char) by (apply (utoa_go_leading 20 n "" a t); [split; lia|done]).
  destruct a as [[] [] [] [] [] [] [] []]; done.
Qed.

(** What follows a value inside an object. *)
Definition ends_value (s : string) : Prop := ∃ c rest, s = String c rest ∧ (c = ","%char ∨ c = "}"%char).

Lemma read_number_itoa n s : in_int64 n → ends_value s → read_number (itoa n +:+ s) = Some (itoa n, s).
Proof.
  unfold in_int64, int64_min, int64_max. intros Hn (c & rest & -> & Hc).
  assert (is_digit c = false) as Hd by (by destruct Hc as [-> | ->]).
  assert (∀ m, 0 ≤ m < 10 ^ 20 → read_unsigned (utoa m +:+ String c rest) = Some (utoa m, String c rest)) as Hread.
  { intros m Hm. unfold read_unsigned. rewrite read_integer_utoa by done. cbn [mbind option_bind].
    destruct Hc as [-> | ->]; cbn [read_fraction read_exponent mbind option_bind];
      rewrite ?decide_False by naive_solver; cbn [mbind option_bind]; by rewrite !str_app_nil_r. }
  unfold itoa. destruct (Z.ltb_spec n 0).
  - rewrite str_app_assoc, !str_app_cons, !str_app_nil_l. cbn [read_number]. rewrite Hread by lia. done.
  - specialize (Hread n ltac:(lia)).
    destruct (utoa n) as [|a t] eqn:Ha; [by apply utoa_go_nonempty in Ha|].
    assert (is_digit a = true) as Hda by by eapply (utoa_head 20 n "").
    rewrite str_app_cons in Hread |- *. destruct a as [[] [] [] [] [] [] [] []]; done.
Qed.

(** A value of a flat object, as it is read back. *)
Definition scalar_of (j : json) : option scalar :=
  match j with
  | JNull => Some SNull
  | JBool b => Some (SBool b)
  | JInt n => if in_int64b n then Some (SNumber (itoa n)) else None
  | JString s => Some (SString (to_valid s))
  | JArray _ | JObject _ => None
  end.

Lemma escape_nonempty o : (∀ r, o = Some r → valid_rune r) → (0 < slen (escape_rune o))%nat.
Proof. intros H. destruct (escape_rune_reads o H) as (a & t & -> & _). cbn. lia. Qed.

Lemma read_string_json s more :
  let text := str_concat (map escape_rune (runes s)) +:+ String quote more in
  read_string (S (slen text)) text = Some (to_valid s, more).
Proof.
  intros text. subst text. pose proof (runes_valid s) as Hs. rewrite (read_string_written (runes s)); [done|done|].
  rewrite slen_app. cut (length (runes s) ≤ slen (str_concat (map escape_rune (runes s))))%nat; [lia|].
  induction Hs as [|o rs Ho _ IH]; [done|]. cbn [map str_concat foldr length].
  fold (str_concat (map escape_rune rs)). change String.append with String.app. rewrite slen_app.
  pose proof (escape_nonempty o Ho). lia.
Qed.

Lemma json_string_app s more :
  json_string s +:+ more = String quote (str_concat (map escape_rune (runes s)) +:+ String quote more).
Proof. unfold json_string. rewrite str_app_cons, str_app_assoc. by rewrite str_app_cons. Qed.

Lemma read_scalar_json j v s :
  scalar_of j = Some v → ends_value s → read_scalar (json_text j +:+ s) = Some (v, s).
Proof.
  intros Hv Hs. destruct j as [|b|n|t|l|l]; cbn [scalar_of] in Hv; simplify_eq; cbn [json_text].
  - reflexivity.
  - by destruct b.
  - destruct (in_int64b n) eqn:Hn; simplify_eq. apply in_int64b_spec in Hn.
    pose proof (read_number_itoa n s Hn Hs) as Hr.
    assert (∃ a u, itoa n = String a u ∧ (is_digit a = true ∨ a = "-"%char)) as (a & u & Ha & Hau).
    { unfold itoa. destruct (n <? 0); [by eexists _, _; split; [reflexivity|right]|].
      destruct (utoa n) as [|a u] eqn:Hu; [by apply utoa_go_nonempty in Hu|].
      eexists a, u. split; [done|]. left. by eapply (utoa_head 20 n ""). }
    rewrite Ha, str_app_cons in Hr |- *. unfold read_scalar.
    destruct a as [[] [] [] [] [] [] [] []]; destruct Hau as [Hau|Hau]; try by (exfalso; revert Hau; vm_compute).
    all: cbn [decide strip_prefix]; rewrite Hr; done.
  - rewrite json_string_app. cbn [read_scalar]. rewrite decide_True by done. by rewrite read_string_json.
Qed.

Lemma skip_space_other c s : json_space c = false → skip_space (String c s) = String c s.
Proof. intros Hc. unfold skip_space. cbn [trim_left_func]. by rewrite Hc. Qed.

Lemma skip_space_quote s : skip_space (String quote s) = String quote s.
Proof. done. Qed.

Lemma skip_space_value j v s : scalar_of j = Some v → skip_space (json_text j +:+ s) = json_text j +:+ s.
Proof.
  intros Hv. destruct j as [|b|n|t|l|l]; cbn [scalar_of] in Hv; simplify_eq; cbn [json_text]; [done|by destruct b| |].
  - unfold itoa. destruct (n <? 0); [done|].
    destruct (utoa n) as [|a u] eqn:Hu; [by apply utoa_go_nonempty in Hu|]. rewrite str_app_cons.
    assert (is_digit a = true) as Ha by by eapply (utoa_head 20 n ""). unfold skip_space. cbn [trim_left_func].
    destruct (json_space a) eqn:Hsp; [|done]. exfalso. unfold json_space, is_digit in *. lia.
  - by rewrite json_string_app.
Qed.

Definition member_text (p : string * json) : string := json_string p.1 +:+ ":" +:+ json_text p.2.

Lemma read_member_text p v s :
  scalar_of p.2 = Some v → ends_value s → read_member (member_text p +:+ s) = Some (to_valid p.1, v, s).
Proof.
  intros Hv Hs. unfold member_text, read_member. rewrite str_app_assoc, json_string_app, skip_space_quote.
  rewrite decide_True by done. rewrite read_string_json. cbn [mbind option_bind].
  rewrite str_app_assoc, str_app_cons, str_app_nil_l, (skip_space_other ":") by done.
  cbv iota. by rewrite (skip_space_value _ v), (read_scalar_json _ v).
Qed.

(** The members of a flat object, as they are read back. *)
Definition flat (l : list (string * json)) (k : list (string * scalar)) : Prop :=
  Forall2 (λ p q, q.1 = to_valid p.1 ∧ scalar_of p.2 = Some q.2) l k.

Lemma read_members_text l k fuel rest :
  l ≠ [] → flat l k → (length l ≤ fuel)%nat →
  read_members fuel (join "," (map member_text l) +:+ String "}" rest) = Some k.
Proof.
  intros Hl Hk. revert fuel. induction Hk as [|p [key v] l k [Hkey Hv] Hk IH]; intros fuel Hf; [done|].
  cbn [fst snd] in Hkey, Hv. subst key. destruct fuel as [|fuel]; [cbn in Hf; lia|]. cbn [map]. rewrite join_app_head.
  destruct l as [|p' l].
  - apply Forall2_nil_inv_l in Hk as ->. cbn [map]. rewrite decide_True by done. rewrite str_app_assoc, str_app_nil_l.
    cbn [read_members]. rewrite (read_member_text p v) by (done || by eexists _, _; eauto). done.
  - rewrite decide_False by done. rewrite !str_app_assoc, str_app_cons, str_app_nil_l. cbn [read_members].
    rewrite (read_member_text p v) by (done || by eexists _, _; eauto). cbn [mbind option_bind].
    rewrite (skip_space_other ",") by done. cbv iota.
    rewrite IH by (done || cbn in Hf |- *; lia). done.
Qed.

(** A flat object is read back from its text, whatever follows it. *)
Lemma read_object_text l k rest :
  flat l k → read_object (join "," (map member_text l) +:+ String "}" rest) = Some k.
Proof.
  intros Hk. destruct l as [|p l]; [by apply Forall2_nil_inv_l in Hk as ->|].
  pose proof (read_members_text (p :: l) k
    (slen (join "," (map member_text (p :: l)) +:+ String "}" rest)) rest ltac:(done) Hk) as Hr.
  revert Hr. set (text := join "," (map member_text (p :: l)) +:+ String "}" rest). intros Hr. unfold read_object.
  assert (∃ t, text = String quote t) as [t Ht].
  { subst text. cbn [map]. rewrite join_app_head. unfold member_text at 1. rewrite !str_app_assoc, json_string_app. eauto. }
  rewrite Ht in Hr |- *. rewrite skip_space_quote. apply Hr. rewrite <- Ht. subst text. rewrite slen_app. clear.
  cut (length (p :: l) ≤ S (slen (join "," (map member_text (p :: l)))))%nat; [cbn; lia|].
  revert p. induction l as [|p' l IH]; intros p; [cbn; lia|]. cbn [map]. rewrite join_app_head, decide_False by done.
  rewrite !slen_app. specialize (IH p'). cbn [map] in IH. change (slen ",") with 1%nat.
  change (length (p :: p' :: l)) with (S (length (p' :: l))). lia.
Qed.

Lemma take_z_all n s : Z.of_nat (slen s) ≤ n → take_z n s = s.
Proof.
  revert n. induction s as [|c s IH]; intros n Hn; [done|]. cbn in Hn |- *.
  destruct (Z.leb_spec n 0); [lia|]. rewrite IH by lia. done.
Qed.

(** A struct is decoded from the text of a flat object of its size or less. *)
Lemma decode_struct_text {R} names (set_field : string → scalar → R → option R) zero l k :
  flat l k → Z.of_nat (slen (json_text (JObject l))) ≤ 2 ^ 20 →
  decode_struct names set_field zero (json_text (JObject l)) = set_fields names set_field k zero.
Proof.
  intros Hk Hn. unfold decode_struct. rewrite take_z_all by done. cbn [json_text].
  change (map _ l) with (map member_text l). rewrite str_app_cons, str_app_nil_l.
  rewrite (skip_space_other "{") by done. cbn [strip_prefix]. rewrite decide_False by done.
  by rewrite (read_object_text l k) by done.
Qed.
