(* ===== verification/Accounts.v ===== *)
(** * Accounts, sessions and credentials

    The rest of the database: [internal/store/store.go] (users, sessions),
    [internal/store/totp.go], [internal/store/api_tokens.go],
    [internal/store/oidc.go] and [internal/store/login_attempts.go]. The display
    name of a user is in [w_users], the other columns are in [ac_users]. *)

From S2P Require Import Prelude GoStrings GoTime Process Scans Queue Inventory Lockout.
Local Open Scope Z_scope.

Definition RoleAdmin : string := "admin".
Definition RoleViewer : string := "viewer".
Definition ValidRole (role : string) : bool := bool_decide (role = RoleAdmin ∨ role = RoleViewer).

(** ** Rows *)

Record UserRow : Type := MkUserRow
  { us_Username : string; us_PasswordHash : string; us_Role : string; us_IsAdmin : bool;
    us_Subject : option string; us_Created : Z }.

Record SessionRow : Type := MkSessionRow
  { sr_User : string; sr_CSRF : string; sr_Expires : Z; sr_Created : Z; sr_LastSeen : Z;
    sr_IP : string; sr_UserAgent : string }.

Record TOTPRow : Type := MkTOTPRow { tr_Secret : string; tr_Enabled : bool; tr_Confirmed : option Z }.
Record CodeRow : Type := MkCodeRow { cr_User : string; cr_Hash : string; cr_Used : option Z }.

Record TokenRow : Type := MkTokenRow
  { tk_User : string; tk_Name : string; tk_Hash : string; tk_LastUsed : option Z; tk_Created : Z }.

(** The recovery codes are in the order of their ids. *)
Record Accounts : Type := MkAccounts
  { ac_users : gmap string UserRow; ac_sessions : gmap string SessionRow; ac_totp : gmap string TOTPRow;
    ac_codes : list CodeRow; ac_tokens : gmap string TokenRow; ac_attempts : list attempt }.

Record Database : Type := MkDatabase { db_inv : Inventory; db_acc : Accounts }.

(** The Go structs [User] and [Session]. *)
Record User : Type := MkUser
  { u_ID : string; u_Username : string; u_DisplayName : string; u_PasswordHash : string;
    u_Role : string; u_IsAdmin : bool }.

Record Session : Type := MkSession
  { se_ID : string; se_User : User; se_CSRFToken : string; se_ExpiresAt : Z; se_CreatedAt : Z;
    se_LastSeenAt : Z; se_ClientIP : string; se_UserAgent : string }.

Definition with_acc (a : Accounts) (w : World Database) : World Database :=
  with_inv (MkDatabase (db_inv (w_inv w)) a) w.
Definition acc (w : World Database) : Accounts := db_acc (w_inv w).

Definition put_users (m : gmap string UserRow) (a : Accounts) : Accounts :=
  MkAccounts m (ac_sessions a) (ac_totp a) (ac_codes a) (ac_tokens a) (ac_attempts a).
Definition put_sessions (m : gmap string SessionRow) (a : Accounts) : Accounts :=
  MkAccounts (ac_users a) m (ac_totp a) (ac_codes a) (ac_tokens a) (ac_attempts a).
Definition put_totp (m : gmap string TOTPRow) (a : Accounts) : Accounts :=
  MkAccounts (ac_users a) (ac_sessions a) m (ac_codes a) (ac_tokens a) (ac_attempts a).
Definition put_codes (l : list CodeRow) (a : Accounts) : Accounts :=
  MkAccounts (ac_users a) (ac_sessions a) (ac_totp a) l (ac_tokens a) (ac_attempts a).
Definition put_tokens (m : gmap string TokenRow) (a : Accounts) : Accounts :=
  MkAccounts (ac_users a) (ac_sessions a) (ac_totp a) (ac_codes a) m (ac_attempts a).
Definition put_attempts (l : list attempt) (a : Accounts) : Accounts :=
  MkAccounts (ac_users a) (ac_sessions a) (ac_totp a) (ac_codes a) (ac_tokens a) l.

Definition edit_acc (f : Accounts → Accounts) (w : World Database) : World Database := with_acc (f (acc w)) w.

(** The display names. *)
Definition with_names (m : gmap string string) (w : World Database) : World Database :=
  MkWorld (w_sites w) m (w_agents w) (w_schedules w) (w_jobs w) (w_audit w) (w_inv w) (w_spawned w) (w_step w).

(** A row as the queries read it. *)
Definition user_of (w : World Database) (id : string) (r : UserRow) : User :=
  MkUser id (us_Username r) (default "" (w_users w !! id)) (us_PasswordHash r) (us_Role r) (us_IsAdmin r).

Definition find_user (f : UserRow → bool) (w : World Database) : option User :=
  (λ p, user_of w p.2.1 p.2.2) <$> list_find (λ p, f p.2 = true) (map_to_list (ac_users (acc w))).

Definition session_of (id : string) (s : SessionRow) (u : User) : Session :=
  MkSession id u (sr_CSRF s) (sr_Expires s) (sr_Created s) (sr_LastSeen s) (sr_IP s) (sr_UserAgent s).

Section accounts.
Context {env : Env}.

(** ** Users *)

Definition count_admins (w : World Database) : Z :=
  Z.of_nat (length (filter (λ p, us_IsAdmin p.2 = true) (map_to_list (ac_users (acc w))))).

Definition CountAdmins : GoE Database Z := stmt (λ _ w, Ok (count_admins w, w)).

(** [UNIQUE (username)] and [UNIQUE (oidc_subject)]. *)
Definition user_taken (username : string) (subject : option string) (w : World Database) : bool :=
  existsb (λ p, bool_decide (us_Username p.2 = username) ||
    (bool_decide (subject ≠ None) && bool_decide (us_Subject p.2 = subject))) (map_to_list (ac_users (acc w))).

Definition insert_user (id username displayName hash role : string) (isAdmin : bool) (subject : option string)
    (now : Z) (w : World Database) : result db_error (User * World Database) :=
  if bool_decide (is_Some (ac_users (acc w) !! id)) || user_taken username subject w then Err ErrDuplicateKey
  else
    let r := MkUserRow username hash role isAdmin subject now in
    Ok (MkUser id username displayName hash role isAdmin,
        with_names (<[id := displayName]> (w_users w)) (edit_acc (λ a, put_users (<[id := r]> (ac_users a)) a) w)).

Definition CreateAdmin (username displayName hash : string) : GoE Database User :=
  id ←? random_token;
  stmt (λ now w, insert_user id username displayName hash RoleAdmin true None now w).

Definition CreateUser (username displayName hash role : string) : GoE Database User :=
  id ←? random_token;
  let role := if ValidRole role then role else RoleViewer in
  stmt (λ now w, insert_user id username displayName hash role (bool_decide (role = RoleAdmin)) None now w).

(** The hash of a random password is drawn by the caller of [HashPassword]. *)
Definition CreateSSOUser (HashPassword : string → GoE Database string) (username displayName role subject : string) :
    GoE Database User :=
  id ←? random_token;
  randomPw ←? random_token;
  hash ←? HashPassword randomPw;
  let role := if ValidRole role then role else RoleViewer in
  stmt (λ now w, insert_user id username displayName hash role (bool_decide (role = RoleAdmin)) (Some subject) now w).

Definition ListUsers : GoE Database (list User) :=
  stmt (λ _ w, Ok (map (λ p, user_of w p.1 p.2) (map_to_list (ac_users (acc w))), w)).

Definition GetUser (id : string) : GoE Database User :=
  stmt (λ _ w, match ac_users (acc w) !! id with
               | Some r => Ok (user_of w id r, w)
               | None => Err ErrNotFound
               end).

Definition set_role (role : string) (r : UserRow) : UserRow :=
  MkUserRow (us_Username r) (us_PasswordHash r) role (bool_decide (role = RoleAdmin)) (us_Subject r) (us_Created r).
Definition set_hash (hash : string) (r : UserRow) : UserRow :=
  MkUserRow (us_Username r) hash (us_Role r) (us_IsAdmin r) (us_Subject r) (us_Created r).
Definition set_subject (subject : option string) (r : UserRow) : UserRow :=
  MkUserRow (us_Username r) (us_PasswordHash r) (us_Role r) (us_IsAdmin r) subject (us_Created r).

Definition SetUserRole (id role : string) : GoE Database unit :=
  if ValidRole role
  then stmt (λ _ w, Ok ((), edit_acc (λ a, put_users (alter (set_role role) id (ac_users a)) a) w))
  else Ret (Err ErrInvalid).

Definition SetUserPassword (id hash : string) : GoE Database unit :=
  stmt (λ _ w, Ok ((), edit_acc (λ a, put_users (alter (set_hash hash) id (ac_users a)) a) w)).

(** [ON DELETE] of the foreign keys to a user. *)
Definition forget_user (id : string) (a : Accounts) : Accounts :=
  MkAccounts (delete id (ac_users a)) (filter (λ p, sr_User p.2 ≠ id) (ac_sessions a)) (delete id (ac_totp a))
    (filter (λ c, cr_User c ≠ id) (ac_codes a)) (filter (λ p, tk_User p.2 ≠ id) (ac_tokens a)) (ac_attempts a).

Definition forget_requester (id : string) (j : JobRow) : JobRow :=
  MkJobRow (row_agent j) (row_schedule j) (if decide (row_requested_by j = Some id) then None else row_requested_by j)
    (row_type j) (row_mode j) (row_allowed j) (row_targets j) (row_timeout j) (row_status j) (row_error j)
    (row_result j) (row_started j) (row_finished j) (row_created j) (row_updated j).
(** The entries of the audit log are immutable (a trigger refuses every update of one), so the
    foreign key of an entry to its actor cannot be set to null. *)
Definition prevent_audit_log_mutation (id : string) (w : World Database) : bool :=
  bool_decide (is_Some (ac_users (acc w) !! id)) && existsb (λ a, bool_decide (au_actor a = Some id)) (w_audit w).

Definition DeleteUser (id : string) : GoE Database unit :=
  stmt (λ _ w,
    if prevent_audit_log_mutation id w then Err ErrCheck
    else Ok ((), with_names (delete id (w_users w))
                   (with_jobs (forget_requester id <$> w_jobs w) (edit_acc (forget_user id) w)))).

Definition FindUserByUsername (username : string) : GoE Database User :=
  stmt (λ _ w, match find_user (λ r, bool_decide (us_Username r = username)) w with
               | Some u => Ok (u, w)
               | None => Err ErrNotFound
               end).

Definition FindUserByOIDCSubject (subject : string) : GoE Database User :=
  stmt (λ _ w, match find_user (λ r, bool_decide (us_Subject r = Some subject)) w with
               | Some u => Ok (u, w)
               | None => Err ErrNotFound
               end).

Definition LinkOIDCSubject (id subject : string) : GoE Database unit :=
  stmt (λ _ w,
    if existsb (λ p, bool_decide (us_Subject p.2 = Some subject) && negb (bool_decide (p.1 = id)))
         (map_to_list (ac_users (acc w))) && bool_decide (is_Some (ac_users (acc w) !! id))
    then Err ErrDuplicateKey
    else Ok ((), edit_acc (λ a, put_users (alter (set_subject (Some subject)) id (ac_users a)) a) w)).

(** ** Sessions *)

Definition empty_user : User := MkUser "" "" "" "" "" false.

(** The session returned has no user. *)
Definition CreateSession (userID : string) (expiresAt : Z) (clientIP userAgent : string) : GoE Database Session :=
  id ←? random_token;
  csrf ←? random_token;
  stmt (λ now w,
    if bool_decide (is_Some (ac_sessions (acc w) !! id)) then Err ErrDuplicateKey
    else if bool_decide (ac_users (acc w) !! userID = None) then Err ErrForeignKey
    else
      let s := MkSessionRow userID csrf (timestamptz expiresAt) now now clientIP userAgent in
      Ok (session_of id s empty_user, edit_acc (λ a, put_sessions (<[id := s]> (ac_sessions a)) a) w)).

Definition live (now cutoff : Z) (s : SessionRow) : bool :=
  (now <? sr_Expires s) && (timestamptz cutoff <? sr_LastSeen s).

Definition touch (now : Z) (s : SessionRow) : SessionRow :=
  MkSessionRow (sr_User s) (sr_CSRF s) (sr_Expires s) (sr_Created s) now (sr_IP s) (sr_UserAgent s).

Definition GetSession (sessionID : string) (idleCutoff : Z) : GoE Database Session :=
  stmt (λ now w,
    match ac_sessions (acc w) !! sessionID with
    | Some s =>
        if negb (live now idleCutoff s) then Err ErrNotFound
        else match ac_users (acc w) !! sr_User s with
             | Some r => Ok (session_of sessionID (touch now s) (user_of w (sr_User s) r),
                             edit_acc (λ a, put_sessions (<[sessionID := touch now s]> (ac_sessions a)) a) w)
             | None => Err ErrNotFound
             end
    | None => Err ErrNotFound
    end).

Definition DeleteSession (sessionID : string) : GoE Database unit :=
  stmt (λ _ w, Ok ((), edit_acc (λ a, put_sessions (delete sessionID (ac_sessions a)) a) w)).

Definition ListUserSessions (userID : string) (idleCutoff : Z) : GoE Database (list Session) :=
  stmt (λ now w,
    Ok (omap (λ p, if bool_decide (sr_User p.2 = userID) && live now idleCutoff p.2
                   then Some (session_of p.1 p.2 empty_user) else None) (map_to_list (ac_sessions (acc w))), w)).

Definition sessions_gone (f : string → SessionRow → bool) (w : World Database) : Z :=
  Z.of_nat (length (filter (λ p, f p.1 p.2 = true) (map_to_list (ac_sessions (acc w))))).

Definition revoke (f : string → SessionRow → bool) : GoE Database Z :=
  stmt (λ _ w,
    Ok (sessions_gone f w,
        edit_acc (λ a, put_sessions (filter (λ p, f p.1 p.2 = false) (ac_sessions a)) a) w)).

Definition DeleteUserSessions (userID : string) : GoE Database Z :=
  revoke (λ _ s, bool_decide (sr_User s = userID)).
Definition DeleteOtherUserSessions (userID exceptID : string) : GoE Database Z :=
  revoke (λ id s, bool_decide (sr_User s = userID) && negb (bool_decide (id = exceptID))).

(** ** The second factor *)

Definition GetUserTOTP (userID : string) : GoE Database TOTPRow :=
  stmt (λ _ w, match ac_totp (acc w) !! userID with Some t => Ok (t, w) | None => Err ErrNotFound end).

Definition TOTPEnabled (userID : string) : GoE Database bool :=
  stmt (λ _ w, Ok (match ac_totp (acc w) !! userID with Some t => tr_Enabled t | None => false end, w)).

Definition user_exists (userID : string) (w : World Database) : bool := bool_decide (is_Some (ac_users (acc w) !! userID)).

Definition StartTOTPEnrollment (userID sealedSecret : string) : GoE Database unit :=
  stmt (λ _ w,
    if negb (user_exists userID w) then Err ErrForeignKey
    else Ok ((), edit_acc (λ a, put_totp (<[userID := MkTOTPRow sealedSecret false None]> (ac_totp a)) a) w)).

Definition EnableTOTP (userID : string) (recoveryHashes : list string) : GoE Database unit :=
  stmt (λ now w,
    match ac_totp (acc w) !! userID with
    | None => Err ErrNotFound
    | Some t =>
        Ok ((), edit_acc (λ a,
          put_codes (filter (λ c, cr_User c ≠ userID) (ac_codes a) ++ map (λ h, MkCodeRow userID h None) recoveryHashes)
            (put_totp (<[userID := MkTOTPRow (tr_Secret t) true (Some now)]> (ac_totp a)) a)) w)
    end).

Definition DisableTOTP (userID : string) : GoE Database unit :=
  stmt (λ _ w, Ok ((), edit_acc (λ a, put_totp (delete userID (ac_totp a)) a) w)).

(** The first matching unused code is marked. *)
Fixpoint consume_code (userID hash : string) (now : Z) (l : list CodeRow) : option (list CodeRow) :=
  match l with
  | [] => None
  | c :: l =>
      if decide (cr_User c = userID ∧ cr_Hash c = hash ∧ cr_Used c = None)
      then Some (MkCodeRow (cr_User c) (cr_Hash c) (Some now) :: l)
      else l ← consume_code userID hash now l; Some (c :: l)
  end.

Definition ConsumeRecoveryCode (userID codeHash : string) : GoE Database bool :=
  stmt (λ now w,
    match consume_code userID codeHash now (ac_codes (acc w)) with
    | Some l => Ok (true, edit_acc (put_codes l) w)
    | None => Ok (false, w)
    end).

Definition CountUnusedRecoveryCodes (userID : string) : GoE Database Z :=
  stmt (λ _ w,
    Ok (Z.of_nat (length (filter (λ c, cr_User c = userID ∧ cr_Used c = None) (ac_codes (acc w)))), w)).

(** ** API tokens *)

Definition GetAPIToken (id : string) : GoE Database (string * TokenRow) :=
  stmt (λ _ w, match ac_tokens (acc w) !! id with Some t => Ok ((id, t), w) | None => Err ErrNotFound end).

Definition token_named (hash : string) (a : Accounts) : option (string * TokenRow) :=
  snd <$> list_find (λ p, tk_Hash p.2 = hash) (map_to_list (ac_tokens a)).

Definition CreateAPIToken (userID name tokenHash : string) : GoE Database (string * TokenRow) :=
  id ←? random_token;
  _ ←? stmt (λ now w,
    if bool_decide (is_Some (ac_tokens (acc w) !! id)) || bool_decide (is_Some (token_named tokenHash (acc w)))
    then Err ErrDuplicateKey
    else if negb (user_exists userID w) then Err ErrForeignKey
    else Ok ((), edit_acc (λ a, put_tokens (<[id := MkTokenRow userID name tokenHash None now]> (ac_tokens a)) a) w));
  GetAPIToken id.

Definition ListAPITokens (userID : string) : GoE Database (list (string * TokenRow)) :=
  stmt (λ _ w, Ok (filter (λ p, tk_User p.2 = userID) (map_to_list (ac_tokens (acc w))), w)).

Definition DeleteAPIToken (id userID : string) : GoE Database unit :=
  stmt (λ _ w, match ac_tokens (acc w) !! id with
               | Some t =>
                   if decide (tk_User t = userID)
                   then Ok ((), edit_acc (λ a, put_tokens (delete id (ac_tokens a)) a) w)
                   else Err ErrNotFound
               | None => Err ErrNotFound
               end).

Definition use_token (now : Z) (t : TokenRow) : TokenRow :=
  MkTokenRow (tk_User t) (tk_Name t) (tk_Hash t) (Some now) (tk_Created t).

Definition AuthenticateAPIToken (tokenHash : string) : GoE Database User :=
  stmt (λ now w,
    match token_named tokenHash (acc w) with
    | None => Err ErrNotFound
    | Some (id, t) =>
        match ac_users (acc w) !! tk_User t with
        | Some r => Ok (user_of w (tk_User t) r,
                        edit_acc (λ a, put_tokens (<[id := use_token now t]> (ac_tokens a)) a) w)
        | None => Err ErrNotFound
        end
    end).

(** ** Login attempts *)

Definition db_RecordLoginFailure (username ip : string) : GoE Database unit :=
  stmt (λ now w, Ok ((), edit_acc (λ a, put_attempts (RecordLoginFailure username ip now (ac_attempts a)) a) w)).
Definition db_RecentLoginFailures (username ip : string) (since : Z) : GoE Database LoginFailureStats :=
  stmt (λ _ w, Ok (RecentLoginFailures username ip (timestamptz since) (ac_attempts (acc w)), w)).
Definition db_ClearLoginFailures (username : string) : GoE Database unit :=
  stmt (λ _ w, Ok ((), edit_acc (λ a, put_attempts (ClearLoginFailures username (ac_attempts a)) a) w)).
End accounts.
