(* ===== verification/Web.v ===== *)
(** * Requests, sessions and authorization

    [internal/app/authz.go] and the session part of [internal/app/app.go]. A
    handler is a program on the database that returns a response; what a page
    shows beyond its template and its messages is not part of a response. *)

From S2P Require Import Prelude GoStrings GoTime Secrets Json Protocol Process Scans Queue Inventory Portability Lockout Accounts.
Local Open Scope Z_scope.

(** ** Requests and responses *)

(** [rq_Form] and [rq_PostForm] are [r.Form] and [r.PostForm] after [ParseForm],
    [rq_FormError] the text of its error; [rq_UploadError] says that the multipart
    body is unreadable, and [rq_File] is the uploaded file, if there is one, with
    its content, if it can be read. [rq_PathValue] is the wildcard of the route. *)
Record Request : Type := MkRequest
  { rq_Method : string; rq_Path : string; rq_PathValue : string; rq_Cookies : gmap string string;
    rq_Form : gmap string (list string); rq_PostForm : gmap string (list string); rq_FormError : option string;
    rq_UploadError : bool; rq_File : option (option string); rq_Query : gmap string string;
    rq_RemoteAddr : string; rq_UserAgent : string; rq_Authorization : string; rq_Body : string }.

Definition FormValue (r : Request) (name : string) : string := default "" (rq_Form r !! name ≫= head).
(** [strings.TrimSpace(r.FormValue(name))]. *)
Definition field (r : Request) (name : string) : string := trim_space (FormValue r name).

(** [Showing] is a page that reveals values once, [Dialog] one that opens with a form
    filled in; [Aborted] is the connection closed when a handler panics. *)
Inductive body : Type :=
| Redirect (url : string)
| HttpError (message : string) (code : Z)
| NotFoundPage
| ForbiddenPage
| Page (template title error notice : string)
| Showing (template title notice : string) (values : list string)
| Dialog (template title error notice : string) (fields : list (string * string))
| StatusPage (code : Z) (template title error : string)
| Preview (result : importResult)
| Download (name content : string)
| Picture (png : string)
| Reply (status : Z) (value : json)
| NoContent
| Aborted.

(** A cookie set to the empty text is cleared. *)
Record Response : Type := MkResponse { rs_Body : body; rs_Cookies : list (string * string) }.

Definition Handler : Type := Request → Go Database Response.
Definition respond (b : body) : Go Database Response := Ret (MkResponse b []).
Definition server_error (message : string) : Go Database Response := respond (HttpError message 500).
Definition set_cookies (c : list (string * string)) (r : Response) : Response :=
  MkResponse (rs_Body r) (c ++ rs_Cookies r).
Definition StatusBadRequest : Z := 400.
Definition StatusForbidden : Z := 403.
Definition StatusInternalServerError : Z := 500.
Definition StatusTooManyRequests : Z := 429.
Definition StatusServiceUnavailable : Z := 503.

Definition sessionCookie : string := "lightipam_session".
Definition csrfCookie : string := "lightipam_csrf".

(** ** The inventory's programs in the database *)

Definition to_inventory (w : World Database) : World Inventory :=
  MkWorld (w_sites w) (w_users w) (w_agents w) (w_schedules w) (w_jobs w) (w_audit w) (db_inv (w_inv w)) (w_spawned w) (w_step w).
Definition of_inventory (w : World Database) (v : World Inventory) : World Database :=
  MkWorld (w_sites v) (w_users v) (w_agents v) (w_schedules v) (w_jobs v) (w_audit v)
    (MkDatabase (w_inv v) (acc w)) (w_spawned v) (w_step v).

Fixpoint zoom {A} (p : Go Inventory A) : Go Database A :=
  match p with
  | Ret a => Ret a
  | Atom g k => Atom (λ w, of_inventory w (g (to_inventory w))) (λ w, zoom (k (to_inventory w)))
  end.

(** ** Peers *)

(** [net.SplitHostPort], without the port. *)
Definition SplitHost (s : string) : option string :=
  match cut_last_byte ":"%char s with
  | None => None
  | Some (host, port) =>
      let clean t := (count_byte "["%char t =? 0)%nat && (count_byte "]"%char t =? 0)%nat in
      match host with
      | String "[" rest =>
          match cut_byte "]"%char rest with
          | Some (inside, "") => if clean inside && clean port then Some inside else None
          | _ => None
          end
      | _ => if (count_byte ":"%char host =? 0)%nat && clean host && clean port then Some host else None
      end
  end.

Definition clientIP (r : Request) : string :=
  match SplitHost (rq_RemoteAddr r) with Some host => host | None => trim_space (rq_RemoteAddr r) end.

(** The first [n] bytes. *)
Fixpoint take_bytes (n : nat) (s : string) : string :=
  match n, s with S n, String c s => String c (take_bytes n s) | _, _ => "" end.
Definition userAgent (r : Request) : string := take_bytes 255 (trim_space (rq_UserAgent r)).

Example SplitHost_1 : SplitHost "10.0.0.9:51000" = Some "10.0.0.9".
Proof. vm_compute. reflexivity. Qed.
Example SplitHost_2 : SplitHost "[fe80::1]:51000" = Some "fe80::1".
Proof. vm_compute. reflexivity. Qed.
Example SplitHost_3 : SplitHost "fe80::1" = None.
Proof. vm_compute. reflexivity. Qed.

(** ** Durations *)

(** The fraction [v / 10^prec], without its trailing zeros. *)
Definition frac_text (v : Z) (prec : nat) : string :=
  let f := v mod 10 ^ Z.of_nat prec in
  if f =? 0 then "" else "." +:+ trim_right_func (λ c, bool_decide (c = "0"%char)) (pad_itoa prec f).
Definition unit_text (d : Z) (prec : nat) (unit : string) : string :=
  itoa (d / 10 ^ Z.of_nat prec) +:+ frac_text d prec +:+ unit.

(** [Duration.String] *)
Definition duration_text (d : Z) : string :=
  if d =? 0 then "0s"
  else
    (if d <? 0 then "-" else "") +:+
    (let u := Z.abs d in
     if u <? 1000 then unit_text u 0 "ns"
     else if u <? 1000000 then unit_text u 3 (String (byte_of 194) (String (byte_of 181) "s"))
     else if u <? second then unit_text u 6 "ms"
     else
       let s := u / second in
       (if s <? 60 then ""
        else (if s <? 3600 then "" else itoa (s / 3600) +:+ "h") +:+ itoa (s / 60 mod 60) +:+ "m")
       +:+ unit_text (u mod minute) 9 "s").

Example duration_text_1 : duration_text (90 * minute) = "1h30m0s".
Proof. vm_compute. reflexivity. Qed.
Example duration_text_2 : duration_text (61 * second + 500000000) = "1m1.5s".
Proof. vm_compute. reflexivity. Qed.

(** [d.Round(time.Second)] of a duration that is not negative: half a second
    rounds up, and what would overflow becomes the largest duration. *)
Definition round_second (d : Z) : Z :=
  let r := d mod second in
  if r + r <? second then d - r else if d + (second - r) <=? int64_max then d + (second - r) else int64_max.

(** ** Sessions *)

(** The part of [SecuritySettings] the handlers use. *)
Record SecuritySettings : Type := MkSecuritySettings
  { LoginMaxAttempts : Z; LoginWindow : Z; LoginLockout : Z; SessionAbsoluteTimeout : Z;
    SessionIdleTimeout : Z; LogoutEverywhereKeepsCurrent : bool }.

(** What a handler finds in the [App] (the settings it holds in memory and the
    sealer, when there is a key) and the code outside the repository it reaches:
    Argon2; PostgreSQL's [inet],
    [macaddr] and [cidr] input, its [lower], the names of the sites and the order
    of its listings. *)
Class App : Type := MkApp
  { settings : SecuritySettings; sealer : option AEAD;
    IDKey : string → list Z → Z → Z → Z → Z → list Z;
    inet_in : string → option string; macaddr_in : string → option string; cidr_in : string → option string;
    lower : string → string; site_name : string → string;
    by_cidr : list (string * Subnet) → list (string * Subnet);
    by_address : list (string * AddressRow) → list (string * AddressRow);
    by_mac : list (string * MacRow) → list (string * MacRow);
    by_name : ∀ A : Type, (A → string) → list A → list A }.

Section sessions.
Context {env : Env} {app : App}.

Definition the_lockoutPolicy : lockoutPolicy :=
  MkPolicy (LoginMaxAttempts settings) (LoginWindow settings) (LoginLockout settings).

(** The clock is read only when there is an idle timeout. *)
Definition idleCutoff : Go Database Z :=
  if SessionIdleTimeout settings <=? 0 then Ret zero_time
  else now ←! time_now; Ret (now - SessionIdleTimeout settings).

Definition currentSession (r : Request) : Go Database (option Session) :=
  let value := default "" (rq_Cookies r !! sessionCookie) in
  if decide (value = "") then Ret None
  else
    cutoff ←! idleCutoff;
    session ←! GetSession value cutoff;
    Ret (match session with Ok s => Some s | Err _ => None end).

(** [session, ok := a.requireSession(w, r); if !ok return], and what follows. *)
Definition requireSession (r : Request) (next : Session → Go Database Response) : Go Database Response :=
  session ←! currentSession r;
  match session with
  | Some s => next s
  | None => respond (Redirect "/login")
  end.

Definition verifySessionCSRF (r : Request) (session : Session) : bool :=
  bool_decide (se_CSRFToken session ≠ "") && bool_decide (se_CSRFToken session = FormValue r "csrf_token").

(** [if !a.verifySessionCSRF(r, session) { http.Error(...); return }]. *)
Definition withCSRF (r : Request) (session : Session) (next : Go Database Response) : Go Database Response :=
  if verifySessionCSRF r session then next else respond (HttpError "Invalid form token" StatusForbidden).

(** [if err := r.ParseForm(); err != nil { http.Error(...); return }]. *)
Definition withForm (r : Request) (next : Go Database Response) : Go Database Response :=
  if bool_decide (is_Some (rq_FormError r)) then respond (HttpError "Invalid form" StatusBadRequest) else next.

Definition verifyFormCSRF (r : Request) : bool :=
  match rq_Cookies r !! csrfCookie with
  | Some value => bool_decide (value ≠ "") && bool_decide (value = FormValue r "csrf_token")
  | None => false
  end.

(** The cookie of the new session; a failure is only logged. *)
Definition establishSession (r : Request) (userID : string) : Go Database (list (string * string)) :=
  now ←! time_now;
  session ←! CreateSession userID (now + SessionAbsoluteTimeout settings) (clientIP r) (userAgent r);
  Ret (match session with Ok s => [(sessionCookie, se_ID s)] | Err _ => [] end).

Definition needsBootstrap : Go Database bool :=
  count ←! CountAdmins;
  Ret (match count with Ok n => n =? 0 | Err _ => false end).

(** ** Roles *)

Definition canWrite (role : string) : bool := bool_decide (role = RoleAdmin).

Definition publicWritePath (path : string) : bool := bool_decide (path ∈ ["/login"; "/logout"; "/bootstrap"]).

Definition isAccountPath (path : string) : bool :=
  bool_decide (path = "/account") || ((slen "/account/" <? slen path)%nat && has_prefix path "/account/").

Definition safeMethod (method : string) : bool := bool_decide (method ∈ ["GET"; "HEAD"; "OPTIONS"]).

Definition authorize (next : Handler) : Handler := λ r,
  if safeMethod (rq_Method r) || publicWritePath (rq_Path r) || isAccountPath (rq_Path r) then next r
  else
    session ←! currentSession r;
    match session with
    | Some s => if negb (canWrite (u_Role (se_User s))) then respond ForbiddenPage else next r
    | None => next r
    end.

Definition requireAdmin (r : Request) (next : Session → Go Database Response) : Go Database Response :=
  requireSession r (λ session,
    if negb (u_IsAdmin (se_User session)) then respond ForbiddenPage else next session).

(** ** The audit log *)

Definition audit_log (actor : option string) (action subjectType subjectID metadata : string) : Go Database unit :=
  _ ←! CreateAuditLog actor action subjectType subjectID metadata; Ret ().

Definition audit (actor : string) (action subjectType subjectID : string) : Go Database unit :=
  audit_log (Some actor) action subjectType subjectID "{}".

Definition auditMeta (actor : option string) (action subjectType subjectID : string) (meta : list (string * string)) :
    Go Database unit :=
  audit_log actor action subjectType subjectID (Marshal meta).
End sessions.
