(* ===== verification/Signin.v ===== *)
(** * Signing in

    The bootstrap, the login form, the second factor and signing out:
    [internal/app/app.go] and [internal/app/mfa.go]. *)

From S2P Require Import Prelude GoStrings GoTime Json Password Process Scans Queue Inventory Lockout Totp Secrets Accounts Web.
Local Open Scope Z_scope.

Definition mfaCookie : string := "lightipam_mfa".
Definition mfaChallengeTTL : Z := 5 * minute.
Definition recoveryCodeQty : nat := 10.
Definition minPasswordLength : nat := 12.

Section signin.
Context {env : Env} {app : App}.

Definition random_bytes (n : nat) : option (list Z) := text_bytes <$> token n.

(** [auth.HashPassword], with the salt of the moment. *)
Definition hash_password (password : string) : Go Database (option string) :=
  atomic (λ w, (HashPassword IDKey (random_bytes (w_step w)) password, bump w)).

(** [auth.RandomToken] where its error is ignored, or answered. *)
Definition random_or_empty : Go Database string :=
  t ←! random_token; Ret (match t with Ok t => t | Err _ => "" end).

(** A form on which a fresh token is set. *)
Definition fresh_form (b : body) : Go Database Response :=
  t ←! random_token;
  match t with
  | Ok csrf => Ret (MkResponse b [(csrfCookie, csrf)])
  | Err _ => respond (HttpError "Unable to create form token" StatusInternalServerError)
  end.

(** ** Bootstrap *)

Definition bootstrapForm : Handler := λ r,
  first_run ←! needsBootstrap;
  if negb first_run then respond (Redirect "/login")
  else fresh_form (Page "bootstrap.html" "Create Admin" "" "").

Definition renderBootstrapError (message : string) : Go Database Response :=
  csrf ←! random_or_empty;
  Ret (MkResponse (Page "bootstrap.html" "Create Admin" message "") [(csrfCookie, csrf)]).

Definition bootstrapSubmit : Handler := λ r,
  first_run ←! needsBootstrap;
  if negb first_run then respond (Redirect "/login")
  else if negb (verifyFormCSRF r) then respond (HttpError "Invalid form token" StatusForbidden)
  else withForm r (
    let username := field r "username" in
    let displayName := if decide (field r "display_name" = "") then username else field r "display_name" in
    let password := FormValue r "password" in
    if bool_decide (username = "") || (slen password <? minPasswordLength)%nat then
      renderBootstrapError "Use a username and a password with at least 12 characters."
    else
      hash ←! hash_password password;
      match hash with
      | None => respond (HttpError "Unable to secure password" StatusInternalServerError)
      | Some hash =>
          user ←! CreateAdmin username displayName hash;
          match user with
          | Err _ => renderBootstrapError "Unable to create the admin account. Try a different username."
          | Ok user =>
              _ ←! audit (u_ID user) "admin.bootstrap.created" "user" (u_ID user);
              cookies ←! establishSession r (u_ID user);
              Ret (MkResponse (Redirect "/") cookies)
          end
      end).

(** ** Login *)

Definition loginForm : Handler := λ r,
  first_run ←! needsBootstrap;
  if (first_run : bool) then respond (Redirect "/bootstrap") else fresh_form (Page "login.html" "Sign In" "" "").

Definition renderLoginError (message : string) : Go Database Response :=
  respond (Page "login.html" "Sign In" message "").

(** The pending-factor cookie and a form token; [None] when nothing can be sealed. *)
Definition startMFAChallenge (userID : string) : Go Database (option (list (string * string))) :=
  match sealer return Go Database (option (list (string * string))) with
  | None => Ret None
  | Some s =>
      now ←! time_now;
      nonce ←! atomic (λ w, (random_bytes (w_step w), bump w));
      match Seal s nonce (userID +:+ ":" +:+ itoa ((now + mfaChallengeTTL) / second)) with
      | None => Ret None
      | Some sealed => csrf ←! random_or_empty; Ret (Some [(mfaCookie, sealed); (csrfCookie, csrf)])
      end
  end.

Definition zero_stats : LoginFailureStats := MkStats 0 Protocol.zero_time 0 Protocol.zero_time.

(** After the password: the second factor, or the session. A failure to read the
    second factor is only logged. *)
Definition finish_login (r : Request) (user : User) : Go Database Response :=
  enabled ←! TOTPEnabled (u_ID user);
  match enabled with
  | Ok true =>
      challenge ←! startMFAChallenge (u_ID user);
      match challenge with
      | Some cookies => Ret (MkResponse (Redirect "/login/mfa") cookies)
      | None => renderLoginError "Unable to start two-factor verification. Please try again."
      end
  | _ =>
      _ ←! audit (u_ID user) "auth.login" "user" (u_ID user);
      cookies ←! establishSession r (u_ID user);
      Ret (MkResponse (Redirect "/") cookies)
  end.

Definition login_handler : Handler := λ r,
  if negb (verifyFormCSRF r) then respond (HttpError "Invalid form token" StatusForbidden)
  else withForm r (
    let username := field r "username" in
    let password := FormValue r "password" in
    let ip := clientIP r in
    now ←! time_now;
    stats ←! db_RecentLoginFailures username ip (now - LoginWindow settings);
    let stats := match stats with Ok s => s | Err _ => zero_stats end in
    let decision := evaluateLockout the_lockoutPolicy stats now in
    if Locked decision then
      _ ←! auditMeta None "auth.login.locked" "user" username
             [("ip", ip); ("retry_after", duration_text (round_second (RetryAfter decision)))];
      respond (StatusPage StatusTooManyRequests "login.html" "Sign In" "Too many failed attempts. Please try again later.")
    else
      found ←! FindUserByUsername username;
      let user := match found with Ok u => Some u | Err _ => None end in
      match user with
      | Some u =>
          if VerifyPassword IDKey (u_PasswordHash u) password then
            _ ←! db_ClearLoginFailures username;
            finish_login r u
          else
            _ ←! db_RecordLoginFailure username ip;
            _ ←! auditMeta (Some (u_ID u)) "auth.login.failed" "user" username [("ip", ip)];
            renderLoginError "The username or password is incorrect."
      | None =>
          _ ←! db_RecordLoginFailure username ip;
          _ ←! auditMeta None "auth.login.failed" "user" username [("ip", ip)];
          renderLoginError "The username or password is incorrect."
      end).

Definition logout : Handler := λ r,
  session ←! currentSession r;
  _ ←! match session with
       | Some s =>
           if decide (FormValue r "csrf_token" = se_CSRFToken s) then
             _ ←! DeleteSession (se_ID s);
             audit (u_ID (se_User s)) "auth.logout" "user" (u_ID (se_User s))
           else Ret ()
       | None => Ret ()
       end;
  Ret (MkResponse (Redirect "/login") [(sessionCookie, "")]).

(** ** The second factor at login *)

(** The user and the expiry the cookie holds. *)
Definition challenge_of (r : Request) : option (string * Z) :=
  s ← sealer;
  let value := default "" (rq_Cookies r !! mfaCookie) in
  if decide (value = "") then None
  else
    payload ← Open s value;
    '(userID, expiry) ← cut_byte ":"%char payload;
    unix ← atoi expiry;
    Some (userID, unix).

(** The user of the cookie, while it has not expired. *)
Definition pendingMFAUser (r : Request) : Go Database (option string) :=
  match challenge_of r return Go Database (option string) with
  | None => Ret None
  | Some (userID, unix) => now ←! time_now; Ret (if unix <? now / second then None else Some userID)
  end.

Definition mfaChallengeForm : Handler := λ r,
  user ←! pendingMFAUser r;
  match user with
  | None => respond (Redirect "/login")
  | Some _ => fresh_form (Page "mfa_challenge.html" "Two-factor verification" "" "")
  end.

Definition renderMFAChallengeError (message : string) : Go Database Response :=
  respond (Page "mfa_challenge.html" "Two-factor verification" message "").

(** Whether the code is right, and whether it was a recovery code. *)
Definition check_recovery (userID code : string) : Go Database (bool * bool) :=
  used ←! ConsumeRecoveryCode userID (HashRecoveryCode code);
  Ret (match used with Ok true => (true, true) | _ => (false, false) end).
Definition check_factor (userID secretValue code : string) : Go Database (bool * bool) :=
  now ←! time_now;
  if VerifyTOTP secretValue code now then Ret (true, false) else check_recovery userID code.

Definition open_secret (token : string) : option string := s ← sealer; Open s token.

Definition after_factor (r : Request) (userID : string) (verified : bool * bool) : Go Database Response :=
  if negb verified.1 then
    _ ←! auditMeta (Some userID) "auth.mfa.failed" "user" userID [("ip", clientIP r)];
    renderMFAChallengeError "That code is incorrect or expired."
  else
    _ ←! audit userID (if verified.2 then "auth.mfa.recovery_used" else "auth.mfa.success") "user" userID;
    cookies ←! establishSession r userID;
    Ret (MkResponse (Redirect "/") ((mfaCookie, "") :: cookies)).

Definition mfaChallengeSubmit : Handler := λ r,
  if negb (verifyFormCSRF r) then respond (HttpError "Invalid form token" StatusForbidden)
  else
    user ←! pendingMFAUser r;
    match user with
    | None => respond (Redirect "/login")
    | Some userID => withForm r (
        let code := field r "code" in
        enrollment ←! GetUserTOTP userID;
        match enrollment with
        | Ok t =>
            if negb (tr_Enabled t) then respond (Redirect "/login")
            else match open_secret (tr_Secret t) with
                 | None => renderMFAChallengeError "Unable to verify the code. Please try again."
                 | Some secretValue =>
                     verified ←! check_factor userID secretValue code;
                     after_factor r userID verified
                 end
        | Err _ => respond (Redirect "/login")
        end)
    end.
End signin.
