(* ===== verification/Users.v ===== *)
(** * Managing users and one's own account

    [internal/app/users.go], [internal/app/account.go],
    [internal/app/account_tokens.go], the log-out-everywhere control of
    [internal/app/app.go] and the enrolment half of [internal/app/mfa.go]. *)

From S2P Require Import Prelude GoStrings GoTime Password Secrets Json Process Scans Queue Inventory Lockout Totp Accounts Web Signin.
Local Open Scope Z_scope.

Definition apiTokenPrefix : string := "lipam_".

Section users.
Context {env : Env} {app : App}.

(** [r.URL.Query().Get("notice")], mapped by the caller. *)
Definition notice_of (r : Request) (table : list (string * string)) : string :=
  let notice := default "" (rq_Query r !! "notice") in
  default "" (snd <$> list_find (λ p, p.1 = notice) table ≫= λ p, Some p.2).

(** ** Users *)

Definition usersNotice (r : Request) : string :=
  notice_of r [("created", "User created."); ("updated", "Role updated.");
    ("password", "Password reset; the user's sessions were signed out."); ("deleted", "User deleted.")].

Definition renderUsersTab (errMsg notice : string) : Go Database Response :=
  users ←! ListUsers;
  match users with
  | Err _ => server_error "Unable to load users"
  | Ok _ => respond (Page "settings.html" "Settings" errMsg notice)
  end.

Definition settingsUsers : Handler := λ r, requireAdmin r (λ _, renderUsersTab "" (usersNotice r)).

(** [session, target, ok := a.loadManagedUser(w, r); if !ok return]. *)
Definition loadManagedUser (r : Request) (next : Session → User → Go Database Response) : Go Database Response :=
  requireAdmin r (λ session,
    target ←! GetUser (rq_PathValue r);
    match target with
    | Ok target => next session target
    | Err ErrNotFound => respond NotFoundPage
    | Err _ => server_error "Unable to load user"
    end).

Definition isLastAdmin : GoE Database bool := count ←? CountAdmins; Ret (Ok (count <=? 1)).

(** Refusing with [message] when the target is the last admin. *)
Definition unless_last_admin (message failed : string) (next : Go Database Response) : Go Database Response :=
  last ←! isLastAdmin;
  match last with
  | Err _ => server_error failed
  | Ok true => renderUsersTab message ""
  | Ok false => next
  end.

Definition actor (session : Session) : option string := Some (u_ID (se_User session)).

Definition userCreate : Handler := λ r,
  requireAdmin r (λ session, withCSRF r session (withForm r (
    let username := field r "username" in
    let displayName := if decide (field r "display_name" = "") then username else field r "display_name" in
    let password := FormValue r "password" in
    let role := field r "role" in
    if bool_decide (username = "") || (slen password <? minPasswordLength)%nat then
      renderUsersTab "Use a username and a password with at least 12 characters." ""
    else if negb (ValidRole role) then renderUsersTab "Choose a valid role." ""
    else
      hash ←! hash_password password;
      match hash with
      | None => server_error "Unable to secure password"
      | Some hash =>
          user ←! CreateUser username displayName hash role;
          match user with
          | Err _ => renderUsersTab "Unable to create the user. The username may already be taken." ""
          | Ok user =>
              _ ←! auditMeta (actor session) "user.created" "user" (u_ID user)
                     [("username", u_Username user); ("role", u_Role user)];
              respond (Redirect "/settings/users?notice=created")
          end
      end))).

Definition set_role_of (session : Session) (target : User) (role : string) : Go Database Response :=
  done ←! SetUserRole (u_ID target) role;
  match done with
  | Err _ => server_error "Unable to update role"
  | Ok _ =>
      _ ←! auditMeta (actor session) "user.role.updated" "user" (u_ID target)
             [("username", u_Username target); ("role", role)];
      respond (Redirect "/settings/users?notice=updated")
  end.

Definition userSetRole : Handler := λ r,
  loadManagedUser r (λ session target, withCSRF r session (
    let role := field r "role" in
    if negb (ValidRole role) then renderUsersTab "Choose a valid role." ""
    else if u_IsAdmin target && negb (bool_decide (role = RoleAdmin)) then
      unless_last_admin "You cannot remove the last admin. Promote another user first." "Unable to update role"
        (set_role_of session target role)
    else set_role_of session target role)).

Definition userResetPassword : Handler := λ r,
  loadManagedUser r (λ session target, withCSRF r session (
    let password := FormValue r "password" in
    if (slen password <? minPasswordLength)%nat then renderUsersTab "New password must be at least 12 characters." ""
    else
      hash ←! hash_password password;
      match hash with
      | None => server_error "Unable to secure password"
      | Some hash =>
          done ←! SetUserPassword (u_ID target) hash;
          match done with
          | Err _ => server_error "Unable to reset password"
          | Ok _ =>
              _ ←! DeleteUserSessions (u_ID target);
              _ ←! auditMeta (actor session) "user.password.reset" "user" (u_ID target)
                     [("username", u_Username target)];
              respond (Redirect "/settings/users?notice=password")
          end
      end)).

Definition userDeleteConfirm : Handler := λ r,
  loadManagedUser r (λ _ _, respond (Page "confirm.html" "Delete User" "" "")).

Definition delete_user_of (session : Session) (target : User) : Go Database Response :=
  done ←! DeleteUser (u_ID target);
  match done with
  | Err _ => server_error "Unable to delete user"
  | Ok _ =>
      _ ←! auditMeta (actor session) "user.deleted" "user" (u_ID target) [("username", u_Username target)];
      respond (Redirect "/settings/users?notice=deleted")
  end.

Definition userDelete : Handler := λ r,
  loadManagedUser r (λ session target, withCSRF r session (
    if decide (u_ID target = u_ID (se_User session)) then renderUsersTab "You cannot delete your own account." ""
    else if u_IsAdmin target then
      unless_last_admin "You cannot delete the last admin." "Unable to delete user" (delete_user_of session target)
    else delete_user_of session target)).

(** ** One's own account *)

Definition accountNotice (r : Request) : string :=
  notice_of r [("password", "Password changed; your other sessions were signed out.");
    ("revoked", "Signed out your other sessions."); ("mfa_off", "Two-factor authentication is off.");
    ("token_revoked", "API token revoked.")].

(** [data, ok := a.accountPageData(w, r, session); if !ok return]. *)
Definition accountPageData (session : Session) (next : Go Database Response) : Go Database Response :=
  cutoff ←! idleCutoff;
  sessions ←! ListUserSessions (u_ID (se_User session)) cutoff;
  match sessions with
  | Err _ => server_error "Unable to load sessions"
  | Ok _ =>
      _ ←! TOTPEnabled (u_ID (se_User session));
      _ ←! ListAPITokens (u_ID (se_User session));
      next
  end.

Definition renderAccount (session : Session) (errMsg notice : string) : Go Database Response :=
  accountPageData session (respond (Page "account.html" "Your account" errMsg notice)).

Definition accountIndex : Handler := λ r,
  requireSession r (λ session, renderAccount session "" (accountNotice r)).

Definition accountChangePassword : Handler := λ r,
  requireSession r (λ session, withCSRF r session (withForm r (
    let current := FormValue r "current_password" in
    let next := FormValue r "new_password" in
    let confirm := FormValue r "confirm_password" in
    user ←! GetUser (u_ID (se_User session));
    match user with
    | Err _ => server_error "Unable to load account"
    | Ok user =>
        if negb (VerifyPassword IDKey (u_PasswordHash user) current) then
          renderAccount session "Your current password is incorrect." ""
        else if (slen next <? minPasswordLength)%nat then
          renderAccount session "New password must be at least 12 characters." ""
        else if negb (bool_decide (next = confirm)) then renderAccount session "The new passwords do not match." ""
        else
          hash ←! hash_password next;
          match hash with
          | None => server_error "Unable to secure password"
          | Some hash =>
              done ←! SetUserPassword (u_ID (se_User session)) hash;
              match done with
              | Err _ => server_error "Unable to change password"
              | Ok _ =>
                  _ ←! DeleteOtherUserSessions (u_ID (se_User session)) (se_ID session);
                  _ ←! audit (u_ID (se_User session)) "auth.password.changed" "user" (u_ID (se_User session));
                  respond (Redirect "/account?notice=password")
              end
          end
    end))).

Definition audit_revoked (session : Session) (revoked : Z) (scope : string) : Go Database unit :=
  auditMeta (actor session) "session.revoked_all" "user" (u_ID (se_User session))
    [("scope", scope); ("revoked", itoa revoked)].

Definition accountLogoutAll : Handler := λ r,
  requireSession r (λ session, withCSRF r session (
    revoked ←! DeleteOtherUserSessions (u_ID (se_User session)) (se_ID session);
    match revoked with
    | Err _ => server_error "Unable to revoke sessions"
    | Ok revoked =>
        _ ←! audit_revoked session revoked "others";
        respond (Redirect "/account?notice=revoked")
    end)).

Definition logoutEverywhere : Handler := λ r,
  requireSession r (λ session, withCSRF r session (
    let keepCurrent := LogoutEverywhereKeepsCurrent settings in
    revoked ←! (if keepCurrent then DeleteOtherUserSessions (u_ID (se_User session)) (se_ID session)
                else DeleteUserSessions (u_ID (se_User session)));
    match revoked with
    | Err _ => server_error "Unable to revoke sessions"
    | Ok revoked =>
        _ ←! audit_revoked session revoked (if keepCurrent then "others" else "all");
        if keepCurrent then respond (Redirect "/settings/security?notice=revoked")
        else Ret (MkResponse (Redirect "/login") [(sessionCookie, "")])
    end)).

(** ** API tokens *)

Definition accountTokenCreate : Handler := λ r,
  requireSession r (λ session,
    if negb (canWrite (u_Role (se_User session))) then
      respond (HttpError "Only admins can create API tokens." StatusForbidden)
    else withCSRF r session (withForm r (
      let name := field r "name" in
      if decide (name = "") then
        renderAccount session "Give the token a name so you can recognize it later." ""
      else
        secret ←! random_token;
        match secret with
        | Err _ => server_error "Unable to generate token"
        | Ok secret =>
            let token := apiTokenPrefix +:+ secret in
            created ←! CreateAPIToken (u_ID (se_User session)) name (HashToken token);
            match created with
            | Err _ => renderAccount session "Unable to create the token. Please try again." ""
            | Ok _ =>
                _ ←! audit (u_ID (se_User session)) "auth.api_token.created" "user" (u_ID (se_User session));
                accountPageData session (respond (Showing "account.html" "Your account"
                  "Token created. Copy it now — it is shown only once." [token]))
            end
        end))).

Definition accountTokenDelete : Handler := λ r,
  requireSession r (λ session, withCSRF r session (
    deleted ←! DeleteAPIToken (rq_PathValue r) (u_ID (se_User session));
    _ ←! (match deleted return Go Database unit with
          | Err _ => Ret ()
          | Ok _ => audit (u_ID (se_User session)) "auth.api_token.revoked" "user" (u_ID (se_User session))
          end);
    respond (Redirect "/account?notice=token_revoked"))).

(** ** Enrolling a second factor *)

Definition mfa_page (error notice : string) : Go Database Response :=
  respond (Page "mfa_settings.html" "Two-factor authentication" error notice).

(** A fresh secret and its sealed form, or the enrolment cannot start. *)
Definition issue_secret (c : AEAD) (userID : string) : Go Database Response :=
  secret ←! atomic (λ w, (GenerateTOTPSecret <$> random_bytes (w_step w), bump w));
  match secret with
  | None => server_error "Unable to start enrollment"
  | Some secretValue =>
      nonce ←! atomic (λ w, (random_bytes (w_step w), bump w));
      match Seal c nonce secretValue with
      | None => server_error "Unable to start enrollment"
      | Some sealed =>
          started ←! StartTOTPEnrollment userID sealed;
          match started with
          | Err _ => server_error "Unable to start enrollment"
          | Ok _ => mfa_page "" ""
          end
      end
  end.

Definition mfaSettings : Handler := λ r,
  requireSession r (λ session,
    match sealer return Go Database Response with
    | None => respond (HttpError "Two-factor is unavailable: no encryption key configured." StatusServiceUnavailable)
    | Some c =>
        enrollment ←! GetUserTOTP (u_ID (se_User session));
        match enrollment with
        | Ok t =>
            if tr_Enabled t then
              _ ←! CountUnusedRecoveryCodes (u_ID (se_User session)); mfa_page "" ""
            else
              match (if decide (tr_Secret t = "") then None else Open c (tr_Secret t)) with
              | Some (String _ _) => mfa_page "" ""
              | _ => issue_secret c (u_ID (se_User session))
              end
        | Err _ => issue_secret c (u_ID (se_User session))
        end
    end).

(** The recovery codes are read from the random source one after the other. *)
Definition recovery_codes (n : nat) : Go Database (option (list string)) :=
  atomic (λ w, (GenerateRecoveryCodes n (λ i, random_bytes (w_step w + i)), Nat.iter n bump w)).

Definition enable_factor (session : Session) : Go Database Response :=
  codes ←! recovery_codes recoveryCodeQty;
  match codes with
  | None => server_error "Unable to generate recovery codes"
  | Some codes =>
      enabled ←! EnableTOTP (u_ID (se_User session)) (map HashRecoveryCode codes);
      match enabled with
      | Err _ => server_error "Unable to enable two-factor"
      | Ok _ =>
          _ ←! audit (u_ID (se_User session)) "auth.mfa.enabled" "user" (u_ID (se_User session));
          respond (Showing "mfa_settings.html" "Two-factor authentication"
            "Two-factor authentication is on. Save your recovery codes now — they are shown only once." codes)
      end
  end.

Definition mfaEnable : Handler := λ r,
  requireSession r (λ session, withCSRF r session (
    match sealer return Go Database Response with
    | None => respond (HttpError "Two-factor is unavailable" StatusServiceUnavailable)
    | Some c =>
        enrollment ←! GetUserTOTP (u_ID (se_User session));
        match enrollment with
        | Err _ => respond (Redirect "/account/mfa")
        | Ok t =>
            if tr_Enabled t then respond (Redirect "/account/mfa")
            else match Open c (tr_Secret t) with
                 | None => server_error "Unable to verify enrollment"
                 | Some secretValue =>
                     now ←! time_now;
                     if negb (VerifyTOTP secretValue (field r "code") now) then
                       mfa_page "That code didn't match. Make sure your device clock is correct and try again." ""
                     else enable_factor session
                 end
        end
    end)).

(** [secretValue, _ := a.sealer.Open(token)]; without a sealer, [Open] panics on a
    token it can decode. *)
Definition open_or_panic (token : string) : option string :=
  match sealer with
  | Some c => Some (default "" (Open c token))
  | None => if bool_decide (is_Some (strip_prefix sealedPrefix token ≫= base64url_decode)) then None else Some ""
  end.

(** The check of the code before the factor is turned off. *)
Definition disable_factor (userID secretValue code : string) : Go Database (bool * bool) :=
  if decide (secretValue = "") then check_recovery userID code else check_factor userID secretValue code.

Definition mfaDisable : Handler := λ r,
  requireSession r (λ session, withCSRF r session (
    enrollment ←! GetUserTOTP (u_ID (se_User session));
    match enrollment with
    | Err _ => respond (Redirect "/account/mfa")
    | Ok t =>
        if negb (tr_Enabled t) then respond (Redirect "/account/mfa")
        else match open_or_panic (tr_Secret t) return Go Database Response with
             | None => respond Aborted
             | Some secretValue =>
                 verified ←! disable_factor (u_ID (se_User session)) secretValue (field r "code");
                 if negb (verified.1 : bool) then renderAccount session "Enter a current code to turn off two-factor." ""
                 else
                   disabled ←! DisableTOTP (u_ID (se_User session));
                   match disabled with
                   | Err _ => server_error "Unable to disable two-factor"
                   | Ok _ =>
                       _ ←! audit (u_ID (se_User session)) "auth.mfa.disabled" "user" (u_ID (se_User session));
                       respond (Redirect "/account?notice=mfa_off")
                   end
             end
    end)).
End users.
