(* ===== verification/Pages.v ===== *)
(** * The pages of the inventory

    The handlers of [internal/app/app.go], [internal/app/bulk.go],
    [internal/app/custom_fields.go], [internal/app/portability.go] and
    [internal/app/netbox.go] that show and edit subnets, addresses, devices, MACs,
    custom fields, imports and exports. *)

From S2P Require Import Prelude GoStrings GoTime Ipam Json Process Scans Queue Inventory Import Records Bulk Portability Listings Lockout Accounts Web Users.
Local Open Scope Z_scope.

Section pages.
Context {env : Env} {app : App}.

(** ** What a page loads *)

(** A read whose failure is a server error. *)
Definition listed {A} (p : GoE Inventory A) (message : string) (next : Go Database Response) : Go Database Response :=
  found ←! zoom p;
  match found with Ok _ => next | Err _ => server_error message end.

(** A record of the request's path: a missing one is a 404. *)
Definition loaded {A} (p : GoE Inventory A) (message : string) (next : A → Go Database Response) : Go Database Response :=
  found ←! zoom p;
  match found with
  | Ok a => next a
  | Err ErrNotFound => respond NotFoundPage
  | Err _ => server_error message
  end.

Definition loadSubnetPage (r : Request) (next : Session → SubnetView → Go Database Response) : Go Database Response :=
  requireSession r (λ session, loaded (GetSubnet (rq_PathValue r)) "Unable to load subnet" (next session)).

Definition loadAddressPage (r : Request) (next : Session → IPAddress → SubnetView → Go Database Response) :
    Go Database Response :=
  requireSession r (λ session,
    loaded (GetAddress (rq_PathValue r)) "Unable to load address" (λ address,
      subnet ←! zoom (GetSubnet (ip_SubnetID address));
      match subnet with
      | Ok subnet => next session address subnet
      | Err _ => server_error "Unable to load subnet"
      end)).

Definition loadDevicePage (r : Request) (next : Session → DeviceView → Go Database Response) : Go Database Response :=
  requireSession r (λ session, loaded (GetDevice (rq_PathValue r)) "Unable to load device" (next session)).

Definition loadCustomFields (entityType entityID : string) : Go Database unit :=
  _ ←! zoom (CustomFieldValues entityType entityID); Ret ().

(** ** Custom-field values in a form *)

Definition custom_value (p : string * list string) : option (string * string) :=
  id ← strip_prefix "cf_" p.1;
  value ← head p.2;
  if decide (id = "") then None else Some (id, value).
Definition parseCustomFieldValues (r : Request) : gmap string string :=
  list_to_map (omap custom_value (map_to_list (rq_PostForm r))).

Definition saveCustomFieldValues (r : Request) (entityType entityID : string) : Go Database unit :=
  _ ←! zoom (SetCustomFieldValues entityType entityID (parseCustomFieldValues r)); Ret ().

(** ** Forms *)

Definition subnetInputFromRequest (r : Request) : result string SubnetInput :=
  match rq_FormError r with
  | Some message => Err message
  | None =>
      if decide (field r "name" = "") then Err "Subnet name is required."
      else match NormalizeCIDR (field r "cidr") with
           | Err _ => Err "Enter a valid IPv4 CIDR such as 192.168.10.0/24."
           | Ok cidr =>
               match ParseVLAN (field r "vlan") with
               | Err _ => Err "VLAN must be between 1 and 4094"
               | Ok vlan => Ok (MkSubnetInput (field r "site_id") cidr (field r "name") vlan (field r "description"))
               end
           end
  end.

Definition validAddressState (state : string) : bool := existsb (λ s, bool_decide (state = s)) address_states.

Definition addressInputFromRequest (r : Request) : result string AddressInput :=
  match rq_FormError r with
  | Some message => Err message
  | None =>
      match NormalizeIPv4 (field r "address") with
      | Err _ => Err "Enter a valid IPv4 address."
      | Ok address =>
          if negb (validAddressState (field r "state")) then Err "Choose a valid address state."
          else Ok (MkAddressInput address (field r "state") (field r "device_id") (field r "hostname") (field r "notes"))
      end
  end.

Definition deviceInputFromRequest (r : Request) : result string DeviceInput :=
  match rq_FormError r with
  | Some message => Err message
  | None => if decide (field r "name" = "") then Err "Device name is required."
            else Ok (MkDeviceInput (field r "name") (field r "description"))
  end.

Definition subnetError (e : db_error) : string :=
  match e with
  | ErrOverlap => "That subnet overlaps an existing subnet. Overlapping subnets are globally blocked."
  | ErrNotFound => "That subnet could not be found."
  | _ => "Unable to save subnet."
  end.
Definition addressError (e : db_error) : string :=
  match e with
  | ErrAddressOutOfCIDR => "That address is outside this subnet."
  | _ => "Unable to save address. Check for duplicates and try again."
  end.

(** ** Rendering *)

Definition list_sites := ListSites site_name by_name.
Definition list_subnets := ListSubnets by_cidr.
Definition list_devices := ListDevices by_name.
Definition list_addresses := ListAddresses by_address.

Definition renderSubnetForm (title id message : string) : Go Database Response :=
  listed list_sites "Unable to load form" (
    _ ←! loadCustomFields CustomFieldSubnet id;
    respond (Page "subnet_form.html" title message "")).

Definition render_subnet_detail (subnet : SubnetView) (message : string) : Go Database Response :=
  listed (list_addresses (sv_ID subnet)) "Unable to load addresses" (
    listed list_devices "Unable to load devices" (
      _ ←! loadCustomFields CustomFieldSubnet (sv_ID subnet);
      respond (Page "subnet_detail.html" (sv_Name subnet) message ""))).
Definition renderSubnetDetailError := render_subnet_detail.

Definition renderAddressForm (address : IPAddress) (message : string) : Go Database Response :=
  listed list_devices "Unable to load devices" (
    _ ←! loadCustomFields CustomFieldAddress (ip_ID address);
    respond (Page "address_form.html" "Edit Address" message "")).

Definition renderDeviceForm (title id message : string) : Go Database Response :=
  _ ←! loadCustomFields CustomFieldDevice id;
  respond (Page "device_form.html" title message "").

Definition render_device_detail (device : DeviceView) (message : string) : Go Database Response :=
  listed (ListMACAddresses by_mac (vw_ID device)) "Unable to load MAC addresses" (
    listed (ListDeviceIPAddresses by_address (vw_ID device)) "Unable to load addresses" (
      listed (ListLinkedDevices by_address by_mac by_name (vw_ID device)) "Unable to load linked devices" (
        listed (ListDeviceLinkSuggestions by_address by_name (vw_ID device)) "Unable to load link suggestions" (
          _ ←! loadCustomFields CustomFieldDevice (vw_ID device);
          respond (Page "device_detail.html" (dv_Name (vw_Row device)) message ""))))).
Definition renderDeviceDetailError := render_device_detail.

Definition renderSubnetsError (message : string) : Go Database Response :=
  listed list_subnets "Unable to load subnets" (respond (Page "subnets.html" "Subnets" message "")).
Definition renderDevicesError (message : string) : Go Database Response :=
  listed (ListDeviceGroups by_address by_name) "Unable to load devices" (respond (Page "devices.html" "Devices" message "")).

Definition confirm (title : string) : Go Database Response := respond (Page "confirm.html" title "" "").

(** ** Subnets *)

Definition subnetsIndex : Handler := λ r, requireSession r (λ _, renderSubnetsError "").
Definition subnetNew : Handler := λ r, requireSession r (λ _, renderSubnetForm "New Subnet" "" "").

Definition subnetCreate : Handler := λ r,
  requireSession r (λ session, withCSRF r session (
    match subnetInputFromRequest r with
    | Err message => renderSubnetForm "New Subnet" "" message
    | Ok input =>
        subnet ←! zoom (CreateSubnet cidr_in input);
        match subnet with
        | Err e => renderSubnetForm "New Subnet" "" (subnetError e)
        | Ok subnet =>
            _ ←! saveCustomFieldValues r CustomFieldSubnet (sv_ID subnet);
            _ ←! auditMeta (actor session) "subnet.created" "subnet" (sv_ID subnet)
                   [("cidr", sv_CIDR subnet); ("name", sv_Name subnet)];
            respond (Redirect ("/subnets/" +:+ sv_ID subnet))
        end
    end)).

Definition subnetShow : Handler := λ r, loadSubnetPage r (λ _ subnet, render_subnet_detail subnet "").
Definition subnetEdit : Handler := λ r,
  loadSubnetPage r (λ _ subnet, renderSubnetForm "Edit Subnet" (sv_ID subnet) "").

Definition subnetUpdate : Handler := λ r,
  loadSubnetPage r (λ session subnet, withCSRF r session (
    match subnetInputFromRequest r with
    | Err message => renderSubnetForm "Edit Subnet" (sv_ID subnet) message
    | Ok input =>
        updated ←! zoom (UpdateSubnet cidr_in (sv_ID subnet) input);
        match updated with
        | Err e => renderSubnetForm "Edit Subnet" (sv_ID subnet) (subnetError e)
        | Ok updated =>
            _ ←! saveCustomFieldValues r CustomFieldSubnet (sv_ID updated);
            _ ←! auditMeta (actor session) "subnet.updated" "subnet" (sv_ID updated)
                   [("cidr", sv_CIDR updated); ("name", sv_Name updated)];
            respond (Redirect ("/subnets/" +:+ sv_ID updated))
        end
    end)).

Definition subnetDelete : Handler := λ r,
  loadSubnetPage r (λ session subnet, withCSRF r session (
    deleted ←! zoom (DeleteSubnet (sv_ID subnet));
    match deleted with
    | Err _ => server_error "Unable to delete subnet"
    | Ok _ =>
        _ ←! auditMeta (actor session) "subnet.deleted" "subnet" (sv_ID subnet)
               [("cidr", sv_CIDR subnet); ("name", sv_Name subnet)];
        respond (Redirect "/subnets")
    end)).

Definition subnetDeleteConfirm : Handler := λ r, loadSubnetPage r (λ _ _, confirm "Delete Subnet").

(** ** Addresses *)

Definition addressCreate : Handler := λ r,
  loadSubnetPage r (λ session subnet, withCSRF r session (
    match addressInputFromRequest r with
    | Err message => renderSubnetDetailError subnet message
    | Ok input =>
        address ←! zoom (CreateAddress inet_in subnet input);
        match address with
        | Err e => renderSubnetDetailError subnet (addressError e)
        | Ok address =>
            _ ←! auditMeta (actor session) "address.created" "ip_address" (ip_ID address)
                   [("address", ip_Address address); ("hostname", ip_Hostname address)];
            respond (Redirect ("/subnets/" +:+ sv_ID subnet))
        end
    end)).

Definition addressEdit : Handler := λ r, loadAddressPage r (λ _ address _, renderAddressForm address "").

Definition addressUpdate : Handler := λ r,
  loadAddressPage r (λ session address subnet, withCSRF r session (
    match addressInputFromRequest r with
    | Err message => renderAddressForm address message
    | Ok input =>
        updated ←! zoom (UpdateAddress inet_in (ip_ID address) subnet input);
        match updated with
        | Err e => renderAddressForm address (addressError e)
        | Ok updated =>
            _ ←! saveCustomFieldValues r CustomFieldAddress (ip_ID updated);
            _ ←! auditMeta (actor session) "address.updated" "ip_address" (ip_ID updated)
                   [("address", ip_Address updated); ("hostname", ip_Hostname updated)];
            respond (Redirect ("/subnets/" +:+ sv_ID subnet))
        end
    end)).

Definition addressDeleteConfirm : Handler := λ r, loadAddressPage r (λ _ _ _, confirm "Remove Address").

(** The page to return to, when the form names one. *)
Definition return_page (base id : string) : Go Database Response :=
  respond (Redirect (if decide (id = "") then base else base +:+ "/" +:+ id)).

Definition addressDelete : Handler := λ r,
  requireSession r (λ session, withCSRF r session (
    deleted ←! zoom (DeleteAddress (rq_PathValue r));
    match deleted with
    | Err _ => server_error "Unable to delete address"
    | Ok _ =>
        _ ←! audit (u_ID (se_User session)) "address.deleted" "ip_address" (rq_PathValue r);
        return_page "/subnets" (field r "subnet_id")
    end)).

(** ** Devices *)

Definition devicesIndex : Handler := λ r, requireSession r (λ _, renderDevicesError "").
Definition deviceNew : Handler := λ r, requireSession r (λ _, renderDeviceForm "New Device" "" "").

Definition deviceCreate : Handler := λ r,
  requireSession r (λ session, withCSRF r session (
    match deviceInputFromRequest r with
    | Err message => renderDeviceForm "New Device" "" message
    | Ok input =>
        device ←! zoom (CreateDevice input);
        match device with
        | Err _ => renderDeviceForm "New Device" "" "Unable to create device."
        | Ok device =>
            _ ←! saveCustomFieldValues r CustomFieldDevice (vw_ID device);
            _ ←! auditMeta (actor session) "device.created" "device" (vw_ID device) [("name", dv_Name (vw_Row device))];
            respond (Redirect ("/devices/" +:+ vw_ID device))
        end
    end)).

Definition deviceShow : Handler := λ r, loadDevicePage r (λ _ device, render_device_detail device "").
Definition deviceEdit : Handler := λ r, loadDevicePage r (λ _ device, renderDeviceForm "Edit Device" (vw_ID device) "").

Definition deviceUpdate : Handler := λ r,
  loadDevicePage r (λ session device, withCSRF r session (
    match deviceInputFromRequest r with
    | Err message => renderDeviceForm "Edit Device" (vw_ID device) message
    | Ok input =>
        updated ←! zoom (UpdateDevice (vw_ID device) input);
        match updated with
        | Err _ => renderDeviceForm "Edit Device" (vw_ID device) "Unable to update device."
        | Ok updated =>
            _ ←! saveCustomFieldValues r CustomFieldDevice (vw_ID updated);
            _ ←! auditMeta (actor session) "device.updated" "device" (vw_ID updated) [("name", dv_Name (vw_Row updated))];
            respond (Redirect ("/devices/" +:+ vw_ID updated))
        end
    end)).

Definition deviceDelete : Handler := λ r,
  loadDevicePage r (λ session device, withCSRF r session (
    deleted ←! zoom (DeleteDevice (vw_ID device));
    match deleted with
    | Err _ => server_error "Unable to delete device"
    | Ok _ =>
        _ ←! auditMeta (actor session) "device.deleted" "device" (vw_ID device) [("name", dv_Name (vw_Row device))];
        respond (Redirect "/devices")
    end)).

Definition deviceDeleteConfirm : Handler := λ r, loadDevicePage r (λ _ _, confirm "Delete Device").

Definition macCreate : Handler := λ r,
  loadDevicePage r (λ session device, withCSRF r session (withForm r (
    mac ←! zoom (CreateMACAddress macaddr_in (vw_ID device) (field r "address"));
    match mac with
    | Err _ => renderDeviceDetailError device "Enter a valid, unique MAC address."
    | Ok mac =>
        _ ←! audit (u_ID (se_User session)) "mac.created" "mac_address" (ma_ID mac);
        respond (Redirect ("/devices/" +:+ vw_ID device))
    end))).

Definition macDelete : Handler := λ r,
  requireSession r (λ session, withCSRF r session (
    deleted ←! zoom (DeleteMACAddress (rq_PathValue r));
    match deleted with
    | Err _ => server_error "Unable to delete MAC address"
    | Ok _ =>
        _ ←! audit (u_ID (se_User session)) "mac.deleted" "mac_address" (rq_PathValue r);
        return_page "/devices" (field r "device_id")
    end)).

Definition macDeleteConfirm : Handler := λ r,
  requireSession r (λ _, loaded (GetMACAddress (rq_PathValue r)) "Unable to load MAC address" (λ _, confirm "Remove MAC")).

(** After a change to a device's links. *)
Definition link_done (session : Session) (result : result db_error unit) (message action subject back : string) :
    Go Database Response :=
  match result with
  | Err ErrNotFound => respond NotFoundPage
  | Err _ => server_error message
  | Ok _ =>
      _ ←! audit (u_ID (se_User session)) action "device" subject;
      respond (Redirect ("/devices/" +:+ back))
  end.

Definition deviceLink : Handler := λ r,
  loadDevicePage r (λ session device, withCSRF r session (
    let siblingID := field r "sibling_id" in
    if bool_decide (siblingID = "" ∨ siblingID = vw_ID device) then
      respond (HttpError "Invalid device to link" StatusBadRequest)
    else
      linked ←! zoom (LinkDevices [vw_ID device; siblingID]);
      link_done session linked "Unable to link devices" "device.link.confirmed" (vw_ID device) (vw_ID device))).

Definition deviceUnlink : Handler := λ r,
  loadDevicePage r (λ session device, withCSRF r session (
    let unlinkID := if decide (field r "sibling_id" = "") then vw_ID device else field r "sibling_id" in
    unlinked ←! zoom (UnlinkDevice unlinkID);
    link_done session unlinked "Unable to unlink device" "device.link.removed" unlinkID (vw_ID device))).

Definition deviceLinkDismiss : Handler := λ r,
  loadDevicePage r (λ session device, withCSRF r session (
    let siblingID := field r "sibling_id" in
    if bool_decide (siblingID = "" ∨ siblingID = vw_ID device) then
      respond (HttpError "Invalid device to dismiss" StatusBadRequest)
    else
      dismissed ←! zoom (DismissDeviceLinkSuggestion (vw_ID device) siblingID);
      match dismissed with
      | Err _ => server_error "Unable to dismiss suggestion"
      | Ok _ =>
          _ ←! audit (u_ID (se_User session)) "device.link.dismissed" "device" (vw_ID device);
          respond (Redirect ("/devices/" +:+ vw_ID device))
      end)).

(** ** The search *)

Definition search : Handler := λ r,
  requireSession r (λ _,
    let query := trim_space (default "" (rq_Query r !! "q")) in
    if decide (query = "") then respond (Page "search.html" "Search" "" "")
    else listed (Search by_cidr by_address by_mac by_name query) "Unable to run search"
           (respond (Page "search.html" "Search" "" ""))).
End pages.
