(* ===== verification/Batch.v ===== *)
(** * Pages that change many records

    The bulk edits of [internal/app/bulk.go], the custom-field definitions of
    [internal/app/custom_fields.go], and the import and export handlers of
    [internal/app/portability.go] and [internal/app/netbox.go]. *)

From S2P Require Import Prelude GoStrings GoTime Json Process Scans Queue Inventory Import Records Bulk Portability Listings Lockout Accounts Web Users Pages.
Local Open Scope Z_scope.

(** ** Bulk requests *)

Record bulkRequest : Type := MkBulkRequest
  { bq_Action : string; bq_IDs : list string; bq_State : string; bq_Tag : string; bq_VLAN : option Z;
    bq_Confirmed : bool; bq_SubnetID : string }.

Definition bulkActions : list (string * list string) :=
  [("subnets", ["set_vlan"; "tag_add"; "tag_remove"; "delete"]);
   ("addresses", ["set_state"; "tag_add"; "tag_remove"; "clear_device"; "delete"]);
   ("devices", ["tag_add"; "tag_remove"; "delete"])].

Definition allowed_actions (entity : string) : option (list string) :=
  (λ p, p.2.2) <$> list_find (λ p, p.1 = entity) bulkActions.

(** [form.Get(name)] and [form[name]]. *)
Definition form_get (form : gmap string (list string)) (name : string) : string := default "" (form !! name ≫= head).
Definition form_all (form : gmap string (list string)) (name : string) : list string := default [] (form !! name).

(** The value an action carries: the state, the VLAN or the tag. *)
Definition bulk_value (form : gmap string (list string)) (action : string) (req : bulkRequest) :
    result string bulkRequest :=
  let set state tag vlan :=
    MkBulkRequest (bq_Action req) (bq_IDs req) state tag vlan (bq_Confirmed req) (bq_SubnetID req) in
  if decide (action = "set_state") then
    let state := trim_space (form_get form "state") in
    if validAddressState state then Ok (set state "" None) else Err "Choose a valid address state."
  else if decide (action = "set_vlan") then
    match ParseVLAN (form_get form "vlan") with
    | Ok vlan => Ok (set "" "" vlan)
    | Err _ => Err "VLAN must be between 1 and 4094"
    end
  else if decide (action = "tag_add" ∨ action = "tag_remove") then
    let tag := trim_space (form_get form "tag") in
    if decide (tag = "") then Err "Enter a tag name."
    else if (60 <? slen tag)%nat then Err "Tag names are limited to 60 characters."
    else Ok (set "" tag None)
  else Ok req.

Definition parseBulkRequest (form : gmap string (list string)) (entity : string) : result string bulkRequest :=
  match allowed_actions entity with
  | None => Err "unknown bulk entity"
  | Some allowed =>
      let ids := filter (λ id, id ≠ "") (map trim_space (form_all form "ids")) in
      let action := trim_space (form_get form "action") in
      if decide (ids = []) then Err "Select at least one row first."
      else if decide (action = "") then Err "Choose a bulk action."
      else if negb (bool_decide (action ∈ allowed)) then Err "That action is not available here."
      else
        bulk_value form action
          (MkBulkRequest action ids "" "" None (bool_decide (form_get form "confirmed" = "1"))
             (trim_space (form_get form "subnet_id")))
  end.

Definition countSubject (n : Z) (noun : string) : string :=
  itoa n +:+ " " +:+ noun +:+ (if n =? 1 then "" else "s").

Section batch.
Context {env : Env} {app : App}.

(** [json.Marshal] of the counts and, when there is one, the value. *)
Definition auditBulk (session : Session) (action subjectType : string) (selected affected : Z) (value : string) :
    Go Database unit :=
  audit_log (actor session) action subjectType ""
    (Marshal_map ([("selected", JInt selected); ("affected", JInt affected)] ++
                  (if decide (value = "") then [] else [("value", JString value)]))).

(** The page that asks before a bulk delete: what it names, and the ids it carries. *)
Definition renderBulkDeleteConfirm (title subject : string) (ids : list string) : Go Database Response :=
  respond (Showing "confirm.html" title "" [subject; join "," ids]).

(** A bulk request once the form is parsed: refused, to be confirmed, or applied by
    [apply], which gives the count, the audit action and its value. *)
Definition bulk_handler (r : Request) (session : Session) (entity noun title subjectType : string)
    (refuse : string → string → Go Database Response) (return_to : bulkRequest → string)
    (apply : bulkRequest → GoE Inventory Z) (label : bulkRequest → string * string) : Go Database Response :=
  withCSRF r session (withForm r (
    match parseBulkRequest (rq_Form r) entity with
    | Err message => refuse (field r "subnet_id") message
    | Ok req =>
        let selected := Z.of_nat (length (bq_IDs req)) in
        if bool_decide (bq_Action req = "delete") && negb (bq_Confirmed req) then
          renderBulkDeleteConfirm title (countSubject selected noun) (bq_IDs req)
        else
          count ←! zoom (apply req);
          match count with
          | Err _ => refuse (bq_SubnetID req) "Unable to apply that bulk action."
          | Ok count =>
              _ ←! auditBulk session (label req).1 subjectType selected count (label req).2;
              respond (Redirect (return_to req))
          end
    end)).

Definition no_change : GoE Inventory Z := Ret (Ok 0).

Definition subnets_apply (req : bulkRequest) : GoE Inventory Z :=
  if decide (bq_Action req = "set_vlan") then BulkSetSubnetVLAN (bq_IDs req) (bq_VLAN req)
  else if decide (bq_Action req = "tag_add") then BulkAddTag "subnet" (bq_IDs req) (bq_Tag req)
  else if decide (bq_Action req = "tag_remove") then BulkRemoveTag "subnet" (bq_IDs req) (bq_Tag req)
  else if decide (bq_Action req = "delete") then BulkDeleteSubnets (bq_IDs req)
  else no_change.
Definition subnets_label (req : bulkRequest) : string * string :=
  if decide (bq_Action req = "set_vlan") then
    ("subnet.bulk_vlan_set", match bq_VLAN req with Some n => itoa n | None => "cleared" end)
  else if decide (bq_Action req = "tag_add") then ("subnet.bulk_tag_added", bq_Tag req)
  else if decide (bq_Action req = "tag_remove") then ("subnet.bulk_tag_removed", bq_Tag req)
  else if decide (bq_Action req = "delete") then ("subnet.bulk_deleted", "")
  else ("", "").

Definition subnetsBulk : Handler := λ r,
  requireSession r (λ session,
    bulk_handler r session "subnets" "subnet" "Delete subnets" "subnet" (λ _, renderSubnetsError) (λ _, "/subnets")
      subnets_apply subnets_label).

Definition renderAddressesBulkError (subnetID message : string) : Go Database Response :=
  if decide (subnetID = "") then respond (HttpError message StatusBadRequest)
  else
    subnet ←! zoom (GetSubnet subnetID);
    match subnet with
    | Ok subnet => renderSubnetDetailError subnet message
    | Err _ => respond (HttpError message StatusBadRequest)
    end.

Definition addresses_apply (req : bulkRequest) : GoE Inventory Z :=
  if decide (bq_Action req = "set_state") then BulkSetAddressState (bq_IDs req) (bq_State req)
  else if decide (bq_Action req = "clear_device") then BulkClearAddressDevice (bq_IDs req)
  else if decide (bq_Action req = "tag_add") then BulkAddTag "ip_address" (bq_IDs req) (bq_Tag req)
  else if decide (bq_Action req = "tag_remove") then BulkRemoveTag "ip_address" (bq_IDs req) (bq_Tag req)
  else if decide (bq_Action req = "delete") then BulkDeleteAddresses (bq_IDs req)
  else no_change.
Definition addresses_label (req : bulkRequest) : string * string :=
  if decide (bq_Action req = "set_state") then ("address.bulk_state_set", bq_State req)
  else if decide (bq_Action req = "clear_device") then ("address.bulk_device_cleared", "")
  else if decide (bq_Action req = "tag_add") then ("address.bulk_tag_added", bq_Tag req)
  else if decide (bq_Action req = "tag_remove") then ("address.bulk_tag_removed", bq_Tag req)
  else if decide (bq_Action req = "delete") then ("address.bulk_deleted", "")
  else ("", "").

Definition addressesBulk : Handler := λ r,
  requireSession r (λ session,
    bulk_handler r session "addresses" "address" "Remove addresses" "ip_address" renderAddressesBulkError
      (λ req, if decide (bq_SubnetID req = "") then "/subnets" else "/subnets/" +:+ bq_SubnetID req)
      addresses_apply addresses_label).

Definition devices_apply (req : bulkRequest) : GoE Inventory Z :=
  if decide (bq_Action req = "tag_add") then BulkAddTag "device" (bq_IDs req) (bq_Tag req)
  else if decide (bq_Action req = "tag_remove") then BulkRemoveTag "device" (bq_IDs req) (bq_Tag req)
  else if decide (bq_Action req = "delete") then BulkDeleteDevices (bq_IDs req)
  else no_change.
Definition devices_label (req : bulkRequest) : string * string :=
  if decide (bq_Action req = "tag_add") then ("device.bulk_tag_added", bq_Tag req)
  else if decide (bq_Action req = "tag_remove") then ("device.bulk_tag_removed", bq_Tag req)
  else if decide (bq_Action req = "delete") then ("device.bulk_deleted", "")
  else ("", "").

Definition devicesBulk : Handler := λ r,
  requireSession r (λ session,
    bulk_handler r session "devices" "device" "Delete devices" "device" (λ _, renderDevicesError) (λ _, "/devices")
      devices_apply devices_label).

(** ** Custom fields *)

Definition customFieldsNotice (r : Request) : string :=
  notice_of r [("created", "Custom field created."); ("deleted", "Custom field deleted.")].

Definition renderCustomFieldsTab (errMsg notice : string) : Go Database Response :=
  listed (ListAllCustomFieldDefs by_name) "Unable to load custom fields" (
    respond (Page "settings.html" "Settings" errMsg notice)).

Definition settingsCustomFields : Handler := λ r,
  requireAdmin r (λ _, renderCustomFieldsTab "" (customFieldsNotice r)).

Definition customFieldCreate : Handler := λ r,
  requireAdmin r (λ session, withCSRF r session (withForm r (
    let entityType := field r "entity_type" in
    let name := field r "name" in
    if negb (ValidCustomFieldEntityType entityType) then renderCustomFieldsTab "Choose what the field applies to." ""
    else if decide (name = "") then renderCustomFieldsTab "Enter a field name." ""
    else
      def ←! zoom (CreateCustomFieldDef lower entityType name);
      match def with
      | Err ErrDuplicate => renderCustomFieldsTab "A field with that name already exists for that type." ""
      | Err _ => renderCustomFieldsTab "Unable to create the field." ""
      | Ok (id, d) =>
          _ ←! auditMeta (actor session) "custom_field.created" "custom_field" id
                 [("entity_type", cf_EntityType d); ("name", cf_Name d)];
          respond (Redirect "/settings/custom-fields?notice=created")
      end))).

Definition loadCustomFieldDef (r : Request) (next : Session → string * CustomFieldDef → Go Database Response) :
    Go Database Response :=
  requireAdmin r (λ session,
    loaded (GetCustomFieldDef (rq_PathValue r)) "Unable to load custom field" (next session)).

Definition customFieldDeleteConfirm : Handler := λ r, loadCustomFieldDef r (λ _ _, confirm "Delete Custom Field").

Definition customFieldDelete : Handler := λ r,
  loadCustomFieldDef r (λ session def, withCSRF r session (
    deleted ←! zoom (DeleteCustomFieldDef def.1);
    match deleted with
    | Err _ => server_error "Unable to delete the field"
    | Ok _ =>
        _ ←! auditMeta (actor session) "custom_field.deleted" "custom_field" def.1
               [("entity_type", cf_EntityType def.2); ("name", cf_Name def.2)];
        respond (Redirect "/settings/custom-fields?notice=deleted")
    end)).

(** ** Import *)

Definition validImportType (entity : string) : bool := bool_decide (entity ∈ ["subnets"; "addresses"; "devices"]).

Definition importAuditNames (entity : string) : string * string :=
  if decide (entity = "subnets") then ("subnet", "subnet")
  else if decide (entity = "addresses") then ("address", "ip_address")
  else if decide (entity = "devices") then ("device", "device")
  else (entity, entity).

Definition redirectForImport (entity : string) : string :=
  if decide (entity = "devices") then "/devices" else "/subnets".

Definition import_page (error : string) : Go Database Response :=
  respond (Page "import.html" "Import / Export" error "").
Definition importIndex : Handler := λ r, requireSession r (λ _, import_page "").

Definition importPreview : Handler := λ r,
  requireSession r (λ session, withCSRF r session (
    if negb (validImportType (rq_PathValue r)) then respond NotFoundPage
    else if rq_UploadError r then respond (HttpError "Unable to read upload" StatusBadRequest)
    else match rq_File r with
         | None => import_page "Choose a CSV file to upload."
         | Some None => import_page "Unable to read the uploaded file."
         | Some (Some content) =>
             validated ←! zoom (validateImport site_name by_cidr by_address by_name (rq_PathValue r) content
                                  (normalizeImportFormat (FormValue r "format")));
             respond (Preview validated.1)
         end)).

Definition importApply : Handler := λ r,
  requireSession r (λ session, withCSRF r session (
    let entity := rq_PathValue r in
    if negb (validImportType entity) then respond NotFoundPage
    else withForm r (
      applied ←! zoom (apply_import site_name by_cidr by_address by_name inet_in cidr_in entity (FormValue r "csv")
                         (normalizeImportFormat (FormValue r "format")));
      if negb (applied.2 : bool) then respond (Preview applied.1)
      else
        let '(prefix, subjectType) := importAuditNames entity in
        _ ←! audit_log (actor session) (prefix +:+ ".csv_imported") subjectType ""
               (Marshal_map [("created", JInt (res_Created applied.1)); ("updated", JInt (res_Updated applied.1));
                             ("format", JString (res_Format applied.1))]);
        respond (Redirect (redirectForImport entity))))).

(** ** Export *)

Definition export_handler {A} (rows : GoE Inventory A) (message filename action subjectType : string)
    (file : A → string) : Handler := λ r,
  requireSession r (λ session,
    rows ←! zoom rows;
    match rows with
    | Err _ => server_error message
    | Ok rows =>
        _ ←! audit (u_ID (se_User session)) action subjectType "";
        respond (Download filename (file rows))
    end).

Definition export_addresses := ListAddressesForExport by_address.

Definition exportSubnetsCSV : Handler :=
  export_handler list_subnets "Unable to export subnets" "subnets.csv" "subnet.csv_exported" "subnet"
    (subnets_csv site_name).
Definition exportAddressesCSV : Handler :=
  export_handler export_addresses "Unable to export addresses" "addresses.csv" "address.csv_exported" "ip_address"
    addresses_csv.
Definition exportDevicesCSV : Handler :=
  export_handler list_devices "Unable to export devices" "devices.csv" "device.csv_exported" "device" devices_csv.
Definition exportSubnetsNetBox : Handler :=
  export_handler list_subnets "Unable to export subnets" "prefixes-netbox.csv" "subnet.csv_exported" "subnet"
    (subnets_netbox site_name).
Definition exportAddressesNetBox : Handler :=
  export_handler export_addresses "Unable to export addresses" "ip-addresses-netbox.csv" "address.csv_exported"
    "ip_address" addresses_netbox.
Definition exportDevicesNetBox : Handler :=
  export_handler list_devices "Unable to export devices" "devices-netbox.csv" "device.csv_exported" "device"
    devices_netbox.
End batch.
