(* ===== verification/Api.v ===== *)
(** * The machine API and its client

    [internal/app/api.go]: bearer tokens, and subnets, addresses and devices as
    JSON; and the request bodies of [cmd/lightipam-cli]. *)

From S2P Require Import Prelude GoStrings Ipam GoTime Process Scans Queue Inventory Records Portability Listings Lockout Secrets Json Accounts Web Users Pages.
Local Open Scope Z_scope.

(** ** Shapes *)

Record subnetReq : Type := MkSubnetReq
  { sq_CIDR : string; sq_Name : string; sq_VLAN : option Z; sq_SiteID : string; sq_Description : string }.
Record addressReq : Type := MkAddressReq
  { aq_Address : string; aq_State : string; aq_Hostname : string; aq_DeviceID : string; aq_Notes : string }.
Record deviceReq : Type := MkDeviceReq { vq_Name : string; vq_Description : string }.

Definition subnet_fields : list string := ["cidr"; "name"; "vlan"; "site_id"; "description"].
Definition address_fields : list string := ["address"; "state"; "hostname"; "device_id"; "notes"].
Definition device_fields : list string := ["name"; "description"].

Definition set_subnet_field (n : string) (v : scalar) (q : subnetReq) : option subnetReq :=
  if decide (n = "cidr") then
    t ← into_string v (sq_CIDR q); Some (MkSubnetReq t (sq_Name q) (sq_VLAN q) (sq_SiteID q) (sq_Description q))
  else if decide (n = "name") then
    t ← into_string v (sq_Name q); Some (MkSubnetReq (sq_CIDR q) t (sq_VLAN q) (sq_SiteID q) (sq_Description q))
  else if decide (n = "vlan") then
    t ← into_int_pointer v; Some (MkSubnetReq (sq_CIDR q) (sq_Name q) t (sq_SiteID q) (sq_Description q))
  else if decide (n = "site_id") then
    t ← into_string v (sq_SiteID q); Some (MkSubnetReq (sq_CIDR q) (sq_Name q) (sq_VLAN q) t (sq_Description q))
  else
    t ← into_string v (sq_Description q); Some (MkSubnetReq (sq_CIDR q) (sq_Name q) (sq_VLAN q) (sq_SiteID q) t).

Definition set_address_field (n : string) (v : scalar) (q : addressReq) : option addressReq :=
  if decide (n = "address") then
    t ← into_string v (aq_Address q); Some (MkAddressReq t (aq_State q) (aq_Hostname q) (aq_DeviceID q) (aq_Notes q))
  else if decide (n = "state") then
    t ← into_string v (aq_State q); Some (MkAddressReq (aq_Address q) t (aq_Hostname q) (aq_DeviceID q) (aq_Notes q))
  else if decide (n = "hostname") then
    t ← into_string v (aq_Hostname q); Some (MkAddressReq (aq_Address q) (aq_State q) t (aq_DeviceID q) (aq_Notes q))
  else if decide (n = "device_id") then
    t ← into_string v (aq_DeviceID q); Some (MkAddressReq (aq_Address q) (aq_State q) (aq_Hostname q) t (aq_Notes q))
  else
    t ← into_string v (aq_Notes q); Some (MkAddressReq (aq_Address q) (aq_State q) (aq_Hostname q) (aq_DeviceID q) t).

Definition set_device_field (n : string) (v : scalar) (q : deviceReq) : option deviceReq :=
  if decide (n = "name") then t ← into_string v (vq_Name q); Some (MkDeviceReq t (vq_Description q))
  else t ← into_string v (vq_Description q); Some (MkDeviceReq (vq_Name q) t).

Definition decode_subnet : string → option subnetReq :=
  decode_struct subnet_fields set_subnet_field (MkSubnetReq "" "" None "" "").
Definition decode_address : string → option addressReq :=
  decode_struct address_fields set_address_field (MkAddressReq "" "" "" "" "").
Definition decode_device : string → option deviceReq :=
  decode_struct device_fields set_device_field (MkDeviceReq "" "").

Definition subnetToJSON (s : SubnetView) : json :=
  JObject [("id", JString (sv_ID s)); ("cidr", JString (sv_CIDR s)); ("name", JString (sv_Name s));
           ("vlan", match sv_VLAN s with Some n => JInt n | None => JNull end); ("site_id", JString (sv_SiteID s));
           ("description", JString (sv_Description s)); ("address_count", JInt (sv_AddressCount s))].
Definition addressToJSON (a : IPAddress) : json :=
  JObject [("id", JString (ip_ID a)); ("subnet_id", JString (ip_SubnetID a)); ("address", JString (ip_Address a));
           ("state", JString (ip_State a)); ("hostname", JString (ip_Hostname a));
           ("device_id", JString (ip_DeviceID a)); ("notes", JString (ip_Notes a))].
Definition deviceToJSON (d : DeviceView) : json :=
  JObject [("id", JString (vw_ID d)); ("name", JString (dv_Name (vw_Row d)));
           ("description", JString (dv_Description (vw_Row d)))].

(** ** Inputs *)

Definition subnet_input (q : subnetReq) : result string SubnetInput :=
  match NormalizeCIDR (trim_space (sq_CIDR q)) with
  | Err _ => Err "cidr must be a valid IPv4 CIDR such as 192.168.10.0/24."
  | Ok cidr =>
      if decide (trim_space (sq_Name q) = "") then Err "name is required."
      else if match sq_VLAN q with Some n => (n <? 1) || (4094 <? n) | None => false end
      then Err "vlan must be between 1 and 4094."
      else
        let siteID := trim_space (sq_SiteID q) in
        Ok (MkSubnetInput (if decide (siteID = "") then "default" else siteID) cidr (trim_space (sq_Name q))
              (sq_VLAN q) (sq_Description q))
  end.

Definition address_input (q : addressReq) : result string AddressInput :=
  match NormalizeIPv4 (trim_space (aq_Address q)) with
  | Err _ => Err "address must be a valid IPv4 address."
  | Ok address =>
      let state := if decide (trim_space (aq_State q) = "") then "assigned" else trim_space (aq_State q) in
      if negb (validAddressState state)
      then Err "state must be available, reserved, assigned, deprecated, or conflict."
      else Ok (MkAddressInput address state (trim_space (aq_DeviceID q)) (aq_Hostname q) (aq_Notes q))
  end.

Definition device_input (q : deviceReq) : result string DeviceInput :=
  if decide (trim_space (vq_Name q) = "") then Err "name is required."
  else Ok (MkDeviceInput (trim_space (vq_Name q)) (vq_Description q)).

Section api.
Context {env : Env} {app : App}.

(** ** Answers *)

Definition apiError (status : Z) (msg : string) : Go Database Response :=
  respond (Reply status (JObject [("error", JString msg)])).

Definition apiMethodNotAllowed : Handler := λ _, apiError 405 "method not allowed".

(** [if apiHandleStoreErr(w, err) { return }]. *)
Definition stored {A} (found : result db_error A) (next : A → Go Database Response) : Go Database Response :=
  match found with
  | Ok a => next a
  | Err ErrNotFound => apiError 404 "Not found."
  | Err _ => apiError 500 "Internal error."
  end.

(** The body as a request, and the request as an input. *)
Definition decoded {A} (q : option A) (next : A → Go Database Response) : Go Database Response :=
  match q with Some q => next q | None => apiError 400 "Invalid JSON body." end.
Definition valid_input {A} (input : result string A) (next : A → Go Database Response) : Go Database Response :=
  match input with Ok a => next a | Err msg => apiError 400 msg end.

(** ** Tokens *)

(** [len(header) > len("Bearer ") && EqualFold(header[:7], "Bearer ")]. *)
Definition bearer_token (header : string) : option string :=
  if (7 <? slen header)%nat && bool_decide (to_lower (take_bytes 7 header) = "bearer ") then
    let token := trim_space (str_of_list (drop 7 (str_to_list header))) in
    if decide (token = "") then None else Some token
  else None.

Definition authenticateAPI (r : Request) : Go Database (option User) :=
  match bearer_token (rq_Authorization r) return Go Database (option User) with
  | None => Ret None
  | Some token =>
      user ←! AuthenticateAPIToken (HashToken token);
      Ret (match user with Ok u => Some u | Err _ => None end)
  end.

Definition apiHandler (write : bool) (fn : Request → User → Go Database Response) : Handler := λ r,
  user ←! authenticateAPI r;
  match user with
  | None => apiError 401 "Provide a valid API token in the Authorization: Bearer header."
  | Some user =>
      if write && negb (canWrite (u_Role user)) then apiError 403 "This token is read-only (viewer role)."
      else fn r user
  end.

Definition api_actor (user : User) : option string := Some (u_ID user).

Definition apiWhoami (_ : Request) (user : User) : Go Database Response :=
  respond (Reply 200 (JObject [("can_write", JBool (canWrite (u_Role user))); ("id", JString (u_ID user));
                               ("role", JString (u_Role user)); ("username", JString (u_Username user))])).

(** ** Subnets *)

Definition apiListSubnets (_ : Request) (_ : User) : Go Database Response :=
  subnets ←! zoom list_subnets;
  stored subnets (λ subnets, respond (Reply 200 (JObject [("subnets", JArray (map subnetToJSON subnets))]))).

Definition apiGetSubnet (r : Request) (_ : User) : Go Database Response :=
  s ←! zoom (GetSubnet (rq_PathValue r));
  stored s (λ s, respond (Reply 200 (subnetToJSON s))).

Definition audit_subnet (user : User) (action : string) (s : SubnetView) : Go Database unit :=
  auditMeta (api_actor user) action "subnet" (sv_ID s) [("cidr", sv_CIDR s); ("name", sv_Name s)].

Definition apiCreateSubnet (r : Request) (user : User) : Go Database Response :=
  decoded (decode_subnet (rq_Body r)) (λ req, valid_input (subnet_input req) (λ input,
    s ←! zoom (CreateSubnet cidr_in input);
    match s with
    | Err e => apiError 400 (subnetError e)
    | Ok s => _ ←! audit_subnet user "subnet.created" s; respond (Reply 201 (subnetToJSON s))
    end)).

Definition apiUpdateSubnet (r : Request) (user : User) : Go Database Response :=
  decoded (decode_subnet (rq_Body r)) (λ req, valid_input (subnet_input req) (λ input,
    s ←! zoom (UpdateSubnet cidr_in (rq_PathValue r) input);
    match s with
    | Err ErrNotFound => apiError 404 "Not found."
    | Err e => apiError 400 (subnetError e)
    | Ok s => _ ←! audit_subnet user "subnet.updated" s; respond (Reply 200 (subnetToJSON s))
    end)).

(** A deletion by id, audited. *)
Definition api_delete (delete : string → GoE Inventory unit) (action subjectType : string)
    (r : Request) (user : User) : Go Database Response :=
  deleted ←! zoom (delete (rq_PathValue r));
  stored deleted (λ _, _ ←! audit (u_ID user) action subjectType (rq_PathValue r); respond NoContent).

Definition apiDeleteSubnet := api_delete DeleteSubnet "subnet.deleted" "subnet".

(** ** Addresses *)

Definition apiListAddresses (r : Request) (_ : User) : Go Database Response :=
  subnet ←! zoom (GetSubnet (rq_PathValue r));
  stored subnet (λ subnet,
    addresses ←! zoom (list_addresses (sv_ID subnet));
    stored addresses (λ addresses,
      respond (Reply 200 (JObject [("addresses", JArray (map addressToJSON addresses))])))).

Definition apiGetAddress (r : Request) (_ : User) : Go Database Response :=
  addr ←! zoom (GetAddress (rq_PathValue r));
  stored addr (λ addr, respond (Reply 200 (addressToJSON addr))).

Definition audit_address (user : User) (action : string) (a : IPAddress) : Go Database unit :=
  auditMeta (api_actor user) action "ip_address" (ip_ID a) [("address", ip_Address a); ("hostname", ip_Hostname a)].

Definition apiCreateAddress (r : Request) (user : User) : Go Database Response :=
  subnet ←! zoom (GetSubnet (rq_PathValue r));
  stored subnet (λ subnet,
    decoded (decode_address (rq_Body r)) (λ req, valid_input (address_input req) (λ input,
      addr ←! zoom (CreateAddress inet_in subnet input);
      match addr with
      | Err e => apiError 400 (addressError e)
      | Ok addr => _ ←! audit_address user "address.created" addr; respond (Reply 201 (addressToJSON addr))
      end))).

Definition apiUpdateAddress (r : Request) (user : User) : Go Database Response :=
  existing ←! zoom (GetAddress (rq_PathValue r));
  stored existing (λ existing,
    subnet ←! zoom (GetSubnet (ip_SubnetID existing));
    stored subnet (λ subnet,
      decoded (decode_address (rq_Body r)) (λ req, valid_input (address_input req) (λ input,
        addr ←! zoom (UpdateAddress inet_in (ip_ID existing) subnet input);
        match addr with
        | Err e => apiError 400 (addressError e)
        | Ok addr => _ ←! audit_address user "address.updated" addr; respond (Reply 200 (addressToJSON addr))
        end)))).

Definition apiDeleteAddress := api_delete DeleteAddress "address.deleted" "ip_address".

(** ** Devices *)

Definition apiListDevices (_ : Request) (_ : User) : Go Database Response :=
  devices ←! zoom list_devices;
  stored devices (λ devices, respond (Reply 200 (JObject [("devices", JArray (map deviceToJSON devices))]))).

Definition apiGetDevice (r : Request) (_ : User) : Go Database Response :=
  d ←! zoom (GetDevice (rq_PathValue r));
  stored d (λ d, respond (Reply 200 (deviceToJSON d))).

Definition audit_device (user : User) (action : string) (d : DeviceView) : Go Database unit :=
  auditMeta (api_actor user) action "device" (vw_ID d) [("name", dv_Name (vw_Row d))].

Definition apiCreateDevice (r : Request) (user : User) : Go Database Response :=
  decoded (decode_device (rq_Body r)) (λ req, valid_input (device_input req) (λ input,
    d ←! zoom (CreateDevice input);
    stored d (λ d, _ ←! audit_device user "device.created" d; respond (Reply 201 (deviceToJSON d))))).

Definition apiUpdateDevice (r : Request) (user : User) : Go Database Response :=
  decoded (decode_device (rq_Body r)) (λ req, valid_input (device_input req) (λ input,
    d ←! zoom (UpdateDevice (rq_PathValue r) input);
    stored d (λ d, _ ←! audit_device user "device.updated" d; respond (Reply 200 (deviceToJSON d))))).

Definition apiDeleteDevice := api_delete DeleteDevice "device.deleted" "device".

(** ** Routes *)

(** The handlers of [registerAPIRoutes]: method, pattern, handler. *)
Definition api_routes : list (string * string * Handler) :=
  [("GET", "/api/v1/whoami", apiHandler false apiWhoami);
   ("GET", "/api/v1/subnets", apiHandler false apiListSubnets);
   ("POST", "/api/v1/subnets", apiHandler true apiCreateSubnet);
   ("GET", "/api/v1/subnets/{id}", apiHandler false apiGetSubnet);
   ("PUT", "/api/v1/subnets/{id}", apiHandler true apiUpdateSubnet);
   ("DELETE", "/api/v1/subnets/{id}", apiHandler true apiDeleteSubnet);
   ("GET", "/api/v1/subnets/{id}/addresses", apiHandler false apiListAddresses);
   ("POST", "/api/v1/subnets/{id}/addresses", apiHandler true apiCreateAddress);
   ("GET", "/api/v1/addresses/{id}", apiHandler false apiGetAddress);
   ("PUT", "/api/v1/addresses/{id}", apiHandler true apiUpdateAddress);
   ("DELETE", "/api/v1/addresses/{id}", apiHandler true apiDeleteAddress);
   ("GET", "/api/v1/devices", apiHandler false apiListDevices);
   ("POST", "/api/v1/devices", apiHandler true apiCreateDevice);
   ("GET", "/api/v1/devices/{id}", apiHandler false apiGetDevice);
   ("PUT", "/api/v1/devices/{id}", apiHandler true apiUpdateDevice);
   ("DELETE", "/api/v1/devices/{id}", apiHandler true apiDeleteDevice)].

Definition apiMethods : list string := ["GET"; "POST"; "PUT"; "DELETE"; "PATCH"].

(** [registerAPIMethodNotAllowed] on one pattern. *)
Definition not_allowed (pattern : string) (registered : list string) : list (string * string * Handler) :=
  map (λ m, (m, pattern, apiMethodNotAllowed)) (filter (λ m, m ∉ registered) apiMethods).

Definition api_not_allowed : list (string * string * Handler) :=
  not_allowed "/api/v1/whoami" ["GET"] ++
  not_allowed "/api/v1/subnets" ["GET"; "POST"] ++
  not_allowed "/api/v1/subnets/{id}" ["GET"; "PUT"; "DELETE"] ++
  not_allowed "/api/v1/subnets/{id}/addresses" ["GET"; "POST"] ++
  not_allowed "/api/v1/addresses/{id}" ["GET"; "PUT"; "DELETE"] ++
  not_allowed "/api/v1/devices" ["GET"; "POST"] ++
  not_allowed "/api/v1/devices/{id}" ["GET"; "PUT"; "DELETE"].

Definition registerAPIRoutes : list (string * string * Handler) := api_routes ++ api_not_allowed.
End api.

(** ** The client's bodies *)

(** The flags a command line sets, after [flag]'s parsing: strings and integers
    by field, the last value of each. *)
Definition flag_values : Type := gmap string json.

(** [parseFields]: the fields that were set; none is an error. *)
Definition parseFields (fields : list string) (flags : flag_values) : option (list (string * json)) :=
  match omap (λ f, (λ v, (f, v)) <$> flags !! f) fields with
  | [] => None
  | body => Some body
  end.
(** What [do] sends. *)
Definition cli_body (body : list (string * json)) : string := Marshal_map body.

Example bearer_token_1 : bearer_token "bEarer  lipam_x " = Some "lipam_x".
Proof. vm_compute. reflexivity. Qed.
Example bearer_token_2 : bearer_token "Bearer " = None.
Proof. vm_compute. reflexivity. Qed.
Example decode_subnet_1 :
  decode_subnet (quoted "{'cidr':'10.0.0.0/8','Name':'core','vlan':null,'vlan':7}") =
  Some (MkSubnetReq "10.0.0.0/8" "core" (Some 7) "" "").
Proof. vm_compute. reflexivity. Qed.
Example decode_subnet_2 : decode_subnet (quoted "{'id':'x'}") = None.
Proof. vm_compute. reflexivity. Qed.

(** * The command line against the API

    What [cmd/lightipam-cli] sends is what [internal/app/api.go] decodes: every flag
    that was set, and the zero value for every other. *)

(** The flags as [flag] parses them: integers for [ints], texts for the others. *)
Definition typed_flags (ints : list string) (flags : flag_values) : Prop :=
  ∀ f v, flags !! f = Some v → if decide (f ∈ ints) then ∃ n, v = JInt n ∧ in_int64 n else ∃ t, v = JString t.

(** What the server reads for a flag: a text in valid UTF-8, an integer. *)
Definition text_flag (flags : flag_values) (f : string) : string :=
  match flags !! f with Some (JString t) => to_valid t | _ => "" end.
Definition int_flag (flags : flag_values) (f : string) : option Z :=
  match flags !! f with Some (JInt n) => Some n | _ => None end.

(** Under names that are read back as they are. *)
Definition scalars_of (l : list (string * json)) : option (list (string * scalar)) :=
  mapM (λ p, v ← scalar_of p.2; Some (p.1, v)) l.

Lemma scalars_of_flat l k : map (to_valid ∘ fst) l = map fst l → scalars_of l = Some k → flat l k.
Proof.
  intros Hl Hk. apply mapM_Some_1 in Hk. induction Hk as [|p [key v] l k Hp Hk IH]; [constructor|].
  cbn in Hl, Hp. injection Hl as Hp1 Hl. constructor; [|by apply IH].
  destruct (scalar_of p.2); [|done]. by injection Hp as <- <-.
Qed.

Lemma cli_decodes {R} names (set_field : string → scalar → R → option R) zero body sorted k :
  merge_sort key_le body = sorted → map (to_valid ∘ fst) sorted = map fst sorted → scalars_of sorted = Some k →
  Z.of_nat (slen (cli_body body)) ≤ 2 ^ 20 →
  decode_struct names set_field zero (cli_body body) = set_fields names set_field k zero.
Proof. intros <- Hl Hk. apply decode_struct_text. by apply scalars_of_flat. Qed.

Lemma in_int64b_true n : in_int64 n → in_int64b n = true.
Proof. apply in_int64b_spec. Qed.

(** The flags one by one: set, with a value of its type, or not. *)
Ltac flag_cases Ht flags fields :=
  lazymatch fields with
  | ?f :: ?rest =>
      let v := fresh "v" in let Hv := fresh "Hv" in
      destruct (flags !! f) as [v|] eqn:Hv;
        [apply Ht in Hv as Hv'; cbn in Hv'; destruct Hv' as (? & Hv'); destruct_and? Hv'; subst v|];
      flag_cases Ht flags rest
  | [] => idtac
  end.

Ltac flags_decode Hb Hs :=
  cbn in Hb; simplify_eq;
  match goal with |- ?f _ = _ => unfold f end;
  lazymatch goal with |- decode_struct _ _ _ (cli_body ?b) = _ =>
    let l := eval vm_compute in (merge_sort key_le b) in
    erewrite (cli_decodes _ _ _ b l);
      [|vm_compute; reflexivity|vm_compute; reflexivity|cbn; rewrite ?in_int64b_true by done; reflexivity|exact Hs]
  end;
  cbv -[to_valid itoa atoi]; rewrite ?atoi_itoa by done; reflexivity.

Lemma cli_device flags body :
  typed_flags [] flags → parseFields device_fields flags = Some body → Z.of_nat (slen (cli_body body)) ≤ 2 ^ 20 →
  decode_device (cli_body body) = Some (MkDeviceReq (text_flag flags "name") (text_flag flags "description")).
Proof.
  intros Ht Hb Hs. unfold parseFields, device_fields in Hb. cbn [omap list_omap] in Hb. unfold text_flag.
  flag_cases Ht flags ["name"; "description"]; flags_decode Hb Hs.
Qed.

Lemma cli_address flags body :
  typed_flags [] flags → parseFields address_fields flags = Some body → Z.of_nat (slen (cli_body body)) ≤ 2 ^ 20 →
  decode_address (cli_body body) =
  Some (MkAddressReq (text_flag flags "address") (text_flag flags "state") (text_flag flags "hostname")
          (text_flag flags "device_id") (text_flag flags "notes")).
Proof.
  intros Ht Hb Hs. unfold parseFields, address_fields in Hb. cbn [omap list_omap] in Hb. unfold text_flag.
  flag_cases Ht flags ["address"; "state"; "hostname"; "device_id"; "notes"]; flags_decode Hb Hs.
Qed.

Lemma cli_subnet flags body :
  typed_flags ["vlan"] flags → parseFields subnet_fields flags = Some body → Z.of_nat (slen (cli_body body)) ≤ 2 ^ 20 →
  decode_subnet (cli_body body) =
  Some (MkSubnetReq (text_flag flags "cidr") (text_flag flags "name") (int_flag flags "vlan")
          (text_flag flags "site_id") (text_flag flags "description")).
Proof.
  intros Ht Hb Hs. unfold parseFields, subnet_fields in Hb. cbn [omap list_omap] in Hb. unfold text_flag, int_flag.
  flag_cases Ht flags ["cidr"; "name"; "vlan"; "site_id"; "description"]; flags_decode Hb Hs.
Qed.

(** Whatever flags of their type are set, the server reads from the client's body
    every one of them, in valid UTF-8, and the zero value for each one not set. *)
Theorem cli_read_back flags body :
  Z.of_nat (slen (cli_body body)) ≤ 2 ^ 20 →
  (typed_flags ["vlan"] flags → parseFields subnet_fields flags = Some body →
   decode_subnet (cli_body body) =
   Some (MkSubnetReq (text_flag flags "cidr") (text_flag flags "name") (int_flag flags "vlan")
           (text_flag flags "site_id") (text_flag flags "description"))) ∧
  (typed_flags [] flags → parseFields address_fields flags = Some body →
   decode_address (cli_body body) =
   Some (MkAddressReq (text_flag flags "address") (text_flag flags "state") (text_flag flags "hostname")
           (text_flag flags "device_id") (text_flag flags "notes"))) ∧
  (typed_flags [] flags → parseFields device_fields flags = Some body →
   decode_device (cli_body body) = Some (MkDeviceReq (text_flag flags "name") (text_flag flags "description"))).
Proof. intros Hs. split_and!; intros Ht Hb; [by apply cli_subnet|by apply cli_address|by apply cli_device]. Qed.

Definition renaming : flag_values := {["name" := JString "Office"; "vlan" := JInt 7]}.

Lemma cli_read_back_witness :
  ∃ body, parseFields subnet_fields renaming = Some body ∧
    decode_subnet (cli_body body) = Some (MkSubnetReq "" "Office" (Some 7) "" "").
Proof.
  exists [("name", JString "Office"); ("vlan", JInt 7)].
  assert (parseFields subnet_fields renaming = Some [("name", JString "Office"); ("vlan", JInt 7)]) as Hb by (vm_compute; reflexivity).
  assert (typed_flags ["vlan"] renaming) as Ht.
  { intros f v Hf. change ((<["name" := JString "Office"]> {["vlan" := JInt 7]} : gmap string json) !! f = Some v) in Hf.
    apply lookup_insert_Some in Hf as [[<- <-]|[Hn Hf]]; [by exists "Office"|].
    apply lookup_singleton_Some in Hf as [<- <-]. exists 7. split; [reflexivity|split; vm_compute; discriminate]. }
  assert (Z.of_nat (slen (cli_body [("name", JString "Office"); ("vlan", JInt 7)])) ≤ 2 ^ 20) as Hs by (vm_compute; discriminate).
  split; [exact Hb|].
  pose proof (proj1 (cli_read_back renaming _ Hs) Ht Hb) as H. rewrite H.
  assert (text_flag renaming "cidr" = "" ∧ text_flag renaming "name" = "Office" ∧ int_flag renaming "vlan" = Some 7 ∧
    text_flag renaming "site_id" = "" ∧ text_flag renaming "description" = "") as (-> & -> & -> & -> & ->)
    by (split_and!; vm_compute; reflexivity).
  reflexivity.
Defined.
