(* ===== verification/Demo.v ===== *)
(** * A small installation

    An application, an environment and a database to run handlers on: one
    administrator and one viewer, both signed in, and a few records. *)

From S2P Require Import Prelude GoStrings GoTime Secrets Protocol Process Scans Queue Inventory Import Records Portability Lockout Password Totp Accounts Web.
Local Open Scope Z_scope.

(** No statement is lost, or the [n]-th is. *)
Definition calm_env : Env :=
  {| clock := λ n, (10000 + Z.of_nat n) * second; fault := λ _, false;
     token := λ n, Some (String.concat "" (repeat "t" (S n))); jsonb_in := λ s, Some s |}.
Definition lossy_env (n : nat) : Env :=
  {| clock := λ n, (10000 + Z.of_nat n) * second; fault := λ i, (i =? n)%nat;
     token := λ n, Some (String.concat "" (repeat "t" (S n))); jsonb_in := λ s, Some s |}.

(** A stand-in for AES-GCM: the text itself. *)
Definition plain_aead : AEAD := MkAEAD 1 (λ _ p, map byte_val (map byte_of p)) (λ _ c, Some c).

Definition same_order {A : Type} (l : list A) : list A := l.

#[export] Instance demo_app : App :=
  {| settings := MkSecuritySettings 5 (15 * minute) (15 * minute) (12 * hour) (30 * minute) true;
     sealer := Some plain_aead; IDKey := toy_key;
     inet_in := λ s, Some s; macaddr_in := λ s, Some s; cidr_in := λ s, Some s;
     lower := to_lower; site_name := λ s, s; by_cidr := same_order; by_address := same_order;
     by_mac := same_order; by_name := λ A _ l, l |}.

Definition demo_hash : string := default "" (HashPassword toy_key (Some [1; 2; 3]) "correct horse").
Definition admin_row : UserRow := MkUserRow "alice" demo_hash RoleAdmin true None 0.
Definition viewer_row : UserRow := MkUserRow "victor" demo_hash RoleViewer false None 0.
Definition second_admin : UserRow := MkUserRow "bob" demo_hash RoleAdmin true None 0.

Definition session_row (user csrf : string) : SessionRow :=
  MkSessionRow user csrf (20000 * second) 0 (9999 * second) "10.0.0.9" "".

Definition demo_secret : string := "JBSWY3DPEHPK3PXP".
Definition demo_sealed : string := default "" (Seal plain_aead (Some [7]) demo_secret).

Definition no_accounts : Accounts := MkAccounts ∅ ∅ ∅ [] ∅ [].
Definition no_inventory : Inventory := MkInventory ∅ ∅ ∅ ∅ ∅ ∅ ∅ ∅ ∅ ∅ ∅.

Definition demo_accounts : Accounts :=
  MkAccounts {["a" := admin_row; "b" := second_admin; "v" := viewer_row]}
    {["sa" := session_row "a" "ta"; "sb" := session_row "b" "tb"; "sv" := session_row "v" "tv"]}
    {["a" := MkTOTPRow demo_sealed true (Some 0)]} [MkCodeRow "a" (HashRecoveryCode "AAAAA-AAAAA") None] ∅ [].

Definition demo_device : Device := MkDevice "NAS" "" "" "" "" "" [] "" 0 None.
Definition demo_inventory : Inventory :=
  MkInventory ∅ {["n" := MkSubnet None "10.0.0.0/24" "Office" (Some 7) "ground floor"]} {["d" := demo_device]}
    {["10.0.0.5" := MkAddressRow "i" (Some "n") (Some "d") "assigned" "nas" "" None]} ∅ ∅ ∅ ∅ ∅ ∅ ∅.

Definition demo_world : World Database :=
  MkWorld ∅ {["a" := "Alice"; "b" := "Bob"; "v" := "Victor"]} ∅ ∅ ∅ [] (MkDatabase demo_inventory demo_accounts) [] 0.

(** A request with a session cookie, a wildcard and a form. *)
Definition request (method path value cookie : string) (form : list (string * string)) : Request :=
  MkRequest method path value {[sessionCookie := cookie]} (list_to_map (map (λ p, (p.1, [p.2])) form))
    (list_to_map (map (λ p, (p.1, [p.2])) form)) None false None ∅ "10.0.0.9:51000" "" "" "".
Definition api_request (method value token body : string) : Request :=
  MkRequest method "/api/v1" value ∅ ∅ ∅ None false None ∅ "10.0.0.9:51000" "" ("Bearer " +:+ token) body.
