(* ===== verification/Routes.v ===== *)
(** * Who may change what

    The routes of [internal/app/app.go], and what stands before every change they
    make: a live session whose form token the request carries, an admin's for the
    administration of users and custom fields, and an admin's token for the API. *)

From S2P Require Import Prelude GoStrings Protocol GoTime Process Scans Queue Inventory Import Records Bulk Portability Listings Lockout Password Totp Secrets Accounts Web Signin Users Pages Batch Api Demo.
Local Open Scope Z_scope.

Create HintDb reading.

Section routes.
Context {env : Env} {app : App}.

(** ** Routes *)

Definition route : Type := string * string * Handler.

(** The routes that change the inventory or the user's own account. *)
Definition session_writes : list route :=
  [("POST", "/account/password", accountChangePassword);
   ("POST", "/account/logout-all", accountLogoutAll);
   ("POST", "/account/mfa/enable", mfaEnable);
   ("POST", "/account/mfa/disable", mfaDisable);
   ("POST", "/account/tokens", accountTokenCreate);
   ("POST", "/account/tokens/{id}/delete", accountTokenDelete);
   ("POST", "/settings/security/logout-all", logoutEverywhere);
   ("POST", "/import/{type}", importPreview);
   ("POST", "/import/{type}/apply", importApply);
   ("POST", "/subnets", subnetCreate);
   ("POST", "/subnets/bulk", subnetsBulk);
   ("POST", "/addresses/bulk", addressesBulk);
   ("POST", "/subnets/{id}", subnetUpdate);
   ("POST", "/subnets/{id}/delete", subnetDelete);
   ("POST", "/subnets/{id}/addresses", addressCreate);
   ("POST", "/addresses/{id}", addressUpdate);
   ("POST", "/addresses/{id}/delete", addressDelete);
   ("POST", "/devices", deviceCreate);
   ("POST", "/devices/bulk", devicesBulk);
   ("POST", "/devices/{id}", deviceUpdate);
   ("POST", "/devices/{id}/delete", deviceDelete);
   ("POST", "/devices/{id}/macs", macCreate);
   ("POST", "/devices/{id}/link", deviceLink);
   ("POST", "/devices/{id}/link/dismiss", deviceLinkDismiss);
   ("POST", "/devices/{id}/unlink", deviceUnlink);
   ("POST", "/macs/{id}/delete", macDelete)].

Definition admin_writes : list route :=
  [("POST", "/settings/users", userCreate);
   ("POST", "/settings/users/{id}/role", userSetRole);
   ("POST", "/settings/users/{id}/password", userResetPassword);
   ("POST", "/settings/users/{id}/delete", userDelete);
   ("POST", "/settings/custom-fields", customFieldCreate);
   ("POST", "/settings/custom-fields/{id}/delete", customFieldDelete)].

(** The pages and files. *)
Definition read_routes : list route :=
  [("GET", "/search", search);
   ("GET", "/account", accountIndex);
   ("GET", "/settings/users", settingsUsers);
   ("GET", "/settings/users/{id}/delete", userDeleteConfirm);
   ("GET", "/settings/custom-fields", settingsCustomFields);
   ("GET", "/settings/custom-fields/{id}/delete", customFieldDeleteConfirm);
   ("GET", "/import", importIndex);
   ("GET", "/subnets/export.csv", exportSubnetsCSV);
   ("GET", "/addresses/export.csv", exportAddressesCSV);
   ("GET", "/devices/export.csv", exportDevicesCSV);
   ("GET", "/subnets/export.netbox.csv", exportSubnetsNetBox);
   ("GET", "/addresses/export.netbox.csv", exportAddressesNetBox);
   ("GET", "/devices/export.netbox.csv", exportDevicesNetBox);
   ("GET", "/subnets", subnetsIndex);
   ("GET", "/subnets/new", subnetNew);
   ("GET", "/subnets/{id}", subnetShow);
   ("GET", "/subnets/{id}/edit", subnetEdit);
   ("GET", "/subnets/{id}/delete", subnetDeleteConfirm);
   ("GET", "/addresses/{id}/edit", addressEdit);
   ("GET", "/addresses/{id}/delete", addressDeleteConfirm);
   ("GET", "/devices", devicesIndex);
   ("GET", "/devices/new", deviceNew);
   ("GET", "/devices/{id}", deviceShow);
   ("GET", "/devices/{id}/edit", deviceEdit);
   ("GET", "/devices/{id}/delete", deviceDeleteConfirm);
   ("GET", "/macs/{id}/delete", macDeleteConfirm)].

(** The sign-in routes, and the one page that writes. *)
Definition other_routes : list route :=
  [("GET", "/bootstrap", bootstrapForm); ("POST", "/bootstrap", bootstrapSubmit);
   ("GET", "/login", loginForm); ("POST", "/login", login_handler);
   ("GET", "/login/mfa", mfaChallengeForm); ("POST", "/login/mfa", mfaChallengeSubmit);
   ("POST", "/logout", logout); ("GET", "/account/mfa", mfaSettings)].

Definition all_routes : list route := session_writes ++ admin_writes ++ read_routes ++ other_routes ++ registerAPIRoutes.

Lemma not_allowed_handler (x : route) : x ∈ api_not_allowed → x.2 = apiMethodNotAllowed.
Proof.
  unfold api_not_allowed, not_allowed. rewrite !elem_of_app, !list_elem_of_fmap. intros Hx.
  by repeat destruct Hx as [Hx|Hx]; destruct Hx as (? & -> & _).
Qed.

(** ** Steps that change nothing of substance *)

Definition forget_seen (s : SessionRow) : SessionRow :=
  MkSessionRow (sr_User s) (sr_CSRF s) (sr_Expires s) (sr_Created s) 0 (sr_IP s) (sr_UserAgent s).
Definition forget_used (t : TokenRow) : TokenRow := MkTokenRow (tk_User t) (tk_Name t) (tk_Hash t) None (tk_Created t).

(** Nothing but a further entry of the audit log, and when a session or a token was last
    used, may differ. *)
Record harmless (w w' : World Database) : Prop :=
  { hl_audit : w_audit w `prefix_of` w_audit w'; hl_sites : w_sites w' = w_sites w; hl_names : w_users w' = w_users w; hl_agents : w_agents w' = w_agents w;
    hl_schedules : w_schedules w' = w_schedules w; hl_jobs : w_jobs w' = w_jobs w;
    hl_spawned : w_spawned w' = w_spawned w; hl_inv : db_inv (w_inv w') = db_inv (w_inv w);
    hl_users : ac_users (acc w') = ac_users (acc w); hl_totp : ac_totp (acc w') = ac_totp (acc w);
    hl_codes : ac_codes (acc w') = ac_codes (acc w); hl_attempts : ac_attempts (acc w') = ac_attempts (acc w);
    hl_sessions : forget_seen <$> ac_sessions (acc w') = forget_seen <$> ac_sessions (acc w);
    hl_tokens : forget_used <$> ac_tokens (acc w') = forget_used <$> ac_tokens (acc w) }.

Lemma harmless_bump w : harmless w (bump w).
Proof. by split. Qed.

(** Reads leave everything as it is. *)
Definition reads {Inv A} (p : Go Inv A) : Prop := guarantees (λ w w', w' = bump w) p.

Lemma reads_stmt {Inv A} (f : Z → World Inv → result db_error (A * World Inv)) :
  (∀ now w a w', f now w = Ok (a, w') → w' = w) → reads (stmt f).
Proof.
  intros Hf. apply guarantees_atomic. intros w. unfold run_stmt. destruct (fault (w_step w)); [done|].
  destruct (f _ (bump w)) as [[a w']|e] eqn:Hfw; [|done]. by apply Hf in Hfw.
Qed.

Lemma reads_bind {Inv A B} (p : Go Inv A) (h : A → Go Inv B) : reads p → (∀ a, reads (h a)) → reads (prog_bind h p).
Proof. apply guarantees_bind. Qed.

Lemma reads_try {Inv A B} (p : GoE Inv A) (h : A → GoE Inv B) : reads p → (∀ a, reads (h a)) → reads (try_bind p h).
Proof. intros Hp Hh. apply reads_bind; [done|]. by intros [a|e]. Qed.

Lemma reads_zoom {A} (p : Go Inventory A) : reads p → reads (zoom p).
Proof.
  unfold reads. induction p as [a|g k IH]; [done|]. intros Hp w. destruct (Hp (to_inventory w)) as [Hg Hk].
  split; [|by apply IH]. rewrite Hg. by destruct w as [? ? ? ? ? ? []].
Qed.

Lemma reads_harmless {A} (p : Go Database A) : reads p → guarantees harmless p.
Proof. induction p as [a|g k IH]; [done|]. intros Hp w. destruct (Hp w) as [-> Hk]. split; [apply harmless_bump|by apply IH]. Qed.

Lemma reads_time {Inv} : reads (time_now (Inv := Inv)).
Proof. by apply guarantees_atomic. Qed.
Lemma reads_token {Inv} : reads (random_token (Inv := Inv)).
Proof. by apply guarantees_atomic. Qed.

(** The statements that only look. *)
Ltac by_reading :=
  apply reads_stmt; intros ? ? ? ? Hread; cbn zeta in Hread; unfold mbind, result_bind in Hread;
  repeat (case_match; simplify_eq/=; try done); by simplify_eq/=.

Lemma GetSubnet_reads id : reads (GetSubnet id).
Proof. by_reading. Qed.
Lemma GetDevice_reads id : reads (GetDevice id).
Proof. by_reading. Qed.
Lemma GetAddress_reads id : reads (GetAddress id).
Proof. by_reading. Qed.
Lemma GetMACAddress_reads id : reads (GetMACAddress id).
Proof. by_reading. Qed.
Lemma GetCustomFieldDef_reads id : reads (GetCustomFieldDef id).
Proof. by_reading. Qed.
Lemma GetUser_reads id : reads (GetUser id).
Proof. by_reading. Qed.
Lemma CustomFieldValues_reads entityType id : reads (CustomFieldValues entityType id).
Proof. by_reading. Qed.
Lemma GetUserTOTP_reads id : reads (GetUserTOTP id).
Proof. by_reading. Qed.
Lemma ListSites_reads : reads list_sites.
Proof. by_reading. Qed.
Lemma ListSubnets_reads : reads list_subnets.
Proof. by_reading. Qed.
Lemma ListDevices_reads : reads list_devices.
Proof. by_reading. Qed.
Lemma ListAddresses_reads id : reads (list_addresses id).
Proof. by_reading. Qed.
Lemma ListAddressesForExport_reads : reads export_addresses.
Proof. by_reading. Qed.
Lemma ListDeviceGroups_reads : reads (ListDeviceGroups by_address by_name).
Proof. by_reading. Qed.
Lemma ListMACAddresses_reads id : reads (ListMACAddresses by_mac id).
Proof. by_reading. Qed.
Lemma ListDeviceIPAddresses_reads id : reads (ListDeviceIPAddresses by_address id).
Proof. by_reading. Qed.
Lemma listLinkedAddresses_reads id : reads (listLinkedAddresses by_address id).
Proof. by_reading. Qed.
Lemma deviceLinkIdentity_reads id : reads (deviceLinkIdentity id).
Proof. by_reading. Qed.
Lemma ListAllCustomFieldDefs_reads : reads (ListAllCustomFieldDefs by_name).
Proof. by_reading. Qed.
Lemma ListUsers_reads : reads ListUsers.
Proof. by_reading. Qed.
Lemma ListUserSessions_reads id cutoff : reads (ListUserSessions id cutoff).
Proof. by_reading. Qed.
Lemma ListAPITokens_reads id : reads (ListAPITokens id).
Proof. by_reading. Qed.
Lemma TOTPEnabled_reads id : reads (TOTPEnabled id).
Proof. by_reading. Qed.
Lemma searchSubnets_reads p : reads (searchSubnets by_cidr p).
Proof. by_reading. Qed.
Lemma searchAddresses_reads p : reads (searchAddresses by_address p).
Proof. by_reading. Qed.
Lemma searchDevices_reads p : reads (searchDevices by_name p).
Proof. by_reading. Qed.
Lemma searchMACs_reads p : reads (searchMACs by_mac p).
Proof. by_reading. Qed.

Lemma reads_each {A B} (f : A → GoE Inventory B) l : (∀ a, reads (f a)) → reads (each_of f l).
Proof.
  intros Hf. induction l as [|a l IH]; [done|]. apply reads_try; [apply Hf|]. intros b. by apply reads_try.
Qed.

Lemma ListLinkedDevices_reads id : reads (ListLinkedDevices by_address by_mac by_name id).
Proof.
  apply reads_try; [by_reading|]. intros g. destruct (decide (g = "")); [done|].
  apply reads_try; [by_reading|]. intros ids. apply reads_each. intros i.
  apply reads_try; [apply GetDevice_reads|]. intros d. apply reads_try; [apply listLinkedAddresses_reads|]. intros a.
  by apply reads_try; [apply ListMACAddresses_reads|].
Qed.

Lemma ListDeviceLinkSuggestions_reads id : reads (ListDeviceLinkSuggestions by_address by_name id).
Proof.
  apply reads_try; [apply deviceLinkIdentity_reads|]. intros [target group]. cbn zeta. destruct (_ || _); [done|].
  apply reads_try; [by_reading|]. intros rows. apply reads_each. intros c.
  by apply reads_try; [apply listLinkedAddresses_reads|].
Qed.

Lemma Search_reads q : reads (Search by_cidr by_address by_mac by_name q).
Proof.
  unfold Search. cbn zeta. destruct (decide _); [done|]. apply reads_try; [apply searchSubnets_reads|]. intros s.
  apply reads_try; [apply searchAddresses_reads|]. intros a. apply reads_try; [apply searchDevices_reads|]. intros d.
  by apply reads_try; [apply searchMACs_reads|].
Qed.

Hint Resolve GetSubnet_reads GetDevice_reads GetAddress_reads GetMACAddress_reads GetCustomFieldDef_reads GetUser_reads
  CustomFieldValues_reads GetUserTOTP_reads ListSites_reads ListSubnets_reads ListDevices_reads ListAddresses_reads
  ListAddressesForExport_reads ListDeviceGroups_reads ListMACAddresses_reads ListDeviceIPAddresses_reads
  ListAllCustomFieldDefs_reads ListUsers_reads ListUserSessions_reads ListAPITokens_reads TOTPEnabled_reads
  ListLinkedDevices_reads ListDeviceLinkSuggestions_reads Search_reads reads_time reads_token : reading.
(** ** What grants a change *)

(** The cut-off of the idle timeout, at some reading of the clock. *)
Definition a_cutoff (cutoff : Z) : Prop :=
  if SessionIdleTimeout settings <=? 0 then cutoff = zero_time
  else ∃ i, cutoff = clock i - SessionIdleTimeout settings.

(** The live session the request's cookie names in a world. *)
Definition presents (r : Request) (cutoff : Z) (w : World Database) : option Session :=
  let id := default "" (rq_Cookies r !! sessionCookie) in
  let now := timestamptz (clock (w_step w)) in
  if decide (id = "") then None
  else
    s ← ac_sessions (acc w) !! id;
    u ← ac_users (acc w) !! sr_User s;
    if live now cutoff s then Some (session_of id (touch now s) (user_of w (sr_User s) u)) else None.

Definition granted (r : Request) (need : Session → bool) (w : World Database) : Prop :=
  ∃ cutoff s, a_cutoff cutoff ∧ presents r cutoff w = Some s ∧ need s = true.

(** The form carries the session's token; the user is an admin. *)
Definition signed (r : Request) (s : Session) : bool := verifySessionCSRF r s.
Definition admin_signed (r : Request) (s : Session) : bool := verifySessionCSRF r s && u_IsAdmin (se_User s).

Lemma idleCutoff_returns : returns a_cutoff idleCutoff.
Proof.
  unfold idleCutoff, a_cutoff. destruct (SessionIdleTimeout settings <=? 0); [done|]. intros w. by eexists.
Qed.
Lemma idleCutoff_reads : reads idleCutoff.
Proof. unfold idleCutoff. destruct (_ <=? _); [done|]. by apply reads_bind; [apply reads_time|]. Qed.

Lemma guarded_returns {A} R ok (Q : A → Prop) (p : Go Database A) : guarantees R p → returns Q p → guarded R ok Q p.
Proof.
  induction p as [a|g k IH]; [done|]. intros Hp Hq w. destruct (Hp w). split; [done|]. right. by apply IH.
Qed.

Lemma harmless_touch id s now w :
  ac_sessions (acc w) !! id = Some s →
  harmless w (edit_acc (λ a, put_sessions (<[id := touch now s]> (ac_sessions a)) a) w).
Proof.
  intros Hs. split; try done. cbn. rewrite fmap_insert. apply insert_id. by rewrite lookup_fmap, Hs.
Qed.

Lemma harmless_trans w1 w2 w3 : harmless w1 w2 → harmless w2 w3 → harmless w1 w3.
Proof. intros [] []. split; by etrans. Qed.

(** A session comes out of a step that grants what it is needed for. *)
Lemma currentSession_guarded r need :
  guarded harmless (granted r need) (λ o, ∀ s, o = Some s → need s = false) (currentSession r).
Proof.
  unfold currentSession. cbn zeta. destruct (decide (default "" _ = "")) as [|Hid]; [done|].
  eapply (guarded_bind _ _ a_cutoff).
  { apply guarded_returns; [apply reads_harmless, idleCutoff_reads|apply idleCutoff_returns]. }
  intros cutoff Hc. intros w. cbn [fst snd]. unfold run_stmt. destruct (fault (w_step w)).
  { split; [apply harmless_bump|]. by right. }
  change (ac_sessions (acc (bump w))) with (ac_sessions (acc w)).
  change (ac_users (acc (bump w))) with (ac_users (acc w)).
  destruct (ac_sessions (acc w) !! _) as [s|] eqn:Hs; [|split; [apply harmless_bump|by right]].
  destruct (live _ _ s) eqn:Hl; cbn [negb]; [|split; [apply harmless_bump|by right]].
  destruct (ac_users (acc w) !! sr_User s) as [u|] eqn:Hu; [|split; [apply harmless_bump|by right]]. cbn [fst snd]. split.
  { eapply harmless_trans; [apply harmless_bump|]. by apply harmless_touch. }
  set (session := session_of _ _ _). destruct (need session) eqn:Hn; [left|right; by intros s' [= <-]].
  exists cutoff, session. split; [done|]. split; [|done]. unfold presents. cbn zeta.
  rewrite decide_False by done. rewrite Hs. cbn. by rewrite Hu, Hl.
Qed.

Lemma requireSession_guarded r need (next : Session → Go Database Response) :
  (∀ s, need s = false → guarded harmless (granted r need) (λ _, True) (next s)) →
  guarded harmless (granted r need) (λ _, True) (requireSession r next).
Proof.
  intros Hn. unfold requireSession. eapply guarded_bind; [apply currentSession_guarded|].
  intros [s|] Hs; [|done]. apply Hn. by apply Hs.
Qed.

Lemma withCSRF_guarded r ok s next : signed r s = false → guarded harmless ok (λ _, True) (withCSRF r s next).
Proof. unfold signed, withCSRF. by intros ->. Qed.

Lemma requireAdmin_guarded r (next : Session → Go Database Response) :
  (∀ s, signed r s = false → guarded harmless (granted r (admin_signed r)) (λ _, True) (next s)) →
  guarded harmless (granted r (admin_signed r)) (λ _, True) (requireAdmin r next).
Proof.
  intros Hn. unfold requireAdmin. apply requireSession_guarded. intros s Hs. destruct (u_IsAdmin (se_User s)) eqn:Ha; [|done].
  apply Hn. unfold admin_signed in Hs. by rewrite Ha, andb_true_r in Hs.
Qed.

Lemma loaded_guarded {A} ok (p : GoE Inventory A) message next :
  reads p → (∀ a, guarded harmless ok (λ _, True) (next a)) → guarded harmless ok (λ _, True) (loaded p message next).
Proof.
  intros Hp Hn. unfold loaded. apply guarded_after; [by apply reads_harmless, reads_zoom|].
  intros [a|e]; [apply Hn|by destruct e].
Qed.

Lemma loadManagedUser_guarded r next :
  (∀ s u, signed r s = false → guarded harmless (granted r (admin_signed r)) (λ _, True) (next s u)) →
  guarded harmless (granted r (admin_signed r)) (λ _, True) (loadManagedUser r next).
Proof.
  intros Hn. apply requireAdmin_guarded. intros s Hs. apply guarded_after; [apply reads_harmless, GetUser_reads|].
  intros [u|e]; [by apply Hn|by destruct e].
Qed.

Ltac guard_step :=
  match goal with
  | |- guarded _ _ _ (requireSession _ _) => apply requireSession_guarded; intros ? ?
  | |- guarded _ _ _ (requireAdmin _ _) => apply requireAdmin_guarded; intros ? ?
  | |- guarded _ _ _ (loadManagedUser _ _) => apply loadManagedUser_guarded; intros ? ? ?
  | |- guarded _ _ _ (loaded _ _ _) => apply loaded_guarded; [eauto with reading|intros ?]
  | |- guarded _ _ _ (withCSRF _ _ _) => by apply withCSRF_guarded
  | |- guarded _ _ _ (bulk_handler _ _ _ _ _ _ _ _ _ _) => unfold bulk_handler
  | |- guarded _ _ _ (prog_bind _ (zoom (GetSubnet _))) =>
      apply guarded_after; [apply reads_harmless, reads_zoom, GetSubnet_reads|intros [?|?]; [|done]]
  | |- guarded _ _ _ (if _ then _ else _) => case_match
  | |- guarded _ _ _ (respond _) => done
  end.

Ltac open_handler :=
  match goal with
  | |- guarded ?R ?ok ?Q (?h ?r) => let h' := eval hnf in h in change (guarded R ok Q (h' r)); cbv beta
  end.

Lemma session_writes_guarded :
  Forall (λ x : route, ∀ r, guarded harmless (granted r (signed r)) (λ _, True) (x.2 r)) session_writes.
Proof.
  unfold session_writes. repeat (apply Forall_cons; split); [..|by apply Forall_nil]; intros r; cbn [snd]; open_handler.
  all: unfold loadSubnetPage, loadAddressPage, loadDevicePage; repeat guard_step.
Qed.

Lemma admin_writes_guarded :
  Forall (λ x : route, ∀ r, guarded harmless (granted r (admin_signed r)) (λ _, True) (x.2 r)) admin_writes.
Proof.
  unfold admin_writes. repeat (apply Forall_cons; split); [..|by apply Forall_nil]; intros r; cbn [snd]; open_handler.
  all: unfold loadCustomFieldDef; repeat guard_step.
Qed.

Lemma authorize_guarded r need (h : Handler) :
  guarded harmless (granted r need) (λ _, True) (h r) →
  guarded harmless (granted r need) (λ _, True) (authorize h r).
Proof.
  intros Hh. unfold authorize. destruct (_ || _); [done|]. eapply guarded_bind; [apply currentSession_guarded|].
  intros [s|] _; [|done]. by destruct (negb _).
Qed.

(** ** The API *)

(** The bearer token is one of an admin's. *)
Definition api_granted (r : Request) (w : World Database) : Prop :=
  ∃ token id t u, bearer_token (rq_Authorization r) = Some token ∧ ac_tokens (acc w) !! id = Some t ∧
    tk_Hash t = HashToken token ∧ ac_users (acc w) !! tk_User t = Some u ∧ us_Role u = RoleAdmin.

Lemma token_named_Some hash a id t :
  token_named hash a = Some (id, t) → ac_tokens a !! id = Some t ∧ tk_Hash t = hash.
Proof.
  unfold token_named. destruct (list_find _ _) as [[i [id' t']]|] eqn:Hf; [|done]. intros [= -> ->].
  apply list_find_Some in Hf as (Hi & Ht & _). split; [|done].
  apply elem_of_map_to_list. by eapply list_elem_of_lookup_2.
Qed.

Lemma harmless_use id t now w :
  ac_tokens (acc w) !! id = Some t →
  harmless w (edit_acc (λ a, put_tokens (<[id := use_token now t]> (ac_tokens a)) a) w).
Proof. intros Ht. split; try done. cbn. rewrite fmap_insert. apply insert_id. by rewrite lookup_fmap, Ht. Qed.

Lemma authenticateAPI_guarded r :
  guarded harmless (api_granted r) (λ o, ∀ u, o = Some u → canWrite (u_Role u) = false) (authenticateAPI r).
Proof.
  unfold authenticateAPI. destruct (bearer_token _) as [token|] eqn:Hb; [|done]. intros w. cbn [fst snd].
  unfold run_stmt. destruct (fault (w_step w)); [split; [apply harmless_bump|by right]|].
  change (token_named (HashToken token) (acc (bump w))) with (token_named (HashToken token) (acc w)).
  change (ac_users (acc (bump w))) with (ac_users (acc w)).
  destruct (token_named _ _) as [[id t]|] eqn:Ht; [|split; [apply harmless_bump|by right]].
  apply token_named_Some in Ht as [Ht Hh].
  destruct (ac_users (acc w) !! tk_User t) as [u|] eqn:Hu; [|split; [apply harmless_bump|by right]]. cbn [fst snd]. split.
  { eapply harmless_trans; [apply harmless_bump|]. by apply harmless_use. }
  destruct (canWrite (us_Role u)) eqn:Hc; [left|right; by intros u' [= <-]].
  exists token, id, t, u. split_and!; try done. by apply bool_decide_eq_true in Hc.
Qed.

Lemma apiHandler_write_guarded r fn : guarded harmless (api_granted r) (λ _, True) (apiHandler true fn r).
Proof.
  unfold apiHandler. eapply guarded_bind; [apply authenticateAPI_guarded|]. intros [u|] Hu; [|done].
  cbn [andb]. by rewrite (Hu u).
Qed.

Lemma authenticateAPI_harmless r : guarantees harmless (authenticateAPI r).
Proof.
  unfold authenticateAPI. destruct (bearer_token _) as [token|]; [|done]. apply guarantees_bind; [|done].
  apply guarantees_atomic. intros w. unfold run_stmt. destruct (fault (w_step w)); [apply harmless_bump|].
  destruct (token_named _ _) as [[id t]|] eqn:Ht; [|apply harmless_bump]. apply token_named_Some in Ht as [Ht _].
  destruct (_ !! tk_User t); [|apply harmless_bump]. cbn [snd]. eapply harmless_trans; [apply harmless_bump|].
  by apply harmless_use.
Qed.

Lemma apiHandler_read_harmless r fn : (∀ u, reads (fn r u)) → guarantees harmless (apiHandler false fn r).
Proof.
  intros Hf. unfold apiHandler. apply guarantees_bind; [apply authenticateAPI_harmless|]. intros [u|]; [|done].
  cbn [andb]. apply reads_harmless, Hf.
Qed.

Lemma api_reads r :
  Forall (λ fn : Request → User → Go Database Response, ∀ u, reads (fn r u))
    [apiWhoami; apiListSubnets; apiGetSubnet; apiListAddresses; apiGetAddress; apiListDevices; apiGetDevice].
Proof.
  repeat (apply Forall_cons; split); [..|by apply Forall_nil]; intros u; [done|..].
  all: apply reads_bind; [apply reads_zoom; eauto with reading|]; intros [x|e]; [|by destruct e]; try done.
  cbn [stored]. apply reads_bind; [apply reads_zoom; eauto with reading|]. intros [y|e]; [done|by destruct e].
Qed.

Lemma api_routes_guarded :
  Forall (λ x : route, ∀ r, guarded harmless (api_granted r) (λ _, True) (x.2 r)) registerAPIRoutes.
Proof.
  unfold registerAPIRoutes. apply Forall_app. split.
  - unfold api_routes. repeat (apply Forall_cons; split); [..|by apply Forall_nil]; intros r; cbn [snd].
    all: try apply apiHandler_write_guarded.
    all: apply guarded_harmless, apiHandler_read_harmless; pose proof (api_reads r) as Hr;
      repeat (apply Forall_cons in Hr as [? Hr]); done.
  - apply Forall_forall. intros x Hx r. by rewrite (not_allowed_handler x Hx).
Qed.

(** ** Pages *)

Lemma currentSession_harmless r : guarantees harmless (currentSession r).
Proof.
  unfold currentSession. cbn zeta. destruct (decide _); [done|].
  apply guarantees_bind; [apply reads_harmless, idleCutoff_reads|]. intros cutoff. apply guarantees_bind; [|done].
  apply guarantees_atomic. intros w. unfold run_stmt. destruct (fault (w_step w)); [apply harmless_bump|].
  change (ac_sessions (acc (bump w))) with (ac_sessions (acc w)).
  destruct (ac_sessions (acc w) !! _) as [s|] eqn:Hs; [|apply harmless_bump].
  destruct (negb _); [apply harmless_bump|]. destruct (_ !! sr_User s); [|apply harmless_bump]. cbn [snd].
  eapply harmless_trans; [apply harmless_bump|]. by apply harmless_touch.
Qed.

Lemma CreateAuditLog_harmless who action st sid metadata :
  guarantees harmless (CreateAuditLog (Inv := Database) who action st sid metadata).
Proof.
  apply guarantees_atomic. intros w. unfold run_stmt. destruct (fault (w_step w)); [apply harmless_bump|].
  destruct (jsonb_in _); [|apply harmless_bump]. destruct (negb _); [apply harmless_bump|].
  split; [by eexists|done..].
Qed.

Lemma requireSession_harmless r next :
  (∀ s, guarantees harmless (next s)) → guarantees harmless (requireSession r next).
Proof. intros Hn. apply guarantees_bind; [apply currentSession_harmless|]. intros [s|]; [apply Hn|done]. Qed.

Lemma requireAdmin_harmless r next :
  (∀ s, guarantees harmless (next s)) → guarantees harmless (requireAdmin r next).
Proof. intros Hn. apply requireSession_harmless. intros s. by destruct (negb _). Qed.

Lemma read_then {A B} (p : Go Database A) (h : A → Go Database B) :
  reads p → (∀ a, guarantees harmless (h a)) → guarantees harmless (prog_bind h p).
Proof. intros Hp. apply guarantees_bind. by apply reads_harmless. Qed.

Lemma listed_harmless {A} (p : GoE Inventory A) message next :
  reads p → guarantees harmless next → guarantees harmless (listed p message next).
Proof. intros Hp Hn. apply read_then; [by apply reads_zoom|]. by intros [a|e]. Qed.

Lemma loaded_harmless {A} (p : GoE Inventory A) message next :
  reads p → (∀ a, guarantees harmless (next a)) → guarantees harmless (loaded p message next).
Proof. intros Hp Hn. apply read_then; [by apply reads_zoom|]. intros [a|e]; [apply Hn|by destruct e]. Qed.

Ltac open_program :=
  match goal with
  | |- guarantees ?R ?p => let p' := eval hnf in p in progress change (guarantees R p')
  end.

Ltac harmless_step :=
  match goal with
  | |- guarantees _ (requireSession _ _) => apply requireSession_harmless; intros ?
  | |- guarantees _ (requireAdmin _ _) => apply requireAdmin_harmless; intros ?
  | |- guarantees _ (loaded _ _ _) => apply loaded_harmless; [eauto with reading|intros ?]
  | |- guarantees _ (listed _ _ _) => apply listed_harmless; [eauto with reading|]
  | |- guarantees _ (respond _) => exact I
  | |- guarantees _ (Ret _) => exact I
  | |- guarantees _ (currentSession _) => apply currentSession_harmless
  | |- guarantees _ (CreateAuditLog _ _ _ _ _) => apply CreateAuditLog_harmless
  | |- guarantees _ (audit _ _ _ _) => unfold audit, audit_log
  | |- guarantees _ (prog_bind _ idleCutoff) => apply read_then; [apply idleCutoff_reads|intros ?]
  | |- guarantees _ (prog_bind _ (zoom _)) => apply read_then; [apply reads_zoom; solve [eauto with reading]|intros ?]
  | |- guarantees _ (prog_bind _ _) => apply read_then; [solve [eauto with reading]|intros ?]
  | |- guarantees _ (prog_bind _ _) => apply guarantees_bind; [|intros ?]
  | |- guarantees _ (match ?x with _ => _ end) => destruct x
  end.

Lemma read_routes_harmless : Forall (λ x : route, ∀ r, guarantees harmless (x.2 r)) read_routes.
Proof.
  unfold read_routes. repeat (apply Forall_cons; split); [..|by apply Forall_nil]; intros r; cbn [snd].
  all: open_program; cbv beta.
  all: unfold loadSubnetPage, loadAddressPage, loadDevicePage, loadManagedUser, loadCustomFieldDef, renderAccount,
    accountPageData, renderUsersTab, renderCustomFieldsTab, renderSubnetsError, renderDevicesError, render_subnet_detail,
    render_device_detail, renderSubnetForm, renderAddressForm, renderDeviceForm, loadCustomFields, server_error, confirm,
    import_page; cbn zeta; repeat harmless_step.
Qed.
End routes.

(** * Access

    What [Routes] grants, as statements about whole requests: changes come after a
    granting step, a viewer is refused, a session after a password. *)

Section access.
Context {env : Env} {app : App}.


(** C7: A request to the machine API takes no step that changes anything but the
    audit log and the times of use before one of its steps found its bearer token to
    be that of a user whose role is admin. *)
Theorem api_changes_need_an_admin_token (x : route) r others i w l a b l' :
  x ∈ registerAPIRoutes → steps others i (x.2 r) w = l ++ (a, b) :: l' → ¬ harmless a b →
  ∃ y z, (y, z) ∈ l ∧ api_granted r y.
Proof.
  intros Hx. pose proof api_routes_guarded as H. rewrite Forall_forall in H. by apply guarded_steps with (λ _, True), H.
Qed.

(** The pages and files, whoever asks, change nothing but the audit log and the
    times of use. *)
Theorem pages_change_nothing (x : route) r others i w a b :
  x ∈ read_routes → (a, b) ∈ steps others i (x.2 r) w → harmless a b.
Proof.
  intros Hx. pose proof read_routes_harmless as H. rewrite Forall_forall in H. specialize (H x Hx r). revert i w.
  induction (x.2 r) as [v|g k IH]; intros i w; cbn; [by intros ?%elem_of_nil|].
  destruct (H (others i w)) as [Hg Hk]. rewrite elem_of_cons. intros [[= -> ->]|Hin]; [done|]. by eapply IH.
Qed.

(** The cut-off a request would use now, and the world after it was determined. *)
Definition cutoff_now (w : World Database) : Z * World Database := alone idleCutoff w.

Lemma currentSession_alone r w :
  fault (w_step (cutoff_now w).2) = false →
  (alone (currentSession r) w).1 = presents r (cutoff_now w).1 (cutoff_now w).2 ∧ harmless w (alone (currentSession r) w).2.
Proof.
  intros Hf. unfold currentSession, presents. cbn zeta. destruct (decide (default "" _ = "")) as [Hid|Hid].
  { split; [done|]. by split. }
  rewrite alone_bind. fold (cutoff_now w). assert (harmless w (cutoff_now w).2) as Hw.
  { unfold cutoff_now, idleCutoff. destruct (_ <=? _); [by split|]. rewrite alone_bind. apply harmless_bump. }
  destruct (cutoff_now w) as [cutoff w1]. cbn [fst snd] in *. rewrite alone_bind. unfold GetSession. rewrite alone_stmt.
  unfold run_stmt. rewrite Hf. change (ac_sessions (acc (bump w1))) with (ac_sessions (acc w1)).
  change (ac_users (acc (bump w1))) with (ac_users (acc w1)).
  assert (harmless w (bump w1)) as Hb by (eapply harmless_trans; [exact Hw|apply harmless_bump]).
  destruct (ac_sessions (acc w1) !! _) as [s|] eqn:Hs; [|by cbn].
  destruct (ac_users (acc w1) !! sr_User s) as [u|] eqn:Hu; cbn; destruct (live _ _ s) eqn:Hl; cbn; rewrite ?Hu; try done.
  rewrite ?Hu. cbn. split; [done|]. eapply harmless_trans; [exact Hb|]. by apply harmless_touch.
Qed.

End access.

(** ** Witnesses *)

Definition delete_office (cookie csrf : string) : Request :=
  request "POST" "/subnets/n/delete" "n" cookie [("csrf_token", csrf)].

(** The deletion is the sixth step: two readings of the clock, the session twice,
    the subnet, and then it. *)
Definition delete_steps : list (World Database * World Database) :=
  steps quiet 0 (authorize (env := calm_env) (subnetDelete (env := calm_env)) (delete_office "sa" "ta")) demo_world.

Lemma harmless_inv w w' : harmless w w' → db_inv (w_inv w') = db_inv (w_inv w).
Proof. apply hl_inv. Qed.

(** The [n]-th step of a list of steps. *)
Definition nth_step (l : list (World Database * World Database)) (n : nat) : World Database * World Database :=
  default (demo_world, demo_world) (l !! n).

Lemma nth_step_split l n :
  (n < length l)%nat → l = take n l ++ ((nth_step l n).1, (nth_step l n).2) :: drop (S n) l.
Proof.
  intros Hn. unfold nth_step. destruct (l !! n) as [[a b]|] eqn:Hl; [symmetry; by apply take_drop_middle|].
  apply lookup_ge_None in Hl. lia.
Qed.

Definition has_subnet (id : string) (w : World Database) : bool :=
  bool_decide (is_Some (iv_subnets (db_inv (w_inv w)) !! id)).

Lemma lost_subnet_harmful id a b : has_subnet id a = true → has_subnet id b = false → ¬ harmless a b.
Proof. intros Ha Hb H%harmless_inv. unfold has_subnet in *. rewrite H, Ha in Hb. done. Qed.


(** A script's token, and its deletion of a subnet: the second step, after the token. *)
Definition token_world : World Database :=
  edit_acc (put_tokens {["k" := MkTokenRow "a" "ci" (HashToken "lipam_x") None 0]}) demo_world.
Definition script_deletes : Request := api_request "DELETE" "n" "lipam_x" "".
Definition script_steps : list (World Database * World Database) :=
  steps quiet 0 (apiHandler (env := calm_env) true (apiDeleteSubnet (env := calm_env)) script_deletes) token_world.

Lemma api_changes_need_an_admin_token_witness :
  ∃ l a b l', script_steps = l ++ (a, b) :: l' ∧ ¬ harmless a b ∧ ∃ y z, (y, z) ∈ l ∧ api_granted script_deletes y.
Proof.
  assert (1 < length script_steps)%nat as Hlen by (apply Nat.ltb_lt; vm_compute; reflexivity).
  pose proof (nth_step_split _ _ Hlen) as Hs.
  assert (¬ harmless (nth_step script_steps 1).1 (nth_step script_steps 1).2) as Hn
    by (apply (lost_subnet_harmful "n"); vm_compute; reflexivity).
  eexists _, _, _, _. split; [exact Hs|]. split; [exact Hn|].
  eapply (api_changes_need_an_admin_token (env := calm_env)
    ("DELETE", "/api/v1/subnets/{id}", apiHandler (env := calm_env) true (apiDeleteSubnet (env := calm_env))) _ _ _ _ _ _ _ _ _ Hs Hn).
  Unshelve. unfold registerAPIRoutes, api_routes. apply elem_of_app. left. rewrite !elem_of_cons. tauto.
Defined.

(** The first step of a page reads the clock. *)
Lemma pages_change_nothing_witness :
  ∃ a b, (a, b) ∈ steps quiet 0 (subnetsIndex (env := calm_env) (request "GET" "/subnets" "" "sv" [])) demo_world ∧ harmless a b.
Proof.
  set (l := steps quiet 0 _ demo_world).
  assert (0 < length l)%nat as Hlen by (apply Nat.ltb_lt; vm_compute; reflexivity).
  pose proof (nth_step_split _ _ Hlen) as Hs.
  exists (nth_step l 0).1, (nth_step l 0).2.
  assert (((nth_step l 0).1, (nth_step l 0).2) ∈ l) as Hin.
  { rewrite Hs at 3. cbn [take app]. apply list_elem_of_here. }
  split; [exact Hin|].
  apply (pages_change_nothing (env := calm_env) ("GET", "/subnets", subnetsIndex (env := calm_env))
    (request "GET" "/subnets" "" "sv" []) quiet 0 demo_world); [|exact Hin].
  unfold read_routes. rewrite !elem_of_cons. tauto.
Defined.

