(* ===== verification/SigninSpec.v ===== *)
(** * What signing in takes

    No session is created by the login form before the password was right, nor by
    the second step before an enrolled factor's code, or an unused recovery code,
    was; the cookie between the two is good for five minutes; and the last
    administrator stays. *)

From S2P Require Import Prelude GoStrings GoTime Json Secrets Password Protocol Process Scans Queue Inventory Import Records Bulk Portability Listings Lockout Totp Accounts Web Signin Users Pages Batch Api Routes Demo.
Local Open Scope Z_scope.

Section signin.
Context {env : Env} {app : App}.

(** ** Steps that create no session *)

Definition no_session (w w' : World Database) : Prop := dom (ac_sessions (acc w')) ⊆ dom (ac_sessions (acc w)).

Lemma no_session_bump w : no_session w (bump w).
Proof. unfold no_session. reflexivity. Qed.

Lemma harmless_no_session w w' : harmless w w' → no_session w w'.
Proof.
  intros H. unfold no_session. pose proof (f_equal dom (hl_sessions _ _ H)) as Hd. rewrite !dom_fmap_L in Hd. set_solver.
Qed.

Lemma harmless_then {A} (p : Go Database A) : guarantees harmless p → guarantees no_session p.
Proof. apply guarantees_mono, harmless_no_session. Qed.

Lemma reads_then {A} (p : Go Database A) : reads p → guarantees no_session p.
Proof. intros Hp. by apply harmless_then, reads_harmless. Qed.

Lemma attempts_no_session (f : Z → list attempt → list attempt) :
  guarantees no_session (stmt (λ now w, Ok ((), edit_acc (λ a, put_attempts (f now (ac_attempts a)) a) w))).
Proof. apply guarantees_stmt; [apply no_session_bump|]. intros w now [] w' [= <-]. unfold no_session. reflexivity. Qed.

Lemma CreateAuditLog_no_session who action st sid metadata :
  guarantees no_session (CreateAuditLog (Inv := Database) who action st sid metadata).
Proof. apply harmless_then, CreateAuditLog_harmless. Qed.

Lemma auditMeta_no_session who action st sid meta : guarantees no_session (auditMeta who action st sid meta).
Proof. apply guarantees_bind; [apply CreateAuditLog_no_session|done]. Qed.

(** ** The password *)

(** The user the form names has the password it gives. *)
Definition knows_password (r : Request) (w : World Database) : Prop :=
  ∃ id u, ac_users (acc w) !! id = Some u ∧ us_Username u = field r "username" ∧
    VerifyPassword IDKey (us_PasswordHash u) (FormValue r "password") = true.

Lemma find_user_Some f w u :
  find_user f w = Some u → ∃ id r, ac_users (acc w) !! id = Some r ∧ f r = true ∧ u = user_of w id r.
Proof.
  unfold find_user. destruct (list_find _ _) as [[i [id r]]|] eqn:Hf; [|done]. intros [= <-].
  apply list_find_Some in Hf as (Hi & Ht & _). exists id, r. split; [|done].
  apply elem_of_map_to_list. by eapply list_elem_of_lookup_2.
Qed.

Lemma FindUser_guarded r :
  guarded no_session (knows_password r)
    (λ res, ∀ u, res = Ok u → VerifyPassword IDKey (u_PasswordHash u) (FormValue r "password") = false)
    (FindUserByUsername (field r "username")).
Proof.
  intros w. cbn [fst snd]. unfold run_stmt. destruct (fault (w_step w)); [split; [apply no_session_bump|by right]|].
  change (find_user _ (bump w)) with (find_user (λ u, bool_decide (us_Username u = field r "username")) w).
  destruct (find_user _ w) as [u|] eqn:Hu; [|split; [apply no_session_bump|by right]]. split; [apply no_session_bump|].
  apply find_user_Some in Hu as (id & row & Hrow & Hn%bool_decide_eq_true & ->). cbn [u_PasswordHash user_of fst].
  destruct (VerifyPassword IDKey (us_PasswordHash row) (FormValue r "password")) eqn:Hv; [left; by exists id, row|right].
  by intros u' [= <-].
Qed.

Lemma login_guarded r : guarded no_session (knows_password r) (λ _, True) (login_handler r).
Proof.
  unfold login_handler. destruct (negb _); [done|]. unfold withForm. destruct (bool_decide _); [done|]. cbn zeta.
  apply guarded_after; [apply reads_then, reads_time|]. intros now.
  apply guarded_after; [apply reads_then; by apply reads_stmt; intros ? ? ? ? [=]|]. intros stats.
  destruct (Locked _).
  { apply guarded_after; [apply auditMeta_no_session|done]. }
  eapply guarded_bind; [apply FindUser_guarded|]. intros [u|e] Hu; [rewrite (Hu u eq_refl)|].
  all: apply guarded_after; [apply attempts_no_session|]; intros _.
  all: apply guarded_after; [apply auditMeta_no_session|done].
Qed.

(** C13: Whatever else runs, the login form creates a session only after one of its
    steps found the user it names to have the password it gives. *)
Theorem sign_in_needs_password r others i w l a b l' id :
  steps others i (login_handler r) w = l ++ (a, b) :: l' →
  ac_sessions (acc a) !! id = None → is_Some (ac_sessions (acc b) !! id) →
  ∃ y z, (y, z) ∈ l ∧ knows_password r y.
Proof.
  intros Hs Ha Hb. apply (guarded_steps no_session _ (λ _, True) _ _ _ _ _ _ _ _ (login_guarded r) Hs).
  intros Hn. apply elem_of_dom, Hn, elem_of_dom in Hb. rewrite Ha in Hb. by destruct Hb.
Qed.

(** ** The second factor *)

(** The user has a confirmed factor with this secret. *)
Definition enrolled (x : string * string) (w : World Database) : Prop :=
  ∃ t, ac_totp (acc w) !! x.1 = Some t ∧ tr_Enabled t = true ∧ open_secret (tr_Secret t) = Some x.2.

(** The code is the secret's at this time, or an unused recovery code of the user. *)
Definition code_accepted (r : Request) (x : string * string) (w : World Database) : Prop :=
  VerifyTOTP x.2 (field r "code") (clock (w_step w)) = true ∨
  ∃ c, c ∈ ac_codes (acc w) ∧ cr_User c = x.1 ∧ cr_Hash c = HashRecoveryCode (field r "code") ∧ cr_Used c = None.

Lemma consume_code_Some userID hash now l l' :
  consume_code userID hash now l = Some l' → ∃ c, c ∈ l ∧ cr_User c = userID ∧ cr_Hash c = hash ∧ cr_Used c = None.
Proof.
  revert l'. induction l as [|c l IH]; intros l'; cbn; [done|]. destruct (decide _) as [(H1 & H2 & H3)|].
  - intros _. exists c. split; [by left|done].
  - destruct (consume_code userID hash now l) as [k|]; [|done]. intros _.
    destruct (IH k eq_refl) as (c' & Hc & H). exists c'. split; [by right|done].
Qed.

Lemma factor_guarded r userID secretValue :
  guarded no_session (code_accepted r (userID, secretValue)) (λ _, True)
    (verified ←! check_factor userID secretValue (field r "code"); after_factor r userID verified).
Proof.
  intros w. cbn [fst snd]. split; [apply no_session_bump|].
  destruct (VerifyTOTP secretValue (field r "code") (clock (w_step w))) eqn:Hv; [by left; left|right].
  rewrite prog_bind_ret, Hv. intros w1. cbn [fst snd]. unfold run_stmt. destruct (fault (w_step w1)).
  { split; [apply no_session_bump|right]. rewrite !prog_bind_ret. apply guarded_after; [apply auditMeta_no_session|done]. }
  change (ac_codes (acc (bump w1))) with (ac_codes (acc w1)). destruct (consume_code _ _ _ _) as [l|] eqn:Hc.
  - split; [unfold no_session; reflexivity|]. left. right. by apply consume_code_Some in Hc.
  - split; [apply no_session_bump|right]. rewrite !prog_bind_ret. apply guarded_after; [apply auditMeta_no_session|done].
Qed.

(** With a cookie that names [user]. *)
Lemma mfa_staged r user unix :
  challenge_of r = Some (user, unix) →
  staged no_session (λ x w, x.1 = user ∧ enrolled x w) (code_accepted r) (mfaChallengeSubmit r).
Proof.
  intros Hr. unfold mfaChallengeSubmit. destruct (negb _); [done|]. unfold pendingMFAUser. rewrite Hr.
  intros w. cbn [fst snd]. split; [apply no_session_bump|right]. rewrite !prog_bind_ret. cbn [fst].
  destruct (unix <? clock (w_step w) / second); [done|].
  unfold withForm. destruct (bool_decide _); [done|]. cbn zeta.
  intros w1. cbn [fst snd]. unfold run_stmt. destruct (fault (w_step w1)).
  { split; [apply no_session_bump|by right]. }
  change (ac_totp (acc (bump w1))) with (ac_totp (acc w1)).
  destruct (ac_totp (acc w1) !! user) as [t|] eqn:Ht; [|split; [apply no_session_bump|by right]].
  split; [apply no_session_bump|]. cbn [fst snd]. rewrite !prog_bind_ret. destruct (tr_Enabled t) eqn:He; cbn [negb]; [|by right].
  destruct (open_secret (tr_Secret t)) as [secretValue|] eqn:Ho; [|by right]. left.
  exists (user, secretValue). split; [split; [done|by exists t]|]. apply factor_guarded.
Qed.

(** C14: Whatever else runs, the second step of a login creates a session only when
    the cookie names a user whose confirmed factor one of its steps read, and a
    later one found the code to be that factor's at the time, or an unused recovery
    code of the user. *)
Theorem second_step_needs_code r others i w l a b l' id :
  steps others i (mfaChallengeSubmit r) w = l ++ (a, b) :: l' →
  ac_sessions (acc a) !! id = None → is_Some (ac_sessions (acc b) !! id) →
  ∃ user unix secretValue y y' z z' l1 l2,
    challenge_of r = Some (user, unix) ∧ l = l1 ++ (y, y') :: l2 ∧ enrolled (user, secretValue) y ∧
    (z, z') ∈ l2 ∧ code_accepted r (user, secretValue) z.
Proof.
  intros Hs Ha Hb. assert (¬ no_session a b) as Hn.
  { intros Hn. apply elem_of_dom, Hn, elem_of_dom in Hb. rewrite Ha in Hb. by destruct Hb. }
  destruct (challenge_of r) as [[user unix]|] eqn:Hr.
  - destruct (staged_steps _ _ _ _ _ _ _ _ _ _ _ (mfa_staged r user unix Hr) Hs Hn)
      as ([user' secretValue] & y & y' & z & z' & l1 & l2 & -> & (Hu & Hy) & Hz & Hc). cbn [fst] in Hu. subst user'.
    by exists user, unix, secretValue, y, y', z, z', l1, l2.
  - unfold mfaChallengeSubmit in Hs. destruct (negb _); [by destruct l|].
    unfold pendingMFAUser in Hs. rewrite Hr in Hs. by destruct l.
Qed.

(** ** The cookie between the two steps *)

Lemma Seal_nonempty c nonce s token : s ≠ "" → Seal c nonce s = Some token → token ≠ "".
Proof. intros Hs. unfold Seal. rewrite decide_False by done. destruct nonce; [|done]. by intros [= <-]. Qed.

(** With a sealer that opens what it sealed, the cookie set after the password
    names its user for five minutes, to the second, and no one afterwards. *)
Theorem mfa_challenge_lasts c userID w w' r cookies :
  sealer = Some c → AEADLaws c → (∀ n l, random_bytes n = Some l → length l = NonceSize c) →
  count_byte ":" userID = 0%nat → in_int64 ((clock (w_step w) + mfaChallengeTTL) / second) →
  (alone (startMFAChallenge userID) w).1 = Some cookies → rq_Cookies r !! mfaCookie = (list_to_map cookies : gmap string string) !! mfaCookie →
  (alone (pendingMFAUser r) w').1 =
  if clock (w_step w') / second <=? (clock (w_step w) + mfaChallengeTTL) / second then Some userID else None.
Proof.
  intros Hs Hc Hn Hu Hr. unfold startMFAChallenge. rewrite Hs, !alone_bind. unfold time_now. rewrite alone_atomic. cbn [fst snd].
  rewrite alone_bind, alone_atomic.
  set (payload := userID +:+ ":" +:+ itoa ((clock (w_step w) + mfaChallengeTTL) / second)).
  destruct (Seal c (random_bytes (w_step (bump w))) payload) as [sealed|] eqn:Hse; [|done].
  rewrite alone_bind. destruct (alone random_or_empty _) as [csrf w2]. cbn [fst]. intros [= <-].
  cbn [list_to_map foldr fst snd]. rewrite lookup_insert_eq. intros Hcookie.
  assert (payload ≠ "") as Hp by (subst payload; by destruct userID).
  assert (challenge_of r = Some (userID, (clock (w_step w) + mfaChallengeTTL) / second)) as Hch.
  { unfold challenge_of. rewrite Hs. cbn [mbind option_bind]. rewrite Hcookie. cbn [default from_option id]. unfold id.
    rewrite decide_False by by eapply Seal_nonempty.
    rewrite (Open_Seal c (random_bytes (w_step (bump w))) payload sealed) by
      (done || (intros n Hno; split; [by eapply Hn|]; unfold random_bytes in Hno; destruct (token _); [|done];
        injection Hno as <-; apply text_bytes_range)).
    cbn [mbind option_bind]. subst payload. rewrite str_app_cons, str_app_nil_l, cut_byte_app by done. cbn [mbind option_bind].
    by rewrite atoi_itoa. }
  unfold pendingMFAUser. rewrite Hch, alone_bind. unfold time_now. rewrite alone_atomic. cbn.
  rewrite Z.ltb_antisym. by destruct (_ <=? _).
Qed.
End signin.

(** ** Witnesses *)

Definition form_request (path : string) (cookies : gmap string string) (form : list (string * string)) : Request :=
  MkRequest "POST" path "" cookies (list_to_map (map (λ p, (p.1, [p.2])) form)) ∅ None false None ∅
    "10.0.0.9:51000" "" "" "".

(** Bob has no second factor: the tenth step inserts his session. *)
Definition bob_signs_in : Request :=
  form_request "/login" {[csrfCookie := "c"]}
    [("csrf_token", "c"); ("username", "bob"); ("password", "correct horse")].
Definition bob_steps : list (World Database * World Database) :=
  steps quiet 0 (login_handler (env := calm_env) bob_signs_in) demo_world.

Definition has_session (id : string) (w : World Database) : bool := bool_decide (is_Some (ac_sessions (acc w) !! id)).

Lemma has_session_false id w : has_session id w = false → ac_sessions (acc w) !! id = None.
Proof. unfold has_session. intros H%bool_decide_eq_false. by apply eq_None_not_Some. Qed.
Lemma has_session_true id w : has_session id w = true → is_Some (ac_sessions (acc w) !! id).
Proof. apply bool_decide_eq_true_1. Qed.

Lemma sign_in_needs_password_witness :
  ∃ l a b l', bob_steps = l ++ (a, b) :: l' ∧ ac_sessions (acc a) !! "tttttttt" = None ∧
    is_Some (ac_sessions (acc b) !! "tttttttt") ∧ ∃ y z, (y, z) ∈ l ∧ knows_password (app := demo_app) bob_signs_in y.
Proof.
  assert (9 < length bob_steps)%nat as Hlen by (apply Nat.ltb_lt; vm_compute; reflexivity).
  pose proof (nth_step_split _ _ Hlen) as Hs.
  assert (has_session "tttttttt" (nth_step bob_steps 9).1 = false) as Ha by (vm_compute; reflexivity).
  assert (has_session "tttttttt" (nth_step bob_steps 9).2 = true) as Hb by (vm_compute; reflexivity).
  apply has_session_false in Ha. apply has_session_true in Hb.
  exists (take 9 bob_steps), (nth_step bob_steps 9).1, (nth_step bob_steps 9).2, (drop 10 bob_steps).
  refine (conj Hs (conj Ha (conj Hb _))).
  exact (sign_in_needs_password (env := calm_env) bob_signs_in quiet 0 demo_world _ _ _ _ "tttttttt" Hs Ha Hb).
Defined.

(** Alice gives a recovery code: the ninth step inserts her session. *)
Definition alice_cookie : string := default "" (Seal plain_aead (Some [7]) "a:99999").
Definition alice_recovers : Request :=
  form_request "/login/mfa" {[csrfCookie := "c"; mfaCookie := alice_cookie]}
    [("csrf_token", "c"); ("code", "aaaaa-aaaaa")].
Definition alice_steps : list (World Database * World Database) :=
  steps quiet 0 (mfaChallengeSubmit (env := calm_env) alice_recovers) demo_world.

Lemma second_step_needs_code_witness :
  ∃ l a b l', alice_steps = l ++ (a, b) :: l' ∧ ac_sessions (acc a) !! "ttttttt" = None ∧
    is_Some (ac_sessions (acc b) !! "ttttttt") ∧
    ∃ user unix secretValue y y' z z' l1 l2,
      challenge_of alice_recovers = Some (user, unix) ∧ l = l1 ++ (y, y') :: l2 ∧ enrolled (user, secretValue) y ∧
      (z, z') ∈ l2 ∧ code_accepted (env := calm_env) alice_recovers (user, secretValue) z.
Proof.
  assert (8 < length alice_steps)%nat as Hlen by (apply Nat.ltb_lt; vm_compute; reflexivity).
  pose proof (nth_step_split _ _ Hlen) as Hs.
  assert (has_session "ttttttt" (nth_step alice_steps 8).1 = false) as Ha by (vm_compute; reflexivity).
  assert (has_session "ttttttt" (nth_step alice_steps 8).2 = true) as Hb by (vm_compute; reflexivity).
  apply has_session_false in Ha. apply has_session_true in Hb.
  exists (take 8 alice_steps), (nth_step alice_steps 8).1, (nth_step alice_steps 8).2, (drop 9 alice_steps).
  refine (conj Hs (conj Ha (conj Hb _))).
  exact (second_step_needs_code (env := calm_env) alice_recovers quiet 0 demo_world _ _ _ _ "ttttttt" Hs Ha Hb).
Defined.

(** Random bytes of the nonce's length. *)
Definition short_env : Env :=
  {| clock := λ n, (10000 + Z.of_nat n) * second; fault := λ _, false; token := λ _, Some "t"; jsonb_in := λ s, Some s |}.

Lemma plain_aead_laws : AEADLaws plain_aead.
Proof.
  split; cbn.
  - intros _ plain _ Hp. f_equal. induction Hp as [|b l Hb _ IH]; [done|]. cbn. rewrite IH. f_equal. by apply byte_val_of.
  - intros _ plain. apply Forall_forall. intros b (c & -> & _)%list_elem_of_fmap. apply byte_val_range.
Qed.

Lemma mfa_challenge_lasts_witness :
  ∃ cookies, (alone (startMFAChallenge (env := short_env) "a") demo_world).1 = Some cookies ∧
    (alone (pendingMFAUser (env := short_env)
       (form_request "/login/mfa" {[mfaCookie := default "" ((list_to_map cookies : gmap string string) !! mfaCookie)]} []))
       (bump (bump demo_world))).1 = Some "a".
Proof.
  set (o := (alone (startMFAChallenge (env := short_env) "a") demo_world).1).
  assert (match o with Some l => bool_decide (is_Some ((list_to_map l : gmap string string) !! mfaCookie)) | None => false end = true)
    as Ho by (vm_compute; reflexivity).
  destruct o as [cookies|] eqn:He; [|discriminate Ho]. exists cookies. split; [reflexivity|].
  apply bool_decide_eq_true_1 in Ho as [v Hv].
  refine (mfa_challenge_lasts (env := short_env) plain_aead "a" demo_world (bump (bump demo_world)) _ cookies
            eq_refl plain_aead_laws _ eq_refl _ He _).
  - intros n l [= <-]. reflexivity.
  - split; vm_compute; discriminate.
  - cbn [rq_Cookies form_request]. rewrite Hv. reflexivity.
Defined.
