(* ===== verification/Admins.v ===== *)
(** * The last administrator

    Alone, no page takes the last administrator away: changing a role and deleting
    a user count the administrators first. The last section has what two requests at
    once can do, and what lost statements do to sign-in and pages. *)

From S2P Require Import Prelude GoStrings Protocol GoTime Process Scans Queue Inventory Import Records Bulk Portability Listings Lockout Password Totp Secrets Json Accounts Web Signin Users Pages Batch Api Demo Routes.
Local Open Scope Z_scope.

(** Who is an administrator stays one. *)
Definition keeps_admins (w w' : World Database) : Prop :=
  ∀ id u, ac_users (acc w) !! id = Some u → us_IsAdmin u = true →
    ∃ u', ac_users (acc w') !! id = Some u' ∧ us_IsAdmin u' = true.

#[global] Instance keeps_admins_preorder : PreOrder keeps_admins.
Proof.
  split; [intros w id u Hu Ha; by exists u|]. intros w1 w2 w3 H1 H2 id u Hu Ha.
  destruct (H1 id u Hu Ha) as (u' & Hu' & Ha'). by apply (H2 id u').
Qed.

Lemma same_users_keep w w' : ac_users (acc w') = ac_users (acc w) → keeps_admins w w'.
Proof. intros Hs id u Hu Ha. exists u. by rewrite Hs. Qed.

Definition admins (w : World Database) : list (string * UserRow) :=
  filter (λ p, us_IsAdmin p.2 = true) (map_to_list (ac_users (acc w))).

Lemma elem_of_admins w id u : (id, u) ∈ admins w ↔ ac_users (acc w) !! id = Some u ∧ us_IsAdmin u = true.
Proof. unfold admins. rewrite list_elem_of_filter, elem_of_map_to_list. cbn. tauto. Qed.

Lemma count_admins_pos w : 0 < count_admins w ↔ ∃ id u, ac_users (acc w) !! id = Some u ∧ us_IsAdmin u = true.
Proof.
  unfold count_admins. fold (admins w). split.
  - intros Hn. destruct (admins w) as [|[id u] l] eqn:Ha; [cbn in Hn; lia|]. exists id, u. apply elem_of_admins.
    rewrite Ha. by left.
  - intros (id & u & Hu). apply elem_of_admins in Hu. destruct (admins w); [by apply not_elem_of_nil in Hu|]. cbn. lia.
Qed.

Lemma keeps_admins_count w w' : keeps_admins w w' → 0 < count_admins w → 0 < count_admins w'.
Proof. rewrite !count_admins_pos. intros Hk (id & u & Hu & Ha). exists id. by apply (Hk id u). Qed.

(** With two administrators, one is not the given user. *)
Lemma another_admin w id :
  1 < count_admins w → ∃ other u, other ≠ id ∧ ac_users (acc w) !! other = Some u ∧ us_IsAdmin u = true.
Proof.
  unfold count_admins. fold (admins w). intros Hn.
  assert (NoDup (map fst (admins w))) as Hd.
  { unfold admins. eapply sublist_NoDup; [apply (NoDup_fst_map_to_list (ac_users (acc w)))|]. apply fmap_sublist, sublist_filter. }
  assert (∀ p, p ∈ admins w → ac_users (acc w) !! p.1 = Some p.2 ∧ us_IsAdmin p.2 = true) as Hin
    by (intros [i u]; apply elem_of_admins).
  destruct (admins w) as [|[a x] [|[b y] l]]; cbn in Hn; [lia|lia|].
  destruct (decide (a = id)) as [->|Ha]; [exists b, y|exists a, x].
  - split; [|apply (Hin (b, y)); right; by left]. intros ->. cbn in Hd. apply NoDup_cons in Hd as [Hd _]. apply Hd. by left.
  - split; [done|]. apply (Hin (a, x)). by left.
Qed.

Create HintDb admins.

Section admins.
Context {env : Env} {app : App}.

Lemma harmless_admins {A} (p : Go Database A) : guarantees harmless p → guarantees keeps_admins p.
Proof.
  induction p as [a|g k IH]; [done|]. intros Hp w. destruct (Hp w) as [Hg Hk]. split; [|by apply IH].
  by apply same_users_keep, hl_users.
Qed.

Lemma reads_admins {A} (p : Go Database A) : reads p → guarantees keeps_admins p.
Proof. intros Hp. by apply harmless_admins, reads_harmless. Qed.

Lemma zoom_admins {A} (p : Go Inventory A) : guarantees keeps_admins (zoom p).
Proof. induction p as [a|g k IH]; [done|]. intros w. split; [by apply same_users_keep|apply IH]. Qed.

Lemma stmt_admins {A} (f : Z → World Database → result db_error (A * World Database)) :
  (∀ now w a w', f now w = Ok (a, w') → keeps_admins w w') → guarantees keeps_admins (stmt f).
Proof. intros Hf. apply guarantees_stmt; [intros w; by apply same_users_keep|]. intros w now a w' Hr. etrans; [|by eapply Hf]. by apply same_users_keep. Qed.

(** ** The statements on accounts *)

Lemma edit_users_admins {B} (f : Z → World Database → B) (g : gmap string UserRow → gmap string UserRow) :
  (∀ m id u, m !! id = Some u → us_IsAdmin u = true → ∃ u', g m !! id = Some u' ∧ us_IsAdmin u' = true) →
  guarantees keeps_admins (stmt (λ now w, Ok (f now w, edit_acc (λ a, put_users (g (ac_users a)) a) w))).
Proof. intros Hg. apply stmt_admins. intros now w a w' [= <- <-] id u. apply Hg. Qed.

Lemma alter_admins (h : UserRow → UserRow) target (m : gmap string UserRow) id u :
  (∀ x, us_IsAdmin x = true → us_IsAdmin (h x) = true) →
  m !! id = Some u → us_IsAdmin u = true → ∃ u', alter h target m !! id = Some u' ∧ us_IsAdmin u' = true.
Proof.
  intros Hh Hu Ha. destruct (decide (target = id)) as [->|Hn].
  - exists (h u). by rewrite lookup_alter_eq, Hu; auto.
  - exists u. by rewrite lookup_alter_ne.
Qed.

Lemma SetUserPassword_admins id hash : guarantees keeps_admins (SetUserPassword id hash).
Proof. apply edit_users_admins. intros m k u. by apply alter_admins. Qed.

(** Statements on the other tables of the accounts. *)
Ltac same_users :=
  apply stmt_admins; intros ? ? ? ? Hs; cbn zeta in Hs; repeat (case_match; simplify_eq/=; try done); simplify_eq/=;
  by apply same_users_keep.

Lemma revoke_admins f : guarantees keeps_admins (revoke f).
Proof. same_users. Qed.
Lemma StartTOTPEnrollment_admins id s : guarantees keeps_admins (StartTOTPEnrollment id s).
Proof. same_users. Qed.
Lemma EnableTOTP_admins id l : guarantees keeps_admins (EnableTOTP id l).
Proof. same_users. Qed.
Lemma DisableTOTP_admins id : guarantees keeps_admins (DisableTOTP id).
Proof. same_users. Qed.
Lemma ConsumeRecoveryCode_admins id h : guarantees keeps_admins (ConsumeRecoveryCode id h).
Proof. same_users. Qed.
Lemma DeleteAPIToken_admins id u : guarantees keeps_admins (DeleteAPIToken id u).
Proof. same_users. Qed.
Lemma CreateAPIToken_admins id name hash : guarantees keeps_admins (CreateAPIToken id name hash).
Proof.
  apply guarantees_try; [apply reads_admins, reads_token|]. intros t. apply guarantees_try; [same_users|]. intros _.
  apply reads_admins, reads_stmt. intros now w a w' Hr. by case_match; simplify_eq.
Qed.

Lemma insert_user_admins id username name hash role isAdmin subject now w a w' :
  insert_user id username name hash role isAdmin subject now w = Ok (a, w') → keeps_admins w w'.
Proof.
  unfold insert_user. destruct (_ || _) eqn:Hg; [done|]. intros [= <- <-] k u Hu Ha. cbn. exists u. split; [|done].
  apply orb_false_iff in Hg as [Hg%bool_decide_eq_false _]. rewrite lookup_insert_ne; [done|]. intros <-. apply Hg. by exists u.
Qed.

Lemma CreateUser_admins username name hash role : guarantees keeps_admins (CreateUser username name hash role).
Proof.
  apply guarantees_try; [apply reads_admins, reads_token|]. intros id. apply stmt_admins. intros now w a w'.
  apply insert_user_admins.
Qed.

Lemma CreateAuditLog_admins who action st sid metadata :
  guarantees keeps_admins (CreateAuditLog (Inv := Database) who action st sid metadata).
Proof. apply harmless_admins, CreateAuditLog_harmless. Qed.

Lemma hash_password_admins p : guarantees keeps_admins (hash_password p).
Proof. apply guarantees_atomic. intros w. by apply same_users_keep. Qed.

Lemma currentSession_admins r : guarantees keeps_admins (currentSession r).
Proof. apply harmless_admins, currentSession_harmless. Qed.

Lemma CreateAdmin_admins username name hash : guarantees keeps_admins (CreateAdmin username name hash).
Proof.
  apply guarantees_try; [apply reads_admins, reads_token|]. intros id. apply stmt_admins. intros now w a w'.
  apply insert_user_admins.
Qed.

Lemma CreateSession_admins user expires ip agent : guarantees keeps_admins (CreateSession user expires ip agent).
Proof.
  apply guarantees_try; [apply reads_admins, reads_token|]. intros id.
  apply guarantees_try; [apply reads_admins, reads_token|]. intros csrf. same_users.
Qed.

Lemma DeleteSession_admins id : guarantees keeps_admins (DeleteSession id).
Proof. same_users. Qed.
Lemma attempts_admins (f : Z → list attempt → list attempt) :
  guarantees keeps_admins (stmt (λ now w, Ok ((), edit_acc (λ a, put_attempts (f now (ac_attempts a)) a) w))).
Proof. same_users. Qed.

(** ** The handlers *)

Hint Resolve SetUserPassword_admins revoke_admins StartTOTPEnrollment_admins EnableTOTP_admins DisableTOTP_admins
  ConsumeRecoveryCode_admins DeleteAPIToken_admins CreateAPIToken_admins CreateUser_admins CreateAdmin_admins
  CreateAuditLog_admins hash_password_admins currentSession_admins CreateSession_admins DeleteSession_admins
  attempts_admins zoom_admins : admins.

Ltac head_of t := lazymatch t with ?f _ => head_of f | _ => t end.

Ltac admins_step :=
  match goal with
  | |- guarantees _ (Ret _) => exact I
  | |- guarantees _ (respond _) => exact I
  | |- guarantees _ (prog_bind _ _) => apply guarantees_bind; [|intros ?]
  | |- guarantees _ (match ?x with _ => _ end) => destruct x
  | |- guarantees _ (atomic _) => apply guarantees_atomic; intros ?; by apply same_users_keep
  | |- guarantees _ _ => solve [eauto with admins]
  | |- guarantees _ (stmt _) => same_users
  | |- guarantees _ ?p => let h := head_of p in unfold h
  end.

Lemma session_writes_admins : Forall (λ x : route, ∀ r, guarantees keeps_admins (x.2 r)) session_writes.
Proof.
  unfold session_writes. repeat (apply Forall_cons; split); [..|by apply Forall_nil]; intros r; cbn [snd].
  all: repeat admins_step.
Qed.

(** The administration of users and fields, but for roles and deletion. *)
Definition other_admin_writes : list Handler := [userCreate; userResetPassword; customFieldCreate; customFieldDelete].

Lemma other_writes_admins : Forall (λ h : Handler, ∀ r, guarantees keeps_admins (h r)) other_admin_writes.
Proof.
  unfold other_admin_writes. repeat (apply Forall_cons; split); [..|by apply Forall_nil]; intros r.
  all: repeat admins_step.
Qed.

Lemma other_routes_admins : Forall (λ x : route, ∀ r, guarantees keeps_admins (x.2 r)) other_routes.
Proof.
  unfold other_routes. repeat (apply Forall_cons; split); [..|by apply Forall_nil]; intros r; cbn [snd].
  all: repeat admins_step.
Qed.

Lemma authenticateAPI_admins r : guarantees keeps_admins (authenticateAPI r).
Proof. apply harmless_admins, authenticateAPI_harmless. Qed.
Hint Resolve authenticateAPI_admins : admins.

Lemma api_routes_admins : Forall (λ x : route, ∀ r, guarantees keeps_admins (x.2 r)) registerAPIRoutes.
Proof.
  unfold registerAPIRoutes. apply Forall_app. split.
  - unfold api_routes. repeat (apply Forall_cons; split); [..|by apply Forall_nil]; intros r; cbn [snd].
    all: repeat admins_step.
  - apply Forall_forall. intros x Hx r. by rewrite (not_allowed_handler x Hx).
Qed.

(** ** Roles and deletion, alone *)

Lemma alone_admins {A} (p : Go Database A) w : guarantees keeps_admins p → keeps_admins w (alone p w).2.
Proof. intros Hp. by apply (guarantees_exec keeps_admins). Qed.

(** The target a managed-user page works on, as the database has it. *)
Lemma loadManagedUser_alone (Q : World Database → Prop) r next w :
  (∀ w', keeps_admins w w' → Q w') →
  (∀ s t w' u, keeps_admins w w' → ac_users (acc w') !! u_ID t = Some u → us_IsAdmin u = u_IsAdmin t →
     Q (alone (next s t) w').2) →
  Q (alone (loadManagedUser r next) w).2.
Proof.
  intros Hq Hn. unfold loadManagedUser, requireAdmin, requireSession. rewrite alone_bind.
  pose proof (alone_admins (currentSession r) w (currentSession_admins r)) as Hw.
  destruct (alone (currentSession r) w) as [[s|] w1]; cbn [snd] in Hw; [|by apply Hq].
  destruct (negb _); [by apply Hq|]. rewrite alone_bind. unfold GetUser. rewrite alone_stmt. unfold run_stmt.
  assert (keeps_admins w (bump w1)) as Hb by (etrans; [exact Hw|by apply same_users_keep]).
  destruct (fault _); [by apply Hq|]. change (ac_users (acc (bump w1))) with (ac_users (acc w1)).
  destruct (ac_users (acc w1) !! rq_PathValue r) as [u|] eqn:Hu; [|by apply Hq]. by apply (Hn _ _ _ u).
Qed.

Lemma positive_after {A} (p : Go Database A) w :
  guarantees keeps_admins p → 0 < count_admins w → 0 < count_admins (alone p w).2.
Proof. intros Hp. by apply keeps_admins_count, alone_admins. Qed.

(** A refusal keeps the administrators; past it, there is another one. *)
Lemma unless_last_admin_alone message failed next w :
  0 < count_admins w →
  (∀ w', ac_users (acc w') = ac_users (acc w) → 1 < count_admins w' → 0 < count_admins (alone next w').2) →
  0 < count_admins (alone (unless_last_admin message failed next) w).2.
Proof.
  intros Hw Hn. unfold unless_last_admin, isLastAdmin. rewrite alone_bind, alone_try. unfold CountAdmins.
  rewrite alone_stmt. unfold run_stmt. destruct (fault _); [done|]. rewrite alone_ret.
  change (count_admins (bump w)) with (count_admins w). destruct (Z.leb_spec (count_admins w) 1).
  - apply positive_after; [|done]. repeat admins_step.
  - by apply Hn.
Qed.

(** A statement that leaves an administrator where it is done, and a program that keeps them. *)
Lemma after_write {A B} (refuse : World Database → bool) (f : Z → World Database → A)
    (g : gmap string UserRow → gmap string UserRow)
    (h : result db_error A → Go Database B) (w : World Database) (write : Z → World Database → World Database) :
  (∀ now w', ac_users (acc (write now w')) = g (ac_users (acc w'))) →
  (∀ a, guarantees keeps_admins (h a)) → 0 < count_admins w →
  (∃ other u, g (ac_users (acc w)) !! other = Some u ∧ us_IsAdmin u = true) →
  0 < count_admins (alone (prog_bind h (stmt (λ now w',
    if refuse w' then Err ErrCheck else Ok (f now w', write now w')))) w).2.
Proof.
  intros Hwr Hh Hw Hg. rewrite alone_bind, alone_stmt. unfold run_stmt. destruct (fault _).
  { by apply positive_after; [apply Hh|]. }
  destruct (refuse (bump w)); (apply positive_after; [apply Hh|]); [done|]. apply count_admins_pos. by rewrite Hwr.
Qed.

(** When there are two, a change of one user leaves the other. *)
Lemma after_write_other {A B} (refuse : World Database → bool) (f : Z → World Database → A) (g : gmap string UserRow → gmap string UserRow) id
    (h : result db_error A → Go Database B) (w : World Database) (write : Z → World Database → World Database) :
  (∀ now w', ac_users (acc (write now w')) = g (ac_users (acc w'))) → (∀ m other, other ≠ id → g m !! other = m !! other) →
  (∀ a, guarantees keeps_admins (h a)) → 1 < count_admins w →
  0 < count_admins (alone (prog_bind h (stmt (λ now w',
    if refuse w' then Err ErrCheck else Ok (f now w', write now w')))) w).2.
Proof.
  intros Hwr Hg Hh Hw. apply (after_write refuse f g h w write Hwr Hh); [lia|].
  destruct (another_admin w id Hw) as (other & u & Ho & Hu & Ha). exists other, u. by rewrite Hg.
Qed.

Lemma userSetRole_admins r w : 0 < count_admins w → 0 < count_admins (alone (userSetRole r) w).2.
Proof.
  intros Hw. unfold userSetRole. apply (loadManagedUser_alone (λ w, 0 < count_admins w)).
  { intros w' Hk. by apply (keeps_admins_count w). }
  intros s t w' u Hk Hu Ha. assert (0 < count_admins w') as Hw' by (by apply (keeps_admins_count w)).
  unfold withCSRF. destruct (verifySessionCSRF r s); [|done]. cbn zeta.
  destruct (ValidRole (field r "role")) eqn:Hv; cbn [negb]; [|apply positive_after; [repeat admins_step|done]].
  destruct (u_IsAdmin t && negb (bool_decide (field r "role" = RoleAdmin))) eqn:Hg.
  - apply unless_last_admin_alone; [done|]. intros w1 _ H1. unfold set_role_of, SetUserRole. rewrite Hv.
    apply (after_write_other (λ _, false) (λ _ _, ()) (alter (set_role (field r "role")) (u_ID t)) (u_ID t)); [done| | |done].
    + intros m other Ho. by rewrite lookup_alter_ne.
    + intros a. repeat admins_step.
  - unfold set_role_of, SetUserRole. rewrite Hv.
    apply (after_write (λ _, false) (λ _ _, ()) (alter (set_role (field r "role")) (u_ID t))); [done| |done|].
    { intros a. repeat admins_step. }
    apply count_admins_pos in Hw' as (id & x & Hx & Hax). destruct (decide (u_ID t = id)) as [<-|Hne].
    + exists (u_ID t), (set_role (field r "role") x). rewrite lookup_alter_eq, Hx. split; [done|].
      rewrite Hu in Hx. injection Hx as ->. rewrite <- Ha, Hax in Hg. cbn. by destruct (bool_decide _).
    + exists id, x. by rewrite lookup_alter_ne.
Qed.

Lemma userDelete_admins r w : 0 < count_admins w → 0 < count_admins (alone (userDelete r) w).2.
Proof.
  intros Hw. unfold userDelete. apply (loadManagedUser_alone (λ w, 0 < count_admins w)).
  { intros w' Hk. by apply (keeps_admins_count w). }
  intros s t w' u Hk Hu Ha. assert (0 < count_admins w') as Hw' by (by apply (keeps_admins_count w)).
  unfold withCSRF. destruct (verifySessionCSRF r s); [|done].
  destruct (decide (u_ID t = u_ID (se_User s))); [apply positive_after; [repeat admins_step|done]|].
  destruct (u_IsAdmin t) eqn:Hg.
  - apply unless_last_admin_alone; [done|]. intros w1 _ H1. unfold delete_user_of, DeleteUser.
    apply (after_write_other (prevent_audit_log_mutation (u_ID t)) (λ _ _, ()) (delete (u_ID t)) (u_ID t)); [done| | |done].
    + intros m other Ho. by rewrite lookup_delete_ne.
    + intros a. repeat admins_step.
  - unfold delete_user_of, DeleteUser. apply (after_write (prevent_audit_log_mutation (u_ID t)) (λ _ _, ()) (delete (u_ID t))); [done| |done|].
    { intros a. repeat admins_step. }
    apply count_admins_pos in Hw' as (id & x & Hx & Hax). exists id, x. rewrite lookup_delete_ne; [done|].
    intros <-. rewrite Hu in Hx. injection Hx as ->. by rewrite Hax in Ha.
Qed.


End admins.

(** Alice, the only administrator left, cannot demote herself. *)
Definition alice_alone : World Database := edit_acc (λ a, put_users (delete "b" (ac_users a)) a) demo_world.
Definition alice_resigns : Request :=
  request "POST" "/settings/users/a/role" "a" "sa" [("csrf_token", "ta"); ("role", "viewer")].


(** * Where a lost read lets a request through

    Runs of the handlers on the installation of [Demo] in which one statement is
    lost, or another request comes in between, and the outcome is not the one the
    code is written for. *)

(** ** Authorization fails open *)

Definition viewer_deletes : Request := request "POST" "/subnets/n/delete" "n" "sv" [("csrf_token", "tv")].
Definition guarded_delete (e : Env) : Handler := authorize (env := e) (subnetDelete (env := e)).

(** A viewer is refused; but when the session read of [authorize] is lost, the
    request goes through, and the handler, which reads the session again and checks
    no role, deletes the subnet for the viewer. *)
Theorem authorize_fails_open :
  rs_Body (alone (guarded_delete calm_env viewer_deletes) demo_world).1 = ForbiddenPage ∧
  rs_Body (alone (guarded_delete (lossy_env 1) viewer_deletes) demo_world).1 = Redirect "/subnets" ∧
  iv_subnets (db_inv (w_inv (alone (guarded_delete (lossy_env 1) viewer_deletes) demo_world).2)) !! "n" = None.
Proof. split_and!; vm_compute; reflexivity. Qed.

(** ** The second factor is skipped *)

Definition alice_signs_in : Request :=
  MkRequest "POST" "/login" "" {[csrfCookie := "c"]}
    (list_to_map [("csrf_token", ["c"]); ("username", ["alice"]); ("password", ["correct horse"])]) ∅ None false None ∅
    "10.0.0.9:51000" "" "" "".

(** A user with a confirmed second factor is sent to give a code; but when the
    read of the factor is lost, the password alone signs the user in. *)
Theorem login_skips_second_factor :
  rs_Body (alone (login_handler (env := calm_env) alice_signs_in) demo_world).1 = Redirect "/login/mfa" ∧
  ac_sessions (acc (alone (login_handler (env := calm_env) alice_signs_in) demo_world).2) = ac_sessions (acc demo_world) ∧
  rs_Body (alone (login_handler (env := lossy_env 4) alice_signs_in) demo_world).1 = Redirect "/" ∧
  sr_User <$> ac_sessions (acc (alone (login_handler (env := lossy_env 4) alice_signs_in) demo_world).2) !! "tttttttt" = Some "a".
Proof. split_and!; vm_compute; reflexivity. Qed.

(** ** A page disables the factor *)

Definition alice_looks : Request := request "GET" "/account/mfa" "" "sa" [].

(** The two-factor page, a GET, leaves a confirmed factor alone; but when its read
    of the enrolment is lost, it starts a new one in its place, which turns the
    factor off. *)
Theorem mfaSettings_disables_factor :
  ac_totp (acc (alone (mfaSettings (env := calm_env) alice_looks) demo_world).2) !! "a" = Some (MkTOTPRow demo_sealed true (Some 0)) ∧
  tr_Enabled <$> ac_totp (acc (alone (mfaSettings (env := lossy_env 2) alice_looks) demo_world).2) !! "a" = Some false.
Proof. split_and!; vm_compute; reflexivity. Qed.

(** ** The last administrator *)

Definition demotes (cookie csrf target : string) : Request :=
  request "POST" ("/settings/users/" +:+ target +:+ "/role") target cookie [("csrf_token", csrf); ("role", "viewer")].
Definition set_role_handler : Handler := userSetRole (env := calm_env).

(** Bob's whole request comes in before the fifth step of Alice's, which has
    counted two administrators and is about to write. *)
Definition bob_in_between (i : nat) (w : World Database) : World Database :=
  if (i =? 4)%nat then (alone (set_role_handler (demotes "sb" "tb" "a")) w).2 else w.

(** Two administrators who demote each other at the same time leave none, and the
    first visitor is then offered to create an administrator. *)
Theorem last_admins_race :
  let '(res, w) := exec bob_in_between 0 (set_role_handler (demotes "sa" "ta" "b")) demo_world in
  rs_Body res = Redirect "/settings/users?notice=updated" ∧ count_admins w = 0 ∧
  (alone (needsBootstrap (env := calm_env)) w).1 = true.
Proof.
  set (run := exec _ _ _ _).
  assert (rs_Body run.1 = Redirect "/settings/users?notice=updated") as H1 by (vm_compute; reflexivity).
  assert (count_admins run.2 = 0) as H2 by (vm_compute; reflexivity).
  assert ((alone (needsBootstrap (env := calm_env)) run.2).1 = true) as H3 by (vm_compute; reflexivity).
  by destruct run as [res w].
Qed.

(** ** A detached address *)

Definition after_deletion : World Database :=
  (alone (subnetDelete (env := calm_env) (request "POST" "/subnets/n/delete" "n" "sa" [("csrf_token", "ta")])) demo_world).2.
Definition searches (q : string) : Request :=
  MkRequest "GET" "/search" "" {[sessionCookie := "sv"]} ∅ ∅ None false None {["q" := q]} "10.0.0.9:51000" "" "" "".
Definition shows_device : Request := request "GET" "/devices/d" "d" "sv" [].

(** The page that confirms the deletion of a subnet says that it detaches the
    addresses; a detached address makes the page of its device, and any search that
    finds it, fail. *)
Theorem detached_address_breaks_pages :
  rs_Body (alone (deviceShow (env := calm_env) shows_device) demo_world).1 = Page "device_detail.html" "NAS" "" "" ∧
  rs_Body (alone (deviceShow (env := calm_env) shows_device) after_deletion).1 = HttpError "Unable to load addresses" 500 ∧
  rs_Body (alone (search (env := calm_env) (searches "10.0.0.5")) after_deletion).1 = HttpError "Unable to run search" 500.
Proof. split_and!; vm_compute; reflexivity. Qed.
