(* ===== verification/Events.v ===== *)
(** * Dates and quoted text

    The date of an instant, the layouts [time.Format] prints it with, and the quoted
    strings of [%q]. *)

From S2P Require Import Prelude GoStrings GoTime Totp Secrets Json.
Local Open Scope Z_scope.

(** The year, month and day of a day counted from the Unix epoch: within a cycle of
    400 years that starts in March. *)
Definition year_of_era (doe : Z) : Z := (doe - doe / 1460 + doe / 36524 - doe / 146096) / 365.
Definition civil_of_days (z : Z) : Z * Z * Z :=
  let era := (z + 719468) / 146097 in
  let doe := (z + 719468) mod 146097 in
  let yoe := year_of_era doe in
  let doy := doe - (365 * yoe + yoe / 4 - yoe / 100) in
  let mp := (5 * doy + 2) / 153 in
  let d := doy - (153 * mp + 2) / 5 + 1 in
  let m := if mp <? 10 then mp + 3 else mp - 9 in
  (yoe + era * 400 + (if m <=? 2 then 1 else 0), m, d).

(** The year in four digits, behind a sign when it is negative. *)
Definition year_text (y : Z) : string := if y <? 0 then "-" +:+ pad_itoa 4 (- y) else pad_itoa 4 y.

(** [t.Format("2006-01-02")] *)
Definition date_text (t : Z) : string :=
  let '(y, m, d) := civil_of_days (t / day) in year_text y +:+ "-" +:+ pad_itoa 2 m +:+ "-" +:+ pad_itoa 2 d.

(** [t.Format("15:04:05")] *)
Definition clock_text (t : Z) : string :=
  let s := t mod day / second in
  pad_itoa 2 (s / 3600) +:+ ":" +:+ pad_itoa 2 (s / 60 mod 60) +:+ ":" +:+ pad_itoa 2 (s mod 60).

(** [time.RFC3339] in UTC, and [time.RFC3339Nano], whose fraction has no trailing zeros. *)
Definition RFC3339 (t : Z) : string := date_text t +:+ "T" +:+ clock_text t +:+ "Z".
Definition RFC3339Nano (t : Z) : string :=
  let f := t mod second in
  date_text t +:+ "T" +:+ clock_text t +:+
  (if f =? 0 then "" else "." +:+ trim_right_func (λ c, bool_decide (c = "0"%char)) (pad_itoa 9 f)) +:+ "Z".

Example RFC3339_1 : RFC3339 (1700136000 * second) = "2023-11-16T12:00:00Z".
Proof. vm_compute. reflexivity. Qed.
Example RFC3339Nano_1 : RFC3339Nano (1709210096 * second + 250000000) = "2024-02-29T12:34:56.25Z".
Proof. vm_compute. reflexivity. Qed.

(** ** Every day has its date *)

(** The month and day of a day of the year that starts in March. *)
Definition month_ok (doy : Z) : bool :=
  let mp := (5 * doy + 2) / 153 in
  let d := doy - (153 * mp + 2) / 5 + 1 in
  let m := if mp <? 10 then mp + 3 else mp - 9 in
  (1 <=? m) && (m <=? 12) && (1 <=? d) && (d <=? 31) &&
  ((153 * (m + (if 2 <? m then -3 else 9)) + 2) / 5 + d - 1 =? doy).

Lemma months_ok : forallb month_ok (seqZ 0 366) = true.
Proof. vm_compute. reflexivity. Qed.

Lemma year_of_era_range doe :
  0 ≤ doe < 146097 →
  let yoe := year_of_era doe in
  0 ≤ yoe < 400 ∧ 0 ≤ doe - (365 * yoe + yoe / 4 - yoe / 100) < 366.
Proof.
  intros Hd. unfold year_of_era. cbv zeta. Z.to_euclidean_division_equations. lia.
Qed.

(** The date of a day is the date the day is computed from. *)
Lemma days_from_civil_of_days z : let '(y, m, d) := civil_of_days z in days_from_civil y m d = z ∧ 1 ≤ m ≤ 12 ∧ 1 ≤ d ≤ 31.
Proof.
  unfold civil_of_days. cbv zeta.
  assert (0 ≤ (z + 719468) mod 146097 < 146097) as Hd by (apply Z.mod_pos_bound; lia).
  pose proof (Z.div_mod (z + 719468) 146097 ltac:(lia)) as Hz.
  set (era := (z + 719468) / 146097) in *. set (doe := (z + 719468) mod 146097) in *. clearbody era doe.
  destruct (year_of_era_range doe Hd) as [Hy Hdoy]. set (yoe := year_of_era doe) in *. clearbody yoe.
  assert (doe = 365 * yoe + yoe / 4 - yoe / 100 + (doe - (365 * yoe + yoe / 4 - yoe / 100))) as Hdoe by lia.
  set (doy := doe - (365 * yoe + yoe / 4 - yoe / 100)) in *. clearbody doy.
  pose proof months_ok as Hm. rewrite forallb_forall in Hm.
  specialize (Hm doy ltac:(apply list_elem_of_In, elem_of_seqZ; lia)). unfold month_ok in Hm. cbv zeta in Hm.
  set (m := if (5 * doy + 2) / 153 <? 10 then _ else _) in *. clearbody m. bool_hyps.
  unfold days_from_civil. cbv zeta. split; [|lia].
  replace (if m <=? 2 then yoe + era * 400 + (if m <=? 2 then 1 else 0) - 1 else yoe + era * 400 + (if m <=? 2 then 1 else 0))
    with (yoe + era * 400) by (destruct (m <=? 2); lia).
  rewrite Z.div_add, Z.mod_add, Z.div_small, Z.mod_small by lia. lia.
Qed.

(** ** Quoted strings *)

Definition rune_value (r : string) : Z :=
  match map byte_val (str_to_list r) with
  | [a] => a
  | [a; b] => (a - 192) * 64 + (b - 128)
  | [a; b; c] => ((a - 224) * 64 + (b - 128)) * 64 + (c - 128)
  | [a; b; c; d] => (((a - 240) * 64 + (b - 128)) * 64 + (c - 128)) * 64 + (d - 128)
  | _ => 0
  end.

Fixpoint hex_text (n : nat) (v : Z) : string :=
  match n with O => "" | S n => hex_text n (v / 16) +:+ String (hex_digit (v mod 16)) "" end.

Section quote.
(** The table of the printable runes above U+00FF. *)
Context (printable : Z → bool).

Definition IsPrint (r : Z) : bool :=
  if r <=? 255 then ((32 <=? r) && (r <? 127)) || ((161 <=? r) && negb (r =? 173)) else printable r.

Definition quote_rune (r : string) : string :=
  let v := rune_value r in
  if bool_decide (r = String quote "" ∨ r = "\") then "\" +:+ r
  else if IsPrint v then r
  else if v =? 7 then "\a" else if v =? 8 then "\b" else if v =? 12 then "\f" else if v =? 10 then "\n"
  else if v =? 13 then "\r" else if v =? 9 then "\t" else if v =? 11 then "\v"
  else if (v <? 32) || (v =? 127) then "\x" +:+ hex_text 2 v
  else if v <? 65536 then "\u" +:+ hex_text 4 v
  else "\U" +:+ hex_text 8 v.

(** [strconv.Quote]: a byte that belongs to no rune is written in hexadecimal. *)
Fixpoint quote_go (fuel : nat) (s : string) : string :=
  match fuel, s with
  | S fuel, String c s' =>
      match rune_head c s' with
      | Some (r, rest) => quote_rune r +:+ quote_go fuel rest
      | None => "\x" +:+ hex_byte c +:+ quote_go fuel s'
      end
  | _, _ => ""
  end.
Definition Quote (s : string) : string := String quote (quote_go (slen s) s +:+ String quote "").
End quote.

Example Quote_1 : Quote (λ _, true) "Office" = quoted "'Office'".
Proof. vm_compute. reflexivity. Qed.

(** * Change events

    The pure half of [internal/webhook/webhook.go]: which audited actions become
    events, what an event looks like on the wire, and how it is signed. *)

(** ** Categories *)

Definition CategoryIPAM : string := "ipam".
Definition CategoryDiscovery : string := "discovery".
Definition CategoryScan : string := "scan".
Definition CategorySecurity : string := "security".

Definition Categories : list string := [CategoryIPAM; CategoryDiscovery; CategoryScan; CategorySecurity].
Definition ValidCategory (c : string) : bool :=
  bool_decide (c = CategoryIPAM ∨ c = CategoryDiscovery ∨ c = CategoryScan ∨ c = CategorySecurity).

Definition hasPrefixAny (s : string) (prefixes : list string) : bool := existsb (has_prefix s) prefixes.

(** The category of an action, if it is sent at all. *)
Definition categoryForAction (action : string) : option string :=
  if has_suffix action ".csv_exported" then None
  else if hasPrefixAny action ["subnet."; "address."; "device."; "mac."] then Some CategoryIPAM
  else if has_prefix action "scan.discovery." then Some CategoryDiscovery
  else if hasPrefixAny action ["scan.job."; "scan.schedule."; "scan.agent."] then Some CategoryScan
  else if hasPrefixAny action ["settings."; "user."; "session."] then Some CategorySecurity
  else if has_prefix action "auth." then
    if bool_decide (action ∈ ["auth.login.failed"; "auth.login.locked"; "auth.mfa.failed"]) then Some CategorySecurity
    else None
  else None.

Example categoryForAction_1 : map categoryForAction ["address.bulk_state_set"; "scan.schedule.updated"; "subnet.csv_exported"; "auth.login"] =
  [Some "ipam"; Some "scan"; None; None].
Proof. vm_compute. reflexivity. Qed.

(** ** [json.Valid] *)

(** A value, after its leading space, and what follows it; arrays and objects nest
    at most 10000 deep. *)
Fixpoint read_value (fuel : nat) (depth : Z) (s : string) : option string :=
  match fuel, skip_space s with
  | S fuel, String c rest =>
      if decide (c = quote) then snd <$> read_string (S (slen rest)) rest
      else if decide (c = "["%char) then
        if 10000 <=? depth then None
        else match skip_space rest with
             | String "]" rest => Some rest
             | _ => read_elements fuel (depth + 1) rest
             end
      else if decide (c = "{"%char) then
        if 10000 <=? depth then None
        else match skip_space rest with
             | String "}" rest => Some rest
             | _ => read_pairs fuel (depth + 1) rest
             end
      else
        match strip_prefix "null" (String c rest), strip_prefix "true" (String c rest), strip_prefix "false" (String c rest) with
        | Some rest, _, _ | _, Some rest, _ | _, _, Some rest => Some rest
        | _, _, _ => snd <$> read_number (String c rest)
        end
  | _, _ => None
  end
with read_elements (fuel : nat) (depth : Z) (s : string) : option string :=
  match fuel with
  | O => None
  | S fuel =>
      rest ← read_value fuel depth s;
      match skip_space rest with
      | String "," rest => read_elements fuel depth rest
      | String "]" rest => Some rest
      | _ => None
      end
  end
with read_pairs (fuel : nat) (depth : Z) (s : string) : option string :=
  match fuel, skip_space s with
  | S fuel, String c rest =>
      if decide (c = quote) then
        '(_, rest) ← read_string (S (slen rest)) rest;
        match skip_space rest with
        | String ":" rest =>
            rest ← read_value fuel depth rest;
            match skip_space rest with
            | String "," rest => read_pairs fuel depth rest
            | String "}" rest => Some rest
            | _ => None
            end
        | _ => None
        end
      else None
  | _, _ => None
  end.

(** Each call consumes a byte or is followed by one that does. *)
Definition json_valid (s : string) : bool :=
  match read_value (S (S (slen s + slen s))) 0 s with
  | Some rest => bool_decide (skip_space rest = "")
  | None => false
  end.

Example json_valid_1 : json_valid (quoted "{'a': [1, {'b': null}], 'c': 'x'} ") = true.
Proof. vm_compute. reflexivity. Qed.
Example json_valid_2 : json_valid "[1,]" = false.
Proof. vm_compute. reflexivity. Qed.
Example json_valid_3 : json_valid "not json" = false.
Proof. vm_compute. reflexivity. Qed.

(** ** The wire format *)

(** [compact] with HTML escaping: no space outside strings, and none of the bytes a
    browser would take for markup. [inside] is the state within a string literal. *)
Fixpoint compact (inside escaped : bool) (s : string) : string :=
  match s with
  | "" => ""
  | String c t =>
      let next := compact (if decide (c = quote) then escaped || negb inside else inside)
                    (inside && negb escaped && bool_decide (c = backslash)) in
      if bool_decide (c ∈ ["<"; ">"; "&"]%char) then "\u00" +:+ hex_byte c +:+ next t
      else if inside then
        match s with
        | String a (String b (String d rest)) =>
            if bool_decide (byte_val a = 226 ∧ byte_val b = 128 ∧ (byte_val d = 168 ∨ byte_val d = 169))
            then "\u202" +:+ String (hex_digit (byte_val d mod 16)) (compact inside false rest)
            else String c (next t)
        | _ => String c (next t)
        end
      else if json_space c then next t
      else String c (next t)
  end.

Record Event : Type := MkEvent
  { ev_Type : string; ev_Category : string; ev_SubjectType : string; ev_SubjectID : string;
    ev_ActorUserID : string; ev_Metadata : option string; ev_Instance : string; ev_Timestamp : Z }.

Definition json_member (name text : string) : string := json_string name +:+ ":" +:+ text.
(** [omitempty] *)
Definition unless_empty (name value : string) : list string :=
  if decide (value = "") then [] else [json_member name (json_string value)].

(** [json.Marshal] of an event. *)
Definition event_body (e : Event) : string :=
  "{" +:+ join "," (
    [json_member "event" (json_string (ev_Type e)); json_member "category" (json_string (ev_Category e));
     json_member "subject_type" (json_string (ev_SubjectType e))] ++
    unless_empty "subject_id" (ev_SubjectID e) ++ unless_empty "actor_user_id" (ev_ActorUserID e) ++
    match ev_Metadata e with Some m => [json_member "metadata" (compact false false m)] | None => [] end ++
    [json_member "instance" (json_string (ev_Instance e));
     json_member "timestamp" (json_string (RFC3339Nano (ev_Timestamp e)))]) +:+ "}".

(** What the audit hook receives. *)
Record AuditRecord : Type := MkAuditRecord
  { rec_ActorUserID : option string; rec_Action : string; rec_SubjectType : string; rec_SubjectID : string;
    rec_Metadata : string }.

Definition EventFromAudit (rec : AuditRecord) (inst : string) (now : Z) : option Event :=
  category ← categoryForAction (rec_Action rec);
  Some (MkEvent (rec_Action rec) category (rec_SubjectType rec) (rec_SubjectID rec) (default "" (rec_ActorUserID rec))
    (if bool_decide (rec_Metadata rec ≠ "") && json_valid (rec_Metadata rec) then Some (rec_Metadata rec) else None)
    inst now).

(** ** Subscriptions and signatures *)

Definition matches (events : list string) (category : string) : bool :=
  match events with [] => true | _ => existsb (λ e, bool_decide (e = category)) events end.

Definition hmac_sha256 (key msg : list Z) : list Z :=
  let key := if (64 <? length key)%nat then sha256 key else key in
  let block := key ++ replicate (64 - length key) 0 in
  sha256 (map (Z.lxor 92) block ++ sha256 (map (Z.lxor 54) block ++ msg)).
Definition sign (secret body : string) : string := hex (hmac_sha256 (text_bytes secret) (text_bytes body)).

Example sign_1 : sign "key" "The quick brown fox jumps over the lazy dog" =
  "f7bc83f430538424b13298e6aa6fb143ef4d59a14946175997479dbc2d1a3cd8".
Proof. vm_compute. reflexivity. Qed.

Example event_body_1 :
  event_body (default (MkEvent "" "" "" "" "" None "" 0) (EventFromAudit
    (MkAuditRecord (Some "u") "subnet.created" "subnet" "n" (quoted "{'cidr': '10.0.0.0/24'}")) "light-ipam" (1700136000 * second))) =
  quoted ("{'event':'subnet.created','category':'ipam','subject_type':'subnet','subject_id':'n','actor_user_id':'u'," +:+
    "'metadata':{'cidr':'10.0.0.0/24'},'instance':'light-ipam','timestamp':'2023-11-16T12:00:00Z'}").
Proof. vm_compute. reflexivity. Qed.
