(* ===== verification/Install.v ===== *)
(** * An installation

    The database of [Accounts] with the tables of the webhooks, and what the server
    keeps in memory beside it: the settings the handlers read under
    [settingsMu], and the goroutines that deliver events. *)

From S2P Require Import Prelude GoStrings GoTime Json Process Scans Queue Inventory Portability Lockout Accounts Web Events.
Local Open Scope Z_scope.

(** ** Tables *)

Record WebhookRow : Type := MkWebhookRow
  { wr_Name : string; wr_URL : string; wr_SecretSealed : string; wr_Events : list string; wr_Enabled : bool;
    wr_Created : Z; wr_Updated : Z }.

Record DeliveryRow : Type := MkDeliveryRow
  { dl_ID : Z; dl_Webhook : string; dl_EventType : string; dl_Status : string; dl_StatusCode : Z; dl_Error : string;
    dl_Created : Z }.

(** ** Settings in memory *)

Record PolicySettings : Type := MkPolicySettings
  { CheckOverlaps : bool; CheckStale : bool; CheckServices : bool; StaleAfter : Z; StaleIncludeNeverSeen : bool }.

Record OIDCSettings : Type := MkOIDCSettings
  { oi_Enabled : bool; oi_Issuer : string; oi_ClientID : string; oi_ClientSecret : string; oi_BaseURL : string;
    oi_UsernameClaim : string; oi_AutoProvision : bool }.

(** A provider that was built: the settings it was built from. *)
Record oidcProvider : Type := MkProvider
  { pr_issuer : string; pr_clientID : string; pr_redirect : string; pr_secret : string }.

(** [mm_Active] is the number of enabled webhooks, as last counted. *)
Record Memory : Type := MkMemory
  { mm_Security : SecuritySettings; mm_Policy : PolicySettings; mm_OIDC : OIDCSettings;
    mm_Provider : option oidcProvider; mm_Active : Z }.

(** [is_sending]: the events whose delivery was started. *)
Record Installation : Type := MkInstallation
  { is_db : Database; is_hooks : gmap string WebhookRow; is_deliveries : list DeliveryRow; is_next : Z;
    is_memory : Memory; is_sending : list Event }.

Definition edit_install (f : Installation → Installation) (w : World Installation) : World Installation :=
  with_inv (f (w_inv w)) w.
Definition put_db (d : Database) (x : Installation) : Installation :=
  MkInstallation d (is_hooks x) (is_deliveries x) (is_next x) (is_memory x) (is_sending x).
Definition put_hooks (h : gmap string WebhookRow) (x : Installation) : Installation :=
  MkInstallation (is_db x) h (is_deliveries x) (is_next x) (is_memory x) (is_sending x).
Definition put_deliveries (l : list DeliveryRow) (n : Z) (x : Installation) : Installation :=
  MkInstallation (is_db x) (is_hooks x) l n (is_memory x) (is_sending x).
Definition put_memory (m : Memory) (x : Installation) : Installation :=
  MkInstallation (is_db x) (is_hooks x) (is_deliveries x) (is_next x) m (is_sending x).
Definition put_sending (l : list Event) (x : Installation) : Installation :=
  MkInstallation (is_db x) (is_hooks x) (is_deliveries x) (is_next x) (is_memory x) l.

Definition memory (w : World Installation) : Memory := is_memory (w_inv w).
Definition stored_settings (w : World Installation) : gmap string string := iv_settings (db_inv (is_db (w_inv w))).

(** ** Programs of the database in the installation *)

Definition to_database (w : World Installation) : World Database :=
  MkWorld (w_sites w) (w_users w) (w_agents w) (w_schedules w) (w_jobs w) (w_audit w) (is_db (w_inv w)) (w_spawned w) (w_step w).
Definition of_database (w : World Installation) (v : World Database) : World Installation :=
  MkWorld (w_sites v) (w_users v) (w_agents v) (w_schedules v) (w_jobs v) (w_audit v)
    (put_db (w_inv v) (w_inv w)) (w_spawned v) (w_step v).

Fixpoint lift {A} (p : Go Database A) : Go Installation A :=
  match p with
  | Ret a => Ret a
  | Atom g k => Atom (λ w, of_database w (g (to_database w))) (λ w, lift (k (to_database w)))
  end.

Lemma to_of_database w v : to_database (of_database w v) = v.
Proof. by destruct v. Qed.

(** A lifted program runs as in the database. *)
Lemma alone_lift {A} (p : Go Database A) w :
  alone (lift p) w = ((alone p (to_database w)).1, of_database w (alone p (to_database w)).2).
Proof.
  unfold alone. generalize 0%nat. revert w. induction p as [a|g k IH]; intros w i; cbn.
  - by destruct w as [? ? ? ? ? ? []].
  - rewrite IH. unfold quiet. by rewrite to_of_database.
Qed.

(** ** Memory *)

Section memory.
Context {env : Env} {app : App}.

(** One access under [settingsMu]. *)
Definition read_memory {A} (f : Memory → A) : Go Installation A := atomic (λ w, (f (memory w), w)).
Definition write_memory (f : Memory → Memory) : Go Installation unit :=
  atomic (λ w, ((), edit_install (put_memory (f (memory w))) w)).

Definition securitySettings : Go Installation SecuritySettings := read_memory mm_Security.
Definition setSettings (s : SecuritySettings) : Go Installation unit :=
  write_memory (λ m, MkMemory s (mm_Policy m) (mm_OIDC m) (mm_Provider m) (mm_Active m)).
Definition policySettings : Go Installation PolicySettings := read_memory mm_Policy.
Definition setPolicySettings (s : PolicySettings) : Go Installation unit :=
  write_memory (λ m, MkMemory (mm_Security m) s (mm_OIDC m) (mm_Provider m) (mm_Active m)).
Definition oidcSettings : Go Installation OIDCSettings := read_memory mm_OIDC.
(** A change invalidates the provider. *)
Definition setOIDC (s : OIDCSettings) : Go Installation unit :=
  write_memory (λ m, MkMemory (mm_Security m) (mm_Policy m) s None (mm_Active m)).

(** ** Sessions *)

(** The handlers' view of the server, with the settings in memory. *)
Definition tuned (s : SecuritySettings) : App :=
  MkApp s sealer IDKey inet_in macaddr_in cidr_in lower site_name by_cidr by_address by_mac by_name.

Definition Service : Type := Request → Go Installation Response.
Definition answer (b : body) : Go Installation Response := Ret (MkResponse b []).
Definition failure (message : string) : Go Installation Response := answer (HttpError message StatusInternalServerError).

(** [currentSession] reads the settings once, for its idle cut-off. *)
Definition current_session (r : Request) : Go Installation (option Session) :=
  s ←! securitySettings; lift (currentSession (app := tuned s) r).

Definition with_session (r : Request) (next : Session → Go Installation Response) : Go Installation Response :=
  session ←! current_session r;
  match session with Some s => next s | None => answer (Redirect "/login") end.
Definition with_admin (r : Request) (next : Session → Go Installation Response) : Go Installation Response :=
  with_session r (λ session,
    if negb (u_IsAdmin (se_User session)) then answer ForbiddenPage else next session).
Definition with_csrf (r : Request) (session : Session) (next : Go Installation Response) : Go Installation Response :=
  if verifySessionCSRF r session then next else answer (HttpError "Invalid form token" StatusForbidden).
Definition with_form (r : Request) (next : Go Installation Response) : Go Installation Response :=
  if bool_decide (is_Some (rq_FormError r)) then answer (HttpError "Invalid form" StatusBadRequest) else next.

(** ** The audit log and its hook *)

Definition instance_name : string := "light-ipam".

Definition Active : Go Installation bool := read_memory (λ m, 0 <? mm_Active m).

(** [go d.deliver(...)] *)
Definition deliverAsync (e : Event) : Go Installation unit :=
  atomic (λ w, ((), edit_install (λ x, put_sending (is_sending x ++ [e]) x) w)).

Definition AuditHook (rec : AuditRecord) : Go Installation unit :=
  active ←! Active;
  if negb active then Ret ()
  else match categoryForAction (rec_Action rec) with
       | None => Ret ()
       | Some _ =>
           now ←! time_now;
           match EventFromAudit rec instance_name now with Some e => deliverAsync e | None => Ret () end
       end.

(** [s.CreateAuditLog], whose failure the handlers only log. *)
Definition hooked_log (actor : option string) (action subjectType subjectID metadata : string) : Go Installation unit :=
  done ←! CreateAuditLog actor action subjectType subjectID metadata;
  match done with
  | Err _ => Ret ()
  | Ok _ => AuditHook (MkAuditRecord actor action subjectType subjectID (if decide (metadata = "") then "{}" else metadata))
  end.

Definition hooked_audit (session : Session) (action subjectType subjectID : string) : Go Installation unit :=
  hooked_log (Some (u_ID (se_User session))) action subjectType subjectID "{}".
Definition hooked_auditMeta (actor : option string) (action subjectType subjectID : string) (meta : gmap string string) :
    Go Installation unit :=
  hooked_log actor action subjectType subjectID (Marshal (map_to_list meta)).

End memory.
