(* ===== verification/Settings.v ===== *)
(** * The settings an administrator edits

    [internal/app/settings.go], the settings part of [internal/app/policy.go] and
    [internal/app/oidc_settings.go], [internal/store/settings.go], and the security
    tab of [internal/app/app.go]: settings as text in the database, as values in
    memory and as forms. *)

From S2P Require Import Prelude GoStrings Protocol GoTime Process Scans Queue Inventory Import Records Portability Lockout Secrets Accounts Web Users Pages Batch Demo Routes Config Events Install.
Local Open Scope Z_scope.

(** ** Forms *)

Definition form_set (form : gmap string (list string)) (name : string) : bool := bool_decide (form_get form name ≠ "").
(** A box that was ticked. *)
Definition ticked (name : string) (b : bool) : list (string * string) := if b then [(name, "on")] else [].

Definition FormatBool (b : bool) : string := if b then "true" else "false".

(** [None] is [errOutOfRange]. *)
Definition intInRange (value : string) (min max : Z) : option Z :=
  n ← atoi (trim_space value); if (n <? min) || (max <? n) then None else Some n.
(** The products fit for the limits in use. *)
Definition minutesInRange (value : string) (min max : Z) : option Z :=
  n ← intInRange value min max; Some (wrap64 (n * minute)).
Definition hoursInRange (value : string) (min max : Z) : option Z :=
  n ← intInRange value min max; Some (wrap64 (n * hour)).

(** At least one. *)
Definition in_units (d unit : Z) : Z := let n := Z.quot d unit in if 1 <=? n then n else 1.
Definition durationMinutes (d : Z) : Z := in_units d minute.
Definition durationHours (d : Z) : Z := in_units d hour.
Definition durationDays (d : Z) : Z := in_units d day.

(** ** Stored values *)

(** A duration that is stored, when it can be read and is positive. *)
Definition stored_duration (stored : gmap string string) (key : string) (fallback : Z) : Z :=
  match ParseDuration (default "" (stored !! key)) with
  | Some d => if 0 <? d then d else fallback
  | None => fallback
  end.
Definition stored_bool (stored : gmap string string) (key : string) (fallback : bool) : bool :=
  match stored !! key with Some v => bool_decide (v = "true") | None => fallback end.

Definition settingLoginMaxAttempts : string := "login_max_attempts".
Definition settingLoginWindow : string := "login_window".
Definition settingLoginLockout : string := "login_lockout".
Definition settingSessionAbsolute : string := "session_absolute_timeout".
Definition settingSessionIdle : string := "session_idle_timeout".
Definition settingLogoutKeepsCurrent : string := "logout_everywhere_keeps_current".

Definition settingPolicyCheckOverlaps : string := "policy_check_overlaps".
Definition settingPolicyCheckStale : string := "policy_check_stale".
Definition settingPolicyCheckServices : string := "policy_check_services".
Definition settingPolicyStaleAfter : string := "policy_stale_after".
Definition settingPolicyStaleNeverSeen : string := "policy_stale_include_never_seen".

(** ** Security settings *)

Section security.
Context (cfg : Config).

Definition defaultSecuritySettings : SecuritySettings :=
  MkSecuritySettings (cfg_LoginMaxAttempts cfg) (cfg_LoginWindow cfg) (cfg_LoginLockout cfg)
    (cfg_SessionAbsoluteTimeout cfg) (cfg_SessionIdleTimeout cfg) (cfg_LogoutEverywhereKeepsCurrent cfg).

Definition mergeSettings (stored : gmap string string) : SecuritySettings :=
  let s := defaultSecuritySettings in
  MkSecuritySettings
    (match atoi (default "" (stored !! settingLoginMaxAttempts)) with
     | Some n => if 0 <? n then n else LoginMaxAttempts s
     | None => LoginMaxAttempts s
     end)
    (stored_duration stored settingLoginWindow (LoginWindow s))
    (stored_duration stored settingLoginLockout (LoginLockout s))
    (stored_duration stored settingSessionAbsolute (SessionAbsoluteTimeout s))
    (stored_duration stored settingSessionIdle (SessionIdleTimeout s))
    (stored_bool stored settingLogoutKeepsCurrent (LogoutEverywhereKeepsCurrent s)).
End security.

Definition security_map (s : SecuritySettings) : gmap string string :=
  list_to_map
    [(settingLoginMaxAttempts, itoa (LoginMaxAttempts s)); (settingLoginWindow, duration_text (LoginWindow s));
     (settingLoginLockout, duration_text (LoginLockout s)); (settingSessionAbsolute, duration_text (SessionAbsoluteTimeout s));
     (settingSessionIdle, duration_text (SessionIdleTimeout s));
     (settingLogoutKeepsCurrent, FormatBool (LogoutEverywhereKeepsCurrent s))].

Definition security_form (s : SecuritySettings) : gmap string string :=
  list_to_map (
    [("login_max_attempts", itoa (LoginMaxAttempts s));
     ("login_window_minutes", itoa (durationMinutes (LoginWindow s)));
     ("login_lockout_minutes", itoa (durationMinutes (LoginLockout s)));
     ("session_idle_minutes", itoa (durationMinutes (SessionIdleTimeout s)));
     ("session_absolute_hours", itoa (durationHours (SessionAbsoluteTimeout s)))] ++
    ticked "logout_keeps_current" (LogoutEverywhereKeepsCurrent s)).

Definition submittedSecurityForm (form : gmap string (list string)) : gmap string string :=
  list_to_map (
    map (λ name, (name, trim_space (form_get form name)))
      ["login_max_attempts"; "login_window_minutes"; "login_lockout_minutes"; "session_idle_minutes"; "session_absolute_hours"] ++
    ticked "logout_keeps_current" (form_set form "logout_keeps_current")).

Definition parseSecuritySettingsForm (form : gmap string (list string)) : result string SecuritySettings :=
  maxAttempts ← of_option "Maximum failed attempts must be a whole number between 1 and 100."
    (intInRange (form_get form "login_max_attempts") 1 100);
  window ← of_option "Attempt window must be between 1 and 1440 minutes."
    (minutesInRange (form_get form "login_window_minutes") 1 1440);
  lockout ← of_option "Lockout duration must be between 1 and 1440 minutes."
    (minutesInRange (form_get form "login_lockout_minutes") 1 1440);
  idle ← of_option "Idle timeout must be between 1 and 10080 minutes."
    (minutesInRange (form_get form "session_idle_minutes") 1 10080);
  absolute ← of_option "Absolute timeout must be between 1 and 720 hours."
    (hoursInRange (form_get form "session_absolute_hours") 1 720);
  if window <? lockout then Err "Attempt window must be at least as long as the lockout duration."
  else Ok (MkSecuritySettings maxAttempts window lockout absolute idle (form_set form "logout_keeps_current")).

(** ** Policy settings *)

Section policy.
Context (cfg : Config).

Definition defaultPolicySettings : PolicySettings := MkPolicySettings true true true (PolicyStaleAfter cfg) false.

Definition mergePolicySettings (stored : gmap string string) : PolicySettings :=
  let s := defaultPolicySettings in
  MkPolicySettings (stored_bool stored settingPolicyCheckOverlaps (CheckOverlaps s))
    (stored_bool stored settingPolicyCheckStale (CheckStale s))
    (stored_bool stored settingPolicyCheckServices (CheckServices s))
    (stored_duration stored settingPolicyStaleAfter (StaleAfter s))
    (stored_bool stored settingPolicyStaleNeverSeen (StaleIncludeNeverSeen s)).
End policy.

Definition policy_map (s : PolicySettings) : gmap string string :=
  list_to_map
    [(settingPolicyCheckOverlaps, FormatBool (CheckOverlaps s)); (settingPolicyCheckStale, FormatBool (CheckStale s));
     (settingPolicyCheckServices, FormatBool (CheckServices s)); (settingPolicyStaleAfter, duration_text (StaleAfter s));
     (settingPolicyStaleNeverSeen, FormatBool (StaleIncludeNeverSeen s))].

Definition policy_form (s : PolicySettings) : gmap string string :=
  list_to_map (
    [("policy_stale_days", itoa (durationDays (StaleAfter s)))] ++
    ticked "policy_check_overlaps" (CheckOverlaps s) ++ ticked "policy_check_stale" (CheckStale s) ++
    ticked "policy_check_services" (CheckServices s) ++ ticked "policy_stale_never_seen" (StaleIncludeNeverSeen s)).

Definition submittedPolicyForm (form : gmap string (list string)) : gmap string string :=
  list_to_map (("policy_stale_days", form_get form "policy_stale_days") ::
    concat (map (λ key, ticked key (form_set form key))
      ["policy_check_overlaps"; "policy_check_stale"; "policy_check_services"; "policy_stale_never_seen"])).

Definition parsePolicySettingsForm (form : gmap string (list string)) : result string PolicySettings :=
  match intInRange (form_get form "policy_stale_days") 1 3650 with
  | None => Err "Stale threshold must be a whole number of days between 1 and 3650."
  | Some days =>
      Ok (MkPolicySettings (form_set form "policy_check_overlaps") (form_set form "policy_check_stale")
            (form_set form "policy_check_services") (wrap64 (wrap64 (days * 24) * hour)) (form_set form "policy_stale_never_seen"))
  end.

(** ** Discovery settings *)

Definition discoverySettingsForm (stored : gmap string string) : gmap string string :=
  list_to_map (ticked "auto_link_serial" (bool_decide (default "" (stored !! SettingDeviceLinkAutoSerial) = "true"))).
Definition parseDiscoverySettingsForm (form : gmap string (list string)) : gmap string string :=
  {[SettingDeviceLinkAutoSerial := FormatBool (form_set form "auto_link_serial")]}.
Definition submittedDiscoveryForm (form : gmap string (list string)) : gmap string string :=
  list_to_map (ticked "auto_link_serial" (form_set form "auto_link_serial")).

(** ** The store *)

Definition with_settings (x : gmap string string) (v : Inventory) : Inventory :=
  MkInventory x (iv_subnets v) (iv_devices v) (iv_addresses v) (iv_macs v) (iv_discoveries v) (iv_rejections v)
    (iv_tags v) (iv_taggings v) (iv_fields v) (iv_values v).

Section handlers.
Context {env : Env} {app : App}.

Definition GetAppSettings : GoE Inventory (gmap string string) := stmt (λ _ w, Ok (iv_settings (w_inv w), w)).
(** One transaction; the given values replace those under their keys. *)
Definition SetAppSettings (values : gmap string string) : GoE Inventory unit :=
  stmt (λ _ w, Ok ((), with_inv (with_settings (values ∪ iv_settings (w_inv w)) (w_inv w)) w)).

(** ** The security tab *)

(** The cut-off of the idle timeout, read once more. *)
Definition renderSecurityTab (session : Session) (errMsg notice : string) : Go Installation Response :=
  s ←! securitySettings;
  cutoff ←! lift (idleCutoff (app := tuned s));
  sessions ←! lift (ListUserSessions (u_ID (se_User session)) cutoff);
  match sessions with
  | Err _ => failure "Unable to load sessions"
  | Ok _ => answer (Page "settings.html" "Settings" errMsg notice)
  end.

Definition securityNotice (r : Request) : string :=
  notice_of r [("saved", "Security settings saved."); ("revoked", "Signed out your other sessions.")].

Definition settingsIndex : Service := λ r, with_admin r (λ _, answer (Redirect "/settings/security")).

Definition settingsSecurity : Service := λ r,
  with_admin r (λ session, _ ←! securitySettings; renderSecurityTab session "" (securityNotice r)).

Definition save_failed : string := "Unable to save settings. Please try again.".

Definition settingsSecurityUpdate : Service := λ r,
  with_admin r (λ session, with_csrf r session (with_form r (
    match parseSecuritySettingsForm (rq_PostForm r) with
    | Err message => renderSecurityTab session message ""
    | Ok s =>
        saved ←! lift (zoom (SetAppSettings (security_map s)));
        match saved with
        | Err _ => renderSecurityTab session save_failed ""
        | Ok _ =>
            _ ←! setSettings s;
            _ ←! hooked_auditMeta (actor session) "settings.security.updated" "settings" "security" (security_map s);
            answer (Redirect "/settings/security?notice=saved")
        end
    end))).

(** ** The policy tab *)

Definition renderPolicyTab (errMsg notice : string) : Go Installation Response :=
  answer (Page "settings.html" "Settings" errMsg notice).

Definition policyNotice (r : Request) : string := notice_of r [("saved", "Policy settings saved.")].

Definition settingsPolicy : Service := λ r,
  with_admin r (λ _, _ ←! policySettings; renderPolicyTab "" (policyNotice r)).

Definition settingsPolicyUpdate : Service := λ r,
  with_admin r (λ session, with_csrf r session (with_form r (
    match parsePolicySettingsForm (rq_PostForm r) with
    | Err message => renderPolicyTab message ""
    | Ok s =>
        saved ←! lift (zoom (SetAppSettings (policy_map s)));
        match saved with
        | Err _ => renderPolicyTab save_failed ""
        | Ok _ =>
            _ ←! setPolicySettings s;
            _ ←! hooked_auditMeta (actor session) "settings.policy.updated" "settings" "policy" (policy_map s);
            answer (Redirect "/settings/policy?notice=saved")
        end
    end))).

(** ** The discovery tab *)

Definition renderDiscoveryTab (errMsg notice : string) : Go Installation Response :=
  answer (Page "settings.html" "Settings" errMsg notice).

Definition discoveryNotice (r : Request) : string := notice_of r [("saved", "Discovery settings saved.")].

Definition settingsDiscovery : Service := λ r,
  with_admin r (λ _,
    stored ←! lift (zoom GetAppSettings);
    match stored with
    | Err _ => failure "Unable to load settings"
    | Ok _ => renderDiscoveryTab "" (discoveryNotice r)
    end).

Definition settingsDiscoveryUpdate : Service := λ r,
  with_admin r (λ session, with_csrf r session (with_form r (
    let values := parseDiscoverySettingsForm (rq_PostForm r) in
    saved ←! lift (zoom (SetAppSettings values));
    match saved with
    | Err _ => renderDiscoveryTab save_failed ""
    | Ok _ =>
        _ ←! hooked_auditMeta (actor session) "settings.discovery.updated" "settings" "discovery" values;
        answer (Redirect "/settings/discovery?notice=saved")
    end))).
End handlers.

(** ** What a form may set *)

Lemma intInRange_Some value min max n : intInRange value min max = Some n → min ≤ n ≤ max.
Proof.
  unfold intInRange. destruct (atoi _) as [k|]; [|done]. cbn. destruct (k <? min) eqn:H1, (max <? k) eqn:H2; cbn; try done.
  intros [= <-]. lia.
Qed.

(** A number of units within bounds. *)
Definition whole (unit min max d : Z) : Prop := ∃ n, d = n * unit ∧ min ≤ n ≤ max.

Lemma minutesInRange_Some value min max d :
  - 10000000 ≤ min → max ≤ 10000000 → minutesInRange value min max = Some d → whole minute min max d.
Proof.
  unfold minutesInRange. intros H1 H2. destruct (intInRange _ _ _) as [n|] eqn:Hn; [|done]. apply intInRange_Some in Hn.
  intros [= <-]. exists n. split; [|done]. apply wrap64_id. unfold in_int64, int64_min, int64_max, minute, second. lia.
Qed.
Lemma hoursInRange_Some value min max d :
  - 10000 ≤ min → max ≤ 10000 → hoursInRange value min max = Some d → whole hour min max d.
Proof.
  unfold hoursInRange. intros H1 H2. destruct (intInRange _ _ _) as [n|] eqn:Hn; [|done]. apply intInRange_Some in Hn.
  intros [= <-]. exists n. split; [|done]. apply wrap64_id. unfold in_int64, int64_min, int64_max, hour, minute, second. lia.
Qed.

Record sound_security (s : SecuritySettings) : Prop :=
  { ss_attempts : 1 ≤ LoginMaxAttempts s ≤ 100; ss_window : whole minute 1 1440 (LoginWindow s);
    ss_lockout : whole minute 1 1440 (LoginLockout s); ss_idle : whole minute 1 10080 (SessionIdleTimeout s);
    ss_absolute : whole hour 1 720 (SessionAbsoluteTimeout s); ss_order : LoginLockout s ≤ LoginWindow s }.

Record sound_policy (s : PolicySettings) : Prop := { sp_stale : whole day 1 3650 (StaleAfter s) }.

Lemma of_option_Ok {E A} (e : E) (o : option A) a : of_option e o = Ok a → o = Some a.
Proof. by destruct o; cbn; intros; simplify_eq. Qed.

(** A security form that is accepted sets from 1 to 100 attempts, times within
    their bounds in whole minutes and hours, and a window that is no shorter than
    the lockout. *)
Theorem parseSecuritySettingsForm_sound form s : parseSecuritySettingsForm form = Ok s → sound_security s.
Proof.
  unfold parseSecuritySettingsForm.
  destruct (intInRange _ 1 100) as [n|] eqn:Hn; cbn; [|done].
  destruct (minutesInRange (form_get form "login_window_minutes") 1 1440) as [w|] eqn:Hw; cbn; [|done].
  destruct (minutesInRange (form_get form "login_lockout_minutes") 1 1440) as [l|] eqn:Hl; cbn; [|done].
  destruct (minutesInRange _ 1 10080) as [i|] eqn:Hi; cbn; [|done]. destruct (hoursInRange _ 1 720) as [a|] eqn:Ha; cbn; [|done].
  cbn. destruct (Z.ltb_spec w l); [done|]. intros [= <-].
  apply intInRange_Some in Hn. apply minutesInRange_Some in Hw, Hl, Hi; [|lia..]. apply hoursInRange_Some in Ha; [|lia..].
  by split.
Qed.

Theorem parsePolicySettingsForm_sound form s : parsePolicySettingsForm form = Ok s → sound_policy s.
Proof.
  unfold parsePolicySettingsForm. destruct (intInRange _ 1 3650) as [n|] eqn:Hn; [|done]. apply intInRange_Some in Hn.
  intros [= <-]. split. exists n. split; [|done]. cbn.
  assert (wrap64 (n * 24) = n * 24) as -> by (apply wrap64_id; unfold in_int64, int64_min, int64_max; lia).
  rewrite wrap64_id; unfold in_int64, int64_min, int64_max, day, hour, minute, second; lia.
Qed.

(** ** Stored and read back *)

Lemma lookup_stored (l : list (string * string)) (stored : gmap string string) k v :
  NoDup l.*1 → (k, v) ∈ l → ((list_to_map l : gmap string string) ∪ stored) !! k = Some v.
Proof. intros Hd Hin. by apply lookup_union_Some_l, elem_of_list_to_map_1. Qed.

Lemma stored_duration_text stored key d fallback :
  stored !! key = Some (duration_text d) → 0 < d ≤ int64_max → d mod second = 0 → stored_duration stored key fallback = d.
Proof.
  intros Hk Hd Hm. unfold stored_duration. rewrite Hk. cbn. rewrite ParseDuration_text by (done || lia).
  by replace (0 <? d) with true by lia.
Qed.

Lemma stored_bool_text stored key b fallback :
  stored !! key = Some (FormatBool b) → stored_bool stored key fallback = b.
Proof. intros Hk. unfold stored_bool. rewrite Hk. by destruct b. Qed.

Lemma whole_range unit min max d :
  0 < unit → 0 < min → max * unit ≤ int64_max → unit mod second = 0 → whole unit min max d →
  0 < d ≤ int64_max ∧ d mod second = 0.
Proof.
  intros Hu Hm Hx Hs (n & -> & Hn). split; [nia|]. rewrite Z.mul_mod, Hs by done. by rewrite Z.mul_0_r.
Qed.

Ltac by_stored n :=
  unfold security_map, policy_map; apply lookup_stored;
  [ repeat (apply NoDup_cons; split; [rewrite ?not_elem_of_cons; repeat split; [discriminate..|apply not_elem_of_nil]|]); apply NoDup_nil_2
  | apply (list_elem_of_lookup_2 _ n); reflexivity ].

(** Settings an accepted security form sets, stored over whatever was there, are
    the ones the server would read at its next start. *)
Theorem mergeSettings_security_map cfg stored form s :
  parseSecuritySettingsForm form = Ok s → mergeSettings cfg (security_map s ∪ stored) = s.
Proof.
  intros [Ha Hw Hl Hi Hb _]%parseSecuritySettingsForm_sound. unfold mergeSettings.
  apply whole_range in Hw as [? ?], Hl as [? ?], Hi as [? ?], Hb as [? ?]; try done.
  assert ((security_map s ∪ stored) !! settingLoginMaxAttempts = Some (itoa (LoginMaxAttempts s))) as -> by by_stored 0%nat.
  change (default "" (Some (itoa (LoginMaxAttempts s)))) with (itoa (LoginMaxAttempts s)).
  rewrite atoi_itoa by (unfold in_int64, int64_min, int64_max; lia).
  replace (0 <? LoginMaxAttempts s) with true by lia.
  rewrite (stored_duration_text _ settingLoginWindow (LoginWindow s)); [|by_stored 1%nat|done..].
  rewrite (stored_duration_text _ settingLoginLockout (LoginLockout s)); [|by_stored 2%nat|done..].
  rewrite (stored_duration_text _ settingSessionAbsolute (SessionAbsoluteTimeout s)); [|by_stored 3%nat|done..].
  rewrite (stored_duration_text _ settingSessionIdle (SessionIdleTimeout s)); [|by_stored 4%nat|done..].
  rewrite (stored_bool_text _ settingLogoutKeepsCurrent (LogoutEverywhereKeepsCurrent s)); [|by_stored 5%nat].
  by destruct s.
Qed.

Theorem mergePolicySettings_policy_map cfg stored form s :
  parsePolicySettingsForm form = Ok s → mergePolicySettings cfg (policy_map s ∪ stored) = s.
Proof.
  intros [Hs]%parsePolicySettingsForm_sound. unfold mergePolicySettings. apply whole_range in Hs as [? ?]; try done.
  rewrite (stored_bool_text _ settingPolicyCheckOverlaps (CheckOverlaps s)); [|by_stored 0%nat].
  rewrite (stored_bool_text _ settingPolicyCheckStale (CheckStale s)); [|by_stored 1%nat].
  rewrite (stored_bool_text _ settingPolicyCheckServices (CheckServices s)); [|by_stored 2%nat].
  rewrite (stored_duration_text _ settingPolicyStaleAfter (StaleAfter s)); [|by_stored 3%nat|done..].
  rewrite (stored_bool_text _ settingPolicyStaleNeverSeen (StaleIncludeNeverSeen s)); [|by_stored 4%nat].
  by destruct s.
Qed.

(** * Settings in the database and in memory

    A saved form leaves the database and the memory of the server with the same
    settings; what a partly filled table or a second administrator can do. *)

(** ** Steps that keep the settings *)

Record keeps_settings (w w' : World Installation) : Prop :=
  { ks_memory : memory w' = memory w; ks_stored : stored_settings w' = stored_settings w }.

#[export] Instance keeps_settings_preorder : PreOrder keeps_settings.
Proof. split; [by split|]. intros w1 w2 w3 [] []. split; by etrans. Qed.

Section keeps.
Context {env : Env} {app : App}.

Lemma lift_keeps {A} (p : Go Database A) : guarantees harmless p → guarantees keeps_settings (lift p).
Proof.
  induction p as [a|g k IH]; [done|]. intros Hp w. destruct (Hp (to_database w)) as [Hg Hk]. split; [|by apply IH].
  split; [done|]. unfold stored_settings. cbn. by rewrite (hl_inv _ _ Hg).
Qed.

Lemma atomic_keeps {A} (f : World Installation → A * World Installation) :
  (∀ w, keeps_settings w (f w).2) → guarantees keeps_settings (atomic f).
Proof. apply guarantees_atomic. Qed.

Lemma read_memory_keeps {A} (f : Memory → A) : guarantees keeps_settings (read_memory f).
Proof. by apply atomic_keeps. Qed.

Lemma current_session_keeps r : guarantees keeps_settings (current_session r).
Proof. apply guarantees_bind; [apply read_memory_keeps|]. intros s. apply lift_keeps, currentSession_harmless. Qed.

Lemma hooked_log_keeps who action st sid metadata : guarantees keeps_settings (hooked_log who action st sid metadata).
Proof.
  apply guarantees_bind.
  { apply atomic_keeps. intros w. unfold run_stmt. destruct (fault (w_step w)); [done|].
    destruct (jsonb_in _); [|done]. by destruct (negb _). }
  intros [u|e]; [|done]. unfold AuditHook. apply guarantees_bind; [apply read_memory_keeps|]. intros [|]; [|done].
  cbn [negb]. destruct (categoryForAction _); [|done]. apply guarantees_bind; [by apply atomic_keeps|]. intros now.
  destruct (EventFromAudit _ _ _); [|done]. by apply atomic_keeps.
Qed.

Lemma renderSecurityTab_keeps session errMsg notice : guarantees keeps_settings (renderSecurityTab session errMsg notice).
Proof.
  apply guarantees_bind; [apply read_memory_keeps|]. intros s.
  apply guarantees_bind; [apply lift_keeps, reads_harmless, idleCutoff_reads|]. intros cutoff.
  apply guarantees_bind; [apply lift_keeps, reads_harmless, ListUserSessions_reads|]. by intros [l|e].
Qed.

Lemma alone_keeps {A} (p : Go Installation A) w : guarantees keeps_settings p → keeps_settings w (alone p w).2.
Proof. intros Hp. by apply (guarantees_exec keeps_settings). Qed.

(** What a saved set of values does, or does not, when the statement is lost. *)
Lemma alone_SetAppSettings m w :
  (∃ e, alone (lift (zoom (SetAppSettings m))) w = (Err e, (alone (lift (zoom (SetAppSettings m))) w).2)
     ∧ keeps_settings w (alone (lift (zoom (SetAppSettings m))) w).2) ∨
  ∃ w', alone (lift (zoom (SetAppSettings m))) w = (Ok (), w') ∧
     memory w' = memory w ∧ stored_settings w' = m ∪ stored_settings w.
Proof.
  rewrite alone_lift. unfold SetAppSettings, stmt, atomic, alone. cbn. unfold quiet, run_stmt, to_inventory, of_inventory. cbn.
  destruct (fault (w_step w)); cbn; [left|right].
  - exists ErrLost. split; [done|]. by split.
  - eexists. split; [reflexivity|]. by split.
Qed.

(** The saving half of a handler, for settings with the text [m]; [meta] is for the audit log. *)
Definition saving (m meta : gmap string string) (set : Memory → Memory) (action subject : string) (session : Session)
    (failed : Go Installation Response) (url : string) : Go Installation Response :=
  saved ←! lift (zoom (SetAppSettings m));
  match saved with
  | Err _ => failed
  | Ok _ =>
      _ ←! write_memory set;
      _ ←! hooked_auditMeta (actor session) action "settings" subject meta;
      answer (Redirect url)
  end.

Lemma saving_spec m meta set action subject session failed url w res w' :
  guarantees keeps_settings failed → (∀ v, rs_Body (alone failed v).1 ≠ Redirect url) →
  alone (saving m meta set action subject session failed url) w = (res, w') →
  (rs_Body res = Redirect url ∧ memory w' = set (memory w) ∧ stored_settings w' = m ∪ stored_settings w) ∨
  (rs_Body res ≠ Redirect url ∧ keeps_settings w w').
Proof.
  intros Hf Hb. unfold saving. rewrite alone_bind.
  destruct (alone_SetAppSettings m w) as [(e & -> & Hk)|(w1 & -> & Hm & Hs)]; cbn [fst snd].
  - intros Hr. right. pose proof (Hb (alone (lift (zoom (SetAppSettings m))) w).2) as Hb'.
    pose proof (alone_keeps failed (alone (lift (zoom (SetAppSettings m))) w).2 Hf) as Hk'. rewrite Hr in Hb', Hk'.
    split; [done|]. by etrans.
  - rewrite alone_bind. unfold write_memory. rewrite alone_atomic, alone_bind. cbn [fst snd].
    set (w2 := edit_install _ w1).
    pose proof (alone_keeps _ w2 (hooked_log_keeps (actor session) action "settings" subject (Json.Marshal (map_to_list meta)))) as [Hm' Hs'].
    unfold hooked_auditMeta. destruct (alone (hooked_log _ _ _ _ _) w2) as [u w3]. cbn [fst snd] in *.
    intros [= <- <-]. left. split; [done|]. rewrite Hm', Hs'. split; [by cbn; rewrite Hm|done].
Qed.

(** The part of a handler before its work: a session of an administrator, a form
    token, a form. *)
Lemma guarded_save r (next : Session → Go Installation Response) url w res w' :
  (∀ session v res v', alone (next session) v = (res, v') →
     rs_Body res = Redirect url ∨ rs_Body res ≠ Redirect url ∧ keeps_settings v v') →
  url ≠ "/login" →
  alone (with_admin r (λ session, with_csrf r session (with_form r (next session)))) w = (res, w') →
  (rs_Body res = Redirect url ∧ ∃ session v, keeps_settings w v ∧ alone (next session) v = (res, w')) ∨
  (rs_Body res ≠ Redirect url ∧ keeps_settings w w').
Proof.
  intros Hn Hu. unfold with_admin, with_session. rewrite alone_bind.
  pose proof (alone_keeps _ w (current_session_keeps r)) as Hc. destruct (alone (current_session r) w) as [o v]. cbn [fst snd] in *.
  assert (∀ b, b ≠ Redirect url → alone (answer b) v = (res, w') → rs_Body res ≠ Redirect url ∧ keeps_settings w w') as Ha
    by (intros b Hb [= <- <-]; by split).
  destruct o as [s|]; [|intros Hr; right; eapply Ha; [|exact Hr]; congruence].
  destruct (negb _); [intros Hr; right; eapply Ha; [|exact Hr]; discriminate|]. unfold with_csrf. destruct (verifySessionCSRF r s); [|intros Hr; right; eapply Ha; [|exact Hr]; discriminate].
  unfold with_form. destruct (bool_decide _); [intros Hr; right; eapply Ha; [|exact Hr]; discriminate|]. intros Hr.
  destruct (Hn s v res w' Hr) as [Hb|[Hb Hk]]; [left; split; [done|]; by exists s, v|].
  right. split; [done|]. by etrans.
Qed.

Context (cfg : Config).

End keeps.

(** ** What a partly filled table gives *)

Lemma stored_duration_range stored key fallback :
  0 < fallback ≤ int64_max → 0 < stored_duration stored key fallback ≤ int64_max.
Proof.
  intros Hf. unfold stored_duration. destruct (ParseDuration _) as [d|] eqn:Hd; [|done].
  apply ParseDuration_range in Hd as [_ Hd]. destruct (Z.ltb_spec 0 d); [lia|done].
Qed.

(** Whatever the table of settings holds, what the server reads from it over the
    defaults of any environment has positive limits that fit in 64 bits. *)
Theorem mergeSettings_positive environ generated stored :
  let s := mergeSettings (Load environ generated) stored in
  0 < LoginMaxAttempts s ≤ int64_max ∧ 0 < LoginWindow s ≤ int64_max ∧ 0 < LoginLockout s ≤ int64_max ∧
  0 < SessionAbsoluteTimeout s ≤ int64_max ∧ 0 < SessionIdleTimeout s ≤ int64_max.
Proof.
  assert (∀ key fb, 0 < fb ≤ int64_max → 0 < durationEnv environ key fb ≤ int64_max) as Hd by apply durationEnv_range.
  assert (0 < positiveInt (getenv environ "LOGIN_MAX_ATTEMPTS" "5") 5 ≤ int64_max) as Hp
    by (apply positiveInt_range; unfold int64_max; lia).
  cbv zeta. unfold mergeSettings. cbv zeta. cbn [LoginMaxAttempts LoginWindow LoginLockout SessionAbsoluteTimeout SessionIdleTimeout].
  split; [|split_and!; apply stored_duration_range, Hd; unfold int64_max, hour, minute, second; lia].
  destruct (atoi _) as [n|] eqn:Hn; [|exact Hp]. apply atoi_range in Hn as [_ Hn]. destruct (Z.ltb_spec 0 n); [lia|exact Hp].
Qed.

(** But the order of the window and the lockout, which the form insists on, is not
    kept when only one of them is stored. *)
Theorem partial_settings_shorten_window :
  ∃ stored : gmap string string,
    let s := mergeSettings (Load (λ _, "") []) stored in LoginWindow s < LoginLockout s.
Proof. exists {["login_window" := "1m"]}. vm_compute. reflexivity. Qed.

(** ** Two administrators *)

Definition demo_memory : Memory :=
  MkMemory (mergeSettings (Load (λ _, "") []) ∅) (mergePolicySettings (Load (λ _, "") []) ∅)
    (MkOIDCSettings false "" "" "" "" "preferred_username" false) None 0.
Definition install_of (w : World Database) : World Installation :=
  MkWorld (w_sites w) (w_users w) (w_agents w) (w_schedules w) (w_jobs w) (w_audit w)
    (MkInstallation (w_inv w) ∅ [] 1 demo_memory []) (w_spawned w) (w_step w).
Definition demo_install : World Installation := install_of demo_world.

Definition security_request (cookie csrf attempts : string) : Request :=
  request "POST" "/settings/security" "" cookie
    [("csrf_token", csrf); ("login_max_attempts", attempts); ("login_window_minutes", "30"); ("login_lockout_minutes", "20");
     ("session_idle_minutes", "60"); ("session_absolute_hours", "24"); ("logout_keeps_current", "on")].

Definition alice_saves : prog (World Installation) Response :=
  settingsSecurityUpdate (env := calm_env) (security_request "sa" "ta" "7").
Definition bob_saves : prog (World Installation) Response :=
  settingsSecurityUpdate (env := calm_env) (security_request "sb" "tb" "9").


(** Bob's whole request comes in between the statement of Alice's and her change of
    the memory. *)
Definition bob_between (i : nat) (w : World Installation) : World Installation :=
  if (i =? 4)%nat then (alone bob_saves w).2 else w.

(** Two administrators who save at the same time can leave the server with the
    settings of the one and the database with those of the other, which the next
    start brings into force. *)
Theorem saved_settings_race :
  let '(res, w) := exec bob_between 0 alice_saves demo_install in
  rs_Body res = Redirect "/settings/security?notice=saved" ∧
  LoginMaxAttempts (mm_Security (memory w)) = 7 ∧
  LoginMaxAttempts (mergeSettings (Load (λ _, "") []) (stored_settings w)) = 9.
Proof.
  set (run := exec _ _ _ _).
  assert (rs_Body run.1 = Redirect "/settings/security?notice=saved") as H1 by (vm_compute; reflexivity).
  assert (LoginMaxAttempts (mm_Security (memory run.2)) = 7) as H2 by (vm_compute; reflexivity).
  assert (LoginMaxAttempts (mergeSettings (Load (λ _, "") []) (stored_settings run.2)) = 9) as H3 by (vm_compute; reflexivity).
  by destruct run as [res w].
Qed.
