(* ===== verification/Policy.v ===== *)
(** * The policy checks

    [internal/app/policy.go] and [internal/store/policy.go]: overlapping subnets,
    stale records and unmanaged services, over snapshots of the inventory. *)

From S2P Require Import Prelude GoStrings Netip Ipam GoTime Process Scans Queue Inventory Records Placement Portability Lockout Json Accounts Web Events Install Settings.
Local Open Scope Z_scope.

(** ** Findings *)

Definition checkOverlappingSubnets : string := "overlapping_subnets".
Definition checkStaleRecords : string := "stale_records".
Definition checkUnmanagedServices : string := "unmanaged_services".

Definition SeverityCritical : string := "critical".
Definition SeverityWarning : string := "warning".
Definition SeverityInfo : string := "info".

Record PolicyFinding : Type := MkFinding
  { fd_Check : string; fd_Severity : string; fd_Title : string; fd_Detail : string; fd_Link : string }.
Record PolicyFindingGroup : Type := MkFindingGroup
  { fg_Check : string; fg_Label : string; fg_Findings : list PolicyFinding }.
Record PolicySummary : Type := MkSummary { sm_Critical : Z; sm_Warning : Z; sm_Info : Z }.
Definition Total (s : PolicySummary) : Z := sm_Critical s + sm_Warning s + sm_Info s.

Record PolicySubnet : Type := MkPolicySubnet { ps_ID : string; ps_Name : string; ps_CIDR : string }.
Record PolicyRecord : Type := MkPolicyRecord
  { pr_Kind : string; pr_Label : string; pr_Context : string; pr_State : string; pr_LastSeen : option Z; pr_Link : string }.
Record PolicyDiscoveryRecord : Type := MkPolicyDiscovery
  { pd_IP : string; pd_Hostname : string; pd_ReconcileStatus : string; pd_Conflict : string; pd_ServiceCount : Z;
    pd_Link : string }.

(** ** Overlapping subnets *)

Section checks.
(** The table of the printable runes. *)
Context (printable : Z → bool).

Definition cidrsOverlap (a b : IPNet) : bool := ipnet_contains a (ipn_ip b) || ipnet_contains b (ipn_ip a).

Definition overlap_finding (a b : PolicySubnet) : PolicyFinding :=
  let quoted_name s := Quote printable (ps_Name s) +:+ " (" +:+ ps_CIDR s +:+ ")" in
  MkFinding checkOverlappingSubnets SeverityCritical (ps_CIDR a +:+ " overlaps " +:+ ps_CIDR b)
    (quoted_name a +:+ " and " +:+ quoted_name b +:+
     " cover overlapping address space, so ownership of the shared addresses is ambiguous.")
    ("/subnets/" +:+ ps_ID a).

(** The subnets whose CIDR is readable, with their networks. *)
Definition parsed_subnets (subnets : list PolicySubnet) : list (PolicySubnet * IPNet) :=
  omap (λ sn, n ← net_parse_cidr (ps_CIDR sn); Some (sn, n)) subnets.

Fixpoint overlap_pairs (ps : list (PolicySubnet * IPNet)) : list (PolicySubnet * PolicySubnet) :=
  match ps with
  | [] => []
  | (a, x) :: ps => omap (λ p : PolicySubnet * IPNet, if cidrsOverlap x p.2 then Some (a, p.1) else None) ps ++ overlap_pairs ps
  end.

Definition evaluateOverlaps (subnets : list PolicySubnet) : list PolicyFinding :=
  map (λ p, overlap_finding p.1 p.2) (overlap_pairs (parsed_subnets subnets)).

(** ** Stale records *)

Definition staleTitle (rec : PolicyRecord) (phrase : string) : string :=
  (if decide (pr_Kind rec = "device") then "Device " else "Address ") +:+ pr_Label rec +:+ " " +:+ phrase.

Definition staleDetail (rec : PolicyRecord) (phrase : string) : string :=
  if decide (pr_Kind rec = "device") then
    "Device " +:+ Quote printable (pr_Label rec) +:+ " " +:+ phrase +:+ ". It may have been retired."
  else
    "Address " +:+ pr_Label rec +:+ (if decide (pr_Context rec = "") then "" else " in " +:+ pr_Context rec) +:+
    " (" +:+ pr_State rec +:+ ") " +:+ phrase +:+ ". It may be safe to release.".

(** [now.Add(-d)] stays in range for the durations of the settings. *)
Definition stale_finding (s : PolicySettings) (now : Z) (rec : PolicyRecord) : option PolicyFinding :=
  match pr_LastSeen rec with
  | None =>
      if negb (StaleIncludeNeverSeen s) then None
      else Some (MkFinding checkStaleRecords SeverityInfo (staleTitle rec "has never been seen by a scan")
                   (staleDetail rec "has no recorded discovery sighting") (pr_Link rec))
  | Some seen =>
      if seen <? now - StaleAfter s then
        Some (MkFinding checkStaleRecords SeverityWarning (staleTitle rec ("last seen " +:+ date_text seen))
                (staleDetail rec ("has not been seen since " +:+ date_text seen)) (pr_Link rec))
      else None
  end.

Definition evaluateStaleRecords (records : list PolicyRecord) (s : PolicySettings) (now : Z) : list PolicyFinding :=
  omap (stale_finding s now) records.

(** ** Unmanaged services *)

Definition discoveryLabel (d : PolicyDiscoveryRecord) : string :=
  if decide (pd_Hostname d = "") then pd_IP d else pd_Hostname d +:+ " (" +:+ pd_IP d +:+ ")".

Definition service_finding (d : PolicyDiscoveryRecord) : option PolicyFinding :=
  if decide (pd_ReconcileStatus d = ReconcileConflict) then
    Some (MkFinding checkUnmanagedServices SeverityCritical ("Conflict on " +:+ discoveryLabel d)
            (keep_text (pd_Conflict d) "The observation disagrees with a managed record." +:+ " Resolve it in the review queue.")
            (pd_Link d))
  else if decide (pd_ReconcileStatus d = ReconcileNew) then
    if pd_ServiceCount d <=? 0 then None
    else Some (MkFinding checkUnmanagedServices SeverityWarning
                 ("Unmanaged host " +:+ discoveryLabel d +:+ " with " +:+ itoa (pd_ServiceCount d) +:+ " open service(s)")
                 "This host is running services but is not in IPAM. Import or dismiss it in the review queue." (pd_Link d))
  else None.

Definition evaluateUnmanagedServices (discoveries : list PolicyDiscoveryRecord) : list PolicyFinding :=
  omap service_finding discoveries.

(** ** The summary *)

Definition count_severity (severity : string) (findings : list PolicyFinding) : Z :=
  Z.of_nat (length (filter (λ f, fd_Severity f = severity) findings)).
Definition summarizeFindings (findings : list PolicyFinding) : PolicySummary :=
  foldl (λ s f,
    if decide (fd_Severity f = SeverityCritical) then MkSummary (sm_Critical s + 1) (sm_Warning s) (sm_Info s)
    else if decide (fd_Severity f = SeverityWarning) then MkSummary (sm_Critical s) (sm_Warning s + 1) (sm_Info s)
    else if decide (fd_Severity f = SeverityInfo) then MkSummary (sm_Critical s) (sm_Warning s) (sm_Info s + 1)
    else s) (MkSummary 0 0 0) findings.

(** ** The store *)

(** [ORDER BY ip] of the discoveries. *)
Context (by_ip : list (string * DiscoveryRow) → list (string * DiscoveryRow)).
Context {env : Env} {app : App}.

Definition PolicySubnets : GoE Inventory (list PolicySubnet) :=
  stmt (λ _ w, Ok (map (λ p : string * Subnet, MkPolicySubnet p.1 (sn_name p.2) (sn_cidr p.2))
                     (by_cidr (map_to_list (iv_subnets (w_inv w)))), w)).

Definition policy_address (v : Inventory) (p : string * AddressRow) : option PolicyRecord :=
  if decide (ad_State p.2 ∈ ["assigned"; "reserved"]) then
    let subnetID := default "" (ad_Subnet p.2) in
    Some (MkPolicyRecord "ip_address" p.1 (default "" (sn_name <$> (ad_Subnet p.2 ≫= λ i, iv_subnets v !! i)))
            (ad_State p.2) (ad_LastSeen p.2) (if decide (subnetID = "") then "" else "/subnets/" +:+ subnetID))
  else None.
Definition PolicyAddressRecords : GoE Inventory (list PolicyRecord) :=
  stmt (λ _ w, Ok (omap (policy_address (w_inv w)) (by_address (map_to_list (iv_addresses (w_inv w)))), w)).

(** [max] of the times that are set. *)
Definition latest (times : list (option Z)) : option Z :=
  foldr (λ t m, match t, m with Some a, Some b => Some (Z.max a b) | Some a, None => Some a | None, _ => m end) None times.
Definition policy_device (v : Inventory) (p : string * Device) : option PolicyRecord :=
  match filter (λ q : string * AddressRow, ad_Device q.2 = Some p.1) (map_to_list (iv_addresses v)) with
  | [] => None
  | rows => Some (MkPolicyRecord "device" (dv_Name p.2) "" "" (latest (map (λ q, ad_LastSeen q.2) rows)) ("/devices/" +:+ p.1))
  end.
Definition PolicyDeviceRecords : GoE Inventory (list PolicyRecord) :=
  stmt (λ _ w, Ok (omap (policy_device (w_inv w))
                     (by_name _ (λ p : string * Device, dv_Name p.2) (map_to_list (iv_devices (w_inv w)))), w)).

Definition policy_discovery (p : string * DiscoveryRow) : option PolicyDiscoveryRecord :=
  let services := Z.of_nat (length (dr_Services p.2)) in
  if bool_decide (dr_Status p.2 = "pending") && (bool_decide (dr_Reconcile p.2 = ReconcileConflict) || (0 <? services)) then
    Some (MkPolicyDiscovery p.1 (dr_Hostname p.2) (dr_Reconcile p.2) (dr_Conflict p.2) services "/discoveries")
  else None.
Definition PolicyDiscoveryRecords : GoE Inventory (list PolicyDiscoveryRecord) :=
  stmt (λ _ w, Ok (omap policy_discovery (by_ip (map_to_list (iv_discoveries (w_inv w)))), w)).

(** ** All checks *)

(** [if settings.Check... { ... }]: a check that is off costs nothing. *)
Definition checked (on : bool) (p : GoE Inventory PolicyFindingGroup) : GoE Inventory (list PolicyFindingGroup) :=
  if on then g ←? p; Ret (Ok [g]) else Ret (Ok []).

Definition overlap_group : GoE Inventory PolicyFindingGroup :=
  subnets ←? PolicySubnets;
  Ret (Ok (MkFindingGroup checkOverlappingSubnets "Overlapping subnets" (evaluateOverlaps subnets))).
Definition stale_group (s : PolicySettings) : GoE Inventory PolicyFindingGroup :=
  addresses ←? PolicyAddressRecords;
  devices ←? PolicyDeviceRecords;
  now ←! time_now;
  Ret (Ok (MkFindingGroup checkStaleRecords
    ("Stale records (not seen in " +:+ itoa (durationDays (StaleAfter s)) +:+ " days)")
    (evaluateStaleRecords addresses s now ++ evaluateStaleRecords devices s now))).
Definition service_group : GoE Inventory PolicyFindingGroup :=
  discoveries ←? PolicyDiscoveryRecords;
  Ret (Ok (MkFindingGroup checkUnmanagedServices "Unmanaged & conflicting services" (evaluateUnmanagedServices discoveries))).

Definition computePolicy (s : PolicySettings) : GoE Inventory (list PolicyFindingGroup * PolicySummary) :=
  overlaps ←? checked (CheckOverlaps s) overlap_group;
  stale ←? checked (CheckStale s) (stale_group s);
  services ←? checked (CheckServices s) service_group;
  let groups := overlaps ++ stale ++ services in
  Ret (Ok (groups, summarizeFindings (concat (map fg_Findings groups)))).

Definition policyIndex : Service := λ r,
  with_session r (λ _,
    s ←! policySettings;
    found ←! lift (zoom (computePolicy s));
    match found with
    | Err _ => failure "Unable to evaluate policy"
    | Ok _ => answer (Page "policy.html" "Policy" "" "")
    end).
End checks.

(** * What the policy checks find

    The overlap check finds exactly the pairs of subnets with a common address, and
    so nothing in an inventory whose subnets are disjoint; the summary counts every
    finding once. *)

(** ** Overlaps *)

Lemma net_parse_prefix4 s p :
  parse_prefix s = Some p → is4 (pfx_addr p) = true →
  net_parse_cidr s = Some (MkIPNet (Addr4 (prefix_first p)) (pfx_bits p) 32).
Proof.
  intros Hp H4. rewrite (net_parse_cidr_prefix s p Hp H4), prefix_masked4; [done| |done]. by eapply parse_prefix4_wf.
Qed.

Lemma first_range p : prefix_wf p → is4 (pfx_addr p) = true → 0 ≤ prefix_first p < 2 ^ 32.
Proof.
  intros Hwf H4. pose proof (prefix_masked_wf p Hwf H4) as [Hm _]. rewrite prefix_masked4 in Hm by done. exact Hm.
Qed.

Lemma contains_first p o :
  prefix_wf p → prefix_wf o → is4 (pfx_addr p) = true → is4 (pfx_addr o) = true →
  ipnet_contains (MkIPNet (Addr4 (prefix_first p)) (pfx_bits p) 32) (Addr4 (prefix_first o)) =
  prefix_contains p (Addr4 (prefix_first o)).
Proof.
  intros Hp Ho H4p H4o. pose proof (first_range o Ho H4o). rewrite <- (prefix_contains_masked p) by done.
  pose proof (prefix_masked_wf p Hp H4p) as Hm. rewrite (prefix_masked4 p Hp H4p) in Hm |- *.
  by apply (ipnet_contains4 (PrefixFrom (Addr4 (prefix_first p)) (pfx_bits p))).
Qed.

Lemma contains_own_first p : prefix_wf p → is4 (pfx_addr p) = true → prefix_contains p (Addr4 (prefix_first p)) = true.
Proof.
  intros Hp H4. apply prefix_contains4; [done..|]. pose proof (host_bits_range p Hp H4).
  unfold prefix_count. assert (0 < 2 ^ host_bits p) by (apply Z.pow_pos_nonneg; lia). lia.
Qed.

(** Of two blocks with a common address, the wider holds the first of the narrower. *)
Lemma wider_holds_first p o x :
  prefix_wf p → prefix_wf o → is4 (pfx_addr p) = true → is4 (pfx_addr o) = true → host_bits p ≤ host_bits o →
  prefix_contains p (Addr4 x) = true → prefix_contains o (Addr4 x) = true → prefix_contains o (Addr4 (prefix_first p)) = true.
Proof.
  intros Hp Ho H4p H4o Hh Hpx Hox. pose proof (contains_own_first p Hp H4p) as Hf.
  pose proof (host_bits_range p Hp H4p). rewrite prefix_contains4_div in * by done.
  rewrite <- Hox. eapply div_pow2_coarser; [|by rewrite Hf]. lia.
Qed.

Lemma cidrsOverlap4 p o :
  prefix_wf p → prefix_wf o → is4 (pfx_addr p) = true → is4 (pfx_addr o) = true →
  cidrsOverlap (MkIPNet (Addr4 (prefix_first p)) (pfx_bits p) 32) (MkIPNet (Addr4 (prefix_first o)) (pfx_bits o) 32) =
  prefix_overlaps p o.
Proof.
  intros Hp Ho H4p H4o. apply eq_bool_prop_intro. rewrite !Is_true_true, prefix_overlaps4 by done.
  unfold cidrsOverlap. cbn [ipn_ip]. rewrite orb_true_iff, !contains_first by done. split.
  - intros [Hc|Hc]; [exists (prefix_first o)|exists (prefix_first p)]; split; try done; by apply contains_own_first.
  - intros (x & Hpx & Hox). destruct (Z.le_ge_cases (host_bits p) (host_bits o)).
    + right. by apply (wider_holds_first p o x).
    + left. by apply (wider_holds_first o p x).
Qed.

(** A subnet with a canonical IPv4 CIDR, as the store accepts them. *)
Definition ipv4_subnet (cidr : string) : Prop := ∃ p, parse_prefix cidr = Some p ∧ is4 (pfx_addr p) = true.

Lemma cidrsOverlap_text s t x y :
  ipv4_subnet s → ipv4_subnet t → net_parse_cidr s = Some x → net_parse_cidr t = Some y → cidrsOverlap x y = cidr_overlap s t.
Proof.
  intros (p & Hp & H4p) (o & Ho & H4o). rewrite (net_parse_prefix4 s p), (net_parse_prefix4 t o) by done. intros [= <-] [= <-].
  unfold cidr_overlap. rewrite Hp, Ho. apply cidrsOverlap4; try done; by eapply parse_prefix4_wf.
Qed.

Lemma parsed_subnets_all l :
  Forall (λ s, ipv4_subnet (ps_CIDR s)) l →
  (parsed_subnets l).*1 = l ∧ Forall (λ p, net_parse_cidr (ps_CIDR p.1) = Some p.2) (parsed_subnets l).
Proof.
  unfold parsed_subnets. induction 1 as [|s l (p & Hp & H4) _ [IH1 IH2]]; [done|]. cbn [omap list_omap].
  pose proof (net_parse_prefix4 _ _ Hp H4) as Hn. rewrite Hn. cbn. split; [by f_equal|]. by constructor.
Qed.

Lemma elem_of_overlap_pairs ps a b :
  Forall (λ p : PolicySubnet * IPNet, ipv4_subnet (ps_CIDR p.1) ∧ net_parse_cidr (ps_CIDR p.1) = Some p.2) ps →
  (a, b) ∈ overlap_pairs ps ↔
  ∃ i j, (i < j)%nat ∧ ps.*1 !! i = Some a ∧ ps.*1 !! j = Some b ∧ cidr_overlap (ps_CIDR a) (ps_CIDR b) = true.
Proof.
  induction 1 as [|[s x] ps [Hs Hx] Hps IH]; cbn [overlap_pairs].
  - split; [by intros ?%elem_of_nil|]. by intros (i & j & _ & Hi & _).
  - rewrite elem_of_app, IH. split.
    + intros [Hin|(i & j & Hij & Hi & Hj & Ho)].
      * apply list_elem_of_omap in Hin as ([t y] & Hin & Ht). cbn in Ht. destruct (cidrsOverlap x y) eqn:Hc; [|done].
        simplify_eq. apply list_elem_of_lookup in Hin as Hj. destruct Hj as [j Hj]. exists 0%nat, (S j).
        rewrite Forall_forall in Hps. destruct (Hps _ Hin) as [Ht Hy]. cbn [fst snd] in *.
        split; [lia|]. split; [done|]. split; [change (ps.*1 !! j = Some b); by rewrite list_lookup_fmap, Hj|].
        by rewrite <- (cidrsOverlap_text (ps_CIDR a) (ps_CIDR b) x y).
      * exists (S i), (S j). cbn. split; [lia|done].
    + intros (i & j & Hij & Hi & Hj & Ho). destruct j as [|j]; [lia|]. destruct i as [|i].
      * left. cbn in Hi. simplify_eq. apply list_elem_of_omap. change (ps.*1 !! j = Some b) in Hj. rewrite list_lookup_fmap in Hj.
        destruct (ps !! j) as [[t y]|] eqn:Hp; [|done]. cbn in Hj. simplify_eq. exists (b, y).
        split; [by eapply list_elem_of_lookup_2|]. cbn. rewrite Forall_forall in Hps.
        destruct (Hps (b, y)) as [Ht Hy]; [by eapply list_elem_of_lookup_2|].
        by rewrite (cidrsOverlap_text (ps_CIDR a) (ps_CIDR b) x y), Ho.
      * right. exists i, j. split; [lia|done].
Qed.

Section policy.
Context (printable : Z → bool).

(** Over subnets with IPv4 CIDRs, the overlap check reports exactly the pairs, the
    earlier before the later, that have an address in common. *)
Theorem evaluateOverlaps_spec subnets f :
  Forall (λ s, ipv4_subnet (ps_CIDR s)) subnets →
  f ∈ evaluateOverlaps printable subnets ↔
  ∃ i j a b, (i < j)%nat ∧ subnets !! i = Some a ∧ subnets !! j = Some b ∧
    (∃ p o x, parse_prefix (ps_CIDR a) = Some p ∧ parse_prefix (ps_CIDR b) = Some o ∧
       prefix_contains p (Addr4 x) = true ∧ prefix_contains o (Addr4 x) = true) ∧
    f = overlap_finding printable a b.
Proof.
  intros Hl. destruct (parsed_subnets_all _ Hl) as [H1 H2]. unfold evaluateOverlaps. rewrite list_elem_of_fmap.
  assert (Forall (λ p : PolicySubnet * IPNet, ipv4_subnet (ps_CIDR p.1) ∧ net_parse_cidr (ps_CIDR p.1) = Some p.2) (parsed_subnets subnets)) as Hps.
  { rewrite Forall_forall in H2. apply Forall_forall. intros p Hp. split; [|by apply H2].
    rewrite Forall_forall in Hl. apply Hl. rewrite <- H1. by apply list_elem_of_fmap_2. }
  assert (∀ a b, ipv4_subnet (ps_CIDR a) → ipv4_subnet (ps_CIDR b) →
    cidr_overlap (ps_CIDR a) (ps_CIDR b) = true ↔
    ∃ p o x, parse_prefix (ps_CIDR a) = Some p ∧ parse_prefix (ps_CIDR b) = Some o ∧
       prefix_contains p (Addr4 x) = true ∧ prefix_contains o (Addr4 x) = true) as Hc.
  { intros a b (p & Hp & H4p) (o & Ho & H4o). unfold cidr_overlap. rewrite Hp, Ho, prefix_overlaps4; try done;
      try (by eapply parse_prefix4_wf). split; [intros (x & ? & ?); by exists p, o, x|].
    intros (p' & o' & x & ? & ? & ? & ?). simplify_eq. by exists x. }
  rewrite Forall_forall in Hl. split.
  - intros ([a b] & -> & Hin). apply elem_of_overlap_pairs in Hin as (i & j & Hij & Hi & Hj & Ho); [|done].
    rewrite H1 in Hi, Hj. exists i, j, a, b. rewrite <- Hc; [done|..]; by eapply Hl, list_elem_of_lookup_2.
  - intros (i & j & a & b & Hij & Hi & Hj & Ho & ->). exists (a, b). split; [done|].
    apply elem_of_overlap_pairs; [done|]. exists i, j. rewrite H1. rewrite Hc; [done|..]; by eapply Hl, list_elem_of_lookup_2.
Qed.

(** An inventory whose subnets are disjoint, as the store keeps them, has no
    overlap finding. *)
Theorem evaluateOverlaps_disjoint (v : Inventory) (l : list (string * Subnet)) :
  subnets_disjoint v → NoDup l.*1 → (∀ p, p ∈ l → iv_subnets v !! p.1 = Some p.2 ∧ ipv4_subnet (sn_cidr p.2)) →
  evaluateOverlaps printable (map (λ p : string * Subnet, MkPolicySubnet p.1 (sn_name p.2) (sn_cidr p.2)) l) = [].
Proof.
  intros Hd Hn Hl. set (subnets := map _ l).
  assert (Forall (λ s, ipv4_subnet (ps_CIDR s)) subnets) as H4.
  { apply Forall_forall. intros s (p & -> & Hp)%list_elem_of_fmap. by apply Hl. }
  destruct (parsed_subnets_all _ H4) as [H1 H2]. unfold evaluateOverlaps.
  destruct (overlap_pairs (parsed_subnets subnets)) as [|[a b] rest] eqn:Hp; [done|exfalso].
  assert ((a, b) ∈ overlap_pairs (parsed_subnets subnets)) as Hin by (rewrite Hp; by left).
  apply elem_of_overlap_pairs in Hin as (i & j & Hij & Hi & Hj & Ho).
  - rewrite H1 in Hi, Hj. unfold subnets in Hi, Hj. rewrite list_lookup_fmap in Hi, Hj.
    destruct (l !! i) as [p|] eqn:Hpi, (l !! j) as [q|] eqn:Hqj; try done. cbn in Hi, Hj. simplify_eq. cbn in Ho.
    destruct (Hl p) as [Hp' _]; [by eapply list_elem_of_lookup_2|]. destruct (Hl q) as [Hq' _]; [by eapply list_elem_of_lookup_2|].
    rewrite (Hd p.1 q.1 p.2 q.2) in Ho; try done. intros Heq.
    assert (l.*1 !! i = Some p.1) as H5 by by rewrite list_lookup_fmap, Hpi.
    assert (l.*1 !! j = Some p.1) as H6 by by rewrite list_lookup_fmap, Hqj, Heq.
    pose proof (NoDup_lookup _ _ _ _ Hn H5 H6). lia.
  - apply Forall_forall. intros p Hpin. rewrite Forall_forall in H2. split; [|by apply H2].
    rewrite Forall_forall in H4. apply H4. rewrite <- H1. by apply list_elem_of_fmap_2.
Qed.

(** ** Counting *)

Definition known_severity (f : PolicyFinding) : Prop :=
  fd_Severity f ∈ [SeverityCritical; SeverityWarning; SeverityInfo].

Lemma summarizeFindings_counts l :
  let s := summarizeFindings l in
  sm_Critical s = count_severity SeverityCritical l ∧ sm_Warning s = count_severity SeverityWarning l ∧
  sm_Info s = count_severity SeverityInfo l.
Proof.
  unfold summarizeFindings. cbv zeta. set (step := λ s f, _).
  assert (∀ s, sm_Critical (foldl step s l) = sm_Critical s + count_severity SeverityCritical l ∧
    sm_Warning (foldl step s l) = sm_Warning s + count_severity SeverityWarning l ∧
    sm_Info (foldl step s l) = sm_Info s + count_severity SeverityInfo l) as H; [|apply (H (MkSummary 0 0 0))].
  unfold count_severity. induction l as [|f l IH]; intros s; [cbn; lia|]. cbn [foldl]. destruct (IH (step s f)) as (-> & -> & ->).
  rewrite !filter_cons. unfold step.
  repeat case_decide; try (exfalso; unfold SeverityCritical, SeverityWarning, SeverityInfo in *; congruence); cbn; lia.
Qed.

Lemma known_partition l :
  Forall known_severity l →
  count_severity SeverityCritical l + count_severity SeverityWarning l + count_severity SeverityInfo l = Z.of_nat (length l).
Proof.
  unfold count_severity, known_severity. induction 1 as [|f l Hf _ IH]; [done|]. rewrite !filter_cons.
  rewrite !elem_of_cons in Hf. unfold SeverityCritical, SeverityWarning, SeverityInfo in *.
  repeat case_decide; try (exfalso; congruence); cbn; try lia.
  exfalso. destruct Hf as [?|[?|[?|Hf]]]; try done. by apply not_elem_of_nil in Hf.
Qed.

(** ** The whole computation *)

Lemma overlap_known l : Forall known_severity (evaluateOverlaps printable l).
Proof. apply Forall_forall. intros f (p & -> & _)%list_elem_of_fmap. apply elem_of_cons. by left. Qed.

Lemma stale_known s now l : Forall known_severity (evaluateStaleRecords printable l s now).
Proof.
  apply Forall_forall. intros f (rec & _ & Hf)%list_elem_of_omap. unfold stale_finding in Hf. unfold known_severity.
  repeat (case_match; simplify_eq/=; try done); rewrite !elem_of_cons; tauto.
Qed.

Lemma service_known l : Forall known_severity (evaluateUnmanagedServices l).
Proof.
  apply Forall_forall. intros f (d & _ & Hf)%list_elem_of_omap. unfold service_finding in Hf. unfold known_severity.
  repeat (case_decide || case_match; simplify_eq/=; try done); rewrite !elem_of_cons; tauto.
Qed.

Section compute.
Context (by_ip : list (string * DiscoveryRow) → list (string * DiscoveryRow)) {env : Env} {app : App}.

Definition group_known (g : PolicyFindingGroup) : Prop := Forall known_severity (fg_Findings g).

Lemma returns_try_ok {A B} (Q : A → Prop) (Q' : B → Prop) (p : GoE Inventory A) (h : A → GoE Inventory B) :
  returns (λ o, ∀ a, o = Ok a → Q a) p → (∀ a, Q a → returns (λ o, ∀ b, o = Ok b → Q' b) (h a)) →
  returns (λ o, ∀ b, o = Ok b → Q' b) (try_bind p h).
Proof. intros Hp Hh. eapply returns_bind; [exact Hp|]. intros [a|e] Ha; [by apply Hh, Ha|]. by intros b. Qed.

Lemma returns_any {A} (p : GoE Inventory A) : returns (λ o, ∀ a, o = Ok a → True) p.
Proof. induction p as [o|g k IH]; [done|]. intros w. apply IH. Qed.

Lemma checked_known (on : bool) p :
  returns (λ o, ∀ g, o = Ok g → group_known g) p →
  returns (λ o, ∀ l, o = Ok l → Forall group_known l ∧ length l = if on then 1%nat else 0%nat) (checked on p).
Proof.
  intros Hp. destruct on; [|by intros l [= <-]]. eapply returns_try_ok; [exact Hp|]. intros g Hg l [= <-].
  split; [by constructor|done].
Qed.

(** Whatever the settings and the store, the policy view has one group for each
    check that is on, and its summary counts each finding of the groups once. *)
Theorem computePolicy_counts s :
  returns (λ o, ∀ groups summary, o = Ok (groups, summary) →
    Total summary = Z.of_nat (length (concat (map fg_Findings groups))) ∧
    length groups = length (filter (λ on : bool, on = true) [CheckOverlaps s; CheckStale s; CheckServices s]))
    (computePolicy printable by_ip s).
Proof.
  enough (returns (λ o, ∀ x : list PolicyFindingGroup * PolicySummary, o = Ok x →
    Total x.2 = Z.of_nat (length (concat (map fg_Findings x.1))) ∧
    length x.1 = length (filter (λ on : bool, on = true) [CheckOverlaps s; CheckStale s; CheckServices s]))
    (computePolicy printable by_ip s)) as H.
  { revert H. generalize (computePolicy printable by_ip s). intros p. induction p as [o|g k IH]; [|by intros H w; apply IH].
    intros H groups summary Ho. by apply (H (groups, summary)). }
  set (grouped on l := Forall group_known l ∧ length l = if on : bool then 1%nat else 0%nat).
  unfold computePolicy. eapply (returns_try_ok (grouped (CheckOverlaps s))).
  { apply checked_known. eapply (returns_try_ok (λ _, True)); [apply returns_any|]. intros l _ g Hg. injection Hg as <-. apply overlap_known. }
  intros l1 [H1 L1]. eapply (returns_try_ok (grouped (CheckStale s))).
  { apply checked_known. eapply (returns_try_ok (λ _, True)); [apply returns_any|]. intros a _.
    eapply (returns_try_ok (λ _, True)); [apply returns_any|]. intros d _. apply returns_after. intros now g Hg. injection Hg as <-.
    apply Forall_app. split; apply stale_known. }
  intros l2 [H2 L2]. eapply (returns_try_ok (grouped (CheckServices s))).
  { apply checked_known. eapply (returns_try_ok (λ _, True)); [apply returns_any|]. intros l _ g Hg. injection Hg as <-. apply service_known. }
  intros l3 [H3 L3] x [= <-]. cbn [fst snd]. unfold Total.
  destruct (summarizeFindings_counts (concat (map fg_Findings (l1 ++ l2 ++ l3)))) as (-> & -> & ->). split.
  - apply known_partition. assert (Forall group_known (l1 ++ l2 ++ l3)) as Hg by by rewrite !Forall_app.
    induction Hg as [|g l Hg _ IH]; [done|]. cbn. by apply Forall_app.
  - rewrite !length_app, L1, L2, L3. by destruct (CheckOverlaps s), (CheckStale s), (CheckServices s).
Qed.
End compute.
End policy.

(** ** Witnesses *)

Definition two_subnets : list PolicySubnet :=
  [MkPolicySubnet "a" "Office" "10.0.0.0/23"; MkPolicySubnet "b" "Lab" "10.0.1.0/24"; MkPolicySubnet "c" "DMZ" "10.0.2.0/24"].

Lemma evaluateOverlaps_spec_witness :
  overlap_finding (λ _, true) (MkPolicySubnet "a" "Office" "10.0.0.0/23") (MkPolicySubnet "b" "Lab" "10.0.1.0/24")
    ∈ evaluateOverlaps (λ _, true) two_subnets.
Proof.
  apply (evaluateOverlaps_spec (λ _, true)).
  - unfold two_subnets. repeat (apply Forall_cons; split); [..|by apply Forall_nil]; eexists; split; vm_compute; reflexivity.
  - exists 0%nat, 1%nat, (MkPolicySubnet "a" "Office" "10.0.0.0/23"), (MkPolicySubnet "b" "Lab" "10.0.1.0/24").
    split; [lia|]. split; [reflexivity|]. split; [reflexivity|]. split; [|reflexivity].
    exists (PrefixFrom (Addr4 167772160) 23), (PrefixFrom (Addr4 167772416) 24), 167772417. repeat split; vm_compute; reflexivity.
Defined.
