(* ===== verification/Endpoints.v ===== *)
(** * URLs

    The parts of [net/url] and [net] the program relies on, as of Go 1.25.8: escaping,
    [Parse], [URL.Hostname] and [URL.String], and the classes of [net.IP]; the guards of
    endpoints over them, and the address a second factor is enrolled with. *)

From S2P Require Import Prelude GoStrings Netip Events.
Local Open Scope Z_scope.

(** ** Escaping *)

Definition is_alpha (c : ascii) : bool :=
  let b := byte_val c in ((97 <=? b) && (b <=? 122)) || ((65 <=? b) && (b <=? 90)).
Definition is_alnum (c : ascii) : bool := is_alpha c || is_digit c.

Definition upper_hex (n : Z) : ascii := byte_of (if n <? 10 then 48 + n else 55 + n).
Definition percent (c : ascii) : string :=
  String "%" (String (upper_hex (byte_val c / 16)) (String (upper_hex (byte_val c mod 16)) "")).

Definition unreserved (c : ascii) : bool := is_alnum c || bool_decide (c ∈ ["-"; "_"; "."; "~"]%char).

(** [url.QueryEscape] *)
Fixpoint QueryEscape (s : string) : string :=
  match s with
  | "" => ""
  | String c s =>
      (if unreserved c then String c "" else if decide (c = " "%char) then "+" else percent c) +:+ QueryEscape s
  end.

Example QueryEscape_1 : QueryEscape "a b/ü" = "a+b%2F%C3%BC".
Proof. vm_compute. reflexivity. Qed.

(** The parts of a URL, each with bytes of its own. *)
Inductive encoding : Type := encodePath | encodeHost | encodeZone | encodeUserPassword | encodeFragment.

Definition quote_mark : ascii := byte_of 34.
Definition in_host (mode : encoding) : bool := match mode with encodeHost | encodeZone => true | _ => false end.

Definition shouldEscape (mode : encoding) (c : ascii) : bool :=
  if is_alnum c then false
  else if in_host mode && bool_decide (c ∈ ["!"; "$"; "&"; "'"; "("; ")"; "*"; "+"; ","; ";"; "="; ":"; "["; "]"; "<"; ">"; quote_mark]%char)
  then false
  else if bool_decide (c ∈ ["-"; "_"; "."; "~"]%char) then false
  else if bool_decide (c ∈ ["$"; "&"; "+"; ","; "/"; ":"; ";"; "="; "?"; "@"]%char) then
    match mode with
    | encodePath => bool_decide (c = "?"%char)
    | encodeUserPassword => bool_decide (c ∈ ["@"; "/"; "?"; ":"]%char)
    | encodeFragment => false
    | _ => true
    end
  else match mode with encodeFragment => negb (bool_decide (c ∈ ["!"; "("; ")"; "*"]%char)) | _ => true end.

Fixpoint escape (mode : encoding) (s : string) : string :=
  match s with
  | "" => ""
  | String c s => (if shouldEscape mode c then percent c else String c "") +:+ escape mode s
  end.

(** What [unescape] refuses of a byte written in hexadecimal: in a host, an ASCII byte
    other than the percent sign; in a zone, one that a host may not contain. *)
Definition refused (mode : encoding) (v : Z) : bool :=
  match mode with
  | encodeHost => (v <? 128) && negb (v =? 37)
  | encodeZone => negb (v =? 37) && negb (v =? 32) && shouldEscape encodeHost (byte_of v)
  | _ => false
  end.

Fixpoint unescape (mode : encoding) (s : string) : option string :=
  match s with
  | "" => Some ""
  | String "%" rest =>
      match rest with
      | String a (String b rest) =>
          x ← hex_val a; y ← hex_val b;
          if refused mode (16 * x + y) then None else String (byte_of (16 * x + y)) <$> unescape mode rest
      | _ => None
      end
  | String c rest =>
      if in_host mode && (byte_val c <? 128) && shouldEscape mode c then None else String c <$> unescape mode rest
  end.

(** ** Parsing *)

Record Userinfo : Type := MkUserinfo { us_Name : string; us_Password : option string }.

Record URL : Type := MkURL
  { ur_Scheme : string; ur_Opaque : string; ur_User : option Userinfo; ur_Host : string; ur_Path : string;
    ur_RawPath : string; ur_OmitHost : bool; ur_ForceQuery : bool; ur_RawQuery : string; ur_Fragment : string;
    ur_RawFragment : string }.

(** The scheme and the rest; without a scheme, all of the text. *)
Fixpoint scheme_from (first : bool) (seen whole s : string) : option (string * string) :=
  match s with
  | "" => Some ("", whole)
  | String c rest =>
      if is_alpha c then scheme_from false (seen +:+ String c "") whole rest
      else if is_digit c || bool_decide (c ∈ ["+"; "-"; "."]%char) then
        if first then Some ("", whole) else scheme_from false (seen +:+ String c "") whole rest
      else if decide (c = ":"%char) then if first then None else Some (seen, rest)
      else Some ("", whole)
  end.
Definition getScheme (s : string) : option (string * string) := scheme_from true "" s s.

Definition validOptionalPort (port : string) : bool :=
  match port with
  | "" => true
  | String c rest => bool_decide (c = ":"%char) && forallb is_digit (str_to_list rest)
  end.

Definition user_byte (c : ascii) : bool :=
  is_alnum c || bool_decide (c ∈ ["-"; "."; "_"; ":"; "~"; "!"; "$"; "&"; "'"; "("; ")"; "*"; "+"; ","; ";"; "="; "%"; "@"]%char).

(** The text before and from the first [%25]. *)
Fixpoint cut_zone (s : string) : string * string :=
  match s with
  | "" => ("", "")
  | String c rest => if has_prefix s "%25" then ("", s) else (String c (cut_zone rest).1, (cut_zone rest).2)
  end.

(** An IPv6 literal in brackets, with an optional zone and port. *)
Definition parse_literal (inside port : string) : option string :=
  if negb (validOptionalPort port) then None
  else
    port ← unescape encodeHost port;
    address ← unescape encodeHost (cut_zone inside).1;
    zone ← unescape encodeZone (cut_zone inside).2;
    addr ← parse_addr (address +:+ zone);
    if is4 addr then None else Some ("[" +:+ address +:+ zone +:+ "]" +:+ port).

Definition parseHost (host : string) : option string :=
  match cut_last_byte "["%char host with
  | Some (before, inside) =>
      if negb (bool_decide (before = "")) then None
      else '(inside, port) ← cut_last_byte "]"%char inside; parse_literal inside port
  | None =>
      if match cut_last_byte ":"%char host with
         | Some (_, port) => negb (validOptionalPort (String ":" port))
         | None => false
         end
      then None
      else unescape encodeHost host
  end.

Definition parseUser (userinfo : string) : option Userinfo :=
  if negb (forallb user_byte (str_to_list userinfo)) then None
  else match cut_byte ":"%char userinfo with
       | None => name ← unescape encodeUserPassword userinfo; Some (MkUserinfo name None)
       | Some (name, password) =>
           name ← unescape encodeUserPassword name;
           password ← unescape encodeUserPassword password;
           Some (MkUserinfo name (Some password))
       end.

Definition parseAuthority (authority : string) : option (option Userinfo * string) :=
  match cut_last_byte "@"%char authority with
  | None => host ← parseHost authority; Some (None, host)
  | Some (userinfo, host) => host ← parseHost host; user ← parseUser userinfo; Some (Some user, host)
  end.

Definition control_byte (c : ascii) : bool := (byte_val c <? 32) || (byte_val c =? 127).

(** The raw form is kept when it is not the one [escape] gives. *)
Definition raw_unless (mode : encoding) (raw text : string) : string :=
  if decide (escape mode text = raw) then "" else raw.

(** [strings.Cut(rest, '?')], and the query that is only a question mark. *)
Definition cut_query (rest : string) : string * bool * string :=
  match cut_byte "?"%char rest with
  | None => (rest, false, "")
  | Some (rest, "") => (rest, true, "")
  | Some (rest, query) => (rest, false, query)
  end.

(** What follows the scheme, after the query is cut off. *)
Definition parse_rest (scheme : string) (force : bool) (query rest : string) : option URL :=
  let url user host rest omit :=
    path ← unescape encodePath rest;
    Some (MkURL scheme "" user host path (raw_unless encodePath rest path) omit force query "" "") in
  if negb (has_prefix rest "/") && negb (bool_decide (scheme = "")) then
    Some (MkURL scheme rest None "" "" "" false force query "" "")
  else if negb (has_prefix rest "/") && contains (default rest (fst <$> cut_byte "/"%char rest)) ":" then None
  else match strip_prefix "//" rest with
       | Some after =>
           if bool_decide (scheme = "") && has_prefix rest "///" then url None "" rest false
           else
             let '(authority, rest) :=
               match cut_byte "/"%char after with Some (a, r) => (a, String "/" r) | None => (after, "") end in
             '(user, host) ← parseAuthority authority; url user host rest false
       | None => url None "" rest (negb (bool_decide (scheme = "")) && has_prefix rest "/")
       end.

Definition set_fragment (frag : string) (u : URL) : option URL :=
  text ← unescape encodeFragment frag;
  Some (MkURL (ur_Scheme u) (ur_Opaque u) (ur_User u) (ur_Host u) (ur_Path u) (ur_RawPath u) (ur_OmitHost u)
    (ur_ForceQuery u) (ur_RawQuery u) text (raw_unless encodeFragment frag text)).

Definition parse_url (s : string) : option URL :=
  if existsb control_byte (str_to_list s) then None
  else if decide (s = "*") then Some (MkURL "" "" None "" "*" "" false false "" "" "")
  else
    '(scheme, rest) ← getScheme s;
    let '(rest, force, query) := cut_query rest in
    parse_rest (to_lower scheme) force query rest.

(** [url.Parse] *)
Definition Parse (s : string) : option URL :=
  match cut_byte "#"%char s with
  | None => parse_url s
  | Some (s, frag) => u ← parse_url s; if decide (frag = "") then Some u else set_fragment frag u
  end.

(** ** Reading and printing *)

(** [URL.Hostname] *)
Definition Hostname (u : URL) : string :=
  let host := ur_Host u in
  let host := match cut_last_byte ":"%char host with
              | Some (h, port) => if forallb is_digit (str_to_list port) then h else host
              | None => host
              end in
  match host with
  | String "[" rest => default host (strip_suffix "]" rest)
  | _ => host
  end.

(** Bytes that may stay as they are in a path or a fragment. *)
Definition encoded_byte (mode : encoding) (c : ascii) : bool :=
  bool_decide (c ∈ ["!"; "$"; "&"; "'"; "("; ")"; "*"; "+"; ","; ";"; "="; ":"; "@"; "["; "]"; "%"]%char) ||
  negb (shouldEscape mode c).
Definition validEncoded (mode : encoding) (s : string) : bool := forallb (encoded_byte mode) (str_to_list s).

Definition escaped_part (mode : encoding) (raw text : string) : string :=
  if bool_decide (raw ≠ "") && validEncoded mode raw && bool_decide (unescape mode raw = Some text) then raw
  else if decide (text = "*") then "*" else escape mode text.

Definition user_text (u : Userinfo) : string :=
  if bool_decide (us_Name u = "") && bool_decide (default "" (us_Password u) = "") then ""
  else escape encodeUserPassword (us_Name u) +:+
       match us_Password u with Some p => ":" +:+ escape encodeUserPassword p | None => "" end.

(** [URL.String] of a URL with a scheme. *)
Definition URL_String (u : URL) : string :=
  ur_Scheme u +:+ ":" +:+
  (if decide (ur_Opaque u = "") then
     (if ur_OmitHost u && bool_decide (ur_Host u = "") && bool_decide (ur_User u = None) then ""
      else (if bool_decide (ur_Host u ≠ "") || bool_decide (ur_Path u ≠ "") || negb (bool_decide (ur_User u = None)) then "//" else "") +:+
           match ur_User u with Some user => user_text user +:+ "@" | None => "" end +:+ escape encodeHost (ur_Host u)) +:+
     (let path := escaped_part encodePath (ur_RawPath u) (ur_Path u) in
      (if bool_decide (path ≠ "") && negb (has_prefix path "/") && bool_decide (ur_Host u ≠ "") then "/" else "") +:+ path)
   else ur_Opaque u) +:+
  (if ur_ForceQuery u || bool_decide (ur_RawQuery u ≠ "") then "?" +:+ ur_RawQuery u else "") +:+
  (if decide (ur_Fragment u = "") then "" else "#" +:+ escaped_part encodeFragment (ur_RawFragment u) (ur_Fragment u)).

Definition normal (s : string) : option string := URL_String <$> Parse s.
Example Parse_1 : normal "HTTPS://Agent.lan:8443/x%20y/?q=1#top" = Some "https://Agent.lan:8443/x%20y/?q=1#top".
Proof. vm_compute. reflexivity. Qed.
Example Parse_2 : Hostname <$> Parse "https://u:p@[fe80::1%25eth0]:8443/" = Some "fe80::1%eth0".
Proof. vm_compute. reflexivity. Qed.
Example Parse_3 : map (λ s, bool_decide (Parse s = None)) ["https://a b/"; "https://a:x/"; "https://[10.0.0.1]/"; "://a"; "https://a%41/"; "a:b"] =
  [true; true; true; true; true; false].
Proof. vm_compute. reflexivity. Qed.
Example Parse_4 : map normal ["mailto:a@b"; "https:///x"; "https://"; "https:/x"; "https://ü/?"] =
  [Some "mailto:a@b"; Some "https:///x"; Some "https:"; Some "https:/x"; Some "https://%C3%BC/?"].
Proof. vm_compute. reflexivity. Qed.

(** ** Addresses *)

(** [net.ParseIP] reads an address without a zone; an IPv4 one and its IPv6 form are
    the same. *)
Definition ParseIP (s : string) : option Addr :=
  addr ← parse_addr s;
  if decide (addr_zone addr = "") then
    match addr with
    | Addr6 v _ => Some (if v / 2 ^ 32 =? 65535 then Addr4 (v mod 2 ^ 32) else addr)
    | Addr4 _ => Some addr
    end
  else None.

Definition IsLoopback (ip : Addr) : bool :=
  match ip with Addr4 v => v / 2 ^ 24 =? 127 | Addr6 v _ => v =? 1 end.
Definition IsLinkLocalUnicast (ip : Addr) : bool :=
  match ip with Addr4 v => v / 2 ^ 16 =? 169 * 256 + 254 | Addr6 v _ => v / 2 ^ 118 =? 1018 end.
Definition IsLinkLocalMulticast (ip : Addr) : bool :=
  match ip with Addr4 v => v / 2 ^ 8 =? 224 * 65536 | Addr6 v _ => (v / 2 ^ 120 =? 255) && (v / 2 ^ 112 mod 16 =? 2) end.
Definition IsUnspecified (ip : Addr) : bool := addr_val ip =? 0.

Example IsLinkLocalUnicast_1 : IsLinkLocalUnicast <$> ParseIP "fe80::1" = Some true.
Proof. vm_compute. reflexivity. Qed.

(** * Where the server may connect

    [internal/scanner/endpoint.go] and [internal/webhook/endpoint.go]: the guards on the
    addresses of scanner agents and of webhook receivers, and which literal addresses
    they refuse. *)

(** A literal address that is never a receiver. *)
Definition inward (ip : Addr) : bool :=
  IsLoopback ip || IsLinkLocalUnicast ip || IsLinkLocalMulticast ip || IsUnspecified ip.

(** The two guards differ in their messages only. *)
Record GuardMessages : Type := MkGuardMessages
  { gm_Enter : string; gm_Invalid : string → string; gm_Scheme : string; gm_Host : string; gm_Inward : string → string }.

Definition checked_url (m : GuardMessages) (raw : string) : result string string :=
  let raw := trim_space raw in
  if decide (raw = "") then Err (gm_Enter m)
  else match Parse raw with
       | None => Err (gm_Invalid m raw)
       | Some u =>
           if negb (bool_decide (ur_Scheme u = "https")) then Err (gm_Scheme m)
           else if decide (Hostname u = "") then Err (gm_Host m)
           else match ParseIP (Hostname u) with
                | Some ip => if inward ip then Err (gm_Inward m (Hostname u)) else Ok (URL_String u)
                | None => Ok (URL_String u)
                end
       end.

Section guards.
(** The printable runes, for [%q]. *)
Context (printable : Z → bool).

Definition dash : string := " " +:+ String (byte_of 226) (String (byte_of 128) (String (byte_of 148) " ")).

Definition agent_messages : GuardMessages := MkGuardMessages
  "Enter an https:// endpoint URL for the agent."
  (λ raw, "Endpoint URL " +:+ Quote printable raw +:+ " is not valid" +:+ dash +:+ "use an https:// address like https://scanner-agent:8443.")
  "Endpoint URL must use https://." "Endpoint URL must include a host."
  (λ host, "Endpoint URL " +:+ Quote printable host +:+ " points at a loopback or link-local address, which is not a valid agent location.").
Definition ValidateAgentEndpoint : string → result string string := checked_url agent_messages.

Definition webhook_messages : GuardMessages := MkGuardMessages
  "Enter an https:// URL for the webhook."
  (λ raw, "Webhook URL " +:+ Quote printable raw +:+ " is not valid" +:+ dash +:+ "use an https:// address.")
  "Webhook URL must use https://." "Webhook URL must include a host."
  (λ host, "Webhook URL " +:+ Quote printable host +:+ " points at a loopback or link-local address, which is not a valid webhook destination.").
Definition ValidateURL : string → result string string := checked_url webhook_messages.
End guards.

(** ** A literal IPv4 address *)

(** A path of bytes that need no escaping. *)
Definition path_byte (c : ascii) : bool := unreserved c || bool_decide (c = "/"%char).
Definition plain_path (p : string) : Prop :=
  p = "" ∨ ∃ q, p = String "/" q ∧ forallb path_byte (str_to_list q) = true.
Definition host_byte (c : ascii) : bool := is_digit c || bool_decide (c = "."%char).

Definition forall_bytes (f : ascii → bool) (s : string) : bool := forallb f (str_to_list s).

Lemma forall_bytes_app f s t : forall_bytes f (s +:+ t) = forall_bytes f s && forall_bytes f t.
Proof. unfold forall_bytes. by rewrite str_to_list_app, forallb_app. Qed.

Lemma forall_bytes_cons f c s : forall_bytes f (String c s) = f c && forall_bytes f s.
Proof. done. Qed.

Lemma forall_bytes_impl (f g : ascii → bool) s :
  (∀ c, f c = true → g c = true) → forall_bytes f s = true → forall_bytes g s = true.
Proof. intros Hfg. unfold forall_bytes. rewrite !forallb_forall. auto. Qed.

Lemma forall_bytes_count (f : ascii → bool) c s : f c = false → forall_bytes f s = true → count_byte c s = 0%nat.
Proof.
  intros Hc. induction s as [|a s IH]; [done|]. rewrite forall_bytes_cons. intros [Ha Hs]%andb_true_iff.
  cbn. destruct (decide (a = c)) as [->|]; [congruence|]. by apply IH.
Qed.

Lemma unescape_plain mode s :
  forall_bytes (λ c, negb (bool_decide (c = "%"%char)) && negb (in_host mode && (byte_val c <? 128) && shouldEscape mode c)) s = true →
  unescape mode s = Some s.
Proof.
  induction s as [|c s IH]; [done|]. rewrite forall_bytes_cons. intros [[Hp Hc]%andb_true_iff Hs]%andb_true_iff.
  rewrite negb_true_iff, bool_decide_eq_false in Hp. rewrite negb_true_iff in Hc.
  assert (unescape mode (String c s) =
    if in_host mode && (byte_val c <? 128) && shouldEscape mode c then None else String c <$> unescape mode s) as ->.
  { destruct c as [[] [] [] [] [] [] [] []]; try reflexivity; by destruct Hp. }
  rewrite Hc. by rewrite IH.
Qed.

Lemma escape_plain mode s : forall_bytes (λ c, negb (shouldEscape mode c)) s = true → escape mode s = s.
Proof.
  induction s as [|c s IH]; [done|]. rewrite forall_bytes_cons. intros [Hc%negb_true_iff Hs]%andb_true_iff.
  cbn [escape]. rewrite Hc, IH by done. by rewrite str_app_cons, str_app_nil_l.
Qed.

(** Facts about all 256 bytes. *)
Ltac every_byte := intros [[] [] [] [] [] [] [] []]; (reflexivity || discriminate || (vm_compute; reflexivity || (intros; discriminate))).

Lemma path_byte_plain c : path_byte c = true →
  (negb (bool_decide (c = "%"%char)) && negb (in_host encodePath && (byte_val c <? 128) && shouldEscape encodePath c) = true) ∧
  negb (shouldEscape encodePath c) = true ∧ negb (control_byte c) = true.
Proof. revert c. intros [[] [] [] [] [] [] [] []]; vm_compute; try discriminate; auto. Qed.

Lemma host_byte_plain c : host_byte c = true →
  (negb (bool_decide (c = "%"%char)) && negb (in_host encodeHost && (byte_val c <? 128) && shouldEscape encodeHost c) = true) ∧
  negb (shouldEscape encodeHost c) = true ∧ negb (control_byte c) = true ∧ path_byte c = true.
Proof. revert c. intros [[] [] [] [] [] [] [] []]; vm_compute; try discriminate; auto. Qed.

Lemma parse_fields_bytes first prevdot val len fields s l :
  parse_ipv4_fields first prevdot val len fields s = Some l → forall_bytes host_byte s = true.
Proof.
  revert first prevdot val len fields. induction s as [|c s IH]; intros first prevdot val len fields; [done|].
  rewrite forall_bytes_cons. cbn [parse_ipv4_fields]. unfold host_byte. destruct (is_digit c).
  - cbn [orb andb]. destruct ((len =? 1) && (val =? 0)); [done|]. destruct (255 <? _); [done|]. apply IH.
  - destruct (decide (c = "."%char)) as [->|]; [|done]. cbn [orb andb].
    destruct (first || prevdot || bool_decide (s = "")); [done|]. destruct (decide (length fields = 3%nat)); [done|]. apply IH.
Qed.

Lemma addr4_string_bytes v : 0 ≤ v < 2 ^ 32 → forall_bytes host_byte (addr4_string v) = true.
Proof.
  intros Hv. assert (parse_ipv4 (addr4_string v) = Some (Addr4 v)) as Hp by (apply parse_ipv4_Some; eauto).
  unfold parse_ipv4 in Hp. destruct (parse_ipv4_fields _ _ _ _ _ (addr4_string v)) eqn:Hf; [|done].
  by eapply parse_fields_bytes.
Qed.

(** ** What [Parse] reads in such an address *)

Lemma plain_path_bytes p : plain_path p → forall_bytes path_byte p = true.
Proof. intros [->|(q & -> & Hq)]; [done|]. by rewrite forall_bytes_cons. Qed.

Lemma host_bytes_count h c : forall_bytes host_byte h = true → host_byte c = false → count_byte c h = 0%nat.
Proof. intros Hh Hc. by apply (forall_bytes_count host_byte). Qed.
Lemma path_bytes_count p c : forall_bytes path_byte p = true → path_byte c = false → count_byte c p = 0%nat.
Proof. intros Hp Hc. by apply (forall_bytes_count path_byte). Qed.

Lemma host_unescape h : forall_bytes host_byte h = true → unescape encodeHost h = Some h ∧ escape encodeHost h = h.
Proof.
  intros Hh. split; [apply unescape_plain|apply escape_plain]; (eapply forall_bytes_impl; [|exact Hh]); intros c Hc;
    by apply host_byte_plain in Hc as (?&?&_).
Qed.
Lemma path_unescape p : forall_bytes path_byte p = true → unescape encodePath p = Some p ∧ escape encodePath p = p.
Proof.
  intros Hp. split; [apply unescape_plain|apply escape_plain]; (eapply forall_bytes_impl; [|exact Hp]); intros c Hc;
    by apply path_byte_plain in Hc as (?&?&_).
Qed.

Lemma parseAuthority_host h : forall_bytes host_byte h = true → parseAuthority h = Some (None, h).
Proof.
  intros Hh. unfold parseAuthority, parseHost. rewrite !cut_last_none by (by apply host_bytes_count).
  by rewrite (proj1 (host_unescape h Hh)).
Qed.

Definition plain_url (h p : string) : URL := MkURL "https" "" None h p "" false false "" "" "".

Lemma parse_rest_plain h p :
  forall_bytes host_byte h = true → plain_path p → parse_rest "https" false "" ("//" +:+ h +:+ p) = Some (plain_url h p).
Proof.
  intros Hh Hp. pose proof (plain_path_bytes p Hp) as Hb. unfold parse_rest.
  rewrite !str_app_cons, !str_app_nil_l.
  assert (has_prefix (String "/" (String "/" (h +:+ p))) "/" = true) as -> by done.
  change (negb true) with false. cbv iota. rewrite !andb_false_l.
  assert (strip_prefix "//" (String "/" (String "/" (h +:+ p))) = Some (h +:+ p)) as -> by done.
  destruct Hp as [->|(q & -> & Hq)].
  - rewrite str_app_nil_r, cut_byte_none by (by apply host_bytes_count). by rewrite parseAuthority_host.
  - rewrite cut_byte_app by (by apply host_bytes_count). rewrite parseAuthority_host by done. cbn [mbind option_bind].
    destruct (path_unescape _ Hb) as [-> He]. cbn [mbind option_bind]. unfold raw_unless. by rewrite decide_True.
Qed.

Lemma Parse_plain h p :
  forall_bytes host_byte h = true → plain_path p → Parse ("https://" +:+ h +:+ p) = Some (plain_url h p).
Proof.
  intros Hh Hp. pose proof (plain_path_bytes p Hp) as Hb.
  assert (∀ c, path_byte c = false → c ≠ ":"%char → count_byte c ("//" +:+ h +:+ p) = 0%nat) as Hcount.
  { intros c Hc _. apply (path_bytes_count _ c); [|done]. rewrite !forall_bytes_app, Hb, andb_true_r. cbn.
    eapply forall_bytes_impl; [|exact Hh]. intros d Hd. by apply host_byte_plain in Hd as (_&_&_&?). }
  assert (count_byte "#"%char ("https://" +:+ h +:+ p) = 0%nat) as Hfrag.
  { change ("https://" +:+ h +:+ p) with ("https:" +:+ ("//" +:+ h +:+ p)). rewrite count_byte_app, Hcount by done. done. }
  unfold Parse. rewrite cut_byte_none by done. unfold parse_url.
  assert (existsb control_byte (str_to_list ("https://" +:+ h +:+ p)) = false) as ->.
  { rewrite !str_to_list_app, !existsb_app.
    assert (∀ s, forall_bytes path_byte s = true → existsb control_byte (str_to_list s) = false) as Hno.
    { intros s. induction s as [|c s IH]; [done|]. rewrite forall_bytes_cons. intros [Hc Hs]%andb_true_iff. cbn.
      apply path_byte_plain in Hc as (_&_&->%negb_true_iff). by apply IH. }
    rewrite (Hno h), (Hno p); [done|done|]. eapply forall_bytes_impl; [|exact Hh]. intros d Hd. by apply host_byte_plain in Hd as (_&_&_&?). }
  rewrite decide_False by done.
  assert (getScheme ("https://" +:+ h +:+ p) = Some ("https", "//" +:+ h +:+ p)) as -> by done.
  cbn [mbind option_bind]. unfold cut_query. rewrite cut_byte_none by (by apply Hcount).
  change (to_lower "https") with "https". by apply parse_rest_plain.
Qed.

(** ** The guard on literal addresses *)

(** Loopback, link-local and unspecified addresses. *)
Definition inward4 (v : Z) : Prop :=
  v = 0 ∨ 127 * 2 ^ 24 ≤ v < 128 * 2 ^ 24 ∨ (169 * 256 + 254) * 2 ^ 16 ≤ v < (169 * 256 + 255) * 2 ^ 16 ∨
  224 * 2 ^ 24 ≤ v < 224 * 2 ^ 24 + 256.

Lemma inward_spec v : inward (Addr4 v) = true ↔ inward4 v.
Proof.
  unfold inward, IsLoopback, IsLinkLocalUnicast, IsLinkLocalMulticast, IsUnspecified, inward4. cbn [addr_val].
  rewrite !orb_true_iff, !Z.eqb_eq. change (2 ^ 24) with 16777216. change (2 ^ 16) with 65536. change (2 ^ 8) with 256.
  Z.to_euclidean_division_equations. lia.
Qed.

Lemma trim_plain h p :
  forall_bytes host_byte h = true → plain_path p → trim_space ("https://" +:+ h +:+ p) = "https://" +:+ h +:+ p.
Proof.
  intros Hh Hp. apply trim_space_id. intros c Hc. rewrite !count_byte_app.
  rewrite (host_bytes_count h), (path_bytes_count p); [|by apply plain_path_bytes| |done|];
    revert c Hc; intros [[] [] [] [] [] [] [] []]; (done || (vm_compute; done)).
Qed.

Lemma Hostname_plain h p : forall_bytes host_byte h = true → Hostname (plain_url h p) = h.
Proof.
  intros Hh. unfold Hostname. cbn [ur_Host plain_url]. rewrite cut_last_none by (by apply host_bytes_count).
  destruct h as [|c h]; [done|]. rewrite forall_bytes_cons in Hh. apply andb_true_iff in Hh as [Hc _].
  revert c Hc. intros [[] [] [] [] [] [] [] []]; done.
Qed.

Lemma URL_String_plain h p :
  forall_bytes host_byte h = true → h ≠ "" → plain_path p → URL_String (plain_url h p) = "https://" +:+ h +:+ p.
Proof.
  intros Hh Hne Hp. pose proof (plain_path_bytes p Hp) as Hb.
  unfold URL_String, escaped_part. cbn [ur_Scheme ur_Opaque ur_OmitHost ur_Host ur_User ur_Path ur_RawPath ur_ForceQuery ur_RawQuery ur_Fragment plain_url].
  rewrite (proj2 (host_unescape h Hh)), (proj2 (path_unescape p Hb)).
  rewrite (bool_decide_true (h ≠ "")) by done.
  assert ((if decide (p = "*") then "*" else p) = p) as Hstar by (by destruct (decide (p = "*")) as [->|]).
  destruct Hp as [->|(q & -> & Hq)]; cbn -[String.app]; rewrite ?str_app_nil_r; [done|].
  by rewrite !str_app_cons, !str_app_nil_l.
Qed.



(** A zone hides a link-local literal from the guard. *)
Lemma zone_hides_literal (printable : Z → bool) :
  ValidateAgentEndpoint printable "https://[fe80::1%25eth0]:8443" = Ok "https://[fe80::1%25eth0]:8443" ∧
  IsLinkLocalUnicast <$> parse_addr "fe80::1%eth0" = Some true.
Proof. split; vm_compute; reflexivity. Qed.

Example guards_1 : map (λ s, match ValidateURL (λ _, false) s with Ok t => t | Err e => "error" end)
  ["https://[::ffff:127.0.0.1]/"; "https://[::1]:8443"; "http://a.b"; " HTTPS://Hooks.lan/x "; "https://2130706433/"] =
  ["error"; "error"; "error"; "https://Hooks.lan/x"; "https://2130706433/"].
Proof. vm_compute. reflexivity. Qed.

(** ** The address of a second factor *)

(** [url.PathEscape] *)
Definition segment_escapes (c : ascii) : bool :=
  negb (unreserved c || bool_decide (c ∈ ["$"; "&"; "+"; ":"; "="; "@"]%char)).
Fixpoint PathEscape (s : string) : string :=
  match s with
  | "" => ""
  | String c s => (if segment_escapes c then percent c else String c "") +:+ PathEscape s
  end.

(** [url.Values.Encode]: by name, each with one value. *)
Definition encode_values (l : list (string * string)) : string :=
  join "&" (map (λ p, QueryEscape p.1 +:+ "=" +:+ QueryEscape p.2) l).

(** Of [internal/auth/totp.go]. *)
Definition TOTPProvisioningURI (secret account issuer : string) : string :=
  "otpauth://totp/" +:+ PathEscape (issuer +:+ ":" +:+ account) +:+ "?" +:+
  encode_values [("algorithm", "SHA1"); ("digits", itoa 6); ("issuer", issuer); ("period", itoa 30); ("secret", secret)].

Example TOTPProvisioningURI_1 :
  TOTPProvisioningURI "JBSWY3DPEHPK3PXP" "ann/b?" "Light IPAM" =
  "otpauth://totp/Light%20IPAM:ann%2Fb%3F?algorithm=SHA1&digits=6&issuer=Light+IPAM&period=30&secret=JBSWY3DPEHPK3PXP".
Proof. vm_compute. reflexivity. Qed.

(** [url.PathUnescape] and [url.QueryUnescape], and a query as [url.ParseQuery] reads it. *)
Definition PathUnescape : string → option string := unescape encodePath.
Definition QueryUnescape (s : string) : option string :=
  unescape encodePath (str_of_list (map (λ c, if decide (c = "+"%char) then " "%char else c) (str_to_list s))).
Definition query_pair (s : string) : option (string * string) :=
  match cut_byte "="%char s with
  | Some (k, v) => k ← QueryUnescape k; v ← QueryUnescape v; Some (k, v)
  | None => k ← QueryUnescape s; Some (k, "")
  end.
Definition parse_query (s : string) : option (list (string * string)) :=
  mapM query_pair (filter (λ p, p ≠ "") (split_on "&"%char s)).

Lemma unescape_percent c s : unescape encodePath (percent c +:+ s) = String c <$> unescape encodePath s.
Proof. destruct c as [[] [] [] [] [] [] [] []]; reflexivity. Qed.

Lemma unescape_byte c s : c ≠ "%"%char → unescape encodePath (String c s) = String c <$> unescape encodePath s.
Proof. intros Hc. destruct c as [[] [] [] [] [] [] [] []]; try reflexivity; by destruct Hc. Qed.

Lemma PathUnescape_PathEscape s : PathUnescape (PathEscape s) = Some s.
Proof.
  unfold PathUnescape. induction s as [|c s IH]; [done|]. cbn [PathEscape]. destruct (segment_escapes c) eqn:Hc.
  - by rewrite unescape_percent, IH.
  - rewrite str_app_cons, str_app_nil_l, unescape_byte, IH by (by intros ->). done.
Qed.

Definition spaced (s : string) : string :=
  str_of_list (map (λ c, if decide (c = "+"%char) then " "%char else c) (str_to_list s)).
Lemma spaced_app s t : spaced (s +:+ t) = spaced s +:+ spaced t.
Proof. unfold spaced. by rewrite str_to_list_app, map_app, str_of_list_app. Qed.
Lemma spaced_percent c : spaced (percent c) = percent c.
Proof. destruct c as [[] [] [] [] [] [] [] []]; reflexivity. Qed.

Lemma QueryUnescape_QueryEscape s : QueryUnescape (QueryEscape s) = Some s.
Proof.
  unfold QueryUnescape. fold (spaced (QueryEscape s)). induction s as [|c s IH]; [done|]. cbn [QueryEscape]. rewrite spaced_app.
  destruct (unreserved c) eqn:Hc; [|destruct (decide (c = " "%char)) as [->|Hs]].
  - change (spaced (String c "")) with (String (if decide (c = "+"%char) then " "%char else c) "").
    rewrite decide_False by (by intros ->). rewrite str_app_cons, str_app_nil_l, unescape_byte, IH by (by intros ->). done.
  - change (spaced "+") with " ". rewrite str_app_cons, str_app_nil_l, unescape_byte, IH by done. done.
  - by rewrite spaced_percent, unescape_percent, IH.
Qed.

(** No escaped text holds a byte that separates. *)
Lemma QueryEscape_count c s : unreserved c = false → c ≠ "%"%char → c ≠ "+"%char → count_byte c (QueryEscape s) = 0%nat.
Proof.
  intros Hc Hp Hq. apply (forall_bytes_count (λ d, unreserved d || bool_decide (d ∈ ["%"; "+"]%char))).
  - rewrite Hc, bool_decide_false; [done|]. rewrite !elem_of_cons, elem_of_nil. naive_solver.
  - induction s as [|d s IH]; [done|]. cbn [QueryEscape]. rewrite forall_bytes_app, IH, andb_true_r.
    destruct (unreserved d) eqn:Hd; [by rewrite forall_bytes_cons, Hd|]. case_decide; [done|].
    clear. by destruct d as [[] [] [] [] [] [] [] []].
Qed.

Lemma PathEscape_count s : count_byte "?"%char (PathEscape s) = 0%nat.
Proof.
  apply (forall_bytes_count (λ d, negb (bool_decide (d = "?"%char)))); [done|].
  induction s as [|d s IH]; [done|]. cbn [PathEscape]. rewrite forall_bytes_app, IH, andb_true_r.
  by destruct d as [[] [] [] [] [] [] [] []].
Qed.

Lemma query_pair_reads k v : query_pair (QueryEscape k +:+ "=" +:+ QueryEscape v) = Some (k, v).
Proof.
  unfold query_pair. change ("=" +:+ QueryEscape v) with (String "=" (QueryEscape v)).
  rewrite cut_byte_app by (by apply QueryEscape_count). by rewrite !QueryUnescape_QueryEscape.
Qed.

Lemma parse_query_encode l : l ≠ [] → parse_query (encode_values l) = Some l.
Proof.
  intros Hl. unfold parse_query, encode_values. change "&" with (String "&" ""). rewrite split_join.
  - clear Hl. induction l as [|[k v] l IH]; [done|]. cbn [map fst snd]. rewrite filter_cons_True; [|by destruct (QueryEscape k)].
    cbn [mapM]. by rewrite query_pair_reads, IH.
  - by destruct l.
  - rewrite Forall_map. apply Forall_true. intros [k v]. cbn [fst snd]. change ("=" +:+ QueryEscape v) with (String "=" (QueryEscape v)).
    rewrite count_byte_app, QueryEscape_count by done. cbn [count_byte]. by rewrite QueryEscape_count.
Qed.

(** Whatever the name of the account, an application that reads the address finds the
    account, the secret and the parameters that the codes are checked with. *)
Theorem provisioning_uri_reads_back secret account issuer :
  ∃ label query,
    strip_prefix "otpauth://totp/" (TOTPProvisioningURI secret account issuer) ≫= cut_byte "?"%char = Some (label, query) ∧
    PathUnescape label = Some (issuer +:+ ":" +:+ account) ∧
    parse_query query = Some [("algorithm", "SHA1"); ("digits", "6"); ("issuer", issuer); ("period", "30"); ("secret", secret)].
Proof.
  unfold TOTPProvisioningURI. eexists _, _. split_and!.
  - rewrite strip_prefix_app. cbn [mbind option_bind].
    match goal with |- context [?l +:+ "?" +:+ ?q] => change ("?" +:+ q) with (String "?" q) end.
    rewrite cut_byte_app by apply PathEscape_count. reflexivity.
  - apply PathUnescape_PathEscape.
  - by apply parse_query_encode.
Qed.
