(* ===== verification/Review.v ===== *)
(** * The review of discovered hosts

    [internal/app/discoveries.go] and the listings of [internal/store/discoveries.go]
    behind it: importing one host or all of them, and the subnets that are missing
    first. *)

From S2P Require Import Prelude GoStrings Netip Ipam GoTime Json Process Scans Queue Inventory Import Records Bulk Portability Listings Lockout Accounts Web Users Pages Endpoints.
Local Open Scope Z_scope.

(** ** The network to suggest for a host *)

Record DiscoveryImportTarget : Type := MkImportTarget
  { it_ID : string; it_IP : string; it_VLAN : Z; it_HasSubnet : bool; it_ScannedTargets : list string }.

(** The network a scan target names, if it is one that contains the host. *)
Definition target_network (addr : Addr) (t : string) : option Prefix :=
  prefix ← parse_prefix (trim_space t);
  if negb (is4 (pfx_addr prefix)) || (32 <=? pfx_bits prefix) then None
  else if negb (prefix_contains (prefix_masked prefix) addr) then None
  else Some (prefix_masked prefix).

Definition containingTargetCIDR (addr : Addr) (targets : list string) : option string :=
  prefix4_string <$> foldl (λ best t,
    match target_network addr t with
    | None => best
    | Some prefix =>
        match best with
        | None => Some prefix
        | Some b => if pfx_bits b <? pfx_bits prefix then Some prefix else best
        end
    end) None targets.

Definition suggestSubnetCIDR (ip : string) (scannedTargets : list string) : option string :=
  addr ← parse_addr ip;
  if negb (is4 addr) then None
  else match containingTargetCIDR addr scannedTargets with
       | Some cidr => Some cidr
       | None => Some (prefix4_string (prefix_masked (PrefixFrom addr 24)))
       end.

(** ** The networks that are missing *)

Record missingSubnet : Type := MkMissing { ms_CIDR : string; ms_RepIP : string; ms_VLAN : Z; ms_Count : Z }.

Definition join_missing (t : DiscoveryImportTarget) (g : missingSubnet) : missingSubnet :=
  MkMissing (ms_CIDR g) (ms_RepIP g) (if (ms_VLAN g =? 0) && negb (it_VLAN t =? 0) then it_VLAN t else ms_VLAN g) (ms_Count g + 1).

Definition add_missing (groups : gmap string missingSubnet) (t : DiscoveryImportTarget) : gmap string missingSubnet :=
  if it_HasSubnet t then groups
  else match suggestSubnetCIDR (it_IP t) (it_ScannedTargets t) with
       | None => groups
       | Some cidr =>
           <[cidr := join_missing t (default (MkMissing cidr (it_IP t) (it_VLAN t) 0) (groups !! cidr))]> groups
       end.

(** The network's address, as [sort.Slice] compares it. *)
Definition network_of (g : missingSubnet) : Z :=
  match parse_prefix (ms_CIDR g) with Some p => addr_val (pfx_addr p) | None => -1 end.
Definition network_le (a b : missingSubnet) : Prop := network_of a ≤ network_of b.
#[export] Instance network_le_dec : RelDecision network_le.
Proof. intros a b. unfold network_le. apply _. Defined.
#[export] Instance network_le_total : Total network_le.
Proof. intros a b. unfold network_le. lia. Qed.
#[export] Instance network_le_trans : Transitive network_le.
Proof. intros a b c. unfold network_le. lia. Qed.

Section missing.
(** The order in which the map is walked; the sort that follows is by the network's
    address alone and keeps no order between equals. *)
Context (shuffle : list missingSubnet → list missingSubnet).

Definition missingSubnetGroups (targets : list DiscoveryImportTarget) : list missingSubnet :=
  merge_sort network_le (shuffle (map snd (map_to_list (foldl add_missing ∅ targets)))).

(** ** The dialog *)

Definition intString : Z → string := itoa.

Definition subnetPromptForm (cidr : string) (vlan : Z) : list (string * string) :=
  [("cidr", cidr); ("site_id", "default"); ("name", ""); ("description", "")] ++
  (if 0 <? vlan then [("vlan", intString vlan)] else []).

Definition apostrophe : string := String (byte_of 226) (String (byte_of 128) (String (byte_of 153) "")).
Definition em_dash : string := String (byte_of 226) (String (byte_of 128) (String (byte_of 148) "")).

Record DiscoverySubnetPrompt : Type := MkPrompt
  { pt_Flow : string; pt_DiscoveryID : string; pt_TargetIP : string; pt_Heading : string; pt_Context : string;
    pt_Error : string; pt_Remaining : Z; pt_Form : list (string * string) }.

Definition form_value (form : list (string * string)) (name : string) : string :=
  default "" (snd <$> (list_find (λ p, p.1 = name) form ≫= λ p, Some p.2)).

Definition subnetPrompt (flow discoveryID targetIP : string) (remaining : Z) (form : list (string * string)) :
    DiscoverySubnetPrompt :=
  if decide (flow = "import-one") then
    MkPrompt flow discoveryID targetIP "Add the subnet for this host"
      (targetIP +:+ " isn" +:+ apostrophe +:+ "t inside any managed subnet yet. The network and mask are filled in from the scan "
       +:+ em_dash +:+ " name it and save, and the host imports automatically.") "" remaining form
  else
    MkPrompt flow discoveryID targetIP "Add a missing subnet"
      (targetIP +:+ " belongs to " +:+ form_value form "cidr" +:+ ", which isn" +:+ apostrophe +:+ "t managed yet. " +:+
       (if 1 <? remaining then itoa remaining +:+ " subnets still need defining before everything can import."
        else "This is the last subnet to define " +:+ em_dash +:+ " saving it imports every discovered host.")) "" remaining form.

(** What the page shows of it. *)
Definition prompt_fields (p : DiscoverySubnetPrompt) : list (string * string) :=
  [("flow", pt_Flow p); ("discovery_id", pt_DiscoveryID p); ("target_ip", pt_TargetIP p); ("heading", pt_Heading p);
   ("context", pt_Context p); ("error", pt_Error p); ("remaining", itoa (pt_Remaining p))] ++ pt_Form p.

(** ** The store *)

Context {env : Env} {app : App}.
(** [ORDER BY ip], [ORDER BY last_seen_at DESC], and [json.Marshal] of services. *)
Context (by_ip by_last_seen : list (string * DiscoveryRow) → list (string * DiscoveryRow))
        (MarshalServices : list DiscoveryService → string).

Definition import_target (w : World Inventory) (p : string * DiscoveryRow) : option DiscoveryImportTarget :=
  if bool_decide (dr_Status p.2 = "pending") && negb (bool_decide (dr_Reconcile p.2 = ReconcileConflict)) then
    Some (MkImportTarget (dr_ID p.2) p.1 (dr_VLAN p.2)
      (existsb (λ s, cidr_contains (sn_cidr s.2) p.1) (map_to_list (iv_subnets (w_inv w))))
      (default [] ((λ j, sj_Targets (job_of_row (default "" (dr_Job p.2)) j w)) <$> (dr_Job p.2 ≫= λ i, w_jobs w !! i))))
  else None.
Definition ListPendingImportTargets : GoE Inventory (list DiscoveryImportTarget) :=
  stmt (λ _ w, Ok (omap (import_target w) (by_ip (map_to_list (iv_discoveries (w_inv w)))), w)).

Definition ListDiscoveries (status reconcile : string) (limit : Z) : GoE Inventory (list Discovery) :=
  let limit := if (limit <=? 0) || (500 <? limit) then 200 else limit in
  stmt (λ _ w,
    Ok (take (Z.to_nat limit) (omap (λ p : string * DiscoveryRow,
      if (bool_decide (status = "") || bool_decide (dr_Status p.2 = status)) &&
         (bool_decide (reconcile = "") || bool_decide (dr_Reconcile p.2 = reconcile))
      then Some (discovery_of_row p.1 p.2 w) else None) (by_last_seen (map_to_list (iv_discoveries (w_inv w))))), w)).

Definition import_discovery := inv_ImportDiscovery macaddr_in MarshalServices.

(** ** The queue *)

(** Only the failure of the list itself is shown; counts and sites are left out. *)
Definition renderDiscoveries (r : Request) (prompt : option DiscoverySubnetPrompt) (errMsg successMsg : string) :
    Go Database Response :=
  let param name := default "" (rq_Query r !! name) in
  listed (ListDiscoveries (param "status") (param "reconcile") 200) "Unable to load discoveries" (
    _ ←! zoom CountPendingDiscoveries;
    _ ←! zoom CountUnreviewedConflicts;
    _ ←! zoom ListPendingImportTargets;
    match prompt with
    | None => respond (Page "discoveries.html" "Discoveries" errMsg successMsg)
    | Some p =>
        _ ←! zoom list_sites;
        respond (Dialog "discoveries.html" "Discoveries" errMsg successMsg (prompt_fields p))
    end).

Definition discoveryScanTargets (jobID : string) : Go Database (list string) :=
  if decide (jobID = "") then Ret []
  else job ←! GetScanJob jobID; Ret (match job with Ok job => sj_Targets job | Err _ => [] end).

Definition resolveOnePrompt (id : string) : Go Database (option DiscoverySubnetPrompt) :=
  discovery ←! zoom (GetDiscovery id);
  match discovery with
  | Err _ => Ret None
  | Ok d =>
      targets ←! discoveryScanTargets (d_JobID d);
      Ret (cidr ← suggestSubnetCIDR (d_IP d) targets;
           Some (subnetPrompt "import-one" (d_ID d) (d_IP d) 0 (subnetPromptForm cidr (d_VLAN d))))
  end.

(** A failure is logged and shows no dialog, as when nothing is missing. *)
Definition resolveAllPrompt : Go Database (option DiscoverySubnetPrompt) :=
  targets ←! zoom ListPendingImportTargets;
  Ret (match targets with
       | Err _ => None
       | Ok targets =>
           let missing := missingSubnetGroups targets in
           g ← head missing;
           Some (subnetPrompt "import-all" "" (ms_RepIP g) (Z.of_nat (length missing)) (subnetPromptForm (ms_CIDR g) (ms_VLAN g)))
       end).

Definition imported_message (n : string) : string :=
  match atoi n with
  | Some count =>
      if count <=? 0 then "" else if count =? 1 then "Imported 1 discovered host into IPAM."
      else "Imported " +:+ itoa count +:+ " discovered hosts into IPAM."
  | None => ""
  end.

Definition discoveriesIndex : Handler := λ r,
  requireSession r (λ _,
    let param name := default "" (rq_Query r !! name) in
    let render prompt := renderDiscoveries r prompt (param "error") (imported_message (param "imported")) in
    if decide (param "resolve_one" = "") then
      if decide (param "resolve" = "1") then prompt ←! resolveAllPrompt; render prompt else render None
    else
      prompt ←! resolveOnePrompt (param "resolve_one");
      match prompt with
      | None => respond (Redirect "/discoveries")
      | Some _ => render prompt
      end).

(** ** Importing *)

Definition autoLinkBySerial (deviceID : string) : Go Database unit :=
  if decide (deviceID = "") then Ret ()
  else
    linked ←! zoom (inv_AutoLinkDeviceBySerial deviceID);
    match linked with
    | Ok (_ :: _) => audit_log None "device.link.auto" "device" deviceID "{}"
    | _ => Ret ()
    end.

Definition after_import (session : Session) (d : Discovery) : Go Database unit :=
  _ ←! audit_log (actor session) "scan.discovery.imported" "ip_address" (d_ImportedAddressID d) "{}";
  autoLinkBySerial (d_ImportedDeviceID d).

Definition discoveryImport : Handler := λ r,
  requireSession r (λ session, withCSRF r session (
    let id := rq_PathValue r in
    discovery ←! zoom (import_discovery id (field r "device_name"));
    match discovery with
    | Err ErrNoContainingSubnet => respond (Redirect ("/discoveries?resolve_one=" +:+ QueryEscape id))
    | Err ErrNotFound => respond NotFoundPage
    | Err _ => server_error "Unable to import discovery"
    | Ok d =>
        _ ←! after_import session d;
        respond (Redirect "/discoveries?imported=1")
    end)).

(** The count of imported hosts, or a failure after some of them. *)
Fixpoint importTargets (session : Session) (targets : list DiscoveryImportTarget) (count : Z) : Go Database (option Z) :=
  match targets with
  | [] => Ret (Some count)
  | t :: targets =>
      if negb (it_HasSubnet t) then importTargets session targets count
      else
        discovery ←! zoom (import_discovery (it_ID t) "");
        match discovery with
        | Err ErrNoContainingSubnet => importTargets session targets count
        | Err _ => Ret None
        | Ok d =>
            _ ←! after_import session d;
            importTargets session targets (count + 1)
        end
  end.

(** What both flows do with the targets once they are listed. *)
Definition import_listed (session : Session) (targets : list DiscoveryImportTarget) : Go Database Response :=
  match missingSubnetGroups targets with
  | _ :: _ => respond (Redirect "/discoveries?resolve=1")
  | [] =>
      count ←! importTargets session targets 0;
      match count with
      | None => server_error "Unable to import discoveries"
      | Some n => respond (Redirect ("/discoveries?imported=" +:+ itoa n))
      end
  end.

Definition no_targets : string := "There are no discoveries ready to import. Conflicts are reviewed one at a time.".

Definition discoveriesImportAll : Handler := λ r,
  requireSession r (λ session, withCSRF r session (
    targets ←! zoom ListPendingImportTargets;
    match targets with
    | Err _ => server_error "Unable to import discoveries"
    | Ok [] => respond (Redirect ("/discoveries?error=" +:+ QueryEscape no_targets))
    | Ok targets => import_listed session targets
    end)).

(** ** Creating a missing subnet *)

(** The form as it was submitted; once the CIDR is read, it is the normal one. *)
Definition submitted_subnet (r : Request) : list (string * string) :=
  match rq_FormError r with
  | Some _ => []
  | None =>
      let cidr :=
        match subnetInputFromRequest r with Ok input => si_CIDR input | Err _ => field r "cidr" end in
      [("site_id", field r "site_id"); ("name", field r "name"); ("cidr", cidr); ("vlan", field r "vlan");
       ("description", field r "description")]
  end.

Definition with_error (message : string) (p : DiscoverySubnetPrompt) : DiscoverySubnetPrompt :=
  MkPrompt (pt_Flow p) (pt_DiscoveryID p) (pt_TargetIP p) (pt_Heading p) (pt_Context p) message (pt_Remaining p) (pt_Form p).

Definition renderSubnetPromptError (r : Request) (flow discoveryID targetIP message : string) : Go Database Response :=
  remaining ←! (if decide (flow = "import-all") then
      targets ←! zoom ListPendingImportTargets;
      let n := match targets with Ok targets => Z.of_nat (length (missingSubnetGroups targets)) | Err _ => 0 end in
      Ret (if n =? 0 then 1 else n)
    else Ret 0);
  renderDiscoveries r (Some (with_error message (subnetPrompt flow discoveryID targetIP remaining (submitted_subnet r)))) "" "".

(** [err == nil && !contains] of [ipam.Contains]. *)
Definition misses (cidr targetIP : string) : bool :=
  bool_decide (targetIP ≠ "") && match Contains cidr targetIP with Ok contains => negb contains | Err _ => false end.

Definition widen_message (targetIP : string) : string :=
  "That subnet doesn" +:+ apostrophe +:+ "t contain " +:+ targetIP +:+ " " +:+ em_dash +:+ " widen the range so it does.".

Definition resume_one (session : Session) (discoveryID : string) : Go Database Response :=
  if decide (discoveryID = "") then respond (Redirect "/discoveries?imported=1")
  else
    discovery ←! zoom (import_discovery discoveryID "");
    match discovery with
    | Err ErrNoContainingSubnet => respond (Redirect ("/discoveries?resolve_one=" +:+ QueryEscape discoveryID))
    | Err _ => server_error "Unable to import discovery"
    | Ok d =>
        _ ←! after_import session d;
        respond (Redirect "/discoveries?imported=1")
    end.

Definition discoverySubnetCreate : Handler := λ r,
  requireSession r (λ session, withCSRF r session (
    let flow := if decide (FormValue r "flow" = "import-one") then "import-one" else "import-all" in
    let discoveryID := field r "discovery_id" in
    let targetIP := field r "target_ip" in
    match subnetInputFromRequest r with
    | Err message => renderSubnetPromptError r flow discoveryID targetIP message
    | Ok input =>
        if misses (si_CIDR input) targetIP then
          renderSubnetPromptError r flow discoveryID targetIP (widen_message targetIP)
        else
          subnet ←! zoom (CreateSubnet cidr_in input);
          match subnet with
          | Err e => renderSubnetPromptError r flow discoveryID targetIP (subnetError e)
          | Ok subnet =>
              _ ←! saveCustomFieldValues r CustomFieldSubnet (sv_ID subnet);
              _ ←! audit_log (actor session) "subnet.created" "subnet" (sv_ID subnet) "{}";
              if decide (flow = "import-one") then resume_one session discoveryID
              else
                targets ←! zoom ListPendingImportTargets;
                match targets with
                | Err _ => server_error "Unable to import discoveries"
                | Ok targets => import_listed session targets
                end
          end
    end)).

(** ** Dismissing *)

Definition discoveryDismiss : Handler := λ r,
  requireSession r (λ session, withCSRF r session (
    let id := rq_PathValue r in
    done ←! zoom (DismissDiscovery id);
    match done with
    | Err ErrNotFound => respond NotFoundPage
    | Err _ => server_error "Unable to dismiss discovery"
    | Ok _ =>
        _ ←! audit_log (actor session) "scan.discovery.dismissed" "scan_discovery" id "{}";
        respond (Redirect "/discoveries")
    end)).
End missing.
