(* ===== verification/ReviewSpec.v ===== *)
(** * What the review of discovered hosts promises

    The network suggested for a host, the partition of the homeless hosts into the
    networks that are missing, and why the dialog that asks for them one at a time comes
    to an end. *)

From S2P Require Import Prelude GoStrings Netip Ipam GoTime Json Process Scans Queue Inventory Import Records Portability Listings Review.
Local Open Scope Z_scope.

(** ** Suggestions *)

(** [t] names the scanned network [q], which contains the host. *)
Definition scanned (addr : Addr) (t : string) (q : Prefix) : Prop :=
  parse_prefix (trim_space t) = Some q ∧ is4 (pfx_addr q) = true ∧ pfx_bits q < 32 ∧ prefix_contains q addr = true.

Lemma target_network_Some addr t p : target_network addr t = Some p ↔ ∃ q, scanned addr t q ∧ p = prefix_masked q.
Proof.
  unfold target_network, scanned. destruct (parse_prefix (trim_space t)) as [q|] eqn:Hq; cbn -[prefix_masked prefix_contains];
    [|split; [done|by intros (?&(?&?)&?)]].
  destruct (is4 (pfx_addr q)) eqn:H4; cbn -[prefix_masked prefix_contains]; [|split; [done|intros (?&([= <-]&?&?)&?); congruence]].
  rewrite prefix_contains_masked by eauto using parse_prefix4_wf.
  destruct (32 <=? pfx_bits q) eqn:Hb, (prefix_contains q addr) eqn:Hc; cbn -[prefix_masked prefix_contains];
    (split; [naive_solver lia|intros (?&([= <-]&?&?&?)&->); (done || congruence || lia)]).
Qed.

(** The walk over the targets keeps a best network that nothing seen is longer than. *)
Definition best_of (addr : Addr) (ts : list string) (b : option Prefix) : Prop :=
  match b with
  | None => ∀ t, t ∈ ts → target_network addr t = None
  | Some p => (∃ t, t ∈ ts ∧ target_network addr t = Some p) ∧
              ∀ t q, t ∈ ts → target_network addr t = Some q → pfx_bits q ≤ pfx_bits p
  end.

Lemma best_of_foldl addr ts : ∃ b, best_of addr ts b ∧ containingTargetCIDR addr ts = prefix4_string <$> b.
Proof.
  unfold containingTargetCIDR. eexists. split; [|reflexivity].
  induction ts as [|t ts IH] using rev_ind; [by intros t ?%elem_of_nil|].
  rewrite foldl_app. cbn -[target_network]. revert IH.
  match goal with |- context [best_of addr ts ?f] => generalize f end. intros b IH.
  destruct (target_network addr t) as [p|] eqn:Hp; destruct b as [b|]; cbn in *.
  - destruct IH as [(u & Hu & Hub) Hmax]. destruct (pfx_bits b <? pfx_bits p) eqn:Hlt; cbn; (split; [|]).
    + exists t. split; [set_solver|done].
    + intros v q [Hv| ->%list_elem_of_singleton]%elem_of_app Hq; [pose proof (Hmax v q Hv Hq); lia|].
      rewrite Hp in Hq. injection Hq as <-. lia.
    + exists u. split; [set_solver|done].
    + intros v q [Hv| ->%list_elem_of_singleton]%elem_of_app Hq; [by eapply Hmax|].
      rewrite Hp in Hq. injection Hq as <-. lia.
  - split; [exists t; split; [set_solver|done]|].
    intros v q [Hv| ->%list_elem_of_singleton]%elem_of_app Hq; [by rewrite (IH v Hv) in Hq|].
    rewrite Hp in Hq. injection Hq as <-. lia.
  - destruct IH as [(u & Hu & Hub) Hmax]. split; [exists u; split; [set_solver|done]|].
    intros v q [Hv| ->%list_elem_of_singleton]%elem_of_app Hq; [by eapply Hmax|congruence].
  - intros v [Hv| ->%list_elem_of_singleton]%elem_of_app; [by apply IH|done].
Qed.

(** The network a suggestion prints, with the host inside. *)
Definition suggested (ts : list string) (v : Z) (p : Prefix) : Prop :=
  prefix_masked p = p ∧ pfx_bits p < 32 ∧ prefix_contains p (Addr4 v) = true ∧
  (∀ t q, t ∈ ts → scanned (Addr4 v) t q → pfx_bits q ≤ pfx_bits p) ∧
  ((∃ t q, t ∈ ts ∧ scanned (Addr4 v) t q ∧ p = prefix_masked q) ∨
   (∀ t q, t ∈ ts → ¬ scanned (Addr4 v) t q) ∧ pfx_bits p = 24).

Lemma prefix_masked_twice p : prefix_wf p → is4 (pfx_addr p) = true → prefix_masked (prefix_masked p) = prefix_masked p.
Proof.
  intros Hwf H4. rewrite (prefix_masked4 (prefix_masked p)) by (by apply prefix_masked_wf || by rewrite prefix_masked_is4).
  rewrite prefix_first_masked by done. by rewrite prefix_masked_bits, prefix_masked4.
Qed.

Lemma suggestSubnetCIDR_network ip v ts :
  parse_addr ip = Some (Addr4 v) →
  ∃ p, suggestSubnetCIDR ip ts = Some (prefix4_string p) ∧ prefix_wf p ∧ is4 (pfx_addr p) = true ∧ suggested ts v p.
Proof.
  intros Hip. pose proof (parse_addr4_inv _ _ Hip) as [Hv _]. unfold suggestSubnetCIDR. rewrite Hip.
  cbn -[prefix_masked containingTargetCIDR]. destruct (best_of_foldl (Addr4 v) ts) as (b & Hb & ->).
  destruct b as [p|]; cbn -[prefix_masked]; eexists; (split; [reflexivity|]).
  - destruct Hb as [(t & Ht & (q & Hq & ->)%target_network_Some) Hmax].
    pose proof Hq as (Hpq & H4 & Hbits & Hc). pose proof (parse_prefix4_wf _ _ Hpq H4) as Hwf.
    split; [by apply prefix_masked_wf|]. split; [by rewrite prefix_masked_is4|].
    split; [by apply prefix_masked_twice|]. split; [done|]. split_and!.
    + by rewrite prefix_contains_masked.
    + intros u r Hu Hr. rewrite <- (prefix_masked_bits r). apply (Hmax u); [done|]. apply target_network_Some. eauto.
    + left. eauto.
  - assert (prefix_wf (PrefixFrom (Addr4 v) 24)) as Hwf by (unfold prefix_wf, addr_wf, bit_len; cbn; lia).
    assert (∀ t q, t ∈ ts → ¬ scanned (Addr4 v) t q) as Hnone.
    { intros t q Ht Hq. assert (target_network (Addr4 v) t = Some (prefix_masked q)) as Hs by (apply target_network_Some; eauto).
      by rewrite (Hb t Ht) in Hs. }
    split; [by apply prefix_masked_wf|]. split; [done|].
    split; [by apply prefix_masked_twice|]. split; [done|]. split_and!.
    + rewrite prefix_contains_masked by done. by apply (prefix_contains_self (PrefixFrom (Addr4 v) 24)).
    + intros t q Ht Hq. by destruct (Hnone t q).
    + right. done.
Qed.

(** For every IPv4 host a subnet is suggested, in canonical form, that [Contains]
    accepts for the host and that is never a single address; no scanned network around
    the host is more specific, and a [/24] is suggested when there is none. *)
Theorem suggestSubnetCIDR_spec (ip : string) (v : Z) (ts : list string) :
  parse_addr ip = Some (Addr4 v) →
  ∃ cidr p, suggestSubnetCIDR ip ts = Some cidr ∧ NormalizeCIDR cidr = Ok cidr ∧ Contains cidr ip = Ok true ∧
    parse_prefix cidr = Some p ∧ pfx_bits p < 32 ∧
    (∀ t q, t ∈ ts → scanned (Addr4 v) t q → pfx_bits q ≤ pfx_bits p) ∧
    ((∀ t q, t ∈ ts → ¬ scanned (Addr4 v) t q) → pfx_bits p = 24).
Proof.
  intros Hip. destruct (suggestSubnetCIDR_network ip v ts Hip) as (p & Hs & Hwf & H4 & Hm & Hb & Hc & Hmax & Hor).
  pose proof (parse_prefix4_string p Hwf H4) as Hp.
  exists (prefix4_string p), p. split_and!; try done.
  - unfold NormalizeCIDR. rewrite Hp. cbn -[prefix_masked]. rewrite H4. cbn -[prefix_masked]. by rewrite Hm.
  - unfold Contains. rewrite Hp, Hip. cbn -[prefix_contains]. by rewrite Hc.
  - intros Hnone. destruct Hor as [(t & q & Ht & Hq & _)|[_ H24]]; [by destruct (Hnone t q)|done].
Qed.

Lemma suggestSubnetCIDR_spec_witness :
  parse_addr "192.168.0.9" = Some (Addr4 3232235529) ∧
  suggestSubnetCIDR "192.168.0.9" ["192.168.0.0/16"; " 192.168.0.0/28 "; "192.168.0.9"] = Some "192.168.0.0/28" ∧
  ∃ cidr p, suggestSubnetCIDR "192.168.0.9" ["192.168.0.0/16"; " 192.168.0.0/28 "; "192.168.0.9"] = Some cidr ∧
    NormalizeCIDR cidr = Ok cidr ∧ Contains cidr "192.168.0.9" = Ok true ∧
    parse_prefix cidr = Some p ∧ pfx_bits p < 32 ∧
    (∀ t q, t ∈ ["192.168.0.0/16"; " 192.168.0.0/28 "; "192.168.0.9"] → scanned (Addr4 3232235529) t q → pfx_bits q ≤ pfx_bits p) ∧
    ((∀ t q, t ∈ ["192.168.0.0/16"; " 192.168.0.0/28 "; "192.168.0.9"] → ¬ scanned (Addr4 3232235529) t q) → pfx_bits p = 24).
Proof.
  split; [vm_compute; reflexivity|]. split; [vm_compute; reflexivity|].
  apply suggestSubnetCIDR_spec. vm_compute. reflexivity.
Defined.

(** ** The networks that are missing *)

(** The target has no home and would be given [cidr]. *)
Definition wants (cidr : string) (t : DiscoveryImportTarget) : Prop :=
  it_HasSubnet t = false ∧ suggestSubnetCIDR (it_IP t) (it_ScannedTargets t) = Some cidr.
#[export] Instance wants_dec cidr t : Decision (wants cidr t).
Proof. unfold wants. apply _. Defined.

(** The group of the targets that want the same network, in their order. *)
Definition missing_of (cidr : string) (ts : list DiscoveryImportTarget) : option missingSubnet :=
  foldl (λ o t, Some (join_missing t (default (MkMissing cidr (it_IP t) (it_VLAN t) 0) o))) None (filter (wants cidr) ts).

Lemma missing_of_snoc cidr ts t :
  missing_of cidr (ts ++ [t]) =
    (if decide (wants cidr t) then Some (join_missing t (default (MkMissing cidr (it_IP t) (it_VLAN t) 0) (missing_of cidr ts)))
     else missing_of cidr ts).
Proof.
  unfold missing_of. rewrite filter_app, foldl_app, filter_cons, filter_nil. by destruct (decide (wants cidr t)).
Qed.

Lemma add_missing_lookup cidr ts : foldl add_missing ∅ ts !! cidr = missing_of cidr ts.
Proof.
  induction ts as [|t ts IH] using rev_ind; [done|]. rewrite foldl_app, missing_of_snoc. cbn [foldl]. unfold add_missing at 1.
  destruct (it_HasSubnet t) eqn:Ht; [rewrite decide_False; [done|intros [? _]; congruence]|].
  destruct (suggestSubnetCIDR (it_IP t) (it_ScannedTargets t)) as [c|] eqn:Hc;
    [|rewrite decide_False; [done|intros [_ ?]; congruence]].
  destruct (decide (c = cidr)) as [->|Hne].
  - rewrite lookup_insert_eq, IH, decide_True; [done|by split].
  - rewrite lookup_insert_ne, decide_False by (done || (intros [_ ?]; congruence)). done.
Qed.

(** The first VLAN the scans learned in a group. *)
Definition first_vlan (ts : list DiscoveryImportTarget) : Z := default 0 (head (filter (λ v, v ≠ 0) (map it_VLAN ts))).

Lemma missing_of_Some cidr ts g :
  missing_of cidr ts = Some g ↔
  ∃ t l, filter (wants cidr) ts = t :: l ∧
    g = MkMissing cidr (it_IP t) (first_vlan (t :: l)) (Z.of_nat (length (t :: l))).
Proof.
  unfold missing_of. generalize (filter (wants cidr) ts). clear ts. intros ts.
  assert (foldl (λ o t, Some (join_missing t (default (MkMissing cidr (it_IP t) (it_VLAN t) 0) o))) None ts =
    match ts with
    | [] => None
    | t :: l => Some (MkMissing cidr (it_IP t) (first_vlan ts) (Z.of_nat (length ts)))
    end) as ->.
  { induction ts as [|t ts IH] using rev_ind; [done|]. rewrite foldl_app. cbn [foldl]. rewrite IH. clear IH.
    destruct ts as [|u ts]; unfold first_vlan; cbn -[filter]; unfold join_missing; cbn -[filter].
    - rewrite !filter_cons, filter_nil. destruct (it_VLAN t =? 0) eqn:Hz; cbn.
      + rewrite Z.eqb_eq in Hz. rewrite decide_False by (intros ?; congruence). by rewrite Hz.
      + rewrite Z.eqb_neq in Hz. by rewrite decide_True.
    - rewrite length_app, map_app. change (it_VLAN u :: map it_VLAN ts ++ map it_VLAN [t]) with ((it_VLAN u :: map it_VLAN ts) ++ [it_VLAN t]).
      rewrite filter_app. assert (Forall (λ v, v ≠ 0) (filter (λ v, v ≠ 0) (it_VLAN u :: map it_VLAN ts))) as Hnz
        by (apply Forall_forall; intros v ?%list_elem_of_filter; naive_solver).
      destruct (filter (λ v, v ≠ 0) (it_VLAN u :: map it_VLAN ts)) as [|v vs]; cbn -[filter].
      + rewrite filter_cons, filter_nil. destruct (it_VLAN t =? 0) eqn:Hz; cbn; rewrite ?Z.eqb_eq, ?Z.eqb_neq in Hz.
        * rewrite decide_False by (intros ?; congruence). f_equal. f_equal. cbn. lia.
        * rewrite decide_True by done. f_equal. f_equal. cbn. lia.
      + inversion Hnz as [|? ? Hv _]; subst. rewrite (proj2 (Z.eqb_neq v 0) Hv). cbn. f_equal. f_equal. lia. }
  destruct ts as [|t ts]; [split; [done|by intros (?&?&?&?)]|]. split.
  - intros [= <-]. eauto.
  - by intros (?&?&[= <- <-]&->).
Qed.

Lemma missing_of_CIDR cidr ts g : missing_of cidr ts = Some g → ms_CIDR g = cidr.
Proof. by intros (t & l & _ & ->)%missing_of_Some. Qed.

Section groups.
Context (shuffle : list missingSubnet → list missingSubnet) (Hshuffle : ∀ l, shuffle l ≡ₚ l).

Lemma missingSubnetGroups_perm ts :
  missingSubnetGroups shuffle ts ≡ₚ (map_to_list (foldl add_missing ∅ ts)).*2.
Proof using Hshuffle. unfold missingSubnetGroups. by rewrite merge_sort_Permutation, Hshuffle. Qed.

Lemma elem_of_missing ts g : g ∈ missingSubnetGroups shuffle ts ↔ missing_of (ms_CIDR g) ts = Some g.
Proof using Hshuffle.
  rewrite missingSubnetGroups_perm, list_elem_of_fmap. split.
  - intros ([c h] & -> & Hin). apply elem_of_map_to_list in Hin. rewrite add_missing_lookup in Hin. cbn.
    by rewrite (missing_of_CIDR _ _ _ Hin).
  - intros Hg. exists (ms_CIDR g, g). split; [done|]. apply elem_of_map_to_list. by rewrite add_missing_lookup.
Qed.

(** The groups' networks are the keys of the map, each of them once. *)
Lemma missing_CIDRs ts : map ms_CIDR (missingSubnetGroups shuffle ts) ≡ₚ (map_to_list (foldl add_missing ∅ ts)).*1.
Proof using Hshuffle.
  rewrite (fmap_Permutation ms_CIDR _ _ (missingSubnetGroups_perm ts)). rewrite <- list_fmap_compose.
  apply reflexive_eq, list_fmap_ext. intros i [c g] Hi. apply list_elem_of_lookup_2, elem_of_map_to_list in Hi.
  rewrite add_missing_lookup in Hi. by apply missing_of_CIDR in Hi.
Qed.

Lemma missing_CIDRs_NoDup ts : NoDup (map ms_CIDR (missingSubnetGroups shuffle ts)).
Proof using Hshuffle. rewrite missing_CIDRs. apply NoDup_fst_map_to_list. Qed.

(** The hosts without a home are partitioned by the network suggested for them:
    the groups come in ascending order of their networks, no network twice, each with
    the number of its hosts, the first of them as its representative and the first VLAN
    known; and no host that could be given a network is left out. *)
Theorem missingSubnetGroups_partition (ts : list DiscoveryImportTarget) :
  let groups := missingSubnetGroups shuffle ts in
  Sorted network_le groups ∧ NoDup (map ms_CIDR groups) ∧
  (∀ g, g ∈ groups → ∃ t l, filter (wants (ms_CIDR g)) ts = t :: l ∧
     ms_RepIP g = it_IP t ∧ ms_VLAN g = first_vlan (t :: l) ∧ ms_Count g = Z.of_nat (length (t :: l))) ∧
  (∀ t cidr, t ∈ ts → wants cidr t → cidr ∈ map ms_CIDR groups).
Proof using Hshuffle.
  cbv zeta. split; [apply (Sorted_merge_sort network_le)|]. split; [apply missing_CIDRs_NoDup|]. split.
  - intros g (t & l & Hl & Hg)%elem_of_missing%missing_of_Some. exists t, l. rewrite Hg. cbn. auto.
  - intros t cidr Ht Hw. assert (t ∈ filter (wants cidr) ts) as Hin by (by apply list_elem_of_filter).
    destruct (filter (wants cidr) ts) as [|u l] eqn:Hl; [by apply elem_of_nil in Hin|].
    assert (missing_of cidr ts = Some (MkMissing cidr (it_IP u) (first_vlan (u :: l)) (Z.of_nat (length (u :: l))))) as Hg
      by (apply missing_of_Some; eauto).
    apply list_elem_of_fmap. exists (MkMissing cidr (it_IP u) (first_vlan (u :: l)) (Z.of_nat (length (u :: l)))).
    split; [done|]. by apply elem_of_missing.
Qed.
End groups.

(** ** The dialog comes to an end *)

(** The target after a subnet was added. *)
Definition given_home (cidr : string) (t : DiscoveryImportTarget) : DiscoveryImportTarget :=
  MkImportTarget (it_ID t) (it_IP t) (it_VLAN t) (it_HasSubnet t || cidr_contains cidr (it_IP t)) (it_ScannedTargets t).

(** Hosts that no subnet contains, of those for which a network can be suggested. *)
Definition homeless (t : DiscoveryImportTarget) : Prop :=
  it_HasSubnet t = false ∧ is_Some (suggestSubnetCIDR (it_IP t) (it_ScannedTargets t)).
#[export] Instance homeless_dec t : Decision (homeless t).
Proof. unfold homeless. apply _. Defined.

Lemma existsb_Permutation {A} (f : A → bool) (l k : list A) : l ≡ₚ k → existsb f l = existsb f k.
Proof.
  intros Hlk. apply eq_true_iff_eq. rewrite !existsb_exists.
  split; intros (x & Hin & Hx); exists x; (split; [|done]); rewrite <- list_elem_of_In in *; [by rewrite <- Hlk|by rewrite Hlk].
Qed.

Lemma import_target_insert w id s p :
  iv_subnets (w_inv w) !! id = None →
  import_target (with_inv (with_subnets (<[id := s]> (iv_subnets (w_inv w))) (w_inv w)) w) p =
    given_home (sn_cidr s) <$> import_target w p.
Proof.
  intros Hid. unfold import_target. cbn. destruct (_ && _); [|done]. cbn. unfold given_home. cbn. do 2 f_equal.
  rewrite (existsb_Permutation _ _ _ (map_to_list_insert _ _ s Hid)). cbn. by rewrite orb_comm.
Qed.

Section run_out.
Context (shuffle : list missingSubnet → list missingSubnet) (Hshuffle : ∀ l, shuffle l ≡ₚ l).
Context (by_ip : list (string * DiscoveryRow) → list (string * DiscoveryRow)).

(** What [ListPendingImportTargets] reads. *)
Definition pending_targets (w : World Inventory) : list DiscoveryImportTarget :=
  omap (import_target w) (by_ip (map_to_list (iv_discoveries (w_inv w)))).

Lemma pending_targets_insert w id s :
  iv_subnets (w_inv w) !! id = None →
  pending_targets (with_inv (with_subnets (<[id := s]> (iv_subnets (w_inv w))) (w_inv w)) w) =
    map (given_home (sn_cidr s)) (pending_targets w).
Proof.
  intros Hid. unfold pending_targets. change (iv_discoveries _) with (iv_discoveries (w_inv w)) at 1.
  induction (by_ip _) as [|p l IH]; [done|]. cbn [omap list_omap]. rewrite import_target_insert by done.
  destruct (import_target w p); cbn; by rewrite IH.
Qed.

Lemma homeless_given_home cidr t : homeless (given_home cidr t) → homeless t.
Proof. unfold homeless. cbn. by intros [[? ?]%orb_false_iff ?]. Qed.

Lemma given_home_count cidr ts :
  (length (filter homeless (map (given_home cidr) ts)) ≤ length (filter homeless ts))%nat.
Proof.
  induction ts as [|t ts IH]; [done|]. cbn [map]. rewrite !filter_cons.
  destruct (decide (homeless (given_home cidr t))) as [Hh|]; [rewrite decide_True by (by eapply homeless_given_home); cbn; lia|].
  destruct (decide (homeless t)); cbn; lia.
Qed.

Lemma given_home_drops cidr ts t :
  t ∈ ts → homeless t → cidr_contains cidr (it_IP t) = true →
  (length (filter homeless (map (given_home cidr) ts)) < length (filter homeless ts))%nat.
Proof.
  intros Ht Hh Hc. induction ts as [|u ts IH]; [by apply elem_of_nil in Ht|]. cbn [map]. rewrite !filter_cons.
  apply elem_of_cons in Ht as [<-|Ht].
  - rewrite (decide_True (P := homeless t)) by done. rewrite decide_False.
    + pose proof (given_home_count cidr ts). cbn. lia.
    + intros [Hn _]. cbn in Hn. by rewrite Hc, orb_true_r in Hn.
  - specialize (IH Ht). destruct (decide (homeless (given_home cidr u))) as [Hu|].
    + rewrite decide_True by (by eapply homeless_given_home). cbn. lia.
    + destruct (decide (homeless u)); cbn; lia.
Qed.

Lemma suggested_contains t cidr : wants cidr t → cidr_contains cidr (it_IP t) = true.
Proof.
  intros [_ Hs]. unfold suggestSubnetCIDR in Hs. destruct (parse_addr (it_IP t)) as [[v|]|] eqn:Hip; try done.
  destruct (suggestSubnetCIDR_network _ _ (it_ScannedTargets t) Hip) as (p & Hs' & Hwf & H4 & _ & _ & Hc & _).
  unfold suggestSubnetCIDR in Hs'. rewrite Hip in Hs'. rewrite Hs in Hs'. injection Hs' as ->.
  unfold cidr_contains. by rewrite parse_prefix4_string, Hip.
Qed.

(** The networks still missing are some of the others. *)
Lemma missing_shrinks ts cidr :
  cidr ∈ map ms_CIDR (missingSubnetGroups shuffle ts) →
  (length (missingSubnetGroups shuffle (map (given_home cidr) ts)) < length (missingSubnetGroups shuffle ts))%nat.
Proof using Hshuffle.
  intros Hin. rewrite <- !(length_map ms_CIDR).
  assert (cidr :: map ms_CIDR (missingSubnetGroups shuffle (map (given_home cidr) ts)) ⊆+ map ms_CIDR (missingSubnetGroups shuffle ts)) as Hle;
    [|by apply submseteq_length in Hle].
  apply NoDup_submseteq.
  - apply NoDup_cons. split; [|by apply missing_CIDRs_NoDup].
    intros (g & -> & Hg)%list_elem_of_fmap. apply (elem_of_missing _ Hshuffle), missing_of_Some in Hg as (t & l & Hl & _).
    assert (t ∈ filter (wants (ms_CIDR g)) (map (given_home (ms_CIDR g)) ts)) as [Hw Ht]%list_elem_of_filter by (rewrite Hl; apply elem_of_cons; by left).
    apply list_elem_of_fmap in Ht as (u & -> & _). pose proof (suggested_contains _ _ Hw) as Hc. destruct Hw as [Hn _].
    cbn in Hn, Hc. by rewrite Hc, orb_true_r in Hn.
  - intros c [->|(g & -> & Hg)%list_elem_of_fmap]%elem_of_cons; [done|].
    apply (elem_of_missing _ Hshuffle), missing_of_Some in Hg as (t & l & Hl & _).
    assert (t ∈ filter (wants (ms_CIDR g)) (map (given_home cidr) ts)) as [Hw Ht]%list_elem_of_filter by (rewrite Hl; apply elem_of_cons; by left).
    apply list_elem_of_fmap in Ht as (u & -> & Hu). destruct Hw as [[Hn _]%orb_false_iff Hs].
    destruct (missingSubnetGroups_partition shuffle Hshuffle ts) as (_ & _ & _ & Hall). by apply (Hall u).
Qed.

(** C27: Asking for the missing subnets one at a time comes to an end. In whatever way
    the operator edits the suggested network, as long as it still covers the host the
    dialog names, fewer hosts are left without a home; and when the suggestion is taken
    as it is, fewer networks are left to define. *)
Theorem missing_subnets_run_out (cidr_in : string → option string) (w w' : World Inventory) (g : missingSubnet)
    (id : string) (input : SubnetInput) (c : string) :
  g ∈ missingSubnetGroups shuffle (pending_targets w) →
  insert_subnet cidr_in id input w = Ok ((), w') → cidr_in (si_CIDR input) = Some c →
  (cidr_contains c (ms_RepIP g) = true →
     (length (filter homeless (pending_targets w')) < length (filter homeless (pending_targets w)))%nat) ∧
  (c = ms_CIDR g →
     (length (missingSubnetGroups shuffle (pending_targets w')) < length (missingSubnetGroups shuffle (pending_targets w)))%nat).
Proof using Hshuffle.
  intros Hg Hins Hc. unfold insert_subnet in Hins. rewrite Hc in Hins. cbn -[vlan_check site_in cidr_taken] in Hins.
  destruct (vlan_check (si_VLAN input)); [cbn -[site_in cidr_taken] in Hins|done].
  destruct (iv_subnets (w_inv w) !! id) eqn:Hid; [rewrite bool_decide_true in Hins by done; done|].
  rewrite bool_decide_false in Hins by (by intros [? ?]). cbn -[site_in cidr_taken] in Hins.
  destruct (cidr_taken id c (w_inv w)); [done|]. destruct (site_in input w); [|done]. cbn in Hins. injection Hins as <-.
  rewrite pending_targets_insert by done. split.
  - intros Hrep. pose proof Hg as (t & l & Hl & Heq)%(elem_of_missing _ Hshuffle)%missing_of_Some.
    assert (t ∈ filter (wants (ms_CIDR g)) (pending_targets w)) as [Hw Ht]%list_elem_of_filter by (rewrite Hl; apply elem_of_cons; by left).
    apply (given_home_drops _ _ t); [done| |by rewrite Heq in Hrep].
    destruct Hw as [Hn Hs]. split; [done|]. by rewrite Hs.
  - intros ->. apply missing_shrinks, list_elem_of_fmap. eauto.
Qed.
End run_out.

(** ** Three homeless hosts *)

Definition seen_at (id ip : string) : DiscoveryRow :=
  MkDiscoveryRow id None None None "" "" "" "" "" "" 0 [] "pending" "new" "" None None 0 0.
Definition three_seen : World Inventory :=
  MkWorld ∅ ∅ ∅ ∅ ∅ []
    (MkInventory ∅ ∅ ∅ ∅ ∅ {["10.0.0.5" := seen_at "a" "10.0.0.5"; "10.0.0.9" := seen_at "b" "10.0.0.9"; "10.0.1.1" := seen_at "c" "10.0.1.1"]}
       ∅ ∅ ∅ ∅ ∅) [] 0.

Definition as_is {A : Type} (l : list A) : list A := l.
Definition first_missing : missingSubnet := MkMissing "10.0.0.0/24" "10.0.0.5" 0 2.

Lemma missing_subnets_run_out_witness :
  ∃ w', insert_subnet Some "n" (MkSubnetInput "" "10.0.0.0/24" "LAN" None "") three_seen = Ok ((), w') ∧
    (length (filter homeless (pending_targets as_is w')) < length (filter homeless (pending_targets as_is three_seen)))%nat ∧
    (length (missingSubnetGroups as_is (pending_targets as_is w')) < length (missingSubnetGroups as_is (pending_targets as_is three_seen)))%nat.
Proof.
  destruct (insert_subnet Some "n" (MkSubnetInput "" "10.0.0.0/24" "LAN" None "") three_seen) as [[[] w']|e] eqn:Hw.
  - exists w'. split; [reflexivity|].
    assert (∀ l : list missingSubnet, as_is l ≡ₚ l) as Hs by (intros l; reflexivity).
    assert (first_missing ∈ missingSubnetGroups as_is (pending_targets as_is three_seen)) as Hg
      by (apply (elem_of_missing as_is Hs); vm_compute; reflexivity).
    destruct (missing_subnets_run_out as_is Hs as_is Some three_seen w' first_missing "n"
      (MkSubnetInput "" "10.0.0.0/24" "LAN" None "") "10.0.0.0/24" Hg Hw eq_refl) as [H1 H2].
    split; [apply H1|apply H2]; vm_compute; reflexivity.
  - exfalso. revert Hw. vm_compute. discriminate.
Defined.

Lemma missingSubnetGroups_partition_witness :
  let groups := missingSubnetGroups as_is (pending_targets as_is three_seen) in
  map ms_CIDR groups = ["10.0.0.0/24"; "10.0.1.0/24"] ∧
  Sorted network_le groups ∧ NoDup (map ms_CIDR groups) ∧
  (∀ g, g ∈ groups → ∃ t l, filter (wants (ms_CIDR g)) (pending_targets as_is three_seen) = t :: l ∧
     ms_RepIP g = it_IP t ∧ ms_VLAN g = first_vlan (t :: l) ∧ ms_Count g = Z.of_nat (length (t :: l))) ∧
  (∀ t cidr, t ∈ pending_targets as_is three_seen → wants cidr t → cidr ∈ map ms_CIDR groups).
Proof.
  cbv zeta. split; [vm_compute; reflexivity|].
  apply (missingSubnetGroups_partition as_is (λ l, reflexivity l) (pending_targets as_is three_seen)).
Defined.

(** Two networks that start at the same address are not ordered: which of them the
    dialog shows first depends on the order in which the map is walked. *)
Lemma equal_networks_unordered :
  ∃ ts s1 s2, (∀ l, s1 l ≡ₚ l) ∧ (∀ l, s2 l ≡ₚ l) ∧
    head (missingSubnetGroups s1 ts) ≠ head (missingSubnetGroups s2 ts).
Proof.
  exists [MkImportTarget "a" "10.0.0.5" 0 false ["10.0.0.0/28"]; MkImportTarget "b" "10.0.0.200" 0 false []], (λ l, l), (@rev _).
  split; [done|]. split; [intros l; symmetry; apply Permutation_rev|].
  vm_compute. discriminate.
Qed.
