(* ===== verification/Scanforms.v ===== *)
(** * The forms of scans, agents and schedules

    The pure half of [internal/app/scans.go]: what the forms accept and how a stored
    schedule or agent fills them in again. *)

From S2P Require Import Prelude GoStrings GoTime Netip Protocol Process Scans Windows Events Endpoints Web.
Local Open Scope Z_scope.

(** ** Choices *)

Definition scanTypeOptions : list string :=
  ["host_discovery"; "service_detection"; "os_probe"; "combined"; "arp_table"; "snmp_inventory"; "name_lookup"; "dns_lookup";
   "dhcp_leases"; "lldp_cdp"].

Definition scanTypeGroups : list (string * list string) :=
  [("Recommended", ["combined"]);
   ("Active nmap scans (choose a depth)", ["host_discovery"; "service_detection"; "os_probe"]);
   ("Single-source (advanced)", ["arp_table"; "snmp_inventory"; "name_lookup"; "dns_lookup"; "dhcp_leases"; "lldp_cdp"])].

Definition scanModeOptions : list string := ["light_active"; "standard_active"; "deep_active"].
(** What a choice is shown as, [internal/ui/ui.go]. *)
Definition optionLabel (value : string) : string :=
  if decide (value = "light_active") then "Light — top 1000 ports"
  else if decide (value = "standard_active") then "Standard — top 1000 + full version probes + OS"
  else if decide (value = "deep_active") then "Deep — all ports, fast service detection + OS"
  else if decide (value = "host_discovery") then "Host discovery"
  else if decide (value = "service_detection") then "Service detection"
  else if decide (value = "os_probe") then "OS probe"
  else if decide (value = "combined") then "Combined — every source, merged (recommended)"
  else if decide (value = "arp_table") then "ARP table (SNMP)"
  else if decide (value = "snmp_inventory") then "SNMP inventory"
  else if decide (value = "name_lookup") then "Names (NetBIOS + mDNS)"
  else if decide (value = "dns_lookup") then "DNS names (reverse + forward)"
  else if decide (value = "dhcp_leases") then "DHCP leases (file)"
  else if decide (value = "lldp_cdp") then "LLDP/CDP neighbors (SNMP)"
  else value.

(** Every type and mode on offer is in one group and has a label, and no two have the
    same one. *)
Lemma options_labelled :
  concat (snd <$> scanTypeGroups) ≡ₚ scanTypeOptions ∧ NoDup (map optionLabel (scanTypeOptions ++ scanModeOptions)) ∧
  Forall (λ o, optionLabel o ≠ o) (scanTypeOptions ++ scanModeOptions).
Proof. split_and!; apply (bool_decide_unpack _); by vm_compute. Qed.

Definition agentStatusOptions : list string := ["pending"; "active"; "disabled"; "revoked"].

Definition defaultTimeoutForType (scanType : string) : Z :=
  if decide (scanType = "host_discovery") then 120
  else if decide (scanType = "service_detection") then 600
  else if decide (scanType = "os_probe") then 900
  else if decide (scanType = "combined") then 1200
  else if decide (scanType = "arp_table") then 180
  else if decide (scanType = "snmp_inventory") then 300
  else if decide (scanType = "name_lookup") then 120
  else if decide (scanType = "dns_lookup") then 120
  else if decide (scanType = "dhcp_leases") then 120
  else if decide (scanType = "lldp_cdp") then 300
  else 300.

(** [contains(values, target)]. *)
Definition listed_in (values : list string) (target : string) : bool := existsb (λ v, bool_decide (v = target)) values.

Definition modeForType (scanType mode : string) : result string string :=
  if bool_decide (scanType ∈ ["arp_table"; "snmp_inventory"; "name_lookup"; "dns_lookup"; "dhcp_leases"; "lldp_cdp"]) then
    Ok "standard_active"
  else if bool_decide (scanType = "combined") then Ok "deep_active"
  else if negb (listed_in scanModeOptions mode) then Err "Select a valid scan mode." else Ok mode.

(** ** Lists in a text area *)

Definition list_separator (c : ascii) : bool := bool_decide (byte_val c ∈ [10; 13; 44; 32; 9]).

(** [strings.FieldsFunc]: the non-empty runs between separators; [word] is the run read
    so far. *)
Fixpoint fields_func (f : ascii → bool) (word s : string) : list string :=
  let flush := if decide (word = "") then [] else [word] in
  match s with
  | "" => flush
  | String c s => if f c then flush ++ fields_func f "" s else fields_func f (word +:+ String c "") s
  end.

Definition parseList (value : string) : list string :=
  filter (λ w, w ≠ "") (map trim_space (fields_func list_separator "" value)).

(** A form as the page shows it, and one of its values. *)
Abbreviation Form := (gmap string string).
Definition at_ (form : Form) (name : string) : string := default "" (form !! name).

(** ** Scope *)

Section scope.
Context (printable : Z → bool).
Notation "'%q' s" := (Quote printable s) (at level 9, s at level 8).

Definition prefixWithinAny (target : Prefix) (allowed : list Prefix) : bool :=
  existsb (λ a, prefix_contains a (pfx_addr target) && (pfx_bits a <=? pfx_bits target)) allowed.

Definition validateScanTarget (target : string) (allowed : list Prefix) : option string :=
  match parse_prefix target with
  | Some p =>
      if negb (is4 (pfx_addr p)) then Some ("Target " +:+ %q target +:+ " must be IPv4.")
      else if negb (prefixWithinAny (prefix_masked p) allowed) then
        Some ("Target " +:+ %q target +:+ " is outside the allowed CIDRs.")
      else None
  | None =>
      match parse_addr target with
      | None => Some ("Target " +:+ %q target +:+ " is not a valid IPv4 address or CIDR" +:+ dash +:+
                      "use something like 192.168.5.10 or 192.168.5.0/24.")
      | Some addr =>
          if negb (is4 addr) then Some ("Target " +:+ %q target +:+ " must be IPv4.")
          else if existsb (λ a, prefix_contains a addr) allowed then None
          else Some ("Target " +:+ %q target +:+ " is outside the allowed CIDRs.")
      end
  end.

Definition allowed_prefix (c : string) : result string Prefix :=
  match parse_prefix c with
  | None => Err ("Allowed CIDR " +:+ %q c +:+ " is not valid" +:+ dash +:+ "use a network and prefix length like 192.168.5.0/24.")
  | Some p => if negb (is4 (pfx_addr p)) then Err ("Allowed CIDR " +:+ %q c +:+ " must be IPv4.") else Ok (prefix_masked p)
  end.

Definition validateScanScope (allowed targets : list string) : option string :=
  match mapM_result allowed_prefix allowed with
  | Err e => Some e
  | Ok prefixes => first_err (λ t, validateScanTarget t prefixes) targets
  end.

(** ** The scan form *)

Definition scan_form (r : Request) : Form :=
  list_to_map [("agent_id", field r "agent_id"); ("scan_type", field r "scan_type"); ("mode", field r "mode");
    ("allowed_cidrs", FormValue r "allowed_cidrs"); ("targets", FormValue r "targets"); ("timeout", field r "timeout")].

(** What scans and schedules share: mode, allowed networks and targets. *)
Definition checked_scope (form : Form) : result string (string * list string * list string) :=
  if negb (listed_in scanTypeOptions (at_ form "scan_type")) then Err "Select a valid scan type."
  else
    mode ← modeForType (at_ form "scan_type") (at_ form "mode");
    let allowed := parseList (at_ form "allowed_cidrs") in
    if decide (allowed = []) then Err "Enter at least one allowed IPv4 CIDR."
    else
      let targets := parseList (at_ form "targets") in
      if decide (targets = []) then Err "Enter at least one target."
      else match validateScanScope allowed targets with
           | Some message => Err message
           | None => Ok (mode, allowed, targets)
           end.

Definition checked_timeout (form : Form) : result string Z :=
  if decide (at_ form "timeout" = "") then Ok (defaultTimeoutForType (at_ form "scan_type"))
  else match atoi (at_ form "timeout") with
       | Some parsed => if parsed <=? 0 then Err "Timeout must be a positive number of seconds." else Ok parsed
       | None => Err "Timeout must be a positive number of seconds."
       end.

Definition scanInputFromForm (form : Form) : result string ScanJobInput :=
  if decide (at_ form "agent_id" = "") then Err "Select an agent."
  else
    '(mode, allowed, targets) ← checked_scope form;
    timeout ← checked_timeout form;
    Ok (MkScanJobInput (at_ form "agent_id") None None (at_ form "scan_type") mode allowed targets timeout).

(** ** The agent form *)

Definition agent_form (r : Request) : Form :=
  list_to_map ([("name", field r "name"); ("endpoint_url", field r "endpoint_url");
    ("certificate_subject", field r "certificate_subject"); ("allowed_cidrs", FormValue r "allowed_cidrs");
    ("status", field r "status")] ++
    (if bool_decide (FormValue r "auto_import" = "on") || bool_decide (FormValue r "auto_import" = "true")
     then [("auto_import", "on")] else [])).

(** The form to show again, and the input or the complaint. *)
Definition agentInputFromRequest (r : Request) : option Form * result string ScanAgentInput :=
  match rq_FormError r with
  | Some message => (None, Err message)
  | None =>
      let form := agent_form r in
      if decide (at_ form "name" = "") then (Some form, Err "Agent name is required.")
      else match ValidateAgentEndpoint printable (at_ form "endpoint_url") with
           | Err message => (Some form, Err message)
           | Ok endpoint =>
               let form := <["endpoint_url" := endpoint]> form in
               let status := if decide (at_ form "status" = "") then "pending" else at_ form "status" in
               if negb (listed_in agentStatusOptions status) then (Some form, Err "Select a valid status.")
               else
                 let allowed := parseList (at_ form "allowed_cidrs") in
                 if decide (allowed = []) then (Some form, Err "Enter at least one allowed IPv4 CIDR.")
                 else (Some form, Ok (MkScanAgentInput (at_ form "name") "" (at_ form "endpoint_url")
                                        (at_ form "certificate_subject") allowed status
                                        (bool_decide (at_ form "auto_import" = "on"))))
           end
  end.

Definition newline : string := String (byte_of 10) "".

Definition agentFormFromAgent (agent : ScanAgent) : Form :=
  list_to_map ([("name", sa_Name agent); ("endpoint_url", sa_EndpointURL agent);
    ("certificate_subject", sa_CertificateSubject agent); ("allowed_cidrs", join newline (sa_AllowedCIDRs agent));
    ("status", sa_Status agent)] ++ (if sa_AutoImport agent then [("auto_import", "on")] else [])).

(** ** The window of a schedule *)

Definition parseClockMinutes (s : string) : option Z :=
  '(h, m) ← cut_byte ":"%char s;
  h ← atoi (trim_space h);
  if (h <? 0) || (23 <? h) then None
  else
    m ← atoi (trim_space m);
    if (m <? 0) || (59 <? m) then None else Some (h * 60 + m).

Definition clockFromMinutes (m : Z) : string := pad_itoa 2 (Z.quot m 60) +:+ ":" +:+ pad_itoa 2 (Z.rem m 60).

(** The days of the form, each once. *)
Fixpoint window_days_of (seen : list Z) (raws : list string) : option (list Z) :=
  match raws with
  | [] => Some []
  | raw :: raws =>
      if decide (trim_space raw = "") then window_days_of seen raws
      else
        d ← atoi (trim_space raw);
        if (d <? 0) || (6 <? d) then None
        else if decide (d ∈ seen) then window_days_of seen raws
        else cons d <$> window_days_of (d :: seen) raws
  end.

(** [time.LoadLocation]. *)
Context (LoadLocation : string → option Location).

Definition clock_range (startRaw endRaw : string) : result string (option (Z * Z)) :=
  if decide (startRaw = "" ∧ endRaw = "") then Ok None
  else if decide (startRaw = "" ∨ endRaw = "") then Err "Set both a window start and end time, or leave both blank."
  else match parseClockMinutes startRaw with
       | None => Err "Window start must be a time of day like 01:00."
       | Some sm =>
           match parseClockMinutes endRaw with
           | None => Err "Window end must be a time of day like 05:00."
           | Some em => if sm =? em then Err "Window start and end must be different times." else Ok (Some (sm, em))
           end
       end.

Definition parseScheduleWindow (r : Request) : result string (option Z * option Z * list Z * string) :=
  match clock_range (field r "window_start") (field r "window_end"), window_days_of [] (default [] (rq_Form r !! "window_day")) with
  | Err message, _ => Err message
  | Ok _, None => Err "Select valid window days."
  | Ok range, Some days =>
      let tz := if decide (field r "window_tz" = "") then "UTC" else field r "window_tz" in
      if bool_decide (tz ≠ "UTC") && bool_decide (LoadLocation tz = None) then
        Err "Unknown window timezone; use an IANA name like America/New_York."
      else Ok (fst <$> range, snd <$> range, merge_sort Z.le days, tz)
  end.

(** ** The schedule form *)

Definition schedule_fields : list string :=
  ["name"; "agent_id"; "scan_type"; "mode"; "timeout"; "interval"; "enabled"; "window_start"; "window_end"; "window_tz"].

(** The day boxes as they were ticked. *)
Definition day_boxes (r : Request) : list (string * string) :=
  omap (λ d, if decide (trim_space d = "") then None else Some ("window_day_" +:+ trim_space d, "on"))
    (default [] (rq_Form r !! "window_day")).

Definition schedule_form (r : Request) : Form :=
  list_to_map (day_boxes r ++ map (λ n, (n, field r n)) schedule_fields ++
    [("allowed_cidrs", FormValue r "allowed_cidrs"); ("targets", FormValue r "targets")]).

Definition checked_interval (form : Form) : result string Z :=
  match atoi (at_ form "interval") with
  | Some interval => if interval <? 60 then Err "Interval must be at least 60 seconds." else Ok interval
  | None => Err "Interval must be at least 60 seconds."
  end.

Definition schedule_checks (r : Request) (form : Form) : result string ScanScheduleInput :=
  if decide (at_ form "name" = "") then Err "Schedule name is required."
  else if decide (at_ form "agent_id" = "") then Err "Select an agent."
  else
    '(mode, allowed, targets) ← checked_scope form;
    interval ← checked_interval form;
    timeout ← checked_timeout form;
    '(startMin, endMin, days, tz) ← parseScheduleWindow r;
    Ok (MkScanScheduleInput (at_ form "name") (at_ form "agent_id") (at_ form "scan_type") mode allowed targets timeout interval
          (bool_decide (at_ form "enabled" = "on") || bool_decide (at_ form "enabled" = "true")) startMin endMin days tz).

Definition scheduleInputFromRequest (r : Request) : option Form * result string ScanScheduleInput :=
  match rq_FormError r with
  | Some message => (None, Err message)
  | None => (Some (schedule_form r), schedule_checks r (schedule_form r))
  end.

Definition scheduleFormFromSchedule (s : ScanSchedule) : Form :=
  list_to_map ([("name", ss_Name s); ("agent_id", ss_AgentID s); ("scan_type", ss_ScanType s); ("mode", ss_Mode s);
    ("allowed_cidrs", join newline (ss_AllowedCIDRs s)); ("targets", join newline (ss_Targets s));
    ("timeout", itoa (ss_TimeoutSeconds s)); ("interval", itoa (ss_IntervalSeconds s));
    ("enabled", if ss_Enabled s then "on" else "");
    ("window_tz", if decide (ss_WindowTZ s = "") then "UTC" else ss_WindowTZ s)] ++
    (match ss_WindowStartMin s with Some m => [("window_start", clockFromMinutes m)] | None => [] end) ++
    (match ss_WindowEndMin s with Some m => [("window_end", clockFromMinutes m)] | None => [] end) ++
    omap (λ d, if (0 <=? d) && (d <=? 6) then Some ("window_day_" +:+ itoa d, "on") else None) (ss_WindowDays s)).
End scope.

Example parseList_1 : parseList (" 10.0.0.0/24,10.0.1.0/24" +:+ newline +:+ newline +:+ "10.0.2.1 ") = ["10.0.0.0/24"; "10.0.1.0/24"; "10.0.2.1"].
Proof. vm_compute. reflexivity. Qed.
Example parseClockMinutes_1 : map parseClockMinutes ["01:30"; "24:00"; "7"; " 7 : 5"; "+1:00"] = [Some 90; None; None; Some 425; Some 60].
Proof. vm_compute. reflexivity. Qed.
