(* ===== verification/Scanpages.v ===== *)
(** * The pages of scans, agents and schedules

    The handlers of [internal/app/scans.go] over the orchestrator and the scan store. *)

From S2P Require Import Prelude GoStrings GoTime Protocol Process Scans Windows Queue Inventory Orchestrator Lockout Accounts Web Users Pages Endpoints Scanforms.
Local Open Scope Z_scope.

(** ** A stored result *)

(** [json.Unmarshal] into a [ScanResult]. *)
Definition parseScanResult (Unmarshal : string → option ScanResult) (raw : string) : list Observation * list ScanError :=
  if decide (trim_space raw = "") then ([], [])
  else match Unmarshal raw with Some result => (res_Observations result, res_Errors result) | None => ([], []) end.

(** Failures, and the portions that were skipped. *)
Definition partitionScanErrors (errs : list ScanError) : list ScanError * list ScanError :=
  (filter (λ e, se_Code e ≠ CodeScanIgnored) errs, filter (λ e, se_Code e = CodeScanIgnored) errs).

(** ** Discoveries of what was deleted *)

(** [job_id] and [agent_id] of [scan_discoveries] are set to null. *)
Definition forget {A} `{Countable A} (gone : gset A) (key : option A) : option A :=
  match key with Some k => if decide (k ∈ gone) then None else Some k | None => None end.
Definition unlink_row (jobs agents : gset string) (r : DiscoveryRow) : DiscoveryRow :=
  MkDiscoveryRow (dr_ID r) (forget jobs (dr_Job r)) (forget agents (dr_Agent r)) (dr_MAC r) (dr_Vendor r) (dr_Hostname r)
    (dr_OSFamily r) (dr_OSDetail r) (dr_HWSerial r) (dr_HWObjectID r) (dr_VLAN r) (dr_Services r) (dr_Status r) (dr_Reconcile r)
    (dr_Conflict r) (dr_Address r) (dr_Device r) (dr_First r) (dr_Last r).
Definition unlink_scans (jobs agents : gset string) (d : Database) : Database :=
  MkDatabase (with_discoveries (unlink_row jobs agents <$> iv_discoveries (db_inv d)) (db_inv d)) (db_acc d).

Section pages.
Context {env : Env} {app : App}.
Context (printable : Z → bool) (LoadLocation : string → option Location).
Context (Error : job_error → string) (StoreError : db_error → string) (Unmarshal : string → option ScanResult).
(** The orchestrator, if the server has one, with its dispatcher; and the optional
    [diagnoser], whose answer nothing here looks into. *)
Context (scans : option (option Dispatcher)).
Context {Diag : Type} (Diagnostics : option (nat → string → result string Diag)).

Definition scans_text := error_text Error StoreError.
Definition dispatch_ready : bool := match scans with Some d => DispatchEnabled d | None => false end.

(** [a.scans.…]: without the orchestrator the handler panics. *)
Definition with_scans (next : option Dispatcher → Go Database Response) : Go Database Response :=
  match scans with Some d => next d | None => respond Aborted end.

(** A read of the scan store whose failure is a server error. *)
Definition scan_listed {A} (p : GoE Database A) (message : string) (next : A → Go Database Response) : Go Database Response :=
  found ←! p;
  match found with Ok a => next a | Err _ => server_error message end.
Definition scan_loaded {A} (p : GoE Database A) (message : string) (next : A → Go Database Response) : Go Database Response :=
  found ←! p;
  match found with
  | Ok a => next a
  | Err ErrNotFound => respond NotFoundPage
  | Err _ => server_error message
  end.

Definition ListScanAgents : GoE Database (list ScanAgent) :=
  stmt (λ _ w, Ok (by_name _ sa_Name (map snd (map_to_list (w_agents w))), w)).
Definition ListScanSchedules : GoE Database (list ScanSchedule) :=
  stmt (λ _ w, Ok (by_name _ ss_Name (map (λ p, schedule_of_row p.2 w) (map_to_list (w_schedules w))), w)).

Definition form_page (template title message : string) (form : Form) : Go Database Response :=
  respond (Dialog template title message "" (map_to_list form)).

(** ** Scans *)

Definition scansIndex : Handler := λ r,
  requireSession r (λ _, scan_listed (ListScanJobs 50) "Unable to load scans" (λ _, respond (Page "scans.html" "Scans" "" ""))).

Definition renderScanForm (form : option Form) (message : string) : Go Database Response :=
  scan_listed ListScanAgents "Unable to load form" (λ _,
    form_page "scan_new.html" "Run Scan" message
      (default (list_to_map [("scan_type", "combined"); ("mode", "standard_active")]) form)).

Definition scanNew : Handler := λ r, requireSession r (λ _, renderScanForm None "").

Definition requested_by (session : Session) (input : ScanJobInput) : ScanJobInput :=
  MkScanJobInput (ji_AgentID input) (ji_ScheduleID input) (actor session) (ji_ScanType input) (ji_Mode input)
    (ji_AllowedCIDRs input) (ji_Targets input) (ji_TimeoutSeconds input).

Definition trigger_error (e : orch_error) : string :=
  match e with StoreFailed ErrNotFound => "Select a registered agent." | e => scans_text e end.

Definition scanCreate : Handler := λ r,
  requireSession r (λ session, withCSRF r session (withForm r (
    let form := scan_form r in
    match scanInputFromForm printable form with
    | Err message => renderScanForm (Some form) message
    | Ok input =>
        with_scans (λ _,
          job ←! TriggerManual (requested_by session input);
          match job with
          | Err e => renderScanForm (Some form) (trigger_error e)
          | Ok job => respond (Redirect ("/scans/" +:+ sj_ID job))
          end)
    end))).

(** The page shows the observations, failures and notices of the result. *)
Definition scanShow : Handler := λ r,
  requireSession r (λ _, scan_loaded (GetScanJob (rq_PathValue r)) "Unable to load scan" (λ job,
    let '(observations, errors) := parseScanResult Unmarshal (sj_Result job) in
    let '(failures, notices) := partitionScanErrors errors in
    respond (Showing "scan_detail.html" ("Scan " +:+ sj_ID job) ""
      (map obs_IP observations ++ map se_Message failures ++ map se_Message notices)))).

(** ** Agents *)

Definition agentsIndex : Handler := λ r,
  requireSession r (λ _, scan_listed ListScanAgents "Unable to load agents" (λ _,
    respond (Page "agents.html" "Scanner Agents" (default "" (rq_Query r !! "error")) ""))).

Definition redirectAgents (message : string) : Go Database Response :=
  respond (Redirect (if decide (message = "") then "/agents" else "/agents?error=" +:+ QueryEscape message)).

Definition no_dispatch : string :=
  "Scanning isn't set up yet. An administrator needs to install the app's client certificate first.".
Definition unreachable : string :=
  "Couldn't reach an agent at that address. Check the URL and that the agent is running.".

Definition agentDiscover : Handler := λ r,
  requireSession r (λ session, withCSRF r session (
    match ValidateAgentEndpoint printable (FormValue r "endpoint_url") with
    | Err message => redirectAgents message
    | Ok endpoint =>
        match scans with
        | None => redirectAgents no_dispatch
        | Some d =>
            found ←! DiscoverAgent d endpoint;
            match found with
            | Err _ => redirectAgents unreachable
            | Ok (agent, created) =>
                _ ←! (if (created : bool) then audit_log (actor session) "scan.agent.discovered" "scan_agent" (sa_ID agent) "{}" else Ret ());
                respond (Redirect "/agents")
            end
        end
    end)).

Definition loadAgentPage (r : Request) (next : Session → ScanAgent → Go Database Response) : Go Database Response :=
  requireSession r (λ session, scan_loaded (GetScanAgent (rq_PathValue r)) "Unable to load agent" (next session)).

(** What a change of a registration does when its statement is done. *)
Definition registered {A} (session : Session) (p : GoE Database A) (failed action id : string) : Go Database Response :=
  done ←! p;
  match done with
  | Err _ => server_error failed
  | Ok _ =>
      _ ←! audit_log (actor session) action "scan_agent" id "{}";
      respond (Redirect "/agents")
  end.

Definition agentApprove : Handler := λ r,
  loadAgentPage r (λ session agent, withCSRF r session (
    registered session (SetScanAgentStatus (sa_ID agent) "active") "Unable to approve agent" "scan.agent.approved" (sa_ID agent))).

Definition renderAgentForm (title message : string) (form : option Form) : Go Database Response :=
  form_page "agent_form.html" title message (default {["status" := "pending"]} form).

Definition agentNew : Handler := λ r, requireSession r (λ _, renderAgentForm "Register Agent" "" None).

Definition agentCreate : Handler := λ r,
  requireSession r (λ session, withCSRF r session (
    match agentInputFromRequest printable r with
    | (form, Err message) => renderAgentForm "Register Agent" message form
    | (form, Ok input) =>
        agent ←! CreateScanAgent input;
        match agent with
        | Err _ => renderAgentForm "Register Agent" "Unable to register agent." form
        | Ok agent =>
            _ ←! audit_log (actor session) "scan.agent.created" "scan_agent" (sa_ID agent) "{}";
            respond (Redirect "/agents")
        end
    end)).

Definition agentEdit : Handler := λ r,
  loadAgentPage r (λ _ agent, renderAgentForm "Edit Agent" "" (Some (agentFormFromAgent agent))).

Definition agentUpdate : Handler := λ r,
  loadAgentPage r (λ session agent, withCSRF r session (
    match agentInputFromRequest printable r with
    | (form, Err message) => renderAgentForm "Edit Agent" message form
    | (form, Ok input) =>
        updated ←! UpdateScanAgent (sa_ID agent) input;
        match updated with
        | Err _ => renderAgentForm "Edit Agent" "Unable to update agent." form
        | Ok updated =>
            _ ←! audit_log (actor session) "scan.agent.updated" "scan_agent" (sa_ID updated) "{}";
            respond (Redirect "/agents")
        end
    end)).

Definition agentDeleteConfirm : Handler := λ r, loadAgentPage r (λ _ _, confirm "Delete Agent").

Definition agentDelete : Handler := λ r,
  loadAgentPage r (λ session agent, withCSRF r session (
    registered session (DeleteScanAgent unlink_scans (sa_ID agent)) "Unable to delete agent" "scan.agent.deleted" (sa_ID agent))).

Definition middle_dot : string := " " +:+ String (byte_of 194) (String (byte_of 183) " ").
Definition renderAgentDetail (agent : ScanAgent) (diag : option Diag) (message : string) : Go Database Response :=
  respond (Page "agent_detail.html" ("Agent" +:+ middle_dot +:+ sa_Name agent) message "").

Definition agentShow : Handler := λ r,
  loadAgentPage r (λ _ agent, renderAgentDetail agent None (default "" (rq_Query r !! "error"))).

Definition AgentDiagnostics (url : string) : Go Database (result string Diag) :=
  match Diagnostics with
  | Some probe => if dispatch_ready then atomic (λ w, (probe (w_step w) url, bump w)) else Ret (Err "scanner dispatch is not configured")
  | None => Ret (Err "scanner dispatch is not configured")
  end.

Definition no_diagnostics : string :=
  "Scanning isn't set up yet, so diagnostics can't be run. An administrator needs to install the app's client certificate first.".

Definition agentDiagnostics : Handler := λ r,
  loadAgentPage r (λ session agent, withCSRF r session (
    if negb dispatch_ready then renderAgentDetail agent None no_diagnostics
    else
      diag ←! AgentDiagnostics (sa_EndpointURL agent);
      match diag with
      | Err e => renderAgentDetail agent None ("Couldn't fetch diagnostics: " +:+ e)
      | Ok diag => renderAgentDetail agent (Some diag) ""
      end)).

(** ** Schedules *)

Definition schedulesIndex : Handler := λ r,
  requireSession r (λ _, scan_listed ListScanSchedules "Unable to load schedules" (λ _,
    respond (Page "schedules.html" "Scan Schedules" "" ""))).

Definition blank_form : Form :=
  list_to_map [("scan_type", "combined"); ("mode", "standard_active"); ("interval", "3600"); ("enabled", "on"); ("window_tz", "UTC")].
Definition renderScheduleForm (title message : string) (form : option Form) : Go Database Response :=
  scan_listed ListScanAgents "Unable to load form" (λ _,
    form_page "schedule_form.html" title message (default blank_form form)).

Definition scheduleNew : Handler := λ r, requireSession r (λ _, renderScheduleForm "New Schedule" "" None).

Definition job_of_schedule_input (input : ScanScheduleInput) : ScanJobInput :=
  MkScanJobInput (si_AgentID input) None None (si_ScanType input) (si_Mode input) (si_AllowedCIDRs input) (si_Targets input)
    (si_TimeoutSeconds input).

Definition validateScheduleAgentScope (input : ScanScheduleInput) : Go Database (option string) :=
  match scans with
  | None => Ret None
  | Some _ => e ←! ValidateScope (job_of_schedule_input input); Ret (trigger_error <$> e)
  end.

(** A form that is in order is checked against the agent and saved. *)
Definition save_schedule (r : Request) (session : Session) (title : string) (save : ScanScheduleInput → GoE Database ScanSchedule)
    (failed action : string) : Go Database Response :=
  match scheduleInputFromRequest printable LoadLocation r with
  | (form, Err message) => renderScheduleForm title message form
  | (form, Ok input) =>
      refused ←! validateScheduleAgentScope input;
      match refused with
      | Some message => renderScheduleForm title message form
      | None =>
          saved ←! save input;
          match saved with
          | Err _ => renderScheduleForm title failed form
          | Ok saved =>
              _ ←! audit_log (actor session) action "scan_schedule" (ss_ID saved) "{}";
              respond (Redirect "/schedules")
          end
      end
  end.

Definition scheduleCreate : Handler := λ r,
  requireSession r (λ session, withCSRF r session (
    save_schedule r session "New Schedule" CreateScanSchedule "Unable to create schedule." "scan.schedule.created")).

Definition loadSchedulePage (r : Request) (next : Session → ScanSchedule → Go Database Response) : Go Database Response :=
  requireSession r (λ session, scan_loaded (GetScanSchedule (rq_PathValue r)) "Unable to load schedule" (next session)).

Definition scheduleEdit : Handler := λ r,
  loadSchedulePage r (λ _ schedule, renderScheduleForm "Edit Schedule" "" (Some (scheduleFormFromSchedule schedule))).

Definition scheduleUpdate : Handler := λ r,
  loadSchedulePage r (λ session schedule, withCSRF r session (
    save_schedule r session "Edit Schedule" (UpdateScanSchedule (ss_ID schedule)) "Unable to update schedule." "scan.schedule.updated")).

Definition run_now_input (session : Session) (s : ScanSchedule) : ScanJobInput :=
  MkScanJobInput (ss_AgentID s) (Some (ss_ID s)) (actor session) (ss_ScanType s) (ss_Mode s) (ss_AllowedCIDRs s)
    (ss_Targets s) (ss_TimeoutSeconds s).

Definition scheduleRunNow : Handler := λ r,
  loadSchedulePage r (λ session schedule, withCSRF r session (with_scans (λ _,
    job ←! TriggerManual (run_now_input session schedule);
    match job with
    | Err _ => respond (Redirect "/schedules")
    | Ok job => respond (Redirect ("/scans/" +:+ sj_ID job))
    end))).

Definition scheduleDeleteConfirm : Handler := λ r, loadSchedulePage r (λ _ _, confirm "Delete Schedule").

Definition scheduleDelete : Handler := λ r,
  loadSchedulePage r (λ session schedule, withCSRF r session (
    done ←! DeleteScanSchedule (ss_ID schedule);
    match done with
    | Err _ => server_error "Unable to delete schedule"
    | Ok _ =>
        _ ←! audit_log (actor session) "scan.schedule.deleted" "scan_schedule" (ss_ID schedule) "{}";
        respond (Redirect "/schedules")
    end)).
End pages.
