(* ===== verification/ScanformsSpec.v ===== *)
(** * What the forms of scans and schedules promise

    A form is accepted exactly when the orchestrator finds its job in order, but for the
    agent; and a stored schedule, shown in its form and sent back as it is, is stored as
    it was. *)

From S2P Require Import Prelude GoStrings GoTime Netip Protocol Process Scans Windows Orchestrator Events Endpoints Web Scanforms.
Local Open Scope Z_scope.

(** ** The scope *)

Section scope.
Context (printable : Z → bool).

Lemma allowed_prefix_Ok c p : allowed_prefix printable c = Ok p ↔ parseAllowedPrefix c = Ok p.
Proof.
  unfold allowed_prefix, parseAllowedPrefix. destruct (parse_prefix c) as [q|]; [|done]. destruct (is4 (pfx_addr q)); cbn; naive_solver.
Qed.

Lemma validateScanTarget_None t ps : validateScanTarget printable t ps = None ↔ validateTarget ps t = None.
Proof.
  unfold validateScanTarget, validateTarget, prefixWithinAny.
  destruct (parse_prefix t) as [q|].
  - destruct (negb (is4 (pfx_addr q))); [done|].
    change (existsb (λ a, prefix_contains a (pfx_addr (prefix_masked q)) && (pfx_bits a <=? pfx_bits (prefix_masked q))) ps)
      with (existsb (prefixWithin (prefix_masked q)) ps).
    by destruct (existsb (prefixWithin (prefix_masked q)) ps).
  - destruct (parse_addr t) as [a|]; [|done]. destruct (negb (is4 a)); [done|]. by destruct (existsb _ ps).
Qed.

(** C26: The check of the form and the check at dispatch agree: a scope passes the one
    exactly when it is not empty and passes the other, whatever the messages. *)
Theorem validateScanScope_iff (job : Protocol.ScanJob) :
  ValidateJobTargets job = None ↔
  job_AllowedCIDRs job ≠ [] ∧ job_Targets job ≠ [] ∧
  validateScanScope printable (job_AllowedCIDRs job) (job_Targets job) = None.
Proof.
  assert (∀ ps, mapM_result (allowed_prefix printable) (job_AllowedCIDRs job) = Ok ps ↔ parseAllowedPrefixes (job_AllowedCIDRs job) = Ok ps) as Hps.
  { intros ps. unfold parseAllowedPrefixes. rewrite !mapM_result_Ok.
    split; intros HF; (eapply Forall2_impl; [exact HF|]); intros ? ? ?; by apply allowed_prefix_Ok. }
  unfold ValidateJobTargets, validateScanScope.
  destruct (decide (job_AllowedCIDRs job = [])) as [Ha|Ha]; [rewrite bool_decide_true by done; split; [done|by intros [? _]]|].
  destruct (decide (job_Targets job = [])) as [Hb|Hb];
    [rewrite bool_decide_false, bool_decide_true by done; split; [done|by intros (_&?&_)]|].
  rewrite !bool_decide_false by done.
  destruct (mapM_result (allowed_prefix printable) (job_AllowedCIDRs job)) as [ps|e].
  - rewrite (proj1 (Hps ps) eq_refl). rewrite !first_err_None. setoid_rewrite validateScanTarget_None. tauto.
  - destruct (parseAllowedPrefixes (job_AllowedCIDRs job)) as [ps|e'].
    + by pose proof (proj2 (Hps ps) eq_refl).
    + split; [done|by intros (_&_&?)].
Qed.
End scope.

(** ** Trimming twice *)

Lemma trim_left_suffix f s : ∃ p, s = p +:+ trim_left_func f s.
Proof.
  induction s as [|c s (p & Hp)]; [by exists ""|]. cbn [trim_left_func]. destruct (f c); [|by exists ""].
  exists (String c p). by rewrite str_app_cons, <- Hp.
Qed.

Lemma trim_left_idem f s : trim_left_func f (trim_left_func f s) = trim_left_func f s.
Proof.
  induction s as [|c s IH]; [done|]. cbn [trim_left_func]. destruct (f c) eqn:Hc; [done|]. cbn [trim_left_func]. by rewrite Hc.
Qed.

Lemma trim_left_prefix f s t : trim_left_func f (s +:+ t) = s +:+ t → trim_left_func f s = s.
Proof.
  destruct s as [|c s]; [done|]. rewrite str_app_cons. cbn [trim_left_func]. destruct (f c); [|done].
  intros He. apply (f_equal slen) in He. destruct (trim_left_suffix f (s +:+ t)) as (p & Hp). apply (f_equal slen) in Hp.
  rewrite (slen_app p), He in Hp. cbn [String.length] in Hp. lia.
Qed.

Lemma trim_space_idem s : trim_space (trim_space s) = trim_space s.
Proof.
  unfold trim_space, trim_func. set (x := trim_left_func Ascii.is_space s).
  assert (trim_left_func Ascii.is_space x = x) as Hx by apply trim_left_idem.
  assert (trim_left_func Ascii.is_space (trim_right_func Ascii.is_space x) = trim_right_func Ascii.is_space x) as ->.
  { destruct (trim_left_suffix Ascii.is_space (String.rev x)) as (p & Hp).
    apply (trim_left_prefix _ _ (String.rev p)). unfold trim_right_func.
    rewrite <- str_rev_app, <- Hp, str_rev_rev. done. }
  unfold trim_right_func. by rewrite str_rev_rev, trim_left_idem.
Qed.

(** ** What is accepted *)

Lemma listed_in_true l x : listed_in l x = true ↔ x ∈ l.
Proof.
  unfold listed_in. rewrite existsb_exists. split.
  - intros (y & Hy & He%bool_decide_eq_true). subst. by apply list_elem_of_In.
  - intros Hx. exists x. split; [by apply list_elem_of_In|]. by apply bool_decide_eq_true.
Qed.

Lemma scan_types_valid t : listed_in scanTypeOptions t = true ↔ ScanType_Valid t = true.
Proof.
  rewrite listed_in_true. unfold ScanType_Valid. rewrite bool_decide_eq_true.
  unfold scanTypeOptions, ScanHostDiscovery, ScanServiceDetect, ScanOSProbe, ScanCombined, ScanARPTable, ScanSNMPInventory,
    ScanNameLookup, ScanDNSLookup, ScanDHCPLeases, ScanLLDPCDP. rewrite !elem_of_cons. tauto.
Qed.

Lemma modeForType_Ok t mode m : modeForType t mode = Ok m → ScanMode_Valid m = true ∧ modeForType t m = Ok m.
Proof.
  unfold modeForType. destruct (bool_decide (t ∈ _)); [intros [= <-]; by vm_compute|].
  destruct (bool_decide (t = _)); [intros [= <-]; by vm_compute|].
  destruct (listed_in scanModeOptions mode) eqn:Hm; [|done]. intros [= <-]. rewrite Hm. split; [|done].
  apply listed_in_true in Hm. unfold scanModeOptions in Hm. rewrite !elem_of_cons in Hm.
  destruct Hm as [->|[->|[->|Hn]]]; [by vm_compute..|by apply elem_of_nil in Hn].
Qed.

Section accepted.
Context (printable : Z → bool) (LoadLocation : string → option Location).

(** What [checked_scope] leaves to be true of the form. *)
Definition scope_of (form : Form) (mode : string) (allowed targets : list string) : Prop :=
  listed_in scanTypeOptions (at_ form "scan_type") = true ∧ modeForType (at_ form "scan_type") (at_ form "mode") = Ok mode ∧
  parseList (at_ form "allowed_cidrs") = allowed ∧ parseList (at_ form "targets") = targets ∧
  allowed ≠ [] ∧ targets ≠ [] ∧ validateScanScope printable allowed targets = None.

Lemma checked_scope_Ok form mode allowed targets :
  checked_scope printable form = Ok (mode, allowed, targets) ↔ scope_of form mode allowed targets.
Proof.
  unfold checked_scope, scope_of. destruct (listed_in scanTypeOptions _); [|by split; [|intros [? _]]]. cbn [negb].
  destruct (modeForType _ _) as [m|e]; [cbn|by split; [|intros (_&?&_)]].
  destruct (decide (parseList (at_ form "allowed_cidrs") = [])) as [Ha|Ha]; [split; [done|intros (_&_&?&_&?&_); congruence]|].
  destruct (decide (parseList (at_ form "targets") = [])) as [Ht|Ht]; [split; [done|intros (_&_&_&?&_&?&_); congruence]|].
  destruct (validateScanScope printable _ _) eqn:Hs.
  - split; [done|]. intros (_&_&<-&<-&_&_&?). congruence.
  - split; [intros [= <- <- <-]; done|]. intros (_&[= <-]&<-&<-&_). done.
Qed.

Lemma checked_timeout_Ok form t : checked_timeout form = Ok t → 0 < t ∧ in_int64 t.
Proof.
  unfold checked_timeout. destruct (decide (at_ form "timeout" = "")).
  - intros [= <-]. unfold defaultTimeoutForType. repeat case_decide; (split; [lia|]); by vm_compute.
  - destruct (atoi _) as [z|] eqn:Hz; [|done]. destruct (z <=? 0) eqn:H0; [done|]. intros [= <-].
    split; [lia|by eapply atoi_range].
Qed.

Lemma checked_interval_Ok form t : checked_interval form = Ok t → 60 ≤ t ∧ in_int64 t.
Proof.
  unfold checked_interval. destruct (atoi _) as [z|] eqn:Hz; [|done]. destruct (z <? 60) eqn:H0; [done|]. intros [= <-].
  split; [lia|by eapply atoi_range].
Qed.

Lemma scope_of_valid form mode allowed targets id agent timeout now ports :
  scope_of form mode allowed targets → id ≠ "" → agent ≠ "" → 0 < timeout →
  ValidateJob (scannerJob id (MkScanJobInput agent ports None (at_ form "scan_type") mode allowed targets timeout) now) = None.
Proof.
  intros (Ht & Hm & _ & _ & Ha & Hb & Hs) Hid Hag Hto. unfold ValidateJob. cbn [scannerJob job_ID job_AgentID job_Type job_Mode job_TimeoutSeconds ji_AgentID ji_ScanType ji_Mode ji_TimeoutSeconds].
  rewrite !bool_decide_false by done. rewrite (proj1 (scan_types_valid _) Ht). cbn [negb].
  rewrite (proj1 (modeForType_Ok _ _ _ Hm)). cbn [negb]. rewrite (proj2 (Z.leb_gt timeout 0)) by lia.
  by apply (validateScanScope_iff printable).
Qed.

(** The window that a form can ask for. *)
Definition window_ok (a b : option Z) (days : list Z) (tz : string) : Prop :=
  (a = None ∧ b = None ∨ ∃ x y, a = Some x ∧ b = Some y ∧ 0 ≤ x < 1440 ∧ 0 ≤ y < 1440 ∧ x ≠ y) ∧
  Sorted Z.le days ∧ NoDup days ∧ Forall (λ d, 0 ≤ d ≤ 6) days ∧
  tz ≠ "" ∧ trim_space tz = tz ∧ (tz = "UTC" ∨ LoadLocation tz ≠ None).

Lemma parseClockMinutes_range s m : parseClockMinutes s = Some m → 0 ≤ m < 1440.
Proof.
  unfold parseClockMinutes. destruct (cut_byte _ s) as [[h t]|]; [cbn|done]. destruct (atoi (trim_space h)) as [x|]; [cbn|done].
  destruct ((x <? 0) || (23 <? x)) eqn:Hx; [done|]. destruct (atoi (trim_space t)) as [y|]; [cbn|done].
  destruct ((y <? 0) || (59 <? y)) eqn:Hy; [done|]. intros [= <-]. lia.
Qed.

Lemma window_days_of_spec raws seen l :
  window_days_of seen raws = Some l → NoDup l ∧ Forall (λ d, 0 ≤ d ≤ 6) l ∧ ∀ d, d ∈ l → d ∉ seen.
Proof.
  revert seen l. induction raws as [|raw raws IH]; intros seen l; cbn [window_days_of].
  { intros [= <-]. split; [constructor|]. split; [constructor|]. by intros d ?%elem_of_nil. }
  destruct (decide (trim_space raw = "")); [apply IH|]. destruct (atoi (trim_space raw)) as [d|]; [cbn|done].
  destruct ((d <? 0) || (6 <? d)) eqn:Hd; [done|]. destruct (decide (d ∈ seen)); [apply IH|].
  destruct (window_days_of (d :: seen) raws) as [k|] eqn:Hk; [|done]. intros [= <-].
  destruct (IH _ _ Hk) as (Hnd & Hall & Hseen). split_and!.
  - constructor; [|done]. intros Hin. apply (Hseen d Hin). apply elem_of_cons. by left.
  - constructor; [lia|done].
  - intros x [->|Hx]%elem_of_cons; [done|]. intros Hs. apply (Hseen x Hx). apply elem_of_cons. by right.
Qed.

Lemma parseScheduleWindow_Ok r a b days tz :
  parseScheduleWindow LoadLocation r = Ok (a, b, days, tz) → window_ok a b days tz.
Proof.
  unfold parseScheduleWindow, window_ok. destruct (clock_range _ _) as [range|] eqn:Hr; [|done].
  destruct (window_days_of _ _) as [l|] eqn:Hl; [|done].
  destruct (bool_decide _ && bool_decide _) eqn:Htz; [done|]. intros [= <- <- <- <-].
  apply window_days_of_spec in Hl as (Hnd & Hall & _). split_and!.
  - unfold clock_range in Hr. destruct (decide (_ ∧ _)); [injection Hr as <-; by left|]. destruct (decide (_ ∨ _)); [done|].
    destruct (parseClockMinutes (field r "window_start")) as [x|] eqn:Hx; [|done].
    destruct (parseClockMinutes (field r "window_end")) as [y|] eqn:Hy; [|done].
    destruct (x =? y) eqn:Hxy; [done|]. injection Hr as <-. right. exists x, y.
    apply parseClockMinutes_range in Hx, Hy. split_and!; (done || lia).
  - apply (Sorted_merge_sort Z.le).
  - by rewrite merge_sort_Permutation.
  - by rewrite merge_sort_Permutation.
  - by destruct (decide (field r "window_tz" = "")).
  - destruct (decide (field r "window_tz" = "")); [done|]. apply trim_space_idem.
  - apply andb_false_iff in Htz as [Ht%bool_decide_eq_false|Ht%bool_decide_eq_false]; [left; by apply dec_stable|by right].
Qed.
End accepted.

(** ** Both forms make jobs that are in order *)

(** C24: Whatever the scan form or the schedule form accepts, the orchestrator finds in
    order: its job can only be refused for the state or the allowlist of its agent. An
    accepted interval is a minute or more and an accepted window is well formed. *)
Theorem forms_make_valid_jobs (printable : Z → bool) (LoadLocation : string → option Location) (id : string) (now : Z) :
  id ≠ "" →
  (∀ form input, scanInputFromForm printable form = Ok input → ValidateJob (scannerJob id input now) = None) ∧
  (∀ r form input sid old next at_time,
     scheduleInputFromRequest printable LoadLocation r = (form, Ok input) →
     ValidateJob (scannerJob id (schedule_input (schedule_put sid input old next at_time)) now) = None ∧
     60 ≤ si_IntervalSeconds input ∧
     window_ok LoadLocation (si_WindowStartMin input) (si_WindowEndMin input) (si_WindowDays input) (si_WindowTZ input)).
Proof.
  intros Hid. split.
  - intros form input. unfold scanInputFromForm. destruct (decide (at_ form "agent_id" = "")) as [|Hag]; [done|].
    destruct (checked_scope printable form) as [[[mode allowed] targets]|] eqn:Hs; [cbn|done].
    destruct (checked_timeout form) as [t|] eqn:Ht; [cbn|done]. intros [= <-].
    apply checked_scope_Ok in Hs. apply checked_timeout_Ok in Ht. eapply (scope_of_valid printable form); [exact Hs|done|done|lia].
  - intros r form input sid old next at_time. unfold scheduleInputFromRequest. destruct (rq_FormError r); [done|]. intros [= _ Hin].
    unfold schedule_checks in Hin. set (f := schedule_form r) in *. destruct (decide (at_ f "name" = "")); [done|].
    destruct (decide (at_ f "agent_id" = "")) as [|Hag]; [done|].
    destruct (checked_scope printable f) as [[[mode allowed] targets]|] eqn:Hs; [cbn in Hin|done].
    destruct (checked_interval f) as [i|] eqn:Hi; [cbn in Hin|done].
    destruct (checked_timeout f) as [t|] eqn:Ht; [cbn in Hin|done].
    destruct (parseScheduleWindow LoadLocation r) as [[[[a b] days] tz]|] eqn:Hw; [cbn in Hin|done]. injection Hin as <-.
    apply checked_scope_Ok in Hs. apply checked_timeout_Ok in Ht. apply checked_interval_Ok in Hi. apply parseScheduleWindow_Ok in Hw.
    split; [|by split; [apply Hi|exact Hw]]. eapply (scope_of_valid printable f); [exact Hs|done|done|apply Ht].
Qed.

(** ** Lists in a text area *)

(** A word of a list: not empty, nothing to trim, no separator inside. *)
Definition word (w : string) : Prop :=
  w ≠ "" ∧ trim_space w = w ∧ ∀ c, list_separator c = true → count_byte c w = 0%nat.

Lemma count_trim_space c s : count_byte c s = 0%nat → count_byte c (trim_space s) = 0%nat.
Proof.
  intros Hs. unfold trim_space, trim_func, trim_right_func.
  assert (∀ f t, count_byte c t = 0%nat → count_byte c (trim_left_func f t) = 0%nat) as Hl.
  { intros f t Ht. destruct (trim_left_suffix f t) as (p & Hp). rewrite Hp, count_byte_app in Ht. lia. }
  rewrite count_byte_rev. apply Hl. rewrite count_byte_rev. by apply Hl.
Qed.

Lemma fields_func_words (f : ascii → bool) u s w c :
  (∀ c, f c = true → count_byte c u = 0%nat) → w ∈ fields_func f u s → f c = true → count_byte c w = 0%nat.
Proof.
  revert u. induction s as [|a s IH]; intros u Hu Hw Hc; cbn [fields_func] in Hw.
  - destruct (decide (u = "")); [by apply elem_of_nil in Hw|]. apply list_elem_of_singleton in Hw as ->. by apply Hu.
  - destruct (f a) eqn:Ha.
    + apply elem_of_app in Hw as [Hw|Hw]; [|by apply (IH "")].
      destruct (decide (u = "")); [by apply elem_of_nil in Hw|]. apply list_elem_of_singleton in Hw as ->. by apply Hu.
    + apply (IH (u +:+ String a "")); [|done..]. intros d Hd. rewrite count_byte_app, (Hu d Hd). cbn.
      destruct (decide (a = d)) as [->|]; [congruence|done].
Qed.

Lemma parseList_words s : Forall word (parseList s).
Proof.
  apply Forall_forall. unfold parseList. intros w [Hne (t & -> & Ht)%list_elem_of_fmap]%list_elem_of_filter.
  split; [done|]. split; [apply trim_space_idem|]. intros c Hc. apply count_trim_space.
  by eapply (fields_func_words list_separator "").
Qed.

Lemma fields_func_app (f : ascii → bool) u w s :
  (∀ c, f c = true → count_byte c w = 0%nat) → fields_func f u (w +:+ s) = fields_func f (u +:+ w) s.
Proof.
  revert u. induction w as [|a w IH]; intros u Hw; [by rewrite str_app_nil_l, str_app_nil_r|].
  rewrite str_app_cons. cbn [fields_func]. destruct (f a) eqn:Ha.
  - specialize (Hw a Ha). cbn in Hw. by rewrite decide_True in Hw.
  - rewrite IH; [by rewrite str_app_assoc, str_app_cons, str_app_nil_l|].
    intros c Hc. specialize (Hw c Hc). cbn in Hw. destruct (decide (a = c)); [done|lia].
Qed.

Definition carriage_return : string := String (byte_of 13) "".
(** Line ends as a browser sends them. *)
Fixpoint crlf (s : string) : string :=
  match s with
  | "" => ""
  | String c s => (if decide (c = byte_of 10) then carriage_return +:+ newline else String c "") +:+ crlf s
  end.

Lemma form_crlf_app s t : crlf (s +:+ t) = crlf s +:+ crlf t.
Proof.
  induction s as [|c s IH]; [by rewrite !str_app_nil_l|]. rewrite str_app_cons. cbn [crlf]. by rewrite IH, str_app_assoc.
Qed.

Lemma crlf_id s : count_byte (byte_of 10) s = 0%nat → crlf s = s.
Proof.
  induction s as [|c s IH]; [done|]. cbn [crlf count_byte]. destruct (decide (c = byte_of 10)); [done|]. intros Hs.
  rewrite IH by lia. by rewrite str_app_cons, str_app_nil_l.
Qed.

Lemma fields_func_lines l : Forall word l → fields_func list_separator "" (crlf (join newline l)) = l.
Proof.
  induction l as [|w l IH]; [done|]. intros [(Hne & _ & Hw) Hl]%Forall_cons. rewrite join_app_head, form_crlf_app.
  rewrite (crlf_id w) by (by apply Hw). rewrite fields_func_app, str_app_nil_l by done.
  destruct (decide (l = [])) as [->|Hn]; [cbn; by rewrite decide_False|].
  rewrite form_crlf_app. change (crlf newline) with (String (byte_of 13) (String (byte_of 10) "")).
  rewrite !str_app_cons, str_app_nil_l. cbn [fields_func].
  change (list_separator (byte_of 13)) with true. change (list_separator (byte_of 10)) with true. cbv iota.
  rewrite decide_False by done. cbn [decide]. rewrite (decide_True (P := "" = "")) by done. cbn [app]. by rewrite IH.
Qed.

Lemma parseList_lines l : Forall word l → parseList (crlf (join newline l)) = l.
Proof.
  intros Hl. unfold parseList. rewrite fields_func_lines by done.
  induction Hl as [|w l (Hne & Ht & _) _ IH]; [done|]. cbn [map]. rewrite Ht, filter_cons, decide_True by done. by rewrite IH.
Qed.

(** ** A form sent back as it is *)

Definition text_areas : list string := ["allowed_cidrs"; "targets"].
(** The days of the form that are ticked, in the order of its boxes. *)
Definition ticked_days (form : Form) : list string :=
  map itoa (filter (λ d, form !! ("window_day_" +:+ itoa d) = Some "on") [1; 2; 3; 4; 5; 6; 0]).
Definition sent_fields (form : Form) : gmap string (list string) :=
  <["window_day" := ticked_days form]> (map_imap (λ n v, Some [if decide (n ∈ text_areas) then crlf v else v]) form).
Definition sent_back (r : Request) (form : Form) : Request :=
  MkRequest (rq_Method r) (rq_Path r) (rq_PathValue r) (rq_Cookies r) (sent_fields form) (sent_fields form) None (rq_UploadError r)
    (rq_File r) (rq_Query r) (rq_RemoteAddr r) (rq_UserAgent r) (rq_Authorization r) (rq_Body r).

Lemma FormValue_sent r form n :
  n ≠ "window_day" → FormValue (sent_back r form) n = (if decide (n ∈ text_areas) then crlf (at_ form n) else at_ form n).
Proof.
  intros Hn. unfold FormValue, at_. cbn [rq_Form sent_back]. unfold sent_fields. rewrite lookup_insert_ne by done.
  rewrite map_lookup_imap. destruct (form !! n), (decide (n ∈ text_areas)); reflexivity.
Qed.

Lemma field_sent r form n : n ≠ "window_day" → n ∉ text_areas → field (sent_back r form) n = trim_space (at_ form n).
Proof. intros Hn Ht. unfold field. rewrite FormValue_sent by done. by rewrite decide_False. Qed.

(** The first value under a name. *)
Fixpoint assoc (n : string) (l : list (string * string)) : string :=
  match l with [] => "" | (k, v) :: l => if decide (k = n) then v else assoc n l end.
Lemma at_assoc l n : at_ (list_to_map l) n = assoc n l.
Proof.
  induction l as [|[k v] l IH]; [done|]. cbn [list_to_map foldr uncurry fst snd assoc]. unfold at_ in *.
  destruct (decide (k = n)) as [->|]; [by rewrite lookup_insert_eq|]. by rewrite lookup_insert_ne.
Qed.

(** Day boxes do not shadow the other fields. *)
Definition is_box (p : string * string) : Prop := has_prefix p.1 "window_day_" = true.
Lemma at_boxes boxes l n :
  Forall is_box boxes → has_prefix n "window_day_" = false → at_ (list_to_map (boxes ++ l)) n = at_ (list_to_map l) n.
Proof.
  intros Hb Hn. unfold at_. f_equal. induction Hb as [|[k v] boxes Hk _ IH]; [done|]. cbn [app list_to_map foldr uncurry fst snd].
  rewrite lookup_insert_ne; [done|]. intros ->. unfold is_box in Hk. cbn in Hk. congruence.
Qed.

Lemma day_boxes_are r : Forall is_box (day_boxes r).
Proof.
  unfold day_boxes. apply Forall_forall. intros p (d & _ & Hd)%list_elem_of_omap.
  destruct (decide (trim_space d = "")); [done|]. injection Hd as <-. unfold is_box, has_prefix. cbn [fst].
  by rewrite strip_prefix_app.
Qed.

Lemma at_schedule_form r n : n ∈ schedule_fields → at_ (schedule_form r) n = field r n.
Proof.
  intros Hn. unfold schedule_form. rewrite at_boxes; [|apply day_boxes_are|].
  - unfold schedule_fields in *. rewrite !elem_of_cons in Hn.
    by repeat (destruct Hn as [->|Hn]; [done|]); apply elem_of_nil in Hn.
  - unfold schedule_fields in Hn. rewrite !elem_of_cons in Hn.
    by repeat (destruct Hn as [->|Hn]; [done|]); apply elem_of_nil in Hn.
Qed.
Lemma at_schedule_area r n : n ∈ text_areas → at_ (schedule_form r) n = FormValue r n.
Proof.
  intros Hn. unfold schedule_form. unfold text_areas in Hn. rewrite !elem_of_cons in Hn.
  rewrite at_boxes; [|apply day_boxes_are|]; by repeat (destruct Hn as [->|Hn]; [done|]); apply elem_of_nil in Hn.
Qed.

(** The form of a schedule, field by field. *)
Definition schedule_rows (s : ScanSchedule) : list (string * string) :=
  [("name", ss_Name s); ("agent_id", ss_AgentID s); ("scan_type", ss_ScanType s); ("mode", ss_Mode s);
   ("allowed_cidrs", join newline (ss_AllowedCIDRs s)); ("targets", join newline (ss_Targets s));
   ("timeout", itoa (ss_TimeoutSeconds s)); ("interval", itoa (ss_IntervalSeconds s));
   ("enabled", if ss_Enabled s then "on" else "");
   ("window_tz", if decide (ss_WindowTZ s = "") then "UTC" else ss_WindowTZ s)] ++
  (match ss_WindowStartMin s with Some m => [("window_start", clockFromMinutes m)] | None => [] end) ++
  (match ss_WindowEndMin s with Some m => [("window_end", clockFromMinutes m)] | None => [] end).
Definition schedule_boxes (days : list Z) : list (string * string) :=
  omap (λ d, if (0 <=? d) && (d <=? 6) then Some ("window_day_" +:+ itoa d, "on") else None) days.

Lemma list_to_map_rows {A} (rows boxes : list (string * A)) n :
  n ∉ boxes.*1 → (list_to_map (rows ++ boxes) : gmap string A) !! n = (list_to_map rows : gmap string A) !! n.
Proof.
  intros Hn. rewrite list_to_map_app, lookup_union. rewrite (not_elem_of_list_to_map_1 boxes) by done. by destruct (_ !! n).
Qed.

Lemma schedule_boxes_key days n : n ∈ (schedule_boxes days).*1 → ∃ d, d ∈ days ∧ 0 ≤ d ≤ 6 ∧ n = "window_day_" +:+ itoa d.
Proof.
  unfold schedule_boxes. intros ([k v] & -> & (d & Hd & Hk)%list_elem_of_omap)%list_elem_of_fmap.
  destruct ((0 <=? d) && (d <=? 6)) eqn:Hr; [|done]. injection Hk as <- <-. exists d. split; [done|]. split; [lia|done].
Qed.

Lemma at_schedule_row s n :
  has_prefix n "window_day_" = false → at_ (scheduleFormFromSchedule s) n = at_ (list_to_map (schedule_rows s)) n.
Proof.
  intros Hn. unfold at_, scheduleFormFromSchedule. f_equal.
  match goal with |- list_to_map ?l !! _ = _ => replace l with (schedule_rows s ++ schedule_boxes (ss_WindowDays s)) end.
  - apply list_to_map_rows. intros (d & _ & _ & ->)%schedule_boxes_key. unfold has_prefix in Hn. by rewrite strip_prefix_app in Hn.
  - unfold schedule_rows. by rewrite <- !app_assoc.
Qed.

Lemma schedule_box s d :
  0 ≤ d ≤ 6 → scheduleFormFromSchedule s !! ("window_day_" +:+ itoa d) = Some "on" ↔ d ∈ ss_WindowDays s.
Proof.
  intros Hd. unfold scheduleFormFromSchedule.
  match goal with |- list_to_map ?l !! _ = _ ↔ _ => replace l with (schedule_rows s ++ schedule_boxes (ss_WindowDays s)) end;
    [|unfold schedule_rows; by rewrite <- !app_assoc].
  rewrite list_to_map_app, lookup_union.
  assert ((list_to_map (schedule_rows s) : Form) !! ("window_day_" +:+ itoa d) = None) as ->.
  { apply not_elem_of_list_to_map_1. unfold schedule_rows.
    destruct (ss_WindowStartMin s), (ss_WindowEndMin s); cbn -[String.append]; rewrite !elem_of_cons; intros Hn;
      repeat (destruct Hn as [Hn|Hn]; [done|]); by apply elem_of_nil in Hn. }
  rewrite (left_id_L None (∪)). split.
  - intros Hin%elem_of_list_to_map_2. apply (list_elem_of_fmap_2 fst) in Hin.
    apply schedule_boxes_key in Hin as (e & He & Hr & Heq). cbn [fst] in Heq.
    assert (itoa d = itoa e) as Hi.
    { apply (f_equal (strip_prefix "window_day_")) in Heq. rewrite !strip_prefix_app in Heq. by injection Heq. }
    apply itoa_inj in Hi; [by subst|unfold in_int64, int64_min, int64_max; lia..].
  - intros Hin. unfold schedule_boxes. induction (ss_WindowDays s) as [|e l IH]; [by apply elem_of_nil in Hin|].
    cbn [omap list_omap]. apply elem_of_cons in Hin as [<-|Hin].
    + replace ((0 <=? d) && (d <=? 6)) with true by lia. cbn [list_to_map foldr uncurry fst snd]. by rewrite lookup_insert_eq.
    + destruct ((0 <=? e) && (e <=? 6)); [|by apply IH]. cbn [list_to_map foldr uncurry fst snd].
      destruct (decide ("window_day_" +:+ itoa e = "window_day_" +:+ itoa d)) as [->|]; [by rewrite lookup_insert_eq|].
      rewrite lookup_insert_ne by done. by apply IH.
Qed.

(** ** The round trip of the schedule form *)

Lemma clock_round_trip m : 0 ≤ m < 1440 → parseClockMinutes (trim_space (clockFromMinutes m)) = Some m.
Proof.
  intros Hm. assert (m ∈ seqZ 0 1440) as Hin by (apply elem_of_seqZ; lia). revert m Hm Hin.
  assert (Forall (λ m, parseClockMinutes (trim_space (clockFromMinutes m)) = Some m) (seqZ 0 1440)) as Hall
    by (apply (bool_decide_unpack _); vm_compute; exact I).
  intros m _ Hin. rewrite Forall_forall in Hall. by apply Hall.
Qed.

Lemma clock_text_nonempty m : 0 ≤ m < 1440 → trim_space (clockFromMinutes m) ≠ "".
Proof. intros Hm He. pose proof (clock_round_trip m Hm) as Hc. by rewrite He in Hc. Qed.

Lemma trim_itoa z : trim_space (itoa z) = itoa z.
Proof. apply trim_space_id. intros c (Hd & Hm & _)%space_not_digit. by apply itoa_no_sep. Qed.

Lemma itoa_not_empty z : in_int64 z → itoa z ≠ "".
Proof. intros Hz He. pose proof (atoi_itoa z Hz) as Ha. by rewrite He in Ha. Qed.

(** Reading back boxes that were ticked. *)
Lemma window_days_of_itoa seen l :
  Forall (λ d, 0 ≤ d ≤ 6) l → NoDup l → (∀ d, d ∈ l → d ∉ seen) → window_days_of seen (map itoa l) = Some l.
Proof.
  revert seen. induction l as [|d l IH]; intros seen Hl Hnd Hseen; [done|]. cbn [map window_days_of].
  apply Forall_cons in Hl as [Hd Hl]. apply NoDup_cons in Hnd as [Hin Hnd].
  assert (in_int64 d) as Hi by (unfold in_int64, int64_min, int64_max; lia).
  rewrite trim_itoa, decide_False by (by apply itoa_not_empty). rewrite atoi_itoa by done. cbn [mbind option_bind].
  replace ((d <? 0) || (6 <? d)) with false by lia. rewrite decide_False by (apply Hseen, elem_of_cons; by left).
  rewrite IH; [done..|]. intros e He [->|Hs]%elem_of_cons; [done|]. apply (Hseen e); [apply elem_of_cons; by right|done].
Qed.

Lemma sorted_days_eq (days l : list Z) :
  Sorted Z.le days → days ≡ₚ l → merge_sort Z.le l = days.
Proof.
  intros Hs Hp. apply (Sorted_unique Z.le); [apply (Sorted_merge_sort Z.le)|done|]. by rewrite merge_sort_Permutation.
Qed.

Section round_trip.
Context (printable : Z → bool) (LoadLocation : string → option Location).

(** What makes a schedule one that its form can show. *)
Record showable (s : ScanSchedule) : Prop := MkShowable
  { sh_name : ss_Name s ≠ "" ∧ trim_space (ss_Name s) = ss_Name s;
    sh_agent : ss_AgentID s ≠ "" ∧ trim_space (ss_AgentID s) = ss_AgentID s;
    sh_type : listed_in scanTypeOptions (ss_ScanType s) = true;
    sh_mode : modeForType (ss_ScanType s) (ss_Mode s) = Ok (ss_Mode s);
    sh_allowed : Forall word (ss_AllowedCIDRs s) ∧ ss_AllowedCIDRs s ≠ [];
    sh_targets : Forall word (ss_Targets s) ∧ ss_Targets s ≠ [];
    sh_scope : validateScanScope printable (ss_AllowedCIDRs s) (ss_Targets s) = None;
    sh_timeout : 0 < ss_TimeoutSeconds s ∧ in_int64 (ss_TimeoutSeconds s);
    sh_interval : 60 ≤ ss_IntervalSeconds s ∧ in_int64 (ss_IntervalSeconds s);
    sh_window : window_ok LoadLocation (ss_WindowStartMin s) (ss_WindowEndMin s) (ss_WindowDays s) (ss_WindowTZ s) }.

Definition input_of (s : ScanSchedule) : ScanScheduleInput :=
  MkScanScheduleInput (ss_Name s) (ss_AgentID s) (ss_ScanType s) (ss_Mode s) (ss_AllowedCIDRs s) (ss_Targets s)
    (ss_TimeoutSeconds s) (ss_IntervalSeconds s) (ss_Enabled s) (ss_WindowStartMin s) (ss_WindowEndMin s) (ss_WindowDays s)
    (ss_WindowTZ s).

Lemma trim_type t : listed_in scanTypeOptions t = true → trim_space t = t.
Proof.
  rewrite listed_in_true. unfold scanTypeOptions. rewrite !elem_of_cons. intros Ht.
  repeat (destruct Ht as [->|Ht]; [reflexivity|]). by apply elem_of_nil in Ht.
Qed.
Lemma trim_mode t m : modeForType t m = Ok m → trim_space m = m.
Proof.
  unfold modeForType. destruct (bool_decide _); [by intros [= <-]|]. destruct (bool_decide (t = _)); [by intros [= <-]|].
  destruct (listed_in scanModeOptions m) eqn:Hm; [|done]. intros _. apply listed_in_true in Hm. revert Hm.
  unfold scanModeOptions. rewrite !elem_of_cons. intros Hm. repeat (destruct Hm as [->|Hm]; [reflexivity|]). by apply elem_of_nil in Hm.
Qed.

Context (r : Request) (s : ScanSchedule) (Hs : showable s).
Let back : Request := sent_back r (scheduleFormFromSchedule s).

Lemma back_field n :
  n ∈ schedule_fields → at_ (schedule_form back) n = trim_space (assoc n (schedule_rows s)).
Proof using Type.
  intros Hn. rewrite at_schedule_form by done. unfold back.
  assert (n ≠ "window_day" ∧ (n ∉ text_areas) ∧ has_prefix n "window_day_" = false) as (H1 & H2 & H3).
  { unfold schedule_fields in Hn. rewrite !elem_of_cons in Hn.
    repeat (destruct Hn as [->|Hn]; [split; [done|]; split; [by apply (bool_decide_unpack _)|reflexivity]|]). by apply elem_of_nil in Hn. }
  rewrite field_sent by done. by rewrite at_schedule_row, at_assoc.
Qed.

Lemma back_area n v :
  n ∈ text_areas → assoc n (schedule_rows s) = v → at_ (schedule_form back) n = crlf v.
Proof using Type.
  intros Hn <-. rewrite at_schedule_area by done. unfold back.
  assert (n ≠ "window_day" ∧ has_prefix n "window_day_" = false) as (H1 & H3).
  { unfold text_areas in Hn. rewrite !elem_of_cons in Hn. repeat (destruct Hn as [->|Hn]; [split; [done|reflexivity]|]). by apply elem_of_nil in Hn. }
  rewrite FormValue_sent, decide_True by done. by rewrite at_schedule_row, at_assoc.
Qed.

Lemma back_scope : scope_of printable (schedule_form back) (ss_Mode s) (ss_AllowedCIDRs s) (ss_Targets s).
Proof using Hs.
  destruct Hs as [_ _ Ht Hm [Ha Hane] [Hb Hbne] Hsc _ _ _].
  assert (at_ (schedule_form back) "scan_type" = ss_ScanType s) as Htype.
  { rewrite back_field by by apply (bool_decide_unpack _). by apply trim_type. }
  assert (at_ (schedule_form back) "mode" = ss_Mode s) as Hmode.
  { rewrite back_field by by apply (bool_decide_unpack _). by eapply trim_mode. }
  unfold scope_of. rewrite Htype, Hmode.
  rewrite (back_area "allowed_cidrs" (join newline (ss_AllowedCIDRs s))), (back_area "targets" (join newline (ss_Targets s)))
    by (reflexivity || by apply (bool_decide_unpack _)).
  by rewrite !parseList_lines.
Qed.

Lemma back_window :
  parseScheduleWindow LoadLocation back = Ok (ss_WindowStartMin s, ss_WindowEndMin s, ss_WindowDays s, ss_WindowTZ s).
Proof using Hs.
  destruct Hs as [_ _ _ _ _ _ _ _ _ (Hab & Hsort & Hnd & Hall & Htz & Httz & Hloc)]. unfold parseScheduleWindow.
  assert (field back "window_tz" = ss_WindowTZ s) as ->.
  { rewrite <- at_schedule_form, back_field by by apply (bool_decide_unpack _).
    transitivity (trim_space (if decide (ss_WindowTZ s = "") then "UTC" else ss_WindowTZ s)); [done|]. by rewrite decide_False. }
  rewrite (decide_False (P := ss_WindowTZ s = "")) by done.
  assert (clock_range (field back "window_start") (field back "window_end") =
    Ok (a ← ss_WindowStartMin s; b ← ss_WindowEndMin s; Some (a, b))) as ->.
  { rewrite <- (at_schedule_form back "window_start"), <- (at_schedule_form back "window_end"), !back_field by by apply (bool_decide_unpack _).
    assert (assoc "window_start" (schedule_rows s) = default "" (clockFromMinutes <$> ss_WindowStartMin s)) as ->
      by (unfold schedule_rows; by destruct (ss_WindowStartMin s), (ss_WindowEndMin s)).
    assert (assoc "window_end" (schedule_rows s) = default "" (clockFromMinutes <$> ss_WindowEndMin s)) as ->
      by (unfold schedule_rows; by destruct (ss_WindowStartMin s), (ss_WindowEndMin s)).
    unfold clock_range. destruct Hab as [[-> ->]|(x & y & -> & -> & Hx & Hy & Hxy)]; [done|].
    change (default "" (clockFromMinutes <$> Some x)) with (clockFromMinutes x). change (default "" (clockFromMinutes <$> Some y)) with (clockFromMinutes y).
    pose proof (clock_text_nonempty x Hx). pose proof (clock_text_nonempty y Hy).
    rewrite decide_False by (by intros [? _]). rewrite decide_False by (by intros [?|?]).
    rewrite !clock_round_trip by done. by rewrite (proj2 (Z.eqb_neq x y)). }
  assert (default [] (rq_Form back !! "window_day") = ticked_days (scheduleFormFromSchedule s)) as ->.
  { unfold back. cbn [rq_Form sent_back]. unfold sent_fields. by rewrite lookup_insert_eq. }
  unfold ticked_days. rewrite window_days_of_itoa.
  - rewrite (sorted_days_eq (ss_WindowDays s)); [|done|].
    + destruct (bool_decide (ss_WindowTZ s ≠ "UTC") && bool_decide (LoadLocation (ss_WindowTZ s) = None)) eqn:Hc.
      * apply andb_true_iff in Hc as [?%bool_decide_eq_true ?%bool_decide_eq_true]. by destruct Hloc.
      * by destruct Hab as [[-> ->]|(x & y & -> & -> & _)].
    + apply NoDup_Permutation; [done|by apply NoDup_filter, (bool_decide_unpack _)|]. intros d. rewrite list_elem_of_filter.
      rewrite Forall_forall in Hall. split.
      * intros Hd. specialize (Hall d Hd). split; [by apply schedule_box|].
        assert (d = 0 ∨ d = 1 ∨ d = 2 ∨ d = 3 ∨ d = 4 ∨ d = 5 ∨ d = 6) as Hcases by lia. rewrite !elem_of_cons. tauto.
      * intros [Hd Hin]. apply schedule_box in Hd; [done|]. rewrite !elem_of_cons in Hin. rewrite elem_of_nil in Hin. lia.
  - apply Forall_forall. intros d [_ Hin]%list_elem_of_filter. rewrite !elem_of_cons in Hin. rewrite elem_of_nil in Hin. lia.
  - by apply NoDup_filter, (bool_decide_unpack _).
  - by intros d _ ?%elem_of_nil.
Qed.

Lemma back_checks : schedule_checks printable LoadLocation back (schedule_form back) = Ok (input_of s).
Proof using Hs.
  pose proof back_scope as Hscope. pose proof back_window as Hw.
  destruct Hs as [[Hn Htn] [Ha Hta] Ht _ _ _ _ [Hto Hto'] [Hi Hi'] _]. unfold schedule_checks.
  assert (at_ (schedule_form back) "name" = ss_Name s) as Hname by (by rewrite back_field by by apply (bool_decide_unpack _)).
  assert (at_ (schedule_form back) "agent_id" = ss_AgentID s) as Hagent by (by rewrite back_field by by apply (bool_decide_unpack _)).
  assert (at_ (schedule_form back) "scan_type" = ss_ScanType s) as Htype
    by (rewrite back_field by (by apply (bool_decide_unpack _)); by apply trim_type).
  rewrite Hname, Hagent, !decide_False by done. rewrite (proj2 (checked_scope_Ok _ _ _ _ _) Hscope). cbn [mbind result_bind].
  assert (checked_interval (schedule_form back) = Ok (ss_IntervalSeconds s)) as ->.
  { unfold checked_interval. rewrite back_field by by apply (bool_decide_unpack _).
    transitivity (match atoi (trim_space (itoa (ss_IntervalSeconds s))) with Some i => if i <? 60 then Err "Interval must be at least 60 seconds." else Ok i | None => Err "Interval must be at least 60 seconds." end); [done|].
    rewrite trim_itoa, atoi_itoa by done. by rewrite (proj2 (Z.ltb_ge _ 60)). }
  assert (checked_timeout (schedule_form back) = Ok (ss_TimeoutSeconds s)) as ->.
  { assert (at_ (schedule_form back) "timeout" = itoa (ss_TimeoutSeconds s)) as Htx.
    { rewrite back_field by by apply (bool_decide_unpack _). apply trim_itoa. }
    unfold checked_timeout. rewrite Htx, decide_False by (by apply itoa_not_empty). rewrite atoi_itoa by done.
    by rewrite (proj2 (Z.leb_gt _ 0)). }
  cbn [mbind result_bind]. rewrite Hw. cbn [mbind result_bind]. unfold input_of. rewrite Htype. do 2 f_equal.
  assert (at_ (schedule_form back) "enabled" = if ss_Enabled s then "on" else "") as ->.
  { rewrite back_field by by apply (bool_decide_unpack _). transitivity (trim_space (if ss_Enabled s then "on" else "")); [done|]. by destruct (ss_Enabled s). }
  by destruct (ss_Enabled s).
Qed.
End round_trip.

Lemma schedule_form_trim r n : n ∈ schedule_fields → trim_space (at_ (schedule_form r) n) = at_ (schedule_form r) n.
Proof. intros Hn. rewrite at_schedule_form by done. apply trim_space_idem. Qed.

Lemma accepted_showable printable LoadLocation r f input sid old next now :
  scheduleInputFromRequest printable LoadLocation r = (f, Ok input) →
  showable printable LoadLocation (schedule_put sid input old next now) ∧ input_of (schedule_put sid input old next now) = input.
Proof.
  unfold scheduleInputFromRequest. destruct (rq_FormError r); [done|]. intros [= _ Hin]. unfold schedule_checks in Hin.
  pose proof (schedule_form_trim r) as Htrim. set (g := schedule_form r) in *.
  destruct (decide (at_ g "name" = "")) as [|Hname]; [done|]. destruct (decide (at_ g "agent_id" = "")) as [|Hag]; [done|].
  destruct (checked_scope printable g) as [[[mode allowed] targets]|] eqn:Hs; [cbn in Hin|done].
  destruct (checked_interval g) as [i|] eqn:Hi; [cbn in Hin|done].
  destruct (checked_timeout g) as [t|] eqn:Ht; [cbn in Hin|done].
  destruct (parseScheduleWindow LoadLocation r) as [[[[a b] days] tz]|] eqn:Hw; [cbn in Hin|done]. injection Hin as <-.
  apply checked_scope_Ok in Hs as (Htype & Hmode & <- & <- & Ha & Hb & Hsc). apply checked_timeout_Ok in Ht.
  apply checked_interval_Ok in Hi. apply parseScheduleWindow_Ok in Hw.
  assert (∀ input, si_WindowTZ input = tz → schedule_tz input = tz) as Htz.
  { intros input <-. unfold schedule_tz. rewrite decide_False; [done|]. apply Hw. }
  split.
  - split; cbn [schedule_put ss_Name ss_AgentID ss_ScanType ss_Mode ss_AllowedCIDRs ss_Targets ss_TimeoutSeconds ss_IntervalSeconds
      ss_WindowStartMin ss_WindowEndMin ss_WindowDays ss_WindowTZ si_Name si_AgentID si_ScanType si_Mode si_AllowedCIDRs si_Targets
      si_TimeoutSeconds si_IntervalSeconds si_WindowStartMin si_WindowEndMin si_WindowDays].
    + split; [done|]. by apply Htrim, (bool_decide_unpack _).
    + split; [done|]. by apply Htrim, (bool_decide_unpack _).
    + done.
    + by apply modeForType_Ok in Hmode as [_ ?].
    + split; [apply parseList_words|done].
    + split; [apply parseList_words|done].
    + done.
    + done.
    + done.
    + by rewrite Htz.
  - unfold input_of, schedule_put. cbn. by rewrite Htz.
Qed.

(** C25: Editing a schedule without touching its form changes nothing: what the form
    accepted once is stored, shown, sent back by a browser and accepted as the same
    input. *)
Theorem schedule_form_round_trip (printable : Z → bool) (LoadLocation : string → option Location) (r r' : Request)
    (f : option Form) (input : ScanScheduleInput) (sid : string) (old : ScanSchedule) (next now : Z) :
  scheduleInputFromRequest printable LoadLocation r = (f, Ok input) →
  (scheduleInputFromRequest printable LoadLocation
     (sent_back r' (scheduleFormFromSchedule (schedule_put sid input old next now)))).2 = Ok input.
Proof.
  intros Hin. destruct (accepted_showable printable LoadLocation r f input sid old next now Hin) as [Hs Hi].
  pose proof (back_checks printable LoadLocation r' _ Hs) as Hb. rewrite Hi in Hb.
  unfold scheduleInputFromRequest. cbn [rq_FormError sent_back snd]. exact Hb.
Qed.

(** ** A night scan *)

Definition night_request : Request :=
  MkRequest "POST" "/schedules" "" ∅
    (list_to_map [("name", [" Night "]); ("agent_id", ["a"]); ("scan_type", ["snmp_inventory"]); ("mode", [""]);
      ("allowed_cidrs", ["10.0.0.0/8, 192.168.0.0/16"]); ("targets", ["10.1.0.0/24 192.168.0.7"]); ("timeout", [""]);
      ("interval", ["3600"]); ("enabled", ["on"]); ("window_start", ["22:00"]); ("window_end", ["06:30"]);
      ("window_day", ["5"; "0"; "5"])]) ∅ None false None ∅ "" "" "" "".
Definition night_input : ScanScheduleInput :=
  MkScanScheduleInput "Night" "a" "snmp_inventory" "standard_active" ["10.0.0.0/8"; "192.168.0.0/16"] ["10.1.0.0/24"; "192.168.0.7"]
    300 3600 true (Some 1320) (Some 390) [0; 5] "UTC".

Lemma schedule_form_round_trip_witness :
  (scheduleInputFromRequest (λ _, false) (λ _, None) night_request).2 = Ok night_input ∧
  (scheduleInputFromRequest (λ _, false) (λ _, None)
     (sent_back night_request (scheduleFormFromSchedule (schedule_put "s" night_input (blank_schedule 0) 0 0)))).2 = Ok night_input.
Proof.
  assert ((scheduleInputFromRequest (λ _, false) (λ _, None) night_request).2 = Ok night_input) as Hin by (vm_compute; reflexivity).
  split; [exact Hin|].
  apply (schedule_form_round_trip (λ _, false) (λ _, None) night_request night_request
           (scheduleInputFromRequest (λ _, false) (λ _, None) night_request).1 night_input "s" (blank_schedule 0) 0 0).
  destruct (scheduleInputFromRequest (λ _, false) (λ _, None) night_request) as [f res]. cbn in *. rewrite Hin. reflexivity.
Defined.

Lemma forms_make_valid_jobs_witness :
  ("preview" ≠ "" ∧ (scheduleInputFromRequest (λ _, false) (λ _, None) night_request).2 = Ok night_input) ∧
  ValidateJob (scannerJob "preview" (schedule_input (schedule_put "s" night_input (blank_schedule 0) 0 0)) 0) = None ∧
  60 ≤ si_IntervalSeconds night_input ∧
  window_ok (λ _, None) (si_WindowStartMin night_input) (si_WindowEndMin night_input) (si_WindowDays night_input) (si_WindowTZ night_input).
Proof.
  assert ("preview" ≠ "") as Hne by discriminate.
  assert ((scheduleInputFromRequest (λ _, false) (λ _, None) night_request).2 = Ok night_input) as Hin by (vm_compute; reflexivity).
  split; [split; [exact Hne|exact Hin]|].
  apply (proj2 (forms_make_valid_jobs (λ _, false) (λ _, None) "preview" 0 Hne) night_request
           (scheduleInputFromRequest (λ _, false) (λ _, None) night_request).1 night_input "s" (blank_schedule 0) 0 0).
  destruct (scheduleInputFromRequest (λ _, false) (λ _, None) night_request) as [f res]. cbn in *. rewrite Hin. reflexivity.
Defined.
