(* ===== verification/Webhooks.v ===== *)
(** * Webhooks

    [internal/store/webhooks.go], the dispatcher of [internal/webhook/webhook.go] and the
    pages of [internal/app/notifications.go]. *)

From S2P Require Import Prelude GoStrings GoTime Process Scans Queue Inventory Portability Lockout Password Secrets Json Accounts Web Signin Users Batch Demo Events Install Settings Endpoints.
Local Open Scope Z_scope.

(** ** Records *)

Record Webhook : Type := MkWebhook
  { wh_ID : string; wh_Name : string; wh_URL : string; wh_SecretSealed : string; wh_HasSecret : bool; wh_Events : list string;
    wh_Enabled : bool; wh_CreatedAt : Z; wh_UpdatedAt : Z }.

(** [strings.ToUpper(e[:1])+e[1:]]; categories are ASCII. *)
Definition capitalize (e : string) : string := match e with String c s => String (upper_ascii c) s | "" => "" end.
Definition EventsLabel (w : Webhook) : string :=
  match wh_Events w with [] => "All events" | l => join ", " (map capitalize (filter (λ e, e ≠ "") l)) end.

Record WebhookInput : Type := MkWebhookInput
  { wi_Name : string; wi_URL : string; wi_SecretSealed : option string; wi_Events : list string; wi_Enabled : bool }.

Record WebhookDelivery : Type := MkDelivery
  { de_ID : Z; de_WebhookID : string; de_WebhookName : string; de_EventType : string; de_Status : string; de_StatusCode : Z;
    de_Error : string; de_CreatedAt : Z }.

Definition webhookDeliveryCap : nat := 20.

Definition webhook_of_row (id : string) (r : WebhookRow) : Webhook :=
  MkWebhook id (wr_Name r) (wr_URL r) (wr_SecretSealed r) (bool_decide (wr_SecretSealed r ≠ "")) (wr_Events r) (wr_Enabled r)
    (wr_Created r) (wr_Updated r).

(** ** The store *)

Section store.
Context {env : Env} {app : App}.

Definition GetWebhook (id : string) : GoE Installation Webhook :=
  stmt (λ _ w, match is_hooks (w_inv w) !! id with
               | Some r => Ok (webhook_of_row id r, w)
               | None => Err ErrNotFound
               end).

Definition CreateWebhook (input : WebhookInput) : GoE Installation Webhook :=
  id ←? random_token;
  _ ←? stmt (λ now w,
    if bool_decide (is_Some (is_hooks (w_inv w) !! id)) then Err ErrDuplicateKey
    else Ok ((), edit_install (λ x, put_hooks (<[id := MkWebhookRow (wi_Name input) (wi_URL input)
                   (default "" (wi_SecretSealed input)) (wi_Events input) (wi_Enabled input) now now]> (is_hooks x)) x) w));
  GetWebhook id.

Definition update_row (input : WebhookInput) (now : Z) (r : WebhookRow) : WebhookRow :=
  MkWebhookRow (wi_Name input) (wi_URL input) (default (wr_SecretSealed r) (wi_SecretSealed input)) (wi_Events input)
    (wi_Enabled input) (wr_Created r) now.
Definition UpdateWebhook (id : string) (input : WebhookInput) : GoE Installation Webhook :=
  _ ←? stmt (λ now w,
    match is_hooks (w_inv w) !! id with
    | None => Err ErrNotFound
    | Some r => Ok ((), edit_install (λ x, put_hooks (<[id := update_row input now r]> (is_hooks x)) x) w)
    end);
  GetWebhook id.

Definition hooks_where (f : WebhookRow → bool) (w : World Installation) : list Webhook :=
  by_name _ wh_Name (map (λ p, webhook_of_row p.1 p.2) (filter (λ p, f p.2 = true) (map_to_list (is_hooks (w_inv w))))).
Definition ListWebhooks : GoE Installation (list Webhook) := stmt (λ _ w, Ok (hooks_where (λ _, true) w, w)).
Definition ListEnabledWebhooks : GoE Installation (list Webhook) := stmt (λ _ w, Ok (hooks_where wr_Enabled w, w)).

(** The deliveries of a webhook go with it. *)
Definition DeleteWebhook (id : string) : GoE Installation unit :=
  stmt (λ _ w,
    if bool_decide (is_hooks (w_inv w) !! id = None) then Err ErrNotFound
    else Ok ((), edit_install (λ x, put_hooks (delete id (is_hooks x))
                   (put_deliveries (filter (λ d, dl_Webhook d ≠ id) (is_deliveries x)) (is_next x) x)) w)).

Definition CountEnabledWebhooks : GoE Installation Z :=
  stmt (λ _ w, Ok (Z.of_nat (length (filter (λ p, wr_Enabled p.2 = true) (map_to_list (is_hooks (w_inv w))))), w)).

(** The log is kept in the order of its serial numbers; those that a failed insertion
    uses up are not modelled. *)
Definition insert_delivery (d : WebhookDelivery) (now : Z) (w : World Installation) : result db_error (unit * World Installation) :=
  if bool_decide (is_hooks (w_inv w) !! de_WebhookID d = None) then Err ErrForeignKey
  else if negb (int4 (de_StatusCode d)) then Err ErrOutOfRange
  else Ok ((), edit_install (λ x, put_deliveries (is_deliveries x ++
         [MkDeliveryRow (is_next x) (de_WebhookID d) (de_EventType d) (de_Status d) (de_StatusCode d) (de_Error d) now])
         (is_next x + 1) x) w).

(** The last of a webhook's deliveries, newest first. *)
Definition newest (id : string) (l : list DeliveryRow) : list DeliveryRow :=
  take webhookDeliveryCap (rev (filter (λ d, dl_Webhook d = id) l)).
Definition pruned (id : string) (l : list DeliveryRow) : list DeliveryRow :=
  filter (λ d, dl_Webhook d ≠ id ∨ dl_ID d ∈ map dl_ID (newest id l)) l.
Definition prune_deliveries (id : string) (w : World Installation) : result db_error (unit * World Installation) :=
  Ok ((), edit_install (λ x, put_deliveries (pruned id (is_deliveries x)) (is_next x) x) w).

Definition RecordWebhookDelivery (d : WebhookDelivery) : GoE Installation unit :=
  _ ←? stmt (insert_delivery d);
  stmt (λ _ w, prune_deliveries (de_WebhookID d) w).

Definition later (p q : DeliveryRow) : Prop := dl_Created q ≤ dl_Created p.
#[local] Instance later_dec p q : Decision (later p q).
Proof. unfold later. apply _. Defined.

Definition delivery_of_row (w : World Installation) (d : DeliveryRow) : WebhookDelivery :=
  MkDelivery (dl_ID d) (dl_Webhook d) (default "" (wr_Name <$> is_hooks (w_inv w) !! dl_Webhook d)) (dl_EventType d) (dl_Status d)
    (dl_StatusCode d) (dl_Error d) (dl_Created d).
Definition ListWebhookDeliveries (limit : Z) : GoE Installation (list WebhookDelivery) :=
  let limit := if (limit <=? 0) || (200 <? limit) then 50 else limit in
  stmt (λ _ w, Ok (map (delivery_of_row w) (take (Z.to_nat limit) (merge_sort later (is_deliveries (w_inv w)))), w)).

(** ** The dispatcher *)

(** The answer to a request sent at a step: the text of the failure, or the status. A
    bad URL and a lost connection are both failures of this step. *)
Context (Post : nat → string → list (string * string) → string → result string Z).

Definition Refresh : Go Installation unit :=
  n ←! CountEnabledWebhooks;
  match n with
  | Ok n => write_memory (λ m, MkMemory (mm_Security m) (mm_Policy m) (mm_OIDC m) (mm_Provider m) n)
  | Err _ => Ret ()
  end.

(** The signature, when the secret opens. *)
Definition signature (wh : Webhook) (body : string) : list (string * string) :=
  match sealer with
  | Some c =>
      if decide (wh_SecretSealed wh = "") then []
      else match Open c (wh_SecretSealed wh) with
           | Some plain => [("X-LightIPAM-Signature", "sha256=" +:+ sign plain body)]
           | None => []
           end
  | None => []
  end.
Definition headers (wh : Webhook) (e : Event) (body : string) : list (string * string) :=
  [("Content-Type", "application/json"); ("User-Agent", "LightIPAM-Webhook"); ("X-LightIPAM-Event", ev_Type e);
   ("X-LightIPAM-Category", ev_Category e); ("X-LightIPAM-Timestamp", RFC3339 (ev_Timestamp e))] ++ signature wh body.

Definition delivery (wh : Webhook) (e : Event) (answer : result string Z) : WebhookDelivery :=
  match answer with
  | Err text => MkDelivery 0 (wh_ID wh) "" (ev_Type e) "failed" 0 text 0
  | Ok code =>
      if (200 <=? code) && (code <? 300) then MkDelivery 0 (wh_ID wh) "" (ev_Type e) "success" code "" 0
      else MkDelivery 0 (wh_ID wh) "" (ev_Type e) "failed" code ("endpoint returned HTTP " +:+ itoa code) 0
  end.

Definition send (wh : Webhook) (e : Event) (body : string) : Go Installation WebhookDelivery :=
  atomic (λ w, (delivery wh e (Post (w_step w) (wh_URL wh) (headers wh e body) body), bump w)).

(** A failure is only logged. *)
Definition record (d : WebhookDelivery) : Go Installation unit := _ ←! RecordWebhookDelivery d; Ret ().

Definition event_json (e : Event) : option string :=
  if match ev_Metadata e with Some m => json_valid m | None => true end then Some (event_body e) else None.

Definition deliver_to (e : Event) (body : string) (wh : Webhook) : Go Installation unit :=
  if matches (wh_Events wh) (ev_Category e) then d ←! send wh e body; record d else Ret ().

(** The thirty seconds the goroutine has are not counted; a statement after them is
    one that is lost. *)
Definition deliver (e : Event) : Go Installation unit :=
  hooks ←! ListEnabledWebhooks;
  match hooks, event_json e with
  | Ok hooks, Some body => for_each (deliver_to e body) hooks
  | _, _ => Ret ()
  end.

Definition test_metadata : string := quoted "{'message':'Test delivery from Light IPAM.'}".
Definition test_event (id : string) (now : Z) : Event :=
  MkEvent "webhook.test" "test" "webhook" id "" (Some test_metadata) instance_name now.

Definition TestDeliver (id : string) : GoE Installation WebhookDelivery :=
  wh ←? GetWebhook id;
  now ←! time_now;
  match event_json (test_event (wh_ID wh) now) with
  | None => Ret (Err ErrInvalid)
  | Some body =>
      d ←! send wh (test_event (wh_ID wh) now) body;
      _ ←! record d;
      Ret (Ok d)
  end.

(** ** The notifications tab *)

Context (printable : Z → bool).

Fixpoint form_events (seen : list string) (values : list string) : option (list string) :=
  match values with
  | [] => Some []
  | c :: values =>
      let c := trim_space c in
      if decide (c = "") then form_events seen values
      else if negb (ValidCategory c) then None
      else if decide (c ∈ seen) then form_events seen values
      else cons c <$> form_events (c :: seen) values
  end.

(** The input and the raw secret. *)
Definition parseWebhookForm (form : gmap string (list string)) : result string (WebhookInput * string) :=
  let name := trim_space (form_get form "name") in
  if decide (name = "") then Err "Webhook name is required."
  else match ValidateURL printable (form_get form "url") with
       | Err message => Err message
       | Ok url =>
           match form_events [] (form_all form "event") with
           | None => Err "Unknown event category."
           | Some events =>
               Ok (MkWebhookInput name url None events (bool_decide (form_get form "enabled" ≠ "")), trim_space (form_get form "secret"))
           end
       end.

Definition submittedWebhookForm (form : gmap string (list string)) : gmap string string :=
  list_to_map (map (λ c, ("event_" +:+ c, "on")) (filter (λ c, ValidCategory c = true) (form_all form "event")) ++
    (if bool_decide (form_get form "enabled" ≠ "") then [("enabled", "on")] else []) ++
    [("name", trim_space (form_get form "name")); ("url", trim_space (form_get form "url"))]).

Definition sealWebhookSecret (raw : string) : Go Installation string :=
  match sealer return Go Installation string with
  | Some c =>
      if decide (raw = "") then Ret ""
      else
        nonce ←! atomic (λ w, (random_bytes (w_step w), bump w));
        Ret (default "" (Seal c nonce raw))
  | None => Ret ""
  end.

Definition notificationsNotice (r : Request) : string :=
  notice_of r [("created", "Webhook created."); ("updated", "Webhook updated."); ("deleted", "Webhook deleted.");
    ("test_ok", "Test delivery succeeded."); ("test_failed", "Test delivery failed" +:+ dash +:+ "see the delivery log below.")].

Definition renderNotificationsTab (form : option (gmap string string)) (errMsg notice : string) : Go Installation Response :=
  hooks ←! ListWebhooks;
  match hooks with
  | Err _ => failure "Unable to load webhooks"
  | Ok _ =>
      _ ←! ListWebhookDeliveries 25;
      answer (Dialog "settings.html" "Settings" errMsg notice (map_to_list (default {["enabled" := "on"]} form)))
  end.

Definition settingsNotifications : Service := λ r,
  with_admin r (λ _, renderNotificationsTab None "" (notificationsNotice r)).

Definition with_secret (sealed : option string) (input : WebhookInput) : WebhookInput :=
  MkWebhookInput (wi_Name input) (wi_URL input) sealed (wi_Events input) (wi_Enabled input).

(** What follows a change: the audit entry, the count, the redirect. *)
Definition hook_changed (session : Session) (action id notice : string) : Go Installation Response :=
  _ ←! hooked_audit session action "webhook" id;
  _ ←! Refresh;
  answer (Redirect ("/settings/notifications?notice=" +:+ notice)).

Definition webhookCreate : Service := λ r,
  with_admin r (λ session, with_csrf r session (with_form r (
    match parseWebhookForm (rq_PostForm r) with
    | Err message => renderNotificationsTab (Some (submittedWebhookForm (rq_PostForm r))) message ""
    | Ok (input, rawSecret) =>
        sealed ←! sealWebhookSecret rawSecret;
        wh ←! CreateWebhook (with_secret (Some sealed) input);
        match wh with
        | Err _ => renderNotificationsTab (Some (submittedWebhookForm (rq_PostForm r))) "Unable to create webhook." ""
        | Ok wh => hook_changed session "settings.notifications.created" (wh_ID wh) "created"
        end
    end))).

Definition loadWebhookPage (r : Request) (next : Session → Webhook → Go Installation Response) : Go Installation Response :=
  with_admin r (λ session,
    wh ←! GetWebhook (rq_PathValue r);
    match wh with
    | Ok wh => next session wh
    | Err ErrNotFound => answer NotFoundPage
    | Err _ => failure "Unable to load webhook"
    end).

(** A blank secret keeps the stored one. *)
Definition new_secret (rawSecret : string) : Go Installation (option string) :=
  if decide (rawSecret = "") then Ret None else sealed ←! sealWebhookSecret rawSecret; Ret (Some sealed).

Definition webhookUpdate : Service := λ r,
  loadWebhookPage r (λ session wh, with_csrf r session (with_form r (
    match parseWebhookForm (rq_PostForm r) with
    | Err message => renderNotificationsTab None message ""
    | Ok (input, rawSecret) =>
        sealed ←! new_secret rawSecret;
        updated ←! UpdateWebhook (wh_ID wh) (with_secret sealed input);
        match updated with
        | Err _ => renderNotificationsTab None "Unable to update webhook." ""
        | Ok _ => hook_changed session "settings.notifications.updated" (wh_ID wh) "updated"
        end
    end))).

Definition webhookTest : Service := λ r,
  loadWebhookPage r (λ session wh, with_csrf r session (
    result ←! TestDeliver (wh_ID wh);
    match result with
    | Err _ => answer (Redirect "/settings/notifications?notice=test_failed")
    | Ok d =>
        _ ←! hooked_audit session "settings.notifications.tested" "webhook" (wh_ID wh);
        answer (Redirect ("/settings/notifications?notice=" +:+ if decide (de_Status d = "success") then "test_ok" else "test_failed"))
    end)).

Definition webhookDeleteConfirm : Service := λ r,
  loadWebhookPage r (λ _ _, answer (Page "confirm.html" "Delete Webhook" "" "")).

Definition webhookDelete : Service := λ r,
  loadWebhookPage r (λ session wh, with_csrf r session (
    deleted ←! DeleteWebhook (wh_ID wh);
    match deleted with
    | Err _ => failure "Unable to delete webhook"
    | Ok _ => hook_changed session "settings.notifications.deleted" (wh_ID wh) "deleted"
    end)).
End store.

(** * What webhooks promise

    Stored webhooks and their log stay well formed under any interleaving; the log of a
    webhook is the last twenty of its deliveries; an event reaches exactly the enabled
    webhooks that subscribe to it. *)

(** ** Steps that do not touch the tables of webhooks *)

Definition untouched (w w' : World Installation) : Prop :=
  is_hooks (w_inv w') = is_hooks (w_inv w) ∧ is_deliveries (w_inv w') = is_deliveries (w_inv w) ∧
  is_next (w_inv w') = is_next (w_inv w).

Section steps.
Context {env : Env} {app : App} (R : World Installation → World Installation → Prop).
Context (Hu : ∀ w w', untouched w w' → R w w').

Lemma lift_untouched {A} (p : Go Database A) : guarantees R (lift p).
Proof using Hu. induction p as [a|g k IH]; [done|]. intros w. split; [by apply Hu|]. apply IH. Qed.

Lemma atomic_untouched {A} (f : World Installation → A * World Installation) :
  (∀ w, untouched w (f w).2) → guarantees R (atomic f).
Proof using Hu. intros Hf. apply guarantees_atomic. intros w. apply Hu, Hf. Qed.

Lemma read_untouched {A} (f : World Installation → A) : guarantees R (stmt (λ _ w, Ok (f w, w))).
Proof using Hu. apply atomic_untouched. intros w. unfold run_stmt. by destruct (fault (w_step w)). Qed.

Lemma stmt_steps {A} (f : Z → World Installation → result db_error (A * World Installation)) :
  (∀ now w a w', f now w = Ok (a, w') → R w w') → (∀ w w' w'', untouched w w' → R w' w'' → R w w'') → guarantees R (stmt f).
Proof using Hu.
  intros Hf Ht. apply guarantees_atomic. intros w. unfold run_stmt. destruct (fault (w_step w)); [by apply Hu|].
  destruct (f _ (bump w)) as [[a w']|e] eqn:Hr; [|by apply Hu]. apply (Ht w (bump w)); [done|]. by eapply Hf.
Qed.

Lemma random_untouched : guarantees R (random_token (Inv := Installation)).
Proof using Hu. by apply atomic_untouched. Qed.

Lemma hooked_log_untouched who action st sid metadata : guarantees R (hooked_log who action st sid metadata).
Proof using Hu.
  apply guarantees_bind.
  { apply atomic_untouched. intros w. unfold run_stmt. destruct (fault (w_step w)); [done|].
    destruct (jsonb_in _); [|done]. by destruct (negb _). }
  intros [u|e]; [|done]. apply guarantees_bind; [by apply atomic_untouched|]. intros [|]; [|done]. cbn [negb].
  destruct (categoryForAction _); [|done]. apply guarantees_bind; [by apply atomic_untouched|]. intros now.
  destruct (EventFromAudit _ _ _); [by apply atomic_untouched|done].
Qed.

Lemma with_admin_steps r next : (∀ s, guarantees R (next s)) → guarantees R (with_admin r next).
Proof using Hu.
  intros Hn. apply guarantees_bind.
  - apply guarantees_bind; [by apply atomic_untouched|]. intros s. apply lift_untouched.
  - intros [s|]; [|done]. by destruct (negb _).
Qed.

Lemma GetWebhook_untouched id : guarantees R (GetWebhook id).
Proof using Hu.
  apply atomic_untouched. intros w. unfold run_stmt. destruct (fault (w_step w)); [done|]. by destruct (is_hooks _ !! id).
Qed.

Lemma loadWebhookPage_steps r next : (∀ s wh, guarantees R (next s wh)) → guarantees R (loadWebhookPage r next).
Proof using Hu.
  intros Hn. apply with_admin_steps. intros s. apply guarantees_bind; [apply GetWebhook_untouched|].
  intros [wh|[]]; [apply Hn|done..].
Qed.

Lemma with_csrf_steps r s next : guarantees R next → guarantees R (with_csrf r s next).
Proof using Type. intros Hn. unfold with_csrf. by destruct (verifySessionCSRF r s). Qed.
Lemma with_form_steps r next : guarantees R next → guarantees R (with_form r next).
Proof using Type. intros Hn. unfold with_form. by destruct (bool_decide _). Qed.

Lemma renderNotificationsTab_untouched form e n : guarantees R (renderNotificationsTab form e n).
Proof using Hu.
  apply guarantees_bind; [apply read_untouched|]. intros [l|]; [|done]. apply guarantees_bind; [apply read_untouched|]. done.
Qed.

Lemma Refresh_untouched : guarantees R Refresh.
Proof using Hu.
  apply guarantees_bind; [apply (read_untouched (λ w, Z.of_nat (length (filter (λ p, wr_Enabled p.2 = true) (map_to_list (is_hooks (w_inv w)))))))|].
  intros [n|]; [by apply atomic_untouched|done].
Qed.

Lemma hook_changed_untouched s action id notice : guarantees R (hook_changed s action id notice).
Proof using Hu.
  apply guarantees_bind; [apply hooked_log_untouched|]. intros []. apply guarantees_bind; [apply Refresh_untouched|]. done.
Qed.

Lemma sealWebhookSecret_untouched raw : guarantees R (sealWebhookSecret raw).
Proof using Hu.
  unfold sealWebhookSecret. destruct sealer; [|done]. destruct (decide _); [done|].
  apply guarantees_bind; [by apply atomic_untouched|]. done.
Qed.
Lemma new_secret_untouched raw : guarantees R (new_secret raw).
Proof using Hu.
  unfold new_secret. destruct (decide _); [done|]. apply guarantees_bind; [apply sealWebhookSecret_untouched|]. done.
Qed.
End steps.

(** ** Well-formed tables *)

Section wf.
Context (printable : Z → bool).

Definition row_ok (r : WebhookRow) : Prop :=
  (∃ raw, ValidateURL printable raw = Ok (wr_URL r)) ∧ NoDup (wr_Events r) ∧ Forall (λ c, ValidCategory c = true) (wr_Events r).

(** Rows were accepted by the form, the log refers to rows, and its serial numbers grow. *)
Record hooks_wf (w : World Installation) : Prop := MkHooksWf
  { hw_rows : map_Forall (λ _ r, row_ok r) (is_hooks (w_inv w));
    hw_refs : ∀ d, d ∈ is_deliveries (w_inv w) → is_Some (is_hooks (w_inv w) !! dl_Webhook d);
    hw_ids : NoDup (map dl_ID (is_deliveries (w_inv w)));
    hw_next : ∀ d, d ∈ is_deliveries (w_inv w) → dl_ID d < is_next (w_inv w) }.

Definition keeps_hooks (w w' : World Installation) : Prop := hooks_wf w → hooks_wf w'.

#[export] Instance keeps_hooks_preorder : PreOrder keeps_hooks.
Proof. split; [exact (λ w H, H)|exact (λ w1 w2 w3 H1 H2 H, H2 (H1 H))]. Qed.

Lemma untouched_wf w w' : untouched w w' → keeps_hooks w w'.
Proof. intros (H1 & H2 & H3) []. split; by rewrite ?H1, ?H2, ?H3. Qed.

Lemma untouched_then w w' w'' : untouched w w' → keeps_hooks w' w'' → keeps_hooks w w''.
Proof. intros H1 H2 H. by apply H2, (untouched_wf w). Qed.

Lemma form_events_ok seen values l :
  form_events seen values = Some l → NoDup l ∧ Forall (λ c, ValidCategory c = true) l ∧ ∀ c, c ∈ l → c ∉ seen.
Proof.
  revert seen l. induction values as [|c values IH]; intros seen l; cbn -[ValidCategory].
  { intros [= <-]. split; [constructor|]. split; [constructor|]. by intros c ?%elem_of_nil. }
  destruct (decide (trim_space c = "")); [apply IH|]. destruct (ValidCategory (trim_space c)) eqn:Hc; [|done]. cbn [negb].
  destruct (decide (trim_space c ∈ seen)); [apply IH|].
  destruct (form_events (trim_space c :: seen) values) as [k|] eqn:Hk; [|done]. intros [= <-].
  destruct (IH _ _ Hk) as (Hnd & Hall & Hs). split_and!.
  - constructor; [|done]. intros Hin. apply (Hs _ Hin). apply elem_of_cons. by left.
  - by constructor.
  - intros x [->|Hx]%elem_of_cons; [done|]. intros Hin. apply (Hs x Hx). apply elem_of_cons. by right.
Qed.

Definition input_ok (i : WebhookInput) : Prop :=
  (∃ raw, ValidateURL printable raw = Ok (wi_URL i)) ∧ NoDup (wi_Events i) ∧ Forall (λ c, ValidCategory c = true) (wi_Events i).

Lemma parseWebhookForm_ok form i raw : parseWebhookForm printable form = Ok (i, raw) → input_ok i.
Proof.
  unfold parseWebhookForm. destruct (decide _); [done|]. destruct (ValidateURL _ _) as [url|] eqn:Hurl; [|done].
  destruct (form_events _ _) as [events|] eqn:He; [|done]. intros [= <- _].
  apply form_events_ok in He as (Hnd & Hall & _). split; [by eexists|done].
Qed.

Lemma filter_wf w w' (f : DeliveryRow → Prop) `{∀ d, Decision (f d)} :
  is_hooks (w_inv w') ⊆ is_hooks (w_inv w) → is_deliveries (w_inv w') = filter f (is_deliveries (w_inv w)) →
  is_next (w_inv w') = is_next (w_inv w) →
  (∀ d, f d → is_Some (is_hooks (w_inv w) !! dl_Webhook d) → is_Some (is_hooks (w_inv w') !! dl_Webhook d)) →
  keeps_hooks w w'.
Proof.
  intros Hsub Hd Hn Hkeep [Hr Hrefs Hids Hnext]. split.
  - intros id r Hid. apply (Hr id). by eapply lookup_weaken.
  - rewrite Hd. intros d [Hf Hin]%list_elem_of_filter. by apply Hkeep, Hrefs.
  - rewrite Hd. eapply sublist_NoDup; [exact Hids|]. apply fmap_sublist, sublist_filter.
  - rewrite Hd, Hn. intros d [Hf Hin]%list_elem_of_filter. by apply Hnext.
Qed.

(** A row is put; none goes. *)
Lemma put_wf w w' id row :
  row_ok row → is_hooks (w_inv w') = <[id := row]> (is_hooks (w_inv w)) →
  is_deliveries (w_inv w') = is_deliveries (w_inv w) → is_next (w_inv w') = is_next (w_inv w) → keeps_hooks w w'.
Proof.
  intros Hok Hh Hd Hn [Hr Hrefs Hids Hnext]. split; rewrite ?Hh, ?Hd, ?Hn; [by apply map_Forall_insert_2|..|done|done].
  intros d Hin. destruct (decide (id = dl_Webhook d)) as [<-|Hne]; [by rewrite lookup_insert_eq; eexists|].
  rewrite lookup_insert_ne by done. by apply Hrefs.
Qed.

(** ** Every operation keeps them *)

Context {env : Env} {app : App} (Post : nat → string → list (string * string) → string → result string Z).

#[local] Abbreviation kept := (guarantees keeps_hooks).

Lemma kept_stmt {A} (f : Z → World Installation → result db_error (A * World Installation)) :
  (∀ now w a w', f now w = Ok (a, w') → keeps_hooks w w') → kept (stmt f).
Proof. intros Hf. apply stmt_steps; [apply untouched_wf|done|apply untouched_then]. Qed.

Lemma CreateWebhook_keeps input : input_ok input → kept (CreateWebhook input).
Proof.
  intros Hi. apply guarantees_bind; [apply random_untouched, untouched_wf|]. intros [id|e]; [|done].
  apply guarantees_bind; [|intros [u|e]; [apply GetWebhook_untouched, untouched_wf|done]].
  apply kept_stmt. intros now w a w'. case_bool_decide; [done|]. intros [= <- <-]. eapply put_wf; [|reflexivity..]. exact Hi.
Qed.

Lemma UpdateWebhook_keeps id input : input_ok input → kept (UpdateWebhook id input).
Proof.
  intros Hi. apply guarantees_bind; [|intros [u|e]; [apply GetWebhook_untouched, untouched_wf|done]].
  apply kept_stmt. intros now w a w'. destruct (_ !! id) as [r|]; [|done]. intros [= <- <-]. eapply put_wf; [|reflexivity..]. exact Hi.
Qed.

Lemma DeleteWebhook_keeps id : kept (DeleteWebhook id).
Proof.
  apply kept_stmt. intros now w a w'. case_bool_decide; [done|]. intros [= <- <-].
  eapply (filter_wf _ _ (λ d, dl_Webhook d ≠ id)); [apply delete_subseteq|done..|].
  intros d Hd Hs. cbn. by rewrite lookup_delete_ne.
Qed.

Lemma insert_delivery_keeps d now w a w' : insert_delivery d now w = Ok (a, w') → keeps_hooks w w'.
Proof.
  unfold insert_delivery. case_bool_decide as Hh; [done|]. destruct (negb _); [done|]. intros [= <- <-] [Hr Hrefs Hids Hnext].
  split; [done|..]; cbn.
  - intros x [Hx| ->%list_elem_of_singleton]%elem_of_app; [by apply Hrefs|]. by apply not_eq_None_Some.
  - rewrite map_app. apply NoDup_app. split; [done|]. split; [|cbn; apply NoDup_singleton].
    intros x (y & -> & Hy)%list_elem_of_fmap Heq%list_elem_of_singleton. apply Hnext in Hy. cbn in Heq. lia.
  - intros x [Hx| ->%list_elem_of_singleton]%elem_of_app; [apply Hnext in Hx; lia|cbn; lia].
Qed.

Lemma RecordWebhookDelivery_keeps d : kept (RecordWebhookDelivery d).
Proof.
  apply guarantees_bind; [apply kept_stmt, insert_delivery_keeps|]. intros [u|e]; [|done].
  apply kept_stmt. intros now w a w'. intros [= <- <-]. by eapply (filter_wf _ _ _).
Qed.

Lemma send_record_keeps {A} wh e body (k : WebhookDelivery → Go Installation A) :
  (∀ d, kept (k d)) → kept (d ←! send Post wh e body; k d).
Proof. intros Hk. apply guarantees_bind; [by apply atomic_untouched; [apply untouched_wf|]|done]. Qed.

Lemma record_keeps d : kept (record d).
Proof. apply guarantees_bind; [apply RecordWebhookDelivery_keeps|done]. Qed.

Lemma deliver_keeps e : kept (deliver Post e).
Proof.
  apply guarantees_bind; [apply read_untouched, untouched_wf|]. intros [hooks|]; [|done]. destruct (event_json e) as [body|]; [|done].
  apply guarantees_for_each. intros wh. unfold deliver_to. destruct (matches _ _); [|done].
  apply send_record_keeps, record_keeps.
Qed.

Lemma TestDeliver_keeps id : kept (TestDeliver Post id).
Proof.
  apply guarantees_bind; [apply GetWebhook_untouched, untouched_wf|]. intros [wh|]; [|done].
  apply guarantees_bind; [by apply atomic_untouched; [apply untouched_wf|]|]. intros now.
  destruct (event_json _); [|done]. apply send_record_keeps. intros d.
  apply guarantees_bind; [apply record_keeps|done].
Qed.

(** Webhooks that the form accepted, a log whose entries refer to them, and serial
    numbers that are never used twice: every page of webhooks, the deliveries and the
    tests keep them, whatever runs between the statements. *)
Theorem webhooks_integrity :
  (∀ r, kept (settingsNotifications r)) ∧ (∀ r, kept (webhookCreate printable r)) ∧ (∀ r, kept (webhookUpdate printable r)) ∧
  (∀ r, kept (webhookDeleteConfirm r)) ∧ (∀ r, kept (webhookDelete r)) ∧ (∀ r, kept (webhookTest Post r)) ∧
  (∀ e, kept (deliver Post e)) ∧ kept Refresh.
Proof.
  pose proof untouched_wf as Hu.
  assert (∀ form e n, kept (renderNotificationsTab form e n)) as Hrender by (intros; by apply renderNotificationsTab_untouched).
  assert (∀ r next, (∀ s wh, kept (next s wh)) → kept (loadWebhookPage r (λ s wh, with_csrf r s (next s wh)))) as Hload.
  { intros r next Hn. apply loadWebhookPage_steps; [done|]. intros. by apply with_csrf_steps. }
  split; [|split; [|split; [|split; [|split; [|split; [|split]]]]]].
  - intros r. apply with_admin_steps; [done|]. intros s. apply Hrender.
  - intros r. apply with_admin_steps; [done|]. intros s. apply with_csrf_steps, with_form_steps.
    destruct (parseWebhookForm _ _) as [[input raw]|message] eqn:Hp; [|apply Hrender]. apply parseWebhookForm_ok in Hp.
    apply guarantees_bind; [by apply sealWebhookSecret_untouched|]. intros sealed.
    apply guarantees_bind; [by apply CreateWebhook_keeps|]. intros [wh|]; [by apply hook_changed_untouched|apply Hrender].
  - intros r. apply Hload. intros s wh. apply with_form_steps.
    destruct (parseWebhookForm _ _) as [[input raw]|message] eqn:Hp; [|apply Hrender]. apply parseWebhookForm_ok in Hp.
    apply guarantees_bind; [by apply new_secret_untouched|]. intros sealed.
    apply guarantees_bind; [by apply UpdateWebhook_keeps|]. intros [u|]; [by apply hook_changed_untouched|apply Hrender].
  - intros r. by apply loadWebhookPage_steps.
  - intros r. apply Hload. intros s wh. apply guarantees_bind; [apply DeleteWebhook_keeps|].
    intros [u|]; [by apply hook_changed_untouched|done].
  - intros r. apply Hload. intros s wh. apply guarantees_bind; [apply TestDeliver_keeps|].
    intros [d|]; [|done]. apply guarantees_bind; [by apply hooked_log_untouched|done].
  - apply deliver_keeps.
  - by apply Refresh_untouched.
Qed.
End wf.

(** ** The log of a webhook *)

(** The deliveries of a webhook, newest first. *)
Definition log (id : string) (w : World Installation) : list DeliveryRow :=
  rev (filter (λ d, dl_Webhook d = id) (is_deliveries (w_inv w))).

Definition row_of (d : WebhookDelivery) (serial now : Z) : DeliveryRow :=
  MkDeliveryRow serial (de_WebhookID d) (de_EventType d) (de_Status d) (de_StatusCode d) (de_Error d) now.

Lemma filter_last {A B} (f : A → B) `{EqDecision B} n (l : list A) :
  NoDup (map f l) → filter (λ x, f x ∈ map f (take n (rev l))) l = rev (take n (rev l)).
Proof.
  intros Hnd. set (k := drop n (rev l)). set (t := take n (rev l)).
  assert (l = rev k ++ rev t) as Hl by (unfold k, t; by rewrite <- rev_app_distr, take_drop, rev_involutive).
  assert (∀ x, x ∈ rev t → f x ∈ map f t) as Hin.
  { intros x Hx%list_elem_of_In%in_rev%list_elem_of_In. by apply list_elem_of_fmap_2. }
  assert (∀ x, x ∈ rev k → f x ∉ map f t) as Hout.
  { intros x Hx (y & Hy & Hyt)%list_elem_of_fmap. rewrite Hl, map_app in Hnd. apply NoDup_app in Hnd as (_ & Hd & _).
    apply (Hd (f x)); [by apply list_elem_of_fmap_2|]. rewrite Hy. apply list_elem_of_fmap_2.
    by apply list_elem_of_In, in_rev; rewrite rev_involutive; apply list_elem_of_In. }
  rewrite Hl at 1. rewrite filter_app. clearbody k t. clear Hnd Hl.
  assert (filter (λ x, f x ∈ map f t) (rev k) = []) as ->.
  { induction (rev k) as [|x l' IH]; [done|]. rewrite filter_cons_False by (apply Hout; by left). apply IH.
    intros y Hy. apply Hout. by right. }
  cbn [app]. induction (rev t) as [|x l' IH]; [done|]. rewrite filter_cons_True by (apply Hin; by left). f_equal. apply IH.
  intros y Hy. apply Hin. by right.
Qed.

Lemma filter_pruned id l :
  NoDup (map dl_ID l) → rev (filter (λ d, dl_Webhook d = id) (pruned id l)) = newest id l.
Proof.
  intros Hnd. unfold pruned. rewrite list_filter_filter.
  set (g := filter (λ d, dl_Webhook d = id) l).
  transitivity (rev (filter (λ d, dl_ID d ∈ map dl_ID (newest id l)) g)).
  - f_equal. unfold g. rewrite list_filter_filter. apply list_filter_iff. intros d. tauto.
  - unfold newest. fold g. rewrite filter_last, rev_involutive; [done|].
    eapply sublist_NoDup; [exact Hnd|]. apply fmap_sublist, sublist_filter.
Qed.

Lemma filter_pruned_other id id' l : id' ≠ id →
  filter (λ d, dl_Webhook d = id') (pruned id l) = filter (λ d, dl_Webhook d = id') l.
Proof.
  intros Hne. unfold pruned. rewrite list_filter_filter. apply list_filter_iff. intros d. split; [by intros [? _]|].
  intros <-. split; [done|]. by left.
Qed.

(** ** Deliveries *)

Section deliveries.
Context (printable : Z → bool) {env : Env} {app : App}
        (Post : nat → string → list (string * string) → string → result string Z).
Context (Hcalm : ∀ n, fault n = false) (Hperm : ∀ A f (l : list A), by_name A f l ≡ₚ l)
        (Hstatus : ∀ n url h b code, Post n url h b = Ok code → int4 code = true).

Lemma calm_stmt {A} (f : Z → World Installation → result db_error (A * World Installation)) w :
  alone (stmt f) w = match f (timestamptz (clock (w_step w))) (bump w) with Ok (a, w') => (Ok a, w') | Err e => (Err e, bump w) end.
Proof using Hcalm. unfold stmt. rewrite alone_atomic. unfold run_stmt. by rewrite Hcalm. Qed.

Lemma RecordWebhookDelivery_alone d w :
  hooks_wf printable w → is_Some (is_hooks (w_inv w) !! de_WebhookID d) → int4 (de_StatusCode d) = true →
  ∃ serial now w', alone (RecordWebhookDelivery d) w = (Ok (), w') ∧ is_hooks (w_inv w') = is_hooks (w_inv w) ∧
    log (de_WebhookID d) w' = take webhookDeliveryCap (row_of d serial now :: log (de_WebhookID d) w) ∧
    ∀ id, id ≠ de_WebhookID d → log id w' = log id w.
Proof using Hcalm.
  intros Hwf Hd Hc. set (now := timestamptz (clock (w_step w))). set (serial := is_next (w_inv w)).
  assert (∃ w1, insert_delivery d now (bump w) = Ok ((), w1) ∧
    is_deliveries (w_inv w1) = is_deliveries (w_inv w) ++ [row_of d serial now] ∧ is_hooks (w_inv w1) = is_hooks (w_inv w)) as (w1 & Hi & Hl & Hh).
  { unfold insert_delivery. rewrite bool_decide_eq_false_2 by by apply not_eq_None_Some. rewrite Hc. by eexists. }
  assert (hooks_wf printable w1) as Hwf1
    by (apply (insert_delivery_keeps printable d now (bump w) () w1 Hi); by apply (untouched_wf printable w)).
  exists serial, now, (edit_install (λ x, put_deliveries (pruned (de_WebhookID d) (is_deliveries x)) (is_next x) x) (bump w1)).
  split; [|split; [|split]].
  - unfold RecordWebhookDelivery. rewrite alone_try, calm_stmt. fold now. rewrite Hi. by rewrite calm_stmt.
  - exact Hh.
  - unfold log at 1. cbn [edit_install with_inv w_inv put_deliveries is_deliveries bump].
    rewrite filter_pruned by apply Hwf1. unfold newest. rewrite Hl, filter_app, rev_app_distr.
    rewrite (filter_cons_True _ (row_of d serial now)) by done. done.
  - intros id Hne. unfold log. cbn [edit_install with_inv w_inv put_deliveries is_deliveries bump].
    rewrite filter_pruned_other by done. rewrite Hl, filter_app, filter_cons_False, app_nil_r by (cbn; congruence). done.
Qed.

Lemma delivery_facts wh e answer :
  (∀ code, answer = Ok code → int4 code = true) → de_WebhookID (delivery wh e answer) = wh_ID wh ∧ int4 (de_StatusCode (delivery wh e answer)) = true.
Proof using Type. intros Ha. destruct answer as [code|text]; cbn; [|done]. destruct (_ && _); cbn; split; auto. Qed.

(** What a webhook's log gained. *)
Definition received (e : Event) (body : string) (wh : Webhook) (old new : list DeliveryRow) : Prop :=
  ∃ n serial now,
    new = take webhookDeliveryCap (row_of (delivery wh e (Post n (wh_URL wh) (headers wh e body) body)) serial now :: old).

Lemma for_each_deliver e body l w :
  hooks_wf printable w → NoDup (map wh_ID l) → (∀ wh, wh ∈ l → is_Some (is_hooks (w_inv w) !! wh_ID wh)) →
  let w' := (alone (for_each (deliver_to Post e body) l) w).2 in
  is_hooks (w_inv w') = is_hooks (w_inv w) ∧
  (∀ wh, wh ∈ l → matches (wh_Events wh) (ev_Category e) = true → received e body wh (log (wh_ID wh) w) (log (wh_ID wh) w')) ∧
  (∀ id, (∀ wh, wh ∈ l → wh_ID wh = id → matches (wh_Events wh) (ev_Category e) = false) → log id w' = log id w).
Proof using Hcalm Hstatus.
  revert w. induction l as [|wh l IH]; intros w Hwf Hnd Hl w'; unfold w'; clear w'.
  { split; [done|]. split; [|done]. by intros wh ?%elem_of_nil. }
  cbn [for_each]. rewrite alone_bind. apply NoDup_cons in Hnd as [Hnin Hnd].
  assert (∃ w1, alone (deliver_to Post e body wh) w = ((), w1) ∧ is_hooks (w_inv w1) = is_hooks (w_inv w) ∧ hooks_wf printable w1 ∧
    (matches (wh_Events wh) (ev_Category e) = true → received e body wh (log (wh_ID wh) w) (log (wh_ID wh) w1)) ∧
    (∀ id, (id ≠ wh_ID wh ∨ matches (wh_Events wh) (ev_Category e) = false) → log id w1 = log id w)) as (w1 & -> & Hh & Hwf1 & Hr & Ho).
  { unfold deliver_to. destruct (matches _ _); [|by exists w; rewrite alone_ret].
    rewrite alone_bind. unfold send. rewrite alone_atomic. cbn [fst snd].
    assert (hooks_wf printable (bump w)) as Hwf' by by apply (untouched_wf printable w).
    set (d := delivery _ _ _). destruct (delivery_facts wh e _ (Hstatus (w_step w) (wh_URL wh) (headers wh e body) body)) as [Hid Hcode].
    fold d in Hid, Hcode. unfold record. rewrite alone_bind.
    destruct (RecordWebhookDelivery_alone d (bump w)) as (serial & now & w1 & Hrec & Hh & Hlog & Hother);
      [done|rewrite Hid; apply Hl; by left|done|].
    pose proof (guarantees_exec (keeps_hooks printable) _ quiet 0 (bump w) (RecordWebhookDelivery_keeps printable d)) as Hk.
    fold (alone (RecordWebhookDelivery d) (bump w)) in Hk. rewrite Hrec in Hk |- *. rewrite alone_ret. exists w1.
    split; [done|]. split; [done|]. split; [exact (Hk (λ _ _ H, H) Hwf')|]. rewrite Hid in Hlog, Hother. split.
    - intros _. exists (w_step w), serial, now. exact Hlog.
    - intros id [Hne|]; [by apply Hother|done]. }
  cbn [fst snd]. destruct (IH w1) as (Hh' & Hr' & Ho'); [done|done|intros x Hx; rewrite Hh; apply Hl; by right|].
  split; [by rewrite Hh'|]. split.
  - intros x [->|Hx]%elem_of_cons Hm.
    + rewrite Ho'; [by apply Hr|]. intros y Hy Heq. destruct Hnin. rewrite <- Heq. by apply list_elem_of_fmap_2.
    + rewrite <- (Ho (wh_ID x)); [by apply Hr'|]. left. intros Heq. apply Hnin. rewrite <- Heq. by apply list_elem_of_fmap_2.
  - intros id Hno. rewrite Ho' by (intros y Hy; apply Hno; by right). apply Ho.
    destruct (decide (id = wh_ID wh)) as [->|]; [right; apply Hno; [by left|done]|by left].
Qed.

End deliveries.

(** ** Examples *)

Definition ipam_hook : WebhookRow := MkWebhookRow "wiki" "https://wiki.example/hook" "" ["ipam"] true 0 0.
Definition security_hook : WebhookRow := MkWebhookRow "siem" "https://siem.example/in" "" ["security"] true 0 0.
Definition hooks_world : World Installation :=
  edit_install (λ x, put_hooks {["h1" := ipam_hook; "h2" := security_hook]}
    (put_deliveries [MkDeliveryRow 1 "h1" "webhook.test" "failed" 0 "dial tcp: i/o timeout" 5] 2 x)) demo_install.
Definition no_content : nat → string → list (string * string) → string → result string Z := λ _ _ _ _, Ok 204.
Definition created_event : Event := MkEvent "subnet.created" "ipam" "subnet" "n" "a" None instance_name 0.

Lemma hooks_world_wf : hooks_wf (λ _, true) hooks_world.
Proof.
  assert (∀ u es, (ValidateURL (λ _, true) u = Ok u ∧ NoDup es ∧ Forall (λ c, ValidCategory c = true) es) →
    row_ok (λ _, true) (MkWebhookRow "" u "" es true 0 0)) as Hok by (intros u es (Hu & ?); split; [by exists u|done]).
  split; cbn [w_inv edit_install with_inv hooks_world is_hooks put_hooks put_deliveries is_deliveries is_next].
  - apply map_Forall_insert_2; [|apply map_Forall_insert_2; [|apply map_Forall_empty]].
    + refine (Hok "https://wiki.example/hook" ["ipam"] _). split; [vm_compute; reflexivity|].
      split; [apply NoDup_singleton|]. by apply Forall_singleton.
    + refine (Hok "https://siem.example/in" ["security"] _). split; [vm_compute; reflexivity|].
      split; [apply NoDup_singleton|]. by apply Forall_singleton.
  - intros d ->%list_elem_of_singleton. by exists ipam_hook.
  - apply NoDup_singleton.
  - intros d ->%list_elem_of_singleton. cbn. lia.
Qed.


(** ** Secrets *)

(** A blank secret in the form changes no stored secret. *)
Definition keeps_secrets (w w' : World Installation) : Prop :=
  ∀ id, wr_SecretSealed <$> is_hooks (w_inv w') !! id = wr_SecretSealed <$> is_hooks (w_inv w) !! id.

Theorem blank_secret_keeps {env : Env} {app : App} printable r :
  trim_space (form_get (rq_PostForm r) "secret") = "" → guarantees keeps_secrets (webhookUpdate printable r).
Proof.
  intros Hs. assert (∀ w w', untouched w w' → keeps_secrets w w') as Hu by (intros w w' (Hh & _) id; by rewrite Hh).
  apply loadWebhookPage_steps; [done|]. intros s wh. apply with_csrf_steps, with_form_steps.
  destruct (parseWebhookForm _ _) as [[input raw]|message] eqn:Hp; [|by apply renderNotificationsTab_untouched].
  assert (raw = "") as ->.
  { revert Hp. unfold parseWebhookForm. rewrite Hs. destruct (decide _); [done|]. destruct (ValidateURL _ _); [|done].
    destruct (form_events _ _); [|done]. by intros [= _ <-]. }
  unfold new_secret. rewrite decide_True by done. rewrite prog_bind_ret.
  apply guarantees_bind; [|intros [u|]; [by apply hook_changed_untouched|by apply renderNotificationsTab_untouched]].
  apply guarantees_bind; [|intros [u|]; [by apply GetWebhook_untouched|done]].
  apply stmt_steps; [done|..].
  - intros now w a w'. destruct (_ !! wh_ID wh) as [row|] eqn:Hrow; [|done]. intros [= <- <-] id. cbn.
    destruct (decide (id = wh_ID wh)) as [->|Hne]; [|by rewrite lookup_insert_ne].
    rewrite lookup_insert_eq, Hrow. done.
  - intros w w' w'' H1%Hu H2 id. by rewrite H2.
Qed.

(** The receiver who was given the secret can check every delivery: what the form
    sealed opens to the key of the signature. *)
Theorem sealed_secret_signs {env : Env} {app : App} (c : AEAD) nonce secret token wh body :
  sealer = Some c → AEADLaws c → (∀ n, nonce = Some n → length n = NonceSize c ∧ Forall is_byte n) →
  secret ≠ "" → Seal c nonce secret = Some token → wh_SecretSealed wh = token →
  signature wh body = [("X-LightIPAM-Signature", "sha256=" +:+ sign secret body)].
Proof.
  intros Hc Hl Hn Hne Hs Hw. unfold signature. rewrite Hc, Hw, decide_False, (Open_Seal c nonce secret token Hl Hn Hs); [done|].
  intros ->. revert Hs. unfold Seal. rewrite decide_False by done. destruct nonce; [|done]. done.
Qed.
