(* ===== verification/Oidc.v ===== *)
(** * Single sign-on

    [internal/app/oidc_settings.go] and [internal/app/oidc.go]: the settings of the
    authentication tab, the authorization-code flow and the local account behind an
    identity. The identity provider is reached through a library; what it answers at
    a step is a parameter. *)

From S2P Require Import Prelude GoStrings GoTime Secrets Json Protocol Process Scans Queue Inventory Import Portability Lockout Password Accounts Web Signin Users Pages Batch Endpoints Config Events Install Settings.
Local Open Scope Z_scope.

(** ** Settings *)

Definition settingOIDCEnabled : string := "oidc_enabled".
Definition settingOIDCIssuer : string := "oidc_issuer".
Definition settingOIDCClientID : string := "oidc_client_id".
Definition settingOIDCClientSecret : string := "oidc_client_secret_sealed".
Definition settingOIDCBaseURL : string := "oidc_base_url".
Definition settingOIDCUsernameClaim : string := "oidc_username_claim".
Definition settingOIDCAutoProvision : string := "oidc_auto_provision".

Definition trim_slashes : string → string := trim_right_func (λ c, bool_decide (c = "/"%char)).

Definition redirectURL (s : OIDCSettings) : string :=
  let base := trim_slashes (oi_BaseURL s) in
  if decide (base = "") then "" else base +:+ "/auth/oidc/callback".

Definition configured (s : OIDCSettings) : bool :=
  oi_Enabled s && bool_decide (oi_Issuer s ≠ "") && bool_decide (oi_ClientID s ≠ "") && bool_decide (oi_BaseURL s ≠ "").

Definition boolString (b : bool) : string := if b then "true" else "false".

Definition oidc_map (s : OIDCSettings) (sealedSecret : string) : gmap string string :=
  list_to_map [(settingOIDCEnabled, boolString (oi_Enabled s)); (settingOIDCIssuer, oi_Issuer s);
    (settingOIDCClientID, oi_ClientID s); (settingOIDCClientSecret, sealedSecret); (settingOIDCBaseURL, oi_BaseURL s);
    (settingOIDCUsernameClaim, oi_UsernameClaim s); (settingOIDCAutoProvision, boolString (oi_AutoProvision s))].

Definition oidcFormValues (s : OIDCSettings) : gmap string string :=
  list_to_map ([("oidc_issuer", oi_Issuer s); ("oidc_client_id", oi_ClientID s); ("oidc_base_url", oi_BaseURL s);
    ("oidc_username_claim", oi_UsernameClaim s)] ++ ticked "oidc_enabled" (oi_Enabled s) ++
    ticked "oidc_auto_provision" (oi_AutoProvision s) ++
    (if decide (oi_ClientSecret s = "") then [] else [("oidc_secret_set", "1")])).

Definition validHTTPSURL (raw : string) : bool :=
  match Parse raw with
  | Some u => bool_decide (ur_Scheme u = "https") && bool_decide (ur_Host u ≠ "")
  | None => false
  end.
Definition validHTTPURL (raw : string) : bool :=
  match Parse raw with
  | Some u => (bool_decide (ur_Scheme u = "http") || bool_decide (ur_Scheme u = "https")) && bool_decide (ur_Host u ≠ "")
  | None => false
  end.

Definition or_preferred (claim : string) : string := if decide (claim = "") then "preferred_username" else claim.

Definition parseOIDCSettingsForm (form : gmap string (list string)) : result string OIDCSettings :=
  let issuer := trim_space (form_get form "oidc_issuer") in
  let clientID := trim_space (form_get form "oidc_client_id") in
  let baseURL := trim_space (form_get form "oidc_base_url") in
  let parsed := MkOIDCSettings (form_set form "oidc_enabled") (trim_slashes issuer) clientID (form_get form "oidc_client_secret")
    (trim_slashes baseURL) (or_preferred (trim_space (form_get form "oidc_username_claim"))) (form_set form "oidc_auto_provision") in
  if negb (oi_Enabled parsed) then Ok parsed
  else if decide (issuer = "" ∨ clientID = "" ∨ baseURL = "") then
    Err "Issuer URL, client ID, and base URL are required to enable SSO."
  else if negb (validHTTPSURL issuer) then Err "Issuer must be an https:// URL."
  else if negb (validHTTPURL baseURL) then Err "Base URL must be an http(s):// URL."
  else Ok parsed.

Definition submittedAuthForm (form : gmap string (list string)) : gmap string string :=
  list_to_map (map (λ n, (n, trim_space (form_get form n)))
      ["oidc_issuer"; "oidc_client_id"; "oidc_base_url"; "oidc_username_claim"] ++
    ticked "oidc_enabled" (form_set form "oidc_enabled") ++ ticked "oidc_auto_provision" (form_set form "oidc_auto_provision")).

(** ** Claims *)

Definition claim_text (claims : gmap string json) (key : string) : option string :=
  match claims !! key with Some (JString v) => Some v | _ => None end.

(** The part of an address before its [@], unless that is empty. *)
Definition local_part (v : string) : string :=
  match cut_byte "@"%char v with Some (name, _) => if decide (name = "") then v else name | None => v end.

(** What one key gives; the empty text is no name. *)
Definition username_from (claims : gmap string json) (key : string) : option string :=
  if decide (key = "") then None
  else
    v ← claim_text claims key;
    let v := trim_space v in
    nonempty (if decide (key = "email") then local_part v else v).

Definition oidcUsername (claims : gmap string json) (usernameClaim : string) : string :=
  match omap (username_from claims) [usernameClaim; "preferred_username"; "email"] with
  | v :: _ => v
  | [] => trim_space (default "" (claim_text claims "sub"))
  end.

Definition oidcDisplayName (claims : gmap string json) (username : string) : string :=
  default username (claim_text claims "name" ≫= λ v, nonempty (trim_space v)).

Example oidcUsername_1 :
  oidcUsername {["email" := JString "ann@corp.example"; "sub" := JString "42"; "preferred_username" := JInt 7]} "upn" = "ann".
Proof. vm_compute. reflexivity. Qed.
Example oidcUsername_2 : oidcUsername {["email" := JString "@corp"; "sub" := JString "42"]} "" = "@corp".
Proof. vm_compute. reflexivity. Qed.

Section oidc.
Context {env : Env} {app : App} (cfg : Config).

Definition defaultOIDCSettings : OIDCSettings :=
  MkOIDCSettings (OIDCEnabled cfg) (OIDCIssuer cfg) (OIDCClientID cfg) (OIDCClientSecret cfg) (OIDCBaseURL cfg)
    (or_preferred (OIDCUsernameClaim cfg)) (OIDCAutoProvision cfg).

(** The secret, when one is stored and can be opened. *)
Definition stored_secret (stored : gmap string string) : option string :=
  sealed ← stored !! settingOIDCClientSecret;
  if decide (sealed = "") then None else s ← sealer; Open s sealed.

Definition mergeOIDCSettings (stored : gmap string string) : OIDCSettings :=
  let s := defaultOIDCSettings in
  let flag key b := match stored !! key with Some v => bool_decide (v = "true") | None => b end in
  MkOIDCSettings (flag settingOIDCEnabled (oi_Enabled s)) (default (oi_Issuer s) (stored !! settingOIDCIssuer))
    (default (oi_ClientID s) (stored !! settingOIDCClientID)) (default (oi_ClientSecret s) (stored_secret stored))
    (default (oi_BaseURL s) (stored !! settingOIDCBaseURL))
    (match stored !! settingOIDCUsernameClaim with
     | Some v => if decide (v = "") then oi_UsernameClaim s else v
     | None => oi_UsernameClaim s
     end)
    (flag settingOIDCAutoProvision (oi_AutoProvision s)).

(** ** The authentication tab *)

Definition with_redirect (form : gmap string string) : gmap string string :=
  let base := trim_slashes (default "" (form !! "oidc_base_url")) in
  if decide (base = "") then form else <["oidc_redirect_url" := base +:+ "/auth/oidc/callback"]> form.
Definition renderAuthTab (form : gmap string string) (errMsg notice : string) : Go Installation Response :=
  answer (Dialog "settings.html" "Settings" errMsg notice (map_to_list (with_redirect form))).

Definition settingsAuthentication : Service := λ r,
  with_admin r (λ _,
    s ←! oidcSettings;
    renderAuthTab (oidcFormValues s) "" (notice_of r [("saved", "Authentication settings saved.")])).

Definition with_client_secret (secret : string) (s : OIDCSettings) : OIDCSettings :=
  MkOIDCSettings (oi_Enabled s) (oi_Issuer s) (oi_ClientID s) secret (oi_BaseURL s) (oi_UsernameClaim s) (oi_AutoProvision s).

(** The settings with the secret in force and its sealed form; [None] when the new
    secret cannot be sealed. A failure to read the stored settings is ignored. *)
Definition sealed_settings (c : AEAD) (parsed : OIDCSettings) : Go Installation (option (OIDCSettings * string)) :=
  stored ←! lift (zoom GetAppSettings);
  let existing := default "" ((match stored with Ok m => m | Err _ => ∅ end : gmap string string) !! settingOIDCClientSecret) in
  if decide (oi_ClientSecret parsed = "") then
    Ret (Some (if decide (existing = "") then parsed else with_client_secret (default "" (Open c existing)) parsed, existing))
  else
    nonce ←! atomic (λ w, (random_bytes (w_step w), bump w));
    Ret (match Seal c nonce (oi_ClientSecret parsed) with Some sealed => Some (parsed, sealed) | None => None end).

Definition settingsAuthenticationUpdate : Service := λ r,
  with_admin r (λ session, with_csrf r session (
    match sealer return Go Installation Response with
    | None =>
        renderAuthTab (submittedAuthForm (rq_PostForm r)) "Single sign-on needs an encryption key (APP_ENCRYPTION_KEY/APP_SECRET)." ""
    | Some c => with_form r (
        match parseOIDCSettingsForm (rq_PostForm r) with
        | Err message => renderAuthTab (submittedAuthForm (rq_PostForm r)) message ""
        | Ok parsed =>
            sealed ←! sealed_settings c parsed;
            match sealed with
            | None => renderAuthTab (submittedAuthForm (rq_PostForm r)) "Unable to secure the client secret." ""
            | Some (parsed, sealedSecret) =>
                if oi_Enabled parsed && bool_decide (oi_ClientSecret parsed = "")
                then renderAuthTab (submittedAuthForm (rq_PostForm r)) "A client secret is required to enable SSO." ""
                else
                  saved ←! lift (zoom (SetAppSettings (oidc_map parsed sealedSecret)));
                  match saved with
                  | Err _ => renderAuthTab (submittedAuthForm (rq_PostForm r)) save_failed ""
                  | Ok _ =>
                      _ ←! setOIDC parsed;
                      _ ←! hooked_auditMeta (actor session) "settings.authentication.updated" "settings" "authentication"
                             {["enabled" := boolString (oi_Enabled parsed); "issuer" := oi_Issuer parsed]};
                      answer (Redirect "/settings/authentication?notice=saved")
                  end
            end
        end)
    end)).

(** ** The account behind an identity *)

(** [auth.HashPassword], with the salt of the moment. *)
Definition sso_hash (password : string) : GoE Database string :=
  hash ←! hash_password password; Ret (match hash with Some h => Ok h | None => Err ErrToken end).

(** [None] for a rejected login. *)
Definition resolveOIDCLogin (s : OIDCSettings) (subject : string) (claims : gmap string json) : Go Database (option User) :=
  if decide (subject = "") then Ret None
  else
    bound ←! FindUserByOIDCSubject subject;
    match bound with
    | Ok user => Ret (Some user)
    | Err ErrNotFound =>
        let username := oidcUsername claims (oi_UsernameClaim s) in
        if decide (username = "") then Ret None
        else
          named ←! FindUserByUsername username;
          match named with
          | Ok user =>
              linked ←! LinkOIDCSubject (u_ID user) subject;
              Ret (match linked with Ok _ => Some user | Err _ => None end)
          | Err ErrNotFound =>
              if negb (oi_AutoProvision s) then Ret None
              else
                created ←! CreateSSOUser sso_hash username (oidcDisplayName claims username) RoleViewer subject;
                Ret (match created with Ok user => Some user | Err _ => None end)
          | Err _ => Ret None
          end
    | Err _ => Ret None
    end.

(** ** The flow *)

Definition oidcStateCookie : string := "lightipam_oidc".
Definition oidcStateTTL : Z := 10 * minute.

(** An ID token that was verified; [None] when its claims cannot be read. *)
Record IDToken : Type := MkIDToken { it_Subject : string; it_Nonce : string; it_Claims : option (gmap string json) }.

(** What the libraries do at a step: discovering an issuer, drawing a PKCE verifier,
    the address of the provider's page, exchanging a code for the raw ID token, if the
    answer holds one, and verifying it. *)
Context (NewProvider : nat → string → bool) (GenerateVerifier : nat → string)
        (AuthCodeURL : nat → oidcProvider → string → string → string → string)
        (Exchange : nat → oidcProvider → string → string → option (option string))
        (Verify : nat → oidcProvider → string → option IDToken).

Definition buildOIDCProvider (s : OIDCSettings) : Go Installation (option oidcProvider) :=
  atomic (λ w, (if NewProvider (w_step w) (oi_Issuer s)
                then Some (MkProvider (oi_Issuer s) (oi_ClientID s) (redirectURL s) (oi_ClientSecret s)) else None, bump w)).

(** The cached provider fits the settings; the secret is not compared. *)
Definition fits (s : OIDCSettings) (p : oidcProvider) : bool :=
  bool_decide (pr_issuer p = oi_Issuer s) && bool_decide (pr_clientID p = oi_ClientID s) && bool_decide (pr_redirect p = redirectURL s).

Definition getOIDCProvider : Go Installation (option (oidcProvider * OIDCSettings)) :=
  s ←! oidcSettings;
  if negb (configured s) then Ret None
  else
    cached ←! read_memory mm_Provider;
    let build :=
      built ←! buildOIDCProvider s;
      match built with
      | None => Ret None
      | Some p =>
          _ ←! write_memory (λ m, MkMemory (mm_Security m) (mm_Policy m) (mm_OIDC m) (Some p) (mm_Active m));
          Ret (Some (p, s))
      end in
    match cached with
    | Some p => if fits s p then Ret (Some (p, s)) else build
    | None => build
    end.

(** A login page reads whether to offer single sign-on. *)
Definition renderLoginErrorPage (message : string) : Go Installation Response :=
  csrf ←! lift random_or_empty;
  _ ←! oidcSettings;
  Ret (MkResponse (Page "login.html" "Sign In" message "") [(csrfCookie, csrf)]).

Definition colons (l : list string) : string := join ":" l.

Definition oidcStart : Service := λ r,
  match sealer return Go Installation Response with
  | None => _ ←! oidcSettings; answer (Page "login.html" "Sign In" "Single sign-on is unavailable." "")
  | Some c =>
      provider ←! getOIDCProvider;
      match provider with
      | None => renderLoginErrorPage "Single sign-on is unavailable right now."
      | Some (provider, _) =>
          state ←! lift random_or_empty;
          nonce ←! lift random_or_empty;
          verifier ←! atomic (λ w, (GenerateVerifier (w_step w), bump w));
          now ←! time_now;
          bytes ←! atomic (λ w, (random_bytes (w_step w), bump w));
          match Seal c bytes (colons [state; verifier; nonce; itoa ((now + oidcStateTTL) / second)]) with
          | None => renderLoginErrorPage "Single sign-on is unavailable right now."
          | Some sealed =>
              url ←! atomic (λ w, (AuthCodeURL (w_step w) provider state nonce verifier, bump w));
              Ret (MkResponse (Redirect url) [(oidcStateCookie, sealed)])
          end
      end
  end.

(** The state, the verifier, the nonce and the expiry that the cookie holds. *)
Definition attempt_of (r : Request) : option (string * string * string * Z) :=
  s ← sealer;
  let value := default "" (rq_Cookies r !! oidcStateCookie) in
  if decide (value = "") then None
  else
    payload ← Open s value;
    match split_on ":"%char payload with
    | [state; verifier; nonce; expiry] => unix ← atoi expiry; Some (state, verifier, nonce, unix)
    | _ => None
    end.

Definition readOIDCState (r : Request) : Go Installation (option (string * string * string)) :=
  match attempt_of r return Go Installation (option (string * string * string)) with
  | None => Ret None
  | Some (state, verifier, nonce, unix) =>
      now ←! time_now; Ret (if unix <? now / second then None else Some (state, verifier, nonce))
  end.

Definition query (r : Request) (name : string) : string := default "" (rq_Query r !! name).

(** The session of the user, with the timeout in force. *)
Definition established (r : Request) (user : User) : Go Installation Response :=
  _ ←! hooked_auditMeta (Some (u_ID user)) "auth.login.sso" "user" (u_ID user) {["ip" := clientIP r]};
  s ←! securitySettings;
  cookies ←! lift (establishSession (app := tuned s) r (u_ID user));
  Ret (MkResponse (Redirect "/") cookies).

(** After the token was verified. *)
Definition identified (r : Request) (s : OIDCSettings) (nonce : string) (t : IDToken) : Go Installation Response :=
  if bool_decide (it_Nonce t = nonce) then
    match it_Claims t with
    | None => renderLoginErrorPage "Single sign-on returned an unreadable identity."
    | Some claims =>
        user ←! lift (resolveOIDCLogin s (it_Subject t) claims);
        match user with
        | None => renderLoginErrorPage "No Light IPAM account is linked to that identity."
        | Some user => established r user
        end
    end
  else renderLoginErrorPage "Single sign-on failed a security check. Please try again.".

Definition after_state (r : Request) (verifier nonce : string) : Go Installation Response :=
  provider ←! getOIDCProvider;
  match provider with
  | None => renderLoginErrorPage "Single sign-on is unavailable right now."
  | Some (provider, s) =>
      token ←! atomic (λ w, (Exchange (w_step w) provider (query r "code") verifier, bump w));
      match token with
      | None => renderLoginErrorPage "Single sign-on failed. Please try again."
      | Some None => renderLoginErrorPage "The identity provider did not return an ID token."
      | Some (Some rawID) =>
          if decide (rawID = "") then renderLoginErrorPage "The identity provider did not return an ID token."
          else
            verified ←! atomic (λ w, (Verify (w_step w) provider rawID, bump w));
            match verified with
            | None => renderLoginErrorPage "Single sign-on failed to verify your identity."
            | Some t => identified r s nonce t
            end
      end
  end.

Definition oidcCallback : Service := λ r,
  attempt ←! readOIDCState r;
  response ←! match attempt with
    | None => renderLoginErrorPage "Your sign-on attempt expired. Please try again."
    | Some (state, verifier, nonce) =>
        if decide (query r "error" = "") then
          if decide (query r "state" = state) then after_state r verifier nonce
          else renderLoginErrorPage "Single sign-on failed a security check. Please try again."
        else renderLoginErrorPage "Single sign-on was cancelled or denied."
    end;
  Ret (set_cookies [(oidcStateCookie, "")] response).
End oidc.
