(* ===== verification/OidcSpec.v ===== *)
(** * What single sign-on promises

    A session is opened only for the account bound to the subject of a token that the
    provider issued for this attempt and the library verified; no role, password or
    second factor changes on the way; saved settings are those of the next start. *)

From S2P Require Import Prelude GoStrings GoTime Password Secrets Json Protocol Process Scans Queue Inventory Import Portability Lockout Accounts Web Signin SigninSpec Users Routes Demo Pages Batch Endpoints Config Events Install Settings Oidc.
Local Open Scope Z_scope.

(** ** What must have happened first *)

Section earned.
Context {W : Type} (R : W → W → Prop) (ok : W → W → Prop).

(** As [guarded], but a right is granted by a step rather than by a world. *)
Fixpoint earned {A} (Q : A → Prop) (p : prog W A) : Prop :=
  match p with
  | Ret a => Q a
  | Atom g k => ∀ w, R w (g w) ∧ (ok w (g w) ∨ earned Q (k w))
  end.

Lemma earned_bind {A B} (Q : A → Prop) (Q' : B → Prop) (p : prog W A) (h : A → prog W B) :
  earned Q p → (∀ a, Q a → earned Q' (h a)) → earned Q' (prog_bind h p).
Proof.
  intros Hp Hh. induction p as [a|g k IH]; [by apply Hh|]. intros w. destruct (Hp w) as [Hg [Hok|Hk]].
  - split; [done|by left].
  - split; [done|]. right. by apply IH.
Qed.

Lemma earned_harmless {A} (p : prog W A) : guarantees R p → earned (λ _, True) p.
Proof. induction p as [a|g k IH]; [done|]. intros Hp w. destruct (Hp w). split; [done|]. right. by apply IH. Qed.

Lemma earned_after {A B} (Q' : B → Prop) (p : prog W A) (h : A → prog W B) :
  guarantees R p → (∀ a, earned Q' (h a)) → earned Q' (prog_bind h p).
Proof. intros Hp Hh. apply (earned_bind (λ _, True)); [by apply earned_harmless|auto]. Qed.

Lemma earned_steps {A} (Q : A → Prop) (p : prog W A) env i w l a b l' :
  earned Q p → steps env i p w = l ++ (a, b) :: l' → ¬ R a b → ∃ x y, (x, y) ∈ l ∧ ok x y.
Proof.
  intros Hp Hs Hn. revert i w l Hp Hs. induction p as [v|g k IH]; intros i w l Hp Hs; cbn in Hs; [by destruct l|].
  destruct (Hp (env i w)) as [Hg Hk]. destruct l as [|[x y] l]; simplify_eq/=; [done|].
  destruct Hk as [Hok|Hk]; [by exists (env i w), (g (env i w)); split; [left|]|].
  destruct (IH _ _ _ _ Hk H0) as (x & y & Hin & Hok). exists x, y. split; [by right|done].
Qed.
End earned.

(** ** Steps that leave the accounts as they are *)

Definition accounts (w : World Installation) : Accounts := db_acc (is_db (w_inv w)).

Section accounts_steps.
Context {env : Env} {app : App} (RA : Accounts → Accounts → Prop) (Hrefl : ∀ a, RA a a).

Definition on_accounts (w w' : World Installation) : Prop := RA (accounts w) (accounts w').
Definition on_acc (w w' : World Database) : Prop := RA (acc w) (acc w').

Lemma lift_acc {A} (p : Go Database A) : guarantees on_acc p → guarantees on_accounts (lift p).
Proof using Type. induction p as [a|g k IH]; [done|]. intros Hp w. destruct (Hp (to_database w)). split; [done|by apply IH]. Qed.

Lemma atomic_acc {A} (f : World Installation → A * World Installation) :
  (∀ w, is_db (w_inv (f w).2) = is_db (w_inv w)) → guarantees on_accounts (atomic f).
Proof using Hrefl. intros Hf. apply guarantees_atomic. intros w. unfold on_accounts, accounts. by rewrite Hf. Qed.

Lemma reads_acc {A} (p : Go Database A) : reads p → guarantees on_acc p.
Proof using Hrefl. induction p as [a|g k IH]; [done|]. intros Hp w. destruct (Hp w) as [-> Hk]. split; [apply Hrefl|by apply IH]. Qed.

Lemma read_lifted {A} (p : Go Database A) : reads p → guarantees on_accounts (lift p).
Proof using Hrefl. intros Hp. by apply lift_acc, reads_acc. Qed.

Lemma random_or_empty_acc : guarantees on_accounts (lift random_or_empty).
Proof using Hrefl. apply read_lifted. by apply reads_bind; [apply reads_token|]. Qed.

Lemma renderLoginErrorPage_acc message : guarantees on_accounts (renderLoginErrorPage message).
Proof using Hrefl.
  apply guarantees_bind; [apply random_or_empty_acc|]. intros csrf. apply guarantees_bind; [by apply atomic_acc|done].
Qed.

Lemma hooked_log_acc who action st sid metadata : guarantees on_accounts (hooked_log who action st sid metadata).
Proof using Hrefl.
  apply guarantees_bind.
  { apply atomic_acc. intros w. unfold run_stmt. destruct (fault (w_step w)); [done|].
    destruct (jsonb_in _); [|done]. by destruct (negb _). }
  intros [u|e]; [|done]. apply guarantees_bind; [by apply atomic_acc|]. intros [|]; [|done]. cbn [negb].
  destruct (categoryForAction _); [|done]. apply guarantees_bind; [by apply atomic_acc|]. intros now.
  destruct (EventFromAudit _ _ _); [by apply atomic_acc|done].
Qed.

Lemma getOIDCProvider_acc NewProvider : guarantees on_accounts (getOIDCProvider NewProvider).
Proof using Hrefl.
  apply guarantees_bind; [by apply atomic_acc|]. intros s. destruct (negb _); [done|].
  apply guarantees_bind; [by apply atomic_acc|]. intros cached.
  assert (guarantees on_accounts (built ←! buildOIDCProvider NewProvider s;
      match built with
      | None => Ret None
      | Some p =>
          _ ←! write_memory (λ m, MkMemory (mm_Security m) (mm_Policy m) (mm_OIDC m) (Some p) (mm_Active m));
          Ret (Some (p, s))
      end)) as Hb.
  { apply guarantees_bind; [by apply atomic_acc|]. intros [p|]; [|done]. by apply guarantees_bind; [apply atomic_acc|]. }
  destruct cached as [p|]; [|done]. by destruct (fits s p).
Qed.
End accounts_steps.

(** ** Whose session it is *)

Section identity.
Context {env : Env} {app : App}.
Context (NewProvider : nat → string → bool)
        (Exchange : nat → oidcProvider → string → string → option (option string))
        (Verify : nat → oidcProvider → string → option IDToken).

(** The request answers an attempt this server sealed, in time and with its state, and
    the code it brings was exchanged, with the attempt's verifier and at the configured
    provider, for a token that was verified and carries the attempt's nonce. *)
Definition identity (r : Request) (s : OIDCSettings) (t : IDToken) : Prop :=
  ∃ state verifier nonce unix p raw k n m,
    attempt_of r = Some (state, verifier, nonce, unix) ∧ clock k / second ≤ unix ∧
    query r "error" = "" ∧ query r "state" = state ∧ configured s = true ∧ fits s p = true ∧
    Exchange n p (query r "code") verifier = Some (Some raw) ∧ raw ≠ "" ∧ Verify m p raw = Some t ∧ it_Nonce t = nonce.

(** The account is bound to the subject of the token, or has the name it claims. *)
Definition entitled (s : OIDCSettings) (t : IDToken) (claims : gmap string json) (u : UserRow) : Prop :=
  us_Subject u = Some (it_Subject t) ∨ us_Username u ≠ "" ∧ us_Username u = oidcUsername claims (oi_UsernameClaim s).

(** No session of [x] is opened. *)
Definition none_for (x : string) (a a' : Accounts) : Prop :=
  ∀ id row, ac_sessions a' !! id = Some row → sr_User row = x → is_Some (ac_sessions a !! id).

Lemma none_for_refl x a : none_for x a a.
Proof. intros id row H _. by exists row. Qed.

Lemma same_sessions x a a' : ac_sessions a' = ac_sessions a → none_for x a a'.
Proof. intros Hs id row H _. rewrite <- Hs. by exists row. Qed.

(** An account that is entitled, in what a step left. *)
Definition found (s : OIDCSettings) (t : IDToken) (claims : gmap string json) (x : string) (w w' : World Database) : Prop :=
  ∃ u, ac_users (acc w') !! x = Some u ∧ entitled s t claims u.

Lemma find_earned (f : UserRow → bool) s t claims x :
  (∀ u, f u = true → entitled s t claims u) →
  earned (on_acc (none_for x)) (found s t claims x) (λ res, ∀ u, res = Ok u → u_ID u ≠ x)
    (stmt (λ _ w, match find_user f w with Some u => Ok (u, w) | None => Err ErrNotFound end)).
Proof.
  intros Hf w. cbn [fst snd]. unfold run_stmt. destruct (fault (w_step w)); [split; [apply none_for_refl|by right]|].
  change (find_user f (bump w)) with (find_user f w). destruct (find_user f w) as [u|] eqn:Hu;
    [|split; [apply none_for_refl|by right]].
  split; [apply none_for_refl|]. cbn [fst snd]. apply find_user_Some in Hu as (id & row & Hrow & Hr & ->).
  destruct (decide (id = x)) as [->|Hne]; [left; exists row; by split; [|apply Hf]|right]. by intros u [= <-].
Qed.

Lemma create_earned name display role s t claims x :
  earned (on_acc (none_for x)) (found s t claims x) (λ res, ∀ u, res = Ok u → u_ID u ≠ x)
    (CreateSSOUser sso_hash name display role (it_Subject t)).
Proof.
  apply earned_after; [apply reads_acc; [apply none_for_refl|apply reads_token]|]. intros [id|]; [|done].
  apply earned_after; [apply reads_acc; [apply none_for_refl|apply reads_token]|]. intros [pw|]; [|done].
  apply earned_after.
  { apply guarantees_bind; [|done]. apply guarantees_atomic. intros w. apply none_for_refl. }
  intros [hash|]; [|done]. intros w. cbn [fst snd]. unfold run_stmt.
  destruct (fault (w_step w)); [split; [apply none_for_refl|by right]|].
  destruct (insert_user _ _ _ _ _ _ _ _ _) as [[u w']|] eqn:Hi; [|split; [apply none_for_refl|by right]].
  unfold insert_user in Hi. destruct (_ || _); [done|]. injection Hi as <- <-. cbn [fst snd].
  split; [by apply same_sessions|]. destruct (decide (id = x)) as [->|Hne]; [left|right; by intros u [= <-]].
  eexists. split; [cbn; apply lookup_insert_eq|]. by left.
Qed.

Lemma resolve_earned s t claims x :
  earned (on_acc (none_for x)) (found s t claims x) (λ o, ∀ u, o = Some u → u_ID u ≠ x)
    (resolveOIDCLogin s (it_Subject t) claims).
Proof.
  unfold resolveOIDCLogin. destruct (decide _); [done|]. eapply earned_bind.
  { apply (find_earned (λ u, bool_decide (us_Subject u = Some (it_Subject t)))). intros u Hu%bool_decide_eq_true. by left. }
  intros [u|e] Hu; [intros u' [= <-]; by apply Hu|]. destruct e; try done. cbn zeta.
  destruct (decide (oidcUsername claims (oi_UsernameClaim s) = "")) as [|Hne]; [done|]. eapply earned_bind.
  { apply (find_earned (λ u, bool_decide (us_Username u = oidcUsername claims (oi_UsernameClaim s)))).
    intros u' Hu'%bool_decide_eq_true. right. by rewrite Hu'. }
  intros [u|e] Hu'.
  - apply earned_after.
    { apply guarantees_atomic. intros w. unfold run_stmt. destruct (fault (w_step w)); [apply none_for_refl|].
      destruct (_ && _); [apply none_for_refl|]. by apply same_sessions. }
    intros [l|]; [intros u' [= <-]; by apply Hu'|done].
  - destruct e; try done. destruct (negb _); [done|]. eapply earned_bind; [apply create_earned|].
    intros [u|] Hc; [intros u' [= <-]; by apply Hc|done].
Qed.

Lemma earned_lift {A} (R : Accounts → Accounts → Prop) (ok : World Database → World Database → Prop) (Q : A → Prop) p :
  earned (on_acc R) ok Q p → earned (on_accounts R) (λ w w', ok (to_database w) (to_database w')) Q (lift p).
Proof.
  induction p as [a|g k IH]; [done|]. intros Hp w. destruct (Hp (to_database w)) as [Hg Hk]. split; [done|].
  destruct Hk as [Hok|Hk]; [left; by rewrite to_of_database|right; by apply IH].
Qed.

Lemma established_none r u x : u_ID u ≠ x → guarantees (on_accounts (none_for x)) (established r u).
Proof.
  intros Hne. apply guarantees_bind; [apply hooked_log_acc, none_for_refl|]. intros _.
  apply guarantees_bind; [by apply atomic_acc; [apply none_for_refl|]|]. intros s.
  apply guarantees_bind; [|done]. apply lift_acc. unfold establishSession.
  apply guarantees_bind; [apply reads_acc; [apply none_for_refl|apply reads_time]|]. intros now.
  apply guarantees_bind; [|done]. unfold CreateSession.
  apply guarantees_bind; [apply reads_acc; [apply none_for_refl|apply reads_token]|]. intros [id|]; [|done].
  apply guarantees_bind; [apply reads_acc; [apply none_for_refl|apply reads_token]|]. intros [csrf|]; [|done].
  apply guarantees_atomic. intros w. unfold run_stmt. destruct (fault (w_step w)); [apply none_for_refl|].
  destruct (bool_decide _); [apply none_for_refl|]. destruct (bool_decide _); [apply none_for_refl|]. cbn [snd].
  intros i row Hi Hrow. cbn in Hi. destruct (decide (i = id)) as [->|Hid].
  - rewrite lookup_insert_eq in Hi. injection Hi as <-. by destruct Hne.
  - rewrite lookup_insert_ne in Hi by done. by exists row.
Qed.

Definition earns (r : Request) (x : string) (w w' : World Installation) : Prop :=
  ∃ s t claims u, identity r s t ∧ it_Claims t = Some claims ∧ ac_users (accounts w') !! x = Some u ∧ entitled s t claims u.

Lemma earned_weaken {W A} (R : W → W → Prop) (ok ok' : W → W → Prop) (Q : A → Prop) (p : prog W A) :
  (∀ w w', ok w w' → ok' w w') → earned R ok Q p → earned R ok' Q p.
Proof.
  intros Hok. induction p as [a|g k IH]; [done|]. intros Hp w. destruct (Hp w) as [Hg [Hw|Hk]]; split; auto.
Qed.

Lemma error_page r x message : earned (on_accounts (none_for x)) (earns r x) (λ _, True) (renderLoginErrorPage message).
Proof. apply earned_harmless, renderLoginErrorPage_acc, none_for_refl. Qed.

(** The provider that is used is that of the settings in force. *)
Lemma getOIDCProvider_returns :
  returns (λ o, ∀ p s, o = Some (p, s) → configured s = true ∧ fits s p = true) (getOIDCProvider NewProvider).
Proof.
  intros w. rewrite prog_bind_ret. cbn [fst]. set (s := mm_OIDC (memory w)).
  destruct (configured s) eqn:Hc; cbn [negb]; [|done]. intros w1. rewrite prog_bind_ret. cbn [fst]. cbn zeta.
  assert (returns (λ o, ∀ p s', o = Some (p, s') → configured s' = true ∧ fits s' p = true)
    (built ←! buildOIDCProvider NewProvider s;
     match built with
     | None => Ret None
     | Some p =>
         _ ←! write_memory (λ m, MkMemory (mm_Security m) (mm_Policy m) (mm_OIDC m) (Some p) (mm_Active m));
         Ret (Some (p, s))
     end)) as Hb.
  { intros w2. rewrite prog_bind_ret. cbn [fst]. destruct (NewProvider _ _); [|done]. intros w3. rewrite prog_bind_ret.
    intros p s' [= <- <-]. split; [done|]. unfold fits. cbn. by rewrite !bool_decide_eq_true_2. }
  destruct (mm_Provider (memory w1)) as [p|]; [|exact Hb]. destruct (fits s p) eqn:Hf; [by intros p' s' [= <- <-]|exact Hb].
Qed.

Lemma earned_returns {W A} (R : W → W → Prop) ok (Q : A → Prop) (p : prog W A) : guarantees R p → returns Q p → earned R ok Q p.
Proof.
  induction p as [a|g k IH]; [done|]. intros Hp Hq w. destruct (Hp w). split; [done|]. right. by apply IH.
Qed.

Lemma after_state_earned r x state verifier nonce unix k :
  attempt_of r = Some (state, verifier, nonce, unix) → clock k / second ≤ unix → query r "error" = "" → query r "state" = state →
  earned (on_accounts (none_for x)) (earns r x) (λ _, True) (after_state NewProvider Exchange Verify r verifier nonce).
Proof.
  intros Ha Hk He Hs. unfold after_state. eapply earned_bind.
  { apply earned_returns; [apply getOIDCProvider_acc, none_for_refl|apply getOIDCProvider_returns]. }
  intros [[p s]|] Hp; [|apply error_page]. destruct (Hp p s eq_refl) as [Hc Hf].
  intros w. split; [apply none_for_refl|right]. cbn [fst]. rewrite prog_bind_ret.
  destruct (Exchange (w_step w) p (query r "code") verifier) as [[raw|]|] eqn:Hx; [|apply error_page..].
  destruct (decide (raw = "")) as [|Hraw]; [apply error_page|].
  intros w1. split; [apply none_for_refl|right]. cbn [fst]. rewrite prog_bind_ret.
  destruct (Verify (w_step w1) p raw) as [t|] eqn:Hv; [|apply error_page]. unfold identified. case_bool_decide as Hn; [|apply error_page].
  destruct (it_Claims t) as [claims|] eqn:Hcl; [|apply error_page].
  assert (identity r s t) as Hid by (exists state, verifier, nonce, unix, p, raw, k, (w_step w), (w_step w1); naive_solver).
  eapply earned_bind.
  { eapply earned_weaken; [|apply earned_lift, (resolve_earned s t claims x)]. intros v v' (u & Hu & Hent). by exists s, t, claims, u. }
  intros [u|] Hu; [|apply error_page]. apply earned_harmless, established_none. by apply Hu.
Qed.

Lemma oidcCallback_earned r x : earned (on_accounts (none_for x)) (earns r x) (λ _, True) (oidcCallback NewProvider Exchange Verify r).
Proof.
  unfold oidcCallback, readOIDCState. destruct (attempt_of r) as [[[[state verifier] nonce] unix]|] eqn:Ha.
  - intros w. split; [apply none_for_refl|right]. cbn [fst]. rewrite !prog_bind_ret.
    destruct (unix <? _) eqn:Ht; [eapply earned_bind; [apply error_page|done]|]. apply Z.ltb_ge in Ht.
    destruct (decide (query r "error" = "")) as [He|]; [|eapply earned_bind; [apply error_page|done]].
    destruct (decide (query r "state" = state)) as [Hs|]; [|eapply earned_bind; [apply error_page|done]].
    eapply earned_bind; [by eapply after_state_earned|done].
  - rewrite prog_bind_ret. eapply earned_bind; [apply error_page|done].
Qed.


(** ** What it leaves alone *)

(** Accounts stay, with their name, password and role, and new ones are viewers';
    sessions stay; second factors and tokens are not touched. *)
Record keeps_credentials (a a' : Accounts) : Prop := MkKeeps
  { kc_users : ∀ id u', ac_users a' !! id = Some u' →
      match ac_users a !! id with
      | Some u => ∃ subject, u' = set_subject subject u
      | None => us_Role u' = RoleViewer ∧ us_IsAdmin u' = false
      end;
    kc_kept : ∀ id, is_Some (ac_users a !! id) → is_Some (ac_users a' !! id);
    kc_sessions : ac_sessions a ⊆ ac_sessions a'; kc_totp : ac_totp a' = ac_totp a; kc_codes : ac_codes a' = ac_codes a;
    kc_tokens : ac_tokens a' = ac_tokens a; kc_attempts : ac_attempts a' = ac_attempts a }.

Lemma keeps_credentials_users a m :
  (∀ id u', m !! id = Some u' →
      match ac_users a !! id with Some u => ∃ subject, u' = set_subject subject u | None => us_Role u' = RoleViewer ∧ us_IsAdmin u' = false end) →
  (∀ id, is_Some (ac_users a !! id) → is_Some (m !! id)) → keeps_credentials a (put_users m a).
Proof. intros Hu Hk. by split. Qed.

Lemma keeps_credentials_refl a : keeps_credentials a a.
Proof.
  split; try done. intros id u' ->. exists (us_Subject u'). by destruct u'.
Qed.

#[local] Abbreviation kept := (guarantees (on_accounts keeps_credentials)).
#[local] Abbreviation kept_db := (guarantees (on_acc keeps_credentials)).

Lemma reads_kept {A} (p : Go Database A) : reads p → kept_db p.
Proof. apply reads_acc, keeps_credentials_refl. Qed.

Lemma LinkOIDCSubject_kept id subject : kept_db (LinkOIDCSubject id subject).
Proof.
  apply guarantees_atomic. intros w. unfold run_stmt. destruct (fault (w_step w)); [apply keeps_credentials_refl|].
  destruct (_ && _); [apply keeps_credentials_refl|]. apply keeps_credentials_users.
  - intros i u'. change (acc (bump w)) with (acc w). rewrite lookup_alter. destruct (decide (id = i)) as [->|].
    + destruct (ac_users (acc w) !! i) as [u|] eqn:Hu; [|done]. intros [= <-]. by eexists.
    + intros ->. exists (us_Subject u'). by destruct u'.
  - intros i. change (acc (bump w)) with (acc w). rewrite lookup_alter. destruct (decide _) as [->|]; [|done].
    intros [u Hu]. rewrite Hu. by eexists.
Qed.

Lemma CreateSSOUser_kept name display subject : kept_db (CreateSSOUser sso_hash name display RoleViewer subject).
Proof.
  apply guarantees_bind; [apply reads_kept, reads_token|]. intros [id|]; [|done].
  apply guarantees_bind; [apply reads_kept, reads_token|]. intros [pw|]; [|done].
  apply guarantees_bind.
  { apply guarantees_bind; [|done]. apply guarantees_atomic. intros w. apply keeps_credentials_refl. }
  intros [hash|]; [|done]. apply guarantees_atomic. intros w. unfold run_stmt.
  destruct (fault (w_step w)); [apply keeps_credentials_refl|]. unfold insert_user.
  destruct (bool_decide _ || _) eqn:Hn; [apply keeps_credentials_refl|].
  apply orb_false_iff in Hn as [Hid%bool_decide_eq_false _]. cbn [snd]. apply keeps_credentials_users.
  - intros i u'. change (acc (bump w)) with (acc w) in *. destruct (decide (i = id)) as [->|Hne].
    + rewrite lookup_insert_eq. intros [= <-]. destruct (ac_users (acc w) !! id) as [u0|] eqn:Hu; [|done]. destruct Hid. by exists u0.
    + rewrite lookup_insert_ne by done. intros ->. exists (us_Subject u'). by destruct u'.
  - intros i Hi. change (acc (bump w)) with (acc w). destruct (decide (i = id)) as [->|]; [by rewrite lookup_insert_eq; eexists|].
    by rewrite lookup_insert_ne.
Qed.

Lemma find_kept (f : UserRow → bool) :
  kept_db (stmt (λ _ w, match find_user f w with Some u => Ok (u, w) | None => Err ErrNotFound end)).
Proof. apply reads_kept, reads_stmt. intros now w a w'. destruct (find_user f w); [|done]. by intros [= _ <-]. Qed.

Lemma resolve_kept s subject claims : kept_db (resolveOIDCLogin s subject claims).
Proof.
  unfold resolveOIDCLogin. destruct (decide _); [done|]. apply guarantees_bind; [apply find_kept|].
  intros [u|[]]; try done. destruct (decide _); [done|]. apply guarantees_bind; [apply find_kept|].
  intros [u|[]]; try done.
  - apply guarantees_bind; [apply LinkOIDCSubject_kept|done].
  - destruct (negb _); [done|]. apply guarantees_bind; [apply CreateSSOUser_kept|]. by intros [].
Qed.

Lemma established_kept r u : kept (established r u).
Proof.
  pose proof keeps_credentials_refl as Hrefl.
  apply guarantees_bind; [by apply hooked_log_acc|]. intros _. apply guarantees_bind; [by apply atomic_acc|]. intros s.
  apply guarantees_bind; [|done]. apply lift_acc. apply guarantees_bind; [apply reads_kept, reads_time|]. intros now.
  apply guarantees_bind; [|done]. apply guarantees_bind; [apply reads_kept, reads_token|]. intros [id|]; [|done].
  apply guarantees_bind; [apply reads_kept, reads_token|]. intros [csrf|]; [|done].
  apply guarantees_atomic. intros w. unfold run_stmt. destruct (fault (w_step w)); [apply Hrefl|].
  destruct (bool_decide _) eqn:Hid; [apply Hrefl|]. destruct (bool_decide (_ = None)); [apply Hrefl|]. cbn [snd].
  destruct (Hrefl (acc w)). split; try done. apply insert_subseteq. apply bool_decide_eq_false in Hid. by apply eq_None_not_Some.
Qed.

(** Single sign-on, whoever answers it and whatever runs in between, changes no
    role, password, second factor, token or session that exists, and gives the
    accounts it creates the role of a viewer. *)
Theorem sso_keeps_credentials GenerateVerifier AuthCodeURL r :
  kept (oidcStart NewProvider GenerateVerifier AuthCodeURL r) ∧ kept (oidcCallback NewProvider Exchange Verify r).
Proof.
  pose proof keeps_credentials_refl as Hrefl.
  assert (∀ m, kept (renderLoginErrorPage m)) as He by (intros; by apply renderLoginErrorPage_acc). split.
  - unfold oidcStart. destruct sealer as [c|]; [|by apply guarantees_bind; [apply atomic_acc|]].
    apply guarantees_bind; [by apply getOIDCProvider_acc|]. intros [[p s]|]; [|done].
    do 2 (apply guarantees_bind; [by apply random_or_empty_acc|]; intros ?).
    do 3 (apply guarantees_bind; [by apply atomic_acc|]; intros ?).
    destruct (Seal _ _ _); [|done]. by apply guarantees_bind; [apply atomic_acc|].
  - apply guarantees_bind.
    { unfold readOIDCState. destruct (attempt_of r) as [[[[? ?] ?] ?]|]; [|done]. by apply guarantees_bind; [apply atomic_acc|]. }
    intros [[[state verifier] nonce]|]; (apply guarantees_bind; [|done]); [|done].
    destruct (decide _); [|done]. destruct (decide _); [|done].
    apply guarantees_bind; [by apply getOIDCProvider_acc|]. intros [[p s]|]; [|done].
    apply guarantees_bind; [by apply atomic_acc|]. intros [[raw|]|]; [|done..]. destruct (decide _); [done|].
    apply guarantees_bind; [by apply atomic_acc|]. intros [t|]; [|done]. unfold identified.
    destruct (bool_decide _); [|done]. destruct (it_Claims t); [|done].
    apply guarantees_bind; [apply lift_acc, resolve_kept|]. intros [u|]; [apply established_kept|done].
Qed.
End identity.

(** ** Saving the settings *)

Lemma or_preferred_nonempty claim : or_preferred claim ≠ "".
Proof. unfold or_preferred. by destruct (decide (claim = "")). Qed.

Lemma parse_claim form s : parseOIDCSettingsForm form = Ok s → oi_UsernameClaim s ≠ "".
Proof.
  unfold parseOIDCSettingsForm. cbn zeta. set (parsed := MkOIDCSettings _ _ _ _ _ _ _).
  assert (oi_UsernameClaim parsed ≠ "") as Hc by apply or_preferred_nonempty. clearbody parsed.
  destruct (negb (oi_Enabled parsed)); [by intros [= <-]|]. destruct (decide _); [done|].
  destruct (negb _); [done|]. destruct (negb _); [done|]. by intros [= <-].
Qed.

Lemma boolString_true b : bool_decide (boolString b = "true") = b.
Proof. by destruct b. Qed.

Section saving.
Context {env : Env} {app : App} (cfg : Config).

(** What is stored is read back, when its secret opens. *)
Lemma mergeOIDCSettings_oidc_map c stored s sealed :
  sealer = Some c → sealed ≠ "" → Open c sealed = Some (oi_ClientSecret s) → oi_UsernameClaim s ≠ "" →
  mergeOIDCSettings cfg (oidc_map s sealed ∪ stored) = s.
Proof.
  intros Hc Hne Ho Hu. unfold mergeOIDCSettings. cbn zeta.
  assert ((oidc_map s sealed ∪ stored) !! settingOIDCEnabled = Some (boolString (oi_Enabled s))) as -> by (unfold oidc_map; by_stored 0%nat).
  assert ((oidc_map s sealed ∪ stored) !! settingOIDCIssuer = Some (oi_Issuer s)) as -> by (unfold oidc_map; by_stored 1%nat).
  assert ((oidc_map s sealed ∪ stored) !! settingOIDCClientID = Some (oi_ClientID s)) as -> by (unfold oidc_map; by_stored 2%nat).
  assert (stored_secret (oidc_map s sealed ∪ stored) = Some (oi_ClientSecret s)) as ->.
  { unfold stored_secret.
    assert ((oidc_map s sealed ∪ stored) !! settingOIDCClientSecret = Some sealed) as -> by (unfold oidc_map; by_stored 3%nat).
    cbn [mbind option_bind]. by rewrite decide_False, Hc. }
  assert ((oidc_map s sealed ∪ stored) !! settingOIDCBaseURL = Some (oi_BaseURL s)) as -> by (unfold oidc_map; by_stored 4%nat).
  assert ((oidc_map s sealed ∪ stored) !! settingOIDCUsernameClaim = Some (oi_UsernameClaim s)) as -> by (unfold oidc_map; by_stored 5%nat).
  assert ((oidc_map s sealed ∪ stored) !! settingOIDCAutoProvision = Some (boolString (oi_AutoProvision s))) as -> by (unfold oidc_map; by_stored 6%nat).
  rewrite decide_False, !boolString_true by done. by destruct s.
Qed.

Context (c : AEAD) (Hsealer : sealer = Some c) (Hlaws : AEADLaws c)
        (Hnonce : ∀ n l, random_bytes n = Some l → length l = NonceSize c).

Lemma random_bytes_range n l : random_bytes n = Some l → Forall is_byte l.
Proof using Type. unfold random_bytes. destruct (token n); [|done]. intros [= <-]. apply text_bytes_range. Qed.

Lemma sealed_settings_alone parsed w :
  let '(o, w') := alone (sealed_settings c parsed) w in
  keeps_settings w w' ∧ ∀ s sealed, o = Some (s, sealed) →
    oi_UsernameClaim s = oi_UsernameClaim parsed ∧
    (oi_ClientSecret s ≠ "" → sealed ≠ "" ∧ Open c sealed = Some (oi_ClientSecret s)).
Proof using Hlaws Hnonce.
  unfold sealed_settings. rewrite alone_bind.
  assert (keeps_settings w (alone (lift (zoom GetAppSettings)) w).2) as Hk.
  { apply alone_keeps, lift_keeps, reads_harmless, reads_zoom, reads_stmt. by intros ? ? ? ? [= _ <-]. }
  destruct (alone (lift (zoom GetAppSettings)) w) as [stored w1]. cbn [fst snd] in *. cbn zeta. set (existing := default "" _).
  destruct (decide (oi_ClientSecret parsed = "")) as [Hp|Hp].
  - rewrite alone_ret. split; [done|]. intros s sealed [= <- <-]. destruct (decide (existing = "")) as [He|He]; [by split; [|intros []]|].
    split; [done|]. cbn [with_client_secret oi_ClientSecret]. intros Hs. split; [done|]. by destruct (Open c existing).
  - rewrite alone_bind, alone_atomic. cbn [fst snd]. rewrite alone_ret. split; [etrans; [exact Hk|by split]|].
    destruct (Seal c (random_bytes (w_step w1)) (oi_ClientSecret parsed)) as [sealed'|] eqn:Hseal; [|done].
    intros s sealed [= <- <-]. split; [done|]. intros _. split; [by eapply Seal_nonempty|].
    eapply Open_Seal; [done| |done]. intros n Hn. split; [by eapply Hnonce|by eapply random_bytes_range].
Qed.

End saving.

(** ** Examples *)

Definition sso_settings : OIDCSettings :=
  MkOIDCSettings true "https://id.example" "ipam" "s3cret" "https://ipam.example" "preferred_username" false.
Definition sso_world : World Installation :=
  edit_install (put_memory (MkMemory (mm_Security demo_memory) (mm_Policy demo_memory) sso_settings None 0)) demo_install.

Definition sso_cookie : string := default "" (Seal plain_aead (Some [7]) "st:ve:no:99999").
Definition sso_request : Request :=
  MkRequest "GET" "/auth/oidc/callback" "" {[oidcStateCookie := sso_cookie]} ∅ ∅ None false None
    {["state" := "st"; "code" := "c"]} "10.0.0.9:51000" "" "" "".

(** A provider that says who it is: the holder of [subject], who goes by [name]. *)
Definition any_issuer : nat → string → bool := λ _ _, true.
Definition code_for_token : nat → oidcProvider → string → string → option (option string) := λ _ _ _ _, Some (Some "raw").
Definition token_of (subject name : string) : nat → oidcProvider → string → option IDToken :=
  λ _ _ _, Some (MkIDToken subject "no" (Some {["preferred_username" := JString name]})).

Definition bob_callback : prog (World Installation) Response :=
  oidcCallback (env := calm_env) any_issuer code_for_token (token_of "sub-1" "bob") sso_request.
Definition bob_callback_steps : list (World Installation * World Installation) := steps quiet 0 bob_callback sso_world.

Definition with_session_row (id : string) (w : World Installation) : option SessionRow := ac_sessions (accounts w) !! id.


(** The name an identity claims is enough to take an account over from the subject
    it was bound to. *)
Theorem subject_rebound :
  let sign_on subject w :=
    alone (oidcCallback (env := calm_env) any_issuer code_for_token (token_of subject "bob") sso_request) w in
  let '(res1, w1) := sign_on "sub-1" sso_world in
  let '(res2, w2) := sign_on "sub-2" w1 in
  rs_Body res1 = Redirect "/" ∧ us_Subject <$> ac_users (accounts w1) !! "b" = Some (Some "sub-1") ∧
  rs_Body res2 = Redirect "/" ∧ us_Subject <$> ac_users (accounts w2) !! "b" = Some (Some "sub-2").
Proof.
  set (sign_on := λ subject w,
    alone (oidcCallback (env := calm_env) any_issuer code_for_token (token_of subject "bob") sso_request) w).
  assert (rs_Body (sign_on "sub-1" sso_world).1 = Redirect "/" ∧
    us_Subject <$> ac_users (accounts (sign_on "sub-1" sso_world).2) !! "b" = Some (Some "sub-1")) as H1
    by (vm_compute; split; reflexivity).
  assert (rs_Body (sign_on "sub-2" (sign_on "sub-1" sso_world).2).1 = Redirect "/" ∧
    us_Subject <$> ac_users (accounts (sign_on "sub-2" (sign_on "sub-1" sso_world).2).2) !! "b" = Some (Some "sub-2")) as H2
    by (vm_compute; split; reflexivity).
  cbn zeta. fold (sign_on "sub-1" sso_world). destruct (sign_on "sub-1" sso_world) as [res1 w1]. cbn [fst snd] in *.
  fold (sign_on "sub-2" w1). destruct (sign_on "sub-2" w1) as [res2 w2]. cbn [fst snd] in *. tauto.
Qed.

(** The secret is changed while a provider is being built from the old one. *)
Definition secret_changed (i : nat) (w : World Installation) : World Installation :=
  if (i =? 3)%nat
  then (alone (setOIDC (MkOIDCSettings true "https://id.example" "ipam" "n3w" "https://ipam.example" "preferred_username" false)) w).2
  else w.

(** The provider with the old secret stays, and fits the new settings: it is used
    until the next change or start. *)
Theorem provider_keeps_old_secret :
  let '(_, w) := exec secret_changed 0 (getOIDCProvider any_issuer) sso_world in
  oi_ClientSecret (mm_OIDC (memory w)) = "n3w" ∧
  ∃ p, mm_Provider (memory w) = Some p ∧ pr_secret p = "s3cret" ∧ fits (mm_OIDC (memory w)) p = true.
Proof.
  set (run := exec _ _ _ _).
  assert (oi_ClientSecret (mm_OIDC (memory run.2)) = "n3w") as H1 by (vm_compute; reflexivity).
  assert (mm_Provider (memory run.2) =
    Some (MkProvider "https://id.example" "ipam" "https://ipam.example/auth/oidc/callback" "s3cret")) as H2 by (vm_compute; reflexivity).
  assert (fits (mm_OIDC (memory run.2)) (MkProvider "https://id.example" "ipam" "https://ipam.example/auth/oidc/callback" "s3cret")
    = true) as H3 by (vm_compute; reflexivity).
  destruct run as [res w]. cbn [snd] in *. split; [done|]. eexists. split; [exact H2|]. by split.
Qed.

(** An attempt is read back from its cookie as it was sealed. *)
Theorem attempt_round_trip {env : Env} {app : App} (c : AEAD) bytes state verifier nonce expiry sealed r :
  sealer = Some c → AEADLaws c → (∀ n, bytes = Some n → length n = NonceSize c ∧ Forall is_byte n) →
  Forall (λ t, count_byte ":" t = 0%nat) [state; verifier; nonce] → in_int64 expiry →
  Seal c bytes (colons [state; verifier; nonce; itoa expiry]) = Some sealed → rq_Cookies r !! oidcStateCookie = Some sealed →
  attempt_of r = Some (state, verifier, nonce, expiry).
Proof.
  intros Hs Hl Hn Hc He Hseal Hr. unfold attempt_of. rewrite Hs, Hr. cbn [mbind option_bind default from_option]. unfold id.
  assert (colons [state; verifier; nonce; itoa expiry] ≠ "") as Hne.
  { unfold colons. rewrite join_cons by done. destruct state; done. }
  rewrite decide_False by by eapply Seal_nonempty. rewrite (Open_Seal c bytes _ sealed Hl Hn Hseal). cbn [mbind option_bind].
  unfold colons. rewrite (split_join ":"%char).
  - by rewrite atoi_itoa.
  - done.
  - repeat (apply Forall_cons in Hc as [? Hc]). repeat (apply Forall_cons; split; [done|]). apply Forall_cons. split; [|done].
    by apply itoa_no_sep.
Qed.

Definition sso_form : Request :=
  request "POST" "/settings/authentication" "" "sa"
    [("csrf_token", "ta"); ("oidc_enabled", "on"); ("oidc_issuer", "https://id.example/"); ("oidc_client_id", "ipam");
     ("oidc_client_secret", "n3w"); ("oidc_base_url", "https://ipam.example"); ("oidc_username_claim", "upn")].
Definition alice_configures : Response * World Installation :=
  alone (settingsAuthenticationUpdate (env := short_env) (app := demo_app) sso_form) sso_world.

