(* ===== verification/Services.v ===== *)
(** * The rest of the routes

    What stands before every change that the pages of scans, agents, schedules,
    discoveries and settings make: a live session whose form token the request
    carries, an administrator's for the settings. With [Routes], the whole table of
    [internal/app/app.go] but for certificates, backups, the dashboard and the audit
    page. *)

From S2P Require Import Prelude GoStrings GoTime Secrets Protocol Process Scans Windows Queue Inventory Import Records Bulk Portability Listings Lockout Accounts Web Signin Users Pages Batch Api Routes Demo Orchestrator Endpoints Config Events Install Settings Policy Review Scanforms Scanpages Webhooks Oidc.
Local Open Scope Z_scope.

Section services.
Context {env : Env} {app : App}.
Context (printable : Z → bool) (LoadLocation : string → option Location).
Context (Error : job_error → string) (StoreError : db_error → string) (Unmarshal : string → option ScanResult).
Context (scans : option (option Dispatcher)) {Diag : Type} (Diagnostics : option (nat → string → result string Diag)).
Context (shuffle : list missingSubnet → list missingSubnet)
        (by_ip by_last_seen : list (string * DiscoveryRow) → list (string * DiscoveryRow))
        (MarshalServices : list DiscoveryService → string).
Context (Post : nat → string → list (string * string) → string → result string Z).

(** ** Routes *)

Definition scan_writes : list route :=
  [("POST", "/scans", scanCreate printable Error StoreError scans);
   ("POST", "/agents", agentCreate printable);
   ("POST", "/agents/discover", agentDiscover printable scans);
   ("POST", "/agents/{id}", agentUpdate printable);
   ("POST", "/agents/{id}/approve", agentApprove);
   ("POST", "/agents/{id}/diagnostics", agentDiagnostics scans Diagnostics);
   ("POST", "/agents/{id}/delete", agentDelete);
   ("POST", "/discoveries/import-all", discoveriesImportAll shuffle by_ip MarshalServices);
   ("POST", "/discoveries/subnet", discoverySubnetCreate shuffle by_ip by_last_seen MarshalServices);
   ("POST", "/discoveries/{id}/import", discoveryImport MarshalServices);
   ("POST", "/discoveries/{id}/dismiss", discoveryDismiss);
   ("POST", "/schedules", scheduleCreate printable LoadLocation Error StoreError scans);
   ("POST", "/schedules/{id}", scheduleUpdate printable LoadLocation Error StoreError scans);
   ("POST", "/schedules/{id}/run", scheduleRunNow scans);
   ("POST", "/schedules/{id}/delete", scheduleDelete)].

Definition scan_reads : list route :=
  [("GET", "/scans", scansIndex); ("GET", "/scans/new", scanNew); ("GET", "/scans/{id}", scanShow Unmarshal);
   ("GET", "/agents", agentsIndex); ("GET", "/agents/new", agentNew); ("GET", "/agents/{id}", agentShow (Diag := Diag));
   ("GET", "/agents/{id}/edit", agentEdit); ("GET", "/agents/{id}/delete", agentDeleteConfirm);
   ("GET", "/discoveries", discoveriesIndex shuffle by_ip by_last_seen);
   ("GET", "/schedules", schedulesIndex); ("GET", "/schedules/new", scheduleNew);
   ("GET", "/schedules/{id}/edit", scheduleEdit); ("GET", "/schedules/{id}/delete", scheduleDeleteConfirm)].

Definition service_route : Type := string * string * Service.

Definition settings_writes : list service_route :=
  [("POST", "/settings/security", settingsSecurityUpdate);
   ("POST", "/settings/authentication", settingsAuthenticationUpdate);
   ("POST", "/settings/policy", settingsPolicyUpdate);
   ("POST", "/settings/discovery", settingsDiscoveryUpdate);
   ("POST", "/settings/notifications", webhookCreate printable);
   ("POST", "/settings/notifications/{id}", webhookUpdate printable);
   ("POST", "/settings/notifications/{id}/test", webhookTest Post);
   ("POST", "/settings/notifications/{id}/delete", webhookDelete)].

(** ** Scans, agents, schedules and discoveries *)

Lemma scan_loaded_guarded {A} ok (p : GoE Database A) message next :
  reads p → (∀ a, guarded harmless ok (λ _, True) (next a)) → guarded harmless ok (λ _, True) (scan_loaded p message next).
Proof using Type.
  intros Hp Hn. unfold scan_loaded. apply guarded_after; [by apply reads_harmless|]. intros [a|[]]; [apply Hn|done..].
Qed.

Lemma GetScanAgent_reads id : reads (GetScanAgent (Inv := Database) id).
Proof using Type. apply reads_stmt. intros now w a w'. destruct (w_agents w !! id); [|done]. by intros [= _ <-]. Qed.
Lemma GetScanSchedule_reads id : reads (GetScanSchedule (Inv := Database) id).
Proof using Type. apply reads_stmt. intros now w a w'. destruct (w_schedules w !! id); [|done]. by intros [= _ <-]. Qed.
Lemma GetScanJob_reads id : reads (GetScanJob (Inv := Database) id).
Proof using Type. apply reads_stmt. intros now w a w'. destruct (w_jobs w !! id); [|done]. by intros [= _ <-]. Qed.

Lemma session_form_guarded r next :
  guarded harmless (granted r (signed r)) (λ _, True) (requireSession r (λ s, withCSRF r s (next s))).
Proof using Type. apply requireSession_guarded. intros s Hs. by apply withCSRF_guarded. Qed.

Lemma loaded_form_guarded {A} r (p : GoE Database A) message next :
  reads p → guarded harmless (granted r (signed r)) (λ _, True)
    (requireSession r (λ s, scan_loaded p message (λ a, withCSRF r s (next s a)))).
Proof using Type.
  intros Hp. apply requireSession_guarded. intros s Hs. apply scan_loaded_guarded; [done|]. intros a. by apply withCSRF_guarded.
Qed.

Lemma scan_writes_guarded :
  Forall (λ x : route, ∀ r, guarded harmless (granted r (signed r)) (λ _, True) (x.2 r)) scan_writes.
Proof using Type.
  unfold scan_writes. repeat (apply Forall_cons; split); [..|by apply Forall_nil]; intros r; cbn [snd].
  all: first [apply session_form_guarded | apply loaded_form_guarded].
  all: first [apply GetScanAgent_reads | apply GetScanSchedule_reads].
Qed.

(** C9: Whatever else runs, a request that would start a scan, change an agent, a
    schedule or the review of a discovery takes no step that changes anything but the
    audit log and the times of use before one of its steps found its cookie to name a
    live session whose form token it carries. *)
Theorem scan_changes_need_a_session (x : route) r others i w l a b l' :
  x ∈ scan_writes → steps others i (authorize x.2 r) w = l ++ (a, b) :: l' → ¬ harmless a b →
  ∃ y z, (y, z) ∈ l ∧ granted r (signed r) y.
Proof using Type.
  intros Hx Hs Hn. pose proof scan_writes_guarded as H. rewrite Forall_forall in H.
  eapply guarded_steps; [apply authorize_guarded, (H x Hx)|exact Hs|exact Hn].
Qed.

(** ** Reading *)

Lemma listing_reads {A} (f : World Database → A) : reads (stmt (λ _ w, Ok (f w, w))).
Proof using Type. apply reads_stmt. by intros ? ? ? ? [= _ <-]. Qed.
Lemma listing_reads_inv {A} (f : World Inventory → A) : reads (stmt (λ _ w, Ok (f w, w))).
Proof using Type. apply reads_stmt. by intros ? ? ? ? [= _ <-]. Qed.

Lemma scan_listed_harmless {A} (f : World Database → A) message next :
  (∀ a, guarantees harmless (next a)) → guarantees harmless (scan_listed (stmt (λ _ w, Ok (f w, w))) message next).
Proof using Type. intros Hn. apply read_then; [apply listing_reads|]. by intros [a|e]. Qed.

Lemma scan_loaded_harmless {A} (p : GoE Database A) message next :
  reads p → (∀ a, guarantees harmless (next a)) → guarantees harmless (scan_loaded p message next).
Proof using Type. intros Hp Hn. apply read_then; [done|]. intros [a|[]]; [apply Hn|done..]. Qed.

Lemma renderDiscoveries_harmless r prompt e m : guarantees harmless (renderDiscoveries by_ip by_last_seen r prompt e m).
Proof using Type.
  apply listed_harmless; [apply listing_reads_inv|].
  apply read_then; [apply reads_zoom, listing_reads_inv|]. intros ?.
  apply read_then; [apply reads_zoom, listing_reads_inv|]. intros ?.
  apply read_then; [apply reads_zoom, listing_reads_inv|]. intros ?. destruct prompt; [|done].
  by apply read_then; [apply reads_zoom, ListSites_reads|].
Qed.

Lemma discoveryScanTargets_reads id : reads (discoveryScanTargets id).
Proof using Type. unfold discoveryScanTargets. destruct (decide _); [done|]. by apply reads_bind; [apply GetScanJob_reads|]. Qed.

Lemma GetDiscovery_reads id : reads (GetDiscovery id).
Proof using Type. apply reads_stmt. intros now w a w'. destruct (find_discovery _ _) as [[? ?]|]; [|done]. by intros [= _ <-]. Qed.

Theorem scan_reads_harmless : Forall (λ x : route, ∀ r, guarantees harmless (x.2 r)) scan_reads.
Proof using Type.
  unfold scan_reads. repeat (apply Forall_cons; split); [..|by apply Forall_nil]; intros r; cbn [snd].
  all: apply requireSession_harmless; intros s.
  all: try (apply scan_listed_harmless; by intros).
  all: try (apply scan_loaded_harmless; [first [apply GetScanAgent_reads|apply GetScanSchedule_reads|apply GetScanJob_reads]|]; intros a; try done).
  - cbn zeta. by destruct (parseScanResult _ _), (partitionScanErrors _).
  - done.
  - cbn zeta. destruct (decide _); [destruct (decide _)|].
    + apply read_then; [apply reads_bind; [apply reads_zoom, listing_reads_inv|done]|]. intros p. apply renderDiscoveries_harmless.
    + apply renderDiscoveries_harmless.
    + apply read_then; [|intros [p|]; [apply renderDiscoveries_harmless|done]].
      apply reads_bind; [apply reads_zoom, GetDiscovery_reads|]. intros [d|]; [|done].
      by apply reads_bind; [apply discoveryScanTargets_reads|].
  - by apply scan_listed_harmless.
Qed.

(** ** The settings *)

(** The inventory, the accounts, the webhooks and the memory stay; the audit log and
    the times of use may change. *)
Record calm (w w' : World Installation) : Prop := MkCalm
  { cm_db : harmless (to_database w) (to_database w'); cm_hooks : is_hooks (w_inv w') = is_hooks (w_inv w);
    cm_log : is_deliveries (w_inv w') = is_deliveries (w_inv w); cm_memory : memory w' = memory w;
    cm_sending : is_sending (w_inv w') = is_sending (w_inv w) }.

(** The request's cookie names a live session, by the idle time of some settings. *)
Definition granted_by (r : Request) (need : Session → bool) (w : World Installation) : Prop :=
  ∃ s, granted (app := tuned s) r need (to_database w).

Lemma calm_lift {A} (p : Go Database A) (ok : World Database → Prop) (Q : A → Prop) :
  guarded harmless ok Q p → guarded calm (λ w, ok (to_database w)) Q (lift p).
Proof using Type.
  induction p as [a|g k IH]; [done|]. intros Hp w. destruct (Hp (to_database w)) as [Hg Hk]. split.
  - split; [by rewrite to_of_database|done..].
  - destruct Hk as [Hok|Hk]; [by left|right; by apply IH].
Qed.

Lemma calm_bump w : calm w (bump w).
Proof using Type. split; [apply harmless_bump|done..]. Qed.

Lemma calm_read (f : World Installation → Memory) ok : guarded calm ok (λ _, True) (atomic (λ w, (f w, w))).
Proof using Type. intros w. split; [|by right]. by split. Qed.

Lemma current_session_guarded r need :
  guarded calm (granted_by r need) (λ o, ∀ s, o = Some s → need s = false) (current_session r).
Proof using Type.
  unfold current_session. intros w. split; [by split|right]. rewrite prog_bind_ret. cbn [fst].
  eapply guarded_weaken; [| |apply calm_lift, (currentSession_guarded (app := tuned (mm_Security (memory w))) r need)]; [done|].
  intros v Hv. by exists (mm_Security (memory w)).
Qed.

Lemma with_admin_guarded r (next : Session → Go Installation Response) :
  (∀ s, signed r s = false → guarded calm (granted_by r (admin_signed r)) (λ _, True) (next s)) →
  guarded calm (granted_by r (admin_signed r)) (λ _, True) (with_admin r next).
Proof using Type.
  intros Hn. unfold with_admin, with_session. eapply guarded_bind; [apply current_session_guarded|].
  intros [s|] Hs; [|done]. destruct (u_IsAdmin (se_User s)) eqn:Ha; [|done]. apply Hn.
  pose proof (Hs s eq_refl) as H. unfold admin_signed in H. by rewrite Ha, andb_true_r in H.
Qed.

Lemma with_csrf_guarded r ok s next : signed r s = false → guarded calm ok (λ _, True) (with_csrf r s next).
Proof using Type. unfold signed, with_csrf. by intros ->. Qed.

Lemma settings_writes_guarded :
  Forall (λ x : service_route, ∀ r, guarded calm (granted_by r (admin_signed r)) (λ _, True) (x.2 r)) settings_writes.
Proof using Type.
  unfold settings_writes. repeat (apply Forall_cons; split); [..|by apply Forall_nil]; intros r; cbn [snd].
  all: apply with_admin_guarded; intros s Hs; try by apply with_csrf_guarded.
  all: apply guarded_after; [|intros [wh|[]]; [by apply with_csrf_guarded|done..]].
  all: apply guarantees_atomic; intros w; unfold run_stmt; destruct (fault (w_step w)); [apply calm_bump|].
  all: by destruct (is_hooks _ !! _); apply calm_bump.
Qed.

(** The authorization in front of every handler, with the settings in memory. *)
Definition authorize_service (next : Service) : Service := λ r,
  if safeMethod (rq_Method r) || publicWritePath (rq_Path r) || isAccountPath (rq_Path r) then next r
  else
    session ←! current_session r;
    match session with
    | Some s => if negb (canWrite (u_Role (se_User s))) then answer ForbiddenPage else next r
    | None => next r
    end.

End services.

(** ** Witnesses *)

Definition pending_agent : ScanAgent :=
  MkScanAgent "g" "probe" "" "https://10.0.0.9:8443" "" ["10.0.0.0/24"] "pending" false "" None 0 0.
Definition agent_world : World Database := with_agents {["g" := pending_agent]} demo_world.
Definition approve_request : Request := request "POST" "/agents/g/approve" "g" "sa" [("csrf_token", "ta")].
Definition approve_steps : list (World Database * World Database) :=
  steps quiet 0 (authorize (env := calm_env) (agentApprove (env := calm_env)) approve_request) agent_world.

Definition save_steps : list (World Installation * World Installation) :=
  steps quiet 0 (authorize_service (env := calm_env) (settingsSecurityUpdate (env := calm_env)) (security_request "sa" "ta" "7")) demo_install.

(** The [n]-th step, and what comes before it. *)
Lemma split_steps {W} (l : list (W * W)) n x : l !! n = Some x → l = take n l ++ (x.1, x.2) :: drop (S n) l.
Proof. intros Hx. symmetry. destruct x as [a b]. by apply take_drop_middle. Qed.

Lemma scan_changes_need_a_session_witness :
  ∃ l a b l', approve_steps = l ++ (a, b) :: l' ∧ ¬ harmless a b ∧
    ∃ y z, (y, z) ∈ l ∧ granted (env := calm_env) approve_request (signed approve_request) y.
Proof.
  set (x := default (agent_world, agent_world) (approve_steps !! 5%nat)).
  assert (bool_decide (is_Some (approve_steps !! 5%nat)) = true) as Hx%bool_decide_eq_true by (vm_compute; reflexivity).
  assert (approve_steps !! 5%nat = Some x) as Hx' by (unfold x; destruct Hx as [y ->]; reflexivity).
  assert (sa_Status <$> w_agents x.1 !! "g" = Some "pending") as Ha by (vm_compute; reflexivity).
  assert (sa_Status <$> w_agents x.2 !! "g" = Some "active") as Hb by (vm_compute; reflexivity).
  assert (¬ harmless x.1 x.2) as Hn by (intros H%hl_agents; rewrite H, Ha in Hb; discriminate Hb).
  pose proof (split_steps _ _ _ Hx') as Hs.
  exists (take 5 approve_steps), x.1, x.2, (drop 6 approve_steps). refine (conj Hs (conj Hn _)).
  refine (scan_changes_need_a_session (env := calm_env) (λ _, true) (λ _, None) (λ _, "") (λ _, "") None (Diag := unit) None
    same_order same_order same_order (λ _, "") ("POST", "/agents/{id}/approve", agentApprove (env := calm_env))
    approve_request quiet 0 agent_world _ _ _ _ _ Hs Hn).
  unfold scan_writes. rewrite !elem_of_cons. tauto.
Defined.

