(* ===== verification/Trail.v ===== *)
(** * The audit log's page and the dashboard

    [internal/store/audit.go], the audit page, the dashboard and the health checks of
    [internal/app/app.go], and the picture of a second factor ([mfa.go]). *)

From S2P Require Import Prelude GoStrings Protocol GoTime Process Scans Windows Queue Inventory Import InventorySpec Integrity Records Bulk RecordsSpec Portability Listings Orchestrator Lockout Password Totp Secrets Json Accounts Web Signin Users Pages Batch Api Demo Routes Config Events Install Settings Policy Endpoints Review Scanforms Scanpages Webhooks Oidc Services.
Local Open Scope Z_scope.

(** ** The store *)

(** An entry as the queries read it, but for its number. *)
Record AuditLog : Type := MkAuditLog
  { lg_ActorUserID : string; lg_ActorDisplayName : string; lg_Action : string; lg_SubjectType : string;
    lg_SubjectID : string; lg_Metadata : string; lg_CreatedAt : Z }.

Record AuditFilters : Type := MkAuditFilters
  { af_Action : string; af_SubjectType : string; af_ActorUserID : string; af_Limit : Z }.

Definition audit_view (w : World Database) (a : AuditRow) : AuditLog :=
  MkAuditLog (default "" (au_actor a)) (default "" (au_actor a ≫= λ u, w_users w !! u)) (au_action a) (au_subject_type a)
    (au_subject a) (au_metadata a) (au_created a).

(** A comparison with [NULL] is not true. *)
Definition passes (f : AuditFilters) (a : AuditRow) : bool :=
  bool_decide (af_Action f = "" ∨ au_action a = af_Action f) &&
  bool_decide (af_SubjectType f = "" ∨ au_subject_type a = af_SubjectType f) &&
  bool_decide (af_ActorUserID f = "" ∨ au_actor a = Some (af_ActorUserID f)).

Definition audit_limit (limit : Z) : Z := if (limit <=? 0) || (200 <? limit) then 100 else limit.

(** [ORDER BY created_at DESC]; PostgreSQL leaves equal times unordered. *)
Definition more_recent (a b : AuditRow) : Prop := au_created b ≤ au_created a.
#[export] Instance more_recent_dec a b : Decision (more_recent a b).
Proof. unfold more_recent. apply _. Defined.

Section audit.
Context {env : Env} {app : App}.

Definition ListAuditLogs (f : AuditFilters) : GoE Database (list AuditLog) :=
  stmt (λ _ w, Ok (map (audit_view w)
    (take (Z.to_nat (audit_limit (af_Limit f))) (merge_sort more_recent (filter (λ a, passes f a = true) (w_audit w)))), w)).

(** [SELECT DISTINCT column ... ORDER BY column], in the order of the collation. *)
Definition distinctAuditValues (column : AuditRow → string) : GoE Database (list string) :=
  stmt (λ _ w, Ok (by_name _ (λ v, v) (remove_dups (map column (w_audit w))), w)).
Definition AuditActions : GoE Database (list string) := distinctAuditValues au_action.
Definition AuditSubjectTypes : GoE Database (list string) := distinctAuditValues au_subject_type.

(** The users with an entry; their roles are not read. *)
Definition audit_actor (w : World Database) (id : string) (r : UserRow) : User :=
  MkUser id (us_Username r) (default "" (w_users w !! id)) (us_PasswordHash r) "" (us_IsAdmin r).
Definition AuditActors : GoE Database (list User) :=
  stmt (λ _ w, Ok (by_name _ u_DisplayName
    (map (λ p, audit_actor w p.1 p.2)
      (filter (λ p, existsb (λ a, bool_decide (au_actor a = Some p.1)) (w_audit w) = true) (map_to_list (ac_users (acc w))))), w)).

(** ** The pages *)

Definition in_time {A} (p : GoE Database A) (message : string) (next : Go Installation Response) : Go Installation Response :=
  found ←! lift p; match found with Ok _ => next | Err _ => failure message end.

Definition audit_filters (r : Request) : AuditFilters :=
  let q name := trim_space (default "" (rq_Query r !! name)) in
  MkAuditFilters (q "action") (q "subject_type") (q "actor") 100.

Definition auditIndex : Service := λ r,
  with_session r (λ _,
    let f := audit_filters r in
    in_time (ListAuditLogs f) "Unable to load audit logs" (
    in_time AuditActions "Unable to load audit filters" (
    in_time AuditSubjectTypes "Unable to load audit filters" (
    in_time AuditActors "Unable to load audit filters" (
    answer (Dialog "audit.html" "Audit Log" "" ""
      [("action", af_Action f); ("subject_type", af_SubjectType f); ("actor", af_ActorUserID f)])))))).

(** The counts at the end are shown as zero when they cannot be read. *)
Definition dashboard (printable : Z → bool) (by_ip : list (string * DiscoveryRow) → list (string * DiscoveryRow)) : Service := λ r,
  first ←! lift needsBootstrap;
  if first : bool then answer (Redirect "/bootstrap")
  else with_session r (λ _,
    in_time (zoom db_DashboardStats) "Unable to load dashboard" (
    in_time (zoom list_subnets) "Unable to load dashboard" (
    in_time (zoom list_devices) "Unable to load dashboard" (
    in_time (ListAuditLogs (MkAuditFilters "" "" "" 5)) "Unable to load dashboard" (
    _ ←! lift (zoom CountPendingDiscoveries);
    _ ←! lift (ListScanJobs 4);
    s ←! policySettings;
    _ ←! lift (zoom (computePolicy printable by_ip s));
    answer (Page "dashboard.html" "Dashboard" "" "")))))).

(** ** Health *)

(** [version]: the build; [migrations]: the schema versions that were applied. *)
Context (version : string) (migrations : list Z).

(** The build's text is put between quotation marks by [%q], which agrees with JSON on
    printable ASCII. *)
Definition health : Service := λ _,
  answer (Reply 200 (JObject [("status", JString "ok"); ("service", JString "light-ipam");
    ("version", JString (if decide (version = "") then "dev" else version))])).

Definition Ping : GoE Installation unit := stmt (λ _ w, Ok ((), w)).
Definition MigrationVersion : GoE Installation Z := stmt (λ _ w, Ok (foldr Z.max 0 migrations, w)).

Definition ready : Service := λ _,
  up ←! Ping;
  match up with
  | Err _ => answer (Reply StatusServiceUnavailable (JObject [("status", JString "unavailable"); ("database", JString "down")]))
  | Ok _ =>
      applied ←! MigrationVersion;
      answer match applied with
        | Err _ => Reply StatusServiceUnavailable (JObject [("status", JString "unavailable"); ("database", JString "up")])
        | Ok n => Reply 200 (JObject [("status", JString "ready"); ("database", JString "up"); ("migration", JInt n)])
        end
  end.

(** ** The picture of a second factor *)

(** Of [mfa.go]; [Encode]: the picture of a text, when it fits. *)
Definition totpIssuer : string := "Light IPAM".
Definition mfaQR (Encode : string → option string) : Handler := λ r,
  requireSession r (λ session,
    match sealer return Go Database Response with
    | None => respond NotFoundPage
    | Some c =>
        enrollment ←! GetUserTOTP (u_ID (se_User session));
        match enrollment with
        | Err _ => respond NotFoundPage
        | Ok t =>
            if tr_Enabled t then respond NotFoundPage
            else match Open c (tr_Secret t) with
                 | None => respond NotFoundPage
                 | Some secretValue =>
                     respond match Encode (TOTPProvisioningURI secretValue (u_Username (se_User session)) totpIssuer) with
                             | Some png => Picture png
                             | None => HttpError "Unable to render QR" StatusInternalServerError
                             end
                 end
        end
    end).

Lemma mfaQR_harmless Encode r : guarantees harmless (mfaQR Encode r).
Proof.
  apply requireSession_harmless. intros session. destruct sealer as [c|]; [|done].
  apply read_then; [apply GetUserTOTP_reads|]. intros [t|e]; [|done]. destruct (tr_Enabled t); [done|]. by destruct (Open c _).
Qed.
End audit.

(** * The audit log is kept

    The entries of [audit_logs] are immutable (a trigger of migration 4), and so is who
    made them: no request removes or changes an entry, and a user with an entry stays.
    What the trigger does to the deletion of users is shown at the end. *)

(** The user has an entry. *)
Definition recorded (id : string) (w : World Database) : Prop := ∃ a, a ∈ w_audit w ∧ au_actor a = Some id.

Record trail (w w' : World Database) : Prop :=
  { tr_audit : w_audit w `prefix_of` w_audit w';
    tr_users : ∀ id, recorded id w → is_Some (ac_users (acc w) !! id) → is_Some (ac_users (acc w') !! id) }.

Lemma recorded_prefix id w w' : w_audit w `prefix_of` w_audit w' → recorded id w → recorded id w'.
Proof. intros [l Hl] (a & Ha & Hi). exists a. split; [|done]. rewrite Hl, elem_of_app. by left. Qed.

#[global] Instance trail_preorder : PreOrder trail.
Proof.
  split; [by split|]. intros w1 w2 w3 [A1 U1] [A2 U2]. split; [by etrans|]. intros id Hr Hu.
  apply U2; [by eapply recorded_prefix|by apply U1].
Qed.

Lemma same_trail w w' : w_audit w' = w_audit w → ac_users (acc w') = ac_users (acc w) → trail w w'.
Proof. intros Ha Hu. split; [by rewrite Ha|]. by rewrite Hu. Qed.

(** Every user stays. *)
Lemma grown_trail w w' : w_audit w' = w_audit w → (∀ id, is_Some (ac_users (acc w) !! id) → is_Some (ac_users (acc w') !! id)) → trail w w'.
Proof. intros Ha Hu. split; [by rewrite Ha|]. auto. Qed.

Create HintDb trail.

Section trail.
Context {env : Env} {app : App}.

Lemma harmless_trail {A} (p : Go Database A) : guarantees harmless p → guarantees trail p.
Proof. apply guarantees_mono. intros w w' H. split; [apply H|]. by rewrite (hl_users _ _ H). Qed.

Lemma reads_trail {A} (p : Go Database A) : reads p → guarantees trail p.
Proof. intros Hp. by apply harmless_trail, reads_harmless. Qed.

Lemma zoom_trail {A} (p : Go Inventory A) : guarantees only_inv p → guarantees trail (zoom p).
Proof.
  induction p as [a|g k IH]; [done|]. intros Hp w. destruct (Hp (to_inventory w)) as [Hg Hk]. split; [|by apply IH].
  apply same_trail; [|done]. apply Hg.
Qed.

Lemma stmt_trail {A} (f : Z → World Database → result db_error (A * World Database)) :
  (∀ now w a w', f now w = Ok (a, w') → trail w w') → guarantees trail (stmt f).
Proof. intros Hf. apply guarantees_stmt; [intros w; by apply same_trail|]. intros w now a w' Hr. etrans; [|by eapply Hf]. by apply same_trail. Qed.

(** ** Statements *)

Ltac same_tables :=
  apply stmt_trail; intros ? ? ? ? Hs; cbn zeta in Hs; unfold mbind, result_bind in Hs;
  repeat (case_match; simplify_eq/=; try done); simplify_eq/=; by apply same_trail.

Lemma alter_trail (h : UserRow → UserRow) target :
  guarantees trail (stmt (λ _ w, Ok ((), edit_acc (λ a, put_users (alter h target (ac_users a)) a) w))).
Proof. apply stmt_trail. intros now w a w' [= <- <-]. apply grown_trail; [done|]. intros id. cbn. by rewrite lookup_alter_is_Some. Qed.

Lemma SetUserPassword_trail id hash : guarantees trail (SetUserPassword id hash).
Proof. apply alter_trail. Qed.
Lemma SetUserRole_trail id role : guarantees trail (SetUserRole id role).
Proof. unfold SetUserRole. destruct (ValidRole role); [apply alter_trail|done]. Qed.

(** The trigger. *)
Lemma DeleteUser_trail id : guarantees trail (DeleteUser id).
Proof.
  apply stmt_trail. intros now w a w' Hs. destruct (prevent_audit_log_mutation id w) eqn:Hp; [done|]. simplify_eq.
  split; [done|]. intros k (e & He & Hk) Hu. cbn. rewrite lookup_delete_ne; [done|]. intros <-.
  unfold prevent_audit_log_mutation in Hp. rewrite bool_decide_eq_true_2 in Hp by done. cbn in Hp.
  assert (existsb (λ a, bool_decide (au_actor a = Some id)) (w_audit w) = true); [|congruence].
  apply existsb_exists. exists e. split; [by apply list_elem_of_In|by apply bool_decide_eq_true].
Qed.

Lemma revoke_trail f : guarantees trail (revoke f).
Proof. same_tables. Qed.
Lemma StartTOTPEnrollment_trail id s : guarantees trail (StartTOTPEnrollment id s).
Proof. same_tables. Qed.
Lemma EnableTOTP_trail id l : guarantees trail (EnableTOTP id l).
Proof. same_tables. Qed.
Lemma DisableTOTP_trail id : guarantees trail (DisableTOTP id).
Proof. same_tables. Qed.
Lemma ConsumeRecoveryCode_trail id h : guarantees trail (ConsumeRecoveryCode id h).
Proof. same_tables. Qed.
Lemma DeleteAPIToken_trail id u : guarantees trail (DeleteAPIToken id u).
Proof. same_tables. Qed.
Lemma DeleteSession_trail id : guarantees trail (DeleteSession id).
Proof. same_tables. Qed.
Lemma token_trail : guarantees trail (random_token (Inv := Database)).
Proof. apply reads_trail, reads_token. Qed.
Lemma CreateAPIToken_trail id name hash : guarantees trail (CreateAPIToken id name hash).
Proof.
  apply guarantees_try; [apply token_trail|]. intros t. apply guarantees_try; [same_tables|]. intros _. same_tables.
Qed.
Lemma CreateSession_trail user expires ip agent : guarantees trail (CreateSession user expires ip agent).
Proof.
  apply guarantees_try; [apply token_trail|]. intros id. apply guarantees_try; [apply token_trail|]. intros csrf. same_tables.
Qed.

Lemma insert_user_trail id username name hash role isAdmin subject now w a w' :
  insert_user id username name hash role isAdmin subject now w = Ok (a, w') → trail w w'.
Proof.
  unfold insert_user. destruct (_ || _); [done|]. intros [= <- <-]. apply grown_trail; [done|]. intros k Hk. cbn.
  by apply lookup_insert_is_Some'; right.
Qed.

Lemma CreateUser_trail username name hash role : guarantees trail (CreateUser username name hash role).
Proof. apply guarantees_try; [apply token_trail|]. intros id. apply stmt_trail. intros now w a w'. apply insert_user_trail. Qed.
Lemma CreateAdmin_trail username name hash : guarantees trail (CreateAdmin username name hash).
Proof. apply guarantees_try; [apply token_trail|]. intros id. apply stmt_trail. intros now w a w'. apply insert_user_trail. Qed.

Lemma LinkOIDCSubject_trail id subject : guarantees trail (LinkOIDCSubject id subject).
Proof.
  apply stmt_trail. intros now w a w' Hs. destruct (_ && _); [done|]. simplify_eq. apply grown_trail; [done|]. intros k. cbn.
  by rewrite lookup_alter_is_Some.
Qed.
Lemma CreateSSOUser_trail hash name display role subject :
  (∀ p, guarantees trail (hash p)) → guarantees trail (CreateSSOUser hash name display role subject).
Proof.
  intros Hh. apply guarantees_try; [apply token_trail|]. intros id. apply guarantees_try; [apply token_trail|]. intros p.
  apply guarantees_try; [apply Hh|]. intros h. apply stmt_trail. intros now w a w'. apply insert_user_trail.
Qed.
Lemma sso_hash_trail p : guarantees trail (sso_hash p).
Proof. apply guarantees_bind; [by apply guarantees_atomic; intros w; apply same_trail|]. by intros [h|]. Qed.

Lemma CreateAuditLog_trail who action st sid metadata : guarantees trail (CreateAuditLog (Inv := Database) who action st sid metadata).
Proof. apply harmless_trail, CreateAuditLog_harmless. Qed.
Lemma currentSession_trail r : guarantees trail (currentSession r).
Proof. apply harmless_trail, currentSession_harmless. Qed.
Lemma authenticateAPI_trail r : guarantees trail (authenticateAPI r).
Proof. apply harmless_trail, authenticateAPI_harmless. Qed.

(** ** Programs of the inventory *)

Lemma wf_only {A} (p : Go Inventory A) : guarantees keeps_inventory p → guarantees only_inv p.
Proof. apply guarantees_mono. by intros w w' []. Qed.
Lemma reads_only {A} (p : Go Inventory A) : reads p → guarantees only_inv p.
Proof. apply guarantees_mono. by intros w w' ->. Qed.

Lemma only_bump {Inv} (w : World Inv) : only_inv w (bump w).
Proof. done. Qed.

(** A statement that edits the inventory. *)
Ltac only_stmt :=
  apply guarantees_stmt; [apply only_bump|]; intros ? ? ? ? Hs; cbn zeta in Hs; unfold mbind, result_bind in Hs;
  repeat (case_match; simplify_eq/=; try done); simplify_eq/=; by repeat split.

Ltac head_of t := lazymatch t with ?f _ => head_of f | _ => t end.

Ltac trail_step :=
  match goal with
  | |- guarantees _ (Ret _) => exact I
  | |- guarantees _ (respond _) => exact I
  | |- guarantees trail (zoom _) => apply zoom_trail
  | |- guarantees _ (try_bind _ _) => apply guarantees_try; [|intros ?]
  | |- guarantees _ (prog_bind _ _) => apply guarantees_bind; [|intros ?]
  | |- guarantees _ (match ?x with _ => _ end) => destruct x
  | |- guarantees trail (atomic _) => apply guarantees_atomic; intros ?; by apply same_trail
  | |- guarantees only_inv (atomic _) => apply guarantees_atomic; intros ?; apply only_bump
  | |- guarantees _ _ => solve [eauto 3 with trail]
  | |- guarantees only_inv (stmt _) => only_stmt
  | |- guarantees trail (stmt _) => same_tables
  | |- guarantees _ ?p => let h := head_of p in unfold h
  end.

Hint Resolve SetUserPassword_trail SetUserRole_trail DeleteUser_trail revoke_trail StartTOTPEnrollment_trail EnableTOTP_trail
  DisableTOTP_trail ConsumeRecoveryCode_trail DeleteAPIToken_trail DeleteSession_trail token_trail CreateAPIToken_trail
  CreateSession_trail CreateUser_trail CreateAdmin_trail CreateAuditLog_trail currentSession_trail authenticateAPI_trail
  LinkOIDCSubject_trail CreateSSOUser_trail sso_hash_trail : trail.
Hint Resolve wf_only reads_only GetSubnet_wf GetAddress_wf GetDevice_wf ensureNoSubnetOverlap_wf CreateSubnet_wf UpdateSubnet_wf DeleteSubnet_wf
  CreateAddress_wf UpdateAddress_wf DeleteAddress_wf CreateDevice_wf UpdateDevice_wf DeleteDevice_wf CreateMACAddress_wf
  DeleteMACAddress_wf TagAdd_wf TagRemove_wf BulkSetAddressState_wf BulkClearAddressDevice_wf BulkDeleteAddresses_wf
  BulkSetSubnetVLAN_wf BulkDeleteSubnets_wf BulkDeleteDevices_wf UnlinkDevice_wf DismissDiscovery_wf DismissSuggestion_wf ImportSubnets_wf ImportAddresses_wf ImportDevices_wf
  ListLinkedDevices_reads ListDeviceLinkSuggestions_reads : trail.

Ltac by_trail := repeat (apply Forall_cons; split); [..|by apply Forall_nil]; intros r; cbn [snd]; repeat trail_step.

Lemma session_writes_trail : Forall (λ x : route, ∀ r, guarantees trail (x.2 r)) session_writes.
Proof. unfold session_writes. by_trail. Qed.
Lemma admin_writes_trail : Forall (λ x : route, ∀ r, guarantees trail (x.2 r)) admin_writes.
Proof. unfold admin_writes. by_trail. Qed.
Lemma other_routes_trail : Forall (λ x : route, ∀ r, guarantees trail (x.2 r)) other_routes.
Proof. unfold other_routes. by_trail. Qed.
Lemma api_routes_trail : Forall (λ x : route, ∀ r, guarantees trail (x.2 r)) registerAPIRoutes.
Proof.
  unfold registerAPIRoutes. apply Forall_app. split; [unfold api_routes; by_trail|].
  apply Forall_forall. intros x Hx r. by rewrite (not_allowed_handler x Hx).
Qed.

Context (printable : Z → bool) (LoadLocation : string → option Location).
Context (Error : job_error → string) (StoreError : db_error → string) (Unmarshal : string → option ScanResult).
Context (scans : option (option Dispatcher)) {Diag : Type} (Diagnostics : option (nat → string → result string Diag)).
Context (shuffle : list missingSubnet → list missingSubnet)
        (by_ip by_last_seen : list (string * DiscoveryRow) → list (string * DiscoveryRow))
        (MarshalServices : list DiscoveryService → string) (Encode : string → option string).

Lemma importTargets_trail session l n : guarantees trail (importTargets MarshalServices session l n).
Proof.
  revert n. induction l as [|t l IH]; intros n; [done|]. cbn [importTargets]. destruct (negb _); [apply IH|].
  apply guarantees_bind; [repeat trail_step|]. intros [d|[]]; try done; [|apply IH..].
  apply guarantees_bind; [repeat trail_step|]. intros []. apply IH.
Qed.
Hint Resolve importTargets_trail : trail.

Lemma scan_writes_trail : Forall (λ x : route, ∀ r, guarantees trail (x.2 r))
  (scan_writes printable LoadLocation Error StoreError scans Diagnostics shuffle by_ip by_last_seen MarshalServices).
Proof. unfold scan_writes. by_trail. Qed.

(** ** The services *)

Definition trail_of (w w' : World Installation) : Prop := trail (to_database w) (to_database w').

Lemma lift_trail {A} (p : Go Database A) : guarantees trail p → guarantees trail_of (lift p).
Proof.
  induction p as [a|g k IH]; [done|]. intros Hp w. destruct (Hp (to_database w)) as [Hg Hk]. split; [|by apply IH].
  unfold trail_of. by rewrite to_of_database.
Qed.

Lemma same_trail_of w w' : to_database w' = bump (to_database w) → trail_of w w'.
Proof. intros H. unfold trail_of. rewrite H. by apply same_trail. Qed.

Ltac same_base :=
  apply guarantees_stmt; [intros ?; by apply same_trail_of|]; intros ? ? ? ? Hs; cbn zeta in Hs; unfold mbind, result_bind in Hs;
  repeat (case_match; simplify_eq/=; try done); simplify_eq/=; by apply same_trail.

Lemma hooked_log_trail who action st sid metadata : guarantees trail_of (hooked_log who action st sid metadata).
Proof.
  apply guarantees_bind.
  { apply guarantees_stmt; [intros w; by apply same_trail|]. intros w now a w' Hs.
    destruct (jsonb_in _); [|done]. destruct (negb _); [done|]. simplify_eq. split; [by eexists|done]. }
  intros [u|e]; [|done]. unfold AuditHook. apply guarantees_bind; [by apply guarantees_atomic; intros w; apply same_trail|].
  intros [|]; [|done]. cbn [negb]. destruct (categoryForAction _); [|done].
  apply guarantees_bind; [by apply guarantees_atomic; intros w; apply same_trail|]. intros now.
  destruct (EventFromAudit _ _ _); [|done]. apply guarantees_atomic; intros w; by apply same_trail.
Qed.
Lemma RecordWebhookDelivery_trail d : guarantees trail_of (RecordWebhookDelivery d).
Proof.
  apply guarantees_try; [|intros u]; apply guarantees_stmt; try (intros w; by apply same_trail).
  - intros w now a w' Hs. unfold insert_delivery in Hs. repeat case_match; simplify_eq; by apply same_trail.
  - intros w now a w' [= <- <-]. by apply same_trail.
Qed.
Hint Resolve hooked_log_trail RecordWebhookDelivery_trail : trail.

Ltac service_step :=
  match goal with
  | |- guarantees trail_of (lift _) => apply lift_trail; repeat trail_step
  | |- guarantees trail_of (answer _) => exact I
  | |- guarantees trail_of (atomic _) => apply guarantees_atomic; intros ?; by apply same_trail
  | |- guarantees trail_of (stmt _) => same_base
  | _ => trail_step
  end.

Context (Post : nat → string → list (string * string) → string → result string Z).
Context (NewProvider : nat → string → bool) (GenerateVerifier : nat → string)
        (AuthCodeURL : nat → oidcProvider → string → string → string → string)
        (Exchange : nat → oidcProvider → string → string → option (option string))
        (Verify : nat → oidcProvider → string → option IDToken).

Definition service_routes : list service_route :=
  settings_writes printable Post ++
  [("GET", "/auth/oidc/start", oidcStart NewProvider GenerateVerifier AuthCodeURL);
   ("GET", "/auth/oidc/callback", oidcCallback NewProvider Exchange Verify);
   ("GET", "/", dashboard printable by_ip); ("GET", "/audit", auditIndex)].

Lemma services_trail : Forall (λ x : service_route, ∀ r, guarantees trail_of (x.2 r)) service_routes.
Proof.
  unfold service_routes, settings_writes. apply Forall_app; split; (repeat (apply Forall_cons; split); [..|by apply Forall_nil]; intros r; cbn [snd]).
  all: repeat service_step.
Qed.

(** ** Requests *)

Definition page_routes : list route :=
  all_routes ++
  scan_writes printable LoadLocation Error StoreError scans Diagnostics shuffle by_ip by_last_seen MarshalServices ++
  scan_reads Unmarshal (Diag := Diag) shuffle by_ip by_last_seen ++
  [("GET", "/account/mfa/qr.png", mfaQR Encode)].

Lemma page_routes_trail : Forall (λ x : route, ∀ r, guarantees trail (x.2 r)) page_routes.
Proof.
  assert (∀ l : list route, Forall (λ x : route, ∀ r, guarantees harmless (x.2 r)) l →
            Forall (λ x : route, ∀ r, guarantees trail (x.2 r)) l) as Hread.
  { intros l Hl. eapply Forall_impl; [exact Hl|]. intros x Hx r. by apply harmless_trail. }
  unfold page_routes, all_routes. rewrite !Forall_app. split_and!.
  - apply session_writes_trail.
  - apply admin_writes_trail.
  - apply Hread, read_routes_harmless.
  - apply other_routes_trail.
  - apply api_routes_trail.
  - apply scan_writes_trail.
  - apply Hread, scan_reads_harmless.
  - apply Hread. apply Forall_singleton. apply mfaQR_harmless.
Qed.

Lemma authorize_trail h r : guarantees trail (h r) → guarantees trail (authorize h r).
Proof. intros Hh. repeat trail_step; exact Hh. Qed.
Lemma authorize_service_trail h r : guarantees trail_of (h r) → guarantees trail_of (authorize_service h r).
Proof. intros Hh. unfold authorize_service. repeat service_step; exact Hh. Qed.

(** C12: Whatever else runs, no step of a request, to a page, the API, the settings or the
    sign-on, removes or changes an entry of the audit log or takes away a user with an
    entry. *)
Theorem audit_trail_kept r i :
  (∀ (x : route) others w a b, x ∈ page_routes → (a, b) ∈ steps others i (authorize x.2 r) w → trail a b) ∧
  (∀ (x : service_route) others w a b, x ∈ service_routes → (a, b) ∈ steps others i (authorize_service x.2 r) w → trail_of a b).
Proof.
  pose proof page_routes_trail as Hp. pose proof services_trail as Hs. rewrite Forall_forall in Hp. rewrite Forall_forall in Hs. split.
  - intros x others w a b Hx. apply guaranteed_steps, authorize_trail. by apply Hp.
  - intros x others w a b Hx. apply guaranteed_steps, authorize_service_trail. by apply Hs.
Qed.

End trail.

(** ** The deletion of users *)

(** Bob has changed his password once. *)
Definition bob_world : World Database :=
  with_audit [MkAuditRow (Some "b") "account.password.changed" "user" "b" "{}" 0] demo_world.
Definition delete_bob : Request := request "POST" "/settings/users/b/delete" "b" "sa" [("csrf_token", "ta")].

(** The page promises the deletion; for a user who ever did anything it fails, and works
    for one who never did. *)
Theorem recorded_users_undeletable :
  rs_Body (alone (userDelete (env := calm_env) delete_bob) bob_world).1 = HttpError "Unable to delete user" StatusInternalServerError ∧
  rs_Body (alone (userDelete (env := calm_env) delete_bob) demo_world).1 = Redirect "/settings/users?notice=deleted".
Proof. split; vm_compute; reflexivity. Qed.

Definition delete_steps : list (World Database * World Database) :=
  steps quiet 0 (authorize (env := calm_env) (userDelete (env := calm_env)) delete_bob) bob_world.

Lemma audit_trail_kept_witness : ∃ a b, (a, b) ∈ delete_steps ∧ recorded "b" a ∧ trail a b.
Proof.
  set (x := default (bob_world, bob_world) (delete_steps !! 5%nat)).
  assert (bool_decide (is_Some (delete_steps !! 5%nat)) = true) as Hx%bool_decide_eq_true by (vm_compute; reflexivity).
  assert ((x.1, x.2) ∈ delete_steps) as Hin.
  { unfold x. destruct Hx as [[a b] Hx]. rewrite Hx. by apply list_elem_of_lookup_2 in Hx. }
  exists x.1, x.2. refine (conj Hin (conj _ _)).
  { exists (MkAuditRow (Some "b") "account.password.changed" "user" "b" "{}" 0). split; [|reflexivity].
    assert (w_audit x.1 = w_audit bob_world) as -> by (vm_compute; reflexivity). by left. }
  refine (proj1 (audit_trail_kept (env := calm_env) (λ _, true) (λ _, None) (λ _, "") (λ _, "") (λ _, None) None (Diag := unit) None
    same_order same_order same_order (λ _, "") Some (λ _ _ _ _, Ok 204) (λ _ _, true) (λ _, "") (λ _ _ _ _ _, "") (λ _ _ _ _, None)
    (λ _ _ _, None) delete_bob 0) ("POST", "/settings/users/{id}/delete", userDelete (env := calm_env)) quiet bob_world x.1 x.2 _ Hin).
  unfold page_routes, all_routes, admin_writes. rewrite !elem_of_app, !elem_of_cons. tauto.
Defined.
