(* ===== verification/Pki.v ===== *)
(** * The certificate authority

    [internal/scanner/pki]: issuing certificates for the agents and the app, loading a
    stored authority, and the development bundle. Keys, signatures and the encodings
    of certificates and keys belong to the cryptographic library, behind an interface. *)

From S2P Require Import Prelude GoStrings GoTime Netip Secrets Totp Process Scans Endpoints.
Local Open Scope Z_scope.

(** ** The library *)

Inductive KeyUsage : Type := KeyUsageCertSign | KeyUsageCRLSign | KeyUsageDigitalSignature.
Inductive ExtKeyUsage : Type := ExtKeyUsageServerAuth | ExtKeyUsageClientAuth.

(** [x509.Certificate] as a template. *)
Record Template : Type := MkTemplate
  { ct_SerialNumber : Z; ct_CommonName : string; ct_Organization : list string; ct_NotBefore : Z; ct_NotAfter : Z;
    ct_KeyUsage : list KeyUsage; ct_ExtKeyUsage : list ExtKeyUsage; ct_BasicConstraintsValid : bool; ct_IsCA : bool;
    ct_MaxPathLenZero : bool; ct_DNSNames : list string; ct_IPAddresses : list Addr }.

(** What depends on the random source is given the position in the environment.
    [CreateCertificate]: the template, the certificate of the issuer ([None]: the template
    itself), the key certified and the key that signs. [ParsePKCS8]: [Some None] for a key
    that is not an ECDSA key. [Decode] gives the bytes of the first PEM block. *)
Class PKI : Type := MkPKI
  { Certificate : Type; PrivateKey : Type;
    GenerateKey : nat → option PrivateKey;
    Serial : nat → Z;
    CreateCertificate : nat → Template → option Certificate → PrivateKey → PrivateKey → option string;
    ParseCertificate : string → option Certificate;
    cert_NotAfter : Certificate → Z; cert_Raw : Certificate → string;
    EncodeToMemory : string → string → string; Decode : string → option string;
    MarshalPKCS8 : PrivateKey → option string; ParsePKCS8 : string → option (option PrivateKey) }.

(** What was encoded decodes, and a PEM block is not empty. *)
Class PKILaws (pki : PKI) : Prop :=
  { encode_nonempty : ∀ kind bytes, EncodeToMemory kind bytes ≠ "";
    decode_encode : ∀ kind bytes, Decode (EncodeToMemory kind bytes) = Some bytes;
    parse_marshal : ∀ key der, MarshalPKCS8 key = Some der → ParsePKCS8 der = Some (Some key) }.

Definition CACommonName : string := "Light IPAM Scanner CA".
Definition AgentServerCN : string := "light-ipam-scanner-agent".
Definition AppClientCN : string := "light-ipam-app".
Definition defaultValidFor : Z := 365 * 24 * hour.
Definition defaultOrgString : string := "Light IPAM".
Definition DefaultCAValidFor : Z := 10 * 365 * 24 * hour.
Definition DefaultLeafValidFor : Z := 30 * 24 * hour.

(** [net.IPv4(127, 0, 0, 1)] and [net.IPv6loopback]. *)
Definition loopback : list Addr := [Addr4 (127 * 2 ^ 24 + 1); Addr6 1 ""].

(** [fingerprintDER]: SHA-256 in hexadecimal, a colon between bytes. *)
Fixpoint colon_pairs (s : string) : string :=
  match s with
  | String a (String b "") => String a (String b "")
  | String a (String b t) => String a (String b (":" +:+ colon_pairs t))
  | _ => s
  end.
Definition fingerprintDER (der : string) : string := to_upper (colon_pairs (hex (sha256 (text_bytes der)))).

Example fingerprintDER_1 : colon_pairs "ba7816" = "ba:78:16".
Proof. reflexivity. Qed.

Section pki.
Context {pki : PKI}.

Record CA : Type := MkCA { ca_cert : Certificate; ca_key : PrivateKey; ca_CertPEM : string }.

Definition encodeCert (der : string) : string := EncodeToMemory "CERTIFICATE" der.
Definition encodeKey (key : PrivateKey) : option string := EncodeToMemory "PRIVATE KEY" <$> MarshalPKCS8 key.

Definition KeyPEM (c : CA) : option string := encodeKey (ca_key c).
Definition NotAfter (c : CA) : Z := cert_NotAfter (ca_cert c).
Definition Fingerprint (c : CA) : string := fingerprintDER (cert_Raw (ca_cert c)).

Definition ca_template (serial notBefore validFor : Z) : Template :=
  MkTemplate serial CACommonName [defaultOrgString] notBefore (notBefore + validFor) [KeyUsageCertSign; KeyUsageCRLSign] []
    true true true [] [].
Definition leaf_template (serial : Z) (cn : string) (notBefore ttl : Z) (usage : ExtKeyUsage) (dnsNames : list string)
    (ips : list Addr) : Template :=
  MkTemplate serial cn [defaultOrgString] notBefore (notBefore + ttl) [KeyUsageDigitalSignature] [usage]
    false false false dnsNames ips.

Definition LoadCA (certPEM keyPEM : string) : option CA :=
  certBlock ← Decode certPEM;
  cert ← ParseCertificate certBlock;
  keyBlock ← Decode keyPEM;
  parsed ← ParsePKCS8 keyBlock;
  key ← parsed;
  Some (MkCA cert key certPEM).

Section programs.
Context {Inv : Type} {env : Env}.

(** A value of the library's random source. *)
Definition draw {A} (f : nat → A) : Go Inv A := atomic (λ w, (f (w_step w), bump w)).

Definition minute_ago : Go Inv Z := now ←! time_now; Ret (now - minute).

Definition NewCA (validFor : Z) : Go Inv (option CA) :=
  let validFor := if validFor <=? 0 then DefaultCAValidFor else validFor in
  key ←! draw GenerateKey;
  match key with
  | None => Ret None
  | Some key =>
      notBefore ←! minute_ago;
      serial ←! draw Serial;
      der ←! draw (λ n, CreateCertificate n (ca_template serial notBefore validFor) None key key);
      Ret (der ← der; cert ← ParseCertificate der; Some (MkCA cert key (encodeCert der)))
  end.

(** The certificate and its key, as PEM. *)
Definition signLeaf (template : Template) (caCert : Certificate) (caKey : PrivateKey) : Go Inv (option (string * string)) :=
  key ←! draw GenerateKey;
  match key with
  | None => Ret None
  | Some key =>
      der ←! draw (λ n, CreateCertificate n template (Some caCert) key caKey);
      Ret (der ← der; keyPEM ← encodeKey key; Some (encodeCert der, keyPEM))
  end.

Definition issue_leaf (c : CA) (cn : string) (dnsNames : list string) (ips : list Addr) (ttl : Z) (usage : ExtKeyUsage) :
    Go Inv (option (string * string)) :=
  let ttl := if ttl <=? 0 then DefaultLeafValidFor else ttl in
  notBefore ←! minute_ago;
  serial ←! draw Serial;
  signLeaf (leaf_template serial cn notBefore ttl usage dnsNames ips) (ca_cert c) (ca_key c).
Definition IssueServer (c : CA) (cn : string) (dnsNames : list string) (ips : list Addr) (ttl : Z) :=
  issue_leaf c cn dnsNames ips ttl ExtKeyUsageServerAuth.
Definition IssueClient (c : CA) (cn : string) (ttl : Z) := issue_leaf c cn [] [] ttl ExtKeyUsageClientAuth.

(** ** The development bundle *)

Record Options : Type := MkOptions { op_ServerDNSNames : list string; op_ServerIPs : list Addr; op_ValidFor : Z }.

Record Bundle : Type := MkBundle
  { bn_CACertPEM : string; bn_CAKeyPEM : string; bn_ServerCertPEM : string; bn_ServerKeyPEM : string;
    bn_ClientCertPEM : string; bn_ClientKeyPEM : string }.

Definition with_defaults (o : Options) : Options :=
  MkOptions (if decide (op_ServerDNSNames o = []) then [AgentServerCN; "scanner-agent"; "localhost"] else op_ServerDNSNames o)
    (if decide (op_ServerIPs o = []) then loopback else op_ServerIPs o)
    (if op_ValidFor o =? 0 then defaultValidFor else op_ValidFor o).

(** One time for the three certificates; their keys differ. *)
Definition Generate (opts : Options) : Go Inv (option Bundle) :=
  let o := with_defaults opts in
  notBefore ←! minute_ago;
  key ←! draw GenerateKey;
  match key with
  | None => Ret None
  | Some caKey =>
      serial ←! draw Serial;
      caDER ←! draw (λ n, CreateCertificate n (ca_template serial notBefore (op_ValidFor o)) None caKey caKey);
      match caDER ≫= λ der, pair der <$> ParseCertificate der with
      | None => Ret None
      | Some (caDER, caCert) =>
          serial ←! draw Serial;
          server ←! signLeaf (leaf_template serial AgentServerCN notBefore (op_ValidFor o) ExtKeyUsageServerAuth
                                (op_ServerDNSNames o) (op_ServerIPs o)) caCert caKey;
          match server with
          | None => Ret None
          | Some (serverCert, serverKey) =>
              serial ←! draw Serial;
              client ←! signLeaf (leaf_template serial AppClientCN notBefore (op_ValidFor o) ExtKeyUsageClientAuth [] [])
                          caCert caKey;
              Ret ('(clientCert, clientKey) ← client;
                   caKeyPEM ← encodeKey caKey;
                   Some (MkBundle (encodeCert caDER) caKeyPEM serverCert serverKey clientCert clientKey))
          end
      end
  end.
End programs.

(** The files of a bundle, with their modes. *)
Definition bundle_files (b : Bundle) : list (string * string * Z) :=
  [("ca.crt", bn_CACertPEM b, 420); ("ca.key", bn_CAKeyPEM b, 384);
   ("agent.crt", bn_ServerCertPEM b, 420); ("agent.key", bn_ServerKeyPEM b, 384);
   ("app.crt", bn_ClientCertPEM b, 420); ("app.key", bn_ClientKeyPEM b, 384)].

(** [os.WriteFile] for each until one fails. A file that exists keeps its mode. *)
Fixpoint write_files (fails : string → bool) (l : list (string * string * Z)) (dir : gmap string (string * Z)) :
    bool * gmap string (string * Z) :=
  match l with
  | [] => (true, dir)
  | (name, data, mode) :: l =>
      if fails name then (false, dir)
      else write_files fails l (<[name := (data, default mode (snd <$> dir !! name))]> dir)
  end.
Definition WriteDir (mkdir_fails : bool) (fails : string → bool) (b : Bundle) (dir : gmap string (string * Z)) :
    bool * gmap string (string * Z) :=
  if mkdir_fails then (false, dir) else write_files fails (bundle_files b) dir.

(** ** A stored authority *)

(** What [NewCA] gives comes from a certificate that parses. *)
Lemma NewCA_shape {Inv} {env : Env} validFor env' i (w : World Inv) c :
  (exec env' i (NewCA validFor) w).1 = Some c →
  ∃ der, ParseCertificate der = Some (ca_cert c) ∧ ca_CertPEM c = encodeCert der.
Proof.
   apply (returns_exec (λ o, o = Some c → ∃ der, ParseCertificate der = Some (ca_cert c) ∧ ca_CertPEM c = encodeCert der)).
  unfold NewCA. apply returns_after. intros [key|]; [|done]. apply returns_after; intros notBefore. apply returns_after; intros serial. apply returns_after; intros [der|]; [cbn|done]. destruct (ParseCertificate der) as [cert|] eqn:Hp; [cbn|done].
  intros [= <-]. by exists der.
Qed.

Lemma LoadCA_certificate certPEM keyPEM c : LoadCA certPEM keyPEM = Some c → ca_CertPEM c = certPEM.
Proof.
  unfold LoadCA. destruct (Decode certPEM) as [b|]; [cbn|done]. destruct (ParseCertificate b) as [cert|]; [cbn|done].
  destruct (Decode keyPEM) as [kb|]; [cbn|done]. destruct (ParsePKCS8 kb) as [[key|]|]; cbn; [by intros [= <-]|done..].
Qed.

(** Loading what was stored gives the authority back. *)
Lemma LoadCA_KeyPEM `{!PKILaws pki} c der keyPEM :
  ParseCertificate der = Some (ca_cert c) → ca_CertPEM c = encodeCert der → KeyPEM c = Some keyPEM →
  LoadCA (ca_CertPEM c) keyPEM = Some c.
Proof.
  intros Hp Hc. unfold KeyPEM, encodeKey. intros (kder & Hk & ->)%fmap_Some. unfold LoadCA. rewrite Hc. unfold encodeCert.
  rewrite !decode_encode. cbn [mbind option_bind]. rewrite Hp. cbn [mbind option_bind].
  rewrite (parse_marshal _ _ Hk). cbn [mbind option_bind]. destruct c; cbn in *. by subst.
Qed.
End pki.
