(* ===== verification/Certs.v ===== *)
(** * The installation and its host

    Beside the installation: the stored certificate authority and the one in memory
    ([app_ca] and [caMu]), and the directory of the backups. *)

From S2P Require Import Prelude GoStrings Netip Protocol GoTime Process Scans Queue Inventory Portability Lockout Password Secrets Json Accounts Web Signin Users Demo Routes SigninSpec Events Install Settings Endpoints Scanforms Services Pki.
Local Open Scope Z_scope.

(** What a name of a directory stands for: a file and its bytes, or a directory, which
    can be removed while it is empty. *)
Inductive entry : Type := File (data : string) | Directory (empty : bool).

Section host.
Context {pki : PKI}.

(** [ho_app_ca] is the row of [app_ca], the certificate and the sealed key; [ho_dir]
    the entries of the backup directory, if it exists. *)
Record Host : Type := MkHost
  { ho_install : Installation; ho_app_ca : option (string * string); ho_ca : option CA;
    ho_dir : option (gmap string entry) }.

Definition edit_host (f : Host → Host) (w : World Host) : World Host := with_inv (f (w_inv w)) w.
Definition put_app_ca (row : option (string * string)) (h : Host) : Host :=
  MkHost (ho_install h) row (ho_ca h) (ho_dir h).
Definition put_ca (c : option CA) (h : Host) : Host := MkHost (ho_install h) (ho_app_ca h) c (ho_dir h).
Definition put_dir (d : option (gmap string entry)) (h : Host) : Host :=
  MkHost (ho_install h) (ho_app_ca h) (ho_ca h) d.

Definition to_install (w : World Host) : World Installation :=
  MkWorld (w_sites w) (w_users w) (w_agents w) (w_schedules w) (w_jobs w) (w_audit w) (ho_install (w_inv w)) (w_spawned w) (w_step w).
Definition of_install (v : World Installation) (w : World Host) : World Host :=
  MkWorld (w_sites v) (w_users v) (w_agents v) (w_schedules v) (w_jobs v) (w_audit v)
    (MkHost (w_inv v) (ho_app_ca (w_inv w)) (ho_ca (w_inv w)) (ho_dir (w_inv w))) (w_spawned v) (w_step v).

Definition on_install {A} : Go Installation A → Go Host A := focus to_install of_install.

Lemma alone_on_install {A} (p : Go Installation A) w :
  alone (on_install p) w = ((alone p (to_install w)).1, of_install (alone p (to_install w)).2 w).
Proof. apply alone_focus; [by intros ? []|done|by intros [? ? ? ? ? ? [] ? ?]]. Qed.

(** ** Handlers of the host *)

Definition HostService : Type := Request → Go Host Response.
Definition reply (b : body) : Go Host Response := Ret (MkResponse b []).

Section handlers.
Context {env : Env} {app : App}.

Definition require_admin (r : Request) (next : Session → Go Host Response) : Go Host Response :=
  session ←! on_install (current_session r);
  match session with
  | None => reply (Redirect "/login")
  | Some s => if negb (u_IsAdmin (se_User s)) then reply ForbiddenPage else next s
  end.
Definition require_csrf (r : Request) (session : Session) (next : Go Host Response) : Go Host Response :=
  if verifySessionCSRF r session then next else reply (HttpError "Invalid form token" StatusForbidden).

(** ** Before the right was shown *)

(** Nothing but the audit log, times of use and the installation's own queues changes. *)
Record still (w w' : World Host) : Prop := MkStill
  { sl_calm : calm (to_install w) (to_install w'); sl_app_ca : ho_app_ca (w_inv w') = ho_app_ca (w_inv w);
    sl_ca : ho_ca (w_inv w') = ho_ca (w_inv w); sl_dir : ho_dir (w_inv w') = ho_dir (w_inv w) }.

Lemma still_bump w : still w (bump w).
Proof. split; [apply calm_bump|done..]. Qed.

Definition granted_to (r : Request) (w : World Host) : Prop := granted_by r (admin_signed r) (to_install w).

(** The authorization in front of every handler. *)
Definition authorize_host (next : HostService) : HostService := λ r,
  if safeMethod (rq_Method r) || publicWritePath (rq_Path r) || isAccountPath (rq_Path r) then next r
  else
    session ←! on_install (current_session r);
    match session with
    | Some s => if negb (canWrite (u_Role (se_User s))) then reply ForbiddenPage else next r
    | None => next r
    end.

Lemma current_session_still r :
  guarded still (granted_to r) (λ o, ∀ s, o = Some s → admin_signed r s = false) (on_install (current_session r)).
Proof.
  apply (guarded_focus to_install of_install calm still (granted_by r (admin_signed r))); [|apply current_session_guarded].
  intros w v Hv. split; [|done..]. by destruct v.
Qed.

Lemma require_admin_guarded r next :
  (∀ s, signed r s = false → guarded still (granted_to r) (λ _, True) (next s)) →
  guarded still (granted_to r) (λ _, True) (require_admin r next).
Proof.
  intros Hn. unfold require_admin. eapply guarded_bind; [apply current_session_still|].
  intros [s|] Hs; [|done]. destruct (u_IsAdmin (se_User s)) eqn:Ha; [|done]. apply Hn.
  pose proof (Hs s eq_refl) as H. unfold admin_signed in H. by rewrite Ha, andb_true_r in H.
Qed.

Lemma authorize_host_guarded r next :
  guarded still (granted_to r) (λ _, True) (next r) → guarded still (granted_to r) (λ _, True) (authorize_host next r).
Proof.
  intros Hn. unfold authorize_host. destruct (_ || _); [done|]. eapply guarded_bind; [apply current_session_still|].
  intros [s|] _; [|done]. by destruct (negb _).
Qed.

Lemma require_csrf_guarded r ok s next : signed r s = false → guarded still ok (λ _, True) (require_csrf r s next).
Proof. unfold signed, require_csrf. by intros ->. Qed.
End handlers.
End host.

(** * Certificates from the settings

    [internal/app/certs.go] and [internal/store/ca.go]: the managed authority, its
    rotation, and the certificates it issues for agents and for the app. *)

Definition split_separator (c : ascii) : bool := bool_decide (byte_val c ∈ [44; 10; 32; 9; 13]).
Definition splitListField (value : string) : list string :=
  filter (λ f, f ≠ "") (map trim_space (fields_func split_separator "" value)).

Definition certTTL (daysField : string) (fallback : Z) : Z :=
  match atoi (trim_space daysField) with
  | Some n => if (n <? 1) || (825 <? n) then fallback else n * 24 * hour
  | None => fallback
  end.

Definition certsNotice (r : Request) : string :=
  notice_of r [("rotated", "Generated a new CA. Re-issue and redeploy agent and app certificates.")].

Example splitListField_1 : splitListField "a,, b
 c" = ["a"; "b"; "c"].
Proof. vm_compute. reflexivity. Qed.

Section certs.
Context {pki : PKI} {env : Env} {app : App}.

(** ** The stored authority *)

Definition GetAppCA : GoE Host (string * string) :=
  stmt (λ _ w, match ho_app_ca (w_inv w) with Some row => Ok (row, w) | None => Err ErrNotFound end).
Definition SaveAppCA (certPEM sealedKey : string) : GoE Host unit :=
  stmt (λ _ w, Ok ((), edit_host (put_app_ca (Some (certPEM, sealedKey))) w)).

(** One access under [caMu]. *)
Definition currentCA : Go Host (option CA) := atomic (λ w, (ho_ca (w_inv w), w)).
Definition setCA (c : CA) : Go Host unit := atomic (λ w, ((), edit_host (put_ca (Some c)) w)).

(** The key as the row holds it: [Some None] when it cannot be encoded or sealed, [None]
    for the panic of [a.sealer.Seal] without a sealer. *)
Definition sealed_key (c : CA) : Go Host (option (option string)) :=
  match KeyPEM c, sealer with
  | None, _ => Ret (Some None)
  | Some keyPEM, None => Ret (if decide (keyPEM = "") then Some (Some "") else None)
  | Some keyPEM, Some a => nonce ←! draw random_bytes; Ret (Some (Seal a nonce keyPEM))
  end.

(** A failure is only logged; [None] for a panic. *)
Definition generateAndStoreCA : Go Host (option unit) :=
  ca ←! NewCA 0;
  match ca with
  | None => Ret (Some ())
  | Some c =>
      sealed ←! sealed_key c;
      match sealed with
      | None => Ret None
      | Some None => Ret (Some ())
      | Some (Some sealed) =>
          saved ←! SaveAppCA (ca_CertPEM c) sealed;
          match saved with Err _ => Ret (Some ()) | Ok _ => _ ←! setCA c; Ret (Some ()) end
      end
  end.

(** At the start of the server. *)
Definition ensureCA : Go Host unit :=
  match sealer with
  | None => Ret ()
  | Some a =>
      row ←! GetAppCA;
      match row with
      | Ok (certPEM, sealedKey) =>
          match Open a sealedKey ≫= LoadCA certPEM with
          | Some c => setCA c
          | None => _ ←! generateAndStoreCA; Ret ()
          end
      | Err ErrNotFound => _ ←! generateAndStoreCA; Ret ()
      | Err _ => Ret ()
      end
  end.

(** ** The certificates tab *)

Definition renderCertsTab (errMsg notice : string) : Go Host Response :=
  ca ←! currentCA;
  reply (Dialog "settings.html" "Settings" errMsg notice
    (match ca with Some c => [("CAFingerprint", Fingerprint c); ("CAExpiry", itoa (NotAfter c)); ("CAReady", "true")] | None => [] end ++
     [("LeafDefaultDays", itoa (DefaultLeafValidFor / (24 * hour)))])).

Definition settingsCertificates : HostService := λ r, require_admin r (λ _, renderCertsTab "" (certsNotice r)).

(** [archive]: the zip file of some entries, in the order a map gives them. *)
Context (archive : nat → list (string * string) → option string).

Definition streamCertZip (filename : string) (files : gmap string string) : Go Host Response :=
  zip ←! draw (λ n, archive n (map_to_list files));
  reply match zip with
    | None => HttpError "Unable to build bundle" StatusInternalServerError
    | Some data => Download filename data
    end.

Definition host_audit (session : Session) (action subjectType subjectID : string) : Go Host unit :=
  on_install (hooked_audit session action subjectType subjectID).

Definition agent_cn (r : Request) : string :=
  let cn := trim_space (FormValue r "cn") in if decide (cn = "") then AgentServerCN else cn.
Definition agent_names (r : Request) : list string :=
  match splitListField (FormValue r "dns_names") with [] => [AgentServerCN; "scanner-agent"; "localhost"] | l => l end.
(** What is no address is left out. *)
Definition agent_ips (r : Request) : list Addr := loopback ++ omap ParseIP (splitListField (FormValue r "ips")).

Definition certIssueAgent : HostService := λ r,
  require_admin r (λ session, require_csrf r session (
    ca ←! currentCA;
    match ca with
    | None => renderCertsTab "The managed CA is unavailable." ""
    | Some c =>
        let cn := agent_cn r in
        leaf ←! IssueServer c cn (agent_names r) (agent_ips r) (certTTL (FormValue r "ttl_days") DefaultLeafValidFor);
        match leaf with
        | None => renderCertsTab "Unable to issue the certificate." ""
        | Some (certPEM, keyPEM) =>
            _ ←! on_install (hooked_auditMeta (actor session) "agent.cert.issued" "scan_agent" cn {["cn" := cn]});
            streamCertZip "lightipam-agent-certs.zip"
              {["ca.crt" := ca_CertPEM c; "agent.crt" := certPEM; "agent.key" := keyPEM]}
        end
    end)).

Definition certIssueApp : HostService := λ r,
  require_admin r (λ session, require_csrf r session (
    ca ←! currentCA;
    match ca with
    | None => renderCertsTab "The managed CA is unavailable." ""
    | Some c =>
        leaf ←! IssueClient c AppClientCN (certTTL (FormValue r "ttl_days") DefaultLeafValidFor);
        match leaf with
        | None => renderCertsTab "Unable to issue the certificate." ""
        | Some (certPEM, keyPEM) =>
            _ ←! host_audit session "app.cert.issued" "app" AppClientCN;
            streamCertZip "lightipam-app-certs.zip"
              {["ca.crt" := ca_CertPEM c; "app.crt" := certPEM; "app.key" := keyPEM]}
        end
    end)).

Definition certDownloadCA : HostService := λ r,
  require_admin r (λ _,
    ca ←! currentCA;
    reply match ca with None => NotFoundPage | Some c => Download "ca.crt" (ca_CertPEM c) end).

Definition certRotateCA : HostService := λ r,
  require_admin r (λ session, require_csrf r session (
    generated ←! generateAndStoreCA;
    match generated with
    | None => reply Aborted
    | Some _ =>
        ca ←! currentCA;
        match ca with
        | None => renderCertsTab "Unable to rotate the CA." ""
        | Some _ =>
            _ ←! host_audit session "agent.ca.rotated" "app" "managed-ca";
            reply (Redirect "/settings/certificates?notice=rotated")
        end
    end)).
End certs.

(** ** What the authority promises *)

(** A duration of a certificate: at most 825 days, whatever was asked. *)
Lemma certTTL_range daysField : 24 * hour ≤ certTTL daysField DefaultLeafValidFor ≤ 825 * 24 * hour.
Proof.
  unfold certTTL, DefaultLeafValidFor, hour, minute, second.
  destruct (atoi _) as [n|]; [|lia]. destruct (Z.ltb_spec n 1), (Z.ltb_spec 825 n); cbn; lia.
Qed.

Section promise.
Context {pki : PKI} {pki_laws : PKILaws pki} {env : Env} {app : App}.
Context (archive : nat → list (string * string) → option string).

(** Neither the stored authority nor the one in memory changes. *)
Definition same_ca (w w' : World Host) : Prop := ho_app_ca (w_inv w') = ho_app_ca (w_inv w) ∧ ho_ca (w_inv w') = ho_ca (w_inv w).
#[local] Instance same_ca_preorder : PreOrder same_ca.
Proof. split; [by split|]. intros w1 w2 w3 [] []. split; by etrans. Qed.

(** The authority in memory is the stored one: the row's key opens, and loading the row
    gives the authority back. *)
Definition in_step (w : World Host) : Prop :=
  ∀ c, ho_ca (w_inv w) = Some c →
    ∃ a sealed keyPEM, sealer = Some a ∧ ho_app_ca (w_inv w) = Some (ca_CertPEM c, sealed) ∧
      Open a sealed = Some keyPEM ∧ LoadCA (ca_CertPEM c) keyPEM = Some c.

Lemma same_in_step w w' : same_ca w w' → in_step w → in_step w'.
Proof. intros [H1 H2] Hw c Hc. rewrite H2 in Hc. rewrite H1. by apply Hw. Qed.

Lemma on_install_same {A} (p : Go Installation A) : guarantees same_ca (on_install p).
Proof. induction p as [a|g k IH]; [done|]. intros w. by split; [|apply IH]. Qed.
Lemma draw_same {A} (f : nat → A) : guarantees same_ca (draw f).
Proof. by apply guarantees_atomic. Qed.
Lemma minute_ago_same : guarantees same_ca minute_ago.
Proof. by apply guarantees_bind; [apply guarantees_atomic|]. Qed.
Lemma NewCA_same validFor : guarantees same_ca (NewCA validFor).
Proof.
  apply guarantees_bind; [apply draw_same|]. intros [key|]; [|done]. apply guarantees_bind; [apply minute_ago_same|]. intros t.
  apply guarantees_bind; [apply draw_same|]. intros n. by apply guarantees_bind; [apply draw_same|].
Qed.
Lemma issue_leaf_same c cn names ips ttl usage : guarantees same_ca (issue_leaf c cn names ips ttl usage).
Proof.
  apply guarantees_bind; [apply minute_ago_same|]. intros t. apply guarantees_bind; [apply draw_same|]. intros n.
  apply guarantees_bind; [apply draw_same|]. intros [key|]; [|done]. by apply guarantees_bind; [apply draw_same|].
Qed.
Lemma renderCertsTab_same e m : guarantees same_ca (renderCertsTab e m).
Proof. by apply guarantees_bind; [apply guarantees_atomic|]. Qed.
Lemma streamCertZip_same name files : guarantees same_ca (streamCertZip archive name files).
Proof. by apply guarantees_bind; [apply draw_same|]. Qed.

Lemma alone_same {A} (p : Go Host A) w : guarantees same_ca p → same_ca w (alone p w).2.
Proof. intros Hp. by apply (guarantees_exec same_ca). Qed.

(** The nonces have the size the cipher asks for. *)
Context (Hlaws : ∀ a, sealer = Some a → AEADLaws a ∧
  ∀ n bytes, random_bytes n = Some bytes → length bytes = NonceSize a ∧ Forall is_byte bytes).

(** A fresh authority that was sealed can be loaded. *)
Lemma sealed_key_loads c der w sealed :
  ParseCertificate der = Some (ca_cert c) → ca_CertPEM c = encodeCert der →
  (alone (sealed_key c) w).1 = Some (Some sealed) →
  ∃ a keyPEM, sealer = Some a ∧ Open a sealed = Some keyPEM ∧ LoadCA (ca_CertPEM c) keyPEM = Some c.
Proof using Hlaws pki_laws.
  intros Hp Hc. unfold sealed_key. destruct (KeyPEM c) as [keyPEM|] eqn:Hk; [|done].
  assert (keyPEM ≠ "") as Hne.
  { unfold KeyPEM, encodeKey in Hk. apply fmap_Some in Hk as (der' & _ & ->). apply encode_nonempty. }
  case_eq sealer; [intros a Ha|intros _; by rewrite decide_False by done]. destruct (Hlaws a Ha) as [Hl Hn].
  rewrite alone_bind. unfold draw. rewrite alone_atomic, alone_ret. cbn [fst]. intros [= Hseal].
  exists a, keyPEM. split; [done|]. split; [|by eapply LoadCA_KeyPEM]. eapply (Open_Seal a); [exact Hl| |exact Hseal].
  intros n. apply Hn.
Qed.

Lemma sealed_key_same c : guarantees same_ca (sealed_key c).
Proof.
  unfold sealed_key. destruct (KeyPEM c); [|done]. destruct sealer; [|done]. by apply guarantees_bind; [apply draw_same|].
Qed.

(** Generating keeps the two in step, or replaces both, or neither. *)
Lemma generateAndStoreCA_in_step w : in_step w → in_step (alone generateAndStoreCA w).2.
Proof using Hlaws pki_laws.
  intros Hw. unfold generateAndStoreCA. rewrite alone_bind.
  pose proof (alone_same (NewCA 0) w (NewCA_same 0)) as H1. pose proof (NewCA_shape 0 quiet 0 w) as Hshape.
  destruct (alone (NewCA 0) w) as [[c|] w1] eqn:Hnew; cbn [snd] in H1; [|by apply (same_in_step w)].
  destruct (Hshape c) as (der & Hp & Hc). { change (exec quiet 0 (NewCA 0) w) with (alone (NewCA 0) w). by rewrite Hnew. }
  rewrite alone_bind. pose proof (alone_same (sealed_key c) w1 (sealed_key_same c)) as H2.
  pose proof (sealed_key_loads c der w1) as Hload.
  destruct (alone (sealed_key c) w1) as [[[sealed|]|] w2]; cbn [snd] in H2; [|by apply (same_in_step w); [etrans|]..].
  destruct (Hload sealed Hp Hc eq_refl) as (a & keyPEM & Ha & Ho & Hl).
  rewrite alone_bind. unfold SaveAppCA. rewrite alone_stmt. unfold run_stmt.
  destruct (fault (w_step w2)); [by apply (same_in_step w); [etrans; [exact H1|exact H2]|]|].
  rewrite alone_bind. unfold setCA. rewrite alone_atomic, alone_ret. intros c' [= <-]. exists a, sealed, keyPEM. by split_and!.
Qed.

Lemma ensureCA_in_step w : in_step w → in_step (alone ensureCA w).2.
Proof using Hlaws pki_laws.
  intros Hw. unfold ensureCA. case_eq sealer; [intros a Ha|done].
  rewrite alone_bind. unfold GetAppCA. rewrite alone_stmt. unfold run_stmt. destruct (fault (w_step w)); [done|].
  change (ho_app_ca (w_inv (bump w))) with (ho_app_ca (w_inv w)).
  assert (∀ w', in_step w' → in_step (alone (_ ←! generateAndStoreCA; Ret ()) w').2) as Hgen.
  { intros w' Hw'. rewrite alone_bind. pose proof (generateAndStoreCA_in_step w' Hw') as H.
    destruct (alone generateAndStoreCA w') as [o w'']. rewrite alone_ret. exact H. }
  destruct (ho_app_ca (w_inv w)) as [[certPEM sealed]|] eqn:Hrow; [|by apply Hgen].
  destruct (Open a sealed) as [keyPEM|] eqn:Ho; cbn [mbind option_bind]; [|by apply Hgen].
  destruct (LoadCA certPEM keyPEM) as [c|] eqn:Hl; [|by apply Hgen].
  unfold setCA. rewrite alone_atomic. intros c' [= <-]. exists a, sealed, keyPEM.
  by rewrite (LoadCA_certificate _ _ _ Hl).
Qed.

(** ** The pages *)

Definition host_route : Type := string * string * HostService.
Definition cert_writes : list host_route :=
  [("POST", "/settings/certificates/agent", certIssueAgent archive);
   ("POST", "/settings/certificates/app", certIssueApp archive);
   ("POST", "/settings/certificates/rotate-ca", certRotateCA)].
Definition cert_reads : list host_route :=
  [("GET", "/settings/certificates", settingsCertificates); ("GET", "/settings/certificates/ca.crt", certDownloadCA)].

(** A page that leaves the authority alone, whoever asks. *)
Lemma require_admin_same r next : (∀ s, guarantees same_ca (next s)) → guarantees same_ca (require_admin r next).
Proof.
  intros Hn. apply guarantees_bind; [apply on_install_same|]. intros [s|]; [|done]. by destruct (negb _).
Qed.
Lemma with_ca_same (next : option CA → Go Host Response) :
  (∀ o, guarantees same_ca (next o)) → guarantees same_ca (prog_bind next currentCA).
Proof. intros Hn. by apply guarantees_bind; [apply guarantees_atomic|]. Qed.

Lemma certIssue_same r s (p : CA → Go Host (option (string * string))) (audited : CA → Go Host unit) name files :
  (∀ c, guarantees same_ca (p c)) → (∀ c, guarantees same_ca (audited c)) →
  guarantees same_ca (require_csrf r s (
    ca ←! currentCA;
    match ca with
    | None => renderCertsTab "The managed CA is unavailable." ""
    | Some c =>
        leaf ←! p c;
        match leaf with
        | None => renderCertsTab "Unable to issue the certificate." ""
        | Some (certPEM, keyPEM) => _ ←! audited c; streamCertZip archive name (files c certPEM keyPEM)
        end
    end)).
Proof.
  intros Hp Ha. unfold require_csrf. destruct (verifySessionCSRF r s); [|done]. apply with_ca_same.
  intros [c|]; [|apply renderCertsTab_same]. apply guarantees_bind; [apply Hp|].
  intros [[cert key]|]; [|apply renderCertsTab_same]. apply guarantees_bind; [apply Ha|]. intros u. apply streamCertZip_same.
Qed.

Lemma cert_pages_same (x : host_route) :
  x ∈ cert_writes ++ cert_reads → x.2 = certRotateCA ∨ ∀ r, guarantees same_ca (x.2 r).
Proof.
  rewrite elem_of_app. unfold cert_writes, cert_reads. rewrite !elem_of_cons.
  intros [[->|[->|[->|Hx]]]|[->|[->|Hx]]]; cbn [snd]; try by apply not_elem_of_nil in Hx.
  3: by left. all: right; intros r; apply require_admin_same; intros s.
  - apply certIssue_same; intros c; [apply issue_leaf_same|apply on_install_same].
  - apply certIssue_same; intros c; [apply issue_leaf_same|apply on_install_same].
  - apply renderCertsTab_same.
  - apply with_ca_same. by intros [c|].
Qed.

Lemma certRotateCA_in_step r w : in_step w → in_step (alone (certRotateCA r) w).2.
Proof using Hlaws pki_laws.
  intros Hw. unfold certRotateCA, require_admin. rewrite alone_bind.
  pose proof (alone_same _ w (on_install_same (current_session r))) as H1.
  destruct (alone (on_install (current_session r)) w) as [[s|] w1]; cbn [snd] in H1; [|by apply (same_in_step w)].
  destruct (negb _); [by apply (same_in_step w)|]. unfold require_csrf. destruct (verifySessionCSRF r s); [|by apply (same_in_step w)].
  assert (in_step w1) as Hw1 by (by apply (same_in_step w)). rewrite alone_bind.
  pose proof (generateAndStoreCA_in_step w1 Hw1) as H2.
  destruct (alone generateAndStoreCA w1) as [[u|] w2]; cbn [snd] in H2; [|exact H2].
  apply (same_in_step w2); [|exact H2]. apply alone_same. apply with_ca_same.
  intros [c|]; [|apply renderCertsTab_same]. by apply guarantees_bind; [apply on_install_same|].
Qed.

(** The server is started again. *)
Definition restart (w : World Host) : World Host := edit_host (put_ca None) w.

(** C32: While nothing else runs, whatever statements are lost and whatever fails in the
    cryptographic library, every page of the certificates tab and every start of the
    server leave the authority in memory and the stored one in step; and then a restart,
    if it can read the row, brings back the same authority. *)
Theorem managed_ca_kept w :
  in_step w →
  (∀ (x : host_route) r, x ∈ cert_writes ++ cert_reads → in_step (alone (x.2 r) w).2) ∧
  in_step (alone ensureCA w).2 ∧
  (∀ c, ho_ca (w_inv w) = Some c → fault (w_step w) = false → ho_ca (w_inv (alone ensureCA (restart w)).2) = Some c).
Proof using Hlaws pki_laws.
  intros Hw. split; [|split; [by apply ensureCA_in_step|]].
  - intros x r Hx. destruct (cert_pages_same x Hx) as [->|Hs]; [by apply certRotateCA_in_step|].
    apply (same_in_step w); [|done]. apply alone_same, Hs.
  - intros c Hc Hf. destruct (Hw c Hc) as (a & sealed & keyPEM & Ha & Hrow & Ho & Hl).
    unfold ensureCA. rewrite Ha, alone_bind. unfold GetAppCA. rewrite alone_stmt. unfold run_stmt.
    change (w_step (restart w)) with (w_step w). rewrite Hf.
    change (ho_app_ca (w_inv (bump (restart w)))) with (ho_app_ca (w_inv w)). rewrite Hrow, Ho. cbn [mbind option_bind].
    rewrite Hl. unfold setCA. by rewrite alone_atomic.
Qed.
End promise.

(** ** Runs *)

(** A stand-in for the cryptographic library: keys and certificates are their names. *)
#[local] Instance toy_pki : PKI :=
  {| Certificate := string; PrivateKey := string;
     GenerateKey := λ n, Some ("key " +:+ itoa (Z.of_nat n)); Serial := Z.of_nat;
     CreateCertificate := λ n _ _ _ _, Some ("certificate " +:+ itoa (Z.of_nat n));
     ParseCertificate := Some; cert_NotAfter := λ _, 0; cert_Raw := λ c, c;
     EncodeToMemory := λ _ b, "-" +:+ b; Decode := strip_prefix "-";
     MarshalPKCS8 := Some; ParsePKCS8 := λ s, Some (Some s) |}.

Lemma toy_pki_laws : PKILaws toy_pki.
Proof. split; [done|intros kind b; apply (strip_prefix_app "-")|by intros key der [= ->]]. Qed.

(** Random texts of one byte; the [n]-th statement is lost. *)
Definition byte_env (n : nat) : Env :=
  {| clock := λ i, (10000 + Z.of_nat i) * second; fault := λ i, (i =? n)%nat;
     token := λ _, Some "t"; jsonb_in := λ s, Some s |}.
Definition no_fault : Env := byte_env 1000.

Definition host_of (w : World Database) : World Host :=
  let v := install_of w in
  MkWorld (w_sites v) (w_users v) (w_agents v) (w_schedules v) (w_jobs v) (w_audit v) (MkHost (w_inv v) None None None)
    (w_spawned v) (w_step v).
Definition first_boot : World Host := (alone (ensureCA (env := no_fault)) (host_of demo_world)).2.
Definition rotate_request : Request := request "POST" "/settings/certificates/rotate-ca" "" "sa" [("csrf_token", "ta")].

Lemma toy_laws : ∀ a, sealer = Some a → AEADLaws a ∧
  ∀ n bytes, random_bytes (env := no_fault) n = Some bytes → length bytes = NonceSize a ∧ Forall is_byte bytes.
Proof.
  intros a [= <-]. split; [apply plain_aead_laws|]. intros n bytes [= <-]. split; [done|]. by repeat constructor.
Qed.

(** The parts of a state that tell the authorities apart. *)
Definition in_force (w : World Host) : option string := ca_CertPEM <$> ho_ca (w_inv w).
Definition stored_row (w : World Host) : option (string * string) := ho_app_ca (w_inv w).
Lemma in_force_ne w w' : in_force w ≠ in_force w' → ho_ca (w_inv w) ≠ ho_ca (w_inv w').
Proof. intros Hne H. apply Hne. unfold in_force. by rewrite H. Qed.

Definition rotated : World Host := (alone (certRotateCA (env := no_fault) rotate_request) first_boot).2.
Lemma first_boot_in_force : in_force first_boot = Some "-certificate 4".
Proof. vm_compute. reflexivity. Qed.

Lemma managed_ca_kept_witness :
  in_step first_boot ∧ in_step rotated ∧ in_force rotated = Some "-certificate 12" ∧
  in_force (alone (ensureCA (env := no_fault)) (restart first_boot)).2 = Some "-certificate 4".
Proof.
  assert (in_step (host_of demo_world)) as H0 by (intros c Hc; discriminate Hc).
  pose proof (managed_ca_kept (pki_laws := toy_pki_laws) (env := no_fault) (λ _ _, Some "") toy_laws) as Hkept.
  assert (in_step first_boot) as H1 by exact (proj1 (proj2 (Hkept _ H0))).
  pose proof first_boot_in_force as Hc. refine (conj H1 (conj _ (conj _ _))).
  - refine (proj1 (Hkept _ H1) ("POST", "/settings/certificates/rotate-ca", certRotateCA) rotate_request _).
    rewrite elem_of_app. left. unfold cert_writes. do 2 right. left.
  - vm_compute. reflexivity.
  - unfold in_force in Hc |- *. destruct (ho_ca (w_inv first_boot)) as [c|] eqn:Hb; [|discriminate Hc].
    rewrite (proj2 (proj2 (Hkept _ H1)) c Hb eq_refl). exact Hc.
Defined.

(** When the statement of a rotation is lost, the page says that a new authority was
    generated and the audit log that it was rotated; the old one is still in force. *)
Theorem failed_rotation_reported :
  let lost := alone (certRotateCA (env := byte_env 14) rotate_request) first_boot in
  rs_Body lost.1 = Redirect "/settings/certificates?notice=rotated" ∧
  map au_action (w_audit lost.2) = ["agent.ca.rotated"] ∧
  in_force lost.2 = in_force first_boot ∧ stored_row lost.2 = stored_row first_boot.
Proof. split_and!; vm_compute; reflexivity. Qed.

(** A start with another encryption key replaces the stored authority, whose key could
    have been opened with the old one. *)
Definition other_aead : AEAD := MkAEAD 1 (λ _ p, p) (λ _ _, None).
Definition rekeyed : App :=
  MkApp settings (Some other_aead) IDKey inet_in macaddr_in cidr_in lower site_name by_cidr by_address by_mac by_name.
Theorem unreadable_key_replaced :
  stored_row (alone (ensureCA (env := no_fault) (app := rekeyed)) (restart first_boot)).2 ≠ stored_row first_boot.
Proof. vm_compute. discriminate. Qed.

(** Without an encryption key the rotation panics. *)
Definition keyless : App :=
  MkApp settings None IDKey inet_in macaddr_in cidr_in lower site_name by_cidr by_address by_mac by_name.
Theorem rotation_without_key_panics :
  rs_Body (alone (certRotateCA (env := no_fault) (app := keyless) rotate_request) (host_of demo_world)).1 = Aborted.
Proof. vm_compute. reflexivity. Qed.

(** Another rotation comes in between the statement of one and its change of the memory:
    the next start brings an authority into force that nothing was issued by. *)
Definition rotation_between (i : nat) (w : World Host) : World Host :=
  if (i =? 9)%nat then (alone (certRotateCA (env := no_fault) rotate_request) w).2 else w.
Definition raced : World Host :=
  (exec rotation_between 0 (certRotateCA (env := no_fault) rotate_request) first_boot).2.
Theorem rotations_race :
  ho_ca (w_inv (alone (ensureCA (env := no_fault)) (restart raced)).2) ≠ ho_ca (w_inv raced).
Proof. apply in_force_ne. vm_compute. discriminate. Qed.
