(* ===== verification/Backup.v ===== *)
(** * Backups

    [internal/backup/backup.go] and [internal/app/backup.go]: the names of the dumps, the
    directory they are kept in, and the pages. [pg_dump] is a parameter; every call of the
    file system is one step, which may fail. *)

From S2P Require Import Prelude GoStrings Netip Protocol GoTime Process Scans Queue Inventory Portability Lockout Totp Password Secrets Json Accounts Web Signin Users Demo Routes SigninSpec Config Events Install Review Settings Oidc Services Trail Pki Certs.
Local Open Scope Z_scope.

(** ** Names *)

Inductive backup_error : Type := ErrDisabled | ErrInvalidName | ErrSystem.

(** [t.UTC().Format("20060102-150405")] *)
Definition stamp (t : Z) : string :=
  let '(y, m, d) := civil_of_days (t / day) in
  let s := t mod day / second in
  year_text y +:+ pad_itoa 2 m +:+ pad_itoa 2 d +:+ "-" +:+
  pad_itoa 2 (s / 3600) +:+ pad_itoa 2 (s / 60 mod 60) +:+ pad_itoa 2 (s mod 60).

Definition buildName (t migration : Z) : string :=
  "lightipam-" +:+ stamp t +:+ "-mig" +:+ itoa migration +:+ ".dump".

(** [time.Parse] of eight digits, a dash and six digits. *)
Definition stamp_time (y m d h mi sec : Z) : option Z :=
  if (1 <=? m) && (m <=? 12) && (1 <=? d) && (d <=? days_in_month y m) && (h <? 24) && (mi <? 60) && (sec <? 60)
  then Some ((((days_from_civil y m d * 24 + h) * 60 + mi) * 60 + sec) * second) else None.

(** The pattern [^lightipam-(\d{8}-\d{6})-mig(\d+)\.dump$] and the two conversions. *)
Definition parse_name (name : string) : option (Z * Z) :=
  s ← strip_prefix "lightipam-" name;
  '(y, s) ← take_digits 4 0 s; '(m, s) ← take_digits 2 0 s; '(d, s) ← take_digits 2 0 s;
  s ← strip_prefix "-" s;
  '(h, s) ← take_digits 2 0 s; '(mi, s) ← take_digits 2 0 s; '(sec, s) ← take_digits 2 0 s;
  s ← strip_prefix "-mig" s;
  let '(number, rest) := span_digits s in
  if decide (number ≠ "" ∧ rest = ".dump") then
    t ← stamp_time y m d h mi sec;
    migration ← atoi number;
    Some (t, migration)
  else None.
Definition parseName (name : string) : result backup_error (Z * Z) := of_option ErrInvalidName (parse_name name).

Example buildName_1 : buildName (1781879405 * second) 16 = "lightipam-20260619-143005-mig16.dump".
Proof. vm_compute. reflexivity. Qed.
Example parseName_1 : parseName "lightipam-20260619-143005-mig16.dump" = Ok (1781879405 * second, 16).
Proof. vm_compute. reflexivity. Qed.
Example parseName_2 :
  map parse_name ["../etc/passwd"; "lightipam-2026-mig1.dump"; "lightipam-20260619-143005-mig16.dump.bak"; "evil.dump";
    "lightipam-20260619-143005-migX.dump"; "/abs/lightipam-20260619-143005-mig1.dump"; "lightipam-20260230-143005-mig1.dump"]
  = replicate 7 None.
Proof. vm_compute. reflexivity. Qed.

(** [filepath.Join] of the directory and a name without separators is the entry of that
    name; the directory itself is a parameter of the file system. *)
Definition partial (name : string) : string := name +:+ ".partial".
Definition probe : string := ".writable-probe".

Record Backup : Type := MkBackup { bk_Name : string; bk_Size : Z; bk_CreatedAt : Z; bk_Migration : Z }.

(** [sort.Slice] by time, newest first; it leaves equal times unordered. *)
Definition newer (a b : Backup) : Prop := bk_CreatedAt b ≤ bk_CreatedAt a.
#[export] Instance newer_dec a b : Decision (newer a b).
Proof. unfold newer. apply _. Defined.

(** ** The file system *)

Abbreviation listing := (gmap string entry).

Section backup.
Context {pki : PKI} {env : Env} {app : App}.

(** One call; without the directory, [f] sees [None]. *)
Definition fs {A} (f : option listing → option (A * option listing)) : Go Host (option A) :=
  atomic (λ w, if fault (w_step w) then (None, bump w)
    else match f (ho_dir (w_inv w)) with
         | Some (a, d) => (Some a, bump (edit_host (put_dir d) w))
         | None => (None, bump w)
         end).
Definition in_dir {A} (f : listing → option (A * listing)) : Go Host (option A) :=
  fs (λ d, d ← d; '(a, d) ← f d; Some (a, Some d)).

Definition MkdirAll : Go Host (option unit) := fs (λ d, Some ((), Some (default ∅ d))).

Definition remove_entry (name : string) (d : listing) : option (unit * listing) :=
  match d !! name with Some (File _) | Some (Directory true) => Some ((), delete name d) | _ => None end.
Definition Remove (name : string) : Go Host (option unit) := in_dir (remove_entry name).

(** [os.Rename] onto a directory fails. *)
Definition rename_entry (old new : string) (d : listing) : option (unit * listing) :=
  match d !! old, d !! new with
  | None, _ | _, Some (Directory _) | Some (Directory _), Some _ => None
  | Some e, _ => Some ((), <[new := e]> (delete old d))
  end.
Definition Rename (old new : string) : Go Host (option unit) := in_dir (rename_entry old new).

(** [dir_size]: what the system says is the size of a directory. *)
Context (dir_size : Z).
Definition size_of (e : entry) : Z := match e with File data => Z.of_nat (slen data) | Directory _ => dir_size end.
Definition Stat (name : string) : Go Host (option Z) := in_dir (λ d, e ← d !! name; Some (size_of e, d)).

(** The names and whether they are directories; [None] when the directory is not there. *)
Definition ReadDir : Go Host (option (option (list (string * bool)))) :=
  fs (λ d, Some (map (λ p, (p.1, match p.2 with Directory _ => true | File _ => false end)) ∘ map_to_list <$> d, d)).

(** [O_CREATE] leaves what is there. *)
Definition open_probe (d : listing) : option (unit * listing) :=
  match d !! probe with
  | Some (Directory _) => None
  | Some (File _) => Some ((), d)
  | None => Some ((), <[probe := File ""]> d)
  end.

(** ** The manager *)

(** [dir], [databaseURL]: the configuration; [pg_dump]: whether a run of the program
    succeeds, and what it leaves in the file it is given. *)
Context (dir databaseURL : string) (pg_dump : nat → string → bool * option string).

Definition Enabled : bool := bool_decide (dir ≠ "").

Definition Writable : Go Host bool :=
  if negb Enabled then Ret false
  else
    opened ←! in_dir open_probe;
    match opened with
    | None => Ret false
    | Some _ => _ ←! Remove probe; Ret true
    end.

Definition dump_into (n : nat) (tmp : string) (d : option listing) : bool * option listing :=
  match d, pg_dump n databaseURL with
  | None, _ => (false, None)
  | Some d, (ok, Some data) =>
      match d !! tmp with Some (Directory _) => (false, Some d) | _ => (ok, Some (<[tmp := File data]> d)) end
  | Some d, (ok, None) => (ok, Some d)
  end.
Definition run_pg_dump (tmp : string) : Go Host bool :=
  atomic (λ w, let '(ok, d) := dump_into (w_step w) tmp (ho_dir (w_inv w)) in (ok, bump (edit_host (put_dir d) w))).

Definition Create (migration : Z) : Go Host (result backup_error Backup) :=
  if negb Enabled then Ret (Err ErrDisabled)
  else
    made ←! MkdirAll;
    match made with
    | None => Ret (Err ErrSystem)
    | Some _ =>
        now ←! time_now;
        let name := buildName now migration in
        let tmp := partial name in
        ok ←! run_pg_dump tmp;
        if negb ok then (_ ←! Remove tmp; Ret (Err ErrSystem))
        else
          renamed ←! Rename tmp name;
          match renamed with
          | None => _ ←! Remove tmp; Ret (Err ErrSystem)
          | Some _ =>
              size ←! Stat name;
              Ret match size with
                  | None => Err ErrSystem
                  | Some n => let '(t, mig) := default (zero_time, 0) (parse_name name) in Ok (MkBackup name n t mig)
                  end
          end
    end.

(** The files with a name of the form, read one after the other: one that is gone by then
    is left out. *)
Fixpoint read_backups (entries : list (string * bool)) : Go Host (list Backup) :=
  match entries with
  | [] => Ret []
  | (name, true) :: l => read_backups l
  | (name, false) :: l =>
      match parse_name name with
      | None => read_backups l
      | Some (t, mig) =>
          size ←! Stat name;
          rest ←! read_backups l;
          Ret match size with Some n => MkBackup name n t mig :: rest | None => rest end
      end
  end.

Definition List : Go Host (result backup_error (list Backup)) :=
  if negb Enabled then Ret (Err ErrDisabled)
  else
    entries ←! ReadDir;
    match entries with
    | None => Ret (Err ErrSystem)
    | Some None => Ret (Ok [])
    | Some (Some l) => backups ←! read_backups l; Ret (Ok (merge_sort newer backups))
    end.

(** The entry of the directory that a name may stand for. *)
Definition Path (name : string) : result backup_error string :=
  if negb Enabled then Err ErrDisabled else match parseName name with Err e => Err e | Ok _ => Ok name end.

Definition Delete (name : string) : Go Host (result backup_error unit) :=
  match Path name with
  | Err e => Ret (Err e)
  | Ok path => removed ←! Remove path; Ret (of_option ErrSystem removed)
  end.

(** ** The pages *)

Definition backupNotice (r : Request) : string :=
  notice_of r [("created", "Backup created."); ("deleted", "Backup deleted.")].

Definition renderBackupTab (errMsg notice : string) : Go Host Response :=
  list ←! List;
  writable ←! Writable;
  reply (Dialog "settings.html" "Settings" errMsg notice
    (map (λ b, ("Backup", bk_Name b)) match list with Ok l => l | Err _ => [] end ++
     [("BackupDir", dir); ("BackupEnabled", boolString Enabled); ("BackupWritable", boolString writable)])).

Definition settingsBackup : HostService := λ r, require_admin r (λ _, renderBackupTab "" (backupNotice r)).

(** [migrations]: the versions that were applied. *)
Context (migrations : list Z).

Definition backupCreate : HostService := λ r,
  require_admin r (λ session, require_csrf r session (
    if negb Enabled then renderBackupTab "Backups are not configured (set BACKUP_DIR)." ""
    else
      migration ←! on_install (MigrationVersion migrations);
      created ←! Create (match migration with Ok n => n | Err _ => 0 end);
      match created with
      | Err _ => renderBackupTab "Backup failed. Check that pg_dump is available and the directory is writable." ""
      | Ok b =>
          _ ←! on_install (hooked_auditMeta (actor session) "backup.created" "backup" (bk_Name b)
                             {["migration" := intString (bk_Migration b)]});
          reply (Redirect "/settings/backup?notice=created")
      end)).

(** [http.ServeFile] of an entry: a directory is redirected to its listing. *)
Definition serve_entry (name : string) (e : option (option entry)) : body :=
  match e with
  | None => HttpError "500 Internal Server Error" StatusInternalServerError
  | Some None => NotFoundPage
  | Some (Some (Directory _)) => Redirect "download/"
  | Some (Some (File data)) => Download name data
  end.

Definition backupDownload : HostService := λ r,
  require_admin r (λ _,
    let name := rq_PathValue r in
    match Path name with
    | Err _ => reply NotFoundPage
    | Ok path => e ←! fs (λ d, Some (d ≫= lookup path, d)); reply (serve_entry name e)
    end).

Definition backupDelete : HostService := λ r,
  require_admin r (λ session, require_csrf r session (
    let name := rq_PathValue r in
    deleted ←! Delete name;
    match deleted with
    | Err _ => renderBackupTab "Unable to delete that backup." ""
    | Ok _ =>
        _ ←! host_audit session "backup.deleted" "backup" name;
        reply (Redirect "/settings/backup?notice=deleted")
    end)).

Definition backup_writes : list host_route :=
  [("POST", "/settings/backup/create", backupCreate); ("POST", "/settings/backup/{name}/delete", backupDelete)].
Definition backup_reads : list host_route :=
  [("GET", "/settings/backup", settingsBackup); ("GET", "/settings/backup/{name}/download", backupDownload)].
End backup.

(** ** A name and what it says *)

(** Exactly the digits [d], as a number. *)
Lemma take_digits_app d acc s :
  Forall (λ c, is_digit c = true) (str_to_list d) →
  take_digits (slen d) acc (d +:+ s) = v ← parse_digits acc d; Some (v, s).
Proof.
  revert acc. induction d as [|c d IH]; intros acc Hd; [done|].
  cbn [str_to_list] in Hd. apply Forall_cons in Hd as [Hc Hd]. rewrite str_app_cons. cbn [slen take_digits parse_digits].
  by rewrite Hc, IH.
Qed.

Lemma take_digits_Some n acc s v rest :
  take_digits n acc s = Some (v, rest) → ∃ d, s = d +:+ rest ∧ slen d = n ∧ Forall (λ c, is_digit c = true) (str_to_list d).
Proof.
  revert acc s. induction n as [|n IH]; intros acc s; [intros [= _ ->]; by exists ""|].
  destruct s as [|c s]; [done|]. cbn [take_digits]. destruct (is_digit c) eqn:Hc; [|done].
  intros (d & -> & Hn & Hd)%IH. exists (String c d). cbn. split_and!; [done|by rewrite Hn|by constructor].
Qed.

Lemma utoa_digits n : Forall (λ c, is_digit c = true) (str_to_list (utoa n)).
Proof. by apply utoa_go_digits. Qed.

Lemma parse_digits_zeros k s : parse_digits 0 (str_of_list (replicate k "0"%char) +:+ s) = parse_digits 0 s.
Proof. induction k as [|k IH]; [done|]. cbn [replicate str_of_list]. rewrite str_app_cons. exact IH. Qed.

Lemma pad_itoa_digits k v : 0 ≤ v → Forall (λ c, is_digit c = true) (str_to_list (pad_itoa k v)).
Proof.
  intros Hv. unfold pad_itoa, pad_left. rewrite str_to_list_app, str_to_of_list, Forall_app. split.
  - apply Forall_forall. intros c Hc. apply elem_of_replicate in Hc as [-> _]. done.
  - rewrite itoa_nonneg by done. apply utoa_digits.
Qed.

Lemma take_digits_pad k v s :
  (0 < k ≤ 19)%nat → 0 ≤ v < 10 ^ Z.of_nat k → take_digits k 0 (pad_itoa k v +:+ s) = Some (v, s).
Proof.
  intros Hk Hv. rewrite <- (slen_pad_itoa k v) at 1 by lia. rewrite take_digits_app by (apply pad_itoa_digits; lia).
  unfold pad_itoa at 1, pad_left. rewrite parse_digits_zeros, itoa_nonneg by lia.
  pose proof (Z.pow_le_mono_r 10 (Z.of_nat k) 20 ltac:(lia) ltac:(lia)).
  pose proof (parse_uint_utoa v ltac:(lia)) as Hp. unfold parse_uint in Hp.
  rewrite decide_False in Hp by apply utoa_not_empty. by rewrite Hp.
Qed.

(** The last day of a month, as [civil_of_days] counts months. *)
Definition month_end (doy : Z) : bool :=
  let mp := (5 * doy + 2) / 153 in
  let d := doy - (153 * mp + 2) / 5 + 1 in
  let m := if mp <? 10 then mp + 3 else mp - 9 in
  if m =? 2 then (d <=? 28) || (doy =? 365) && (d =? 29) else d <=? days_in_month 1 m.
Lemma month_ends : forallb month_end (seqZ 0 366) = true.
Proof. vm_compute. reflexivity. Qed.

Lemma leap_day doe era :
  0 ≤ doe < 146097 → let yoe := year_of_era doe in
  doe - (365 * yoe + yoe / 4 - yoe / 100) = 365 → is_leap (yoe + era * 400 + 1) = true.
Proof.
  intros Hd. unfold year_of_era. cbv zeta. unfold is_leap. intros H.
  assert (∀ y, (y + era * 400 + 1) mod 4 = (y + 1) mod 4) as H4.
  { intros y. replace (y + era * 400 + 1) with (y + 1 + era * 100 * 4) by lia. apply Z.mod_add. lia. }
  assert (∀ y, (y + era * 400 + 1) mod 100 = (y + 1) mod 100) as H100.
  { intros y. replace (y + era * 400 + 1) with (y + 1 + era * 4 * 100) by lia. apply Z.mod_add. lia. }
  assert (∀ y, (y + era * 400 + 1) mod 400 = (y + 1) mod 400) as H400.
  { intros y. replace (y + era * 400 + 1) with (y + 1 + era * 400) by lia. apply Z.mod_add. lia. }
  rewrite H4, H100, H400. clear H4 H100 H400. Z.to_euclidean_division_equations. lia.
Qed.

Lemma civil_of_days_exists z : let '(y, m, d) := civil_of_days z in d ≤ days_in_month y m.
Proof.
  unfold civil_of_days. cbv zeta.
  assert (0 ≤ (z + 719468) mod 146097 < 146097) as Hd by (apply Z.mod_pos_bound; lia).
  set (era := (z + 719468) / 146097) in *. set (doe := (z + 719468) mod 146097) in *. clearbody era doe.
  destruct (year_of_era_range doe Hd) as [_ Hdoy]. pose proof (leap_day doe era Hd) as Hleap. cbv zeta in Hleap.
  set (yoe := year_of_era doe) in *. clearbody yoe.
  set (doy := doe - (365 * yoe + yoe / 4 - yoe / 100)) in *. clearbody doy.
  pose proof month_ends as Hm. rewrite forallb_forall in Hm.
  specialize (Hm doy ltac:(apply list_elem_of_In, elem_of_seqZ; lia)). unfold month_end in Hm. cbv zeta in Hm.
  set (m := if (5 * doy + 2) / 153 <? 10 then _ else _) in *. clearbody m.
  unfold days_in_month in *. destruct (Z.eqb_spec m 2) as [Hm2|Hm2]; [|destruct (_ || _); exact (proj1 (Z.leb_le _ _) Hm)].
  rewrite Hm2. change (2 <=? 2) with true. cbv iota. destruct (Z.eq_dec doy 365) as [He|].
  - rewrite (Hleap He). bool_hyps. lia.
  - destruct (is_leap _); bool_hyps; lia.
Qed.

Definition year_of (t : Z) : Z := (civil_of_days (t / day)).1.1.

(** The name of a backup says when it was made, to the second, and of which version of
    the schema it is: reading the name of a backup taken in a year of four digits gives
    both back. *)
Theorem parseName_buildName t migration :
  0 ≤ year_of t ≤ 9999 → 0 ≤ migration ≤ int64_max → parseName (buildName t migration) = Ok (t / second * second, migration).
Proof.
  unfold year_of, parseName, parse_name, buildName, stamp. intros Hy Hm.
  pose proof (days_from_civil_of_days (t / day)) as Hd. pose proof (civil_of_days_exists (t / day)) as He.
  destruct (civil_of_days (t / day)) as [[y m] d]. cbn [fst] in Hy. destruct Hd as (Hz & Hmonth & Hday).
  assert (0 ≤ t mod day / second < 86400) as Hs.
  { pose proof (Z.mod_pos_bound t day ltac:(unfold day, hour, minute, second; lia)).
    split; [apply Z.div_pos; unfold second; lia|]. apply Z.div_lt_upper_bound; unfold day, hour, minute, second in *; lia. }
  assert (t / second = t / day * 86400 + t mod day / second) as Ht.
  { rewrite (Z.div_mod t day) at 1 by (unfold day, hour, minute, second; lia).
    replace (day * (t / day)) with (t / day * 86400 * second) by (unfold day, hour, minute, second; lia).
    rewrite Z.add_comm, Z.div_add by (unfold second; lia). lia. }
  set (s := t mod day / second) in *. clearbody s. unfold year_text. rewrite (proj2 (Z.ltb_ge y 0)) by lia.
  rewrite !str_app_assoc, strip_prefix_app. cbn [mbind option_bind].
  rewrite (take_digits_pad 4 y) by lia. cbn [mbind option_bind]. rewrite (take_digits_pad 2 m) by lia. cbn [mbind option_bind].
  rewrite (take_digits_pad 2 d) by lia. cbn [mbind option_bind]. rewrite strip_prefix_app. cbn [mbind option_bind].
  assert (0 ≤ s / 3600 < 24 ∧ 0 ≤ s / 60 mod 60 < 60 ∧ 0 ≤ s mod 60 < 60 ∧ s = (s / 3600 * 60 + s / 60 mod 60) * 60 + s mod 60)
    as (H1 & H2 & H3 & H4) by (Z.to_euclidean_division_equations; lia).
  rewrite (take_digits_pad 2 (s / 3600)) by lia. cbn [mbind option_bind].
  rewrite (take_digits_pad 2 (s / 60 mod 60)) by lia. cbn [mbind option_bind].
  rewrite (take_digits_pad 2 (s mod 60)) by lia. cbn [mbind option_bind]. rewrite strip_prefix_app. cbn [mbind option_bind].
  change ".dump" with (String "."%char "dump"). rewrite itoa_nonneg, span_digits_app by (lia || apply utoa_digits || done).
  rewrite decide_True by (split; [apply utoa_not_empty|done]). unfold stamp_time.
  replace (_ && _) with true by (symmetry; rewrite !andb_true_iff; repeat split; lia). cbn [mbind option_bind].
  rewrite <- itoa_nonneg, atoi_itoa by (unfold in_int64, int64_min, int64_max in *; lia). cbn. rewrite Hz, Ht. do 3 f_equal.
  clear - H4. lia.
Qed.

Lemma parseName_buildName_witness :
  parseName (buildName (1781879405 * second + 7) 16) = Ok (1781879405 * second, 16).
Proof. refine (parseName_buildName (1781879405 * second + 7) 16 _ _); vm_compute; split; discriminate. Defined.

(** What a name of the form is made of. *)
Definition digits_text (n : nat) (d : string) : Prop := slen d = n ∧ Forall (λ c, is_digit c = true) (str_to_list d).

Lemma span_digits_Some s d rest : span_digits s = (d, rest) → s = d +:+ rest ∧ Forall (λ c, is_digit c = true) (str_to_list d).
Proof.
  revert d rest. induction s as [|c s IH]; intros d rest; cbn [span_digits]; [by intros [= <- <-]|].
  destruct (is_digit c) eqn:Hc; [|by intros [= <- <-]]. destruct (span_digits s) as [d' rest'].
  intros [= <- <-]. destruct (IH _ _ eq_refl) as [-> Hd]. split; [done|]. cbn. by constructor.
Qed.

Lemma digits_join a b n m : digits_text n a → digits_text m b → digits_text (n + m) (a +:+ b).
Proof. intros [Ha Da] [Hb Db]. split; [by rewrite slen_app, Ha, Hb|]. rewrite str_to_list_app. by apply Forall_app. Qed.

(** Only a name that is [lightipam-], eight digits, a dash, six digits, [-mig], a
    number and [.dump] stands for a backup: it holds no separator of paths, so what is
    downloaded or deleted is an entry of the directory itself, and never the probe or a
    dump that is not complete. *)
Theorem backup_name_form name t migration :
  parseName name = Ok (t, migration) →
  (∃ date clock number, name = "lightipam-" +:+ date +:+ "-" +:+ clock +:+ "-mig" +:+ number +:+ ".dump" ∧
     digits_text 8 date ∧ digits_text 6 clock ∧ digits_text (slen number) number ∧ number ≠ "") ∧
  count_byte "/" name = 0%nat ∧ name ≠ probe ∧ ∀ other, name ≠ partial other.
Proof.
  unfold parseName. destruct (parse_name name) as [[t' m']|] eqn:Hp; [cbn; intros [= -> ->]|done]. unfold parse_name in Hp.
  destruct (strip_prefix "lightipam-" name) as [s0|] eqn:H0; [cbn [mbind option_bind] in Hp|done]. apply strip_prefix_Some in H0.
  destruct (take_digits 4 0 s0) as [[y s1]|] eqn:H1; [cbn [mbind option_bind] in Hp|done]. apply take_digits_Some in H1 as (a & -> & Na & Da).
  destruct (take_digits 2 0 s1) as [[m s2]|] eqn:H2; [cbn [mbind option_bind] in Hp|done]. apply take_digits_Some in H2 as (b & -> & Nb & Db).
  destruct (take_digits 2 0 s2) as [[d s3]|] eqn:H3; [cbn [mbind option_bind] in Hp|done]. apply take_digits_Some in H3 as (c & -> & Nc & Dc).
  destruct (strip_prefix "-" s3) as [s4|] eqn:H4; [cbn [mbind option_bind] in Hp|done]. apply strip_prefix_Some in H4.
  destruct (take_digits 2 0 s4) as [[h s5]|] eqn:H5; [cbn [mbind option_bind] in Hp|done]. apply take_digits_Some in H5 as (e & -> & Ne & De).
  destruct (take_digits 2 0 s5) as [[mi s6]|] eqn:H6; [cbn [mbind option_bind] in Hp|done]. apply take_digits_Some in H6 as (f & -> & Nf & Df).
  destruct (take_digits 2 0 s6) as [[sec s7]|] eqn:H7; [cbn [mbind option_bind] in Hp|done]. apply take_digits_Some in H7 as (g & -> & Ng & Dg).
  destruct (strip_prefix "-mig" s7) as [s8|] eqn:H8; [cbn [mbind option_bind] in Hp|done]. apply strip_prefix_Some in H8.
  destruct (span_digits s8) as [number rest] eqn:H9. apply span_digits_Some in H9 as [-> Dn].
  destruct (decide (number ≠ "" ∧ rest = ".dump")) as [[Hn ->]|]; [|done]. clear Hp.
  assert (digits_text 8 (a +:+ b +:+ c)) as Hdate.
  { change 8%nat with (4 + (2 + 2))%nat. repeat apply digits_join; by split. }
  assert (digits_text 6 (e +:+ f +:+ g)) as Hclock.
  { change 6%nat with (2 + (2 + 2))%nat. repeat apply digits_join; by split. }
  assert (name = "lightipam-" +:+ (a +:+ b +:+ c) +:+ "-" +:+ (e +:+ f +:+ g) +:+ "-mig" +:+ number +:+ ".dump") as Hname.
  { by rewrite H0, H4, H8, !str_app_assoc. }
  split; [by exists (a +:+ b +:+ c), (e +:+ f +:+ g), number|].
  assert (∀ x, Forall (λ c, is_digit c = true) (str_to_list x) → count_byte "/" x = 0%nat) as Hsep.
  { intros x. induction x as [|z x IH]; [done|]. cbn [str_to_list]. intros [Hz Hx]%Forall_cons. cbn [count_byte].
    rewrite decide_False by (intros ->; discriminate Hz). by apply IH. }
  rewrite Hname. split_and!.
  - destruct Hdate as [_ Hdate], Hclock as [_ Hclock]. pose proof (Hsep _ Hdate). pose proof (Hsep _ Hclock). pose proof (Hsep _ Dn).
    rewrite !count_byte_app in *. change (count_byte "/" "lightipam-") with 0%nat. change (count_byte "/" "-mig") with 0%nat.
    change (count_byte "/" "-") with 0%nat. change (count_byte "/" ".dump") with 0%nat. lia.
  - by rewrite str_app_cons.
  - intros other Ho. apply (f_equal String.rev) in Ho. unfold partial in Ho. rewrite !str_rev_app in Ho. discriminate Ho.
Qed.

Lemma backup_name_form_witness :
  count_byte "/" "lightipam-20260619-143005-mig16.dump" = 0%nat.
Proof.
  refine (proj1 (proj2 (backup_name_form "lightipam-20260619-143005-mig16.dump" (1781879405 * second) 16 _))).
  vm_compute. reflexivity.
Defined.

(** ** What the pages leave alone *)

Section promises.
Context {pki : PKI} {env : Env} {app : App}.
Context (dir_size : Z) (dir databaseURL : string) (pg_dump : nat → string → bool * option string) (migrations : list Z).

Definition entry_of (name : string) (w : World Host) : option entry := ho_dir (w_inv w) ≫= lookup name.

(** The names a request may make, replace or remove: the dumps it creates, the one it
    names, and the probe. *)
Definition ours (r : Request) (name : string) : Prop :=
  name = probe ∨ (name = rq_PathValue r ∧ is_Some (parse_name name)) ∨
  ∃ t migration, name = buildName t migration ∨ name = partial (buildName t migration).

Record filing (r : Request) (w w' : World Host) : Prop := MkFiling
  { fl_ca : same_ca w w'; fl_other : ∀ name, ¬ ours r name → entry_of name w' = entry_of name w }.

#[local] Instance filing_preorder r : PreOrder (filing r).
Proof.
  split; [by split|]. intros w1 w2 w3 [C1 F1] [C2 F2]. split; [|intros name Hn; by rewrite (F2 name Hn), (F1 name Hn)].
  destruct C1, C2. split; by etrans.
Qed.

Lemma fs_filing {A} r (f : option listing → option (A * option listing)) :
  (∀ d a d' name, f d = Some (a, d') → ¬ ours r name → d' ≫= lookup name = d ≫= lookup name) → guarantees (filing r) (fs f).
Proof.
  intros Hf. apply guarantees_atomic. intros w. destruct (fault (w_step w)); [by split|].
  destruct (f (ho_dir (w_inv w))) as [[a d]|] eqn:Hd; [|by split]. split; [done|]. intros name. by apply (Hf _ a).
Qed.
Lemma in_dir_filing {A} r (f : listing → option (A * listing)) :
  (∀ d a d' name, f d = Some (a, d') → ¬ ours r name → d' !! name = d !! name) → guarantees (filing r) (in_dir f).
Proof.
  intros Hf. apply fs_filing. intros [d|] a d' name; [cbn|done]. destruct (f d) as [[a' d'']|] eqn:Hd; [cbn|done].
  intros [= <- <-]. by apply (Hf _ a').
Qed.

Lemma Remove_filing r name : ours r name → guarantees (filing r) (Remove name).
Proof.
  intros Ho. apply in_dir_filing. intros d a d' other. unfold remove_entry. intros Hd Hn.
  destruct (d !! name) as [[|[]]|]; simplify_eq; apply lookup_delete_ne; by intros ->.
Qed.
Lemma Rename_filing r old new : ours r old → ours r new → guarantees (filing r) (Rename old new).
Proof.
  intros Ho Ho'. apply in_dir_filing. intros d a d' other. unfold rename_entry. intros Hd Hn.
  assert (other ≠ old ∧ other ≠ new) as [Hold Hnew] by (split; by intros ->).
  destruct (d !! old) as [[|]|], (d !! new) as [[|]|]; simplify_eq; rewrite lookup_insert_ne, lookup_delete_ne by done; done.
Qed.
Lemma Stat_filing r name : guarantees (filing r) (Stat dir_size name).
Proof. apply in_dir_filing. intros d a d' other. destruct (d !! name); [by intros [= _ <-]|done]. Qed.
Lemma Writable_filing r : guarantees (filing r) (Writable dir).
Proof.
  unfold Writable. destruct (negb _); [done|]. apply guarantees_bind.
  - apply in_dir_filing. intros d a d' name. unfold open_probe. intros Hd Hn.
    destruct (d !! probe) as [[]|]; simplify_eq; [done|]. apply lookup_insert_ne. intros <-. apply Hn. by left.
  - intros [u|]; [|done]. apply guarantees_bind; [apply Remove_filing; by left|done].
Qed.
Lemma read_backups_filing r l : guarantees (filing r) (read_backups dir_size l).
Proof.
  induction l as [|[name []] l IH]; [done|done|]. cbn [read_backups]. destruct (parse_name name) as [[t mig]|]; [|done].
  apply guarantees_bind; [apply Stat_filing|]. intros size. apply guarantees_bind; [done|done].
Qed.
Lemma List_filing r : guarantees (filing r) (List dir_size dir).
Proof.
  unfold List. destruct (negb _); [done|]. apply guarantees_bind; [apply fs_filing; by intros ? ? ? ? [= _ <-]|].
  intros [[l|]|]; [|done..]. apply guarantees_bind; [apply read_backups_filing|done].
Qed.
Lemma renderBackupTab_filing r e m : guarantees (filing r) (renderBackupTab dir_size dir e m).
Proof. apply guarantees_bind; [apply List_filing|]. intros l. by apply guarantees_bind; [apply Writable_filing|]. Qed.

Lemma Create_filing r migration : guarantees (filing r) (Create dir_size dir databaseURL pg_dump migration).
Proof.
  unfold Create. destruct (negb _); [done|].
  apply guarantees_bind; [apply fs_filing; by intros [d|] ? ? ? [= _ <-]|]. intros [u|]; [|done].
  apply guarantees_bind; [by apply guarantees_atomic|]. intros now. cbv zeta.
  assert (ours r (buildName now migration)) as Hname by (right; right; exists now, migration; by left).
  assert (ours r (partial (buildName now migration))) as Htmp by (right; right; exists now, migration; by right).
  apply guarantees_bind.
  - apply guarantees_atomic. intros w. destruct (dump_into _ _ _ _ _) as [ok d] eqn:Hd. split; [done|].
    intros name Hn. unfold entry_of. cbn. unfold dump_into in Hd. destruct (ho_dir (w_inv w)) as [l|]; [|by simplify_eq].
    assert (name ≠ partial (buildName now migration)) as Hne by (intros ->; done).
    destruct (pg_dump _ _) as [ok' [data|]]; [|by simplify_eq].
    destruct (l !! partial _) as [[]|]; simplify_eq; cbn; rewrite ?lookup_insert_ne by done; done.
  - intros ok. destruct (negb ok); [by apply guarantees_bind; [by apply Remove_filing|]|].
    apply guarantees_bind; [by apply Rename_filing|]. intros [v|]; [|by apply guarantees_bind; [by apply Remove_filing|]].
    by apply guarantees_bind; [apply Stat_filing|].
Qed.

Lemma on_install_filing {A} r (p : Go Installation A) : guarantees (filing r) (on_install p).
Proof. induction p as [a|g k IH]; [done|]. intros w. by split; [|apply IH]. Qed.

Lemma Delete_filing r : guarantees (filing r) (Delete dir (rq_PathValue r)).
Proof.
  unfold Delete, Path, parseName. destruct (negb _); [done|]. destruct (parse_name _) as [x|] eqn:Hp; [cbn [of_option]|done].
  apply guarantees_bind; [|done]. apply Remove_filing. right. left. by rewrite Hp.
Qed.

Lemma backup_pages_filing (x : host_route) r :
  x ∈ backup_writes dir_size dir databaseURL pg_dump migrations ++ backup_reads dir_size dir → guarantees (filing r) (x.2 r).
Proof.
  assert (∀ next, (∀ s, guarantees (filing r) (next s)) → guarantees (filing r) (require_admin r next)) as Hadmin.
  { intros next Hn. apply guarantees_bind; [apply on_install_filing|]. intros [s|]; [|done]. by destruct (negb _). }
  assert (∀ s next, guarantees (filing r) next → guarantees (filing r) (require_csrf r s next)) as Hcsrf.
  { intros s next Hn. unfold require_csrf. by destruct (verifySessionCSRF r s). }
  rewrite elem_of_app. unfold backup_writes, backup_reads. rewrite !elem_of_cons.
  intros [[->|[->|Hx]]|[->|[->|Hx]]]; try by apply not_elem_of_nil in Hx. all: cbn [snd]; apply Hadmin; intros s.
  - apply Hcsrf. destruct (negb _); [apply renderBackupTab_filing|]. apply guarantees_bind; [apply on_install_filing|].
    intros migration. apply guarantees_bind; [apply Create_filing|]. intros [b|e]; [|apply renderBackupTab_filing].
    by apply guarantees_bind; [apply on_install_filing|].
  - apply Hcsrf. apply guarantees_bind; [apply Delete_filing|]. intros [u|e]; [|apply renderBackupTab_filing].
    by apply guarantees_bind; [apply on_install_filing|].
  - apply renderBackupTab_filing.
  - cbv zeta. destruct (Path _ _); [|done]. apply guarantees_bind; [apply fs_filing; by intros ? ? ? ? [= _ <-]|done].
Qed.

(** Whatever else runs, and whatever name a request carries, no step of a backup page
    changes a file of the directory but the dumps it makes, the backup it names and the
    probe. *)
Theorem backup_pages_keep_other_files (x : host_route) r others i w a b :
  x ∈ backup_writes dir_size dir databaseURL pg_dump migrations ++ backup_reads dir_size dir →
  (a, b) ∈ steps others i (x.2 r) w →
  same_ca a b ∧ ∀ name, ¬ ours r name → entry_of name b = entry_of name a.
Proof. intros Hx Hab. by destruct (guaranteed_steps (filing r) _ _ _ _ _ _ (backup_pages_filing x r Hx) Hab). Qed.
End promises.

(** ** Only complete dumps are published *)

Section whole.
Context {pki : PKI} {env : Env} {app : App}.
Context (dir_size : Z) (dir databaseURL : string) (pg_dump : nat → string → bool * option string).

(** A run of [pg_dump] that succeeds has written its file. *)
Context (pg_dump_writes : ∀ n url, (pg_dump n url).1 = true → is_Some (pg_dump n url).2).

Definition whole (data : string) : Prop := ∃ n, pg_dump n databaseURL = (true, Some data).

(** Beside the files still being written, every entry is as before or a complete dump. *)
Definition published (w w' : World Host) : Prop :=
  ∀ name, (∀ other, name ≠ partial other) →
    entry_of name w' = entry_of name w ∨ ∃ data, whole data ∧ entry_of name w' = Some (File data).

Lemma published_same w w' w'' : published w w' → (∀ name, (∀ other, name ≠ partial other) → entry_of name w'' = entry_of name w') → published w w''.
Proof. intros Hp Hs name Hn. rewrite (Hs name Hn). by apply Hp. Qed.

Lemma Remove_partial_same w name :
  ∀ other, (∀ o, other ≠ partial o) → entry_of other (alone (Remove (partial name)) w).2 = entry_of other w.
Proof.
  intros other Ho. unfold Remove, in_dir, fs. rewrite alone_atomic. destruct (fault _); [done|]. unfold entry_of.
  destruct (ho_dir (w_inv w)) as [d|] eqn:Hd; [|by cbn; rewrite Hd]. cbn [mbind option_bind]. unfold remove_entry.
  destruct (d !! partial name) as [[|[]]|]; cbn; rewrite ?Hd; cbn; rewrite ?lookup_delete_ne by (intros <-; by apply (Ho name)); done.
Qed.

Lemma alone_remove_partial {A} (a : A) w name :
  alone (_ ←! Remove (partial name); Ret a) w = (a, (alone (Remove (partial name)) w).2).
Proof. rewrite alone_bind. destruct (alone (Remove (partial name)) w) as [o v]. by rewrite alone_ret. Qed.

(** After a successful run, the file that is renamed holds the dump. *)
Lemma dump_into_whole n tmp d d' :
  dump_into databaseURL pg_dump n tmp d = (true, d') → ∃ data l, d' = Some l ∧ l !! tmp = Some (File data) ∧ whole data.
Proof using pg_dump_writes.
  unfold dump_into. destruct d as [d|]; [|done]. pose proof (pg_dump_writes n databaseURL) as Hw.
  destruct (pg_dump n databaseURL) as [ok [data|]] eqn:Hp; cbn in Hw; [|intros [= -> _]; by destruct (Hw eq_refl)].
  destruct (d !! tmp) as [[]|]; intros [= -> <-] || intros [=]; subst; exists data; eexists; (split; [done|]);
    (split; [apply lookup_insert_eq|by exists n]).
Qed.
Lemma dump_into_same n tmp d ok d' name :
  dump_into databaseURL pg_dump n tmp d = (ok, d') → name ≠ tmp → d' ≫= lookup name = d ≫= lookup name.
Proof.
  unfold dump_into. intros Hd Hn. destruct d as [d|]; [|by simplify_eq]. destruct (pg_dump n databaseURL) as [ok' [data|]]; [|by simplify_eq].
  destruct (d !! tmp) as [[]|]; simplify_eq; cbn; rewrite ?lookup_insert_ne by done; done.
Qed.

(** C33: While nothing else runs, whatever call of the file system fails and however
    [pg_dump] ends, every entry of the directory that is not a file being written is
    afterwards as it was or a complete dump; and a backup that is reported as made is in
    the directory, complete, with its size. *)
Theorem Create_publishes_whole_dumps migration w :
  let '(res, w') := alone (Create dir_size dir databaseURL pg_dump migration) w in
  published w w' ∧
  ∀ b, res = Ok b → ∃ data, whole data ∧ entry_of (bk_Name b) w' = Some (File data) ∧ bk_Size b = Z.of_nat (slen data).
Proof using pg_dump_writes.
  assert (∀ v, (∀ name, (∀ other, name ≠ partial other) → entry_of name v = entry_of name w) → published w v) as Hsame.
  { intros v Hv name Hn. left. by apply Hv. }
  unfold Create. destruct (negb _); [rewrite alone_ret; by split; [apply Hsame|]|].
  rewrite alone_bind. unfold MkdirAll, fs. rewrite alone_atomic. destruct (fault (w_step w)).
  { rewrite alone_ret. split; [by apply Hsame|done]. }
  set (w1 := bump (edit_host _ w)).
  assert (∀ name, entry_of name w1 = entry_of name w) as H1.
  { intros name. unfold entry_of, w1. cbn. by destruct (ho_dir (w_inv w)). }
  rewrite alone_bind. unfold time_now. rewrite alone_atomic. cbv zeta. set (name := buildName _ _). set (tmp := partial name).
  assert (∀ name, entry_of name (bump w1) = entry_of name w) as H1' by exact H1. clear H1. set (w2 := bump w1) in *. clearbody w2.
  rewrite alone_bind. unfold run_pg_dump. rewrite alone_atomic.
  destruct (dump_into databaseURL pg_dump (w_step w2) tmp (ho_dir (w_inv w2))) as [ok d] eqn:Hd.
  set (w3 := bump (edit_host (put_dir d) w2)).
  assert (∀ other, (∀ o, other ≠ partial o) → entry_of other w3 = entry_of other w) as H3.
  { intros other Ho. rewrite <- H1'. apply (dump_into_same _ _ _ _ _ _ Hd). apply Ho. }
  destruct ok; cbn [negb]; [|unfold tmp; rewrite alone_remove_partial; split; [apply Hsame; intros o Ho; by rewrite Remove_partial_same, H3|done]].
  destruct (dump_into_whole _ _ _ _ Hd) as (data & l & -> & Hl & Hdata).
  rewrite alone_bind. unfold Rename, in_dir, fs. rewrite alone_atomic. destruct (fault (w_step w3)).
  { unfold tmp. rewrite alone_remove_partial. split; [|done]. apply Hsame. intros o Ho. rewrite Remove_partial_same by done. by apply H3. }
  change (ho_dir (w_inv w3)) with (Some l). cbn [mbind option_bind]. unfold rename_entry at 1. rewrite Hl.
  assert (∀ v, v = bump w3 → published w (alone (Remove tmp) v).2) as Hfail.
  { intros v ->. apply Hsame. intros o Ho. unfold tmp. rewrite Remove_partial_same by done. by apply H3. }
  assert (∀ v, v = bump (edit_host (put_dir (Some (<[name:=File data]> (delete tmp l)))) w3) →
            published w v ∧ entry_of name v = Some (File data)) as Hdone.
  { intros v ->. split; [|apply lookup_insert_eq]. intros o Ho. destruct (decide (o = name)) as [->|Hne].
    - right. exists data. split; [done|]. apply lookup_insert_eq.
    - left. rewrite <- (H3 o Ho). unfold entry_of. cbn. by rewrite lookup_insert_ne, lookup_delete_ne by (done || apply not_eq_sym, Ho). }
  destruct (l !! name) as [[]|]; cbn [mbind option_bind].
  2: { unfold tmp. rewrite alone_remove_partial. by split; [apply Hfail|]. }
  all: rewrite alone_bind; unfold Stat, in_dir, fs; rewrite alone_atomic; set (v := bump (edit_host _ w3)).
  all: destruct (Hdone v eq_refl) as [Hp He]; destruct (fault (w_step v)); [rewrite alone_ret; by split|].
  all: change (ho_dir (w_inv v)) with (Some (<[name:=File data]> (delete tmp l))); cbn [mbind option_bind].
  all: rewrite lookup_insert_eq; cbn [mbind option_bind]; rewrite alone_ret; split; [exact Hp|].
  all: destruct (default _ (parse_name name)) as [t mig]; intros b [= <-]; exists data; by split_and!.
Qed.
End whole.

(** ** The list *)

Section listed.
Context {pki : PKI} {env : Env} {app : App}.
Context (dir_size : Z) (dir : string).

Definition well_named (b : Backup) : Prop := parse_name (bk_Name b) = Some (bk_CreatedAt b, bk_Migration b).

Lemma read_backups_named l : returns (Forall well_named) (read_backups dir_size l).
Proof.
  induction l as [|[name []] l IH]; [by constructor|done|]. cbn [read_backups].
  destruct (parse_name name) as [[t mig]|] eqn:Hp; [|done]. apply returns_after. intros size.
  eapply returns_bind; [exact IH|]. intros rest Hrest. destruct size; [by constructor|done].
Qed.

Lemma newer_total a b : newer a b ∨ newer b a.
Proof. unfold newer. lia. Qed.
#[local] Instance newer_Total : Total newer := newer_total.

(** What the list shows is newest first, and each of it can be downloaded and deleted. *)
Theorem List_names :
  returns (λ res, ∀ l, res = Ok l → StronglySorted newer l ∧ Forall (λ b, Path dir (bk_Name b) = Ok (bk_Name b)) l)
    (List dir_size dir).
Proof.
  unfold List, Path. destruct (negb _); [done|]. apply returns_after. intros [[l|]|]; [|intros l [= <-]; by split; constructor|done].
  eapply returns_bind; [apply read_backups_named|]. intros bs Hbs l' [= <-]. split.
  - apply StronglySorted_merge_sort; [|apply _]. intros a b c. unfold newer. lia.
  - rewrite merge_sort_Permutation. eapply Forall_impl; [exact Hbs|]. intros b Hb. unfold parseName. unfold well_named in Hb. by rewrite Hb.
Qed.
End listed.

(** ** Who may write *)

Section guarded.
Context {pki : PKI} {env : Env} {app : App}.
Context (archive : nat → list (string * string) → option string).
Context (dir_size : Z) (dir databaseURL : string) (pg_dump : nat → string → bool * option string) (migrations : list Z).

Definition host_writes : list host_route := cert_writes archive ++ backup_writes dir_size dir databaseURL pg_dump migrations.

Lemma host_writes_guarded :
  Forall (λ x : host_route, ∀ r, guarded still (granted_to r) (λ _, True) (x.2 r)) host_writes.
Proof.
  unfold host_writes, cert_writes, backup_writes. rewrite Forall_app.
  split; (repeat (apply Forall_cons; split); [..|by apply Forall_nil]; intros r; cbn [snd]).
  all: apply require_admin_guarded; intros s Hs; by apply require_csrf_guarded.
Qed.

End guarded.

(** ** Runs *)

#[local] Existing Instance toy_pki.

(** A stand-in for [pg_dump]: what it writes is the time; the run of the step [n] fails
    half way. *)
Definition toy_dump (n k : nat) (url : string) : bool * option string :=
  if (k =? n)%nat then (false, Some "half") else (true, Some ("dump " +:+ itoa (Z.of_nat k))).

Lemma toy_dump_writes n k url : (toy_dump n k url).1 = true → is_Some (toy_dump n k url).2.
Proof. unfold toy_dump. by destruct (k =? n)%nat. Qed.

Definition in_backups : World Host := edit_host (put_dir (Some {["notes.txt" := File "kept"]})) first_boot.

(** One backup is made; the second would be made with a program that fails. *)
Definition one_backup (n : nat) : result backup_error Backup * World Host :=
  alone (Create (env := no_fault) 4096 "/backups" "postgres://db" (toy_dump n) 23) in_backups.
Definition first_backup : string := "lightipam-19700101-024648-mig23.dump".

Lemma Create_publishes_whole_dumps_witness :
  published "postgres://db" (toy_dump 1000) in_backups (one_backup 1000).2 ∧
  entry_of first_backup (one_backup 1000).2 = Some (File "dump 9").
Proof.
  split; [|vm_compute; reflexivity].
  pose proof (Create_publishes_whole_dumps (env := no_fault) 4096 "/backups" "postgres://db" (toy_dump 1000) (toy_dump_writes 1000)
    23 in_backups) as H.
  unfold one_backup. destruct (alone _ in_backups) as [res w]. exact (proj1 H).
Defined.

(** Two backups of one second share the file they are written to. Here another one is
    being made while the first is about to rename its file, and fails: half a dump is
    published and reported as made. *)
Definition one_second : Env :=
  {| clock := λ _, 10000 * second; fault := λ _, false; token := λ _, Some "t"; jsonb_in := λ s, Some s |}.
Definition another_backup : Go Host bool :=
  _ ←! MkdirAll (env := one_second); now ←! time_now (env := one_second);
  run_pg_dump "postgres://db" (toy_dump 12) (partial (buildName now 23)).
Definition raced_backup : result backup_error Backup * World Host :=
  exec (λ i w, if (i =? 3)%nat then (alone another_backup w).2 else w) 0
    (Create (env := one_second) 4096 "/backups" "postgres://db" (toy_dump 12) 23) in_backups.
Definition raced_name : string := "lightipam-19700101-024640-mig23.dump".
Theorem backups_of_one_second_race :
  raced_backup.1 = Ok (MkBackup raced_name 4 (10000 * second) 23) ∧
  entry_of raced_name raced_backup.2 = Some (File "half") ∧ ¬ whole "postgres://db" (toy_dump 12) "half".
Proof.
  split_and!; [vm_compute; reflexivity|vm_compute; reflexivity|].
  intros [n Hn]. unfold toy_dump in Hn. destruct (n =? 12)%nat; simplify_eq.
Qed.

(** The steps of a rotation; step 11 replaces the stored authority. *)
Definition rotation_steps : list (World Host * World Host) :=
  steps quiet 0 (authorize_host (env := no_fault) (certRotateCA (env := no_fault)) rotate_request) first_boot.

