(* ===== verification/Probes.v ===== *)
(** * What an agent says about its host: [internal/scanner/agent/diagnostics.go]

    The parsers of what the system says, the warnings about the egress, and the view the
    app shows. Reading the system's files and running nmap are parameters. *)

From S2P Require Import Prelude GoStrings Netip Protocol Budget Discovery Merge Nmap Json.
Local Open Scope Z_scope.

(** ** Parsers *)

Definition lines : string → list string := split_on (byte_of 10).

Fixpoint first_some {A B} (f : A → option B) (l : list A) : option B :=
  match l with [] => None | a :: l => match f a with Some b => Some b | None => first_some f l end end.

(** The interface of a row of the route table that goes to [0.0.0.0]. *)
Definition default_row (line : string) : option string :=
  match fields line with
  | iface :: destination :: _ => if decide (destination = "00000000") then Some iface else None
  | _ => None
  end.
Definition parseDefaultRouteInterface (procNetRoute : string) : string :=
  default "" (first_some default_row (tail (lines procNetRoute))).

(** [strings.EqualFold(f, "version")]: besides the capital letters, the long s folds to s. *)
Fixpoint fold_case (s : string) : string :=
  match s with
  | "" => ""
  | String c s' =>
      match s' with
      | String d s'' =>
          if decide (byte_val c = 197 ∧ byte_val d = 191) then String "s" (fold_case s'') else String (lower_ascii c) (fold_case s')
      | "" => String (lower_ascii c) ""
      end
  end.

Fixpoint after_version (l : list string) : string :=
  match l with
  | f :: l => match l with
              | v :: _ => if decide (fold_case f = "version") then v else after_version l
              | [] => ""
              end
  | [] => ""
  end.
Definition parseNmapVersion (out : string) : string := after_version (fields out).

Definition capabilityNames : list string :=
  ["CHOWN"; "DAC_OVERRIDE"; "DAC_READ_SEARCH"; "FOWNER"; "FSETID";
   "KILL"; "SETGID"; "SETUID"; "SETPCAP"; "LINUX_IMMUTABLE";
   "NET_BIND_SERVICE"; "NET_BROADCAST"; "NET_ADMIN"; "NET_RAW"; "IPC_LOCK";
   "IPC_OWNER"; "SYS_MODULE"; "SYS_RAWIO"; "SYS_CHROOT"; "SYS_PTRACE";
   "SYS_PACCT"; "SYS_ADMIN"; "SYS_BOOT"; "SYS_NICE"; "SYS_RESOURCE";
   "SYS_TIME"; "SYS_TTY_CONFIG"; "MKNOD"; "LEASE"; "AUDIT_WRITE";
   "AUDIT_CONTROL"; "SETFCAP"; "MAC_OVERRIDE"; "MAC_ADMIN"; "SYSLOG";
   "WAKE_ALARM"; "BLOCK_SUSPEND"; "AUDIT_READ"; "PERFMON"; "BPF";
   "CHECKPOINT_RESTORE"].

Definition bit_name (bit : nat) : string := default ("CAP_BIT_" +:+ itoa (Z.of_nat bit)) (capabilityNames !! bit).
Definition capsFromMask (mask : Z) : list string :=
  map bit_name (filter (λ bit, Z.land mask (Z.shiftl 1 (Z.of_nat bit)) ≠ 0) (seq 0 64)).

(** [strconv.ParseUint(s, 16, 64)] *)
Fixpoint parse_hex (acc : Z) (s : string) : option Z :=
  match s with "" => Some acc | String c s => d ← hex_value c; parse_hex (acc * 16 + d) s end.
Definition ParseUint16 (s : string) : option Z :=
  if decide (s = "") then None
  else match parse_hex 0 s with Some v => if v <? 2 ^ 64 then Some v else None | None => None end.

(** The first line that starts with [CapEff:] decides. *)
Definition parseEffectiveCaps (procStatus : string) : option (list string) :=
  first_some (strip_prefix "CapEff:") (lines procStatus) ≫= λ rest, capsFromMask <$> ParseUint16 (trim_space rest).

Example parseDefaultRouteInterface_1 :
  parseDefaultRouteInterface (join (String (byte_of 10) "")
    ["Iface Destination Gateway"; "eth0 0000A8C0 00000000"; "eth1 00000000 0101A8C0"]) = "eth1".
Proof. vm_compute. reflexivity. Qed.
Example parseNmapVersion_1 : parseNmapVersion "Nmap version 7.94 ( https://nmap.org )" = "7.94".
Proof. vm_compute. reflexivity. Qed.
Example parseEffectiveCaps_1 :
  parseEffectiveCaps (join (String (byte_of 10) "") ["Name: agent"; "CapEff:	0000000000002000"; "CapBnd: 0"]) = Some ["NET_RAW"].
Proof. vm_compute. reflexivity. Qed.
Example capsFromMask_1 : capsFromMask (2 ^ 63 + 2 ^ 12) = ["NET_ADMIN"; "CAP_BIT_63"].
Proof. vm_compute. reflexivity. Qed.

(** ** The system's answers *)

Record NetworkInterface : Type := MkNetworkInterface { ni_Name : string; ni_Addrs : list string }.

(** [ifaces]: the interfaces and their addresses, where they can be read. *)
Definition listNetworkInterfaces (ifaces : option (list (string * option (list string)))) : list NetworkInterface :=
  map (λ p, MkNetworkInterface p.1 (default [] p.2)) (default [] ifaces).

(** [ReadFile]: the contents of a file, if it can be read. *)
Definition readDefaultRouteInterface (ReadFile : string → option string) : string :=
  match ReadFile "/proc/net/route" with Some data => parseDefaultRouteInterface data | None => "" end.
Definition readEffectiveCaps (ReadFile : string → option string) : option (list string) :=
  ReadFile "/proc/self/status" ≫= parseEffectiveCaps.

(** [execCommand]: what a program prints within five seconds, if it succeeds. *)
Definition probeNmapVersion (execCommand : string → list string → option string) (binary : string) : string :=
  match execCommand (if decide (trim_space binary = "") then "nmap" else binary) ["--version"] with
  | Some out => parseNmapVersion out
  | None => ""
  end.

(** ** The view *)

Definition no_subnet_warning : string :=
  "Could not determine the scan source subnet, so auto mode cannot tell which targets are layer-2 adjacent; no target will be pinned. Set AGENT_SCAN_SOURCE_IP to an address on the scanning interface.".
Definition mismatch_warning (egress : EgressOptions) (route : string) : string :=
  if decide (effectivePinMode egress = PinAlways) then
    "The scan source is on " +:+ eg_Interface egress +:+ " but the default route is " +:+ route +:+
    "; with AGENT_SCAN_PIN_MODE=always every target is pinned to " +:+ eg_Interface egress +:+
    ", so routed targets' probes leave the wrong interface and are dropped. Use auto."
  else
    "The scan source is on " +:+ eg_Interface egress +:+ " but the default route is " +:+ route +:+
    "; routed targets will use the default route (not pinned). MAC discovery for them needs SNMP arp_table or a scanner on that VLAN.".

Definition diagnosticsWarnings (egress : EgressOptions) (defaultRouteIface : string) : list string :=
  if negb (pinConfigured egress) then []
  else (match eg_SourceNet egress with None => [no_subnet_warning] | Some _ => [] end) ++
       (if decide (eg_Interface egress ≠ "" ∧ defaultRouteIface ≠ "" ∧ eg_Interface egress ≠ defaultRouteIface)
        then [mismatch_warning egress defaultRouteIface] else []).

Record AgentDiagnostics : Type := MkAgentDiagnostics
  { ad_AgentID : string; ad_Interfaces : list NetworkInterface; ad_ScanSourceIP : string; ad_ResolvedScanInterface : string;
    ad_DefaultRouteInterface : string; ad_PinMode : string; ad_NmapVersion : string; ad_Capabilities : option (list string);
    ad_Warnings : list string }.

(** What [New] puts in the seams of an agent. *)
Record Seams : Type := MkSeams
  { sysInterfaces : list NetworkInterface; sysDefaultRoute : string; sysCapabilities : option (list string); nmapVersion : string }.
Definition system_seams (ifaces : option (list (string * option (list string)))) (ReadFile : string → option string)
    (execCommand : string → list string → option string) (NmapBinary : string) : Seams :=
  MkSeams (listNetworkInterfaces ifaces) (readDefaultRouteInterface ReadFile) (readEffectiveCaps ReadFile)
    (probeNmapVersion execCommand NmapBinary).

Definition collectDiagnostics (registration : AgentRegistration) (egress : EgressOptions) (s : Seams) : AgentDiagnostics :=
  MkAgentDiagnostics (ar_ID registration) (sysInterfaces s) (eg_SourceIP egress) (eg_Interface egress) (sysDefaultRoute s)
    (effectivePinMode egress) (nmapVersion s) (sysCapabilities s) (diagnosticsWarnings egress (sysDefaultRoute s)).

(** ** Capabilities *)

Lemma land_bit mask bit : Z.land mask (Z.shiftl 1 (Z.of_nat bit)) ≠ 0 ↔ Z.testbit mask (Z.of_nat bit) = true.
Proof.
  rewrite Z.shiftl_1_l. split.
  - intros Hn. destruct (Z.testbit mask (Z.of_nat bit)) eqn:Hb; [done|]. destruct Hn. apply Z.bits_inj'. intros n Hn.
    rewrite Z.land_spec, Z.bits_0. destruct (decide (n = Z.of_nat bit)) as [->|Hne]; [by rewrite Hb|].
    rewrite Z.pow2_bits_false by done. by rewrite andb_false_r.
  - intros Hb H0. assert (Z.testbit (Z.land mask (2 ^ Z.of_nat bit)) (Z.of_nat bit) = false) as H by (by rewrite H0, Z.bits_0).
    rewrite Z.land_spec, Hb, Z.pow2_bits_true in H by lia. done.
Qed.

Lemma bit_names_NoDup : bool_decide (NoDup (map bit_name (seq 0 64))) = true.
Proof. vm_compute. reflexivity. Qed.

Lemma bit_name_inj i j : (i < 64)%nat → (j < 64)%nat → bit_name i = bit_name j → i = j.
Proof.
  intros Hi Hj Hn. pose proof bit_names_NoDup as H%bool_decide_eq_true. rewrite NoDup_alt in H.
  apply (H _ _ (bit_name i)); rewrite list_lookup_fmap, lookup_seq_lt by lia; cbn; congruence.
Qed.

Lemma elem_of_caps mask bit : (bit < 64)%nat → bit_name bit ∈ capsFromMask mask ↔ Z.testbit mask (Z.of_nat bit) = true.
Proof.
  intros Hb. unfold capsFromMask. rewrite list_elem_of_fmap, <- land_bit. split.
  - intros (j & Hn & Hj). apply list_elem_of_filter in Hj as [Hl Hj]. apply elem_of_seq in Hj.
    by rewrite (bit_name_inj bit j) by (done || lia).
  - intros Hl. exists bit. split; [done|]. apply list_elem_of_filter. split; [done|]. apply elem_of_seq. lia.
Qed.

(** No two masks have the same names: nothing is dropped. *)
Theorem capsFromMask_inj m1 m2 :
  0 ≤ m1 < 2 ^ 64 → 0 ≤ m2 < 2 ^ 64 → capsFromMask m1 = capsFromMask m2 → m1 = m2.
Proof.
  intros H1 H2 He. apply Z.bits_inj'. intros n Hn. destruct (Z.lt_ge_cases n 64) as [Hl|Hg].
  - pose proof (elem_of_caps m1 (Z.to_nat n) ltac:(lia)) as E1. pose proof (elem_of_caps m2 (Z.to_nat n) ltac:(lia)) as E2.
    rewrite Z2Nat.id in E1, E2 by lia. rewrite He in E1. destruct (Z.testbit m1 n), (Z.testbit m2 n); naive_solver.
  - assert (∀ m, 0 ≤ m < 2 ^ 64 → Z.testbit m n = false) as Hf; [|by rewrite !Hf].
    intros m Hm. destruct (decide (m = 0)) as [->|]; [apply Z.bits_0|]. apply Z.bits_above_log2; [lia|].
    apply Z.lt_le_trans with 64; [|done]. apply Z.log2_lt_pow2; lia.
Qed.

(** The kernel's line: sixteen hexadecimal digits behind a tab. *)
Fixpoint hex_digits (n : nat) (v : Z) : string :=
  match n with O => "" | S n => hex_digits n (v / 16) +:+ String (hex_digit (v mod 16)) "" end.

Lemma hex_value_digit d : 0 ≤ d < 16 → hex_value (hex_digit d) = Some d.
Proof.
  intros Hd. assert (forallb (λ d, bool_decide (hex_value (hex_digit d) = Some d)) (seqZ 0 16) = true) as H by (vm_compute; reflexivity).
  rewrite forallb_forall in H. specialize (H d ltac:(apply list_elem_of_In, elem_of_seqZ; lia)). by apply bool_decide_eq_true in H.
Qed.

Lemma parse_hex_app acc s t : parse_hex acc (s +:+ t) = v ← parse_hex acc s; parse_hex v t.
Proof.
  revert acc. induction s as [|c s IH]; intros acc; [done|]. rewrite str_app_cons. cbn [parse_hex].
  destruct (hex_value c); [apply IH|done].
Qed.

Lemma parse_hex_digits n v : 0 ≤ v < 16 ^ Z.of_nat n → parse_hex 0 (hex_digits n v) = Some v.
Proof.
  revert v. induction n as [|n IH]; intros v Hv; [cbn in *; f_equal; lia|].
  assert (0 ≤ v mod 16 < 16) as Hm by (apply Z.mod_pos_bound; lia).
  rewrite Nat2Z.inj_succ, Z.pow_succ_r in Hv by lia. cbn [hex_digits]. rewrite parse_hex_app, IH.
  - cbn [mbind option_bind parse_hex]. rewrite hex_value_digit by done. cbn. f_equal. pose proof (Z.div_mod v 16). lia.
  - split; [apply Z.div_pos; lia|apply Z.div_lt_upper_bound; lia].
Qed.

Lemma count_hex_digits c n v : hex_value c = None → 0 ≤ v → count_byte c (hex_digits n v) = 0%nat.
Proof.
  intros Hc. revert v. induction n as [|n IH]; intros v Hv; [done|]. cbn [hex_digits]. rewrite count_byte_app, IH by (apply Z.div_pos; lia).
  cbn [count_byte]. rewrite decide_False; [done|]. intros He.
  pose proof (hex_value_digit (v mod 16) ltac:(apply Z.mod_pos_bound; lia)) as H. by rewrite He, Hc in H.
Qed.

Lemma hex_digits_nonempty n v : hex_digits (S n) v ≠ "".
Proof. cbn [hex_digits]. by destruct (hex_digits n (v / 16)). Qed.

Lemma first_some_app {A B} (f : A → option B) l a b k :
  Forall (λ x, f x = None) l → f a = Some b → first_some f (l ++ a :: k) = Some b.
Proof. intros Hl Ha. induction Hl as [|x l Hx _ IH]; cbn; [by rewrite Ha|by rewrite Hx]. Qed.

Definition status_line (mask : Z) : string := "CapEff:" +:+ String (byte_of 9) (hex_digits 16 mask).

(** What the kernel prints is read back: whatever lines a status file has around it,
    the first [CapEff:] line with the sixteen digits of a mask gives the names of exactly
    the capabilities in the mask. *)
Theorem parseEffectiveCaps_status before after mask :
  Forall (λ l, count_byte (byte_of 10) l = 0%nat ∧ strip_prefix "CapEff:" l = None) before →
  Forall (λ l, count_byte (byte_of 10) l = 0%nat) after → 0 ≤ mask < 2 ^ 64 →
  ∃ caps, parseEffectiveCaps (join (String (byte_of 10) "") (before ++ status_line mask :: after)) = Some caps ∧
    ∀ bit, (bit < 64)%nat → bit_name bit ∈ caps ↔ Z.testbit mask (Z.of_nat bit) = true.
Proof.
  intros Hb Ha Hm. exists (capsFromMask mask). split; [|intros bit; apply elem_of_caps].
  unfold parseEffectiveCaps, lines. rewrite split_join; [|by destruct before|].
  - erewrite first_some_app; [|eapply Forall_impl; [exact Hb|by intros l []]|apply strip_prefix_app].
    cbn [mbind option_bind]. change (trim_space (String (byte_of 9) (hex_digits 16 mask))) with (trim_space (hex_digits 16 mask)).
    rewrite trim_space_id by (intros c Hc; apply count_hex_digits; [|lia]; by destruct c as [[] [] [] [] [] [] [] []]).
    unfold ParseUint16. rewrite decide_False by apply hex_digits_nonempty. rewrite parse_hex_digits by done.
    by rewrite (proj2 (Z.ltb_lt mask (2 ^ 64))) by lia.
  - apply Forall_app. split; [eapply Forall_impl; [exact Hb|by intros l []]|]. constructor; [|done].
    unfold status_line. rewrite count_byte_app. cbn [count_byte]. rewrite count_hex_digits by (done || lia). done.
Qed.

Lemma parseEffectiveCaps_status_witness :
  ∃ caps, parseEffectiveCaps (join (String (byte_of 10) "") (["Name: agent"] ++ status_line 8192 :: ["CapBnd: 0"])) = Some caps ∧
    ∀ bit, (bit < 64)%nat → bit_name bit ∈ caps ↔ Z.testbit 8192 (Z.of_nat bit) = true.
Proof.
  apply parseEffectiveCaps_status; [|by repeat constructor|lia]. constructor; [by split; vm_compute|constructor].
Defined.

(** ** Warnings *)

(** Without a subnet of the source the warning says that no target will be pinned; with
    the pin mode [always] every target is. *)
Theorem warning_contradicts_plan ipNetString egress route targets :
  pinConfigured egress = true → eg_PinMode egress = PinAlways → eg_SourceNet egress = None →
  no_subnet_warning ∈ diagnosticsWarnings egress route ∧
  ep_sets (planEgress ipNetString egress targets) = [MkEgressSet targets egress true].
Proof.
  intros Hp Hm Hs. unfold diagnosticsWarnings, planEgress, effectivePinMode. rewrite Hp, Hs, Hm. by split; [left|].
Qed.

(** A pin that is not configured is not warned about; a source interface is never called
    a mismatch with itself, nor with a route that is not known. *)
Theorem diagnosticsWarnings_quiet egress route :
  pinConfigured egress = false ∨
  (is_Some (eg_SourceNet egress) ∧ (route = "" ∨ eg_Interface egress = "" ∨ route = eg_Interface egress)) ↔
  diagnosticsWarnings egress route = [].
Proof.
  unfold diagnosticsWarnings. destruct (pinConfigured egress); cbn [negb]; [|naive_solver].
  destruct (eg_SourceNet egress) as [n|]; [|split; [intros [|[[? ?] _]]; done|done]]. cbn [app]. split.
  - intros [|[_ H]]; [done|]. rewrite decide_False; [done|]. intros (? & ? & ?). naive_solver.
  - intros H. right. split; [done|]. destruct (decide _) as [|Hn]; [done|].
    destruct (decide (route = "")), (decide (eg_Interface egress = "")), (decide (route = eg_Interface egress)); naive_solver.
Qed.
