(* ===== verification/Link.v ===== *)
(** * The link between the app and an agent

    Both ends of it: the endpoints of [internal/scanner/agent/agent.go] and the client of
    [internal/scanner/dispatch/dispatch.go]. Package [net/http]'s client follows redirects
    here as it does by default; the connection itself, TLS and the JSON codec of the
    messages are parameters. *)

From S2P Require Import Prelude GoStrings Process Protocol Budget Discovery Merge Combined Nmap Agent Secrets Json Events Endpoints Probes.
Local Open Scope Z_scope.

(** ** Messages *)

Record WireRequest : Type := MkWireRequest { wr_Method : string; wr_URL : string; wr_Body : string }.

(** [ws_Broken] is the error a reader meets after the bytes of the body, if the
    connection breaks. *)
Record WireResponse : Type := MkWireResponse
  { ws_Status : Z; ws_Location : string; ws_Body : string; ws_Broken : option string }.

(** What [errors.As] finds in the chain of a transport error. *)
Inductive transport_kind : Type :=
| DNSError (name : string) | CertificateVerificationError | RecordHeaderError | CertificateInvalidError
| UnknownAuthorityError | HostnameError | OpError.
#[export] Instance transport_kind_eq_dec : EqDecision transport_kind.
Proof. solve_decision. Defined.
Record TransportError : Type := MkTransportError { te_kinds : list transport_kind; te_text : string }.

(** [json.Decoder.Decode]: the value at the front of a stream that ends behind the text,
    or breaks there with an error. *)
Definition Decoder (A : Type) : Type := string → option string → result string A.

Definition take_text (n : nat) (s : string) : string := str_of_list (take n (str_to_list s)).
(** [io.LimitReader] *)
Definition limited (limit : nat) (r : WireResponse) : string * option string :=
  if (limit <=? slen (ws_Body r))%nat then (take_text limit (ws_Body r), None) else (ws_Body r, ws_Broken r).

Definition StatusUnprocessableEntity : Z := 422.
Definition newline : string := String (byte_of 10) "".
Definition http_error (message : string) (code : Z) : WireResponse := MkWireResponse code "" (message +:+ newline) None.

(** ** The agent's endpoints *)

Section agent.
(** The runes [%q] prints as they are, and the JSON of a registration, a view of the host
    and a result, where they can be encoded. *)
Context (printable : Z → bool) (DecodeJob : Decoder ScanJob).
Context (MarshalRegistration : AgentRegistration → option string) (MarshalDiagnostics : AgentDiagnostics → option string)
        (MarshalResult : ScanResult → option string).
(** The agent: its registration, the name it expects, its backend, its egress and what
    its host says; the text of a validation error and the clock around a job. *)
Context (Error : job_error → string) (registration : AgentRegistration) (expectedCN : string)
        (discoverer : option (option Z → Discoverer)) (egress : EgressOptions) (seams : Seams) (started finished : Z).

Definition identity_text (e : identity_error) : string :=
  match e with
  | ErrCertRequired => "client certificate required"
  | ErrNotAuthorized cn => "client identity " +:+ Quote printable cn +:+ " is not authorized"
  end.

(** What cannot be encoded is an empty body. *)
Definition writeJSON (status : Z) (json : option string) : WireResponse :=
  MkWireResponse status "" (match json with Some text => text +:+ newline | None => "" end) None.

Definition identified (peer : option (list string)) (next : option WireResponse) : option WireResponse :=
  match verifyClient expectedCN peer with
  | Some e => Some (http_error (identity_text e) 403)
  | None => next
  end.

Definition Agent_health : WireResponse :=
  writeJSON 200 (Some (Marshal [("agent_id", ar_ID registration); ("protocol_version", ProtocolVersion);
    ("service", "light-ipam-scanner-agent"); ("status", "ok")])).

Definition reported : AgentRegistration :=
  MkAgentRegistration (ar_ID registration) (ar_Name registration) (ar_SiteID registration) ProtocolVersion
    (ar_CertificateSubject registration) (ar_AllowedCIDRs registration) (ar_Status registration) (ar_CreatedAt registration)
    (ar_LastSeenAt registration).
Definition Agent_register (peer : option (list string)) : option WireResponse :=
  identified peer (Some (writeJSON 200 (MarshalRegistration reported))).

Definition Agent_diagnostics (peer : option (list string)) : option WireResponse :=
  identified peer (Some (writeJSON 200 (MarshalDiagnostics (collectDiagnostics registration egress seams)))).

(** [http.MaxBytesReader] of a body *)
Definition max_body : nat := Z.to_nat (2 ^ 20).
Definition max_bytes (body : string) : string * option string :=
  if (max_body <? slen body)%nat then (take_text max_body body, Some "http: request body too large") else (body, None).

Definition job_status (res : ScanResult) : Z := if decide (res_Status res = JobRejected) then StatusUnprocessableEntity else 200.

(** [None] is the panic of [processJob], which ends the connection. *)
Definition Agent_submitJob (peer : option (list string)) (body : string) : option WireResponse :=
  identified peer
    match DecodeJob (max_bytes body).1 (max_bytes body).2 with
    | Err e => Some (http_error ("invalid scan job: " +:+ e) 400)
    | Ok job =>
        res ← processJob Error discoverer started finished registration job;
        Some (writeJSON (job_status res) (MarshalResult res))
    end.

(** The route table; [HEAD] is served where [GET] is, without a body. *)
Definition agent_routes (peer : option (list string)) (body : string) : list (string * string * option WireResponse) :=
  [("GET", "/healthz", Some Agent_health); ("GET", "/register", Agent_register peer);
   ("GET", "/diagnostics", Agent_diagnostics peer); ("POST", "/jobs", Agent_submitJob peer body)].
Definition without_body (r : WireResponse) : WireResponse := MkWireResponse (ws_Status r) (ws_Location r) "" None.
Definition Agent_Handler (peer : option (list string)) (method path body : string) : option WireResponse :=
  match filter (λ x, x.1.2 = path) (agent_routes peer body) with
  | [] => Some (http_error "404 page not found" 404)
  | (allowed, _, reply) :: _ =>
      if decide (method = allowed) then reply
      else if decide (method = "HEAD" ∧ allowed = "GET") then without_body <$> reply
      else Some (http_error "Method Not Allowed" 405)
  end.
End agent.

(** ** The client *)

Definition isTLSError (e : TransportError) : bool :=
  existsb (λ k, bool_decide (k ∈ te_kinds e))
    [CertificateVerificationError; RecordHeaderError; CertificateInvalidError; UnknownAuthorityError; HostnameError].
Definition dns_name (k : transport_kind) : option string := match k with DNSError name => Some name | _ => None end.

(** What was sent, in order. *)
Definition Sent : Type := list WireRequest.
Definition Call (A : Type) : Type := prog Sent (result string A).

Section client.
Context (printable : Z → bool).
(** [Location] of a response against the address of its request; the answer of the
    network to the next request; the text of [url.Parse]'s error. *)
Context (Resolve : string → string → result string string) (RoundTrip : Sent → WireRequest → result TransportError WireResponse)
        (ParseError : string → string).

Definition classifyDialError (e : TransportError) : string :=
  match first_some dns_name (te_kinds e) with
  | Some name =>
      "scanner-agent is not resolvable (" +:+ Quote printable name +:+ ")" +:+ dash +:+
      "check the scanner-agent container is running and attached to the Compose network (docker compose --profile scanner ps): " +:+ te_text e
  | None =>
      if isTLSError e then
        "scanner-agent was reached, but mTLS/certificate validation failed" +:+ dash +:+
        "check the app and agent share the managed CA and the certs are current: " +:+ te_text e
      else if decide (OpError ∈ te_kinds e) then
        "scanner-agent host resolved, but the connection failed" +:+ dash +:+
        "the agent's port may be refused or unreachable (is the agent listening, and is a firewall in the way?): " +:+ te_text e
      else "contact agent: " +:+ te_text e
  end.

Definition newAgentRequest (method endpointURL suffix body : string) : result string WireRequest :=
  match ValidateAgentEndpoint printable endpointURL with
  | Err e => Err e
  | Ok normalized =>
      let url := trim_right_func (λ c, bool_decide (c = "/"%char)) normalized +:+ suffix in
      match Parse url with None => Err ("build request: " +:+ ParseError url) | Some _ => Ok (MkWireRequest method url body) end
  end.

Definition round_trip (q : WireRequest) : prog Sent (result TransportError WireResponse) :=
  atomic (λ sent, (RoundTrip sent q, sent ++ [q])).

(** The error of the client names the first method in title case and an address. *)
Definition title (method : string) : string :=
  match method with "" => "Get" | String c s => String c (to_lower s) end.
Definition client_error (method url text : string) : TransportError :=
  MkTransportError [] (title method +:+ " " +:+ Quote printable url +:+ ": " +:+ text).

(** 301 to 303 turn a [POST] into a [GET] without a body; 307 and 308 repeat it. *)
Definition redirects_to (q : WireRequest) (r : WireResponse) : option (string * string) :=
  if decide (ws_Location r = "") then None
  else if decide (ws_Status r ∈ [301; 302; 303]) then Some ("GET", "")
  else if decide (ws_Status r ∈ [307; 308]) then Some (wr_Method q, wr_Body q)
  else None.

(** [http.Client.Do], with the default limit of ten requests in a chain. *)
Fixpoint client_do (first : string) (follow : nat) (q : WireRequest) : prog Sent (result TransportError WireResponse) :=
  reply ←! round_trip q;
  match reply with
  | Err e => Ret (Err e)
  | Ok r =>
      match redirects_to q r with
      | None => Ret (Ok r)
      | Some (method, body) =>
          match Resolve (wr_URL q) (ws_Location r) with
          | Err e => Ret (Err (client_error first (wr_URL q) e))
          | Ok url =>
              match follow with
              | O => Ret (Err (client_error first (ws_Location r) "stopped after 10 redirects"))
              | S follow => client_do first follow (MkWireRequest method url body)
              end
          end
      end
  end.
Definition Do (q : WireRequest) : prog Sent (result TransportError WireResponse) := client_do (wr_Method q) 9 q.

(** One call: a request that cannot be built or sent is an error. *)
Definition call {A} (enabled : bool) (request : result string WireRequest) (answer : WireResponse → result string A) : Call A :=
  if negb enabled then Ret (Err "dispatcher is not configured")
  else match request with
       | Err e => Ret (Err e)
       | Ok q => reply ←! Do q; Ret match reply with Err e => Err (classifyDialError e) | Ok r => answer r end
       end.

(** A reading of the agent's answer, when its status is 200. *)
Definition decoded {A} (what decoding : string) (limit : nat) (Decode : Decoder A) (r : WireResponse) : result string A :=
  if decide (ws_Status r = 200) then
    let '(text, broken) := limited limit r in
    match Decode text broken with Ok a => Ok a | Err e => Err ("decode agent " +:+ decoding +:+ ": " +:+ e) end
  else Err ("agent " +:+ what +:+ " returned " +:+ itoa (ws_Status r)).

(** The codec of the messages: an error is the text of [encoding/json]'s. *)
Context (MarshalJob : ScanJob → result string string) (UnmarshalResult : string → result string ScanResult)
        (DecodeRegistration : Decoder AgentRegistration) (DecodeVersion : Decoder string)
        (DecodeDiagnostics : Decoder AgentDiagnostics).
(** Whether the dispatcher is there. *)
Context (enabled : bool).

(** What the agent answered to a job. *)
Definition job_answer (r : WireResponse) : result string ScanResult :=
  let '(payload, broken) := limited (Z.to_nat (4 * 2 ^ 20)) r in
  match broken with
  | Some e => Err ("read agent response: " +:+ e)
  | None =>
      if decide (ws_Status r ∈ [200; StatusUnprocessableEntity]) then
        match UnmarshalResult payload with Ok res => Ok res | Err e => Err ("decode agent result: " +:+ e) end
      else Err ("agent returned " +:+ itoa (ws_Status r) +:+ ": " +:+ trim_space payload)
  end.

Definition Dispatcher_Dispatch (endpointURL : string) (job : ScanJob) : Call ScanResult :=
  if negb enabled then Ret (Err "dispatcher is not configured")
  else match MarshalJob job with
       | Err e => Ret (Err ("marshal job: " +:+ e))
       | Ok body => call enabled (newAgentRequest "POST" endpointURL "/jobs" body) job_answer
       end.

Definition Dispatcher_FetchRegistration (endpointURL : string) : Call AgentRegistration :=
  call enabled (newAgentRequest "GET" endpointURL "/register" "")
    (decoded "register" "registration" (Z.to_nat (2 ^ 20)) DecodeRegistration).
Definition Dispatcher_HealthCheck (endpointURL : string) : Call string :=
  call enabled (newAgentRequest "GET" endpointURL "/healthz" "")
    (decoded "health" "health" (Z.to_nat (2 ^ 16)) DecodeVersion).
Definition Dispatcher_Diagnostics (endpointURL : string) : Call AgentDiagnostics :=
  call enabled (newAgentRequest "GET" endpointURL "/diagnostics" "")
    (decoded "diagnostics" "diagnostics" (Z.to_nat (2 ^ 20)) DecodeDiagnostics).
End client.

(** ** The two ends together *)

Section together.
Context (printable : Z → bool) (DecodeJob : Decoder ScanJob).
Context (MarshalRegistration : AgentRegistration → option string) (MarshalDiagnostics : AgentDiagnostics → option string)
        (MarshalResult : ScanResult → option string).
Context (Error : job_error → string) (registration : AgentRegistration) (expectedCN : string)
        (discoverer : option (option Z → Discoverer)) (egress : EgressOptions) (seams : Seams) (started finished : Z).
Context (Resolve : string → string → result string string) (ParseError : string → string).
Context (MarshalJob : ScanJob → result string string) (UnmarshalResult : string → result string ScanResult).

(** The network: TLS has verified the app's certificate, whose names the agent sees; a
    panic of the agent ends the connection. *)
Context (peer : option (list string)).
Definition agent_network : Sent → WireRequest → result TransportError WireResponse := λ _ q,
  match Parse (wr_URL q) with
  | None => Err (MkTransportError [] "unsupported protocol scheme")
  | Some u =>
      of_option (MkTransportError [] "EOF")
        (Agent_Handler printable DecodeJob MarshalRegistration MarshalDiagnostics MarshalResult Error registration expectedCN
           discoverer egress seams started finished peer (wr_Method q) (ur_Path u) (wr_Body q))
  end.

Definition send (endpointURL : string) (job : ScanJob) : result string ScanResult * Sent :=
  alone (Dispatcher_Dispatch printable Resolve agent_network ParseError MarshalJob UnmarshalResult true endpointURL job) [].

(** The endpoint is the root of the agent, and the codec carries the job. *)
Record reaches (endpointURL url body : string) (job : ScanJob) : Prop :=
  { re_request : newAgentRequest printable ParseError "POST" endpointURL "/jobs" body = Ok (MkWireRequest "POST" url body);
    re_path : ur_Path <$> Parse url = Some "/jobs";
    re_marshal : MarshalJob job = Ok body;
    re_size : (slen body ≤ max_body)%nat;
    re_decode : DecodeJob body None = Ok job }.

Abbreviation submit := (Agent_submitJob printable DecodeJob MarshalResult Error registration expectedCN discoverer started finished peer).

Lemma submit_plain body r : submit body = Some r → ws_Location r = "" ∧ ws_Broken r = None.
Proof.
  unfold Agent_submitJob, identified. destruct (verifyClient _ _); [by intros [= <-]|].
  destruct (DecodeJob _ _) as [job|e]; [|by intros [= <-]]. destruct (processJob _ _ _ _ _ _); cbn; [by intros [= <-]|done].
Qed.

Lemma send_reaches endpointURL url body job :
  reaches endpointURL url body job →
  send endpointURL job =
    (match submit body with
     | None => Err (classifyDialError printable (MkTransportError [] "EOF"))
     | Some r => job_answer UnmarshalResult r
     end, [MkWireRequest "POST" url body]).
Proof.
  intros [Hq Hp Hm Hs Hd]. unfold send, Dispatcher_Dispatch, call. cbn [negb]. rewrite Hm, Hq. unfold Do. cbn [client_do].
  rewrite alone_bind, alone_bind. unfold round_trip. rewrite alone_atomic.
  assert (agent_network [] (MkWireRequest "POST" url body) = of_option (MkTransportError [] "EOF") (submit body)) as Hn.
  { unfold agent_network. cbn [wr_URL wr_Method wr_Body]. destruct (Parse url) as [u|]; [|done]. cbn in Hp. injection Hp as Hp.
    rewrite Hp. reflexivity. }
  rewrite Hn. destruct (submit body) as [r|] eqn:Hr; [|done]. cbn [of_option]. destruct (submit_plain _ _ Hr) as [Hl _].
  unfold redirects_to. by rewrite decide_True.
Qed.

End together.

(** ** Where requests go *)

Section guarded.
Context (printable : Z → bool) (Resolve : string → string → result string string)
        (RoundTrip : Sent → WireRequest → result TransportError WireResponse) (ParseError : string → string).

(** An address that was checked, with a suffix of the protocol. *)
Definition checked_address (endpointURL suffix url : string) : Prop :=
  ∃ normalized, ValidateAgentEndpoint printable endpointURL = Ok normalized ∧
    url = trim_right_func (λ c, bool_decide (c = "/"%char)) normalized +:+ suffix.

Lemma newAgentRequest_checked method endpointURL suffix body q :
  newAgentRequest printable ParseError method endpointURL suffix body = Ok q → checked_address endpointURL suffix (wr_URL q).
Proof.
  unfold newAgentRequest, checked_address. destruct (ValidateAgentEndpoint printable endpointURL) as [n|]; [|done].
  destruct (Parse _); [|done]. intros [= <-]. by exists n.
Qed.

(** While the agents answer no redirect, a call sends nothing but to an address that was
    checked before. *)
Theorem calls_stay_guarded {A} enabled method endpointURL suffix body (answer : WireResponse → result string A) sent :
  (∀ sent q r, RoundTrip sent q = Ok r → redirects_to q r = None) →
  let '(_, sent') := alone (call printable Resolve RoundTrip enabled (newAgentRequest printable ParseError method endpointURL suffix body) answer) sent in
  sent' = sent ∨ ∃ q, sent' = sent ++ [q] ∧ checked_address endpointURL suffix (wr_URL q).
Proof.
  intros Hn. unfold call. destruct (negb enabled); [by left|].
  destruct (newAgentRequest _ _ _ _ _ _) as [q|e] eqn:Hq; [|by left]. apply newAgentRequest_checked in Hq.
  unfold Do. cbn [client_do]. rewrite alone_bind, alone_bind. unfold round_trip. rewrite alone_atomic.
  destruct (RoundTrip sent q) as [r|e] eqn:Hr; [rewrite (Hn _ _ _ Hr)|]; rewrite !alone_ret; right; by exists q.
Qed.
End guarded.

(** A host that redirects has the app send a request to an address the check refuses. *)
Definition metadata : string := "http://169.254.169.254/latest/meta-data".
Definition redirecting : Sent → WireRequest → result TransportError WireResponse := λ sent _,
  Ok match sent with [] => MkWireResponse 302 metadata "" None | _ => MkWireResponse 200 "" "{}" None end.
Theorem redirect_leaves_the_guard :
  map wr_URL (alone (Dispatcher_FetchRegistration (λ _, true) (λ _ location, Ok location) redirecting (λ _, "")
    (λ _ _, Err "empty") true "https://scanner-agent:8443") []).2 = ["https://scanner-agent:8443/register"; metadata] ∧
  ValidateAgentEndpoint (λ _, true) metadata = Err "Endpoint URL must use https://." ∧
  ValidateAgentEndpoint (λ _, true) "https://169.254.169.254/latest/meta-data" ≠ Ok "https://169.254.169.254/latest/meta-data".
Proof. split_and!; [vm_compute; reflexivity..|vm_compute; discriminate]. Qed.

(** A codec of one job and one answer. *)
Definition one_job : ScanJob := example_job ["10.0.0.0/24"] ["10.0.0.1"].
Definition one_result : option ScanResult :=
  processJob (λ _, "") (Some (λ _, echo_core)) 0 1 (example_agent ["10.0.0.0/8"]) one_job.
Definition send_one (endpointURL : string) : result string ScanResult * Sent :=
  send (λ _, true) (λ _ _, Ok one_job) (λ _, None) (λ _, None) (λ _, Some "{}") (λ _, "") (example_agent ["10.0.0.0/8"])
    "light-ipam-app" (Some (λ _, echo_core)) (MkEgress "" "" "" None) (MkSeams [] "" None "") 0 1
    (λ _ _, Err "") (λ _, "") (λ _, Ok "{job}") (λ _, of_option "" one_result) (Some ["light-ipam-app"]) endpointURL one_job.

