(* ===== verification/Reload.v ===== *)
(** * The agent's certificate: [internal/scanner/agent/certreload.go]

    The TLS configurations of both ends, and the keypair that is read again when its files
    change. Reading a file and asking for its time are steps between which the files may
    be replaced; [crypto/tls] and [crypto/x509] are parameters. *)

From S2P Require Import Prelude GoStrings GoTime Protocol Process Scans.
Local Open Scope Z_scope.

(** ** Configurations *)

Section tls.
(** A certificate with its key; a set of roots. *)
Context {Keypair CertPool : Type}.
Context (X509KeyPair : string → string → result string Keypair) (AppendCertsFromPEM : string → option CertPool).

(** [tc_Reloading]: the certificate is asked for at every connection. *)
Record TLSConfig : Type := MkTLSConfig
  { tc_Certificates : list Keypair; tc_Reloading : bool; tc_RootCAs : option CertPool; tc_ClientCAs : option CertPool;
    tc_RequireAndVerifyClientCert : bool; tc_ServerName : string; tc_MinVersion : Z }.
Definition VersionTLS12 : Z := 771.

Definition certPool (caPEM : string) : result string CertPool :=
  of_option "no CA certificates found in PEM input" (AppendCertsFromPEM caPEM).

Definition ServerTLSConfig (certPEM keyPEM caPEM : string) : result string TLSConfig :=
  match X509KeyPair certPEM keyPEM with
  | Err e => Err ("load server keypair: " +:+ e)
  | Ok cert =>
      match certPool caPEM with
      | Err e => Err e
      | Ok pool => Ok (MkTLSConfig [cert] false None (Some pool) true "" VersionTLS12)
      end
  end.

Definition ClientTLSConfig (certPEM keyPEM caPEM serverName : string) : result string TLSConfig :=
  match X509KeyPair certPEM keyPEM with
  | Err e => Err ("load client keypair: " +:+ e)
  | Ok cert =>
      match certPool caPEM with
      | Err e => Err e
      | Ok pool => Ok (MkTLSConfig [cert] false (Some pool) None false serverName VersionTLS12)
      end
  end.

Definition ServerTLSConfigReloading (caPEM : string) : result string TLSConfig :=
  match certPool caPEM with
  | Err e => Err e
  | Ok pool => Ok (MkTLSConfig [] true None (Some pool) true "" VersionTLS12)
  end.

(** ** The reloader *)

(** The files with their times, and what the reloader holds under its lock. *)
Record Reloading : Type := MkReloading { rw_files : gmap string (string * Z); rw_current : option Keypair; rw_modTime : Z }.

Context (certPath keyPath : string).

Definition ReadFile (path : string) : prog Reloading (option string) := atomic (λ w, (fst <$> rw_files w !! path, w)).
Definition ModTime (path : string) : prog Reloading (option Z) := atomic (λ w, (snd <$> rw_files w !! path, w)).

Fixpoint latest_from (latest : Z) (paths : list string) : prog Reloading Z :=
  match paths with
  | [] => Ret latest
  | p :: paths => modified ←! ModTime p; latest_from (match modified with Some t => if latest <? t then t else latest | None => latest end) paths
  end.
Definition latestModTime : list string → prog Reloading Z := latest_from zero_time.

(** [tls.LoadX509KeyPair] *)
Definition LoadX509KeyPair : prog Reloading (option Keypair) :=
  cert ←! ReadFile certPath;
  match cert with
  | None => Ret None
  | Some cert =>
      key ←! ReadFile keyPath;
      Ret (key ← key; (match X509KeyPair cert key with Ok p => Some p | Err _ => None end))
  end.

(** [false]: an error, which changes nothing. *)
Definition reload : prog Reloading bool :=
  pair ←! LoadX509KeyPair;
  match pair with
  | None => Ret false
  | Some p =>
      modified ←! latestModTime [certPath; keyPath];
      atomic (λ w, (true, MkReloading (rw_files w) (Some p) modified))
  end.

Definition GetCertificate : prog Reloading (option Keypair) := atomic (λ w, (rw_current w, w)).

Definition changed : prog Reloading bool :=
  loaded ←! atomic (λ w, (rw_modTime w, w));
  latest ←! latestModTime [certPath; keyPath];
  Ret (loaded <? latest).

(** One tick of the watch, and a number of them; the time between two. *)
Definition Watch_tick : prog Reloading unit :=
  new ←! changed; if negb new then Ret () else _ ←! reload; Ret ().
Definition Watch (ticks : nat) : prog Reloading unit := for_each (λ _, Watch_tick) (seq 0 ticks).
Definition watch_interval (interval : Z) : Z := if interval <=? 0 then minute else interval.

(** ** What a tick does *)

Definition file_time (w : Reloading) (path : string) : Z := default zero_time (snd <$> rw_files w !! path).
Definition latest (w : Reloading) : Z := Z.max (Z.max zero_time (file_time w certPath)) (file_time w keyPath).
(** The keypair the files hold. *)
Definition on_disk (w : Reloading) : option Keypair :=
  '(cert, _) ← rw_files w !! certPath; '(key, _) ← rw_files w !! keyPath;
  (match X509KeyPair cert key with Ok p => Some p | Err _ => None end).

Lemma alone_latest w : alone (latestModTime [certPath; keyPath]) w = (latest w, w).
Proof.
  unfold latestModTime, latest, file_time. cbn [latest_from]. rewrite alone_bind. unfold ModTime. rewrite alone_atomic, alone_bind, alone_atomic.
  cbn [fst snd]. rewrite alone_ret. f_equal.
  destruct (rw_files w !! certPath) as [[c mc]|], (rw_files w !! keyPath) as [[k mk]|]; cbn; repeat case_match; lia.
Qed.

Lemma alone_load w : alone LoadX509KeyPair w = (on_disk w, w).
Proof.
  unfold LoadX509KeyPair, on_disk. rewrite alone_bind. unfold ReadFile. rewrite alone_atomic.
  destruct (rw_files w !! certPath) as [[c mc]|]; [|done].
  cbn [fmap option_fmap option_map fst]. rewrite alone_bind, alone_atomic, alone_ret. by destruct (rw_files w !! keyPath) as [[k mk]|].
Qed.

Lemma alone_changed w : alone changed w = (rw_modTime w <? latest w, w).
Proof. unfold changed. rewrite alone_bind, alone_atomic, alone_bind, alone_latest. done. Qed.

(** While the files are left alone during it, a tick brings the keypair of the files
    into force when one of them is newer than what was loaded and they hold a keypair;
    otherwise, and so also when only one of two files has been replaced, nothing changes
    and a later tick tries again. *)
Theorem Watch_tick_spec w :
  (alone Watch_tick w).2 =
    match on_disk w with
    | Some p => if rw_modTime w <? latest w then MkReloading (rw_files w) (Some p) (latest w) else w
    | None => w
    end.
Proof.
  unfold Watch_tick. rewrite alone_bind, alone_changed. destruct (rw_modTime w <? latest w); cbn [negb]; [|by destruct (on_disk w)].
  rewrite alone_bind. unfold reload. rewrite alone_bind, alone_load. destruct (on_disk w) as [p|]; [|done].
  by rewrite alone_bind, alone_latest, alone_atomic.
Qed.

(** What is in force is the keypair of the files, and is as new as they are. *)
Definition up_to_date (w : Reloading) : Prop := rw_current w = on_disk w ∧ latest w ≤ rw_modTime w.

Lemma up_to_date_stays w k n : latest w ≤ rw_modTime w → (alone (for_each (λ _, Watch_tick) (seq k n)) w).2 = w.
Proof.
  intros Hn. revert k. induction n as [|n IH]; intros k; [done|]. cbn [seq for_each].
  rewrite alone_bind. pose proof (Watch_tick_spec w) as H. rewrite (proj2 (Z.ltb_ge _ _) Hn) in H.
  destruct (alone Watch_tick w) as [[] v]. cbn [snd] in H. assert (v = w) as -> by (by destruct (on_disk w)). apply IH.
Qed.

(** C39: However a rotation went, once the files hold a keypair and one of them is newer
    than what was loaded, the first tick in which nobody writes to them brings it into
    force, and the ticks that follow keep it until the files change again. *)
Theorem Watch_settles w n p :
  on_disk w = Some p → rw_modTime w < latest w →
  rw_current (alone (Watch (S n)) w).2 = Some p ∧ up_to_date (alone (Watch (S n)) w).2.
Proof.
  intros Hp Hl. unfold Watch. cbn [seq for_each]. rewrite alone_bind. pose proof (Watch_tick_spec w) as H.
  rewrite Hp, (proj2 (Z.ltb_lt _ _) Hl) in H. destruct (alone Watch_tick w) as [[] v]. cbn [snd] in H. subst v.
  set (v := MkReloading _ _ _). assert (up_to_date v) as Hv by (split; [by symmetry|done]).
  by rewrite up_to_date_stays by apply Hv.
Qed.
End tls.

(** ** A rotation that is missed *)

(** Here a keypair is a certificate with a key of its name. *)
Definition named_pair (cert key : string) : result string string :=
  if decide (cert = key) then Ok cert else Err "private key does not match public key".
Definition disk (name : string) (time : Z) : gmap string (string * Z) := {["agent.crt" := (name, time); "agent.key" := (name, time)]}.
Definition replaced (i : nat) (w : Reloading (Keypair := string)) : Reloading (Keypair := string) :=
  if (i =? 5)%nat then MkReloading (disk "third" 3) (rw_current w) (rw_modTime w) else w.

Lemma Watch_settles_witness :
  rw_current (alone (Watch named_pair "agent.crt" "agent.key" 2) (MkReloading (disk "second" 2) (Some "first") 1)).2 = Some "second" ∧
  up_to_date named_pair "agent.crt" "agent.key"
    (alone (Watch named_pair "agent.crt" "agent.key" 2) (MkReloading (disk "second" 2) (Some "first") 1)).2.
Proof. apply Watch_settles; vm_compute; reflexivity. Defined.

(** The files are replaced between the reading of the second keypair and the asking for
    their times: the second is taken to be as new as the third, which is never loaded. *)
Theorem rotation_missed n :
  let w := (exec replaced 0 (Watch_tick named_pair "agent.crt" "agent.key") (MkReloading (disk "second" 2) (Some "first") 1)).2 in
  rw_files w = disk "third" 3 ∧ rw_current (alone (Watch named_pair "agent.crt" "agent.key" n) w).2 = Some "second".
Proof.
  intros w. assert (w = MkReloading (disk "third" 3) (Some "second") 3) as -> by (vm_compute; reflexivity).
  split; [done|]. unfold Watch. rewrite up_to_date_stays; [done|]. vm_compute. discriminate.
Qed.
