(* ===== verification/Startup.v ===== *)
(** * The commands of the scanner: [cmd/scanner-agent] and [cmd/scanner-certs]

    What their environment and flags mean: the backends and their settings, the route of
    each type of scan, the address of the health check, the certificates that are made. *)

From S2P Require Import Prelude GoStrings Netip GoTime Protocol Budget Process Scans Discovery Merge Combined Nmap Names Snmp Agent Secrets Json Config Web Endpoints Pki Reload.
Local Open Scope Z_scope.

(** ** Reading settings *)

(** [time.Duration(n) * time.Second], which wraps around. *)
Definition seconds (n : Z) : Z := wrap64 (n * second).

Definition atoiDefault (s : string) (fallback : Z) : Z :=
  if decide (trim_space s = "") then fallback else default fallback (atoi (trim_space s)).

Definition atoiPort (s : string) (fallback : Z) : Z :=
  match atoi (trim_space s) with
  | Some n => if (n <? 1) || (65535 <? n) then fallback mod 2 ^ 16 else n mod 2 ^ 16
  | None => fallback mod 2 ^ 16
  end.

Definition agent_positiveInt (value : string) (fallback : Z) : Z :=
  match atoi (trim_space value) with Some n => if n <=? 0 then fallback else n | None => fallback end.

Definition splitCSV (value : string) : list string :=
  if decide (trim_space value = "") then [] else filter (λ p, p ≠ "") (map trim_space (split_on ","%char value)).

(** ** The health check *)

(** [net.SplitHostPort]: [SplitHost] gives the host where there is one. *)
Definition SplitHostPort (s : string) : option (string * string) :=
  host ← SplitHost s; '(_, port) ← cut_last_byte ":"%char s; Some (host, port).

Definition healthcheckDialAddr (listen : string) : string :=
  match SplitHostPort listen with
  | None => listen
  | Some (host, port) => join_host_port (if decide (host ∈ [""; "0.0.0.0"; "::"]) then "127.0.0.1" else host) port
  end.

Example healthcheckDialAddr_1 :
  map healthcheckDialAddr [":8443"; "0.0.0.0:8443"; "[::]:8443"; "127.0.0.1:8443"; "10.0.0.5:9000"; "not-an-addr"]
  = ["127.0.0.1:8443"; "127.0.0.1:8443"; "127.0.0.1:8443"; "127.0.0.1:8443"; "10.0.0.5:9000"; "not-an-addr"].
Proof. vm_compute. reflexivity. Qed.
Example atoiPort_1 : map (λ s, atoiPort s 161) ["8443"; "1"; "65535"; ""; "abc"; "0"; "-1"; "65537"] = [8443; 1; 65535; 161; 161; 161; 161; 161].
Proof. vm_compute. reflexivity. Qed.

(** ** The egress *)

(** An interface and, where they can be read, its addresses; an address that is not an
    [IPNet] is [None]. The address of an [IPNet] of an interface is the host's. *)
Record Interface : Type := MkInterface { if_Name : string; if_Addrs : option (list (option IPNet)) }.
Definition addresses (i : Interface) : list IPNet := omap id (default [] (if_Addrs i)).

Section egress.
(** [net.Interfaces], with its error; [net.InterfaceByName] finds the first of a name. *)
Context (interfaces : result string (list Interface)).

Definition owns (target : Addr) (i : Interface) : option (string * IPNet) :=
  n ← head (filter (λ n, to4 (ipn_ip n) = to4 target) (addresses i)); Some (if_Name i, n).
Definition interfaceForIP (ip : string) : result string (string * IPNet) :=
  match ParseIP ip with
  | None => Err "invalid AGENT_SCAN_SOURCE_IP"
  | Some target =>
      match interfaces with
      | Err e => Err e
      | Ok l => of_option ("no local interface has address " +:+ ip) (head (omap (owns target) l))
      end
  end.

Definition subnetForInterface (name : string) : option IPNet :=
  match interfaces with
  | Err _ => None
  | Ok l => i ← head (filter (λ i, if_Name i = name) l); head (filter (λ n, is4 (to4 (ipn_ip n)) = true) (addresses i))
  end.

(** [os.Getenv] *)
Context (environ : string → string).

(** A source address that no interface has is only warned about. *)
Definition resolveEgress : EgressOptions :=
  let iface := environ "AGENT_SCAN_INTERFACE" in
  let ip := environ "AGENT_SCAN_SOURCE_IP" in
  let pin := ParsePinMode (environ "AGENT_SCAN_PIN_MODE") in
  if decide (ip ≠ "") then
    match interfaceForIP ip with
    | Err _ => MkEgress iface ip pin None
    | Ok (found, net) => MkEgress (if decide (iface = "") then found else iface) ip pin (Some net)
    end
  else if decide (iface ≠ "") then MkEgress iface ip pin (subnetForInterface iface)
  else MkEgress iface ip pin None.

(** ** The backends *)

Definition resolveSNMP : SNMPConfig :=
  SNMPConfig_withDefaults
    (MkSNMPConfig (getenv environ "AGENT_SNMP_VERSION" "2c") (getenv environ "AGENT_SNMP_COMMUNITY" "public")
       (atoiPort (environ "AGENT_SNMP_PORT") 161) (seconds (atoiDefault (environ "AGENT_SNMP_TIMEOUT") 5))
       (atoiDefault (environ "AGENT_SNMP_RETRIES") 1)).

Definition resolveNames : NameConfig :=
  NameConfig_withDefaults
    (MkNameConfig (atoiPort (environ "AGENT_NETBIOS_PORT") 137) (atoiPort (environ "AGENT_MDNS_PORT") 5353)
       (seconds (atoiDefault (environ "AGENT_NAME_TIMEOUT") 2))).

Record DNSConfig : Type := MkDNSConfig { dn_Server : string; dn_Timeout : Z }.
Definition DNSConfig_withDefaults (c : DNSConfig) : DNSConfig :=
  MkDNSConfig (dn_Server c) (if dn_Timeout c <=? 0 then 3 * second else dn_Timeout c).
Definition resolveDNS : DNSConfig :=
  DNSConfig_withDefaults
    (MkDNSConfig (trim_space (environ "AGENT_DNS_SERVER")) (seconds (atoiDefault (environ "AGENT_DNS_TIMEOUT") 3))).
(** The server a resolver asks; [None] is the system's resolver. *)
Definition newResolver (c : DNSConfig) : option string :=
  let server := trim_space (dn_Server c) in
  if decide (server = "") then None
  else Some (match SplitHostPort server with Some _ => server | None => join_host_port server "53" end).

Record DHCPConfig : Type := MkDHCPConfig { dh_LeaseFile : string; dh_Format : string }.
Definition resolveDHCP : DHCPConfig :=
  MkDHCPConfig (trim_space (environ "AGENT_DHCP_LEASE_FILE")) (trim_space (environ "AGENT_DHCP_LEASE_FORMAT")).

(** ** The agent *)

Definition agent_router (nmap snmp names dns dhcp combined : Discoverer) : DiscoveryRouter :=
  let r := NewDiscoveryRouter (Some nmap) in
  let r := Register r ScanARPTable snmp in
  let r := Register r ScanSNMPInventory snmp in
  let r := Register r ScanLLDPCDP snmp in
  let r := Register r ScanNameLookup names in
  let r := Register r ScanDNSLookup dns in
  let r := Register r ScanDHCPLeases dhcp in
  Register r ScanCombined combined.

(** [now]: when the agent was started. *)
Definition agent_registration (now : Z) : AgentRegistration :=
  MkAgentRegistration (getenv environ "AGENT_ID" "agent-local") (getenv environ "AGENT_NAME" "local-scanner-agent")
    (environ "AGENT_SITE_ID") ProtocolVersion AgentServerCN (splitCSV (environ "AGENT_ALLOWED_CIDRS")) AgentActive now None.

Context {Keypair CertPool : Type}.
Context (X509KeyPair : string → string → result string Keypair) (AppendCertsFromPEM : string → option CertPool)
        (ReadFile : string → option string) (version : string).

Record AgentSetup : Type := MkAgentSetup
  { as_listen : string; as_tls : TLSConfig (Keypair := Keypair) (CertPool := CertPool); as_registration : AgentRegistration;
    as_egress : EgressOptions; as_NmapBinary : string; as_ExpectedClientCN : string; as_reload : Z }.

(** What [main] does: print its version, dial itself, end with an error, or serve. *)
Inductive agent_run : Type :=
| PrintVersion (text : string) | Healthcheck (address : string) | Exit (why : string) | ServeAgent (s : AgentSetup).

Definition certPath : string := getenv environ "SCANNER_TLS_CERT" "/certs/agent.crt".
Definition keyPath : string := getenv environ "SCANNER_TLS_KEY" "/certs/agent.key".
Definition caPath : string := getenv environ "SCANNER_TLS_CA" "/certs/ca.crt".

(** The files are read twice; here they are left alone in between, so the second reading
    of the keypair succeeds as the first. *)
Definition agent_setup (now : Z) : agent_run :=
  match ReadFile certPath, ReadFile keyPath, ReadFile caPath with
  | None, _, _ => Exit "read server certificate"
  | _, None, _ => Exit "read server key"
  | _, _, None => Exit "read CA certificate"
  | Some cert, Some key, Some ca =>
      match ServerTLSConfig X509KeyPair AppendCertsFromPEM cert key ca, ServerTLSConfigReloading (Keypair := Keypair) AppendCertsFromPEM ca with
      | Err _, _ => Exit "validate server certificate"
      | _, Err _ => Exit "build server TLS config"
      | Ok _, Ok tls =>
          let registration := agent_registration now in
          if decide (ar_AllowedCIDRs registration = []) then Exit "AGENT_ALLOWED_CIDRS must list at least one IPv4 CIDR"
          else ServeAgent (MkAgentSetup (getenv environ "AGENT_LISTEN" ":8443") tls registration resolveEgress
                 (environ "SCANNER_NMAP_BIN") (getenv environ "APP_CLIENT_CN" AppClientCN)
                 (watch_interval (seconds (agent_positiveInt (environ "AGENT_CERT_RELOAD_SECONDS") 300))))
      end
  end.

Definition agent_main (args : list string) (now : Z) : agent_run :=
  match args with
  | arg :: _ =>
      if decide (arg = "--version" ∨ arg = "version") then PrintVersion ("scanner-agent " +:+ version)
      else if decide (arg = "--healthcheck") then Healthcheck (healthcheckDialAddr (getenv environ "AGENT_LISTEN" ":8443"))
      else agent_setup now
  | [] => agent_setup now
  end.
End egress.

(** ** The development certificates *)

Fixpoint parse_ips (l : list string) : option (list Addr) :=
  match l with [] => Some [] | raw :: l => ip ← ParseIP raw; rest ← parse_ips l; Some (ip :: rest) end.

(** The options the flags [-dns], [-ip] and [-days] stand for; [None] for an address that
    is none. *)
Definition certs_options (dnsCSV ipCSV : string) (validDays : Z) : option Options :=
  let names := splitCSV dnsCSV in
  let dns := match names with [] => [] | _ => [AgentServerCN; "localhost"] ++ names end in
  ips ← match splitCSV ipCSV with [] => Some [] | l => parsed ← parse_ips l; Some (loopback ++ parsed) end;
  Some (MkOptions dns ips (wrap64 (wrap64 (validDays * 24) * hour))).

(** The app reaches the agent of the Compose file as [scanner-agent]. That name is in the
    certificate by default, and no longer when another name is added to it. *)
Theorem added_name_drops_compose_host ips days name :
  "scanner-agent" ∈ op_ServerDNSNames (with_defaults (MkOptions [] ips days)) ∧
  (∀ o, certs_options name "" days = Some o → splitCSV name ≠ [] → "scanner-agent" ∉ splitCSV name →
     "scanner-agent" ∉ op_ServerDNSNames (with_defaults o)).
Proof.
  split; [unfold with_defaults; cbn; set_solver|]. unfold certs_options. intros o Ho Hne Hnot.
  cbn [splitCSV] in Ho. change (splitCSV "") with (@nil string) in Ho. cbn [mbind option_bind] in Ho.
  destruct (splitCSV name) as [|n l] eqn:Hl; [done|]. injection Ho as <-. unfold with_defaults. cbn.
  intros H. apply Hnot. do 2 (apply elem_of_cons in H as [H|H]; [discriminate H|]). exact H.
Qed.

Lemma atoiPort_range s fallback : 1 ≤ fallback ≤ 65535 → 1 ≤ atoiPort s fallback ≤ 65535.
Proof.
  intros Hf. unfold atoiPort. rewrite (Z.mod_small fallback) by lia. destruct (atoi _) as [n|]; [|done].
  destruct ((n <? 1) || (65535 <? n)) eqn:Hn; [done|]. rewrite Z.mod_small by lia. lia.
Qed.

(** ** The agent that is started *)

Section started.
Context (interfaces : result string (list Interface)) (environ : string → string).
Context {Keypair CertPool : Type}.
Context (X509KeyPair : string → string → result string Keypair) (AppendCertsFromPEM : string → option CertPool)
        (ReadFile : string → option string) (version : string).

(** An agent that serves at all asks every client for a certificate that its roots
    verify, in TLS 1.2 at least, and knows which one it expects; it has a network to scan,
    sane ports and timeouts for its backends, and a time between looks at its files. *)
Theorem started_agent_is_sane args now s :
  agent_main interfaces environ X509KeyPair AppendCertsFromPEM ReadFile version args now = ServeAgent s →
  tc_RequireAndVerifyClientCert (as_tls s) = true ∧ is_Some (tc_ClientCAs (as_tls s)) ∧ tc_MinVersion (as_tls s) = VersionTLS12 ∧
  as_ExpectedClientCN s ≠ "" ∧ ar_AllowedCIDRs (as_registration s) ≠ [] ∧ ar_ID (as_registration s) ≠ "" ∧ 0 < as_reload s ∧
  1 ≤ sc_Port (resolveSNMP environ) ≤ 65535 ∧ 1 ≤ NetBIOSPort (resolveNames environ) ≤ 65535 ∧
  1 ≤ MDNSPort (resolveNames environ) ≤ 65535 ∧ 0 < sc_Timeout (resolveSNMP environ) ∧ 0 ≤ sc_Retries (resolveSNMP environ) ∧
  0 < nc_Timeout (resolveNames environ) ∧ 0 < dn_Timeout (resolveDNS environ).
Proof.
  intros Hm. assert (∀ k f, f ≠ "" → getenv environ k f ≠ "") as Hget by (intros k f Hf; unfold getenv; by destruct (decide _)).
  assert (agent_setup interfaces environ X509KeyPair AppendCertsFromPEM ReadFile now = ServeAgent s) as Hs.
  { unfold agent_main in Hm. destruct args as [|a args]; [done|]. by repeat destruct (decide _). }
  clear Hm. unfold agent_setup in Hs.
  destruct (ReadFile _) as [cert|]; [|done]. destruct (ReadFile (keyPath environ)) as [key|]; [|done].
  destruct (ReadFile (caPath environ)) as [ca|]; [|done]. destruct (ServerTLSConfig _ _ _ _ _); [|done].
  destruct (ServerTLSConfigReloading _ _) as [tls|] eqn:Htls; [|done].
  unfold ServerTLSConfigReloading, certPool in Htls. destruct (AppendCertsFromPEM ca) as [pool|]; [|done]. injection Htls as <-.
  destruct (decide _) as [|Hc] in Hs; [done|]. injection Hs as <-. cbn [as_tls as_registration as_ExpectedClientCN as_reload] in *.
  pose proof (atoiPort_range (environ "AGENT_SNMP_PORT") 161 ltac:(lia)).
  pose proof (atoiPort_range (environ "AGENT_NETBIOS_PORT") 137 ltac:(lia)).
  pose proof (atoiPort_range (environ "AGENT_MDNS_PORT") 5353 ltac:(lia)).
  split_and!; try (by apply Hget); try done; unfold watch_interval, resolveSNMP, SNMPConfig_withDefaults, resolveNames,
    NameConfig_withDefaults, resolveDNS, DNSConfig_withDefaults, minute, second;
    cbn [sc_Port sc_Timeout sc_Retries NetBIOSPort MDNSPort nc_Timeout dn_Timeout]; try case_match; lia.
Qed.
End started.

(** Every type of scan the protocol knows has its backend; what it does not know goes to
    nmap, which the validation of a job keeps from happening. *)
Theorem agent_router_backends nmap snmp names dns dhcp combined job :
  Router_Discover (agent_router nmap snmp names dns dhcp combined) job =
    if decide (job_Type job ∈ [ScanARPTable; ScanSNMPInventory; ScanLLDPCDP]) then snmp job
    else if decide (job_Type job = ScanNameLookup) then names job
    else if decide (job_Type job = ScanDNSLookup) then dns job
    else if decide (job_Type job = ScanDHCPLeases) then dhcp job
    else if decide (job_Type job = ScanCombined) then combined job
    else nmap job.
Proof.
  unfold Router_Discover, agent_router, Register, NewDiscoveryRouter. cbn [byType fallback].
  repeat (match goal with |- context [<[?k := _]> _ !! job_Type job] => destruct (decide (job_Type job = k)) as [->|?];
    [rewrite lookup_insert_eq|rewrite (lookup_insert_ne _ k) by done] end; [by vm_compute|]).
  rewrite lookup_empty, decide_False by (rewrite !elem_of_cons, elem_of_nil; tauto). done.
Qed.

(** ** A run *)

(** Keypairs and roots are their texts; the environment names a network only. *)
Definition demo_environ (k : string) : string := if decide (k = "AGENT_ALLOWED_CIDRS") then "10.0.0.0/24, 10.0.1.0/24" else "".
Definition demo_agent : agent_run (Keypair := string) (CertPool := string) :=
  agent_main (Err "none") demo_environ (λ cert key, Ok (cert +:+ key)) Some (λ path, Some path) "dev" [] 0.

Lemma started_agent_is_sane_witness :
  ∃ s, demo_agent = ServeAgent s ∧ tc_RequireAndVerifyClientCert (as_tls s) = true ∧ 0 < as_reload s ∧
    ar_AllowedCIDRs (as_registration s) = ["10.0.0.0/24"; "10.0.1.0/24"].
Proof.
  eexists. split; [vm_compute; reflexivity|].
  match goal with |- tc_RequireAndVerifyClientCert (as_tls ?s) = true ∧ _ =>
    pose proof (started_agent_is_sane (Err "none") demo_environ (λ cert key, Ok (cert +:+ key)) Some (λ path, Some path) "dev" [] 0 s
      ltac:(vm_compute; reflexivity)) as (H1 & _ & _ & _ & _ & _ & H2 & _) end.
  split_and!; [exact H1|exact H2|reflexivity].
Defined.
