(* ===== verification/Cli.v ===== *)
(** * The command line: [cmd/lightipam-cli/main.go]

    Package [flag], the commands, and the requests they stand for. What the bodies say to
    the server is in [Api.v]. *)

From S2P Require Import Prelude GoStrings GoTime Process Scans Queue Inventory Portability Lockout Password Secrets Json Accounts Web Signin Users Pages Batch Api.
Local Open Scope Z_scope.

(** ** Integers as [strconv.ParseInt(s, 0, 64)] reads them *)

Definition letter_lower (c : ascii) : ascii := lower_ascii c.
Definition digit_of (c : ascii) : Z :=
  if is_digit c then digit_val c else let b := byte_val (letter_lower c) in if (97 <=? b) && (b <=? 122) then b - 87 else 36.

(** The base and the digits. *)
Definition base_prefix (s : string) : Z * string :=
  match s with
  | String "0" t =>
      match t with
      | String c (String d u) =>
          if decide (letter_lower c = "x"%char) then (16, String d u)
          else if decide (letter_lower c = "b"%char) then (2, String d u)
          else if decide (letter_lower c = "o"%char) then (8, String d u)
          else (8, t)
      | _ => (8, t)
      end
  | _ => (10, s)
  end.

Fixpoint base_digits (base acc : Z) (s : string) : option Z :=
  match s with
  | "" => Some acc
  | String c s =>
      if decide (c = "_"%char) then base_digits base acc s
      else if digit_of c <? base then base_digits base (acc * base + digit_of c) s else None
  end.

(** An underscore stands between two digits, or behind the prefix of a base. [after]: a
    digit comes before; [pending]: an underscore. *)
Fixpoint underscores_ok (hexadecimal after pending : bool) (s : string) : bool :=
  match s with
  | "" => negb pending
  | String c s =>
      if is_digit c || (hexadecimal && (digit_of c <? 16)) then underscores_ok hexadecimal true false s
      else if decide (c = "_"%char) then after && underscores_ok hexadecimal false true s
      else negb pending && underscores_ok hexadecimal false false s
  end.
Definition underscoreOK (s : string) : bool :=
  match s with
  | String "0" (String c u) =>
      if decide (letter_lower c ∈ ["b"; "o"; "x"]%char) then underscores_ok (bool_decide (letter_lower c = "x"%char)) true false u
      else underscores_ok false false false s
  | _ => underscores_ok false false false s
  end.

Definition ParseUint0 (s : string) : option Z :=
  if decide (s = "") then None
  else let '(base, digits) := base_prefix s in v ← base_digits base 0 digits; if underscoreOK s then Some v else None.
Definition ParseInt0 (s : string) : option Z :=
  let checked z := if in_int64b z then Some z else None in
  match s with
  | String "-" s => v ← ParseUint0 s; checked (- v)
  | String "+" s => v ← ParseUint0 s; checked v
  | _ => v ← ParseUint0 s; checked v
  end.

Example ParseInt0_1 : map ParseInt0 ["42"; "-7"; "0x1F"; "010"; "0b11"; "1_000"; "0_7"; "0x_f"; "_1"; "1_"; "1__0"; "08"; ""; "0"; "0x"; "a"]
  = [Some 42; Some (-7); Some 31; Some 8; Some 3; Some 1000; Some 7; Some 15; None; None; None; None; None; Some 0; None; None].
Proof. vm_compute. reflexivity. Qed.

(** ** Package [flag] *)

Inductive flag_kind : Type := StringFlag | IntFlag | BoolFlag.
Inductive flag_error : Type :=
| ErrHelp | BadFlagSyntax (s : string) | NotDefined (name : string) | NeedsArgument (name : string) | InvalidValue (value name : string).

(** What an argument is: not a flag, [--], no flag's syntax, or a flag with what follows
    its equals sign. *)
Inductive argument : Type := Positional | Terminator | Malformed | FlagArgument (name : string) (value : option string).

Definition flag_text (name : string) : argument :=
  match name with
  | "" => Malformed
  | String c _ =>
      if decide (c ∈ ["-"; "="]%char) then Malformed
      else match cut_byte "="%char name with
           | Some (name, value) => FlagArgument name (Some value)
           | None => FlagArgument name None
           end
  end.
Definition argument_of (s : string) : argument :=
  match s with
  | String "-" "" => Positional
  | String "-" (String "-" "") => Terminator
  | String "-" (String "-" name) => flag_text name
  | String "-" name => flag_text name
  | _ => Positional
  end.

(** [flag.Value.Set] *)
Definition parse_bool (s : string) : option bool :=
  if decide (s ∈ ["1"; "t"; "T"; "TRUE"; "true"; "True"]) then Some true
  else if decide (s ∈ ["0"; "f"; "F"; "FALSE"; "false"; "False"]) then Some false else None.
Definition set_flag (kind : flag_kind) (name value : string) : result flag_error json :=
  match kind with
  | StringFlag => Ok (JString value)
  | IntFlag => match ParseInt0 value with Some n => Ok (JInt n) | None => Err (InvalidValue value name) end
  | BoolFlag => match parse_bool value with Some b => Ok (JBool b) | None => Err (InvalidValue value name) end
  end.

Section flags.
Context (formal : list (string * flag_kind)).

Definition kind_of (name : string) : option flag_kind := snd <$> (snd <$> list_find (λ p, p.1 = name) formal).

(** [FlagSet.Parse]: the flags that were set, the last value of each, and what is left. *)
Fixpoint Parse_flags (set : flag_values) (args : list string) : result flag_error (flag_values * list string) :=
  match args with
  | [] => Ok (set, [])
  | s :: args' =>
      match argument_of s with
      | Positional => Ok (set, args)
      | Terminator => Ok (set, args')
      | Malformed => Err (BadFlagSyntax s)
      | FlagArgument name value =>
          match kind_of name with
          | None => Err (if decide (name ∈ ["help"; "h"]) then ErrHelp else NotDefined name)
          | Some BoolFlag =>
              match set_flag BoolFlag name (default "true" value) with
              | Err e => Err e
              | Ok v => Parse_flags (<[name := v]> set) args'
              end
          | Some kind =>
              match value, args' with
              | Some value, _ =>
                  match set_flag kind name value with
                  | Err e => Err e
                  | Ok v => Parse_flags (<[name := v]> set) args'
                  end
              | None, value :: args'' =>
                  match set_flag kind name value with
                  | Err e => Err e
                  | Ok v => Parse_flags (<[name := v]> set) args''
                  end
              | None, [] => Err (NeedsArgument name)
              end
          end
      end
  end.
End flags.

(** ** Commands *)

(** [Unknown what value]: a message with the value between quotation marks. *)
Inductive cli_error : Type := FlagError (e : flag_error) | Message (text : string) | Unknown (what value : string).
(** A request, and a body for those that have one. *)
Definition Command : Type := string * string * option (list (string * json)).

Definition firstOr (values : list string) (fallback : string) : string := default fallback (head values).

Definition fields_error (label : string) (fields : list string) : cli_error :=
  Message (label +:+ ": provide at least one field flag (e.g. --" +:+ firstOr fields "name" +:+ ")").

(** The fields of a body with those that are integers, in the order of the server's
    structure: the body is a map. What is left behind the flags is not looked at. *)
Definition field_flags (fields intFields : list string) : list (string * flag_kind) :=
  map (λ f, (f, if decide (f ∈ intFields) then IntFlag else StringFlag)) fields.
Definition parseFields_args (label : string) (args fields intFields : list string) : result cli_error (list (string * json)) :=
  match Parse_flags (field_flags fields intFields) ∅ args with
  | Err e => Err (FlagError e)
  | Ok (set, _) => of_option (fields_error label fields) (parseFields fields set)
  end.

Definition needID (args : list string) (name : string) : result cli_error string :=
  match args with
  | _ :: id :: _ => if decide (trim_space id = "") then Err (Message ("usage: " +:+ name +:+ " " +:+ firstOr args "" +:+ " <id>")) else Ok id
  | _ => Err (Message ("usage: " +:+ name +:+ " " +:+ firstOr args "" +:+ " <id>"))
  end.

Definition with_id (args : list string) (name : string) (next : string → result cli_error Command) : result cli_error Command :=
  match needID args name with Err e => Err e | Ok id => next id end.
Definition with_body (body : result cli_error (list (string * json))) (method path : string) : result cli_error Command :=
  match body with Err e => Err e | Ok b => Ok (method, path, Some b) end.

(** The verbs of a collection. *)
Definition resource (args : list string) (name : string) (fields intFields : list string) : result cli_error Command :=
  let base := "/api/v1/" +:+ name in
  match args with
  | [] => Err (Message ("usage: " +:+ name +:+ " <list|get|create|update|delete> ..."))
  | verb :: rest =>
      if decide (verb = "list") then Ok ("GET", base, None)
      else if decide (verb = "get") then with_id args name (λ id, Ok ("GET", base +:+ "/" +:+ id, None))
      else if decide (verb = "delete") then with_id args name (λ id, Ok ("DELETE", base +:+ "/" +:+ id, None))
      else if decide (verb = "create") then with_body (parseFields_args (name +:+ " create") rest fields intFields) "POST" base
      else if decide (verb = "update") then
        with_id args name (λ id, with_body (parseFields_args (name +:+ " update") (tail rest) fields intFields) "PUT" (base +:+ "/" +:+ id))
      else Err (Unknown (name +:+ " subcommand") verb)
  end.

(** The addresses are nested below their subnet; here an id may be any text. *)
Definition addresses (args : list string) : result cli_error Command :=
  match args with
  | [] => Err (Message "usage: addresses <list|get|create|update|delete> ...")
  | verb :: rest =>
      if decide (verb = "list") then
        match rest with
        | [] => Err (Message "usage: addresses list <subnet-id>")
        | id :: _ => Ok ("GET", "/api/v1/subnets/" +:+ id +:+ "/addresses", None)
        end
      else if decide (verb = "create") then
        match rest with
        | [] => Err (Message "usage: addresses create <subnet-id> --address <ip> [flags]")
        | id :: flags => with_body (parseFields_args "addresses create" flags address_fields []) "POST" ("/api/v1/subnets/" +:+ id +:+ "/addresses")
        end
      else if decide (verb = "get") then
        match rest with [] => Err (Message "usage: addresses get <id>") | id :: _ => Ok ("GET", "/api/v1/addresses/" +:+ id, None) end
      else if decide (verb = "delete") then
        match rest with [] => Err (Message "usage: addresses delete <id>") | id :: _ => Ok ("DELETE", "/api/v1/addresses/" +:+ id, None) end
      else if decide (verb = "update") then
        match rest with
        | [] => Err (Message "usage: addresses update <id> [flags]")
        | id :: flags => with_body (parseFields_args "addresses update" flags address_fields []) "PUT" ("/api/v1/addresses/" +:+ id)
        end
      else Err (Unknown "addresses subcommand" verb)
  end.

Record client : Type := MkClient { cl_baseURL : string; cl_token : string; cl_insecure : bool }.
(** [None]: the usage text is printed. *)
Definition cli_run : Type := option (client * Command).

Definition text_of (set : flag_values) (name fallback : string) : string :=
  match set !! name with Some (JString s) => s | _ => fallback end.
Definition bool_of (set : flag_values) (name : string) (fallback : bool) : bool :=
  match set !! name with Some (JBool b) => b | _ => fallback end.

Definition command (args : list string) : result cli_error Command :=
  match args with
  | "whoami" :: _ => Ok ("GET", "/api/v1/whoami", None)
  | "subnets" :: rest => resource rest "subnets" subnet_fields ["vlan"]
  | "addresses" :: rest => addresses rest
  | "devices" :: rest => resource rest "devices" device_fields []
  | name :: _ => Err (Unknown "command" name)
  | [] => Err (Message "no command given")
  end.

Definition global_flags : list (string * flag_kind) := [("url", StringFlag); ("token", StringFlag); ("insecure", BoolFlag)].

Definition run (environ : string → string) (argv : list string) : result cli_error cli_run :=
  match Parse_flags global_flags ∅ argv with
  | Err e => Err (FlagError e)
  | Ok (_, []) => Err (Message "no command given")
  | Ok (set, (verb :: _) as args) =>
      if decide (verb ∈ ["help"; "-h"; "--help"]) then Ok None
      else
        let url := text_of set "url" (environ "LIGHTIPAM_URL") in
        if decide (trim_space url = "") then Err (Message "set --url or LIGHTIPAM_URL")
        else
          let c := MkClient (trim_right_func (λ c, bool_decide (c = "/"%char)) url)
                     (trim_space (text_of set "token" (environ "LIGHTIPAM_TOKEN")))
                     (bool_of set "insecure" (bool_decide (environ "LIGHTIPAM_INSECURE" = "1"))) in
          match command args with Err e => Err e | Ok r => Ok (Some (c, r)) end
  end.

(** ** Requests *)

Record CliRequest : Type := MkCliRequest
  { cr_Method : string; cr_URL : string; cr_Headers : list (string * string); cr_Body : string }.

Definition request_of (c : client) (r : Command) : CliRequest :=
  let '(method, path, body) := r in
  MkCliRequest method (cl_baseURL c +:+ path)
    ((if decide (cl_token c = "") then [] else [("Authorization", "Bearer " +:+ cl_token c)]) ++
     match body with Some _ => [("Content-Type", "application/json")] | None => [] end)
    match body with Some b => cli_body b | None => "" end.

(** [Do]: the answer of the server, its status and what can be read of its body;
    [error_of]: the [error] of a JSON object; [Indent]: the indented text of JSON. *)
Section answers.
Context (Do : CliRequest → result string (Z * string)) (error_of Indent : string → option string).

Definition apiErrorMessage (body : string) : string :=
  match error_of body with Some e => if decide (e = "") then trim_space body else e | None => trim_space body end.
Definition printJSON (body : string) : string :=
  if decide (trim_space body = "") then "" else default body (Indent body) +:+ String (byte_of 10) "".

Definition show (c : client) (r : Command) : result string string :=
  match Do (request_of c r) with
  | Err e => Err e
  | Ok (status, out) =>
      if 400 <=? status then Err (r.1.1 +:+ " " +:+ r.1.2 +:+ ": HTTP " +:+ itoa status +:+ ": " +:+ apiErrorMessage out)
      else Ok (printJSON out)
  end.
End answers.

(** ** What the flags mean *)

(** Every flag that is set has the type it was declared with. *)
Definition of_kind (k : flag_kind) (v : json) : Prop :=
  match k with
  | StringFlag => ∃ t, v = JString t
  | IntFlag => ∃ n, v = JInt n ∧ in_int64 n
  | BoolFlag => ∃ b, v = JBool b
  end.

Lemma ParseInt0_range s n : ParseInt0 s = Some n → in_int64 n.
Proof.
  assert (∀ s (f : Z → Z), (v ← ParseUint0 s; if in_int64b (f v) then Some (f v) else None) = Some n → in_int64 n) as H.
  { intros t f Ht. destruct (ParseUint0 t) as [v|]; [cbn in Ht|done]. destruct (in_int64b (f v)) eqn:Hv; [|done].
    injection Ht as <-. by apply in_int64b_spec. }
  unfold ParseInt0. repeat case_match; apply (H _ (λ v, v)) || apply (H _ Z.opp).
Qed.

Lemma set_flag_kind kind name value v : set_flag kind name value = Ok v → of_kind kind v.
Proof.
  destruct kind; cbn; [intros [= <-]; by eexists| |].
  - destruct (ParseInt0 value) as [n|] eqn:Hn; [|done]. intros [= <-]. exists n. split; [done|]. by eapply ParseInt0_range.
  - destruct (parse_bool value); [|done]. intros [= <-]. by eexists.
Qed.

Lemma Parse_flags_typed formal set args set' rest :
  (∀ f v, set !! f = Some v → ∃ k, kind_of formal f = Some k ∧ of_kind k v) →
  Parse_flags formal set args = Ok (set', rest) →
  ∀ f v, set' !! f = Some v → ∃ k, kind_of formal f = Some k ∧ of_kind k v.
Proof.
  remember (length args) as n eqn:Hn. revert set args Hn. induction (lt_wf n) as [n _ IH]. intros set args -> Hset.
  destruct args as [|s args]; [by intros [= <- _]|]. cbn [Parse_flags].
  assert (∀ name kind value v, kind_of formal name = Some kind → set_flag kind name value = Ok v →
            ∀ f w, <[name:=v]> set !! f = Some w → ∃ k, kind_of formal f = Some k ∧ of_kind k w) as Hput.
  { intros name kind value v Hk Hv f w Hw. apply (lookup_insert_Some (M := gmap string)) in Hw as [[<- <-]|[_ Hw]]; [|by apply Hset].
    exists kind. split; [done|]. by eapply set_flag_kind. }
  destruct (argument_of s) as [| | |name value]; [by intros [= <- _]..|done|].
  destruct (kind_of formal name) as [kind|] eqn:Hk; [|done].
  assert (∀ v value args', set_flag kind name value = Ok v → (length args' < S (length args))%nat →
            Parse_flags formal (<[name:=v]> set) args' = Ok (set', rest) →
            ∀ f w, set' !! f = Some w → ∃ k, kind_of formal f = Some k ∧ of_kind k w) as Hgo.
  { intros v u args' Hv Hl Hp. eapply (IH (length args')); [exact Hl|done| |exact Hp]. by eapply Hput. }
  destruct kind.
  3: { destruct (set_flag BoolFlag name _) as [v|] eqn:Hv; [|done]. apply (Hgo _ _ _ Hv). lia. }
  all: destruct value as [u|]; [|destruct args as [|u args]; [done|]].
  all: destruct (set_flag _ name u) as [v|] eqn:Hv; [|done]; apply (Hgo _ _ _ Hv); cbn; lia.
Qed.

Lemma kind_of_fields fields intFields f k :
  kind_of (field_flags fields intFields) f = Some k → k = if decide (f ∈ intFields) then IntFlag else StringFlag.
Proof.
  unfold kind_of, field_flags. destruct (list_find _ _) as [[i [g k']]|] eqn:Hf; [|done]. cbn. intros [= ->].
  apply list_find_Some in Hf as (Hl & Hg & _). cbn in Hg. subst g. apply list_lookup_fmap_Some in Hl as (g & He & _).
  by injection He as -> ->.
Qed.

(** The flags of a body, as the lemmas on bodies want them. *)
Lemma field_flags_typed fields intFields args set rest :
  Parse_flags (field_flags fields intFields) ∅ args = Ok (set, rest) → typed_flags intFields set.
Proof.
  intros Hp f v Hv. eapply Parse_flags_typed in Hp as (k & Hk & Ho); [| |exact Hv]; [|by intros g w ?%(lookup_empty_Some (M := gmap string))].
  apply kind_of_fields in Hk as ->. by destruct (decide (f ∈ intFields)).
Qed.


Definition office_args : list string := ["--name"; "HQ"; "-vlan=0x7"; "--name=Office"; "--"; "left over"].

(** The usage text writes [--site-id] and [--device-id]; the flags have an underscore. *)
Theorem documented_flags_refused set :
  Parse_flags (field_flags subnet_fields ["vlan"]) set ["--site-id"; "s"] = Err (NotDefined "site-id") ∧
  Parse_flags (field_flags address_fields []) set ["--device-id"; "d"] = Err (NotDefined "device-id").
Proof. split; vm_compute; reflexivity. Qed.

(** An argument between the flags ends them: what follows is not sent, and nothing is
    said of it. *)
Theorem flags_behind_argument_ignored :
  parseFields_args "subnets create" ["--cidr"; "10.0.0.0/24"; "Core"; "--name"; "n"] subnet_fields ["vlan"]
  = Ok [("cidr", JString "10.0.0.0/24")].
Proof. vm_compute. reflexivity. Qed.

(** ** Every command has its route *)

Definition segment_matches (pattern segment : string) : bool :=
  if decide (pattern = "{id}") then negb (bool_decide (segment = "")) else bool_decide (pattern = segment).
Fixpoint segments_match (pattern path : list string) : bool :=
  match pattern, path with
  | [], [] => true
  | p :: pattern, s :: path => segment_matches p s && segments_match pattern path
  | _, _ => false
  end.
Definition path_matches (pattern path : string) : bool := segments_match (split_on "/" pattern) (split_on "/" path).

(** The argument that becomes part of the path. *)
Definition id_of (args : list string) : option string :=
  match args with
  | collection :: verb :: id :: _ =>
      if decide (collection = "addresses" ∨ verb ∈ ["get"; "update"; "delete"]) then Some id else None
  | _ => None
  end.

Definition plain_id (id : string) : Prop := id ≠ "" ∧ count_byte "/" id = 0%nat.

Lemma segment_matches_id id : plain_id id → segment_matches "{id}" id = true.
Proof. intros [Hne _]. unfold segment_matches. by rewrite decide_True, bool_decide_false. Qed.

Lemma matches_id collection id :
  plain_id id → collection ∈ ["subnets"; "addresses"; "devices"] →
  path_matches ("/api/v1/" +:+ collection +:+ "/{id}") ("/api/v1/" +:+ collection +:+ "/" +:+ id) = true.
Proof.
  intros Hid Hc. pose proof (segment_matches_id id Hid) as Hm. destruct Hid as [_ Hs]. unfold path_matches.
  assert (split_on "/" ("/api/v1/" +:+ collection +:+ "/" +:+ id) = ["" ; "api"; "v1"; collection; id]) as ->.
  { rewrite !elem_of_cons, elem_of_nil in Hc.
    destruct Hc as [->|[->|[->|[]]]]; (etrans; [|by rewrite <- (split_on_none "/" id Hs)]); reflexivity. }
  rewrite !elem_of_cons, elem_of_nil in Hc. destruct Hc as [->|[->|[->|[]]]].
  all: match goal with |- segments_match ?p ?q = true => change (segments_match p q) with (segment_matches "{id}" id && true) end.
  all: by rewrite Hm.
Qed.

Lemma matches_nested id :
  plain_id id → path_matches "/api/v1/subnets/{id}/addresses" ("/api/v1/subnets/" +:+ id +:+ "/addresses") = true.
Proof.
  intros Hid. pose proof (segment_matches_id id Hid) as Hm. destruct Hid as [_ Hs]. unfold path_matches.
  change (split_on "/" ("/api/v1/subnets/" +:+ id +:+ "/addresses")) with
    ("" :: "api" :: "v1" :: "subnets" :: split_on "/" (id +:+ String "/" "addresses")).
  rewrite split_on_app by done.
  match goal with |- segments_match ?p ?q = true => change (segments_match p q) with (segment_matches "{id}" id && true) end.
  by rewrite Hm.
Qed.

Section routed.
Context {env : Env} {app : App}.

Definition routed (r : Command) : Prop := ∃ pattern, (r.1.1, pattern) ∈ map fst (api_routes (env := env)) ∧ path_matches pattern r.1.2 = true.

Lemma routed_at m pattern p b : (m, pattern) ∈ map fst (api_routes (env := env)) → path_matches pattern p = true → routed (m, p, b).
Proof. intros Hin Hm. by exists pattern. Qed.

Lemma route_listed m pattern :
  existsb (λ x, bool_decide (x = (m, pattern))) (map fst (api_routes (env := env))) = true → (m, pattern) ∈ map fst (api_routes (env := env)).
Proof. intros H. apply existsb_exists in H as (x & Hin & ->%bool_decide_eq_true). by apply list_elem_of_In. Qed.

Lemma resource_routed name fields ints args r :
  name ∈ ["subnets"; "devices"] → resource args name fields ints = Ok r →
  (∀ id, id_of (name :: args) = Some id → plain_id id) → routed r.
Proof.
  intros Hname Hr Hid. unfold resource in Hr. destruct args as [|verb rest]; [done|].
  assert (∀ id, verb ∈ ["get"; "update"; "delete"] → needID (verb :: rest) name = Ok id → plain_id id) as Hplain.
  { intros id Hv Hn. unfold needID in Hn. destruct rest as [|i rest]; [done|]. destruct (decide _) as [|He] in Hn; [done|]. injection Hn as <-.
    apply Hid. cbn. rewrite decide_True; [done|by right]. }
  assert (name ∈ ["subnets"; "addresses"; "devices"]) as Hname3.
  { rewrite !elem_of_cons, elem_of_nil in Hname. destruct Hname as [->|[->|[]]]; [by left|by right; right; left]. }
  unfold with_id, with_body in Hr.
  assert (∀ m b, m ∈ ["GET"; "PUT"; "DELETE"] → ∀ id, plain_id id → routed (m, "/api/v1/" +:+ name +:+ "/" +:+ id, b)) as Hat.
  { intros m b Hm id Hi. apply (routed_at _ ("/api/v1/" +:+ name +:+ "/{id}")); [|by apply matches_id]. apply route_listed.
    rewrite !elem_of_cons, elem_of_nil in Hname; rewrite !elem_of_cons, elem_of_nil in Hm. destruct Hname as [->|[->|[]]], Hm as [->|[->|[->|[]]]]; reflexivity. }
  assert (∀ m b, m ∈ ["GET"; "POST"] → routed (m, "/api/v1/" +:+ name, b)) as Hall.
  { intros m b Hm. apply (routed_at _ ("/api/v1/" +:+ name)); [apply route_listed|].
    all: rewrite !elem_of_cons, elem_of_nil in Hname; rewrite !elem_of_cons, elem_of_nil in Hm; destruct Hname as [->|[->|[]]], Hm as [->|[->|[]]]; reflexivity. }
  repeat (destruct (decide _) as [->|_] in Hr); [..|done].
  - injection Hr as <-. apply Hall. by left.
  - destruct (needID _ _) as [id|] eqn:Hn; [|done]. injection Hr as <-. apply Hat; [by left|]. apply Hplain; [by left|done].
  - destruct (needID _ _) as [id|] eqn:Hn; [|done]. injection Hr as <-. apply Hat; [by right; right; left|].
    apply Hplain; [by right; right; left|done].
  - destruct (parseFields_args _ _ _ _); [|done]. injection Hr as <-. apply Hall. by right; left.
  - destruct (needID _ _) as [id|] eqn:Hn; [|done]. destruct (parseFields_args _ _ _ _); [|done]. injection Hr as <-.
    apply Hat; [by right; left|]. apply Hplain; [by right; left|done].
Qed.

Lemma addresses_routed args r :
  addresses args = Ok r → (∀ id, id_of ("addresses" :: args) = Some id → plain_id id) → routed r.
Proof.
  intros Hr Hid. unfold addresses in Hr. destruct args as [|verb rest]; [done|].
  assert (∀ id l, rest = id :: l → plain_id id) as Hplain.
  { intros id l ->. apply Hid. cbn. by rewrite decide_True by by left. }
  unfold with_body in Hr.
  repeat (destruct (decide _) as [->|_] in Hr); [..|done]; (destruct rest as [|id rest]; [done|]); pose proof (Hplain id rest eq_refl) as Hi.
  all: repeat (destruct (parseFields_args _ _ _ _) in Hr; [|done]); injection Hr as <-.
  1, 2: apply (routed_at _ "/api/v1/subnets/{id}/addresses"); [by apply route_listed|by apply matches_nested].
  all: apply (routed_at _ "/api/v1/addresses/{id}"); [by apply route_listed|].
  all: apply (matches_id "addresses" id Hi); by right; left.
Qed.

(** Whatever is typed, a command that is accepted and whose id is one plain segment of a
    path is a request the server has a route for. *)
Theorem commands_routed args r :
  command args = Ok r → (∀ id, id_of args = Some id → plain_id id) → routed r.
Proof.
  unfold command. intros Hc Hid. destruct args as [|name rest]; [done|]. revert Hc.
  destruct (decide (name = "whoami")) as [->|H1].
  { intros [= <-]. apply (routed_at _ "/api/v1/whoami"); [by apply route_listed|reflexivity]. }
  destruct (decide (name = "subnets")) as [->|H2]; [intros Hc; eapply resource_routed; [by left|exact Hc|exact Hid]|].
  destruct (decide (name = "addresses")) as [->|H3]; [intros Hc; by eapply addresses_routed|].
  destruct (decide (name = "devices")) as [->|H4]; [intros Hc; eapply resource_routed; [by right; left|exact Hc|exact Hid]|].
  repeat case_match; done.
Qed.
End routed.
