(* ===== verification/Boot.v ===== *)
(** * The start of the server: [internal/db] and [cmd/server]

    The migrations, any number of servers running them at once on one database, each
    losing whatever statements it loses, and what the server is started with. What a
    script does to the database is a parameter. *)

From S2P Require Import Prelude GoStrings GoTime Process Scans Config Reload.
Local Open Scope Z_scope.

(** ** The migrations *)

Inductive migrate_error : Type :=
| EnsureTable | CheckMigration (v : Z) | BeginMigration (v : Z) | ApplyMigration (v : Z) | RecordMigration (v : Z)
| CommitMigration (v : Z).
(** Where a transaction breaks off; a commit that is reported as failed may be there. *)
Inductive stage : Type := Beginning | Applying | Recording | Committing (kept : bool).

Section migrate.
(** [Shape]: the tables and their constraints; [script v]: what the statements of a
    version make of them, [None] when one of them is refused. *)
Context {Shape : Type} (script : Z → Shape → option Shape).

(** The rows of [schema_migrations], once there is the table; [sc_step] counts the
    statements. *)
Record Schema : Type := MkSchema { sc_versions : option (list Z); sc_shape : Shape; sc_step : nat }.
Definition applied (w : Schema) : list Z := default [] (sc_versions w).
Definition next_step (w : Schema) : Schema := MkSchema (sc_versions w) (sc_shape w) (S (sc_step w)).

(** The statement of a step that is lost; the stage at which the transaction of a step
    breaks off. *)
Context (lost : nat → bool) (broken : nat → option stage).

Definition migration_versions : list Z := seqZ 1 23.

(** [CREATE TABLE IF NOT EXISTS] *)
Definition ensure_table : prog Schema (result migrate_error unit) :=
  atomic (λ w, if lost (sc_step w) then (Err EnsureTable, next_step w)
               else (Ok (), MkSchema (Some (applied w)) (sc_shape w) (S (sc_step w)))).

Definition migration_exists (v : Z) : prog Schema (result migrate_error bool) :=
  atomic (λ w, (if lost (sc_step w) || negb (bool_decide (is_Some (sc_versions w))) then Err (CheckMigration v)
                else Ok (bool_decide (v ∈ applied w)), next_step w)).

(** The transaction: nobody sees it before it is committed, and of two that record the
    same version the key of the table lets one through. *)
Definition apply_migration (v : Z) : prog Schema (result migrate_error unit) :=
  atomic (λ w,
    match broken (sc_step w), script v (sc_shape w) with
    | Some Beginning, _ => (Err (BeginMigration v), next_step w)
    | Some Applying, _ | _, None => (Err (ApplyMigration v), next_step w)
    | at_stage, Some shape =>
        let done := MkSchema (Some (applied w ++ [v])) shape (S (sc_step w)) in
        if bool_decide (v ∈ applied w) then (Err (RecordMigration v), next_step w)
        else match at_stage with
             | Some Recording => (Err (RecordMigration v), next_step w)
             | Some (Committing kept) => (Err (CommitMigration v), if kept then done else next_step w)
             | _ => (Ok (), done)
             end
    end).

Fixpoint migrate_from (l : list Z) : prog Schema (result migrate_error unit) :=
  match l with
  | [] => Ret (Ok ())
  | v :: l =>
      found ←! migration_exists v;
      match found with
      | Err e => Ret (Err e)
      | Ok true => migrate_from l
      | Ok false =>
          done ←! apply_migration v;
          match done with Err e => Ret (Err e) | Ok _ => migrate_from l end
      end
  end.

Definition Migrate : prog Schema (result migrate_error unit) :=
  made ←! ensure_table;
  match made with Err e => Ret (Err e) | Ok _ => migrate_from migration_versions end.

(** ** What a migrated database is *)

Fixpoint run_scripts (l : list Z) (s : Shape) : option Shape :=
  match l with [] => Some s | v :: l => s' ← script v s; run_scripts l s' end.

Lemma run_scripts_app l l' s : run_scripts (l ++ l') s = s' ← run_scripts l s; run_scripts l' s'.
Proof. revert s. induction l as [|v l IH]; intros s; cbn; [done|]. destruct (script v s); cbn; [apply IH|done]. Qed.

(** From the database [base], the scripts of the first versions ran, in order and each
    once, and these versions are recorded. *)
Definition migrated (base : Shape) (w : Schema) : Prop :=
  ∃ k, applied w = take k migration_versions ∧ run_scripts (take k migration_versions) base = Some (sc_shape w).

(** No version is forgotten. *)
Definition keeps_versions (w w' : Schema) : Prop := applied w `prefix_of` applied w'.
#[export] Instance keeps_versions_preorder : PreOrder keeps_versions.
Proof. split; [by intros w; red|]. intros w1 w2 w3; unfold keeps_versions. by etrans. Qed.

(** A program that, started in [w], whatever the others do that keeps the versions,
    leaves a migrated database a migrated one, keeps the versions and ends in [Q]. *)
Fixpoint safe {A} (base : Shape) (Q : A → Schema → Prop) (p : prog Schema A) (w : Schema) : Prop :=
  match p with
  | Ret a => Q a w
  | Atom g k => ∀ w', keeps_versions w w' → migrated base w' →
      migrated base (g w') ∧ keeps_versions w' (g w') ∧ safe base Q (k w') (g w')
  end.
End migrate.

Section agree.
Context {Shape : Type} (script : Z → Shape → option Shape) (lost : nat → bool) (broken : nat → option stage) (base : Shape).

Abbreviation world := (Schema (Shape := Shape)).
Abbreviation vs := migration_versions.

Lemma versions_NoDup : NoDup vs.
Proof. apply NoDup_seqZ. Qed.

Lemma in_first k n v : vs !! k = Some v → v ∈ take n vs ↔ (k < n)%nat.
Proof.
  intros Hk. rewrite list_elem_of_lookup. split.
  - intros [j Hj]. apply lookup_take_Some in Hj as [Hj ?]. pose proof (NoDup_lookup _ _ _ _ versions_NoDup Hk Hj). lia.
  - intros ?. exists k. by rewrite lookup_take_lt.
Qed.

Lemma first_prefix k n : (k ≤ n)%nat → take k vs `prefix_of` take n vs.
Proof. intros H. exists (drop k (take n vs)). rewrite <-(take_drop k (take n vs)) at 1. by rewrite take_take, Nat.min_l. Qed.

Lemma prefix_first k n v : take k vs `prefix_of` take n vs → vs !! k = Some v → v ∉ take n vs → n = k.
Proof.
  intros Hp Hk Hv. rewrite (in_first _ _ _ Hk) in Hv. apply prefix_length in Hp. rewrite !length_take in Hp.
  apply lookup_lt_Some in Hk. lia.
Qed.

Lemma safe_then {A B} (Q : A → world → Prop) (Q' : B → world → Prop) (p : prog world A) (h : A → prog world B) w :
  safe script base Q p w → (∀ a w', Q a w' → safe script base Q' (h a) w') → safe script base Q' (prog_bind h p) w.
Proof.
  intros Hp Hh. revert w Hp. induction p as [a|g k IH]; intros w Hp; [by apply Hh|].
  intros w' Hk Hm. destruct (Hp w' Hk Hm) as (? & ? & ?). split_and!; [done..|]. by apply IH.
Qed.

Lemma safe_atomic {A} (Q : A → world → Prop) (f : world → A * world) w :
  (∀ w', keeps_versions w w' → migrated script base w' →
     migrated script base (f w').2 ∧ keeps_versions w' (f w').2 ∧ Q (f w').1 (f w').2) →
  safe script base Q (atomic f) w.
Proof. intros H w' Hk Hm. by apply H. Qed.

(** Others may go on in between. *)
Lemma safe_later {A} (Q : A → world → Prop) (p : prog world A) w w' :
  (∀ a w w', Q a w → keeps_versions w w' → migrated script base w' → Q a w') →
  safe script base Q p w → keeps_versions w w' → migrated script base w' → safe script base Q p w'.
Proof.
  intros HQ Hp Hk Hm. destruct p as [a|g k]; [by eapply HQ|]. intros v Hv. apply Hp. by etrans.
Qed.

Lemma next_step_migrated w : migrated script base w → migrated script base (next_step w) ∧ keeps_versions w (next_step w).
Proof. intros Hm. split; [exact Hm|]. by exists []; rewrite app_nil_r. Qed.

Definition reached (k : nat) (w : world) : Prop := take k vs `prefix_of` applied w.

Lemma migration_exists_safe k v w :
  vs !! k = Some v → reached k w →
  safe script base (λ r w', reached k w' ∧ (r = Ok true → reached (S k) w')) (migration_exists lost v) w.
Proof.
  intros Hv Hr. apply safe_atomic. intros w' Hk Hm. cbn. assert (reached k w') by (unfold reached in *; by etrans).
  split; [exact Hm|]. split; [apply (next_step_migrated _ Hm)|]. split; [done|]. destruct (_ || _); [done|]. intros [= Hin%bool_decide_eq_true].
  destruct Hm as (n & Hn & _). unfold reached. change (applied (next_step w')) with (applied w'). rewrite Hn in *.
  apply first_prefix. by apply (in_first _ _ _ Hv).
Qed.

(** The version that is next is recorded after its script ran. *)
Lemma migrated_next k v w shape :
  vs !! k = Some v → reached k w → migrated script base w → script v (sc_shape w) = Some shape → v ∉ applied w →
  let done := MkSchema (Some (applied w ++ [v])) shape (S (sc_step w)) in
  migrated script base done ∧ keeps_versions w done ∧ reached (S k) done.
Proof.
  intros Hv Hr (n & Hn & Hrun) Hs Hin. unfold reached in Hr. rewrite Hn in Hr, Hin.
  assert (n = k) as -> by (by eapply prefix_first). pose proof (take_S_r _ _ _ Hv) as Ht.
  unfold migrated, keeps_versions, reached. cbn [applied sc_versions default sc_shape]. rewrite Hn, <-Ht. split_and!.
  - exists (S k). split; [done|]. rewrite Ht, run_scripts_app, Hrun. cbn. by rewrite Hs.
  - apply first_prefix. lia.
  - done.
Qed.

Lemma apply_migration_safe k v w :
  vs !! k = Some v → reached k w →
  safe script base (λ r w', r = Ok () → reached (S k) w') (apply_migration script broken v) w.
Proof.
  intros Hv Hr. apply safe_atomic. intros w' Hk Hm. assert (reached k w') as Hw by (unfold reached in *; by etrans). cbn.
  destruct (next_step_migrated w' Hm) as [Hn1 Hn2].
  destruct (broken (sc_step w')) as [[| | |kept]|]; try by split_and!.
  all: destruct (script v (sc_shape w')) as [shape|] eqn:Hs; [|by split_and!].
  all: case_bool_decide as Hin; [by split_and!|]; try by split_and!.
  all: destruct (migrated_next k v w' shape Hv Hw Hm Hs Hin) as (H1 & H2 & H3).
  - by destruct kept.
  - by split_and!.
Qed.

Definition finished (r : result migrate_error unit) (w : world) : Prop := r = Ok () → vs `prefix_of` applied w.

Lemma migrate_from_safe l k w : l = drop k vs → reached k w → safe script base finished (migrate_from script lost broken l) w.
Proof.
  revert k w. induction l as [|v l IH]; intros k w Hl Hr; cbn [migrate_from].
  - intros _. unfold reached in Hr. symmetry in Hl. apply drop_nil_inv in Hl. by rewrite take_ge in Hr.
  - assert (vs !! k = Some v) as Hv by (rewrite <-(Nat.add_0_r k), <-lookup_drop, <-Hl; done).
    assert (l = drop (S k) vs) as Hl' by (rewrite <-Nat.add_1_r, <-drop_drop, <-Hl; done).
    eapply safe_then; [by apply (migration_exists_safe k)|]. intros r w' [Hw' Hr']. destruct r as [[]|e]; [|..|by intros ?].
    + by apply (IH (S k)), Hr'.
    + eapply safe_then; [by apply (apply_migration_safe k)|]. intros [[]|e] w'' H; [|by intros ?]. by apply (IH (S k)), H.
Qed.

Lemma Migrate_safe w : safe script base finished (Migrate script lost broken) w.
Proof.
  eapply (safe_then (λ _ _, True)).
  - apply safe_atomic. intros w' Hk Hm. destruct (next_step_migrated w' Hm) as [Hn1 Hn2]. by destruct (lost _).
  - intros [[]|e] w' _; [|by intros ?]. apply (migrate_from_safe _ 0); [done|]. by exists (applied w').
Qed.

(** ** Several servers *)

(** Any of the programs takes its next step. *)
Inductive pool_step {A} : list (prog world A) * world → list (prog world A) * world → Prop :=
| Pool_step ps i g k w : ps !! i = Some (Atom g k) → pool_step (ps, w) (<[i := k w]> ps, g w).

Lemma pool_safe {A} (Q : A → world → Prop) (x y : list (prog world A) * world) :
  (∀ a w w', Q a w → keeps_versions w w' → migrated script base w' → Q a w') →
  rtc pool_step x y → migrated script base x.2 → Forall (λ p, safe script base Q p x.2) x.1 →
  migrated script base y.2 ∧ keeps_versions x.2 y.2 ∧ Forall (λ p, safe script base Q p y.2) y.1.
Proof.
  intros HQ. induction 1 as [x|x x' y Hs Hr IH]; intros Hm Hp; [done|].
  destruct Hs as [ps i g k w Hi]. cbn [fst snd] in *. rewrite Forall_lookup in Hp.
  destruct (Hp i _ Hi w) as (Hm' & Hk' & Hsafe); [reflexivity|done|].
  destruct IH as (Hy & Hk & Hall); [done| |].
  - rewrite Forall_lookup. intros j p Hj. destruct (decide (i = j)) as [<-|Hne].
    + rewrite list_lookup_insert_eq in Hj by (by eapply lookup_lt_Some). by injection Hj as <-.
    + rewrite list_lookup_insert_ne in Hj by done. by apply (safe_later _ _ w _ HQ (Hp _ _ Hj)).
  - split_and!; [done| |done]. by etrans.
Qed.

(** C17: Whatever number of servers start on one database, in whatever order their statements
    come and whichever of them are lost, at every moment the scripts of the first versions
    have run, in order and each once, and exactly these are recorded; and a server that
    goes on to serve does so on the schema that all the scripts make. *)
Theorem servers_agree n w ps w' :
  migrated script base w → rtc pool_step (replicate n (Migrate script lost broken), w) (ps, w') →
  migrated script base w' ∧ keeps_versions w w' ∧
  (Ret (Ok ()) ∈ ps → applied w' = migration_versions ∧ run_scripts script migration_versions base = Some (sc_shape w')).
Proof.
  intros Hm Hr. destruct (pool_safe finished _ _ ltac:(intros a v v' Hf Hk _ Ha; specialize (Hf Ha); unfold keeps_versions in Hk; by etrans) Hr Hm)
    as (Hm' & Hk & Hall).
  { apply Forall_replicate, Migrate_safe. }
  split_and!; [done..|]. intros Hin. rewrite Forall_forall in Hall. specialize (Hall _ Hin eq_refl).
  destruct Hm' as (k & Hk' & Hrun). cbn [snd] in *. rewrite Hk' in Hall |- *.
  assert (take k vs = vs) as Ht; [|by rewrite Ht in Hrun |- *].
  apply take_ge. apply prefix_length in Hall. rewrite length_take in Hall. lia.
Qed.

(** One of them may go on to its end before the others do anything. *)
Lemma pool_alone {A} (ps : list (prog world A)) i p w :
  ps !! i = Some p → rtc pool_step (ps, w) (<[i := Ret (alone p w).1]> ps, (alone p w).2).
Proof.
  unfold alone. generalize 0%nat. revert ps w. induction p as [a|g k IH]; intros ps w j Hi; cbn.
  - by rewrite list_insert_id.
  - eapply rtc_l; [by apply Pool_step|]. pose proof (IH w (<[i:=k w]> ps) (g w) (S j)) as H. rewrite list_insert_insert_eq in H.
    apply H. apply list_lookup_insert_eq. by eapply lookup_lt_Some.
Qed.

(** ** A start after a failure *)

Section calm.
Context (Hlost : ∀ n, lost n = false) (Hbroken : ∀ n, broken n = None).

Lemma migrate_from_ok final l k w :
  run_scripts script vs base = Some final → l = drop k vs → reached k w → migrated script base w → is_Some (sc_versions w) →
  (alone (migrate_from script lost broken l) w).1 = Ok ().
Proof using Hlost Hbroken.
  intros Hf. revert k w. induction l as [|v l IH]; intros k w Hl Hr Hm Hs; [done|]. cbn [migrate_from].
  assert (vs !! k = Some v) as Hv by (rewrite <-(Nat.add_0_r k), <-lookup_drop, <-Hl; done).
  assert (l = drop (S k) vs) as Hl' by (rewrite <-Nat.add_1_r, <-drop_drop, <-Hl; done).
  rewrite alone_bind. unfold migration_exists. rewrite alone_atomic, Hlost, bool_decide_true by done. cbn [orb negb].
  destruct (next_step_migrated w Hm) as [Hn _].
  case_bool_decide as Hin.
  - apply (IH (S k)); [done| |done|done]. unfold reached. destruct Hn as (n & Hn & _). rewrite Hn. apply first_prefix.
    apply (in_first _ _ _ Hv). by rewrite <-Hn.
  - rewrite alone_bind. unfold apply_migration. rewrite alone_atomic, Hbroken.
    destruct (script v (sc_shape (next_step w))) as [shape|] eqn:Hscript.
    + destruct (migrated_next k v (next_step w) shape Hv Hr Hn Hscript Hin) as (H1 & _ & H3).
      rewrite bool_decide_false by done. by apply (IH (S k)).
    + exfalso. destruct Hn as (n & Hn & Hrun). unfold reached in Hr. change (applied w) with (applied (next_step w)) in Hr, Hin.
      rewrite Hn in Hr, Hin. assert (n = k) as -> by (by eapply prefix_first).
      rewrite <-(take_drop k vs), run_scripts_app, Hrun, <-Hl in Hf. cbn in Hf, Hscript. by rewrite Hscript in Hf.
Qed.

(** However far earlier starts came, one that loses no statement brings the database to
    the schema that all the scripts make, if they apply to each other's at all. *)
Theorem Migrate_completes w final :
  migrated script base w → run_scripts script migration_versions base = Some final →
  let '(r, w') := alone (Migrate script lost broken) w in r = Ok () ∧ applied w' = migration_versions ∧ sc_shape w' = final.
Proof using Hlost Hbroken.
  intros Hm Hf. pose proof (servers_agree 1 w _ _ Hm (pool_alone [Migrate script lost broken] 0 _ w eq_refl)) as (_ & _ & Hend).
  assert ((alone (Migrate script lost broken) w).1 = Ok ()) as Hr.
  { unfold Migrate. rewrite alone_bind. unfold ensure_table. rewrite alone_atomic, Hlost.
    apply (migrate_from_ok final _ 0); [done..|by exists (applied w)| |done]. exact Hm. }
  destruct (alone _ w) as [r w']. cbn [fst snd list_insert insert] in *. subst r.
  destruct Hend as [Hv Hrun]; [by left|]. rewrite Hf in Hrun. by injection Hrun as <-.
Qed.
End calm.
End agree.

(** ** Runs *)

(** Every version adds a line to the schema. *)
Definition add_line (v : Z) (s : list Z) : option (list Z) := Some (s ++ [v]).
Definition fresh : Schema (Shape := list Z) := MkSchema None [] 0.
Definition start_server : prog (Schema (Shape := list Z)) (result migrate_error unit) :=
  Migrate add_line (λ _, false) (λ _, None).

Lemma fresh_migrated : migrated add_line [] fresh.
Proof. by exists 0%nat. Qed.

Lemma servers_agree_witness :
  let w' := (alone start_server fresh).2 in
  rtc pool_step (replicate 2 start_server, fresh) ([Ret (Ok ()); start_server], w') ∧
  applied w' = migration_versions ∧ run_scripts add_line migration_versions [] = Some (sc_shape w').
Proof.
  assert (rtc pool_step (replicate 2 start_server, fresh) ([Ret (Ok ()); start_server], (alone start_server fresh).2)) as Hr
    by exact (pool_alone [start_server; start_server] 0 start_server fresh eq_refl).
  split; [exact Hr|].
  apply (servers_agree add_line (λ _, false) (λ _, None) [] 2 fresh _ _ fresh_migrated Hr). by left.
Defined.

(** The commit of the third version is lost and kept all the same; the next start goes
    on from there. *)
Definition interrupted : Schema (Shape := list Z) :=
  (alone (Migrate add_line (λ _, false) (λ n, if (n =? 6)%nat then Some (Committing true) else None)) fresh).2.
Lemma Migrate_completes_witness :
  applied interrupted = [1; 2; 3] ∧ migrated add_line [] interrupted ∧
  (alone start_server interrupted).1 = Ok () ∧ sc_shape (alone start_server interrupted).2 = migration_versions.
Proof.
  assert (migrated add_line [] interrupted) as Hm by (exists 3%nat; by split).
  split; [by vm_compute|]. split; [exact Hm|].
  pose proof (Migrate_completes add_line (λ _, false) (λ _, None) [] (λ _, eq_refl) (λ _, eq_refl) interrupted migration_versions Hm eq_refl) as H.
  unfold start_server. destruct (alone (Migrate _ _ _) interrupted) as [r w']. destruct H as (Hr & _ & Hs). by split.
Defined.

(** Of two servers that start at once one may find a version missing that the other is
    applying: its own transaction is refused and it ends, although nothing is wrong. *)
Definition another_server (i : nat) (w : Schema (Shape := list Z)) : Schema (Shape := list Z) :=
  if (i =? 2)%nat then (alone start_server w).2 else w.
Theorem second_server_ends :
  (exec another_server 0 start_server fresh).1 = Err (RecordMigration 1) ∧
  applied (exec another_server 0 start_server fresh).2 = migration_versions.
Proof. by vm_compute. Qed.

(** ** The server *)

(** The scheduler's time between ticks: what is not positive is half a minute. *)
Definition scheduler_interval (interval : Z) : Z := if interval <=? 0 then 30 * second else interval.

Section server.
Context {Keypair CertPool : Type}.
Context (X509KeyPair : string → string → result string Keypair) (AppendCertsFromPEM : string → option CertPool)
        (ReadFile : string → option string) (environ : string → string) (generated : list Z) (version : string).

(** The dispatcher is its TLS configuration. *)
Definition buildDispatcher (cfg : Config) : result string (TLSConfig (Keypair := Keypair) (CertPool := CertPool)) :=
  match ReadFile (ScannerClientCert cfg), ReadFile (ScannerClientKey cfg), ReadFile (ScannerCACert cfg) with
  | None, _, _ => Err "read client certificate"
  | _, None, _ => Err "read client key"
  | _, _, None => Err "read CA certificate"
  | Some cert, Some key, Some ca => ClientTLSConfig X509KeyPair AppendCertsFromPEM cert key ca ""
  end.

Record ServerSetup : Type := MkServerSetup
  { sv_Addr : string; sv_dispatcher : option (TLSConfig (Keypair := Keypair) (CertPool := CertPool)); sv_interval : Z;
    sv_agent : string; sv_config : Config }.
Inductive server_run : Type := PrintServerVersion (text : string) | ServerExit (why : string) | Serve (s : ServerSetup).

(** [connected]: the database answers a ping; [migration]: what [Migrate] returns. *)
Definition server_main (args : list string) (connected : bool) (migration : result migrate_error unit) : server_run :=
  let cfg := Load environ generated in
  let start :=
    if negb connected then ServerExit "connect database"
    else match migration with
         | Err _ => ServerExit "migrate database"
         | Ok _ => Serve (MkServerSetup (":" +:+ Port cfg)
                     (match buildDispatcher cfg with Ok d => Some d | Err _ => None end)
                     (scheduler_interval (ScanSchedulerTick cfg)) (ScannerAgentEndpoint cfg) cfg)
         end in
  match args with
  | arg :: _ => if decide (arg = "--version" ∨ arg = "version") then PrintServerVersion ("light-ipam " +:+ version) else start
  | [] => start
  end.

(** A server that serves does so on a migrated database and ticks at positive intervals;
    it calls agents only with a certificate of its own, and checks theirs, by the name it
    calls them, against its roots, in TLS 1.2 at least. *)
Theorem started_server_is_sane args connected migration s :
  server_main args connected migration = Serve s →
  connected = true ∧ migration = Ok () ∧ 0 < sv_interval s ∧
  ∀ d, sv_dispatcher s = Some d →
    tc_Certificates d ≠ [] ∧ is_Some (tc_RootCAs d) ∧ tc_ServerName d = "" ∧ tc_MinVersion d = VersionTLS12.
Proof.
  intros Hm. unfold server_main in Hm. cbv zeta in Hm.
  set (start := if negb connected then _ else _) in Hm. assert (start = Serve s) as Hs by (destruct args; [done|by destruct (decide _) in Hm]).
  subst start. clear Hm. destruct connected; [|done]. cbn [negb] in Hs. destruct migration as [[]|]; [|done]. injection Hs as <-.
  cbn [sv_interval sv_dispatcher]. split_and!; [done..| |].
  - unfold scheduler_interval, second. case_match; lia.
  - intros d Hd. unfold buildDispatcher, ClientTLSConfig in Hd. repeat (case_match; try done). simplify_eq/=. by split_and!.
Qed.
End server.

Lemma started_server_is_sane_witness :
  let files := λ _ : string, Some "pem" in
  ∃ s d, server_main (λ cert key, Ok (cert, key)) Some files (λ _, "") [] "1.0" [] true (Ok ()) = Serve s ∧ sv_dispatcher s = Some d ∧
    0 < sv_interval s ∧ tc_Certificates d ≠ [] ∧ is_Some (tc_RootCAs d).
Proof.
  cbv zeta. destruct (server_main _ _ _ _ _ _ _ _ _) as [|why|s] eqn:Hs; [discriminate Hs..|].
  assert (is_Some (sv_dispatcher s)) as [d Hd] by (unfold server_main in Hs; cbn zeta in Hs; injection Hs as <-; by eexists).
  pose proof (started_server_is_sane _ _ _ _ _ _ _ _ _ _ Hs) as (_ & _ & Hi & H). destruct (H d Hd) as (Hc & Hr & _).
  exists s, d. by split_and!.
Defined.
